(* ===== verification/_CoqProject ===== *)
-Q . S2P
Prelude.v
Riscv.v
StringC.v
State.v
Spinlock.v
Kalloc.v
Vm.v
VmTable.v
VmCopy.v
VmFork.v
Sched.v
Sleeplock.v
SchedSpec.v
Printf.v
PrintfSpec.v
Console.v
Virtio.v
Bio.v
BioSpec.v
VirtioSpec.v
Log.v
LogSpec.v
FsTx.v
FsOp.v
Fs.v
FsBlock.v
FsFile.v
FsInode.v
FsRw.v
FsRead.v
FsDir.v
FsDisk.v
FsExample.v
FsSpec.v
FsTable.v
FsPath.v
FsNamei.v
Pipe.v
PipeSpec.v
File.v
FileSpec.v
Vma.v
Proc.v
Syscall.v
Exec.v
Sysfile.v
Mmap.v
MmapSpec.v
MmapFault.v
MmapBack.v
Trap.v
Trampoline.v
User.v
Grep.v
Sh.v
ShSpec.v
Umalloc.v
Utils.v
Mkfs.v
Grind.v
Mmaptest.v
UsertestsFs.v
UsertestsProc.v
Usertests.v
Start.v
