(* ===== verification/Prelude.v ===== *)
(** * A verification development for xv6 (MIT 6.1810, mmap lab)

    xv6 is a small Unix: a kernel for RISC-V (src/kernel), user programs
    (src/user) and the program that builds the disk image (src/mkfs). This
    library models its C and assembly as executable definitions and proves
    what makes its parts correct.

    ** The parts and how they meet

    A hart starts in machine mode ([Start]: entry.S, start.c) and enters
    main() ([Trap]). User code runs until a trap; trampoline.S saves the
    registers and enters usertrap(), which serves a system call, a page fault
    of a mapped file, or an interrupt ([Trampoline], [Trap], [Syscall]).
    System calls act on processes ([Proc], [Sched]), memory ([Kalloc], [Vm],
    [Mmap], [Vma]), files ([Sysfile], [File], [Pipe], [Console]) and programs
    ([Exec]). Files live in the file system ([Fs]), which writes through the
    log ([Log]), which uses the buffer cache ([Bio]), which uses the disk
    driver ([Virtio]). Everything shared is protected by spin-locks
    ([Spinlock]) or sleep-locks ([Sleeplock]).

    ** How code is modelled

    - The kernel's state is the record [kstate] of [State]: one record per C
      struct, arrays as lists, pointers into static arrays as indices,
      everything in kalloc()ed pages as bytes of [k_mem] at the C offsets.
      Integers are [Z] with their wrap-around written out ([u8] to [u64],
      [s16] to [s64]).
    - A kernel function is a computation [K A], a state monad whose results
      are [Ok], [Panic] (the C panic(), or a failed access), [Swtch] (the CPU
      is given away; the computation goes on from the state the scheduler
      resumes it in) and [Diverge] (a loop ran out of its bound).
    - What several harts or processes do at once is a step relation over the
      shared variables ([Spinlock.Harts], [Sched.Wakeup]). Elsewhere a
      function runs alone between two switches, which is what its locks give.
    - A user program is a tree of system calls, [prog] of [User], run against
      a kernel given as a function. Accesses to memory that the kernel may
      have to provide or refuse are events of the tree too.
    - Code that is not in the repository is a parameter: the block device
      ([Bio.BlockDev], [VirtioSpec.VirtioDevice]), the addresses the linker
      chooses ([Kalloc.Linker]), the registers of the interrupt controller, the
      answers of sbrk() ([Umalloc.SbrkOS]). Each has an instance that the
      witnesses use.

    ** Files and theorems

    - [Riscv], [StringC]: constants of the headers, string.c. memmove() copies
      overlapping ranges correctly.
    - [Spinlock]: spinlock.c. Mutual exclusion for any number of harts;
      push_off() and pop_off() nest.
    - [Kalloc]: kalloc.c. Over every run a page is never handed out twice.
    - [Vm], [VmTable], [VmCopy], [VmFork]: vm.c. mappages() and uvmunmap()
      change exactly the mappings they are asked to; copyin(), copyinstr() and
      copyout() agree with a byte-by-byte reading of user memory; uvmcopy()
      gives the child the parent's memory in pages of its own, or undoes what
      it did.
    - [Sched], [SchedSpec], [Sleeplock]: proc.c's switching, sleeplock.c. No
      wake-up is lost; a pass of the scheduler runs every ready process.
    - [Printf], [PrintfSpec], [Console]: printf.c, uart.c, console.c. printf()
      sends the texts that the pieces of its format stand for, as long as
      numerals fit its buffer.
    - [Virtio], [VirtioSpec]: virtio_disk.c. Against any device that serves
      its queue when notified, and interrupts again when its last interrupt was
      acknowledged, the driver transfers the requested block: it refines the
      interface the cache is written against.
    - [Bio], [BioSpec]: bio.c. The cache behaves as a map from blocks to
      contents with reference counts.
    - [Log], [LogSpec]: log.c. Whatever the moment of a crash in commit(), and
      of any number of crashes in the recoveries that follow, the disk ends in
      the state before or after the transaction.
    - [Fs]: fs.c, as code. [FsTx] and [FsOp] give the invariant inside a
      transaction and between two of them; [FsBlock], [FsFile], [FsInode],
      [FsRw], [FsRead] and [FsDir] the free map, the blocks of a file, the
      inodes on disk, writei(), readi() and directories; [FsDisk] the meaning
      of a disk, and [FsExample] a small one that the witnesses evaluate.
      [FsSpec] states the results: writei() and readi() change and deliver
      exactly the bytes asked for, dirlink() adds one binding to a directory
      seen as a map, balloc() hands out a free block, ilock() loads each
      field of an inode from its place on the disk, and an inode stored is
      loaded again.
    - [FsTable], [FsPath], [FsNamei]: the inode table, the splitting of path
      names and namex(), which finds the inode that the directories on the
      disk lead to and leaves one reference more, or none.
    - [Pipe], [PipeSpec]: pipe.c. A pipe is a bounded queue.
    - [File], [FileSpec], [Vma], [Proc], [Syscall], [Exec], [Sysfile]: file.c,
      proc.c, syscall.c, exec.c, sysfile.c and sysproc.c (with [Trap]).
      filewrite() is atomic chunk by chunk: a crash at any disk write leaves,
      after recovery, a whole number of chunks written.
    - [Mmap], [MmapSpec], [MmapFault], [MmapBack]: mmap(), munmap() and the
      page-fault handler. A mapping is placed so that areas stay disjoint; bad
      arguments change nothing; two ways for a program to bring the kernel down
      are proved. After a fault the process sees the file in the page:
      allocator, page table, console, inode lock and readi() together. munmap()
      of a shared page puts what the process saw there into the file, all or
      nothing whatever the moment of a crash: page table, allocator, inode lock,
      writei(), log and file table together. When the file goes on after the
      page, or a page before it was never touched, it writes the wrong bytes or
      the wrong place, which is proved too.
    - [Trap], [Trampoline]: trap.c, plic.c, main.c; trampoline.S, swtch.S and
      kernelvec.S as instruction lists. Registers survive a trap, a switch
      and a kernel interrupt.
    - [Start]: entry.S, start.c. main() is entered in supervisor mode with a
      stack for each hart.
    - [User], [Umalloc], [Grep], [Sh], [ShSpec], [Utils]: ulib.c, printf.c,
      umalloc.c, grep.c, sh.c and the small programs. The blocks of
      malloc() below 2 GB never overlap (and malloc() of 4 GB returns a block that is not there); grep's
      matcher decides regular expressions and grep writes the matching lines;
      the shell's parser stops on every line and reads back what a grammar
      writes.
    - [Mkfs]: mkfs.c. While the image has room, iappend() appends to a file of
      it.
    - [Grind], [Mmaptest], [UsertestsFs], [UsertestsProc], [Usertests]: the
      test programs grind.c, mmaptest.c and usertests.c. grind's generator is
      the one of Park and Miller; mmaptest's check accepts exactly the pages
      that show the file it has written; the driver of usertests runs the
      selected tests in order, each in a child, and reports as their statuses
      say.

    ** Bounds

    A C loop that the code bounds is a fold or a structural recursion. A loop
    whose length depends on data has a bound argument large enough for every
    state that occurs: the number of pages, blocks, buffers or characters
    concerned (stated where it is defined), and the theorems prove the result
    [Ok] under that bound, so that it is not used up. Loops that wait for
    another process or a device ([patience] in [Sched]) can be kept waiting
    for ever by their environment; their theorems say what happens when the
    condition holds. Recursion in the shell's parser has four levels for
    every character of the line, which [ShSpec.parser_terminates] proves to be
    enough. A loop of a test program that ends when the kernel's answer says
    so takes its bound as an argument.

    The theorems on files assume a free map of one block (at most 8192 blocks,
    four times what mkfs makes), room for an operation's blocks in the log and
    two free entries in the inode table, which the witnesses show to hold.
    Those on munmap() are about one page at a time, of a file that is open
    elsewhere.

    ** Not modelled

    - The build rules and the course's grading scripts (Makefile, gradelib.py,
      the grade- scripts): they run the system from outside.
    - Declarations without code: kernel/defs.h and the prototypes of user.h.
    - The contents of device registers beyond those named above, the TLB
      (sfence.vma is a no-op), the memory ordering of the hardware and its
      speculation; two harts inside the same unlocked code.
    - The host's I/O errors in mkfs other than a read past the end of the image,
      and failure of malloc() in the shell's constructors, which the source does
      not handle either.
    - The linker scripts: they fix the addresses that are parameters here. *)

From Stdlib Require Export ZArith Lia.
From stdpp Require Export base tactics list list_numbers gmap strings.

#[global] Open Scope Z_scope.

(** [dlia] is [lia] with constant divisions and remainders turned into
    equations first. *)
Ltac dlia := intros; Z.div_mod_to_equations; lia.

(** ** Machine integers

    A w-bit C integer is a [Z]; every place where the C code can wrap
    applies one of these functions. *)

Definition u8 (z : Z) : Z := z mod 2 ^ 8.
Definition u16 (z : Z) : Z := z mod 2 ^ 16.
Definition u32 (z : Z) : Z := z mod 2 ^ 32.
Definition u64 (z : Z) : Z := z mod 2 ^ 64.

(** Conversion to a signed type keeps the representative in
    [[-2^(w-1), 2^(w-1))], as gcc documents for RISC-V. *)
Definition s16 (z : Z) : Z := (z + 2 ^ 15) mod 2 ^ 16 - 2 ^ 15.
Definition s32 (z : Z) : Z := (z + 2 ^ 31) mod 2 ^ 32 - 2 ^ 31.
Definition s64 (z : Z) : Z := (z + 2 ^ 63) mod 2 ^ 64 - 2 ^ 63.

(** C truth values. *)
Definition c_true (z : Z) : bool := negb (z =? 0).
Definition bit_set (x mask : Z) : bool := negb (Z.land x mask =? 0).

Lemma u8_small z : 0 <= z < 2 ^ 8 -> u8 z = z.
Proof. apply Z.mod_small. Qed.
Lemma u16_small z : 0 <= z < 2 ^ 16 -> u16 z = z.
Proof. apply Z.mod_small. Qed.
Lemma u32_small z : 0 <= z < 2 ^ 32 -> u32 z = z.
Proof. apply Z.mod_small. Qed.
Lemma u64_small z : 0 <= z < 2 ^ 64 -> u64 z = z.
Proof. apply Z.mod_small. Qed.
Lemma u8_range z : 0 <= u8 z < 2 ^ 8.
Proof. apply Z.mod_pos_bound; lia. Qed.
Lemma u16_range z : 0 <= u16 z < 2 ^ 16.
Proof. apply Z.mod_pos_bound; lia. Qed.
Lemma u32_range z : 0 <= u32 z < 2 ^ 32.
Proof. apply Z.mod_pos_bound; lia. Qed.
Lemma u64_range z : 0 <= u64 z < 2 ^ 64.
Proof. apply Z.mod_pos_bound; lia. Qed.
Lemma s32_small z : - 2 ^ 31 <= z < 2 ^ 31 -> s32 z = z.
Proof. unfold s32. intros. rewrite Z.mod_small; lia. Qed.
Lemma s16_range z : - 2 ^ 15 <= s16 z < 2 ^ 15.
Proof. unfold s16. pose proof (Z.mod_pos_bound (z + 2 ^ 15) (2 ^ 16) ltac:(lia)). lia. Qed.
Lemma s32_range z : - 2 ^ 31 <= s32 z < 2 ^ 31.
Proof. unfold s32. pose proof (Z.mod_pos_bound (z + 2 ^ 31) (2 ^ 32)). lia. Qed.

(** ** Bits *)

Lemma land_pow2_bit x k : 0 <= k -> Z.land x (2 ^ k) = if Z.testbit x k then 2 ^ k else 0.
Proof.
  intros Hk. apply Z.bits_inj'. intros n Hn.
  rewrite Z.land_spec, Z.pow2_bits_eqb by lia.
  destruct (Z.eqb_spec k n) as [->|Hne].
  - destruct (Z.testbit x n); [rewrite Z.pow2_bits_true by lia; done | by rewrite Z.bits_0].
  - rewrite andb_false_r. destruct (Z.testbit x k);
      [rewrite Z.pow2_bits_false by lia; done | by rewrite Z.bits_0].
Qed.

Lemma bit_set_testbit x k : 0 <= k -> bit_set x (2 ^ k) = Z.testbit x k.
Proof.
  intros Hk. unfold bit_set. rewrite land_pow2_bit by done.
  destruct (Z.testbit x k); [|done].
  pose proof (Z.pow_pos_nonneg 2 k ltac:(lia) Hk).
  destruct (Z.eqb_spec (2 ^ k) 0); [lia|done].
Qed.

Lemma lor_disjoint_add a b : Z.land a b = 0 -> Z.lor a b = a + b.
Proof. intros H. rewrite <- Z.add_lor_land, H. by rewrite Z.add_0_r. Qed.

(** Low bits under a shifted high part. *)
Lemma lor_range a b k : 0 <= k -> 0 <= a < 2 ^ k -> 0 <= b < 2 ^ k -> 0 <= Z.lor a b < 2 ^ k.
Proof.
  intros Hk Ha Hb. assert (0 <= Z.lor a b) as H0 by (apply Z.lor_nonneg; lia). split; [done|].
  destruct (Z.eq_dec (Z.lor a b) 0) as [E|Hne]; [lia|].
  assert (0 < k) as Hk0.
  { destruct (Z.eq_dec k 0) as [->|]; [|lia]. change (2 ^ 0) with 1 in *.
    replace a with 0 in Hne by lia. replace b with 0 in Hne by lia. done. }
  apply Z.log2_lt_pow2; [lia|]. rewrite Z.log2_lor by lia.
  assert (forall x, 0 <= x < 2 ^ k -> Z.log2 x < k) as Hl.
  { intros x Hx. destruct (Z.eq_dec x 0) as [->|]; [by cbn|]. apply Z.log2_lt_pow2; lia. }
  apply Z.max_lub_lt; by apply Hl.
Qed.

Lemma land_shiftl_low hi lo k : 0 <= k -> 0 <= lo < 2 ^ k -> Z.land (Z.shiftl hi k) lo = 0.
Proof.
  intros Hk Hlo. apply Z.bits_inj'. intros n Hn. rewrite Z.land_spec, Z.bits_0.
  destruct (Z.lt_ge_cases n k).
  - rewrite Z.shiftl_spec_low by done. done.
  - destruct (Z.eq_dec lo 0) as [->|]; [by rewrite Z.bits_0, andb_false_r|].
    rewrite (Z.bits_above_log2 lo n), andb_false_r; [done|lia|].
    apply Z.log2_lt_pow2; [lia|].
    apply Z.lt_le_trans with (2 ^ k); [lia|]. apply Z.pow_le_mono_r; lia.
Qed.

Lemma lor_shiftl_low hi lo k :
  0 <= k -> 0 <= lo < 2 ^ k -> Z.lor (Z.shiftl hi k) lo = hi * 2 ^ k + lo.
Proof.
  intros. rewrite lor_disjoint_add by (by apply land_shiftl_low).
  by rewrite Z.shiftl_mul_pow2.
Qed.

(** ** Bytes, little-endian words *)

Definition is_byte (b : Z) : Prop := 0 <= b < 256.

Fixpoint le_bytes (n : nat) (z : Z) : list Z :=
  match n with
  | O => []
  | S n => z mod 256 :: le_bytes n (z / 256)
  end.

Fixpoint le_value (l : list Z) : Z :=
  match l with
  | [] => 0
  | b :: l => b + 256 * le_value l
  end.

Lemma length_le_bytes n z : length (le_bytes n z) = n.
Proof. revert z. induction n; intros; cbn; [done | by rewrite IHn]. Qed.

Lemma le_bytes_is_byte n z : Forall is_byte (le_bytes n z).
Proof.
  revert z. induction n; intros; cbn; constructor; [|done].
  unfold is_byte. apply Z.mod_pos_bound; lia.
Qed.

Lemma le_value_bytes n z : le_value (le_bytes n z) = z mod 256 ^ Z.of_nat n.
Proof.
  revert z. induction n as [|n IH]; intros z.
  - cbn. by rewrite Z.mod_1_r.
  - cbn [le_bytes le_value]. rewrite IH, Nat2Z.inj_succ, Z.pow_succ_r by lia.
    rewrite Z.rem_mul_r by lia. lia.
Qed.

Lemma le_value_range l : Forall is_byte l -> 0 <= le_value l < 256 ^ Z.of_nat (length l).
Proof.
  induction 1 as [|b l Hb _ IH]; cbn [le_value length]; [cbn; lia|].
  rewrite Nat2Z.inj_succ, Z.pow_succ_r by lia. unfold is_byte in Hb. lia.
Qed.

Lemma le_bytes_value l : Forall is_byte l -> le_bytes (length l) (le_value l) = l.
Proof.
  induction 1 as [|b l Hb _ IH]; [done|]. cbn [le_value length le_bytes].
  unfold is_byte in Hb. f_equal; [dlia|].
  etrans; [|exact IH]. f_equal. dlia.
Qed.

(** ** Byte-addressed memory

    Physical memory is a total function from addresses to bytes; the
    block operations of string.c act on address ranges. *)

Abbreviation mem := (Z -> Z) (only parsing).

Definition in_range (a n x : Z) : bool := (a <=? x) && (x <? a + n).

Definition mem_read (m : mem) (a : Z) (n : nat) : list Z :=
  map (fun i => m (a + Z.of_nat i)) (seq 0 n).

Definition mem_write (m : mem) (a : Z) (l : list Z) : mem := fun x =>
  if in_range a (Z.of_nat (length l)) x then nth (Z.to_nat (x - a)) l 0 else m x.

Definition mem_set (m : mem) (a c n : Z) : mem := fun x =>
  if in_range a n x then u8 c else m x.

Definition mem_copy (m : mem) (dst src n : Z) : mem := fun x =>
  if in_range dst n x then m (src + (x - dst)) else m x.

Definition load (n : nat) (m : mem) (a : Z) : Z := le_value (mem_read m a n).
Definition store (n : nat) (m : mem) (a v : Z) : mem := mem_write m a (le_bytes n v).

Abbreviation load8 := (load 1).
Abbreviation load16 := (load 2).
Abbreviation load32 := (load 4).
Abbreviation load64 := (load 8).
Abbreviation store8 := (store 1).
Abbreviation store16 := (store 2).
Abbreviation store32 := (store 4).
Abbreviation store64 := (store 8).

Definition mem_ok (m : mem) : Prop := forall a, is_byte (m a).

Lemma in_range_true a n x : in_range a n x = true <-> a <= x < a + n.
Proof. unfold in_range. lia. Qed.
Lemma in_range_false a n x : in_range a n x = false <-> x < a \/ a + n <= x.
Proof. unfold in_range. lia. Qed.

Lemma length_mem_read m a n : length (mem_read m a n) = n.
Proof. unfold mem_read. by rewrite length_map, length_seq. Qed.

Lemma mem_read_S m a n : mem_read m a (S n) = m a :: mem_read m (a + 1) n.
Proof.
  unfold mem_read. cbn [seq map]. f_equal; [f_equal; lia|].
  rewrite <- seq_shift, map_map. apply map_ext. intros. f_equal. lia.
Qed.

Lemma mem_read_ext m m' a n :
  (forall x, a <= x < a + Z.of_nat n -> m x = m' x) -> mem_read m a n = mem_read m' a n.
Proof.
  intros H. unfold mem_read. apply map_ext_in. intros i Hi%in_seq. apply H. lia.
Qed.

Lemma mem_read_app m a n k :
  mem_read m a (n + k) = mem_read m a n ++ mem_read m (a + Z.of_nat n) k.
Proof.
  revert a. induction n as [|n IH]; intros a.
  - cbn. by rewrite Z.add_0_r.
  - cbn [Nat.add]. rewrite !mem_read_S, IH. cbn. do 3 f_equal. lia.
Qed.

Lemma mem_read_lookup m a n i : (i < n)%nat -> mem_read m a n !! i = Some (m (a + Z.of_nat i)).
Proof.
  intros H. unfold mem_read. rewrite list_lookup_fmap, lookup_seq_lt by done. cbn.
  do 2 f_equal.
Qed.

Lemma mem_read_is_byte m a n : mem_ok m -> Forall is_byte (mem_read m a n).
Proof. intros H. unfold mem_read. apply Forall_forall. intros x (i & <- & _)%list_elem_of_In%in_map_iff. apply H. Qed.

Lemma mem_write_in m a l x :
  a <= x < a + Z.of_nat (length l) -> mem_write m a l x = nth (Z.to_nat (x - a)) l 0.
Proof. intros H. unfold mem_write. by rewrite (proj2 (in_range_true _ _ _) H). Qed.

Lemma mem_write_out m a l x :
  x < a \/ a + Z.of_nat (length l) <= x -> mem_write m a l x = m x.
Proof. intros H. unfold mem_write. by rewrite (proj2 (in_range_false _ _ _) H). Qed.

Lemma mem_write_lookup m a l i b :
  l !! i = Some b -> mem_write m a l (a + Z.of_nat i) = b.
Proof.
  intros Hi. pose proof (lookup_lt_Some _ _ _ Hi). rewrite mem_write_in by lia.
  replace (Z.to_nat (a + Z.of_nat i - a)) with i by lia.
  by apply nth_lookup_Some.
Qed.

Lemma mem_read_write m a l : mem_read (mem_write m a l) a (length l) = l.
Proof.
  apply list_eq. intros i. destruct (decide (i < length l)%nat) as [Hi|Hi].
  - rewrite mem_read_lookup by done. destruct (lookup_lt_is_Some_2 l i Hi) as [b Hb].
    rewrite Hb. f_equal. by apply mem_write_lookup.
  - rewrite !lookup_ge_None_2; [done|lia|rewrite length_mem_read; lia].
Qed.

Lemma mem_read_write_out m a l b n :
  b + Z.of_nat n <= a \/ a + Z.of_nat (length l) <= b ->
  mem_read (mem_write m a l) b n = mem_read m b n.
Proof. intros H. apply mem_read_ext. intros x Hx. apply mem_write_out. lia. Qed.

Lemma mem_write_ok m a l : mem_ok m -> Forall is_byte l -> mem_ok (mem_write m a l).
Proof.
  intros Hm Hl x. unfold mem_write. case_match; [|apply Hm].
  destruct (nth_in_or_default (Z.to_nat (x - a)) l 0) as [Hin| ->]; [|unfold is_byte; lia].
  rewrite Forall_forall in Hl. by apply Hl, list_elem_of_In.
Qed.

Lemma mem_set_ok m a c n : mem_ok m -> mem_ok (mem_set m a c n).
Proof.
  intros Hm x. unfold mem_set. case_match; [|apply Hm].
  pose proof (u8_range c). unfold is_byte. lia.
Qed.

Lemma mem_copy_ok m d s n : mem_ok m -> mem_ok (mem_copy m d s n).
Proof. intros Hm x. unfold mem_copy. case_match; apply Hm. Qed.

Lemma store_ok n m a v : mem_ok m -> mem_ok (store n m a v).
Proof. intros. by apply mem_write_ok, le_bytes_is_byte. Qed.

Lemma load_store_same n m a v :
  load n (store n m a v) a = v mod 256 ^ Z.of_nat n.
Proof.
  unfold load, store. pose proof (mem_read_write m a (le_bytes n v)) as H.
  rewrite length_le_bytes in H. rewrite H. apply le_value_bytes.
Qed.

Lemma store_out n m a v x : x < a \/ a + Z.of_nat n <= x -> store n m a v x = m x.
Proof. intros. apply mem_write_out. by rewrite length_le_bytes. Qed.

Lemma load_ext n m m' a :
  (forall x, a <= x < a + Z.of_nat n -> m x = m' x) -> load n m a = load n m' a.
Proof. intros H. unfold load. f_equal. by apply mem_read_ext. Qed.

Lemma load_store_out n k m a v b :
  b + Z.of_nat k <= a \/ a + Z.of_nat n <= b -> load k (store n m a v) b = load k m b.
Proof. intros. apply load_ext. intros. apply store_out. lia. Qed.

Lemma load_range n m a : mem_ok m -> 0 <= load n m a < 256 ^ Z.of_nat n.
Proof.
  intros H. pose proof (le_value_range _ (mem_read_is_byte m a n H)) as Hr.
  by rewrite length_mem_read in Hr.
Qed.

Lemma load64_range m a : mem_ok m -> 0 <= load64 m a < 2 ^ 64.
Proof. intros H. apply (load_range 8 m a H). Qed.

Lemma load_zero n m a : (forall x, a <= x < a + Z.of_nat n -> m x = 0) -> load n m a = 0.
Proof.
  revert a. induction n as [|n IH]; intros a H; [done|].
  unfold load in *. rewrite mem_read_S. cbn [le_value].
  rewrite (H a) by lia. rewrite IH; [lia|]. intros. apply H. lia.
Qed.

(** ** Kernel computations

    A kernel function runs on a state and ends in one of four ways: it
    returns; it calls [panic]; it gives up the CPU in [swtch], leaving a
    continuation that resumes from whatever state the other threads have
    produced meanwhile; or it spins for ever. *)

Inductive res (S A : Type) : Type :=
| Ok (a : A) (s : S)
| Panic (msg : string) (s : S)
| Swtch (s : S) (k : S -> res S A)
| Diverge.

Arguments Ok {S A} a s.
Arguments Panic {S A} msg s.
Arguments Swtch {S A} s k.
Arguments Diverge {S A}.

Definition M (S A : Type) : Type := S -> res S A.

Fixpoint rbind {S A B} (r : res S A) (f : A -> M S B) : res S B :=
  match r with
  | Ok a s => f a s
  | Panic msg s => Panic msg s
  | Swtch s k => Swtch s (fun s' => rbind (k s') f)
  | Diverge => Diverge
  end.

Definition ret {S A} (a : A) : M S A := fun s => Ok a s.
Definition bind {S A B} (m : M S A) (f : A -> M S B) : M S B := fun s => rbind (m s) f.
Definition gets {S A} (f : S -> A) : M S A := fun s => Ok (f s) s.
Definition modify {S} (f : S -> S) : M S unit := fun s => Ok tt (f s).
Definition panic {S A} (msg : string) : M S A := fun s => Panic msg s.
Definition diverge {S A} : M S A := fun _ => Diverge.

Declare Scope xv6_scope.
Delimit Scope xv6_scope with xv6.
Notation "x <- m ;; k" := (bind m (fun x => k))
  (at level 100, m at next level, k at level 200, right associativity) : xv6_scope.
Notation "' p <- m ;; k" := (bind m (fun x => match x with p => k end))
  (at level 20, p pattern, m at level 99, k at level 200) : xv6_scope.
Notation "m ;; k" := (bind m (fun _ => k))
  (at level 100, k at level 200, right associativity) : xv6_scope.
Notation "'when' b 'do' m" := (if b then m else ret tt)
  (at level 100, b at level 200, m at level 200) : xv6_scope.

(** Run [f] on each element in order, as a [for] loop without early exit. *)
Fixpoint for_each {S A} (l : list A) (f : A -> M S unit) : M S unit :=
  match l with
  | [] => ret tt
  | x :: l => bind (f x) (fun _ => for_each l f)
  end.

Lemma bind_ok {S A B} (m : M S A) (f : A -> M S B) s a s' :
  m s = Ok a s' -> bind m f s = f a s'.
Proof. intros H. unfold bind. by rewrite H. Qed.

Lemma bind_panic {S A B} (m : M S A) (f : A -> M S B) s msg s' :
  m s = Panic msg s' -> bind m f s = Panic msg s'.
Proof. intros H. unfold bind. by rewrite H. Qed.

Lemma bind_ok_inv {S A B} (m : M S A) (f : A -> M S B) s b s' :
  bind m f s = Ok b s' -> exists a s1, m s = Ok a s1 /\ f a s1 = Ok b s'.
Proof. unfold bind. destruct (m s) eqn:E; cbn; intros; try done. eauto. Qed.

Lemma bind_ext {S A B} (m : M S A) (f g : A -> M S B) s :
  (forall a s', m s = Ok a s' -> f a s' = g a s') ->
  (forall s' k, m s <> Swtch s' k) -> bind m f s = bind m g s.
Proof. intros H Hs. unfold bind. destruct (m s) eqn:E; cbn; eauto. by destruct (Hs s0 k). Qed.

Section MonadSteps.
Context {S A B C : Type}.
Implicit Types (s : S).

Lemma bind_ret (a : A) (f : A -> M S B) s : bind (ret a) f s = f a s.
Proof. done. Qed.
Lemma bind_gets (g : S -> A) (f : A -> M S B) s : bind (gets g) f s = f (g s) s.
Proof. done. Qed.
Lemma bind_modify (g : S -> S) (f : unit -> M S B) s : bind (modify g) f s = f tt (g s).
Proof. done. Qed.
Lemma bind_panic_l msg (f : A -> M S B) s : bind (panic msg) f s = Panic msg s.
Proof. done. Qed.
Lemma bind2_ok (m : M S A) (f : A -> M S B) (g : B -> M S C) s a s' :
  m s = Ok a s' -> bind (bind m f) g s = bind (f a) g s'.
Proof. intros H. unfold bind. by rewrite H. Qed.
Lemma bind2_ret (a : A) (f : A -> M S B) (g : B -> M S C) s :
  bind (bind (ret a) f) g s = bind (f a) g s.
Proof. done. Qed.
Lemma bind2_gets (h : S -> A) (f : A -> M S B) (g : B -> M S C) s :
  bind (bind (gets h) f) g s = bind (f (h s)) g s.
Proof. done. Qed.
Lemma bind2_modify (h : S -> S) (f : unit -> M S B) (g : B -> M S C) s :
  bind (bind (modify h) f) g s = bind (f tt) g (h s).
Proof. done. Qed.
End MonadSteps.

(** [mred] runs the leading [ret], [gets] and [modify] of a computation. *)
Ltac mred1 :=
  first [rewrite bind_gets | rewrite bind_modify | rewrite bind_ret | rewrite bind_panic_l
        | rewrite bind2_gets | rewrite bind2_modify | rewrite bind2_ret]; cbv beta.
Ltac mred := repeat mred1.

(** [mrun H]: the next computation of the goal ends as [H] says. *)
Ltac mrun H :=
  first [rewrite (bind_ok _ _ _ _ _ H) | rewrite (bind2_ok _ _ _ _ _ _ H)
        | rewrite (bind_panic _ _ _ _ _ H) | rewrite H]; mred.

(** Loops proved by an invariant: if every iteration from a state related
    to the list already processed returns a state related to one more
    element, the loop returns. *)
Lemma for_each_inv {S A} (P : list A -> S -> Prop) (f : A -> M S unit) (l : list A) :
  forall s done_,
  P done_ s ->
  (forall pre x post s', l = pre ++ x :: post -> P (done_ ++ pre) s' ->
     exists s'', f x s' = Ok tt s'' /\ P (done_ ++ pre ++ [x]) s'') ->
  exists s', for_each l f s = Ok tt s' /\ P (done_ ++ l) s'.
Proof.
  induction l as [|x l IH]; intros s dn HP Hstep.
  - exists s. rewrite app_nil_r. done.
  - destruct (Hstep [] x l s eq_refl) as (s1 & H1 & HP1); [by rewrite app_nil_r|].
    destruct (IH s1 (dn ++ [x]) HP1) as (s2 & H2 & HP2).
    + intros pre y post s' Hl HP'. destruct (Hstep (x :: pre) y post s') as (s'' & ? & Hq).
      * by rewrite Hl.
      * by rewrite <- app_assoc in HP'.
      * exists s''. rewrite <- app_assoc. done.
    + exists s2. cbn. rewrite (bind_ok _ _ _ _ _ H1). rewrite <- app_assoc in HP2. done.
Qed.

(** A pure loop body makes the loop a fold. *)
Lemma for_each_fold {S A} (f : A -> M S unit) (g : S -> A -> S) (Q : S -> Prop) (l : list A) :
  (forall s x, Q s -> x ∈ l -> f x s = Ok tt (g s x) /\ Q (g s x)) ->
  forall s, Q s -> for_each l f s = Ok tt (fold_left g l s) /\ Q (fold_left g l s).
Proof.
  induction l as [|x l IH]; intros H s HQ; [done|]. cbn.
  destruct (H s x HQ) as [E HQ']; [left|]. rewrite (bind_ok _ _ _ _ _ E).
  apply IH; [|done]. intros. apply H; [done | by right].
Qed.

(** ** Structures inside a byte list

    A disk block and the C structures laid out in it: [get_le k b off] is
    the little-endian k-byte field at offset [off], [put_le] its
    assignment. *)

Definition get_le (k : nat) (b : list Z) (off : nat) : Z := le_value (take k (drop off b)).

Definition put_bytes (b : list Z) (off : nat) (l : list Z) : list Z :=
  take off b ++ l ++ drop (off + length l) b.

Definition put_le (k : nat) (b : list Z) (off : nat) (v : Z) : list Z :=
  put_bytes b off (le_bytes k v).

Definition get_bytes (b : list Z) (off n : nat) : list Z := take n (drop off b).

Lemma length_put_bytes b off l :
  (off + length l <= length b)%nat -> length (put_bytes b off l) = length b.
Proof. intros. unfold put_bytes. rewrite !length_app, length_take, length_drop. lia. Qed.

Lemma get_put_bytes_same b off l :
  (off + length l <= length b)%nat -> get_bytes (put_bytes b off l) off (length l) = l.
Proof.
  intros. unfold get_bytes, put_bytes.
  rewrite drop_app_length' by (rewrite length_take; lia). by apply take_app_length.
Qed.

Lemma lookup_put_bytes_out b off l i :
  (off + length l <= length b)%nat -> (i < off)%nat \/ (off + length l <= i)%nat ->
  put_bytes b off l !! i = b !! i.
Proof.
  intros Hl [Hi|Hi]; unfold put_bytes.
  - rewrite lookup_app_l by (rewrite length_take; lia). by apply lookup_take_lt.
  - rewrite lookup_app_r by (rewrite length_take; lia).
    rewrite lookup_app_r by (rewrite length_take; lia).
    rewrite lookup_drop, length_take. f_equal. lia.
Qed.

Lemma get_put_bytes_out b off l off' n :
  (off + length l <= length b)%nat -> (off' + n <= off)%nat \/ (off + length l <= off')%nat ->
  get_bytes (put_bytes b off l) off' n = get_bytes b off' n.
Proof.
  intros Hl Ho. unfold get_bytes. apply list_eq. intros i.
  destruct (decide (i < n)%nat); [|by rewrite !lookup_take_ge by lia].
  rewrite !lookup_take_lt, !lookup_drop by lia. apply lookup_put_bytes_out; lia.
Qed.

Lemma get_le_bytes k b off : get_le k b off = le_value (get_bytes b off k).
Proof. done. Qed.

Lemma get_put_le_same k b off v :
  (off + k <= length b)%nat -> get_le k (put_le k b off v) off = v mod 256 ^ Z.of_nat k.
Proof.
  intros H. rewrite get_le_bytes. unfold put_le.
  pose proof (get_put_bytes_same b off (le_bytes k v)) as E.
  rewrite length_le_bytes in E. rewrite E by done. apply le_value_bytes.
Qed.

Lemma get_put_le_out k j b off off' v :
  (off + k <= length b)%nat -> (off' + j <= off)%nat \/ (off + k <= off')%nat ->
  get_le j (put_le k b off v) off' = get_le j b off'.
Proof.
  intros. rewrite !get_le_bytes. unfold put_le.
  rewrite get_put_bytes_out; rewrite ?length_le_bytes; done.
Qed.

Lemma length_put_le k b off v : (off + k <= length b)%nat -> length (put_le k b off v) = length b.
Proof. intros. apply length_put_bytes. by rewrite length_le_bytes. Qed.

Lemma put_bytes_is_byte b off l :
  Forall is_byte b -> Forall is_byte l -> Forall is_byte (put_bytes b off l).
Proof. intros. unfold put_bytes. rewrite !Forall_app. eauto using Forall_take, Forall_drop. Qed.

Lemma get_le_range k b off :
  Forall is_byte b -> (off + k <= length b)%nat -> 0 <= get_le k b off < 256 ^ Z.of_nat k.
Proof.
  intros Hb Hl. pose proof (le_value_range (get_bytes b off k)) as H.
  unfold get_bytes in H. rewrite length_take, length_drop in H.
  rewrite Nat.min_l in H by lia. apply H. by apply Forall_take, Forall_drop.
Qed.

(** ** C strings

    [cstr l] is the string a NUL-terminated array holds. *)
Fixpoint cstr (l : list Z) : list Z :=
  match l with
  | [] => []
  | c :: l => if c =? 0 then [] else c :: cstr l
  end.

(** The characters of a literal, without the terminating NUL. *)
Fixpoint chars (s : string) : list Z :=
  match s with
  | EmptyString => []
  | String a s => Z.of_N (Ascii.N_of_ascii a) :: chars s
  end.

(** ** Lists updated by index *)

Lemma alter_none {A} (f : A -> A) i (l : list A) : l !! i = None -> alter f i l = l.
Proof.
  intros H. apply list_eq. intros j. destruct (decide (i = j)) as [<-|];
    [by rewrite list_lookup_alter_eq, H | by rewrite list_lookup_alter_ne].
Qed.

Lemma alter_ext {A} (f g : A -> A) i (l : list A) :
  (forall x, l !! i = Some x -> f x = g x) -> alter f i l = alter g i l.
Proof.
  intros H. apply list_eq. intros j. destruct (decide (i = j)) as [<-|];
    [|by rewrite !list_lookup_alter_ne]. rewrite !list_lookup_alter_eq.
  destruct (l !! i) as [x|] eqn:E; [|done]. cbn. by rewrite H.
Qed.

Lemma alter_const {A} (f : A -> A) (i : nat) (l : list A) :
  (forall x, l !! i = Some x -> f x = x) -> alter f i l = l.
Proof.
  intros H. apply list_eq. intros j. destruct (decide (i = j)) as [<-|];
    [|by rewrite list_lookup_alter_ne]. rewrite list_lookup_alter_eq.
  destruct (l !! i) as [x|] eqn:E; [|done]. cbn. by rewrite H.
Qed.

Lemma alter_if {A} `{Inhabited A} (c : A -> bool) (f : A -> A) (i : nat) (l : list A) :
  alter (fun x => if c x then f x else x) i l = if c (l !!! i) then alter f i l else l.
Proof.
  destruct (l !! i) as [x|] eqn:E.
  - rewrite (list_lookup_total_correct _ _ _ E). destruct (c x) eqn:Ec.
    + apply alter_ext. intros y Hy. assert (y = x) as -> by congruence. by rewrite Ec.
    + apply alter_const. intros y Hy. assert (y = x) as -> by congruence. by rewrite Ec.
  - rewrite !alter_none by done. by destruct (c _).
Qed.

(** ** Hints *)

Create HintDb xv6.
#[export] Hint Resolve length_le_bytes length_mem_read mem_write_ok mem_set_ok mem_copy_ok
  store_ok le_bytes_is_byte : xv6.
Create Rewrite HintDb len.
#[export] Hint Rewrite length_le_bytes length_mem_read @length_app @length_take @length_drop
  @length_replicate @length_insert @length_map : len.

(** Keep the byte-level functions folded under [cbn] and [simpl]. *)
#[global] Arguments load : simpl never.
#[global] Arguments store : simpl never.
#[global] Arguments mem_read : simpl never.
#[global] Arguments mem_write : simpl never.
#[global] Arguments mem_set : simpl never.
#[global] Arguments mem_copy : simpl never.
#[global] Arguments get_le : simpl never.
#[global] Arguments put_le : simpl never.
#[global] Arguments get_bytes : simpl never.
#[global] Arguments put_bytes : simpl never.
#[global] Arguments u8 : simpl never.
#[global] Arguments u16 : simpl never.
#[global] Arguments u32 : simpl never.
#[global] Arguments u64 : simpl never.
#[global] Arguments s16 : simpl never.
#[global] Arguments s32 : simpl never.
#[global] Arguments s64 : simpl never.
#[global] Arguments in_range : simpl never.
#[global] Arguments bit_set : simpl never.
