(* ===== verification/Riscv.v ===== *)
(** Constants and macros of param.h, memlayout.h and riscv.h: the physical
    memory layout, the Sv39 page-table geometry, the page-rounding and PTE
    macros, with the arithmetic facts the other components use. *)

From S2P Require Import Prelude.

(** ** param.h *)

Definition NPROC : nat := 64.
Definition NCPU : nat := 8.
Definition NOFILE : nat := 16.
Definition NFILE : nat := 100.
Definition NINODE : nat := 50.
Definition NDEV : Z := 10.
Definition ROOTDEV : Z := 1.
Definition MAXARG : nat := 32.
Definition MAXOPBLOCKS : Z := 10.
Definition LOGSIZE : Z := MAXOPBLOCKS * 3.
Definition NBUF : nat := 30.
Definition FSSIZE : Z := 2000.
(** fs.h *)
Definition BSIZE : Z := 1024.
Definition MAXPATH : Z := 128.
Definition USERSTACK : Z := 1.
Definition NVMA : nat := 16.

(** ** riscv.h: paging *)

Definition PGSIZE : Z := 4096.
Definition PGSHIFT : Z := 12.

Definition PGROUNDUP (sz : Z) : Z := Z.land (u64 (sz + PGSIZE - 1)) (u64 (Z.lnot (PGSIZE - 1))).
Definition PGROUNDDOWN (a : Z) : Z := Z.land a (u64 (Z.lnot (PGSIZE - 1))).

Definition PTE_V : Z := Z.shiftl 1 0.
Definition PTE_R : Z := Z.shiftl 1 1.
Definition PTE_W : Z := Z.shiftl 1 2.
Definition PTE_X : Z := Z.shiftl 1 3.
Definition PTE_U : Z := Z.shiftl 1 4.
Definition PTE_D : Z := Z.shiftl 1 7.

Definition PA2PTE (pa : Z) : Z := Z.shiftl (Z.shiftr pa 12) 10.
Definition PTE2PA (pte : Z) : Z := u64 (Z.shiftl (Z.shiftr pte 10) 12).
Definition PTE_FLAGS (pte : Z) : Z := Z.land pte 0x3FF.

Definition PXMASK : Z := 0x1FF.
Definition PXSHIFT (level : Z) : Z := PGSHIFT + 9 * level.
Definition PX (level va : Z) : Z := Z.land (Z.shiftr va (PXSHIFT level)) PXMASK.

Definition MAXVA : Z := Z.shiftl 1 (9 + 9 + 9 + 12 - 1).

Definition SATP_SV39 : Z := Z.shiftl 8 60.
Definition MAKE_SATP (pagetable : Z) : Z := Z.lor SATP_SV39 (Z.shiftr pagetable 12).

Definition SSTATUS_SPP : Z := Z.shiftl 1 8.
Definition SSTATUS_SPIE : Z := Z.shiftl 1 5.
Definition SSTATUS_SIE : Z := Z.shiftl 1 1.

(** ** memlayout.h *)

Definition UART0 : Z := 0x10000000.
Definition UART0_IRQ : Z := 10.
Definition VIRTIO0 : Z := 0x10001000.
Definition VIRTIO0_IRQ : Z := 1.
Definition PLIC : Z := 0x0c000000.
Definition KERNBASE : Z := 0x80000000.
Definition PHYSTOP : Z := KERNBASE + 128 * 1024 * 1024.
Definition TRAMPOLINE : Z := MAXVA - PGSIZE.
Definition KSTACK (p : Z) : Z := TRAMPOLINE - (p + 1) * 2 * PGSIZE.
Definition TRAPFRAME : Z := TRAMPOLINE - PGSIZE.

(** ** fcntl.h *)

Definition O_RDONLY : Z := 0x000.
Definition O_WRONLY : Z := 0x001.
Definition O_RDWR : Z := 0x002.
Definition O_CREATE : Z := 0x200.
Definition O_TRUNC : Z := 0x400.
Definition PROT_NONE : Z := 0x0.
Definition PROT_READ : Z := 0x1.
Definition PROT_WRITE : Z := 0x2.
Definition PROT_EXEC : Z := 0x4.
Definition MAP_SHARED : Z := 0x01.
Definition MAP_PRIVATE : Z := 0x02.

(** ** Facts about the macros *)

Lemma land_high_mask x k w :
  0 <= k <= w -> 0 <= x < 2 ^ w -> Z.land x ((Z.lnot (2 ^ k - 1)) mod 2 ^ w) = x / 2 ^ k * 2 ^ k.
Proof.
  intros Hk Hx. apply Z.bits_inj'. intros n Hn.
  rewrite <- Z.shiftr_div_pow2, <- Z.shiftl_mul_pow2 by lia.
  rewrite Z.land_spec, Z.shiftl_spec by done.
  rewrite <- Z.land_ones, Z.land_spec, Z.lnot_spec by lia.
  replace (2 ^ k - 1) with (Z.ones k) by (rewrite Z.ones_equiv; lia).
  destruct (Z.lt_ge_cases n k).
  - rewrite (Z.ones_spec_low k n) by lia. cbn. rewrite andb_false_r.
    symmetry. apply Z.testbit_neg_r. lia.
  - rewrite (Z.ones_spec_high k n) by lia. cbn.
    rewrite Z.shiftr_spec, Z.sub_add by lia.
    destruct (Z.lt_ge_cases n w).
    + rewrite (Z.ones_spec_low w n) by lia. apply andb_true_r.
    + rewrite (Z.ones_spec_high w n), andb_false_r by lia. symmetry.
      destruct (Z.eq_dec x 0) as [->|]; [apply Z.bits_0|].
      apply Z.bits_above_log2; [lia|]. apply Z.log2_lt_pow2; [lia|].
      apply Z.lt_le_trans with (2 ^ w); [lia|]. apply Z.pow_le_mono_r; lia.
Qed.

Lemma PGROUNDDOWN_eq a : 0 <= a < 2 ^ 64 -> PGROUNDDOWN a = a / PGSIZE * PGSIZE.
Proof. intros H. apply (land_high_mask a 12 64); lia. Qed.

Lemma PGROUNDUP_eq sz :
  0 <= sz <= 2 ^ 64 - PGSIZE -> PGROUNDUP sz = (sz + PGSIZE - 1) / PGSIZE * PGSIZE.
Proof.
  unfold PGSIZE. intros H. unfold PGROUNDUP. rewrite u64_small by (unfold PGSIZE; lia).
  apply (land_high_mask (sz + 4096 - 1) 12 64); lia.
Qed.

(** Rounding up near the top of the address space wraps to 0. *)
Lemma PGROUNDUP_wraps sz : 2 ^ 64 - PGSIZE < sz < 2 ^ 64 -> PGROUNDUP sz = 0.
Proof.
  unfold PGSIZE. intros H. unfold PGROUNDUP, PGSIZE.
  replace (u64 (sz + 4096 - 1)) with (sz + 4096 - 1 - 2 ^ 64) by (unfold u64; dlia).
  rewrite (land_high_mask _ 12 64) by lia. rewrite Z.div_small by lia. lia.
Qed.

Lemma PGROUNDDOWN_range a :
  0 <= a < 2 ^ 64 -> 0 <= PGROUNDDOWN a <= a /\ a < PGROUNDDOWN a + PGSIZE
                     /\ PGROUNDDOWN a mod PGSIZE = 0.
Proof. intros. rewrite PGROUNDDOWN_eq by done. unfold PGSIZE. repeat split; dlia. Qed.

Lemma PGROUNDUP_range sz :
  0 <= sz <= 2 ^ 64 - PGSIZE ->
  sz <= PGROUNDUP sz < sz + PGSIZE /\ PGROUNDUP sz mod PGSIZE = 0 /\ PGROUNDUP sz < 2 ^ 64.
Proof.
  intros. rewrite PGROUNDUP_eq by done. unfold PGSIZE in *. repeat split; dlia.
Qed.

Lemma PGROUNDUP_aligned a : a mod PGSIZE = 0 -> 0 <= a <= 2 ^ 64 - PGSIZE -> PGROUNDUP a = a.
Proof. intros. rewrite PGROUNDUP_eq by done. unfold PGSIZE in *. dlia. Qed.

Lemma PGROUNDDOWN_aligned a : a mod PGSIZE = 0 -> 0 <= a < 2 ^ 64 -> PGROUNDDOWN a = a.
Proof. intros. rewrite PGROUNDDOWN_eq by done. unfold PGSIZE in *. dlia. Qed.

Lemma PX_eq level va : 0 <= level -> PX level va = (va / 2 ^ (12 + 9 * level)) mod 512.
Proof.
  intros. unfold PX, PXSHIFT, PGSHIFT. rewrite Z.shiftr_div_pow2 by lia.
  apply (Z.land_ones _ 9). lia.
Qed.

Lemma PX_range level va : 0 <= level -> 0 <= PX level va < 512.
Proof. intros. rewrite PX_eq by done. apply Z.mod_pos_bound. lia. Qed.

Lemma MAXVA_val : MAXVA = 2 ^ 38.
Proof. done. Qed.

Lemma PA2PTE_eq pa : PA2PTE pa = pa / 4096 * 1024.
Proof. unfold PA2PTE. by rewrite Z.shiftr_div_pow2, Z.shiftl_mul_pow2 by lia. Qed.

Lemma PTE2PA_eq pte : 0 <= pte < 2 ^ 62 -> PTE2PA pte = pte / 1024 * 4096.
Proof.
  intros. unfold PTE2PA. rewrite Z.shiftr_div_pow2, Z.shiftl_mul_pow2 by lia.
  change (2 ^ 10) with 1024. change (2 ^ 12) with 4096.
  apply u64_small. dlia.
Qed.

Lemma PTE_FLAGS_eq pte : PTE_FLAGS pte = pte mod 1024.
Proof. apply (Z.land_ones _ 10). lia. Qed.

(** A PTE built from a page address and permission bits. *)
Lemma pte_val pa perm : 0 <= perm < 1024 -> Z.lor (PA2PTE pa) perm = pa / 4096 * 1024 + perm.
Proof.
  intros. unfold PA2PTE. rewrite lor_shiftl_low by lia.
  by rewrite Z.shiftr_div_pow2 by lia.
Qed.

Lemma PTE2PA_PA2PTE pa perm :
  pa mod PGSIZE = 0 -> 0 <= pa < 2 ^ 56 -> 0 <= perm < 1024 ->
  PTE2PA (Z.lor (PA2PTE pa) perm) = pa.
Proof.
  unfold PGSIZE. intros. rewrite pte_val by done. rewrite PTE2PA_eq; dlia.
Qed.

Lemma PTE_FLAGS_PA2PTE pa perm : 0 <= perm < 1024 -> PTE_FLAGS (Z.lor (PA2PTE pa) perm) = perm.
Proof. intros. rewrite pte_val, PTE_FLAGS_eq by done. dlia. Qed.
