(* ===== verification/StringC.v ===== *)
(** string.c: the byte loops of the kernel's C library.

    memset(), memmove() and memcmp() run on physical memory; the theorems
    identify their loops with the range operations [mem_set] and [mem_copy]
    that the rest of the model uses, overlapping ranges included. The string
    functions run on byte arrays: a [char*] is the list of bytes from the
    pointer on, and a read past the end of the array gives 0. *)

From S2P Require Import Prelude.

(** ** memset, memmove, memcmp *)

(** [i] counts up to [n]; [k] is the number of iterations left. *)
Fixpoint memset_loop (k : nat) (m : mem) (cdst i c : Z) : mem :=
  match k with
  | O => m
  | S k => memset_loop k (store8 m (cdst + i) c) cdst (i + 1) c
  end.

Definition memset_c (m : mem) (dst c n : Z) : mem := memset_loop (Z.to_nat n) m dst 0 c.

Fixpoint memcmp (n : nat) (m : mem) (s1 s2 : Z) : Z :=
  match n with
  | O => 0
  | S n => if m s1 =? m s2 then memcmp n m (s1 + 1) (s2 + 1) else m s1 - m s2
  end.

(** [*d++ = *s++] and [*--d = *--s]. *)
Fixpoint copy_up (n : nat) (m : mem) (d s : Z) : mem :=
  match n with
  | O => m
  | S n => copy_up n (store8 m d (m s)) (d + 1) (s + 1)
  end.

Fixpoint copy_down (n : nat) (m : mem) (d s : Z) : mem :=
  match n with
  | O => m
  | S n => copy_down n (store8 m (d - 1) (m (s - 1))) (d - 1) (s - 1)
  end.

Definition memmove_c (m : mem) (dst src n : Z) : mem :=
  if n =? 0 then m else
  if (src <? dst) && (dst <? src + n)
  then copy_down (Z.to_nat n) m (dst + n) (src + n)
  else copy_up (Z.to_nat n) m dst src.

(** ** Strings *)

Fixpoint strncmp (n : nat) (p q : list Z) : Z :=
  match n with
  | O => 0
  | S n =>
      let c := hd 0 p in let d := hd 0 q in
      if c_true c && (c =? d) then strncmp n (tail p) (tail q) else c - d
  end.

(** The [n] bytes stored at [s]. *)
Fixpoint strncpy (n : nat) (t : list Z) : list Z :=
  match n with
  | O => []
  | S n => let c := hd 0 t in
           if c_true c then c :: strncpy n (tail t) else 0 :: replicate n 0
  end.

(** The bytes stored at [s]: when the loop copies the terminator, the final
    [*s = 0] stores a second one behind it. *)
Fixpoint safestrcpy_loop (n : nat) (t : list Z) : list Z :=
  match n with
  | O => [0]
  | S n => let c := hd 0 t in
           if c_true c then c :: safestrcpy_loop n (tail t) else [0; 0]
  end.

Definition safestrcpy (t : list Z) (n : Z) : list Z :=
  if n <=? 0 then [] else safestrcpy_loop (Z.to_nat (n - 1)) t.

Fixpoint strlen (s : list Z) : Z :=
  match s with
  | [] => 0
  | c :: s => if c_true c then 1 + strlen s else 0
  end.

(** ** Proofs *)

Lemma store8_in m a v x : store8 m a v x = if x =? a then u8 v else m x.
Proof.
  unfold store. destruct (Z.eqb_spec x a) as [->|Hne].
  - pose proof (mem_write_lookup m a (le_bytes 1 v) 0 (v mod 256)) as H.
    rewrite Z.add_0_r in H. by apply H.
  - apply mem_write_out. rewrite length_le_bytes. lia.
Qed.

Lemma memset_loop_spec k : forall m cdst i c x,
  memset_loop k m cdst i c x =
    if in_range (cdst + i) (Z.of_nat k) x then u8 c else m x.
Proof.
  induction k as [|k IH]; intros m cdst i c x; cbn [memset_loop].
  - unfold in_range. destruct (Z.leb_spec (cdst + i) x), (Z.ltb_spec x (cdst + i + Z.of_nat 0));
      cbn [andb]; (done || lia).
  - rewrite IH, store8_in. unfold in_range.
    destruct (Z.leb_spec (cdst + i) x), (Z.leb_spec (cdst + (i + 1)) x),
      (Z.ltb_spec x (cdst + (i + 1) + Z.of_nat k)), (Z.ltb_spec x (cdst + i + Z.of_nat (S k))),
      (Z.eqb_spec x (cdst + i)); cbn [andb]; (done || lia).
Qed.

Lemma memset_spec m dst c n x : 0 <= n -> memset_c m dst c n x = mem_set m dst c n x.
Proof.
  intros Hn. unfold memset_c. rewrite memset_loop_spec, Z.add_0_r, Z2Nat.id by done. done.
Qed.

Lemma copy_up_spec n : forall m d s x, mem_ok m ->
  d <= s \/ s + Z.of_nat n <= d ->
  copy_up n m d s x = if in_range d (Z.of_nat n) x then m (s + (x - d)) else m x.
Proof.
  induction n as [|n IH]; intros m d s x Hm Hov; cbn [copy_up].
  - unfold in_range. destruct (Z.leb_spec d x), (Z.ltb_spec x (d + Z.of_nat 0)); cbn [andb]; (done || lia).
  - rewrite IH by (auto with xv6; lia). rewrite !store8_in.
    assert (u8 (m s) = m s) as Eb by (apply u8_small, Hm). rewrite Eb.
    unfold in_range.
    destruct (Z.leb_spec (d + 1) x), (Z.leb_spec d x), (Z.ltb_spec x (d + 1 + Z.of_nat n)),
      (Z.ltb_spec x (d + Z.of_nat (S n))), (Z.eqb_spec x d); cbn [andb]; try (done || lia).
    all: try (destruct (Z.eqb_spec (s + 1 + (x - (d + 1))) d); f_equal; lia).
    all: f_equal; lia.
Qed.

Lemma copy_down_spec n : forall m d s x, mem_ok m ->
  s <= d \/ d + Z.of_nat n <= s ->
  copy_down n m d s x =
    if in_range (d - Z.of_nat n) (Z.of_nat n) x then m (s + (x - d)) else m x.
Proof.
  induction n as [|n IH]; intros m d s x Hm Hov; cbn [copy_down].
  - unfold in_range. destruct (Z.leb_spec (d - Z.of_nat 0) x), (Z.ltb_spec x (d - Z.of_nat 0 + Z.of_nat 0));
      cbn [andb]; (done || lia).
  - rewrite IH by (auto with xv6; lia). rewrite !store8_in.
    assert (u8 (m (s - 1)) = m (s - 1)) as Eb by (apply u8_small, Hm). rewrite Eb.
    unfold in_range.
    destruct (Z.leb_spec (d - 1 - Z.of_nat n) x), (Z.leb_spec (d - Z.of_nat (S n)) x),
      (Z.ltb_spec x (d - 1 - Z.of_nat n + Z.of_nat n)),
      (Z.ltb_spec x (d - Z.of_nat (S n) + Z.of_nat (S n))), (Z.eqb_spec x (d - 1));
      cbn [andb]; try (done || lia).
    all: try (destruct (Z.eqb_spec (s - 1 + (x - (d - 1))) (d - 1)); f_equal; lia).
    all: f_equal; lia.
Qed.

Lemma memmove_spec m dst src n x : mem_ok m -> 0 <= n ->
  memmove_c m dst src n x = mem_copy m dst src n x.
Proof.
  intros Hm Hn. unfold memmove_c, mem_copy. destruct (Z.eqb_spec n 0) as [->|Hn0].
  { unfold in_range. destruct (Z.leb_spec dst x), (Z.ltb_spec x (dst + 0)); cbn [andb]; (done || lia). }
  destruct (Z.ltb_spec src dst), (Z.ltb_spec dst (src + n)); cbn [andb];
    rewrite ?copy_up_spec, ?copy_down_spec, Z2Nat.id by (done || lia); try done.
  replace (dst + n - n) with dst by lia. destruct (in_range _ _ _); [|done]. f_equal. lia.
Qed.

Lemma cstr_cons c l : c_true c = true -> cstr (c :: l) = c :: cstr l.
Proof. unfold c_true. cbn. by destruct (c =? 0). Qed.

Lemma cstr_hd l : cstr l = if c_true (hd 0 l) then hd 0 l :: cstr (tail l) else [].
Proof. destruct l as [|c l]; [done|]. cbn. unfold c_true. by destruct (c =? 0). Qed.

Lemma strncmp_zero n : forall p q,
  strncmp n p q = 0 <-> take n (cstr p) = take n (cstr q).
Proof.
  induction n as [|n IH]; intros p q; cbn [strncmp]; [done|].
  rewrite (cstr_hd p), (cstr_hd q). unfold c_true.
  destruct (Z.eqb_spec (hd 0 p) 0) as [E1|E1], (Z.eqb_spec (hd 0 q) 0) as [E2|E2],
    (Z.eqb_spec (hd 0 p) (hd 0 q)) as [E3|E3]; cbn [negb andb firstn];
    rewrite ?firstn_nil; try (split; [lia|congruence]); try lia.
  - rewrite E1, E2. done.
  - rewrite IH, E3. split; [by intros ->|by intros [= ?]].
Qed.

Lemma strncpy_spec n : forall t,
  length (strncpy n t) = n /\ cstr (strncpy n t) = take n (cstr t).
Proof.
  induction n as [|n IH]; intros t; cbn [strncpy]; [done|].
  destruct (IH (tail t)) as [IHl IHc]. rewrite (cstr_hd t).
  destruct (c_true (hd 0 t)) eqn:E; cbn [length].
  - rewrite IHl, cstr_cons by done. cbn [firstn]. by rewrite IHc.
  - by rewrite length_replicate.
Qed.

Lemma safestrcpy_loop_spec n : forall t,
  (length (safestrcpy_loop n t) <= S n)%nat /\ cstr (safestrcpy_loop n t) = take n (cstr t) /\
  0 ∈ safestrcpy_loop n t.
Proof.
  induction n as [|n IH]; intros t; cbn [safestrcpy_loop].
  { cbn. split; [lia|]. split; [done|by left]. }
  destruct (IH (tail t)) as (IHl & IHc & IHz). rewrite (cstr_hd t).
  destruct (c_true (hd 0 t)) eqn:E.
  - rewrite cstr_cons by done. cbn [length firstn]. rewrite IHc. split; [lia|]. split; [done|by right].
  - cbn. split; [lia|]. split; [done|by left].
Qed.

Lemma strlen_spec s : strlen s = Z.of_nat (length (cstr s)).
Proof.
  induction s as [|c s IH]; [done|]. cbn. unfold c_true. destruct (c =? 0); [done|].
  cbn [negb length]. lia.
Qed.

Lemma memcmp_zero n : forall m s1 s2,
  memcmp n m s1 s2 = 0 <-> mem_read m s1 n = mem_read m s2 n.
Proof.
  induction n as [|n IH]; intros m s1 s2; [done|]. cbn [memcmp]. rewrite !mem_read_S.
  destruct (Z.eqb_spec (m s1) (m s2)) as [E|E].
  - rewrite IH, E. split; [by intros ->|by intros [= ?]].
  - split; [lia|by intros [= ?]].
Qed.

(** memmove() copies as if through a temporary: whatever way the two
    ranges overlap, byte [i] of the destination is the old byte [i] of the
    source and no other byte changes. *)
Theorem memmove_overlap m dst src n x : mem_ok m -> 0 <= n ->
  memmove_c m dst src n x = if in_range dst n x then m (src + (x - dst)) else m x.
Proof. apply memmove_spec. Qed.

Lemma memmove_overlap_witness :
  memmove_c (fun a => a mod 256) 12 10 5 13 = 11 /\ memmove_c (fun a => a mod 256) 12 10 5 17 = 17.
Proof.
  split; rewrite memmove_overlap; try done; intros a; apply Z.mod_pos_bound; done.
Defined.

(** strncpy() then strncmp(), as dirlink() stores a name and dirlookup()
    compares it: strncpy() fills all [n] bytes, what it stored compares equal
    to [u] within [n] bytes exactly when [t] does, and that is when the two
    strings agree up to [n] characters. safestrcpy() stores at most [n] bytes,
    terminator included. *)
Theorem string_names n t u :
  length (strncpy n t) = n /\
  (strncmp n u (strncpy n t) = 0 <-> take n (cstr u) = take n (cstr t)) /\
  ((0 < n)%nat -> (length (safestrcpy t (Z.of_nat n)) <= n)%nat /\
     0 ∈ safestrcpy t (Z.of_nat n) /\ cstr (safestrcpy t (Z.of_nat n)) = take (n - 1) (cstr t)).
Proof.
  destruct (strncpy_spec n t) as [Hl Hc]. split; [done|]. split.
  - rewrite strncmp_zero, Hc, take_take, Nat.min_id. done.
  - intros Hn. unfold safestrcpy. rewrite (proj2 (Z.leb_gt _ _)) by lia.
    destruct (safestrcpy_loop_spec (Z.to_nat (Z.of_nat n - 1)) t) as (? & Ec & ?).
    split; [lia|]. split; [done|]. rewrite Ec. f_equal. lia.
Qed.
