(* ===== verification/State.v ===== *)
(** The kernel's state: one Coq record per C structure of proc.h, spinlock.h,
    sleeplock.h, buf.h, file.h, fs.h and log.c, and the record [kstate] of all
    the kernel's global variables together with physical memory, the disk and
    the registers of the executing hart. Setters are named after the fields.

    C pointers to elements of a static array ([struct proc *], [struct buf *],
    [struct inode *], [struct file *]) are indices into the array, [None] being
    the null pointer. Pointers into kalloc()ed pages are addresses of
    [k_mem]; the structures kept in such pages (trap frames, pipes,
    page-table pages, free-list nodes) are read and written through it at
    their C offsets. A spinlock is identified by the object it sits in; the
    map [k_locks] holds the locks with [locked = 1] and the hart in
    [lk->cpu]. *)

From S2P Require Import Prelude Riscv.

(** ** Identities of locks and wait channels *)

Inductive slid : Type := SL_buf (i : nat) | SL_inode (i : nat).

Inductive lockid : Type :=
| LK_kmem | LK_pid | LK_wait | LK_ticks | LK_bcache | LK_log | LK_itable | LK_ftable
| LK_cons | LK_uart | LK_vdisk | LK_pr
| LK_proc (i : nat) | LK_sleep (l : slid) | LK_pipe (pi : Z).

(** The [void *chan] of sleep() and wakeup(): the address of a kernel object. *)
Inductive chan : Type :=
| CH_null | CH_proc (i : nat) | CH_ticks | CH_log | CH_sleeplock (l : slid) | CH_buf (i : nat)
| CH_disk_free | CH_pipe_nread (pi : Z) | CH_pipe_nwrite (pi : Z) | CH_cons_r | CH_uart_tx_r.

#[export] Instance slid_eq_dec : EqDecision slid.
Proof. solve_decision. Defined.
#[export] Instance lockid_eq_dec : EqDecision lockid.
Proof. solve_decision. Defined.
#[export] Instance chan_eq_dec : EqDecision chan.
Proof. solve_decision. Defined.

Definition lockid_encode (l : lockid) : nat * nat * Z :=
  match l with
  | LK_kmem => (0%nat, 0%nat, 0) | LK_pid => (1%nat, 0%nat, 0) | LK_wait => (2%nat, 0%nat, 0)
  | LK_ticks => (3%nat, 0%nat, 0) | LK_bcache => (4%nat, 0%nat, 0) | LK_log => (5%nat, 0%nat, 0)
  | LK_itable => (6%nat, 0%nat, 0) | LK_ftable => (7%nat, 0%nat, 0) | LK_cons => (8%nat, 0%nat, 0)
  | LK_uart => (9%nat, 0%nat, 0) | LK_vdisk => (10%nat, 0%nat, 0) | LK_pr => (11%nat, 0%nat, 0)
  | LK_proc i => (12%nat, i, 0) | LK_sleep (SL_buf i) => (13%nat, i, 0)
  | LK_sleep (SL_inode i) => (14%nat, i, 0) | LK_pipe pi => (15%nat, 0%nat, pi)
  end.

Definition lockid_decode (c : nat * nat * Z) : lockid :=
  match c with
  | (0, _, _) => LK_kmem | (1, _, _) => LK_pid | (2, _, _) => LK_wait | (3, _, _) => LK_ticks
  | (4, _, _) => LK_bcache | (5, _, _) => LK_log | (6, _, _) => LK_itable
  | (7, _, _) => LK_ftable | (8, _, _) => LK_cons | (9, _, _) => LK_uart
  | (10, _, _) => LK_vdisk | (11, _, _) => LK_pr | (12, i, _) => LK_proc i
  | (13, i, _) => LK_sleep (SL_buf i) | (14, i, _) => LK_sleep (SL_inode i)
  | (_, _, pi) => LK_pipe pi
  end%nat.

#[export] Instance lockid_countable : Countable lockid.
Proof. apply (inj_countable' lockid_encode lockid_decode). by intros [| | | | | | | | | | | | |[]|]. Defined.

(** ** The executing hart *)

(** Supervisor registers read and written through riscv.h's accessors. *)
#[projections(primitive)]
Record csrs := mkCsrs {
  r_sstatus : Z;
  r_stvec : Z;
  r_sepc : Z;
  r_scause : Z;
  r_stval : Z;
  r_satp : Z;
  r_stimecmp : Z;
  r_time : Z;
  r_tp : Z; (* this hart's id, the index into cpus[] *)
}.

Definition r_set_sstatus (v : Z) (r : csrs) : csrs :=
  mkCsrs v (r_stvec r) (r_sepc r) (r_scause r) (r_stval r) (r_satp r) (r_stimecmp r)
    (r_time r) (r_tp r).
Definition r_set_stvec (v : Z) (r : csrs) : csrs :=
  mkCsrs (r_sstatus r) v (r_sepc r) (r_scause r) (r_stval r) (r_satp r) (r_stimecmp r)
    (r_time r) (r_tp r).
Definition r_set_sepc (v : Z) (r : csrs) : csrs :=
  mkCsrs (r_sstatus r) (r_stvec r) v (r_scause r) (r_stval r) (r_satp r) (r_stimecmp r)
    (r_time r) (r_tp r).
Definition r_set_scause (v : Z) (r : csrs) : csrs :=
  mkCsrs (r_sstatus r) (r_stvec r) (r_sepc r) v (r_stval r) (r_satp r) (r_stimecmp r)
    (r_time r) (r_tp r).
Definition r_set_stval (v : Z) (r : csrs) : csrs :=
  mkCsrs (r_sstatus r) (r_stvec r) (r_sepc r) (r_scause r) v (r_satp r) (r_stimecmp r)
    (r_time r) (r_tp r).
Definition r_set_satp (v : Z) (r : csrs) : csrs :=
  mkCsrs (r_sstatus r) (r_stvec r) (r_sepc r) (r_scause r) (r_stval r) v (r_stimecmp r)
    (r_time r) (r_tp r).
Definition r_set_stimecmp (v : Z) (r : csrs) : csrs :=
  mkCsrs (r_sstatus r) (r_stvec r) (r_sepc r) (r_scause r) (r_stval r) (r_satp r) v
    (r_time r) (r_tp r).
Definition r_set_time (v : Z) (r : csrs) : csrs :=
  mkCsrs (r_sstatus r) (r_stvec r) (r_sepc r) (r_scause r) (r_stval r) (r_satp r)
    (r_stimecmp r) v (r_tp r).
Definition r_set_tp (v : Z) (r : csrs) : csrs :=
  mkCsrs (r_sstatus r) (r_stvec r) (r_sepc r) (r_scause r) (r_stval r) (r_satp r)
    (r_stimecmp r) (r_time r) v.

(** struct context of proc.h *)
#[projections(primitive)]
Record context := mkContext {
  ctx_ra : Z;
  ctx_sp : Z;
  ctx_s : list Z; (* s0..s11 *)
}.

(** struct cpu of proc.h *)
#[projections(primitive)]
Record cpu := mkCpu {
  c_proc : option nat; (* the process running on this cpu, or null *)
  c_context : context;
  c_noff : Z; (* depth of push_off() nesting *)
  c_intena : Z; (* were interrupts enabled before push_off()? *)
}.

Definition c_set_proc (v : option nat) (r : cpu) : cpu :=
  mkCpu v (c_context r) (c_noff r) (c_intena r).
Definition c_set_context (v : context) (r : cpu) : cpu :=
  mkCpu (c_proc r) v (c_noff r) (c_intena r).
Definition c_set_noff (v : Z) (r : cpu) : cpu :=
  mkCpu (c_proc r) (c_context r) v (c_intena r).
Definition c_set_intena (v : Z) (r : cpu) : cpu :=
  mkCpu (c_proc r) (c_context r) (c_noff r) v.

(** ** Processes *)

(** enum procstate of proc.h *)
Inductive procstate : Type := UNUSED | USED | SLEEPING | RUNNABLE | RUNNING | ZOMBIE.

#[export] Instance procstate_eq_dec : EqDecision procstate.
Proof. solve_decision. Defined.

(** struct vm_area of proc.h *)
#[projections(primitive)]
Record vm_area := mkVma {
  va_start_addr : Z;
  va_length : Z; (* 0 when the slot is free *)
  va_prot : Z;
  va_flags : Z;
  va_fptr : option nat;
  va_valid_start : Z;
  va_valid_end : Z;
}.

Definition va_set_start_addr (v : Z) (r : vm_area) : vm_area :=
  mkVma v (va_length r) (va_prot r) (va_flags r) (va_fptr r) (va_valid_start r)
    (va_valid_end r).
Definition va_set_length (v : Z) (r : vm_area) : vm_area :=
  mkVma (va_start_addr r) v (va_prot r) (va_flags r) (va_fptr r) (va_valid_start r)
    (va_valid_end r).
Definition va_set_prot (v : Z) (r : vm_area) : vm_area :=
  mkVma (va_start_addr r) (va_length r) v (va_flags r) (va_fptr r) (va_valid_start r)
    (va_valid_end r).
Definition va_set_flags (v : Z) (r : vm_area) : vm_area :=
  mkVma (va_start_addr r) (va_length r) (va_prot r) v (va_fptr r) (va_valid_start r)
    (va_valid_end r).
Definition va_set_fptr (v : option nat) (r : vm_area) : vm_area :=
  mkVma (va_start_addr r) (va_length r) (va_prot r) (va_flags r) v (va_valid_start r)
    (va_valid_end r).
Definition va_set_valid_start (v : Z) (r : vm_area) : vm_area :=
  mkVma (va_start_addr r) (va_length r) (va_prot r) (va_flags r) (va_fptr r) v
    (va_valid_end r).
Definition va_set_valid_end (v : Z) (r : vm_area) : vm_area :=
  mkVma (va_start_addr r) (va_length r) (va_prot r) (va_flags r) (va_fptr r)
    (va_valid_start r) v.

Definition vma_zero : vm_area := mkVma 0 0 0 0 None 0 0.

(** struct proc of proc.h; its spinlock is [LK_proc i] *)
#[projections(primitive)]
Record proc := mkProc {
  p_state : procstate;
  p_chan : chan;
  p_killed : Z;
  p_xstate : Z;
  p_pid : Z;
  p_parent : option nat;
  p_kstack : Z;
  p_sz : Z;
  p_pagetable : Z;
  p_next_start : Z;
  p_vm_areas : list vm_area;
  p_trapframe : Z;
  p_context : context;
  p_ofile : list (option nat);
  p_cwd : option nat;
  p_name : list Z;
}.

Definition p_set_state (v : procstate) (r : proc) : proc :=
  mkProc v (p_chan r) (p_killed r) (p_xstate r) (p_pid r) (p_parent r) (p_kstack r)
    (p_sz r) (p_pagetable r) (p_next_start r) (p_vm_areas r) (p_trapframe r) (p_context r)
    (p_ofile r) (p_cwd r) (p_name r).
Definition p_set_chan (v : chan) (r : proc) : proc :=
  mkProc (p_state r) v (p_killed r) (p_xstate r) (p_pid r) (p_parent r) (p_kstack r)
    (p_sz r) (p_pagetable r) (p_next_start r) (p_vm_areas r) (p_trapframe r) (p_context r)
    (p_ofile r) (p_cwd r) (p_name r).
Definition p_set_killed (v : Z) (r : proc) : proc :=
  mkProc (p_state r) (p_chan r) v (p_xstate r) (p_pid r) (p_parent r) (p_kstack r)
    (p_sz r) (p_pagetable r) (p_next_start r) (p_vm_areas r) (p_trapframe r) (p_context r)
    (p_ofile r) (p_cwd r) (p_name r).
Definition p_set_xstate (v : Z) (r : proc) : proc :=
  mkProc (p_state r) (p_chan r) (p_killed r) v (p_pid r) (p_parent r) (p_kstack r)
    (p_sz r) (p_pagetable r) (p_next_start r) (p_vm_areas r) (p_trapframe r) (p_context r)
    (p_ofile r) (p_cwd r) (p_name r).
Definition p_set_pid (v : Z) (r : proc) : proc :=
  mkProc (p_state r) (p_chan r) (p_killed r) (p_xstate r) v (p_parent r) (p_kstack r)
    (p_sz r) (p_pagetable r) (p_next_start r) (p_vm_areas r) (p_trapframe r) (p_context r)
    (p_ofile r) (p_cwd r) (p_name r).
Definition p_set_parent (v : option nat) (r : proc) : proc :=
  mkProc (p_state r) (p_chan r) (p_killed r) (p_xstate r) (p_pid r) v (p_kstack r)
    (p_sz r) (p_pagetable r) (p_next_start r) (p_vm_areas r) (p_trapframe r) (p_context r)
    (p_ofile r) (p_cwd r) (p_name r).
Definition p_set_kstack (v : Z) (r : proc) : proc :=
  mkProc (p_state r) (p_chan r) (p_killed r) (p_xstate r) (p_pid r) (p_parent r) v
    (p_sz r) (p_pagetable r) (p_next_start r) (p_vm_areas r) (p_trapframe r) (p_context r)
    (p_ofile r) (p_cwd r) (p_name r).
Definition p_set_sz (v : Z) (r : proc) : proc :=
  mkProc (p_state r) (p_chan r) (p_killed r) (p_xstate r) (p_pid r) (p_parent r)
    (p_kstack r) v (p_pagetable r) (p_next_start r) (p_vm_areas r) (p_trapframe r)
    (p_context r) (p_ofile r) (p_cwd r) (p_name r).
Definition p_set_pagetable (v : Z) (r : proc) : proc :=
  mkProc (p_state r) (p_chan r) (p_killed r) (p_xstate r) (p_pid r) (p_parent r)
    (p_kstack r) (p_sz r) v (p_next_start r) (p_vm_areas r) (p_trapframe r) (p_context r)
    (p_ofile r) (p_cwd r) (p_name r).
Definition p_set_next_start (v : Z) (r : proc) : proc :=
  mkProc (p_state r) (p_chan r) (p_killed r) (p_xstate r) (p_pid r) (p_parent r)
    (p_kstack r) (p_sz r) (p_pagetable r) v (p_vm_areas r) (p_trapframe r) (p_context r)
    (p_ofile r) (p_cwd r) (p_name r).
Definition p_set_vm_areas (v : list vm_area) (r : proc) : proc :=
  mkProc (p_state r) (p_chan r) (p_killed r) (p_xstate r) (p_pid r) (p_parent r)
    (p_kstack r) (p_sz r) (p_pagetable r) (p_next_start r) v (p_trapframe r) (p_context r)
    (p_ofile r) (p_cwd r) (p_name r).
Definition p_set_trapframe (v : Z) (r : proc) : proc :=
  mkProc (p_state r) (p_chan r) (p_killed r) (p_xstate r) (p_pid r) (p_parent r)
    (p_kstack r) (p_sz r) (p_pagetable r) (p_next_start r) (p_vm_areas r) v (p_context r)
    (p_ofile r) (p_cwd r) (p_name r).
Definition p_set_context (v : context) (r : proc) : proc :=
  mkProc (p_state r) (p_chan r) (p_killed r) (p_xstate r) (p_pid r) (p_parent r)
    (p_kstack r) (p_sz r) (p_pagetable r) (p_next_start r) (p_vm_areas r) (p_trapframe r)
    v (p_ofile r) (p_cwd r) (p_name r).
Definition p_set_ofile (v : list (option nat)) (r : proc) : proc :=
  mkProc (p_state r) (p_chan r) (p_killed r) (p_xstate r) (p_pid r) (p_parent r)
    (p_kstack r) (p_sz r) (p_pagetable r) (p_next_start r) (p_vm_areas r) (p_trapframe r)
    (p_context r) v (p_cwd r) (p_name r).
Definition p_set_cwd (v : option nat) (r : proc) : proc :=
  mkProc (p_state r) (p_chan r) (p_killed r) (p_xstate r) (p_pid r) (p_parent r)
    (p_kstack r) (p_sz r) (p_pagetable r) (p_next_start r) (p_vm_areas r) (p_trapframe r)
    (p_context r) (p_ofile r) v (p_name r).
Definition p_set_name (v : list Z) (r : proc) : proc :=
  mkProc (p_state r) (p_chan r) (p_killed r) (p_xstate r) (p_pid r) (p_parent r)
    (p_kstack r) (p_sz r) (p_pagetable r) (p_next_start r) (p_vm_areas r) (p_trapframe r)
    (p_context r) (p_ofile r) (p_cwd r) v.

(** ** Buffers, log, inodes, files *)

(** struct sleeplock of sleeplock.h; its spinlock is [LK_sleep l] *)
#[projections(primitive)]
Record sleeplock := mkSl {
  sl_locked : Z;
  sl_pid : Z;
}.

Definition sl_set_locked (v : Z) (r : sleeplock) : sleeplock :=
  mkSl v (sl_pid r).
Definition sl_set_pid (v : Z) (r : sleeplock) : sleeplock :=
  mkSl (sl_locked r) v.

(** struct buf of buf.h *)
#[projections(primitive)]
Record buf := mkBuf {
  b_valid : Z;
  b_disk : Z;
  b_dev : Z;
  b_blockno : Z;
  b_lock : sleeplock;
  b_refcnt : Z;
  b_prev : nat; (* index, NBUF for bcache.head *)
  b_next : nat;
  b_data : list Z;
}.

Definition b_set_valid (v : Z) (r : buf) : buf :=
  mkBuf v (b_disk r) (b_dev r) (b_blockno r) (b_lock r) (b_refcnt r) (b_prev r) (b_next r)
    (b_data r).
Definition b_set_disk (v : Z) (r : buf) : buf :=
  mkBuf (b_valid r) v (b_dev r) (b_blockno r) (b_lock r) (b_refcnt r) (b_prev r)
    (b_next r) (b_data r).
Definition b_set_dev (v : Z) (r : buf) : buf :=
  mkBuf (b_valid r) (b_disk r) v (b_blockno r) (b_lock r) (b_refcnt r) (b_prev r)
    (b_next r) (b_data r).
Definition b_set_blockno (v : Z) (r : buf) : buf :=
  mkBuf (b_valid r) (b_disk r) (b_dev r) v (b_lock r) (b_refcnt r) (b_prev r) (b_next r)
    (b_data r).
Definition b_set_lock (v : sleeplock) (r : buf) : buf :=
  mkBuf (b_valid r) (b_disk r) (b_dev r) (b_blockno r) v (b_refcnt r) (b_prev r)
    (b_next r) (b_data r).
Definition b_set_refcnt (v : Z) (r : buf) : buf :=
  mkBuf (b_valid r) (b_disk r) (b_dev r) (b_blockno r) (b_lock r) v (b_prev r) (b_next r)
    (b_data r).
Definition b_set_prev (v : nat) (r : buf) : buf :=
  mkBuf (b_valid r) (b_disk r) (b_dev r) (b_blockno r) (b_lock r) (b_refcnt r) v
    (b_next r) (b_data r).
Definition b_set_next (v : nat) (r : buf) : buf :=
  mkBuf (b_valid r) (b_disk r) (b_dev r) (b_blockno r) (b_lock r) (b_refcnt r) (b_prev r)
    v (b_data r).
Definition b_set_data (v : list Z) (r : buf) : buf :=
  mkBuf (b_valid r) (b_disk r) (b_dev r) (b_blockno r) (b_lock r) (b_refcnt r) (b_prev r)
    (b_next r) v.

(** struct log of log.c with its struct logheader *)
#[projections(primitive)]
Record logst := mkLog {
  l_start : Z;
  l_size : Z;
  l_outstanding : Z;
  l_committing : Z;
  l_dev : Z;
  l_n : Z; (* lh.n *)
  l_block : list Z; (* lh.block *)
}.

Definition l_set_start (v : Z) (r : logst) : logst :=
  mkLog v (l_size r) (l_outstanding r) (l_committing r) (l_dev r) (l_n r) (l_block r).
Definition l_set_size (v : Z) (r : logst) : logst :=
  mkLog (l_start r) v (l_outstanding r) (l_committing r) (l_dev r) (l_n r) (l_block r).
Definition l_set_outstanding (v : Z) (r : logst) : logst :=
  mkLog (l_start r) (l_size r) v (l_committing r) (l_dev r) (l_n r) (l_block r).
Definition l_set_committing (v : Z) (r : logst) : logst :=
  mkLog (l_start r) (l_size r) (l_outstanding r) v (l_dev r) (l_n r) (l_block r).
Definition l_set_dev (v : Z) (r : logst) : logst :=
  mkLog (l_start r) (l_size r) (l_outstanding r) (l_committing r) v (l_n r) (l_block r).
Definition l_set_n (v : Z) (r : logst) : logst :=
  mkLog (l_start r) (l_size r) (l_outstanding r) (l_committing r) (l_dev r) v (l_block r).
Definition l_set_block (v : list Z) (r : logst) : logst :=
  mkLog (l_start r) (l_size r) (l_outstanding r) (l_committing r) (l_dev r) (l_n r) v.

(** struct superblock of fs.h *)
#[projections(primitive)]
Record superblock := mkSb {
  sb_magic : Z;
  sb_size : Z;
  sb_nblocks : Z;
  sb_ninodes : Z;
  sb_nlog : Z;
  sb_logstart : Z;
  sb_inodestart : Z;
  sb_bmapstart : Z;
}.

(** struct inode of file.h *)
#[projections(primitive)]
Record inode := mkInode {
  i_dev : Z;
  i_inum : Z;
  i_ref : Z;
  i_lock : sleeplock;
  i_valid : Z;
  i_type : Z;
  i_major : Z;
  i_minor : Z;
  i_nlink : Z;
  i_size : Z;
  i_addrs : list Z;
}.

Definition i_set_dev (v : Z) (r : inode) : inode :=
  mkInode v (i_inum r) (i_ref r) (i_lock r) (i_valid r) (i_type r) (i_major r) (i_minor r)
    (i_nlink r) (i_size r) (i_addrs r).
Definition i_set_inum (v : Z) (r : inode) : inode :=
  mkInode (i_dev r) v (i_ref r) (i_lock r) (i_valid r) (i_type r) (i_major r) (i_minor r)
    (i_nlink r) (i_size r) (i_addrs r).
Definition i_set_ref (v : Z) (r : inode) : inode :=
  mkInode (i_dev r) (i_inum r) v (i_lock r) (i_valid r) (i_type r) (i_major r) (i_minor r)
    (i_nlink r) (i_size r) (i_addrs r).
Definition i_set_lock (v : sleeplock) (r : inode) : inode :=
  mkInode (i_dev r) (i_inum r) (i_ref r) v (i_valid r) (i_type r) (i_major r) (i_minor r)
    (i_nlink r) (i_size r) (i_addrs r).
Definition i_set_valid (v : Z) (r : inode) : inode :=
  mkInode (i_dev r) (i_inum r) (i_ref r) (i_lock r) v (i_type r) (i_major r) (i_minor r)
    (i_nlink r) (i_size r) (i_addrs r).
Definition i_set_type (v : Z) (r : inode) : inode :=
  mkInode (i_dev r) (i_inum r) (i_ref r) (i_lock r) (i_valid r) v (i_major r) (i_minor r)
    (i_nlink r) (i_size r) (i_addrs r).
Definition i_set_major (v : Z) (r : inode) : inode :=
  mkInode (i_dev r) (i_inum r) (i_ref r) (i_lock r) (i_valid r) (i_type r) v (i_minor r)
    (i_nlink r) (i_size r) (i_addrs r).
Definition i_set_minor (v : Z) (r : inode) : inode :=
  mkInode (i_dev r) (i_inum r) (i_ref r) (i_lock r) (i_valid r) (i_type r) (i_major r) v
    (i_nlink r) (i_size r) (i_addrs r).
Definition i_set_nlink (v : Z) (r : inode) : inode :=
  mkInode (i_dev r) (i_inum r) (i_ref r) (i_lock r) (i_valid r) (i_type r) (i_major r)
    (i_minor r) v (i_size r) (i_addrs r).
Definition i_set_size (v : Z) (r : inode) : inode :=
  mkInode (i_dev r) (i_inum r) (i_ref r) (i_lock r) (i_valid r) (i_type r) (i_major r)
    (i_minor r) (i_nlink r) v (i_addrs r).
Definition i_set_addrs (v : list Z) (r : inode) : inode :=
  mkInode (i_dev r) (i_inum r) (i_ref r) (i_lock r) (i_valid r) (i_type r) (i_major r)
    (i_minor r) (i_nlink r) (i_size r) v.

(** the enum of struct file *)
Inductive ftype : Type := FD_NONE | FD_PIPE | FD_INODE | FD_DEVICE.

#[export] Instance ftype_eq_dec : EqDecision ftype.
Proof. solve_decision. Defined.

(** struct file of file.h *)
#[projections(primitive)]
Record file := mkFile {
  f_type : ftype;
  f_ref : Z;
  f_readable : Z;
  f_writable : Z;
  f_pipe : Z;
  f_ip : option nat;
  f_off : Z;
  f_major : Z;
}.

Definition f_set_type (v : ftype) (r : file) : file :=
  mkFile v (f_ref r) (f_readable r) (f_writable r) (f_pipe r) (f_ip r) (f_off r)
    (f_major r).
Definition f_set_ref (v : Z) (r : file) : file :=
  mkFile (f_type r) v (f_readable r) (f_writable r) (f_pipe r) (f_ip r) (f_off r)
    (f_major r).
Definition f_set_readable (v : Z) (r : file) : file :=
  mkFile (f_type r) (f_ref r) v (f_writable r) (f_pipe r) (f_ip r) (f_off r) (f_major r).
Definition f_set_writable (v : Z) (r : file) : file :=
  mkFile (f_type r) (f_ref r) (f_readable r) v (f_pipe r) (f_ip r) (f_off r) (f_major r).
Definition f_set_pipe (v : Z) (r : file) : file :=
  mkFile (f_type r) (f_ref r) (f_readable r) (f_writable r) v (f_ip r) (f_off r)
    (f_major r).
Definition f_set_ip (v : option nat) (r : file) : file :=
  mkFile (f_type r) (f_ref r) (f_readable r) (f_writable r) (f_pipe r) v (f_off r)
    (f_major r).
Definition f_set_off (v : Z) (r : file) : file :=
  mkFile (f_type r) (f_ref r) (f_readable r) (f_writable r) (f_pipe r) (f_ip r) v
    (f_major r).
Definition f_set_major (v : Z) (r : file) : file :=
  mkFile (f_type r) (f_ref r) (f_readable r) (f_writable r) (f_pipe r) (f_ip r) (f_off r)
    v.

(** ** Console and UART *)

(** the struct cons of console.c *)
#[projections(primitive)]
Record cons := mkCons {
  cons_buf : list Z;
  cons_r : Z;
  cons_w : Z;
  cons_e : Z;
}.

Definition cons_set_buf (v : list Z) (r : cons) : cons :=
  mkCons v (cons_r r) (cons_w r) (cons_e r).
Definition cons_set_r (v : Z) (r : cons) : cons :=
  mkCons (cons_buf r) v (cons_w r) (cons_e r).
Definition cons_set_w (v : Z) (r : cons) : cons :=
  mkCons (cons_buf r) (cons_r r) v (cons_e r).
Definition cons_set_e (v : Z) (r : cons) : cons :=
  mkCons (cons_buf r) (cons_r r) (cons_w r) v.

(** the transmit buffer of uart.c and the 16550 registers behind it *)
#[projections(primitive)]
Record uart := mkUart {
  u_tx_buf : list Z;
  u_tx_w : Z;
  u_tx_r : Z;
  u_rx : list Z; (* bytes waiting in the device's receive FIFO *)
  u_tx_room : nat; (* bytes the device accepts before LSR_TX_IDLE clears *)
  u_out : list Z; (* bytes written to THR, oldest first *)
}.

Definition u_set_tx_buf (v : list Z) (r : uart) : uart :=
  mkUart v (u_tx_w r) (u_tx_r r) (u_rx r) (u_tx_room r) (u_out r).
Definition u_set_tx_w (v : Z) (r : uart) : uart :=
  mkUart (u_tx_buf r) v (u_tx_r r) (u_rx r) (u_tx_room r) (u_out r).
Definition u_set_tx_r (v : Z) (r : uart) : uart :=
  mkUart (u_tx_buf r) (u_tx_w r) v (u_rx r) (u_tx_room r) (u_out r).
Definition u_set_rx (v : list Z) (r : uart) : uart :=
  mkUart (u_tx_buf r) (u_tx_w r) (u_tx_r r) v (u_tx_room r) (u_out r).
Definition u_set_tx_room (v : nat) (r : uart) : uart :=
  mkUart (u_tx_buf r) (u_tx_w r) (u_tx_r r) (u_rx r) v (u_out r).
Definition u_set_out (v : list Z) (r : uart) : uart :=
  mkUart (u_tx_buf r) (u_tx_w r) (u_tx_r r) (u_rx r) (u_tx_room r) v.

(** ** The virtio disk *)

(** What a descriptor's addr field points to. *)
Inductive daddr : Type :=
| DA_null | DA_op (i : nat) (* &disk.ops[i] *) | DA_data (b : nat) (* b->data *)
| DA_status (i : nat). (* &disk.info[i].status *)

(** struct virtq_desc of virtio.h *)
#[projections(primitive)]
Record vdesc := mkDesc {
  d_addr : daddr;
  d_len : Z;
  d_flags : Z;
  d_next : Z;
}.

Definition d_set_addr (v : daddr) (r : vdesc) : vdesc :=
  mkDesc v (d_len r) (d_flags r) (d_next r).
Definition d_set_len (v : Z) (r : vdesc) : vdesc :=
  mkDesc (d_addr r) v (d_flags r) (d_next r).
Definition d_set_flags (v : Z) (r : vdesc) : vdesc :=
  mkDesc (d_addr r) (d_len r) v (d_next r).
Definition d_set_next (v : Z) (r : vdesc) : vdesc :=
  mkDesc (d_addr r) (d_len r) (d_flags r) v.

(** struct disk of virtio_disk.c, with the three queue pages that the driver shares
    with the device, and the two registers of the device that the driver uses once
    the queue is set up *)
#[projections(primitive)]
Record vdisk := mkVdisk {
  v_desc : list vdesc;
  v_avail_idx : Z; (* avail->idx *)
  v_avail_ring : list Z; (* avail->ring *)
  v_used_ring_idx : Z; (* used->idx, written by the device *)
  v_used_ring : list Z; (* the ids in used->ring *)
  v_free : list Z;
  v_used_idx : Z;
  v_info_b : list (option nat); (* info[i].b *)
  v_info_status : list Z; (* info[i].status *)
  v_ops : list (Z * Z * Z); (* type, reserved and sector of ops[i] *)
  v_notify : option Z; (* QUEUE_NOTIFY: the queue number written, until the device looks *)
  v_intr_status : Z; (* INTERRUPT_STATUS: the interrupts not yet acknowledged *)
}.

Definition v_set_desc (v : list vdesc) (r : vdisk) : vdisk :=
  mkVdisk v (v_avail_idx r) (v_avail_ring r) (v_used_ring_idx r) (v_used_ring r)
    (v_free r) (v_used_idx r) (v_info_b r) (v_info_status r) (v_ops r) (v_notify r) (v_intr_status r).
Definition v_set_avail_idx (v : Z) (r : vdisk) : vdisk :=
  mkVdisk (v_desc r) v (v_avail_ring r) (v_used_ring_idx r) (v_used_ring r) (v_free r)
    (v_used_idx r) (v_info_b r) (v_info_status r) (v_ops r) (v_notify r) (v_intr_status r).
Definition v_set_avail_ring (v : list Z) (r : vdisk) : vdisk :=
  mkVdisk (v_desc r) (v_avail_idx r) v (v_used_ring_idx r) (v_used_ring r) (v_free r)
    (v_used_idx r) (v_info_b r) (v_info_status r) (v_ops r) (v_notify r) (v_intr_status r).
Definition v_set_used_ring_idx (v : Z) (r : vdisk) : vdisk :=
  mkVdisk (v_desc r) (v_avail_idx r) (v_avail_ring r) v (v_used_ring r) (v_free r)
    (v_used_idx r) (v_info_b r) (v_info_status r) (v_ops r) (v_notify r) (v_intr_status r).
Definition v_set_used_ring (v : list Z) (r : vdisk) : vdisk :=
  mkVdisk (v_desc r) (v_avail_idx r) (v_avail_ring r) (v_used_ring_idx r) v (v_free r)
    (v_used_idx r) (v_info_b r) (v_info_status r) (v_ops r) (v_notify r) (v_intr_status r).
Definition v_set_free (v : list Z) (r : vdisk) : vdisk :=
  mkVdisk (v_desc r) (v_avail_idx r) (v_avail_ring r) (v_used_ring_idx r) (v_used_ring r)
    v (v_used_idx r) (v_info_b r) (v_info_status r) (v_ops r) (v_notify r) (v_intr_status r).
Definition v_set_used_idx (v : Z) (r : vdisk) : vdisk :=
  mkVdisk (v_desc r) (v_avail_idx r) (v_avail_ring r) (v_used_ring_idx r) (v_used_ring r)
    (v_free r) v (v_info_b r) (v_info_status r) (v_ops r) (v_notify r) (v_intr_status r).
Definition v_set_info_b (v : list (option nat)) (r : vdisk) : vdisk :=
  mkVdisk (v_desc r) (v_avail_idx r) (v_avail_ring r) (v_used_ring_idx r) (v_used_ring r)
    (v_free r) (v_used_idx r) v (v_info_status r) (v_ops r) (v_notify r) (v_intr_status r).
Definition v_set_info_status (v : list Z) (r : vdisk) : vdisk :=
  mkVdisk (v_desc r) (v_avail_idx r) (v_avail_ring r) (v_used_ring_idx r) (v_used_ring r)
    (v_free r) (v_used_idx r) (v_info_b r) v (v_ops r) (v_notify r) (v_intr_status r).
Definition v_set_ops (v : list (Z * Z * Z)) (r : vdisk) : vdisk :=
  mkVdisk (v_desc r) (v_avail_idx r) (v_avail_ring r) (v_used_ring_idx r) (v_used_ring r)
    (v_free r) (v_used_idx r) (v_info_b r) (v_info_status r) v (v_notify r) (v_intr_status r).
Definition v_set_notify (v : option Z) (r : vdisk) : vdisk :=
  mkVdisk (v_desc r) (v_avail_idx r) (v_avail_ring r) (v_used_ring_idx r) (v_used_ring r)
    (v_free r) (v_used_idx r) (v_info_b r) (v_info_status r) (v_ops r) v (v_intr_status r).
Definition v_set_intr_status (v : Z) (r : vdisk) : vdisk :=
  mkVdisk (v_desc r) (v_avail_idx r) (v_avail_ring r) (v_used_ring_idx r) (v_used_ring r)
    (v_free r) (v_used_idx r) (v_info_b r) (v_info_status r) (v_ops r) (v_notify r) v.

(** The functions a devsw entry can point to. *)
Inductive devfn : Type := DEV_console.

(** ** The whole state *)

(** All global variables of the kernel. *)
#[projections(primitive)]
Record kstate := mkK {
  k_csr : csrs;
  k_cpus : list cpu;
  k_locks : gmap lockid Z;
  k_mem : Z -> Z;
  k_freelist : Z; (* kmem.freelist *)
  k_kpgtbl : Z; (* kernel_pagetable *)
  k_procs : list proc;
  k_initproc : option nat;
  k_nextpid : Z;
  k_ticks : Z;
  k_first : Z; (* forkret()'s static first *)
  k_bufs : list buf; (* bcache.buf, then bcache.head at index NBUF *)
  k_log : logst;
  k_sb : superblock;
  k_inodes : list inode; (* itable.inode *)
  k_files : list file; (* ftable.file *)
  k_devsw : list (option devfn * option devfn);
  k_cons : cons;
  k_uart : uart;
  k_locking : Z; (* pr.locking *)
  k_panicked : Z;
  k_blocks : gmap Z (list Z); (* the disk when the machine started, by block number *)
  k_writes : list (Z * list Z); (* the blocks written to it since, the latest first *)
  k_vdisk : vdisk;
}.

Definition k_set_csr (v : csrs) (r : kstate) : kstate :=
  mkK v (k_cpus r) (k_locks r) (k_mem r) (k_freelist r) (k_kpgtbl r) (k_procs r)
    (k_initproc r) (k_nextpid r) (k_ticks r) (k_first r) (k_bufs r) (k_log r) (k_sb r)
    (k_inodes r) (k_files r) (k_devsw r) (k_cons r) (k_uart r) (k_locking r)
    (k_panicked r) (k_blocks r) (k_writes r) (k_vdisk r).
Definition k_set_cpus (v : list cpu) (r : kstate) : kstate :=
  mkK (k_csr r) v (k_locks r) (k_mem r) (k_freelist r) (k_kpgtbl r) (k_procs r)
    (k_initproc r) (k_nextpid r) (k_ticks r) (k_first r) (k_bufs r) (k_log r) (k_sb r)
    (k_inodes r) (k_files r) (k_devsw r) (k_cons r) (k_uart r) (k_locking r)
    (k_panicked r) (k_blocks r) (k_writes r) (k_vdisk r).
Definition k_set_locks (v : gmap lockid Z) (r : kstate) : kstate :=
  mkK (k_csr r) (k_cpus r) v (k_mem r) (k_freelist r) (k_kpgtbl r) (k_procs r)
    (k_initproc r) (k_nextpid r) (k_ticks r) (k_first r) (k_bufs r) (k_log r) (k_sb r)
    (k_inodes r) (k_files r) (k_devsw r) (k_cons r) (k_uart r) (k_locking r)
    (k_panicked r) (k_blocks r) (k_writes r) (k_vdisk r).
Definition k_set_mem (v : Z -> Z) (r : kstate) : kstate :=
  mkK (k_csr r) (k_cpus r) (k_locks r) v (k_freelist r) (k_kpgtbl r) (k_procs r)
    (k_initproc r) (k_nextpid r) (k_ticks r) (k_first r) (k_bufs r) (k_log r) (k_sb r)
    (k_inodes r) (k_files r) (k_devsw r) (k_cons r) (k_uart r) (k_locking r)
    (k_panicked r) (k_blocks r) (k_writes r) (k_vdisk r).
Definition k_set_freelist (v : Z) (r : kstate) : kstate :=
  mkK (k_csr r) (k_cpus r) (k_locks r) (k_mem r) v (k_kpgtbl r) (k_procs r) (k_initproc r)
    (k_nextpid r) (k_ticks r) (k_first r) (k_bufs r) (k_log r) (k_sb r) (k_inodes r)
    (k_files r) (k_devsw r) (k_cons r) (k_uart r) (k_locking r) (k_panicked r)
    (k_blocks r) (k_writes r) (k_vdisk r).
Definition k_set_kpgtbl (v : Z) (r : kstate) : kstate :=
  mkK (k_csr r) (k_cpus r) (k_locks r) (k_mem r) (k_freelist r) v (k_procs r)
    (k_initproc r) (k_nextpid r) (k_ticks r) (k_first r) (k_bufs r) (k_log r) (k_sb r)
    (k_inodes r) (k_files r) (k_devsw r) (k_cons r) (k_uart r) (k_locking r)
    (k_panicked r) (k_blocks r) (k_writes r) (k_vdisk r).
Definition k_set_procs (v : list proc) (r : kstate) : kstate :=
  mkK (k_csr r) (k_cpus r) (k_locks r) (k_mem r) (k_freelist r) (k_kpgtbl r) v
    (k_initproc r) (k_nextpid r) (k_ticks r) (k_first r) (k_bufs r) (k_log r) (k_sb r)
    (k_inodes r) (k_files r) (k_devsw r) (k_cons r) (k_uart r) (k_locking r)
    (k_panicked r) (k_blocks r) (k_writes r) (k_vdisk r).
Definition k_set_initproc (v : option nat) (r : kstate) : kstate :=
  mkK (k_csr r) (k_cpus r) (k_locks r) (k_mem r) (k_freelist r) (k_kpgtbl r) (k_procs r) v
    (k_nextpid r) (k_ticks r) (k_first r) (k_bufs r) (k_log r) (k_sb r) (k_inodes r)
    (k_files r) (k_devsw r) (k_cons r) (k_uart r) (k_locking r) (k_panicked r)
    (k_blocks r) (k_writes r) (k_vdisk r).
Definition k_set_nextpid (v : Z) (r : kstate) : kstate :=
  mkK (k_csr r) (k_cpus r) (k_locks r) (k_mem r) (k_freelist r) (k_kpgtbl r) (k_procs r)
    (k_initproc r) v (k_ticks r) (k_first r) (k_bufs r) (k_log r) (k_sb r) (k_inodes r)
    (k_files r) (k_devsw r) (k_cons r) (k_uart r) (k_locking r) (k_panicked r)
    (k_blocks r) (k_writes r) (k_vdisk r).
Definition k_set_ticks (v : Z) (r : kstate) : kstate :=
  mkK (k_csr r) (k_cpus r) (k_locks r) (k_mem r) (k_freelist r) (k_kpgtbl r) (k_procs r)
    (k_initproc r) (k_nextpid r) v (k_first r) (k_bufs r) (k_log r) (k_sb r) (k_inodes r)
    (k_files r) (k_devsw r) (k_cons r) (k_uart r) (k_locking r) (k_panicked r)
    (k_blocks r) (k_writes r) (k_vdisk r).
Definition k_set_first (v : Z) (r : kstate) : kstate :=
  mkK (k_csr r) (k_cpus r) (k_locks r) (k_mem r) (k_freelist r) (k_kpgtbl r) (k_procs r)
    (k_initproc r) (k_nextpid r) (k_ticks r) v (k_bufs r) (k_log r) (k_sb r) (k_inodes r)
    (k_files r) (k_devsw r) (k_cons r) (k_uart r) (k_locking r) (k_panicked r)
    (k_blocks r) (k_writes r) (k_vdisk r).
Definition k_set_bufs (v : list buf) (r : kstate) : kstate :=
  mkK (k_csr r) (k_cpus r) (k_locks r) (k_mem r) (k_freelist r) (k_kpgtbl r) (k_procs r)
    (k_initproc r) (k_nextpid r) (k_ticks r) (k_first r) v (k_log r) (k_sb r) (k_inodes r)
    (k_files r) (k_devsw r) (k_cons r) (k_uart r) (k_locking r) (k_panicked r)
    (k_blocks r) (k_writes r) (k_vdisk r).
Definition k_set_log (v : logst) (r : kstate) : kstate :=
  mkK (k_csr r) (k_cpus r) (k_locks r) (k_mem r) (k_freelist r) (k_kpgtbl r) (k_procs r)
    (k_initproc r) (k_nextpid r) (k_ticks r) (k_first r) (k_bufs r) v (k_sb r)
    (k_inodes r) (k_files r) (k_devsw r) (k_cons r) (k_uart r) (k_locking r)
    (k_panicked r) (k_blocks r) (k_writes r) (k_vdisk r).
Definition k_set_sb (v : superblock) (r : kstate) : kstate :=
  mkK (k_csr r) (k_cpus r) (k_locks r) (k_mem r) (k_freelist r) (k_kpgtbl r) (k_procs r)
    (k_initproc r) (k_nextpid r) (k_ticks r) (k_first r) (k_bufs r) (k_log r) v
    (k_inodes r) (k_files r) (k_devsw r) (k_cons r) (k_uart r) (k_locking r)
    (k_panicked r) (k_blocks r) (k_writes r) (k_vdisk r).
Definition k_set_inodes (v : list inode) (r : kstate) : kstate :=
  mkK (k_csr r) (k_cpus r) (k_locks r) (k_mem r) (k_freelist r) (k_kpgtbl r) (k_procs r)
    (k_initproc r) (k_nextpid r) (k_ticks r) (k_first r) (k_bufs r) (k_log r) (k_sb r) v
    (k_files r) (k_devsw r) (k_cons r) (k_uart r) (k_locking r) (k_panicked r)
    (k_blocks r) (k_writes r) (k_vdisk r).
Definition k_set_files (v : list file) (r : kstate) : kstate :=
  mkK (k_csr r) (k_cpus r) (k_locks r) (k_mem r) (k_freelist r) (k_kpgtbl r) (k_procs r)
    (k_initproc r) (k_nextpid r) (k_ticks r) (k_first r) (k_bufs r) (k_log r) (k_sb r)
    (k_inodes r) v (k_devsw r) (k_cons r) (k_uart r) (k_locking r) (k_panicked r)
    (k_blocks r) (k_writes r) (k_vdisk r).
Definition k_set_devsw (v : list (option devfn * option devfn)) (r : kstate) : kstate :=
  mkK (k_csr r) (k_cpus r) (k_locks r) (k_mem r) (k_freelist r) (k_kpgtbl r) (k_procs r)
    (k_initproc r) (k_nextpid r) (k_ticks r) (k_first r) (k_bufs r) (k_log r) (k_sb r)
    (k_inodes r) (k_files r) v (k_cons r) (k_uart r) (k_locking r) (k_panicked r)
    (k_blocks r) (k_writes r) (k_vdisk r).
Definition k_set_cons (v : cons) (r : kstate) : kstate :=
  mkK (k_csr r) (k_cpus r) (k_locks r) (k_mem r) (k_freelist r) (k_kpgtbl r) (k_procs r)
    (k_initproc r) (k_nextpid r) (k_ticks r) (k_first r) (k_bufs r) (k_log r) (k_sb r)
    (k_inodes r) (k_files r) (k_devsw r) v (k_uart r) (k_locking r) (k_panicked r)
    (k_blocks r) (k_writes r) (k_vdisk r).
Definition k_set_uart (v : uart) (r : kstate) : kstate :=
  mkK (k_csr r) (k_cpus r) (k_locks r) (k_mem r) (k_freelist r) (k_kpgtbl r) (k_procs r)
    (k_initproc r) (k_nextpid r) (k_ticks r) (k_first r) (k_bufs r) (k_log r) (k_sb r)
    (k_inodes r) (k_files r) (k_devsw r) (k_cons r) v (k_locking r) (k_panicked r)
    (k_blocks r) (k_writes r) (k_vdisk r).
Definition k_set_locking (v : Z) (r : kstate) : kstate :=
  mkK (k_csr r) (k_cpus r) (k_locks r) (k_mem r) (k_freelist r) (k_kpgtbl r) (k_procs r)
    (k_initproc r) (k_nextpid r) (k_ticks r) (k_first r) (k_bufs r) (k_log r) (k_sb r)
    (k_inodes r) (k_files r) (k_devsw r) (k_cons r) (k_uart r) v (k_panicked r)
    (k_blocks r) (k_writes r) (k_vdisk r).
Definition k_set_panicked (v : Z) (r : kstate) : kstate :=
  mkK (k_csr r) (k_cpus r) (k_locks r) (k_mem r) (k_freelist r) (k_kpgtbl r) (k_procs r)
    (k_initproc r) (k_nextpid r) (k_ticks r) (k_first r) (k_bufs r) (k_log r) (k_sb r)
    (k_inodes r) (k_files r) (k_devsw r) (k_cons r) (k_uart r) (k_locking r) v
    (k_blocks r) (k_writes r) (k_vdisk r).
Definition k_set_blocks (v : gmap Z (list Z)) (r : kstate) : kstate :=
  mkK (k_csr r) (k_cpus r) (k_locks r) (k_mem r) (k_freelist r) (k_kpgtbl r) (k_procs r)
    (k_initproc r) (k_nextpid r) (k_ticks r) (k_first r) (k_bufs r) (k_log r) (k_sb r)
    (k_inodes r) (k_files r) (k_devsw r) (k_cons r) (k_uart r) (k_locking r)
    (k_panicked r) v (k_writes r) (k_vdisk r).
Definition k_set_writes (v : list (Z * list Z)) (r : kstate) : kstate :=
  mkK (k_csr r) (k_cpus r) (k_locks r) (k_mem r) (k_freelist r) (k_kpgtbl r) (k_procs r)
    (k_initproc r) (k_nextpid r) (k_ticks r) (k_first r) (k_bufs r) (k_log r) (k_sb r)
    (k_inodes r) (k_files r) (k_devsw r) (k_cons r) (k_uart r) (k_locking r)
    (k_panicked r) (k_blocks r) v (k_vdisk r).
Definition k_set_vdisk (v : vdisk) (r : kstate) : kstate :=
  mkK (k_csr r) (k_cpus r) (k_locks r) (k_mem r) (k_freelist r) (k_kpgtbl r) (k_procs r)
    (k_initproc r) (k_nextpid r) (k_ticks r) (k_first r) (k_bufs r) (k_log r) (k_sb r)
    (k_inodes r) (k_files r) (k_devsw r) (k_cons r) (k_uart r) (k_locking r)
    (k_panicked r) (k_blocks r) (k_writes r) v.

#[export] Instance cpu_inhabited : Inhabited cpu := populate (mkCpu None (mkContext 0 0 []) 0 0).
#[export] Instance vm_area_inhabited : Inhabited vm_area := populate vma_zero.
#[export] Instance proc_inhabited : Inhabited proc := populate
  (mkProc UNUSED CH_null 0 0 0 None 0 0 0 0 [] 0 (mkContext 0 0 []) [] None []).
#[export] Instance sleeplock_inhabited : Inhabited sleeplock := populate (mkSl 0 0).
#[export] Instance buf_inhabited : Inhabited buf := populate
  (mkBuf 0 0 0 0 (mkSl 0 0) 0 0 0 []).
#[export] Instance inode_inhabited : Inhabited inode := populate
  (mkInode 0 0 0 (mkSl 0 0) 0 0 0 0 0 0 []).
#[export] Instance vdesc_inhabited : Inhabited vdesc := populate (mkDesc DA_null 0 0 0).
#[export] Instance file_inhabited : Inhabited file := populate
  (mkFile FD_NONE 0 0 0 0 None 0 0).

(** The kernel's memory when main() starts on hart 0: .bss is zero, and the
    initialised variables have their values (nextpid and forkret()'s first
    are 1). [m] is what RAM and the disk image hold. *)
Definition boot_state (m : Z -> Z) (disk : gmap Z (list Z)) : kstate :=
  mkK (mkCsrs 0 0 0 0 0 0 0 0 0)
    (replicate NCPU (mkCpu None (mkContext 0 0 []) 0 0)) ∅ m 0 0
    (replicate NPROC (mkProc UNUSED CH_null 0 0 0 None 0 0 0 0 (replicate NVMA vma_zero) 0
       (mkContext 0 0 (replicate 12 0)) (replicate NOFILE None) None (replicate 16 0)))
    None 1 0 1
    (replicate (S NBUF) (mkBuf 0 0 0 0 (mkSl 0 0) 0 0 0 (replicate 1024 0)))
    (mkLog 0 0 0 0 0 0 (replicate (Z.to_nat LOGSIZE) 0)) (mkSb 0 0 0 0 0 0 0 0)
    (replicate NINODE (mkInode 0 0 0 (mkSl 0 0) 0 0 0 0 0 0 (replicate 13 0)))
    (replicate NFILE (mkFile FD_NONE 0 0 0 0 None 0 0))
    (replicate (Z.to_nat NDEV) (None, None)) (mkCons (replicate 128 0) 0 0 0)
    (mkUart (replicate 32 0) 0 0 [] 0 []) 0 0 disk []
    (mkVdisk (replicate 8 (mkDesc DA_null 0 0 0)) 0 (replicate 8 0) 0 (replicate 8 0)
       (replicate 8 0) 0 (replicate 8 None) (replicate 8 0) (replicate 8 (0, 0, 0)) None 0).

(** The disk as the writes leave it. *)
Definition replay (ws : list (Z * list Z)) (d : gmap Z (list Z)) : gmap Z (list Z) :=
  foldr (fun w d => <[w.1 := w.2]> d) d ws.

Definition disk (s : kstate) : gmap Z (list Z) := replay (k_writes s) (k_blocks s).

(** Kernel computations. *)
Abbreviation K := (M kstate).

(** A load or store through the null pointer: the hart faults in supervisor
    mode and kerneltrap() panics. *)
Definition null_deref {A} : K A := panic "kerneltrap".

(** An access outside an array, which C leaves undefined: the model stops. *)
Definition undefined {A} : K A := panic "undefined".

Definition deref {A} (p : option A) : K A :=
  match p with Some x => ret x | None => null_deref end.

Definition proc_at (i : nat) : K proc := gets (fun s => k_procs s !!! i).
Definition upd_proc (i : nat) (f : proc -> proc) : K unit :=
  modify (fun s => k_set_procs (alter f i (k_procs s)) s).

#[global] Open Scope xv6_scope.
