(* ===== verification/Spinlock.v ===== *)
(** spinlock.c, and cpuid(), mycpu() and myproc() of proc.c.

    The monadic operations are what one hart executes. Their exact effect is
    given by [pushed] and [locked]: from a [settled] state (what every
    balanced sequence of push_off()/pop_off() leaves) an acquire followed by
    a release restores the state, nested or not. The interleaving of several
    harts spinning on one lock is the step relation of [Module Harts] at the
    end, with mutual exclusion and exactness of holding(). *)

From S2P Require Import Prelude Riscv State.

(** ** riscv.h: interrupt enable *)

Definition intr_on : K unit :=
  modify (fun s => k_set_csr (r_set_sstatus (Z.lor (r_sstatus (k_csr s)) SSTATUS_SIE) (k_csr s)) s).

Definition intr_off : K unit :=
  modify (fun s => k_set_csr
    (r_set_sstatus (Z.land (r_sstatus (k_csr s)) (Z.lnot SSTATUS_SIE)) (k_csr s)) s).

Definition intr (s : kstate) : bool := bit_set (r_sstatus (k_csr s)) SSTATUS_SIE.
Definition intr_get : K Z := gets (fun s => Z.b2z (intr s)).

(** ** proc.c: the current cpu *)

Definition cpu_ix (s : kstate) : nat := Z.to_nat (s32 (r_tp (k_csr s))).
Definition this_cpu (s : kstate) : cpu := k_cpus s !!! cpu_ix s.

Definition cpuid : K Z := gets (fun s => s32 (r_tp (k_csr s))).
Definition mycpu : K cpu := gets this_cpu.
Definition upd_mycpu (f : cpu -> cpu) : K unit :=
  modify (fun s => k_set_cpus (alter f (cpu_ix s) (k_cpus s)) s).

(** ** push_off, pop_off *)

Definition push_off : K unit :=
  old <- intr_get;;
  intr_off;;
  c <- mycpu;;
  (when c_noff c =? 0 do upd_mycpu (c_set_intena old));;
  upd_mycpu (fun c => c_set_noff (s32 (c_noff c + 1)) c).

Definition pop_off : K unit :=
  i <- intr_get;;
  if c_true i then panic "pop_off - interruptible" else
  c <- mycpu;;
  if c_noff c <? 1 then panic "pop_off" else
  upd_mycpu (fun c => c_set_noff (s32 (c_noff c - 1)) c);;
  c <- mycpu;;
  when (c_noff c =? 0) && c_true (c_intena c) do intr_on.

Definition myproc : K (option nat) :=
  push_off;;
  c <- mycpu;;
  pop_off;;
  ret (c_proc c).

(** ** acquire, release, holding *)

(** An entry of [k_locks] is [locked == 1] with the hart in [cpu]. *)
Definition initlock (lk : lockid) : K unit :=
  modify (fun s => k_set_locks (delete lk (k_locks s)) s).

Definition holding (lk : lockid) : K bool :=
  gets (fun s => bool_decide (k_locks s !! lk = Some (s32 (r_tp (k_csr s))))).

(** The swap succeeds at once when [locked] is 0; when another hart holds the
    lock this hart spins. *)
Definition acquire (lk : lockid) : K unit :=
  push_off;;
  h <- holding lk;;
  if (h : bool) then panic "acquire" else
  l <- gets (fun s => k_locks s !! lk);;
  match l with
  | Some _ => diverge
  | None => modify (fun s => k_set_locks (<[lk := s32 (r_tp (k_csr s))]> (k_locks s)) s)
  end.

Definition release (lk : lockid) : K unit :=
  h <- holding lk;;
  if negb h then panic "release" else
  modify (fun s => k_set_locks (delete lk (k_locks s)) s);;
  pop_off.

(** ** Exact effects *)

Definition settled (s : kstate) : Prop :=
  0 <= s32 (r_tp (k_csr s)) < Z.of_nat (length (k_cpus s)) /\
  0 <= c_noff (this_cpu s) < 2 ^ 30 /\
  (if c_noff (this_cpu s) =? 0 then c_intena (this_cpu s) = Z.b2z (intr s)
   else intr s = false).

Definition pushed (s : kstate) : kstate :=
  k_set_cpus (alter (fun c => c_set_noff (s32 (c_noff c + 1)) c) (cpu_ix s)
    (if c_noff (this_cpu s) =? 0
     then alter (c_set_intena (Z.b2z (intr s))) (cpu_ix s) (k_cpus s) else k_cpus s))
  (k_set_csr (r_set_sstatus (Z.land (r_sstatus (k_csr s)) (Z.lnot SSTATUS_SIE)) (k_csr s)) s).

Definition locked (lk : lockid) (s : kstate) : kstate :=
  k_set_locks (<[lk := s32 (r_tp (k_csr s))]> (k_locks s)) (pushed s).

Definition lock_free (lk : lockid) (s : kstate) : Prop := k_locks s !! lk = None.

Lemma push_off_eq s : push_off s = Ok tt (pushed s).
Proof.
  unfold push_off, bind, intr_get, intr_off, mycpu, upd_mycpu, gets, modify, pushed. cbn.
  change (this_cpu _) with (this_cpu s). by destruct (c_noff (this_cpu s) =? 0).
Qed.

Definition depth (s : kstate) : Z := c_noff (this_cpu s).

Lemma clear_bit_off x k : 0 <= k -> Z.testbit x k = false -> Z.land x (Z.lnot (2 ^ k)) = x.
Proof.
  intros Hk H. apply Z.bits_inj'. intros n Hn.
  rewrite Z.land_spec, Z.lnot_spec, Z.pow2_bits_eqb by lia.
  destruct (Z.eqb_spec k n) as [<-|]; [by rewrite H | cbn; apply andb_true_r].
Qed.

Lemma clear_set_bit x k :
  0 <= k -> Z.testbit x k = true -> Z.lor (Z.land x (Z.lnot (2 ^ k))) (2 ^ k) = x.
Proof.
  intros Hk H. apply Z.bits_inj'. intros n Hn.
  rewrite Z.lor_spec, Z.land_spec, Z.lnot_spec, Z.pow2_bits_eqb by lia.
  destruct (Z.eqb_spec k n) as [<-|]; cbn.
  - by rewrite orb_true_r, H.
  - by rewrite orb_false_r, andb_true_r.
Qed.

Lemma clear_bit_testbit x k : 0 <= k -> Z.testbit (Z.land x (Z.lnot (2 ^ k))) k = false.
Proof. intros. by rewrite Z.land_spec, Z.lnot_spec, Z.pow2_bits_true, andb_false_r by lia. Qed.

Lemma intr_testbit s : intr s = Z.testbit (r_sstatus (k_csr s)) 1.
Proof. apply (bit_set_testbit _ 1). lia. Qed.

Lemma settled_ix s : settled s -> (cpu_ix s < length (k_cpus s))%nat.
Proof. intros (? & _). unfold cpu_ix. lia. Qed.

Lemma this_cpu_lookup s : settled s -> k_cpus s !! cpu_ix s = Some (this_cpu s).
Proof. intros H%settled_ix. by apply list_lookup_lookup_total_lt. Qed.

Lemma cpu_ix_pushed s : cpu_ix (pushed s) = cpu_ix s.
Proof. done. Qed.

Lemma intr_pushed s : intr (pushed s) = false.
Proof. rewrite intr_testbit. cbn. by apply (clear_bit_testbit _ 1). Qed.

Lemma this_cpu_pushed s : settled s ->
  this_cpu (pushed s) =
    c_set_noff (s32 (c_noff (this_cpu s) + 1))
      (if c_noff (this_cpu s) =? 0 then c_set_intena (Z.b2z (intr s)) (this_cpu s)
       else this_cpu s).
Proof.
  intros H. pose proof (this_cpu_lookup s H) as Hl. unfold this_cpu at 1.
  rewrite cpu_ix_pushed. apply list_lookup_total_correct. cbn.
  rewrite list_lookup_alter_eq. destruct (_ =? 0).
  - by rewrite list_lookup_alter_eq, Hl.
  - by rewrite Hl.
Qed.

Lemma depth_pushed s : settled s -> depth (pushed s) = depth s + 1.
Proof.
  intros H. unfold depth. rewrite this_cpu_pushed by done.
  destruct H as (_ & Hn & _). cbn. rewrite s32_small by lia. done.
Qed.

Lemma settled_pushed s : settled s -> depth s + 1 < 2 ^ 30 -> settled (pushed s).
Proof.
  intros H Hd. pose proof (depth_pushed s H) as Hdp. unfold depth in *.
  pose proof H as (Ht & Hn & _). split; [|split].
  - cbn. rewrite length_alter. destruct (_ =? 0); [by rewrite length_alter|done].
  - lia.
  - rewrite Hdp. rewrite (proj2 (Z.eqb_neq _ _)) by lia. apply intr_pushed.
Qed.

Lemma noff_restore c : 0 <= c_noff c < 2 ^ 30 ->
  c_set_noff (s32 (c_noff (c_set_noff (s32 (c_noff c + 1)) c) - 1))
    (c_set_noff (s32 (c_noff c + 1)) c) = c.
Proof.
  intros H. unfold c_set_noff. cbn. rewrite (s32_small (_ + 1)) by lia.
  rewrite Z.add_simpl_r, s32_small by lia. done.
Qed.

Lemma pop_pushed s : settled s -> pop_off (pushed s) = Ok tt s.
Proof.
  intros H. pose proof (this_cpu_lookup s H) as Hl. pose proof (this_cpu_pushed s H) as Hc.
  destruct H as (Ht & Hn & Hi).
  unfold pop_off, bind, intr_get, mycpu, gets. cbn [rbind]. rewrite intr_pushed. cbn [Z.b2z c_true].
  cbn [rbind]. change (c_true 0) with false. cbn [rbind]. rewrite Hc. cbn [c_noff c_set_noff].
  rewrite s32_small by lia.
  rewrite (proj2 (Z.ltb_ge _ _)) by (destruct (_ =? 0); cbn; lia).
  unfold upd_mycpu, modify. cbn [rbind].
  set (s1 := k_set_cpus _ (pushed s)).
  assert (Hs1 : s1 = k_set_cpus (k_cpus s) (pushed s)).
  { unfold s1. f_equal. rewrite cpu_ix_pushed. apply list_eq. intros i.
    destruct (decide (i = cpu_ix s)) as [->|Hne].
    - rewrite list_lookup_alter_eq. cbn. rewrite list_lookup_alter_eq.
      destruct (Z.eqb_spec (c_noff (this_cpu s)) 0) as [E|E].
      + rewrite list_lookup_alter_eq, Hl. cbn. f_equal. rewrite <- Hi.
        change (c_set_intena (c_intena (this_cpu s)) (this_cpu s)) with (this_cpu s).
        apply noff_restore. done.
      + rewrite Hl. cbn. f_equal. apply noff_restore. done.
    - rewrite list_lookup_alter_ne by done. cbn. rewrite list_lookup_alter_ne by done.
      destruct (_ =? 0); [by rewrite list_lookup_alter_ne | done]. }
  rewrite Hs1. change (this_cpu (k_set_cpus (k_cpus s) (pushed s))) with (this_cpu s).
  destruct (Z.eqb_spec (c_noff (this_cpu s)) 0) as [E|E]; cbn [andb].
  - rewrite Hi. rewrite intr_testbit. destruct (Z.testbit _ 1) eqn:Hb; cbn.
    + unfold intr_on, modify. do 2 f_equal. unfold k_set_csr, pushed. cbn.
      unfold r_set_sstatus. cbn. rewrite (clear_set_bit _ 1) by (lia || done). done.
    + unfold ret. f_equal. unfold pushed, k_set_cpus, k_set_csr, r_set_sstatus. cbn.
      rewrite (clear_bit_off _ 1) by (lia || done). done.
  - rewrite intr_testbit in Hi. unfold ret. f_equal.
    unfold pushed, k_set_cpus, k_set_csr, r_set_sstatus. cbn.
    rewrite (clear_bit_off _ 1) by (lia || done). done.
Qed.

Lemma acquire_eq lk s : lock_free lk s -> acquire lk s = Ok tt (locked lk s).
Proof.
  intros Hf. unfold acquire. rewrite (bind_ok _ _ _ _ _ (push_off_eq s)).
  unfold bind, holding, gets. cbn [rbind].
  change (k_locks (pushed s)) with (k_locks s). unfold lock_free in Hf.
  rewrite bool_decide_eq_false_2 by (cbn; congruence). cbn. by rewrite Hf.
Qed.

Lemma acquire_held lk s :
  k_locks s !! lk = Some (s32 (r_tp (k_csr s))) -> acquire lk s = Panic "acquire" (pushed s).
Proof.
  intros Hf. unfold acquire. rewrite (bind_ok _ _ _ _ _ (push_off_eq s)).
  unfold bind, holding, gets. cbn [rbind].
  change (k_locks (pushed s)) with (k_locks s).
  change (r_tp (k_csr (pushed s))) with (r_tp (k_csr s)).
  by rewrite bool_decide_eq_true_2.
Qed.

Lemma release_locked lk s : settled s -> lock_free lk s -> release lk (locked lk s) = Ok tt s.
Proof.
  intros Hs Hf. unfold release, bind, holding, gets, modify. cbn [rbind].
  rewrite bool_decide_eq_true_2 by (cbn; by rewrite lookup_insert_eq). cbn [negb rbind].
  assert (k_set_locks (delete lk (k_locks (locked lk s))) (locked lk s) = pushed s) as ->.
  { cbn. unfold lock_free in Hf. by rewrite delete_insert_id. }
  by apply pop_pushed.
Qed.

Lemma release_not_held lk s :
  k_locks s !! lk <> Some (s32 (r_tp (k_csr s))) -> release lk s = Panic "release" s.
Proof.
  intros H. unfold release, bind, holding, gets. cbn [rbind].
  by rewrite bool_decide_eq_false_2.
Qed.

Lemma settled_locked lk s : settled s -> depth s + 1 < 2 ^ 30 -> settled (locked lk s).
Proof. apply settled_pushed. Qed.

Lemma depth_locked lk s : settled s -> depth (locked lk s) = depth s + 1.
Proof. apply depth_pushed. Qed.

Lemma lock_free_locked lk lk' s : lk <> lk' -> lock_free lk s -> lock_free lk (locked lk' s).
Proof. intros. unfold lock_free. cbn. by rewrite lookup_insert_ne. Qed.

Definition cur_proc (s : kstate) : option nat := c_proc (this_cpu s).

Lemma cur_proc_pushed s : settled s -> cur_proc (pushed s) = cur_proc s.
Proof. intros H. unfold cur_proc. rewrite this_cpu_pushed by done. by destruct (_ =? 0). Qed.

Lemma cur_proc_locked lk s : settled s -> cur_proc (locked lk s) = cur_proc s.
Proof. apply cur_proc_pushed. Qed.

Lemma myproc_eq s : settled s -> myproc s = Ok (cur_proc s) s.
Proof.
  intros H. unfold myproc. rewrite (bind_ok _ _ _ _ _ (push_off_eq s)).
  unfold bind at 1, mycpu, gets. cbn [rbind].
  rewrite (bind_ok _ _ _ _ _ (pop_pushed s H)). unfold ret. f_equal.
  apply (cur_proc_pushed s H).
Qed.

#[export] Hint Resolve acquire_eq release_locked settled_locked lock_free_locked : xv6.

(** The end of a critical section of [lk]: the goal is about release() in the
    state with the lock held. *)
Ltac leave lk :=
  match goal with
  | |- release _ ?s1 = Ok tt ?s2 =>
      let s3 := fresh "s" in set (s3 := s2); change s1 with (locked lk s3); apply release_locked
  end.

Lemma iter_pop_last n s s' s'' :
  Nat.iter n (fun m => pop_off;; m) (ret tt) s = Ok tt s' -> pop_off s' = Ok tt s'' ->
  Nat.iter (S n) (fun m => pop_off;; m) (ret tt) s = Ok tt s''.
Proof.
  revert s. induction n as [|n IH]; intros s; cbn [Nat.iter nat_rect].
  - intros [= ->] E. by mrun E.
  - intros ([] & s1 & E & H)%bind_ok_inv E'. rewrite (bind_ok _ _ _ _ _ E). by apply IH.
Qed.

Lemma push_pop_iter (n : nat) s :
  settled s -> depth s + Z.of_nat n < 2 ^ 30 ->
  exists s', Nat.iter n (fun m => push_off;; m) (ret tt) s = Ok tt s' /\
    settled s' /\ depth s' = depth s + Z.of_nat n /\ ((0 < n)%nat -> intr s' = false) /\
    Nat.iter n (fun m => pop_off;; m) (ret tt) s' = Ok tt s.
Proof.
  revert s. induction n as [|n IH]; intros s Hs Hd; [exists s; split_and!; (done || lia)|].
  destruct (IH (pushed s)) as (s' & E & Hs' & Hd' & Hi & Hp).
  - apply settled_pushed; [done|lia].
  - rewrite depth_pushed by done. lia.
  - exists s'. rewrite depth_pushed in Hd' by done. split; [|split; [done|split; [lia|split]]].
    + cbn [Nat.iter nat_rect]. by mrun (push_off_eq s).
    + intros _. destruct n; [|apply Hi; lia]. cbn in E. injection E as <-. apply intr_pushed.
    + exact (iter_pop_last _ _ _ _ Hp (pop_pushed s Hs)).
Qed.

(** ** Several harts and one lock

    The same two functions cut at every access to the shared words
    [lk->locked] and [lk->cpu]. Interrupts of the executing hart are off
    throughout, so a hart's own steps are only interleaved with those of
    other harts. *)
Module Harts.

(** Where a hart is inside acquire() or release(). *)
Inductive pc : Type :=
| Outside
| AcqHolding1     (* acquire: about to read lk->locked in holding() *)
| AcqHolding2     (* locked was set; about to compare lk->cpu *)
| AcqSpin         (* at the test-and-set loop *)
| AcqRecord       (* swapped in 1; about to store lk->cpu *)
| Critical
| RelHolding1     (* release: about to read lk->locked in holding() *)
| RelHolding2
| RelClearCpu     (* about to store lk->cpu = 0 *)
| RelUnlock       (* about to store lk->locked = 0 *)
| Panicked.

Record lockstate := mkLockstate { lk_locked : bool; lk_cpu : option nat; pcs : nat -> pc }.

Definition goto (h : nat) (p : pc) (st : lockstate) : nat -> pc :=
  fun i => if decide (i = h) then p else pcs st i.

Inductive step (h : nat) (st : lockstate) : lockstate -> Prop :=
| StAcquire : pcs st h = Outside ->
    step h st (mkLockstate (lk_locked st) (lk_cpu st) (goto h AcqHolding1 st))
| StAcqHolding1 : pcs st h = AcqHolding1 ->
    step h st (mkLockstate (lk_locked st) (lk_cpu st)
      (goto h (if lk_locked st then AcqHolding2 else AcqSpin) st))
| StAcqHolding2 : pcs st h = AcqHolding2 ->
    step h st (mkLockstate (lk_locked st) (lk_cpu st)
      (goto h (if decide (lk_cpu st = Some h) then Panicked else AcqSpin) st))
| StSwap : pcs st h = AcqSpin ->
    step h st (mkLockstate true (lk_cpu st)
      (goto h (if lk_locked st then AcqSpin else AcqRecord) st))
| StRecord : pcs st h = AcqRecord ->
    step h st (mkLockstate (lk_locked st) (Some h) (goto h Critical st))
| StRelease : pcs st h = Critical ->
    step h st (mkLockstate (lk_locked st) (lk_cpu st) (goto h RelHolding1 st))
| StRelHolding1 : pcs st h = RelHolding1 ->
    step h st (mkLockstate (lk_locked st) (lk_cpu st)
      (goto h (if lk_locked st then RelHolding2 else Panicked) st))
| StRelHolding2 : pcs st h = RelHolding2 ->
    step h st (mkLockstate (lk_locked st) (lk_cpu st)
      (goto h (if decide (lk_cpu st = Some h) then RelClearCpu else Panicked) st))
| StClearCpu : pcs st h = RelClearCpu ->
    step h st (mkLockstate (lk_locked st) None (goto h RelUnlock st))
| StUnlock : pcs st h = RelUnlock ->
    step h st (mkLockstate false (lk_cpu st) (goto h Outside st)).

Definition init : lockstate := mkLockstate false None (fun _ => Outside).

Inductive reachable : lockstate -> Prop :=
| ReachInit : reachable init
| ReachStep h st st' : reachable st -> step h st st' -> reachable st'.

(** The program points at which a hart owns the lock, and those at which its
    ownership is recorded in [lk->cpu]. *)
Definition owns (p : pc) : bool :=
  match p with
  | AcqRecord | Critical | RelHolding1 | RelHolding2 | RelClearCpu | RelUnlock => true
  | _ => false
  end.
Definition recorded (p : pc) : bool :=
  match p with Critical | RelHolding1 | RelHolding2 | RelClearCpu => true | _ => false end.

Record inv (st : lockstate) (o : option nat) : Prop := {
  inv_locked : lk_locked st = bool_decide (is_Some o);
  inv_owner : forall h, owns (pcs st h) = true <-> o = Some h;
  inv_cpu : forall h, lk_cpu st = Some h <-> recorded (pcs st h) = true;
  inv_no_panic : forall h, pcs st h <> Panicked
}.

Lemma inv_init : inv init None.
Proof. split; cbn; intros; try done. Qed.

(** A step of hart [h] keeps the invariant when it is right about [h] and
    leaves what concerns the other harts alone. *)
Lemma inv_move h p l c o o' st :
  inv st o -> p <> Panicked -> l = bool_decide (is_Some o') ->
  (owns p = true <-> o' = Some h) -> (c = Some h <-> recorded p = true) ->
  (forall i, i <> h -> (o = Some i <-> o' = Some i)) ->
  (forall i, i <> h -> (lk_cpu st = Some i <-> c = Some i)) ->
  inv (mkLockstate l c (goto h p st)) o'.
Proof.
  intros [Hl Ho Hc Hp] Hnp Hl' Hown Hrec Hoo Hcc. split; cbn; unfold goto; [done|..];
    intros i; destruct (decide (i = h)) as [->|Hne]; try done.
  - rewrite Ho. by apply Hoo.
  - rewrite <- Hcc by done. apply Hc.
Qed.

Lemma inv_preserved h st st' o : inv st o -> step h st st' -> exists o', inv st' o'.
Proof.
  intros Hi Hs. pose proof Hi as [Hl Ho Hc _]. specialize (Ho h). specialize (Hc h).
  destruct Hs as [E|E|E|E|E|E|E|E|E|E]; rewrite E in Ho, Hc; cbn in Ho, Hc.
  - exists o. eapply inv_move; eauto; cbn; naive_solver.
  - exists o. eapply inv_move; eauto; destruct (lk_locked st); cbn; naive_solver.
  - exists o. rewrite decide_False by naive_solver.
    eapply inv_move; eauto; cbn; naive_solver.
  - destruct (lk_locked st) eqn:L.
    + exists o. eapply inv_move; eauto; cbn; naive_solver.
    + symmetry in Hl. apply bool_decide_eq_false in Hl.
      assert (o = None) as -> by (destruct o; [by destruct Hl|done]).
      exists (Some h). eapply inv_move; eauto; cbn; naive_solver.
  - exists o. assert (o = Some h) as -> by naive_solver.
    eapply inv_move; eauto; cbn; try naive_solver.
    intros i Hne. split; [|congruence]. intros Hci. exfalso.
    destruct Hi as [_ Ho' Hc' _]. specialize (Ho' i). specialize (Hc' i).
    destruct (pcs st i); cbn in *; naive_solver.
  - exists o. eapply inv_move; eauto; cbn; naive_solver.
  - exists o. assert (o = Some h) as -> by naive_solver. rewrite Hl.
    rewrite bool_decide_eq_true_2 by eauto.
    eapply inv_move; eauto; cbn; naive_solver.
  - exists o. rewrite decide_True by naive_solver.
    eapply inv_move; eauto; cbn; naive_solver.
  - exists o. eapply inv_move; eauto; cbn; naive_solver.
  - exists None. eapply inv_move; eauto; cbn; try naive_solver.
Qed.

Lemma harts_inv st : reachable st -> exists o, inv st o.
Proof.
  induction 1 as [|h st st' _ [o IH] Hs]; [exists None; apply inv_init|].
  by eapply inv_preserved.
Qed.

(** C7: however any number of harts interleave their accesses to a spin-lock's
    two words, at most one of them is between the successful swap of acquire()
    and the store of release() that frees it; and no hart ever panics in
    acquire() ("acquire", lock already held) or release() ("release", lock not
    held by this hart) when it only releases what it acquired. *)
Theorem mutual_exclusion st :
  reachable st ->
  (forall h1 h2, owns (pcs st h1) = true -> owns (pcs st h2) = true -> h1 = h2) /\
  (forall h, pcs st h <> Panicked).
Proof.
  intros [o [_ Ho _ Hp]]%harts_inv. split; [|done].
  intros h1 h2 H1%Ho H2%Ho. congruence.
Qed.

Lemma mutual_exclusion_witness : exists st,
  reachable st /\ pcs st 0%nat = Critical /\ pcs st 1%nat = AcqSpin /\
  (forall h1 h2, owns (pcs st h1) = true -> owns (pcs st h2) = true -> h1 = h2) /\
  (forall h, pcs st h <> Panicked).
Proof.
  pose proof ReachInit as H.
  eapply ReachStep in H; [|apply (StAcquire 0); reflexivity].
  eapply ReachStep in H; [|apply (StAcqHolding1 0); reflexivity].
  eapply ReachStep in H; [|apply (StSwap 0); reflexivity].
  eapply ReachStep in H; [|apply (StRecord 0); reflexivity].
  eapply ReachStep in H; [|apply (StAcquire 1); reflexivity].
  eapply ReachStep in H; [|apply (StAcqHolding1 1); reflexivity].
  eapply ReachStep in H; [|apply (StAcqHolding2 1); reflexivity].
  eexists. exact (conj H (conj eq_refl (conj eq_refl (mutual_exclusion _ H)))).
Defined.

End Harts.

(** push_off() and pop_off() nest. From a state whose push_off() count is
    consistent, [n] calls of push_off() leave interrupts off and the count [n]
    higher, and [n] calls of pop_off() after them give back the very same state,
    interrupt enable bit included. *)
Theorem push_pop_nest (n : nat) s :
  settled s -> depth s + Z.of_nat n < 2 ^ 30 ->
  exists s', Nat.iter n (fun m => push_off;; m) (ret tt) s = Ok tt s' /\
    settled s' /\ depth s' = depth s + Z.of_nat n /\ ((0 < n)%nat -> intr s' = false) /\
    Nat.iter n (fun m => pop_off;; m) (ret tt) s' = Ok tt s.
Proof. apply push_pop_iter. Qed.

Lemma push_pop_nest_witness :
  exists s', Nat.iter 3 (fun m => push_off;; m) (ret tt) (boot_state (fun _ => 0) ∅) = Ok tt s' /\
    settled s' /\ depth s' = 3 /\ (0 < 3 -> intr s' = false)%nat /\
    Nat.iter 3 (fun m => pop_off;; m) (ret tt) s' = Ok tt (boot_state (fun _ => 0) ∅).
Proof. apply (push_pop_nest 3 (boot_state (fun _ => 0) ∅)); vm_compute; intuition congruence. Defined.
