(* ===== verification/Kalloc.v ===== *)
(** kalloc.c: the physical page allocator. A free page's first eight bytes
    hold the pointer to the next free page; [freelist_rep] reads that list
    back from memory. The specification of the component is a set of free
    pages: [kfree] adds its page to it, [kalloc] hands out a page of it, and a
    page is never both free and handed out ([Trace.inv]). *)

From S2P Require Import Prelude Riscv State Spinlock.

(** Symbols that kernel.ld and the assembly files define, with what kernel.ld
    guarantees about them: the trampoline page is the last page of the text. *)
Class Linker := {
  kend : Z;           (* end: first address after the kernel *)
  etext : Z;          (* end of kernel text *)
  kernelvec : Z;      (* kernelvec.S *)
  uservec : Z;        (* trampoline.S *)
  userret : Z;        (* trampoline.S *)
  usertrap_addr : Z;  (* address of usertrap() *)
  forkret_addr : Z;   (* address of forkret() *)
  linker_etext : KERNBASE + PGSIZE <= etext /\ etext mod PGSIZE = 0;
  linker_end : etext <= kend <= PHYSTOP
}.

Definition trampoline `{Linker} : Z := etext - PGSIZE.

(** ** memset and memmove on physical memory

    The range forms of string.c's loops, see [StringC.memset_loop_spec] and
    [StringC.memmove_spec]. *)
Definition memset (dst c n : Z) : K unit :=
  modify (fun s => k_set_mem (mem_set (k_mem s) dst c n) s).
Definition memmove (dst src n : Z) : K unit :=
  modify (fun s => k_set_mem (mem_copy (k_mem s) dst src n) s).
Definition kstore64 (a v : Z) : K unit := modify (fun s => k_set_mem (store64 (k_mem s) a v) s).
Definition kload64 (a : Z) : K Z := gets (fun s => load64 (k_mem s) a).

Section Kalloc.
Context `{L : Linker}.

Definition kfree (pa : Z) : K unit :=
  if negb (pa mod PGSIZE =? 0) || (pa <? kend) || (PHYSTOP <=? pa) then panic "kfree" else
  (* Fill with junk to catch dangling refs. *)
  memset pa 1 PGSIZE;;
  acquire LK_kmem;;
  fl <- gets k_freelist;;
  kstore64 pa fl;;
  modify (k_set_freelist pa);;
  release LK_kmem.

Definition kalloc : K Z :=
  acquire LK_kmem;;
  r <- gets k_freelist;;
  (when c_true r do
    nxt <- kload64 r;;
    modify (k_set_freelist nxt));;
  release LK_kmem;;
  (when c_true r do memset r 5 PGSIZE);;
  ret r.

(** The loop of freerange(); [n] bounds its iterations. *)
Fixpoint freerange_loop (n : nat) (p pa_end : Z) : K unit :=
  if p + PGSIZE <=? pa_end then
    match n with
    | O => diverge
    | S n => kfree p;; freerange_loop n (p + PGSIZE) pa_end
    end
  else ret tt.

Definition freerange (pa_start pa_end : Z) : K unit :=
  let p := PGROUNDUP pa_start in
  freerange_loop (Z.to_nat ((pa_end - p) / PGSIZE)) p pa_end.

Definition kinit : K unit :=
  initlock LK_kmem;;
  freerange kend PHYSTOP.

(** ** The free list *)

Definition page_ok (pa : Z) : Prop := pa mod PGSIZE = 0 /\ kend <= pa < PHYSTOP.

Fixpoint freelist_rep (m : mem) (p : Z) (l : list Z) : Prop :=
  match l with
  | [] => p = 0
  | x :: l => p = x /\ freelist_rep m (load64 m x) l
  end.

Record kmem_inv (s : kstate) (l : list Z) : Prop := {
  kmem_rep : freelist_rep (k_mem s) (k_freelist s) l;
  kmem_nodup : NoDup l;
  kmem_pages : Forall page_ok l;
  kmem_bytes : mem_ok (k_mem s)
}.

Lemma page_ok_nonzero pa : page_ok pa -> pa <> 0 /\ 0 <= pa /\ pa < 2 ^ 32.
Proof.
  intros [_ H]. pose proof linker_etext as [? _]. pose proof linker_end.
  unfold PHYSTOP, KERNBASE, PGSIZE in *. lia.
Qed.

(** Two distinct pages do not overlap. *)
Lemma pages_disjoint p q : p mod PGSIZE = 0 -> q mod PGSIZE = 0 -> p <> q ->
  p + PGSIZE <= q \/ q + PGSIZE <= p.
Proof. unfold PGSIZE. intros. Z.div_mod_to_equations. lia. Qed.

Lemma freelist_rep_frame m m' p l :
  (forall x a, x ∈ l -> x <= a < x + 8 -> m a = m' a) ->
  freelist_rep m p l -> freelist_rep m' p l.
Proof.
  revert p. induction l as [|x l IH]; intros p Hm; cbn; [done|].
  intros [-> H]. split; [done|].
  rewrite <- (load_ext 8 m m' x) by (intros; apply (Hm x); [left | cbn in *; lia]).
  apply IH; [|done]. intros y a Hy. apply Hm. by right.
Qed.

(** ** kfree *)

Definition kfree_state (pa : Z) (s : kstate) : kstate :=
  k_set_freelist pa (k_set_mem (store64 (mem_set (k_mem s) pa 1 PGSIZE) pa (k_freelist s)) s).

Lemma kfree_guard pa :
  negb (pa mod PGSIZE =? 0) || (pa <? kend) || (PHYSTOP <=? pa) = false <-> page_ok pa.
Proof. unfold page_ok. lia. Qed.

Lemma kfree_eq pa s :
  settled s -> lock_free LK_kmem s -> page_ok pa -> kfree pa s = Ok tt (kfree_state pa s).
Proof.
  intros Hs Hl Hp. unfold kfree, memset, kstore64. rewrite (proj2 (kfree_guard pa) Hp). mred.
  set (s1 := k_set_mem (mem_set (k_mem s) pa 1 PGSIZE) s).
  mrun (acquire_eq LK_kmem s1 Hl).
  exact (release_locked LK_kmem (kfree_state pa s) Hs Hl).
Qed.

Lemma kfree_bad pa s : ~ page_ok pa -> kfree pa s = Panic "kfree" s.
Proof.
  intros H. unfold kfree.
  destruct (negb (pa mod PGSIZE =? 0) || (pa <? kend) || (PHYSTOP <=? pa)) eqn:E; [done|].
  by apply kfree_guard in E.
Qed.

(** The page freed keeps its junk filling outside the link word. *)
Lemma kfree_state_out pa s a :
  a < pa \/ pa + PGSIZE <= a -> k_mem (kfree_state pa s) a = k_mem s a.
Proof.
  intros Ha. cbn. rewrite store_out by (unfold PGSIZE in *; lia).
  unfold mem_set. by rewrite (proj2 (in_range_false _ _ _)).
Qed.

Lemma kfree_inv pa s l :
  kmem_inv s l -> page_ok pa -> pa ∉ l -> kmem_inv (kfree_state pa s) (pa :: l).
Proof.
  intros [Hr Hn Hp Hb] Hpa Hnot. split.
  - cbn [freelist_rep]. split; [done|]. cbn [kfree_state k_mem k_set_freelist k_set_mem].
    rewrite load_store_same.
    assert (0 <= k_freelist s < 2 ^ 32) as Hfl.
    { destruct l as [|x l]; cbn in Hr; [lia|]. destruct Hr as [-> _].
      apply Forall_cons in Hp as [Hx _]. apply page_ok_nonzero in Hx. lia. }
    rewrite Z.mod_small by (cbn; lia). eapply freelist_rep_frame; [|exact Hr].
    intros x a Hx Ha. symmetry. apply kfree_state_out.
    rewrite Forall_forall in Hp. specialize (Hp x Hx) as [Hx1 _]. destruct Hpa as [Hpa1 _].
    destruct (pages_disjoint pa x) as [?|?]; try done; [by intros -> | unfold PGSIZE in *; lia ..].
  - by constructor.
  - by constructor.
  - cbn. auto with xv6.
Qed.

(** ** kalloc *)

Definition kalloc_state (pa : Z) (s : kstate) : kstate :=
  k_set_mem (mem_set (k_mem s) pa 5 PGSIZE) (k_set_freelist (load64 (k_mem s) pa) s).

Lemma kalloc_eq pa l s :
  settled s -> lock_free LK_kmem s -> kmem_inv s (pa :: l) ->
  kalloc s = Ok pa (kalloc_state pa s).
Proof.
  intros Hs Hl [[Hr _] _ Hp _]. apply Forall_cons in Hp as [Hp _].
  apply page_ok_nonzero in Hp as [Hp _].
  unfold kalloc, kload64, memset. mrun (acquire_eq LK_kmem s Hl).
  change (k_freelist (locked LK_kmem s)) with (k_freelist s).
  rewrite Hr. unfold c_true. rewrite (proj2 (Z.eqb_neq pa 0) Hp). cbn [negb]. mred.
  mrun (release_locked LK_kmem (k_set_freelist (load64 (k_mem s) pa) s) Hs Hl). done.
Qed.

Lemma kalloc_empty s :
  settled s -> lock_free LK_kmem s -> kmem_inv s [] -> kalloc s = Ok 0 s.
Proof.
  intros Hs Hl [Hr _ _ _]. cbn in Hr. unfold kalloc. mrun (acquire_eq LK_kmem s Hl).
  change (k_freelist (locked LK_kmem s)) with (k_freelist s).
  rewrite Hr. change (c_true 0) with false. cbv iota. mred.
  mrun (release_locked LK_kmem s Hs Hl). done.
Qed.

Lemma kalloc_state_out pa s a :
  a < pa \/ pa + PGSIZE <= a -> k_mem (kalloc_state pa s) a = k_mem s a.
Proof. intros Ha. cbn. unfold mem_set. by rewrite (proj2 (in_range_false _ _ _)). Qed.

Lemma kalloc_inv pa s l : kmem_inv s (pa :: l) -> kmem_inv (kalloc_state pa s) l.
Proof.
  intros [[Hr Hr'] Hn Hp Hb]. apply NoDup_cons in Hn as [Hn1 Hn2].
  apply Forall_cons in Hp as [Hp1 Hp2]. split; [|done|done|cbn; auto with xv6].
  cbn. eapply freelist_rep_frame; [|exact Hr'].
  intros x a Hx Ha. symmetry. apply (kalloc_state_out pa s).
  rewrite Forall_forall in Hp2. specialize (Hp2 x Hx) as [Hx1 _]. destruct Hp1 as [Hp1 _].
  destruct (pages_disjoint pa x) as [?|?]; try done; [by intros -> | unfold PGSIZE in *; lia ..].
Qed.

(** ** Frame: what the allocator may change *)

Definition mem_only (s s' : kstate) : Prop :=
  s' = k_set_freelist (k_freelist s') (k_set_mem (k_mem s') s).

Lemma mem_only_refl s : mem_only s s.
Proof. done. Qed.

Lemma mem_only_trans s1 s2 s3 : mem_only s1 s2 -> mem_only s2 s3 -> mem_only s1 s3.
Proof. unfold mem_only. intros H1 H2. rewrite H2 at 1. rewrite H1. done. Qed.

Lemma mem_only_settled s s' : mem_only s s' -> settled s -> settled s'.
Proof. unfold mem_only. intros ->. done. Qed.

Lemma mem_only_lock_free lk s s' : mem_only s s' -> lock_free lk s -> lock_free lk s'.
Proof. unfold mem_only. intros ->. done. Qed.

(** ** freerange and kinit *)

Lemma freerange_loop_ok n : forall p pa_end s l,
  settled s -> lock_free LK_kmem s -> kmem_inv s l ->
  p mod PGSIZE = 0 -> kend <= p -> pa_end <= PHYSTOP ->
  (forall x, x ∈ l -> x < p) -> (pa_end - p) / PGSIZE <= Z.of_nat n ->
  exists s' l', freerange_loop n p pa_end s = Ok tt s' /\ mem_only s s' /\ kmem_inv s' l' /\
    forall x, x ∈ l' <-> x ∈ l \/ (x mod PGSIZE = 0 /\ p <= x /\ x + PGSIZE <= pa_end).
Proof.
  unfold PGSIZE in *.
  induction n as [|n IH]; intros p pa_end s l Hs Hl Hi Hp Hk He Hx Hn; cbn [freerange_loop];
    unfold PGSIZE; destruct (Z.leb_spec (p + 4096) pa_end) as [Hle|Hgt].
  2, 4: exists s, l; split; [done|]; split; [done|]; split; [done|]; intros x;
    split; [tauto|]; intros [|(?&?&?)]; [done|lia].
  { exfalso. Z.div_mod_to_equations. lia. }
  assert (page_ok p) as Hpo by (split; [done|lia]).
  mrun (kfree_eq p s Hs Hl Hpo).
  destruct (IH (p + 4096) pa_end (kfree_state p s) (p :: l)) as (s' & l' & E & Hm & Hi' & Hin); try done.
  - apply kfree_inv; try done. intros Hin%Hx. lia.
  - Z.div_mod_to_equations. lia.
  - lia.
  - intros x [->|Hin]%elem_of_cons; [lia|]. apply Hx in Hin. lia.
  - replace (pa_end - (p + 4096)) with (pa_end - p + (-1) * 4096) by lia.
    rewrite Z.div_add by lia. lia.
  - exists s', l'. split; [done|]. split; [exact Hm|]. split; [done|].
    intros x. rewrite Hin, elem_of_cons. split.
    + intros [[->|?]|(?&?&?)]; [right; lia | by left | right; lia].
    + intros [?|(Hm1&?&?)]; [tauto|]. destruct (Z.eq_dec x p); [tauto|]. right.
      split; [done|]. split; [|done]. Z.div_mod_to_equations. lia.
Qed.

Lemma PGROUNDUP_kend : kend <= PGROUNDUP kend < kend + PGSIZE /\ PGROUNDUP kend mod PGSIZE = 0.
Proof.
  pose proof linker_etext. pose proof linker_end. unfold PHYSTOP, KERNBASE, PGSIZE in *.
  destruct (PGROUNDUP_range kend) as (? & ? & ?); unfold PGSIZE in *; lia.
Qed.

(** Every page between [end] and PHYSTOP. *)
Definition all_pages (x : Z) : Prop :=
  x mod PGSIZE = 0 /\ PGROUNDUP kend <= x /\ x + PGSIZE <= PHYSTOP.

Lemma all_pages_ok x : all_pages x -> page_ok x.
Proof. intros (? & ? & ?). pose proof PGROUNDUP_kend. unfold page_ok, PGSIZE in *. lia. Qed.

Lemma kinit_ok s :
  settled s -> lock_free LK_kmem s -> k_freelist s = 0 -> mem_ok (k_mem s) ->
  exists s' l, kinit s = Ok tt s' /\ mem_only s s' /\ kmem_inv s' l /\
    forall x, x ∈ l <-> all_pages x.
Proof.
  intros Hs Hl Hf Hm. unfold kinit, initlock. mred.
  assert (k_set_locks (delete LK_kmem (k_locks s)) s = s) as ->.
  { unfold lock_free in Hl. by rewrite delete_id. }
  pose proof PGROUNDUP_kend. unfold freerange.
  destruct (freerange_loop_ok (Z.to_nat ((PHYSTOP - PGROUNDUP kend) / PGSIZE))
              (PGROUNDUP kend) PHYSTOP s []) as (s' & l & ? & ? & ? & Hin); try done; try tauto.
  - split; [done|constructor|constructor|done].
  - by intros x ?%elem_of_nil.
  - generalize ((PHYSTOP - PGROUNDUP kend) / PGSIZE). lia.
  - exists s', l. split; [done|]. split; [done|]. split; [done|].
    intros x. rewrite Hin. unfold all_pages. set_solver.
Qed.

End Kalloc.

(** ** Every run of the allocator

    Clients call kalloc(), write to the pages they were given and free them
    with kfree(). *)
Module Trace.
Section Trace.
Context `{L : Linker}.

Inductive step : kstate * gset Z -> kstate * gset Z -> Prop :=
| StAlloc s O pa s' : kalloc s = Ok pa s' -> pa <> 0 -> step (s, O) (s', {[pa]} ∪ O)
| StFail s O s' : kalloc s = Ok 0 s' -> step (s, O) (s', O)
| StFree s O pa s' : pa ∈ O -> kfree pa s = Ok tt s' -> step (s, O) (s', O ∖ {[pa]})
| StWrite s (O : gset Z) m' : mem_ok m' ->
    (forall a, (forall pa, pa ∈ O -> a < pa \/ pa + PGSIZE <= a) -> m' a = k_mem s a) ->
    step (s, O) (k_set_mem m' s, O).

Inductive reachable (s0 : kstate) : kstate * gset Z -> Prop :=
| RInit s : kinit s0 = Ok tt s -> reachable s0 (s, ∅)
| RStep c c' : reachable s0 c -> step c c' -> reachable s0 c'.

Record inv (s : kstate) (O : gset Z) (l : list Z) : Prop := {
  inv_settled : settled s;
  inv_lock : lock_free LK_kmem s;
  inv_free : kmem_inv s l;
  inv_disjoint : forall x, x ∈ O -> x ∉ l;
  inv_all : forall x, x ∈ O \/ x ∈ l <-> all_pages x
}.

Lemma inv_alloc s O pa l : inv s O (pa :: l) -> inv (kalloc_state pa s) ({[pa]} ∪ O) l.
Proof.
  intros [Hs Hl Hf Hd Ha]. pose proof (kmem_nodup _ _ Hf) as [Hn _]%NoDup_cons. split; try done.
  - by apply kalloc_inv.
  - intros x [->%elem_of_singleton|Hx]%elem_of_union Hin; [done|]. apply (Hd x Hx). by right.
  - intros x. rewrite <- Ha. set_solver.
Qed.

Lemma inv_free_page s O pa l :
  inv s O l -> pa ∈ O -> inv (kfree_state pa s) (O ∖ {[pa]}) (pa :: l).
Proof.
  intros [Hs Hl Hf Hd Ha] Hpa. assert (page_ok pa) by (apply all_pages_ok, Ha; by left).
  split; try done.
  - apply kfree_inv; auto.
  - intros x [Hx Hne]%elem_of_difference [->|Hin]%elem_of_cons; [set_solver|]. by apply (Hd x).
  - intros x. rewrite <- Ha. destruct (decide (x = pa)); set_solver.
Qed.

Lemma inv_write s O l m' : inv s O l -> mem_ok m' ->
  (forall a, (forall pa, pa ∈ O -> a < pa \/ pa + PGSIZE <= a) -> m' a = k_mem s a) ->
  inv (k_set_mem m' s) O l.
Proof.
  intros [Hs Hl [Hr Hn Hp Hb] Hd Ha] Hm Hout. split; try done. split; try done. cbn.
  eapply freelist_rep_frame; [|exact Hr]. intros x a Hx Hax. symmetry. apply Hout.
  intros pa Hpa. assert (all_pages pa) as (H1 & _) by (apply Ha; by left).
  assert (all_pages x) as (H2 & _) by (apply Ha; by right).
  assert (pa <> x) as Hne by (intros ->; by apply (Hd x)).
  destruct (pages_disjoint pa x H1 H2 Hne); unfold PGSIZE in *; lia.
Qed.

Lemma kalloc_cases s O l : inv s O l ->
  (l = [] /\ kalloc s = Ok 0 s) \/
  (exists pa l', l = pa :: l' /\ kalloc s = Ok pa (kalloc_state pa s) /\ pa <> 0 /\ pa ∉ O).
Proof.
  intros [Hs Hl Hf Hd Ha]. destruct l as [|pa l].
  - left. split; [done|]. by apply kalloc_empty.
  - right. exists pa, l. split; [done|]. split; [by eapply kalloc_eq|].
    pose proof (kmem_pages _ _ Hf) as [Hp _]%Forall_cons. apply page_ok_nonzero in Hp as [? _].
    split; [done|]. intros Hin. apply (Hd pa Hin). by left.
Qed.

Lemma inv_step s O l c' : inv s O l -> step (s, O) c' -> exists l', inv c'.1 c'.2 l'.
Proof.
  intros Hi Hs. inversion Hs as [s1 O1 pa s' E Hnz|s1 O1 s' E|s1 O1 pa s' Hpa E|s1 O1 m' Hm Ho]; subst; cbn.
  - destruct (kalloc_cases s O l Hi) as [[-> E']|(pa' & l' & -> & E' & _)];
      rewrite E in E'; injection E' as -> ->; [done|]. exists l'. by apply inv_alloc.
  - destruct (kalloc_cases s O l Hi) as [[-> E']|(pa' & l' & -> & E' & Hn & _)];
      rewrite E in E'; injection E' as ?; subst; [by exists [] | done].
  - exists (pa :: l). destruct Hi as [Hs' Hl Hf Hd Ha] eqn:HI.
    rewrite kfree_eq in E; [injection E as <-|done|done|apply all_pages_ok, Ha; by left].
    by apply inv_free_page.
  - exists l. by apply inv_write.
Qed.

Lemma reachable_inv s0 c :
  settled s0 -> lock_free LK_kmem s0 -> k_freelist s0 = 0 -> mem_ok (k_mem s0) ->
  reachable s0 c -> exists l, inv c.1 c.2 l.
Proof.
  intros Hs Hl Hf Hm. induction 1 as [s E|[s O] c' _ [l IH] Hst].
  - destruct (kinit_ok s0 Hs Hl Hf Hm) as (s' & l & E' & Hmo & Hi & Hin).
    rewrite E in E'. injection E' as ->. exists l. cbn. split; try done.
    + by eapply mem_only_settled.
    + by eapply mem_only_lock_free.
    + intros x. rewrite <- Hin. set_solver.
  - cbn in IH. by eapply inv_step.
Qed.

(** The states main() can start from. *)
Definition booting (s0 : kstate) : Prop :=
  settled s0 /\ lock_free LK_kmem s0 /\ k_freelist s0 = 0 /\ mem_ok (k_mem s0).

Lemma kalloc_state_junk pa s a : pa <= a < pa + PGSIZE -> k_mem (kalloc_state pa s) a = 5.
Proof. intros H. cbn. unfold mem_set. by rewrite (proj2 (in_range_true _ _ _) H). Qed.

Lemma reachable_boot_inv s0 s O : booting s0 -> reachable s0 (s, O) -> exists l, inv s O l.
Proof. intros (Hs & Hl & Hf & Hm) Hr. by apply (reachable_inv s0 (s, O)). Qed.

(** C8: the allocator never hands out a page twice. After kinit() and any
    sequence of kalloc(), kfree() of owned pages and writes to owned pages,
    kalloc() either returns a page-aligned page between [end] and PHYSTOP that
    no one owns, filled with junk and with the rest of memory unchanged, or it
    returns 0 and every page there is owned. *)
Theorem kalloc_sound s0 s O :
  booting s0 -> reachable s0 (s, O) ->
  (exists pa s', kalloc s = Ok pa s' /\ all_pages pa /\ pa ∉ O /\
     (forall a, pa <= a < pa + PGSIZE -> k_mem s' a = 5) /\
     (forall a, a < pa \/ pa + PGSIZE <= a -> k_mem s' a = k_mem s a)) \/
  (kalloc s = Ok 0 s /\ forall pa, all_pages pa -> pa ∈ O).
Proof.
  intros Hb Hr. destruct (reachable_boot_inv s0 s O Hb Hr) as (l & Hi).
  destruct (kalloc_cases s O l Hi) as [[-> E]|(pa & l' & -> & E & Hn & Hnot)].
  - right. split; [done|]. intros pa [?|[]%elem_of_nil]%(inv_all _ _ _ Hi); done.
  - left. exists pa, (kalloc_state pa s). split; [done|]. split; [|split; [done|]].
    + apply (inv_all _ _ _ Hi). right. by left.
    + split; intros a; [apply kalloc_state_junk | apply kalloc_state_out].
Qed.

(** kfree() gives a page back. In every reachable state freeing an owned
    page succeeds and the next kalloc() returns that page; freeing an address
    that is not a page of the allocator panics and changes nothing. *)
Theorem kfree_gives_back s0 s O pa :
  booting s0 -> reachable s0 (s, O) ->
  (pa ∈ O -> exists s', kfree pa s = Ok tt s' /\ exists s'', kalloc s' = Ok pa s'') /\
  (~ page_ok pa -> kfree pa s = Panic "kfree" s).
Proof.
  intros Hb Hr. destruct (reachable_boot_inv s0 s O Hb Hr) as (l & Hi).
  split; [|apply kfree_bad]. intros Hpa. exists (kfree_state pa s). split.
  - apply kfree_eq; [apply Hi..|]. apply all_pages_ok, Hi. by left.
  - pose proof (inv_free_page _ _ _ _ Hi Hpa) as [Hs Hl Hf _ _].
    eexists. by eapply kalloc_eq.
Qed.

End Trace.

(** A kernel that leaves the last eight pages of RAM to the allocator. *)
Definition example_linker : Linker.
Proof.
  refine {| kend := PHYSTOP - 8 * PGSIZE - 5; etext := KERNBASE + 8 * PGSIZE;
            kernelvec := 0; uservec := 0; userret := 0; usertrap_addr := 0; forkret_addr := 0 |};
    vm_compute; intuition congruence.
Defined.

Definition example_boot : kstate := boot_state (fun _ => 0) ∅.

Lemma example_booting : booting example_boot.
Proof. vm_compute; intuition congruence. Qed.

(** One page handed out. *)
Lemma example_reachable : exists s pa,
  @reachable example_linker example_boot (s, {[pa]} ∪ ∅).
Proof.
  destruct example_booting as (Hs & Hl & Hf & Hm).
  destruct (@kinit_ok example_linker example_boot Hs Hl Hf Hm) as (s & l & E & _).
  pose proof (RInit example_boot s E) as Hr.
  destruct (reachable_boot_inv _ _ _ example_booting Hr) as (l' & Hi).
  destruct (kalloc_cases _ _ _ Hi) as [[-> _]|(pa & l1 & _ & Ea & Hnz & _)].
  - assert (@all_pages example_linker (PHYSTOP - PGSIZE)) as Hp by (vm_compute; intuition congruence).
    apply (inv_all _ _ _ Hi) in Hp as [[]%elem_of_empty|[]%elem_of_nil].
  - eexists _, pa. eapply RStep; [exact Hr|]. by apply StAlloc with (1 := Ea).
Qed.

Lemma kalloc_sound_witness : exists s (O : gset Z),
  (exists pa s', kalloc s = Ok pa s' /\ @all_pages example_linker pa /\ pa ∉ O /\
     (forall a, pa <= a < pa + PGSIZE -> k_mem s' a = 5) /\
     (forall a, a < pa \/ pa + PGSIZE <= a -> k_mem s' a = k_mem s a)) \/
  (kalloc s = Ok 0 s /\ forall pa, @all_pages example_linker pa -> pa ∈ O).
Proof.
  destruct example_reachable as (s & pa & Hr). exists s, ({[pa]} ∪ ∅).
  exact (@kalloc_sound example_linker _ _ _ example_booting Hr).
Defined.

Lemma kfree_gives_back_witness : exists s s' pa,
  @kfree example_linker pa s = Ok tt s' /\ exists s'', kalloc s' = Ok pa s''.
Proof.
  destruct example_reachable as (s & pa & Hr).
  destruct (proj1 (@kfree_gives_back example_linker _ _ _ pa example_booting Hr)) as (s' & H).
  - set_solver.
  - exists s, s', pa. exact H.
Defined.

End Trace.
