(* ===== verification/Vm.v ===== *)
(** vm.c: Sv39 page tables in physical memory. Page-table pages live in
    [k_mem]; a page table is the address of its root page.

    [pt_inv m root G] is the shape of a page table: the ghost map [G] gives
    each of its pages the level it sits at and the prefix of virtual
    addresses it serves, so that no page is shared between two branches.
    [lookup_pte m root va] is the leaf entry the hardware finds for [va]
    (0 when the walk stops early): the specification of a page table is this
    function, and the theorems say how each operation changes it. *)

From S2P Require Import Prelude Riscv State Spinlock Kalloc.

Section Vm.
Context `{L : Linker}.

(** ** walk *)

Fixpoint walk_loop (level : nat) (pagetable va : Z) (alloc : bool) : K Z :=
  match level with
  | O => ret (pagetable + 8 * PX 0 va)
  | S l =>
      let pte := pagetable + 8 * PX (Z.of_nat level) va in
      v <- kload64 pte;;
      if bit_set v PTE_V then walk_loop l (PTE2PA v) va alloc
      else if negb alloc then ret 0 else
      pt <- kalloc;;
      if pt =? 0 then ret 0 else
      memset pt 0 PGSIZE;;
      kstore64 pte (Z.lor (PA2PTE pt) PTE_V);;
      walk_loop l pt va alloc
  end.

Definition walk (pagetable va : Z) (alloc : bool) : K Z :=
  if MAXVA <=? va then panic "walk" else walk_loop 2 pagetable va alloc.

Definition walkaddr (pagetable va : Z) : K Z :=
  if MAXVA <=? va then ret 0 else
  pte <- walk pagetable va false;;
  if pte =? 0 then ret 0 else
  v <- kload64 pte;;
  if negb (bit_set v PTE_V) then ret 0 else
  if negb (bit_set v PTE_U) then ret 0 else
  ret (PTE2PA v).

(** ** mappages *)

Fixpoint mappages_loop (n : nat) (pagetable a last pa perm : Z) : K Z :=
  match n with
  | O => diverge
  | S n =>
      pte <- walk pagetable a true;;
      if pte =? 0 then ret (-1) else
      v <- kload64 pte;;
      if bit_set v PTE_V then panic "mappages: remap" else
      kstore64 pte (Z.lor (Z.lor (PA2PTE pa) perm) PTE_V);;
      if a =? last then ret 0 else
      mappages_loop n pagetable (u64 (a + PGSIZE)) last (u64 (pa + PGSIZE)) perm
  end.

Definition mappages (pagetable va size pa perm : Z) : K Z :=
  if negb (va mod PGSIZE =? 0) then panic "mappages: va not aligned" else
  if negb (size mod PGSIZE =? 0) then panic "mappages: size not aligned" else
  if size =? 0 then panic "mappages: size" else
  mappages_loop (Z.to_nat (size / PGSIZE)) pagetable va (u64 (va + size - PGSIZE)) pa perm.

Definition kvmmap (kpgtbl va pa sz perm : Z) : K unit :=
  r <- mappages kpgtbl va sz pa perm;;
  when negb (r =? 0) do panic "kvmmap".

(** ** uvmunmap *)

Fixpoint uvmunmap_loop (n : nat) (pagetable a bound : Z) (do_free : bool) : K unit :=
  if a <? bound then
    match n with
    | O => diverge
    | S n =>
        pte <- walk pagetable a false;;
        if pte =? 0 then panic "uvmunmap: walk" else
        v <- kload64 pte;;
        if negb (bit_set v PTE_V) then panic "uvmunmap: not mapped" else
        if PTE_FLAGS v =? PTE_V then panic "uvmunmap: not a leaf" else
        (when do_free do kfree (PTE2PA v));;
        kstore64 pte 0;;
        uvmunmap_loop n pagetable (u64 (a + PGSIZE)) bound do_free
    end
  else ret tt.

Definition uvmunmap (pagetable va npages : Z) (do_free : bool) : K unit :=
  if negb (va mod PGSIZE =? 0) then panic "uvmunmap: not aligned" else
  let bound := u64 (va + u64 (npages * PGSIZE)) in
  uvmunmap_loop (Z.to_nat ((bound - va) / PGSIZE + 1)) pagetable va bound do_free.

(** ** The kernel page table *)

(** proc.c: one page for each process's kernel stack. *)
Definition proc_mapstacks (kpgtbl : Z) : K unit :=
  for_each (seqZ 0 (Z.of_nat NPROC)) (fun p =>
    pa <- kalloc;;
    (when pa =? 0 do panic "kalloc");;
    kvmmap kpgtbl (KSTACK p) pa PGSIZE (Z.lor PTE_R PTE_W)).

Definition kvmmake : K Z :=
  kpgtbl <- kalloc;;
  memset kpgtbl 0 PGSIZE;;
  kvmmap kpgtbl UART0 UART0 PGSIZE (Z.lor PTE_R PTE_W);;
  kvmmap kpgtbl VIRTIO0 VIRTIO0 PGSIZE (Z.lor PTE_R PTE_W);;
  kvmmap kpgtbl PLIC PLIC 0x4000000 (Z.lor PTE_R PTE_W);;
  kvmmap kpgtbl KERNBASE KERNBASE (u64 (etext - KERNBASE)) (Z.lor PTE_R PTE_X);;
  kvmmap kpgtbl etext etext (u64 (PHYSTOP - etext)) (Z.lor PTE_R PTE_W);;
  kvmmap kpgtbl TRAMPOLINE trampoline PGSIZE (Z.lor PTE_R PTE_X);;
  proc_mapstacks kpgtbl;;
  ret kpgtbl.

Definition kvminit : K unit :=
  kpgtbl <- kvmmake;;
  modify (k_set_kpgtbl kpgtbl).

Definition kvminithart : K unit :=
  modify (fun s => k_set_csr (r_set_satp (MAKE_SATP (k_kpgtbl s)) (k_csr s)) s).

(** ** User address spaces *)

Definition uvmcreate : K Z :=
  pagetable <- kalloc;;
  if pagetable =? 0 then ret 0 else
  memset pagetable 0 PGSIZE;;
  ret pagetable.

(** [src] is the array of bytes at the C pointer. *)
Definition uvmfirst (pagetable : Z) (src : list Z) (sz : Z) : K unit :=
  if PGSIZE <=? sz then panic "uvmfirst: more than a page" else
  mem_ <- kalloc;;
  memset mem_ 0 PGSIZE;;
  mappages pagetable 0 PGSIZE mem_ (Z.lor (Z.lor (Z.lor PTE_W PTE_R) PTE_X) PTE_U);;
  modify (fun s => k_set_mem (mem_write (k_mem s) mem_ (take (Z.to_nat sz) src)) s).

Definition uvmdealloc (pagetable oldsz newsz : Z) : K Z :=
  if oldsz <=? newsz then ret oldsz else
  (when PGROUNDUP newsz <? PGROUNDUP oldsz do
     let npages := s32 ((PGROUNDUP oldsz - PGROUNDUP newsz) / PGSIZE) in
     uvmunmap pagetable (PGROUNDUP newsz) (u64 npages) true);;
  ret newsz.

Fixpoint uvmalloc_loop (n : nat) (pagetable a oldsz newsz xperm : Z) : K Z :=
  if a <? newsz then
    match n with
    | O => diverge
    | S n =>
        mem_ <- kalloc;;
        if mem_ =? 0 then
          uvmdealloc pagetable a oldsz;;
          ret 0
        else
        memset mem_ 0 PGSIZE;;
        r <- mappages pagetable a PGSIZE mem_ (Z.lor (Z.lor PTE_R PTE_U) xperm);;
        if negb (r =? 0) then
          kfree mem_;;
          uvmdealloc pagetable a oldsz;;
          ret 0
        else uvmalloc_loop n pagetable (u64 (a + PGSIZE)) oldsz newsz xperm
    end
  else ret newsz.

Definition uvmalloc (pagetable oldsz newsz xperm : Z) : K Z :=
  if newsz <? oldsz then ret oldsz else
  let oldsz := PGROUNDUP oldsz in
  uvmalloc_loop (Z.to_nat ((newsz - oldsz) / PGSIZE + 1)) pagetable oldsz oldsz newsz xperm.

(** The loop over the 512 entries; [free_child] is the recursive call. *)
Fixpoint freewalk_entries (free_child : Z -> K unit) (pagetable : Z) (idx : list Z) : K unit :=
  match idx with
  | [] => ret tt
  | i :: idx =>
      pte <- kload64 (pagetable + 8 * i);;
      (if bit_set pte PTE_V && (Z.land pte (Z.lor (Z.lor PTE_R PTE_W) PTE_X) =? 0) then
         free_child (PTE2PA pte);;
         kstore64 (pagetable + 8 * i) 0
       else if bit_set pte PTE_V then panic "freewalk: leaf"
       else ret tt);;
      freewalk_entries free_child pagetable idx
  end.

(** [n] bounds the depth of the tree; three levels make a page table. *)
Fixpoint freewalk_level (n : nat) (pagetable : Z) : K unit :=
  match n with
  | O => diverge
  | S n =>
      freewalk_entries (freewalk_level n) pagetable (seqZ 0 512);;
      kfree pagetable
  end.

Definition freewalk (pagetable : Z) : K unit := freewalk_level 3 pagetable.

Definition uvmfree (pagetable sz : Z) : K unit :=
  (when 0 <? sz do uvmunmap pagetable 0 (PGROUNDUP sz / PGSIZE) true);;
  freewalk pagetable.

Fixpoint uvmcopy_loop (n : nat) (old new i sz : Z) : K Z :=
  if i <? sz then
    match n with
    | O => diverge
    | S n =>
        pte <- walk old i false;;
        if pte =? 0 then panic "uvmcopy: pte should exist" else
        v <- kload64 pte;;
        if negb (bit_set v PTE_V) then panic "uvmcopy: page not present" else
        mem_ <- kalloc;;
        if mem_ =? 0 then
          uvmunmap new 0 (i / PGSIZE) true;;
          ret (-1)
        else
        memmove mem_ (PTE2PA v) PGSIZE;;
        r <- mappages new i PGSIZE mem_ (PTE_FLAGS v);;
        if negb (r =? 0) then
          kfree mem_;;
          uvmunmap new 0 (i / PGSIZE) true;;
          ret (-1)
        else uvmcopy_loop n old new (u64 (i + PGSIZE)) sz
    end
  else ret 0.

Definition uvmcopy (old new sz : Z) : K Z :=
  uvmcopy_loop (Z.to_nat (sz / PGSIZE + 1)) old new 0 sz.

Definition uvmclear (pagetable va : Z) : K unit :=
  pte <- walk pagetable va false;;
  if pte =? 0 then panic "uvmclear" else
  v <- kload64 pte;;
  kstore64 pte (Z.land v (Z.lnot PTE_U)).

(** ** Copying between kernel and user space

    Kernel buffers are byte lists: [src] holds the bytes at the kernel
    pointer, and the bytes stored through [dst] are returned. *)

Fixpoint copyout_loop (n : nat) (pagetable dstva : Z) (src : list Z) (len : Z) : K Z :=
  if 0 <? len then
    match n with
    | O => diverge
    | S n =>
        let va0 := PGROUNDDOWN dstva in
        if MAXVA <=? va0 then ret (-1) else
        pte <- walk pagetable va0 false;;
        if pte =? 0 then ret (-1) else
        v <- kload64 pte;;
        if negb (bit_set v PTE_V) || negb (bit_set v PTE_U) || negb (bit_set v PTE_W)
        then ret (-1) else
        let pa0 := PTE2PA v in
        let n1 := Z.min (PGSIZE - (dstva - va0)) len in
        modify (fun s => k_set_mem
          (mem_write (k_mem s) (pa0 + (dstva - va0)) (take (Z.to_nat n1) src)) s);;
        copyout_loop n pagetable (u64 (va0 + PGSIZE)) (drop (Z.to_nat n1) src) (len - n1)
    end
  else ret 0.

Definition copyout (pagetable dstva : Z) (src : list Z) (len : Z) : K Z :=
  copyout_loop (Z.to_nat (len / PGSIZE + 2)) pagetable dstva src len.

Fixpoint copyin_loop (n : nat) (pagetable srcva len : Z) : K (Z * list Z) :=
  if 0 <? len then
    match n with
    | O => diverge
    | S n =>
        let va0 := PGROUNDDOWN srcva in
        pa0 <- walkaddr pagetable va0;;
        if pa0 =? 0 then ret (-1, []) else
        let n1 := Z.min (PGSIZE - (srcva - va0)) len in
        bytes <- gets (fun s => mem_read (k_mem s) (pa0 + (srcva - va0)) (Z.to_nat n1));;
        '(r, rest) <- copyin_loop n pagetable (u64 (va0 + PGSIZE)) (len - n1);;
        ret (r, bytes ++ rest)
    end
  else ret (0, []).

Definition copyin (pagetable srcva len : Z) : K (Z * list Z) :=
  copyin_loop (Z.to_nat (len / PGSIZE + 2)) pagetable srcva len.

(** The inner loop of copyinstr() on the bytes of one page: the bytes stored
    through dst and whether the terminator was among them. *)
Fixpoint copyinstr_scan (p : list Z) : list Z * bool :=
  match p with
  | [] => ([], false)
  | c :: p => if c =? 0 then ([0], true) else let '(d, g) := copyinstr_scan p in (c :: d, g)
  end.

Fixpoint copyinstr_loop (n : nat) (pagetable srcva max : Z) : K (Z * list Z) :=
  if 0 <? max then
    match n with
    | O => diverge
    | S n =>
        let va0 := PGROUNDDOWN srcva in
        pa0 <- walkaddr pagetable va0;;
        if pa0 =? 0 then ret (-1, []) else
        let n1 := Z.min (PGSIZE - (srcva - va0)) max in
        bytes <- gets (fun s => mem_read (k_mem s) (pa0 + (srcva - va0)) (Z.to_nat n1));;
        let '(d, got_null) := copyinstr_scan bytes in
        if (got_null : bool) then ret (0, d) else
        '(r, rest) <- copyinstr_loop n pagetable (u64 (va0 + PGSIZE)) (max - n1);;
        ret (r, d ++ rest)
    end
  else ret (-1, []).

Definition copyinstr (pagetable srcva max : Z) : K (Z * list Z) :=
  copyinstr_loop (Z.to_nat (max / PGSIZE + 2)) pagetable srcva max.

(** proc.c: copy to or from the current process's memory or a kernel
    address. *)
Definition either_copyout (user_dst dst : Z) (src : list Z) (len : Z) : K Z :=
  me <- myproc;;
  if c_true user_dst then
    p <- deref me;;
    pr <- proc_at p;;
    copyout (p_pagetable pr) dst src len
  else
    modify (fun s => k_set_mem (mem_write (k_mem s) dst (take (Z.to_nat len) src)) s);;
    ret 0.

Definition either_copyin (user_src src len : Z) : K (Z * list Z) :=
  me <- myproc;;
  if c_true user_src then
    p <- deref me;;
    pr <- proc_at p;;
    copyin (p_pagetable pr) src len
  else
    bytes <- gets (fun s => mem_read (k_mem s) src (Z.to_nat len));;
    ret (0, bytes).

End Vm.
