(* ===== verification/VmTable.v ===== *)
(** vm.c: what walk(), mappages() and uvmunmap() do to a page table.

    The ghost map of [pt_inv] gives every page-table page its level and the
    prefix of the virtual addresses it serves. Because it is a function of the
    page, two virtual pages never share an entry, so that the table behaves as
    the function [lookup_pte] from virtual addresses to entries. *)

From S2P Require Import Prelude Riscv State Spinlock Kalloc Vm.

Section Table.
Context `{L : Linker}.

(** ** Abstraction *)

Abbreviation shape := (gmap Z (nat * Z)).

(** The part of [va] above the index used at [level]. *)
Definition vpre (level : nat) (va : Z) : Z := va / 2 ^ (21 + 9 * Z.of_nat level).

Record pt_inv (m : mem) (root : Z) (G : shape) : Prop := {
  pt_root : G !! root = Some (2%nat, 0);
  pt_pages : forall p x, G !! p = Some x -> page_ok p;
  pt_child : forall p l pre i, G !! p = Some (S l, pre) -> 0 <= i < 512 ->
    bit_set (load64 m (p + 8 * i)) PTE_V = true ->
    G !! PTE2PA (load64 m (p + 8 * i)) = Some (l, pre * 512 + i) /\
    PTE_FLAGS (load64 m (p + 8 * i)) = PTE_V
}.

(** The hardware's walk: the address of the leaf entry, 0 when it stops. *)
Fixpoint pt_walk (m : mem) (level : nat) (pt va : Z) : Z :=
  match level with
  | O => pt + 8 * PX 0 va
  | S l =>
      let v := load64 m (pt + 8 * PX (Z.of_nat level) va) in
      if bit_set v PTE_V then pt_walk m l (PTE2PA v) va else 0
  end.

Definition lookup_pte (m : mem) (root va : Z) : Z :=
  let a := pt_walk m 2 root va in if a =? 0 then 0 else load64 m a.

(** ** Walking *)

Lemma vpre_step l va : vpre l va = vpre (S l) va * 512 + PX (Z.of_nat (S l)) va.
Proof.
  unfold vpre. rewrite PX_eq by lia.
  replace (12 + 9 * Z.of_nat (S l)) with (21 + 9 * Z.of_nat l) by lia.
  replace (21 + 9 * Z.of_nat (S l)) with (21 + 9 * Z.of_nat l + 9) by lia.
  set (k := 21 + 9 * Z.of_nat l). assert (0 <= k) as Hk by (unfold k; lia).
  rewrite (Z.pow_add_r 2 k) by lia. change (2 ^ 9) with 512.
  pose proof (Z.pow_pos_nonneg 2 k ltac:(lia) Hk). rewrite <- Z.div_div by lia.
  pose proof (Z.div_mod (va / 2 ^ k) 512 ltac:(lia)). lia.
Qed.

Lemma vpre_top va : 0 <= va < MAXVA -> vpre 2 va = 0.
Proof. intros H. rewrite MAXVA_val in H. unfold vpre. apply Z.div_small. cbn. lia. Qed.

Lemma page_number va : va / PGSIZE = vpre 0 va * 512 + PX 0 va.
Proof.
  unfold vpre, PGSIZE. rewrite PX_eq by lia. change (2 ^ (21 + 9 * Z.of_nat 0)) with (4096 * 512).
  change (2 ^ (12 + 9 * 0)) with 4096. rewrite <- Z.div_div by lia.
  pose proof (Z.div_mod (va / 4096) 512 ltac:(lia)). lia.
Qed.

Lemma PX_page l va va' : 0 <= l -> va / PGSIZE = va' / PGSIZE -> PX l va = PX l va'.
Proof.
  intros Hl H. unfold PGSIZE in H. rewrite !PX_eq, !Z.pow_add_r by lia. pose proof (Z.pow_pos_nonneg 2 (9 * l) ltac:(lia) ltac:(lia)).
  rewrite <- !Z.div_div by lia. change (2 ^ 12) with 4096. by rewrite H.
Qed.

Lemma pt_walk_page m level va va' : va / PGSIZE = va' / PGSIZE ->
  forall pt, pt_walk m level pt va = pt_walk m level pt va'.
Proof.
  intros H. induction level as [|l IH]; intros pt; cbn [pt_walk].
  - by rewrite (PX_page 0 va va').
  - rewrite (PX_page (Z.of_nat (S l)) va va') by (done || lia). destruct (bit_set _ _); [apply IH|done].
Qed.

Lemma slot_in_page p i : 0 <= i < 512 -> p <= p + 8 * i /\ p + 8 * i + 8 <= p + PGSIZE.
Proof. unfold PGSIZE. lia. Qed.

Lemma walk_noalloc level pt va s :
  walk_loop level pt va false s = Ok (pt_walk (k_mem s) level pt va) s.
Proof.
  revert pt. induction level as [|l IH]; intros pt; cbn [walk_loop pt_walk]; [done|].
  unfold kload64. mred. by destruct (bit_set _ _).
Qed.

Lemma walk_lookup root va s : va < MAXVA ->
  walk root va false s = Ok (pt_walk (k_mem s) 2 root va) s.
Proof.
  intros. unfold walk. rewrite (proj2 (Z.leb_gt MAXVA va)) by lia. apply walk_noalloc.
Qed.

(** The fields of an entry made from a page and flag bits. *)
Lemma pte_page q perm : page_ok q -> 0 <= perm < 1024 ->
  PTE2PA (Z.lor (PA2PTE q) perm) = q /\ PTE_FLAGS (Z.lor (PA2PTE q) perm) = perm /\
  bit_set (Z.lor (PA2PTE q) perm) PTE_V = Z.testbit perm 0.
Proof.
  intros Hq Hp. pose proof (page_ok_nonzero q Hq). destruct Hq.
  rewrite PTE2PA_PA2PTE, PTE_FLAGS_PA2PTE by (done || lia). split; [done|]. split; [done|].
  unfold PTE_V. rewrite (bit_set_testbit _ 0), Z.lor_spec by lia. unfold PA2PTE.
  by rewrite Z.shiftl_spec_low by lia.
Qed.

Section Inv.
Context {m : mem} {root : Z} {G : shape} (HI : pt_inv m root G).

Lemma pt_page_aligned p x : G !! p = Some x -> p mod PGSIZE = 0.
Proof. intros H. by apply (pt_pages _ _ _ HI p x H). Qed.

Lemma pt_pages_disjoint p x a i y :
  G !! p = Some x -> G !! a = Some y -> p <> a -> 0 <= i < 512 ->
  forall b, a <= b < a + PGSIZE -> b < p + 8 * i \/ p + 8 * i + 8 <= b.
Proof.
  intros H1 H2 Hne Hi b Hb. apply pt_page_aligned in H1, H2.
  destruct (pages_disjoint p a); unfold PGSIZE in *; try done; lia.
Qed.

(** A walk ends in the leaf page that serves the address. *)
Lemma pt_walk_leaf va level : forall pt,
  G !! pt = Some (level, vpre level va) ->
  pt_walk m level pt va = 0 \/
  exists p, G !! p = Some (0%nat, vpre 0 va) /\ pt_walk m level pt va = p + 8 * PX 0 va.
Proof.
  induction level as [|l IH]; intros pt Hg; cbn [pt_walk]; [right; by exists pt|].
  destruct (bit_set _ _) eqn:E; [|by left]. apply IH.
  rewrite (vpre_step l). apply (pt_child _ _ _ HI); [done|apply PX_range; lia|done].
Qed.

Lemma root_leaf va : 0 <= va < MAXVA ->
  pt_walk m 2 root va = 0 \/
  exists p, G !! p = Some (0%nat, vpre 0 va) /\ pt_walk m 2 root va = p + 8 * PX 0 va.
Proof. intros H. apply pt_walk_leaf. rewrite vpre_top by done. apply HI. Qed.

Lemma leaf_nonzero p va x : G !! p = Some x -> p + 8 * PX 0 va <> 0.
Proof.
  intros H. apply (pt_pages _ _ _ HI), page_ok_nonzero in H.
  pose proof (PX_range 0 va). lia.
Qed.

(** Walks only read the upper levels. *)
Lemma pt_walk_frame m' va level : forall pt,
  (forall p l pre i, G !! p = Some (S l, pre) -> 0 <= i < 512 ->
     load64 m' (p + 8 * i) = load64 m (p + 8 * i)) ->
  G !! pt = Some (level, vpre level va) -> pt_walk m' level pt va = pt_walk m level pt va.
Proof.
  induction level as [|l IH]; intros pt Hf Hg; cbn [pt_walk]; [done|].
  rewrite (Hf pt l _ _ Hg) by (apply PX_range; lia).
  destruct (bit_set _ _) eqn:E; [|done]. apply IH; [done|].
  rewrite (vpre_step l). apply (pt_child _ _ _ HI); [done|apply PX_range; lia|done].
Qed.

Lemma pt_inv_upper m' :
  (forall p l pre i, G !! p = Some (S l, pre) -> 0 <= i < 512 ->
     load64 m' (p + 8 * i) = load64 m (p + 8 * i)) ->
  pt_inv m' root G.
Proof.
  intros Hf. split; [apply HI|apply HI|]. intros p l pre i Hp Hi.
  rewrite (Hf p l pre i) by done. by apply (pt_child _ _ _ HI).
Qed.

(** Two addresses on different pages have different entries. *)
Lemma leaf_distinct va va' p p' :
  G !! p = Some (0%nat, vpre 0 va) -> G !! p' = Some (0%nat, vpre 0 va') ->
  va / PGSIZE <> va' / PGSIZE ->
  p + 8 * PX 0 va + 8 <= p' + 8 * PX 0 va' \/ p' + 8 * PX 0 va' + 8 <= p + 8 * PX 0 va.
Proof.
  intros H1 H2 Hne. rewrite !page_number in Hne.
  pose proof (PX_range 0 va). pose proof (PX_range 0 va').
  destruct (Z.eq_dec p p') as [->|Hp].
  - rewrite H1 in H2. injection H2 as H2. lia.
  - apply pt_page_aligned in H1, H2. destruct (pages_disjoint p p'); unfold PGSIZE in *; try done; lia.
Qed.

(** Storing an entry where walk() found it. *)
Lemma store_leaf_upper va v :
  0 <= va < MAXVA -> pt_walk m 2 root va <> 0 ->
  forall q l pre i, G !! q = Some (S l, pre) -> 0 <= i < 512 ->
  load64 (store64 m (pt_walk m 2 root va) v) (q + 8 * i) = load64 m (q + 8 * i).
Proof.
  intros Hva Hnz q l pre i Hq Hi. destruct (root_leaf va Hva) as [?|(p & Hp & ->)]; [done|].
  pose proof (PX_range 0 va ltac:(lia)) as Hpx. apply load_store_out.
  assert (p <> q) as Hne by (intros ->; congruence).
  pose proof (slot_in_page q i Hi). pose proof (slot_in_page p _ Hpx).
  apply pt_page_aligned in Hp, Hq. destruct (pages_disjoint p q); try done; lia.
Qed.

Lemma store_leaf va v :
  0 <= va < MAXVA -> pt_walk m 2 root va <> 0 ->
  let m' := store64 m (pt_walk m 2 root va) v in
  pt_inv m' root G /\
  (forall va', 0 <= va' < MAXVA -> pt_walk m' 2 root va' = pt_walk m 2 root va') /\
  (forall va', 0 <= va' < MAXVA -> lookup_pte m' root va' =
     if va' / PGSIZE =? va / PGSIZE then v mod 2 ^ 64 else lookup_pte m root va').
Proof.
  intros Hva Hnz m'. destruct (root_leaf va Hva) as [?|(p & Hp & Ew)]; [done|].
  pose proof (store_leaf_upper va v Hva Hnz) as Hf.
  assert (forall va', 0 <= va' < MAXVA -> pt_walk m' 2 root va' = pt_walk m 2 root va') as Hw.
  { intros va' Hva'. apply pt_walk_frame; [exact Hf|]. rewrite vpre_top by done. apply HI. }
  split; [by apply pt_inv_upper|]. split; [exact Hw|].
  intros va' Hva'. unfold lookup_pte. rewrite Hw by done.
  destruct (root_leaf va' Hva') as [E|(p' & Hp' & E)]; rewrite E.
  - destruct (Z.eqb_spec (va' / PGSIZE) (va / PGSIZE)) as [Heq|]; [exfalso|done].
    apply Hnz. rewrite <- E. by apply pt_walk_page.
  - rewrite (proj2 (Z.eqb_neq _ _) (leaf_nonzero p' va' _ Hp')).
    destruct (Z.eqb_spec (va' / PGSIZE) (va / PGSIZE)) as [Heq|Hne]; unfold m'; rewrite Ew.
    + rewrite (pt_walk_page m 2 va' va Heq), Ew in E. rewrite <- E. apply load_store_same.
    + apply load_store_out. destruct (leaf_distinct va va' p p'); auto; cbn; lia.
Qed.

(** [look] is [lookup_pte] from a page of the table downwards. *)
Definition look (m : mem) (level : nat) (pt va : Z) : Z :=
  let a := pt_walk m level pt va in if a =? 0 then 0 else load64 m a.

Lemma look_zero_page m' level q va :
  (forall a, q <= a < q + PGSIZE -> m' a = 0) -> look m' level q va = 0.
Proof.
  intros Hz.
  assert (forall i, 0 <= i < 512 -> load64 m' (q + 8 * i) = 0) as Hl.
  { intros i Hi. apply load_zero. intros x Hx. apply Hz. pose proof (slot_in_page q i Hi). cbn in *. lia. }
  unfold look. destruct level as [|l]; cbn [pt_walk]; rewrite Hl by (apply PX_range; lia);
    [by destruct (_ =? 0) | done].
Qed.

(** walk() hangs a zeroed page [q] below entry [i] of [pt]. *)
Lemma add_table pt l pre i q m' :
  G !! pt = Some (S l, pre) -> 0 <= i < 512 ->
  bit_set (load64 m (pt + 8 * i)) PTE_V = false ->
  page_ok q -> G !! q = None ->
  (forall a, q <= a < q + PGSIZE -> m' a = 0) ->
  load64 m' (pt + 8 * i) = Z.lor (PA2PTE q) PTE_V ->
  (forall a, a < q \/ q + PGSIZE <= a -> a < pt + 8 * i \/ pt + 8 * i + 8 <= a -> m' a = m a) ->
  pt_inv m' root (<[q := (l, pre * 512 + i)]> G) /\
  forall va, 0 <= va < MAXVA -> lookup_pte m' root va = lookup_pte m root va.
Proof.
  intros Hpt Hi Hinv Hq Hnew Hz Hl Hm.
  assert (forall p x j, G !! p = Some x -> 0 <= j < 512 -> (p = pt -> j <> i) ->
    load64 m' (p + 8 * j) = load64 m (p + 8 * j)) as Hsame.
  { intros p x j Hp Hj Hne. apply load_ext. intros a Ha.
    pose proof (slot_in_page p j Hj). cbn in Ha. apply Hm.
    - assert (p <> q) as Hpq by (intros ->; congruence). apply pt_page_aligned in Hp.
      destruct (pages_disjoint p q); [done|apply Hq|done|lia..].
    - destruct (Z.eq_dec p pt) as [->|Hpp]; [lia|].
      eapply (pt_pages_disjoint pt _ p); [exact Hpt|exact Hp|done|done|lia]. }
  destruct (pte_page q PTE_V) as (E1 & E2 & E3); [done..|].
  split; [split|].
  - rewrite lookup_insert_ne; [apply HI|]. intros ->. rewrite (pt_root _ _ _ HI) in Hnew. done.
  - intros p x [[<- _]|[_ Hp]]%lookup_insert_Some; [done|]. by apply (pt_pages _ _ _ HI p x).
  - intros p l' pre' j [[<- [= -> ->]]|[Hne Hp]]%lookup_insert_Some Hj.
    + rewrite load_zero; [done|]. intros x Hx. apply Hz. pose proof (slot_in_page q j Hj).
      cbn in Hx. lia.
    + destruct (decide (p = pt /\ j = i)) as [[-> ->]|Hnot].
      * intros _. rewrite Hl, E1, E2, lookup_insert_eq. rewrite Hpt in Hp. by injection Hp as -> ->.
      * rewrite (Hsame p _ j Hp Hj) by naive_solver. intros Hv.
        destruct (pt_child _ _ _ HI p l' pre' j Hp Hj Hv) as [Hc Hfl]. split; [|done].
        rewrite lookup_insert_ne; [done|]. intros Eq. rewrite <- Eq in Hc. congruence.
  - intros va Hva. change (look m' 2 root va = look m 2 root va).
    assert (G !! root = Some (2%nat, vpre 2 va)) as Hr by (rewrite vpre_top by done; apply HI).
    revert Hr. generalize root, 2%nat. intros p level. revert p.
    induction level as [|l0 IH]; intros p Hp; unfold look; cbn [pt_walk].
    + rewrite (Hsame p _ (PX 0 va) Hp); [done|apply PX_range; lia|]. intros ->. congruence.
    + destruct (decide (p = pt /\ PX (Z.of_nat (S l0)) va = i)) as [[-> Ei]|Hnot].
      * rewrite Ei, Hl, E3, Hinv, E1. change (look m' l0 q va = 0). by apply look_zero_page.
      * rewrite (Hsame p _ _ Hp) by (try apply PX_range; first [lia | naive_solver]).
        destruct (bit_set (load64 m (p + _)) PTE_V) eqn:E; [|done]. apply IH. rewrite (vpre_step l0).
        apply (pt_child _ _ _ HI); [done|apply PX_range; lia|done].
Qed.

End Inv.

(** ** Growing a table *)

Record vm_ok (s : kstate) (l : list Z) : Prop := {
  vm_settled : settled s;
  vm_unlocked : lock_free LK_kmem s;
  vm_kmem : kmem_inv s l
}.

(** [root] is a page table whose pages the allocator does not have. *)
Record table (root : Z) (s : kstate) (l : list Z) (G : shape) : Prop := {
  tb_vm : vm_ok s l;
  tb_inv : pt_inv (k_mem s) root G;
  tb_disj : forall p, p ∈ l -> G !! p = None
}.

(** What an operation that may allocate page-table pages leaves: the pages
    [tk] taken from the allocator are now part of the table, and memory
    outside the table's pages is unchanged. *)
Record grown (root : Z) (s : kstate) (l : list Z) (G : shape)
    (s' : kstate) (l' : list Z) (G' : shape) : Prop := {
  gr_only : mem_only s s';
  gr_table : table root s' l' G';
  gr_sub : G ⊆ G';
  gr_taken : exists tk, l = tk ++ l' /\ forall p, is_Some (G' !! p) <-> is_Some (G !! p) \/ p ∈ tk;
  gr_keep : forall p lv pre i, G !! p = Some (S lv, pre) -> 0 <= i < 512 ->
    bit_set (load64 (k_mem s) (p + 8 * i)) PTE_V = true ->
    load64 (k_mem s') (p + 8 * i) = load64 (k_mem s) (p + 8 * i);
  gr_frame : forall a, (forall p x, G' !! p = Some x -> a < p \/ p + PGSIZE <= a) ->
    k_mem s' a = k_mem s a
}.

Lemma grown_refl root s l G : table root s l G -> grown root s l G s l G.
Proof. split; try done. exists []. split; [done|]. set_solver. Qed.

Lemma grown_trans root s l G s1 l1 G1 s2 l2 G2 :
  grown root s l G s1 l1 G1 -> grown root s1 l1 G1 s2 l2 G2 -> grown root s l G s2 l2 G2.
Proof.
  intros [Ho1 _ Hs1 (tk1 & E1 & Ht1) Hk1 Hf1] [Ho2 Htb Hs2 (tk2 & E2 & Ht2) Hk2 Hf2]. split.
  - by eapply mem_only_trans.
  - done.
  - by etrans.
  - exists (tk1 ++ tk2). rewrite <- app_assoc, <- E2. split; [done|].
    intros p. rewrite Ht2, Ht1, elem_of_app. tauto.
  - intros p lv pre i Hp Hi Hv. pose proof (Hk1 p lv pre i Hp Hi Hv) as E.
    rewrite <- E. apply (Hk2 p lv pre i); [by eapply lookup_weaken|done|by rewrite E].
  - intros a Ha. rewrite Hf2, Hf1; [done| |done]. intros p x Hp. apply (Ha p x).
    by eapply lookup_weaken.
Qed.

Lemma kmem_inv_frame s l m' :
  kmem_inv s l -> mem_ok m' ->
  (forall x a, x ∈ l -> x <= a < x + PGSIZE -> m' a = k_mem s a) -> kmem_inv (k_set_mem m' s) l.
Proof.
  intros [Hr Hn Hp Hb] Hm Hf. split; [|done..]. cbn. eapply freelist_rep_frame; [|exact Hr].
  intros x a Hx Ha. symmetry. apply (Hf x); [done|]. unfold PGSIZE. lia.
Qed.

(** Distinct pages, one of them of the table. *)
Lemma table_page_off root s l G p x q :
  table root s l G -> G !! p = Some x -> q mod PGSIZE = 0 -> q <> p ->
  forall a, q <= a < q + PGSIZE -> a < p \/ p + PGSIZE <= a.
Proof.
  intros Ht Hp Hq Hne a Ha. apply (pt_page_aligned (tb_inv _ _ _ _ Ht)) in Hp.
  destruct (pages_disjoint q p); try done; lia.
Qed.

Definition hang (q slot : Z) (s : kstate) : kstate :=
  k_set_mem (store64 (mem_set (k_mem (kalloc_state q s)) q 0 PGSIZE) slot (Z.lor (PA2PTE q) PTE_V))
    (kalloc_state q s).

Lemma hang_out q slot s a : a < q \/ q + PGSIZE <= a -> a < slot \/ slot + 8 <= a ->
  k_mem (hang q slot s) a = k_mem s a.
Proof.
  intros Hq Hs. unfold hang. cbn [k_mem k_set_mem]. rewrite store_out by (cbn; lia).
  unfold mem_set at 1. rewrite (proj2 (in_range_false _ _ _)) by done. by apply kalloc_state_out.
Qed.

Lemma pte_small pa perm : 0 <= pa < 2 ^ 56 -> 0 <= perm < 1024 ->
  0 <= Z.lor (PA2PTE pa) perm < 2 ^ 64.
Proof. intros Hpa Hp. rewrite pte_val by done. Z.div_mod_to_equations. lia. Qed.

Lemma grow_one root s q l G pt lv pre i :
  table root s (q :: l) G -> G !! pt = Some (S lv, pre) -> 0 <= i < 512 ->
  bit_set (load64 (k_mem s) (pt + 8 * i)) PTE_V = false ->
  grown root s (q :: l) G (hang q (pt + 8 * i) s) l (<[q := (lv, pre * 512 + i)]> G) /\
  forall va, 0 <= va < MAXVA ->
    lookup_pte (k_mem (hang q (pt + 8 * i) s)) root va = lookup_pte (k_mem s) root va.
Proof.
  intros Ht Hpt Hi Hinv. pose proof Ht as [[Hse Hun Hk] HI Hd].
  pose proof (Hd q ltac:(by left)) as Hnew.
  pose proof (kmem_pages _ _ Hk) as [Hq Hpl]%Forall_cons.
  pose proof (kmem_nodup _ _ Hk) as [Hql _]%NoDup_cons.
  assert (q <> pt) as Hqp by (intros ->; congruence).
  pose proof (slot_in_page pt i Hi) as Hslot.
  pose proof (table_page_off _ _ _ _ pt _ q Ht Hpt (proj1 Hq) Hqp) as Hoff.
  destruct (add_table HI pt lv pre i q (k_mem (hang q (pt + 8 * i) s))) as [HI' Hlk]; try done.
  - intros a Ha. unfold hang. cbn [k_mem k_set_mem].
    rewrite store_out by (specialize (Hoff a Ha); cbn; lia).
    unfold mem_set at 1. by rewrite (proj2 (in_range_true _ _ _) Ha).
  - unfold hang. cbn [k_mem k_set_mem]. rewrite load_store_same. apply Z.mod_small.
    pose proof (page_ok_nonzero q Hq). apply pte_small; [lia|done].
  - intros a Ha Ha'. by apply hang_out.
  - split; [|done]. split; [done| |by apply insert_subseteq|..].
    + split; [split; [done|done|]|done|].
      * unfold hang. apply kmem_inv_frame; [by apply kalloc_inv|auto with xv6|].
        { apply store_ok, mem_set_ok, (kalloc_inv _ _ _ Hk). }
        intros x a Hx Ha. rewrite Forall_forall in Hpl.
        rewrite store_out.
        { unfold mem_set at 1. rewrite (proj2 (in_range_false _ _ _)); [done|].
          destruct (pages_disjoint q x); [apply Hq|apply (Hpl x Hx)|by intros ->|lia..]. }
        assert (x <> pt) by (intros ->; rewrite (Hd pt) in Hpt; [done|by right]).
        pose proof (table_page_off _ _ _ _ pt _ x Ht Hpt (proj1 (Hpl x Hx)) ltac:(done) a Ha).
        cbn; lia.
      * intros p Hp. rewrite lookup_insert_ne by (by intros ->). apply Hd. by right.
    + exists [q]. split; [done|]. intros p. rewrite lookup_insert_is_Some. destruct (decide (q = p)); set_solver.
    + intros p lv' pre' j Hp Hj Hv. apply load_ext. intros a Ha. cbn in Ha.
      pose proof (slot_in_page p j Hj). assert (q <> p) by (intros ->; congruence).
      apply hang_out.
      * destruct (pages_disjoint q p); [apply Hq|by eapply (pt_page_aligned HI)|done|lia..].
      * destruct (Z.eq_dec p pt) as [->|Hne].
        { assert (j <> i) by (intros ->; congruence). lia. }
        eapply (pt_pages_disjoint HI pt _ p); [exact Hpt|exact Hp|done|done|lia].
    + intros a Ha. apply hang_out; [by apply (Ha q (lv, pre * 512 + i)), lookup_insert_eq|].
      destruct (Ha pt (S lv, pre)); [by rewrite lookup_insert_ne|lia..].
Qed.

(** walk() with alloc set: it finds the entry's address, growing the table by
    at most the pages it needs, or runs out of memory; either way the table
    maps what it mapped. *)
Lemma walk_alloc_loop root va level : 0 <= va < MAXVA -> forall pt s l G,
  table root s l G -> G !! pt = Some (level, vpre level va) ->
  exists r s' l' G', walk_loop level pt va true s = Ok r s' /\ grown root s l G s' l' G' /\
    (forall va', 0 <= va' < MAXVA -> lookup_pte (k_mem s') root va' = lookup_pte (k_mem s) root va') /\
    (length l <= level + length l')%nat /\
    ((r = 0 /\ l' = [] /\ (length l < level)%nat) \/ (r <> 0 /\ r = pt_walk (k_mem s') level pt va)).
Proof.
  intros Hva. induction level as [|lv IH]; intros pt s l G Ht Hpt; cbn [walk_loop pt_walk].
  { exists (pt + 8 * PX 0 va), s, l, G. split; [done|]. split; [by apply grown_refl|].
    split; [done|]. split; [lia|]. right. split; [|done]. by eapply leaf_nonzero; [apply Ht|]. }
  pose proof (PX_range (Z.of_nat (S lv)) va ltac:(lia)) as Hpx.
  unfold kload64. mred. destruct (bit_set _ _) eqn:E.
  - destruct (pt_child _ _ _ (tb_inv _ _ _ _ Ht) _ _ _ _ Hpt Hpx E) as [Hc _].
    rewrite <- vpre_step in Hc.
    destruct (IH _ s l G Ht Hc) as (r & s' & l' & G' & Er & Hg & Hlk & Hn & Hr).
    exists r, s', l', G'. split; [done|]. split; [done|]. split; [done|]. split; [lia|].
    destruct Hr as [(? & ? & ?)|[Hr Er']]; [left; repeat split; (done || lia)|right]. split; [done|].
    by rewrite (gr_keep _ _ _ _ _ _ _ Hg _ _ _ _ Hpt Hpx E), E.
  - cbn [negb]. pose proof Ht as [[Hse Hun Hk] HI Hd]. destruct l as [|q l].
    { mrun (kalloc_empty s Hse Hun Hk). exists 0, s, [], G. split; [done|].
      split; [by apply grown_refl|]. split; [done|]. cbn. split; [lia|]. left. repeat split. lia. }
    mrun (kalloc_eq q l s Hse Hun Hk). unfold memset, kstore64.
    pose proof (kmem_pages _ _ Hk) as [Hq _]%Forall_cons.
    rewrite (proj2 (Z.eqb_neq q 0)) by apply (page_ok_nonzero q Hq). mred.
    destruct (grow_one root s q l G pt lv _ _ Ht Hpt Hpx E) as [Hg1 Hlk1].
    rewrite <- vpre_step in Hg1.
    destruct (IH q _ l _ (gr_table _ _ _ _ _ _ _ Hg1)) as (r & s' & l' & G' & Er & Hg & Hlk & Hn & Hr).
    { apply lookup_insert_eq. }
    exists r, s', l', G'. split; [exact Er|]. split; [by eapply grown_trans|].
    split; [intros; by rewrite Hlk, Hlk1|]. cbn [length]. split; [lia|].
    destruct Hr as [(? & ? & ?)|[Hr Er']]; [left; repeat split; (done || lia)|right]. split; [done|].
    assert (load64 (k_mem (hang q (pt + 8 * PX (Z.of_nat (S lv)) va) s))
              (pt + 8 * PX (Z.of_nat (S lv)) va) = Z.lor (PA2PTE q) PTE_V) as El.
    { unfold hang. cbn [k_mem k_set_mem]. rewrite load_store_same. apply Z.mod_small.
      pose proof (page_ok_nonzero q Hq). apply pte_small; [lia|done]. }
    destruct (pte_page q PTE_V) as (E1 & _ & E3); [done|done|].
    rewrite (gr_keep _ _ _ _ _ _ _ Hg pt lv (vpre (S lv) va)), El, E3, E1; [done| |done|by rewrite El].
    rewrite lookup_insert_ne; [done|]. intros <-. rewrite (Hd q) in Hpt; [done|by left].
Qed.

Lemma leaf_in_page root s l G va :
  table root s l G -> 0 <= va < MAXVA -> pt_walk (k_mem s) 2 root va <> 0 ->
  exists p x, G !! p = Some x /\ p <= pt_walk (k_mem s) 2 root va /\
    pt_walk (k_mem s) 2 root va + 8 <= p + PGSIZE.
Proof.
  intros Ht Hva Hnz. destruct (root_leaf (tb_inv _ _ _ _ Ht) va Hva) as [?|(p & Hp & ->)]; [done|].
  exists p, (0%nat, vpre 0 va). split; [done|]. apply slot_in_page, PX_range. lia.
Qed.

Definition set_pte (root va v : Z) (s : kstate) : kstate :=
  k_set_mem (store64 (k_mem s) (pt_walk (k_mem s) 2 root va) v) s.

Lemma grown_set_pte root s l G va v :
  table root s l G -> 0 <= va < MAXVA -> pt_walk (k_mem s) 2 root va <> 0 ->
  grown root s l G (set_pte root va v s) l G /\
  forall va', 0 <= va' < MAXVA -> lookup_pte (k_mem (set_pte root va v s)) root va' =
     if va' / PGSIZE =? va / PGSIZE then v mod 2 ^ 64 else lookup_pte (k_mem s) root va'.
Proof.
  intros Ht Hva Hnz. pose proof Ht as [[Hse Hun Hk] HI Hd].
  destruct (store_leaf HI va v Hva Hnz) as (HI' & _ & Hlk). split; [|exact Hlk].
  destruct (leaf_in_page _ _ _ _ va Ht Hva Hnz) as (p & x & Hp & Hr).
  split; [done| |done|..].
  - split; [split; [done|done|]|done|done].
    apply kmem_inv_frame; [done|apply store_ok, Hk|]. intros y a Hy Ha. apply store_out.
    assert (y <> p) by (intros ->; rewrite (Hd p Hy) in Hp; done).
    pose proof (kmem_pages _ _ Hk) as Hpl. rewrite Forall_forall in Hpl.
    pose proof (table_page_off _ _ _ _ p _ y Ht Hp (proj1 (Hpl y Hy)) ltac:(done) a Ha).
    lia.
  - exists []. split; [done|]. set_solver.
  - intros q lv pre i Hq Hi _. by apply (store_leaf_upper HI va v Hva Hnz q lv pre).
  - intros a Ha. apply store_out. destruct (Ha p x Hp); lia.
Qed.

(** ** mappages *)

Definition leaf_pte (pa perm : Z) : Z := Z.lor (Z.lor (PA2PTE pa) perm) PTE_V.

Lemma leaf_pte_range pa perm : 0 <= pa < 2 ^ 56 -> 0 <= perm < 1024 ->
  0 <= leaf_pte pa perm < 2 ^ 64.
Proof.
  intros Hpa Hp. unfold leaf_pte. rewrite <- Z.lor_assoc. apply pte_small; [done|].
  apply (lor_range _ _ 10); [lia|cbn; lia|by split].
Qed.

(** The pages [a, a + j * PGSIZE) of [root] now map to the pages at [pa]. *)
Definition mapped (lk : Z -> Z) (a pa perm : Z) (j : nat) (va : Z) : Z :=
  if in_range a (Z.of_nat j * PGSIZE) va
  then leaf_pte (pa + (va - a) / PGSIZE * PGSIZE) perm else lk va.

Lemma mapped_S lk a pa perm j va : a mod PGSIZE = 0 ->
  mapped (fun va => if va / PGSIZE =? a / PGSIZE then leaf_pte pa perm else lk va)
    (a + PGSIZE) (pa + PGSIZE) perm j va = mapped lk a pa perm (S j) va.
Proof.
  intros Ha. unfold mapped, in_range, PGSIZE in *.
  assert (va / 4096 = a / 4096 <-> a <= va < a + 4096) as Hpg by (Z.div_mod_to_equations; lia).
  destruct (Z.eqb_spec (va / 4096) (a / 4096)) as [E|E].
  - apply Hpg in E. rewrite (proj2 (Z.leb_gt (a + 4096) va)) by lia. cbn [andb].
    rewrite (proj2 (Z.leb_le a va)), (proj2 (Z.ltb_lt va (a + _))) by lia. cbn [andb].
    rewrite Z.div_small by lia. f_equal. lia.
  - destruct (Z.leb_spec (a + 4096) va), (Z.leb_spec a va); cbn [andb]; try lia.
    replace (va <? a + 4096 + Z.of_nat j * 4096) with (va <? a + Z.of_nat (S j) * 4096)
      by (f_equal; lia).
    destruct (_ <? _); [|done]. f_equal.
    replace (va - a) with (va - (a + 4096) + 1 * 4096) by lia. rewrite Z.div_add by lia. lia.
Qed.

(** One iteration up to the store of the entry. *)
Lemma walk_set root s l G a v :
  table root s l G -> 0 <= a < MAXVA -> 0 <= v < 2 ^ 64 ->
  exists r s1 l1 G1, walk root a true s = Ok r s1 /\
    grown root s l G s1 l1 G1 /\
    (forall va, 0 <= va < MAXVA -> lookup_pte (k_mem s1) root va = lookup_pte (k_mem s) root va) /\
    (length l <= 2 + length l1)%nat /\
    ((r = 0 /\ l1 = [] /\ (length l < 2)%nat) \/
     (r <> 0 /\ load64 (k_mem s1) r = lookup_pte (k_mem s) root a /\
      k_set_mem (store64 (k_mem s1) r v) s1 = set_pte root a v s1 /\
      grown root s l G (set_pte root a v s1) l1 G1 /\
      forall va, 0 <= va < MAXVA -> lookup_pte (k_mem (set_pte root a v s1)) root va =
        if va / PGSIZE =? a / PGSIZE then v else lookup_pte (k_mem s) root va)).
Proof.
  intros Ht Ha Hv. unfold walk. rewrite (proj2 (Z.leb_gt MAXVA a)) by lia.
  destruct (walk_alloc_loop root a 2 Ha root s l G Ht)
    as (r & s1 & l1 & G1 & E & Hg & Hlk & Hn & Hr); [rewrite vpre_top by done; apply Ht|].
  exists r, s1, l1, G1. split; [done|]. split; [done|]. split; [done|]. split; [done|].
  destruct Hr as [?|[Hnz ->]]; [by left|right]. split; [done|]. split; [|split; [done|]].
  - rewrite <- Hlk by done. unfold lookup_pte. by rewrite (proj2 (Z.eqb_neq _ _) Hnz).
  - destruct (grown_set_pte root s1 l1 G1 a v (gr_table _ _ _ _ _ _ _ Hg) Ha Hnz) as [Hg2 Hlk2].
    split; [by eapply grown_trans|]. intros va Hva. rewrite Hlk2, Z.mod_small by done.
    by rewrite Hlk.
Qed.

Lemma mapped_ext lk lk' a pa perm j va :
  lk va = lk' va -> mapped lk a pa perm j va = mapped lk' a pa perm j va.
Proof. unfold mapped. by intros ->. Qed.

Lemma mapped_0 lk a pa perm va : mapped lk a pa perm 0 va = lk va.
Proof. unfold mapped, in_range. destruct (Z.leb_spec a va), (Z.ltb_spec va (a + Z.of_nat 0 * PGSIZE));
  try done. lia. Qed.

Lemma mapped_1 lk a pa perm va : a mod PGSIZE = 0 ->
  mapped lk a pa perm 1 va = if va / PGSIZE =? a / PGSIZE then leaf_pte pa perm else lk va.
Proof. intros Ha. rewrite <- mapped_S by done. apply mapped_0. Qed.

Lemma mappages_loop_S n root a last pa perm :
  mappages_loop (S n) root a last pa perm =
    (pte <- walk root a true;;
     if pte =? 0 then ret (-1) else
     v <- kload64 pte;;
     if bit_set v PTE_V then panic "mappages: remap" else
     kstore64 pte (leaf_pte pa perm);;
     if a =? last then ret 0 else
     mappages_loop n root (u64 (a + PGSIZE)) last (u64 (pa + PGSIZE)) perm).
Proof. done. Qed.

Lemma mappages_loop_ok root perm last n : 0 <= perm < 1024 ->
  forall a pa s l G,
  table root s l G -> a mod PGSIZE = 0 -> 0 <= a -> a + Z.of_nat (S n) * PGSIZE <= MAXVA ->
  last = a + Z.of_nat n * PGSIZE -> 0 <= pa -> pa + Z.of_nat (S n) * PGSIZE <= 2 ^ 56 ->
  (forall va, a <= va < a + Z.of_nat (S n) * PGSIZE ->
     bit_set (lookup_pte (k_mem s) root va) PTE_V = false) ->
  exists r s' l' G' j, mappages_loop (S n) root a last pa perm s = Ok r s' /\
    grown root s l G s' l' G' /\
    ((r = 0 /\ j = S n /\ (length l <= 2 * S n + length l')%nat) \/ (r = -1 /\ l' = [] /\ (j <= n)%nat /\ (length l < 2 * S n)%nat)) /\
    forall va, 0 <= va < MAXVA ->
      lookup_pte (k_mem s') root va = mapped (lookup_pte (k_mem s) root) a pa perm j va.
Proof.
  unfold PGSIZE. intros Hperm. induction n as [|n IH];
    intros a pa s l G Ht Ha Ha0 Hmax Hlast Hpa0 Hpa Hun; rewrite mappages_loop_S;
    (destruct (walk_set root s l G a (leaf_pte pa perm) Ht) as (r & s1 & l1 & G1 & E & Hg & Hlk & Hn & Hr);
     [lia|apply leaf_pte_range; lia|]); mrun E; rewrite MAXVA_val in Hmax;
    (destruct Hr as [(-> & -> & Hn0)|(Hnz & Hld & Est & Hg2 & Hlk2)];
     [exists (-1), s1, [], G1, 0%nat; split; [done|]; split; [done|]; split; [right; repeat split; lia|];
      intros; by rewrite mapped_0, Hlk|]);
    rewrite (proj2 (Z.eqb_neq r 0) Hnz); unfold kload64, kstore64; mred;
    rewrite Hld, Hun by lia; mred; rewrite Est.
  - rewrite (proj2 (Z.eqb_eq a last)) by lia. exists 0, (set_pte root a (leaf_pte pa perm) s1), l1, G1, 1%nat.
    split; [done|]. split; [done|]. split; [left; repeat split; lia|].
    intros. rewrite mapped_1 by done. by apply Hlk2.
  - rewrite (proj2 (Z.eqb_neq a last)) by lia. change PGSIZE with 4096 in *. rewrite !u64_small by lia.
    destruct (IH (a + 4096) (pa + 4096) _ l1 G1 (gr_table _ _ _ _ _ _ _ Hg2))
      as (r' & s' & l' & G' & j & E' & Hg' & Hr' & Hlk'); rewrite ?MAXVA_val; try lia.
    + Z.div_mod_to_equations; lia.
    + intros va Hva. rewrite Hlk2 by (rewrite MAXVA_val; lia).
      destruct (Z.eqb_spec (va / 4096) (a / 4096)) as [Eq|_]; [exfalso|apply Hun; lia].
      Z.div_mod_to_equations; lia.
    + exists r', s', l', G', (S j). split; [exact E'|]. split; [by eapply grown_trans|]. split.
      * destruct Hr' as [(-> & -> & ?)|(-> & -> & ? & ?)]; [left|right]; repeat split; lia.
      * intros va Hva. rewrite <- mapped_S by done. rewrite Hlk' by done.
        apply mapped_ext. by apply Hlk2.
Qed.

(** ** The contract of mappages *)

Lemma mappages_ok root va size pa perm s l G :
  table root s l G -> 0 <= perm < 1024 ->
  va mod PGSIZE = 0 -> size mod PGSIZE = 0 -> 0 < size -> 0 <= va -> va + size <= MAXVA ->
  0 <= pa -> pa + size <= 2 ^ 56 ->
  (forall a, va <= a < va + size -> bit_set (lookup_pte (k_mem s) root a) PTE_V = false) ->
  exists r s' l' G' j, mappages root va size pa perm s = Ok r s' /\
    grown root s l G s' l' G' /\
    ((r = 0 /\ Z.of_nat j = size / PGSIZE /\ Z.of_nat (length l) <= 2 * (size / PGSIZE) + Z.of_nat (length l')) \/
     (r = -1 /\ l' = [] /\ Z.of_nat j < size / PGSIZE /\ Z.of_nat (length l) < 2 * (size / PGSIZE))) /\
    forall a, 0 <= a < MAXVA ->
      lookup_pte (k_mem s') root a = mapped (lookup_pte (k_mem s) root) va pa perm j a.
Proof.
  unfold PGSIZE. intros Ht Hp Hva Hsz Hs0 Hva0 Hmax Hpa0 Hpa Hun. unfold mappages, PGSIZE.
  rewrite (proj2 (Z.eqb_eq _ _) Hva), (proj2 (Z.eqb_eq _ _) Hsz), (proj2 (Z.eqb_neq size 0)) by lia.
  cbn [negb]. rewrite MAXVA_val in Hmax.
  assert (size = 4096 * (size / 4096)) as Hq by (Z.div_mod_to_equations; lia).
  remember (Z.to_nat (size / 4096)) as k eqn:Ek.
  destruct k as [|n]; [lia|].
  rewrite u64_small by lia.
  destruct (mappages_loop_ok root perm (va + size - 4096) n Hp va pa s l G)
    as (r & s' & l' & G' & j & E & Hg & Hr & Hlk); unfold PGSIZE; rewrite ?MAXVA_val;
    try done; try lia.
  - intros a Ha. apply Hun. lia.
  - exists r, s', l', G', j. split; [exact E|]. split; [done|]. split; [|done].
    destruct Hr as [(-> & -> & Hn)|(-> & -> & Hj & Hn)]; [left|right]; repeat split; lia.
Qed.

(** Memory outside the table's pages does not matter to it. *)
Lemma lookup_frame m m' root G :
  pt_inv m root G ->
  (forall p x a, G !! p = Some x -> p <= a < p + PGSIZE -> m' a = m a) ->
  pt_inv m' root G /\
  (forall va, 0 <= va < MAXVA -> pt_walk m' 2 root va = pt_walk m 2 root va) /\
  (forall va, 0 <= va < MAXVA -> lookup_pte m' root va = lookup_pte m root va).
Proof.
  intros HI Hf.
  assert (forall p x i, G !! p = Some x -> 0 <= i < 512 -> load64 m' (p + 8 * i) = load64 m (p + 8 * i))
    as Hld.
  { intros p x i Hp Hi. apply load_ext. intros a Ha. apply (Hf p x); [done|].
    pose proof (slot_in_page p i Hi). lia. }
  assert (forall va, 0 <= va < MAXVA -> pt_walk m' 2 root va = pt_walk m 2 root va) as Hw.
  { intros va Hva. apply (pt_walk_frame HI); [intros; by eapply Hld|].
    rewrite vpre_top by done. apply HI. }
  split; [apply (pt_inv_upper HI); intros; by eapply Hld|]. split; [done|].
  intros va Hva. unfold lookup_pte. rewrite Hw by done.
  destruct (root_leaf HI va Hva) as [->|(p & Hp & ->)]; [done|].
  destruct (_ =? 0); [done|]. apply (Hld p _ _ Hp), PX_range. lia.
Qed.

Lemma table_kfree root s l G pa :
  table root s l G -> page_ok pa -> pa ∉ l -> G !! pa = None ->
  table root (kfree_state pa s) (pa :: l) G /\
  (forall va, 0 <= va < MAXVA ->
     pt_walk (k_mem (kfree_state pa s)) 2 root va = pt_walk (k_mem s) 2 root va) /\
  forall va, 0 <= va < MAXVA ->
     lookup_pte (k_mem (kfree_state pa s)) root va = lookup_pte (k_mem s) root va.
Proof.
  intros Ht Hok Hl Hg. pose proof Ht as [[Hse Hun Hk] HI Hd].
  destruct (lookup_frame (k_mem s) (k_mem (kfree_state pa s)) root G HI) as (HI' & Hw & Hlk).
  { intros p x a Hp Ha. apply kfree_state_out.
    assert (p <> pa) by (intros ->; congruence). pose proof (pt_page_aligned HI _ _ Hp).
    destruct (pages_disjoint p pa); [done|apply Hok|done|lia..]. }
  split; [|done]. split; [split; [done|done|by apply kfree_inv]|done|].
  intros p [->|Hp]%elem_of_cons; [done|by apply Hd].
Qed.

(** ** uvmunmap *)

(** What an unmapping of [n] pages from [a] requires of the table. *)
Record unmappable (root : Z) (s : kstate) (l : list Z) (G : shape) (a : Z) (n : nat)
    (do_free : bool) : Prop := {
  un_leaf : forall k, (k < n)%nat -> let v := lookup_pte (k_mem s) root (a + Z.of_nat k * PGSIZE) in
    bit_set v PTE_V = true /\ PTE_FLAGS v <> PTE_V;
  un_page : do_free = true -> forall k, (k < n)%nat ->
    let pa := PTE2PA (lookup_pte (k_mem s) root (a + Z.of_nat k * PGSIZE)) in
    page_ok pa /\ G !! pa = None /\ pa ∉ l;
  un_inj : do_free = true -> forall k1 k2, (k1 < k2 < n)%nat ->
    PTE2PA (lookup_pte (k_mem s) root (a + Z.of_nat k1 * PGSIZE)) <>
    PTE2PA (lookup_pte (k_mem s) root (a + Z.of_nat k2 * PGSIZE))
}.

Definition unmapped_pages (root : Z) (s : kstate) (a : Z) (n : nat) : list Z :=
  (fun k => PTE2PA (lookup_pte (k_mem s) root (a + Z.of_nat k * PGSIZE))) <$> seq 0 n.

Definition unmapped (lk : Z -> Z) (a : Z) (n : nat) (va : Z) : Z :=
  if in_range a (Z.of_nat n * PGSIZE) va then 0 else lk va.

Lemma unmapped_S lk a n va : a mod PGSIZE = 0 ->
  unmapped (fun va => if va / PGSIZE =? a / PGSIZE then 0 else lk va) (a + PGSIZE) n va
  = unmapped lk a (S n) va.
Proof.
  intros Ha. unfold unmapped, in_range, PGSIZE in *.
  assert (va / 4096 = a / 4096 <-> a <= va < a + 4096) as Hpg by (Z.div_mod_to_equations; lia).
  destruct (Z.eqb_spec (va / 4096) (a / 4096)), (Z.leb_spec (a + 4096) va), (Z.leb_spec a va),
    (Z.ltb_spec va (a + 4096 + Z.of_nat n * 4096)), (Z.ltb_spec va (a + Z.of_nat (S n) * 4096));
    cbn [andb]; try done; lia.
Qed.

(** The state after one iteration. *)
Definition unmap_state (root a : Z) (do_free : bool) (s : kstate) : kstate :=
  set_pte root a 0
    (if do_free then kfree_state (PTE2PA (lookup_pte (k_mem s) root a)) s else s).

Lemma unmap_one root s l G a n do_free :
  table root s l G -> a mod PGSIZE = 0 -> 0 <= a -> a + Z.of_nat (S n) * PGSIZE <= MAXVA ->
  unmappable root s l G a (S n) do_free ->
  let pa := PTE2PA (lookup_pte (k_mem s) root a) in
  let l' := if do_free then pa :: l else l in
  let s' := unmap_state root a do_free s in
  table root s' l' G /\ unmappable root s' l' G (a + PGSIZE) n do_free /\
  (forall va, 0 <= va < MAXVA -> lookup_pte (k_mem s') root va =
     if va / PGSIZE =? a / PGSIZE then 0 else lookup_pte (k_mem s) root va) /\
  (forall b, (forall p x, G !! p = Some x -> b < p \/ p + PGSIZE <= b) ->
     (do_free = true -> b < pa \/ pa + PGSIZE <= b) -> k_mem s' b = k_mem s b).
Proof.
  intros Ht Ha Ha0 Hmax [Hl Hp Hi] pa l' s'. rewrite MAXVA_val in Hmax. change PGSIZE with 4096 in *.
  assert (0 <= a < MAXVA) as Hr by (rewrite MAXVA_val; lia).
  destruct (Hl 0%nat ltac:(lia)) as [Hv _]. cbv zeta in Hv. rewrite Z.add_0_r in Hv.
  assert (exists s1, s' = set_pte root a 0 s1 /\ mem_only s s1 /\ table root s1 l' G /\
    (forall va, 0 <= va < MAXVA -> pt_walk (k_mem s1) 2 root va = pt_walk (k_mem s) 2 root va) /\
    (forall va, 0 <= va < MAXVA -> lookup_pte (k_mem s1) root va = lookup_pte (k_mem s) root va) /\
    (forall b, (do_free = true -> b < pa \/ pa + 4096 <= b) -> k_mem s1 b = k_mem s b))
    as (s1 & -> & Ho & Ht1 & Hw & Hlk & Hf).
  { exists (if do_free then kfree_state pa s else s). split; [done|].
    subst l'. destruct do_free; [|by split_and!].
    destruct (Hp eq_refl 0%nat ltac:(lia)) as (Hok & Hg & Hnl). cbv zeta in Hok, Hg, Hnl.
    rewrite Z.add_0_r in Hok, Hg, Hnl. destruct (table_kfree root s l G pa) as (? & ? & ?); try done.
    split; [done|]. do 3 (split; [done|]). intros b Hb. apply kfree_state_out. by apply Hb. }
  assert (pt_walk (k_mem s1) 2 root a <> 0) as Hnz.
  { intros E. rewrite Hw in E by done. unfold lookup_pte in Hv. by rewrite E in Hv. }
  destruct (grown_set_pte root s1 l' G a 0 Ht1 Hr Hnz) as [Hg Hlk2].
  assert (forall va, 0 <= va < MAXVA -> lookup_pte (k_mem (set_pte root a 0 s1)) root va =
     if va / 4096 =? a / 4096 then 0 else lookup_pte (k_mem s) root va) as Hlk'.
  { intros va Hva. rewrite Hlk2 by done. by rewrite Hlk. }
  split; [apply Hg|]. split; [|split; [done|]].
  - assert (forall k, (k < n)%nat -> lookup_pte (k_mem (set_pte root a 0 s1)) root
      (a + 4096 + Z.of_nat k * 4096) = lookup_pte (k_mem s) root (a + Z.of_nat (S k) * 4096)) as Hk.
    { intros k Hk. rewrite Hlk' by (rewrite MAXVA_val; lia).
      destruct (Z.eqb_spec ((a + 4096 + Z.of_nat k * 4096) / 4096) (a / 4096)) as [E|_];
        [exfalso; Z.div_mod_to_equations; lia|]. f_equal. lia. }
    split; unfold PGSIZE.
    + intros k Hkn. rewrite Hk by done. apply (Hl (S k)). lia.
    + intros Hd k Hkn. rewrite Hk by done. destruct (Hp Hd (S k) ltac:(lia)) as (? & ? & ?).
      split; [done|]. split; [done|]. subst l'. rewrite Hd. intros [E|?]%elem_of_cons; [|done].
      apply (Hi Hd 0%nat (S k) ltac:(lia)). unfold PGSIZE. rewrite Z.add_0_r. by symmetry.
    + intros Hd k1 k2 Hkk. rewrite !Hk by lia. apply (Hi Hd (S k1) (S k2)). lia.
  - intros b Hb Hb'. rewrite <- Hf by done. by apply (gr_frame _ _ _ _ _ _ _ Hg).
Qed.

Definition freed (root : Z) (s : kstate) (a : Z) (n : nat) (do_free : bool) (l : list Z) : list Z :=
  if do_free then reverse (unmapped_pages root s a n) ++ l else l.

Lemma unmapped_pages_S root s s' a n :
  (forall k, (k < n)%nat -> lookup_pte (k_mem s') root (a + PGSIZE + Z.of_nat k * PGSIZE) =
     lookup_pte (k_mem s) root (a + Z.of_nat (S k) * PGSIZE)) ->
  unmapped_pages root s a (S n) =
    PTE2PA (lookup_pte (k_mem s) root a) :: unmapped_pages root s' (a + PGSIZE) n.
Proof.
  intros H. unfold unmapped_pages. rewrite <- cons_seq, <- fmap_S_seq, fmap_cons, <- list_fmap_compose.
  rewrite Z.add_0_r. f_equal. apply list_fmap_ext. intros i k [-> Hk]%lookup_seq. cbn.
  rewrite H by lia. done.
Qed.

Lemma unmap_step root s l G a n do_free (k : K unit) :
  table root s l G -> 0 <= a < MAXVA -> unmappable root s l G a (S n) do_free ->
  ((when do_free do kfree (PTE2PA (lookup_pte (k_mem s) root a)));;
   modify (fun s0 => k_set_mem (store64 (k_mem s0) (pt_walk (k_mem s) 2 root a) 0) s0);;
   k) s = k (unmap_state root a do_free s).
Proof.
  intros Ht Ha Hun. unfold unmap_state. destruct do_free; [|done].
  destruct (un_page _ _ _ _ _ _ _ Hun eq_refl 0 ltac:(lia)) as (Hok & Hg & Hnl).
  cbv zeta in Hok, Hg, Hnl. rewrite Z.add_0_r in Hok, Hg, Hnl.
  mrun (kfree_eq _ s (vm_settled _ _ (tb_vm _ _ _ _ Ht)) (vm_unlocked _ _ (tb_vm _ _ _ _ Ht)) Hok).
  unfold set_pte. destruct (table_kfree root s l G _ Ht Hok Hnl Hg) as (_ & Hw & _).
  by rewrite Hw.
Qed.

Lemma uvmunmap_loop_ok root do_free bound n : forall fuel a s l G,
  (n <= fuel)%nat -> table root s l G -> a mod PGSIZE = 0 -> 0 <= a ->
  a + Z.of_nat n * PGSIZE = bound -> bound <= MAXVA -> unmappable root s l G a n do_free ->
  exists s', uvmunmap_loop fuel root a bound do_free s = Ok tt s' /\ mem_only s s' /\
    table root s' (freed root s a n do_free l) G /\
    (forall va, 0 <= va < MAXVA ->
       lookup_pte (k_mem s') root va = unmapped (lookup_pte (k_mem s) root) a n va) /\
    (forall b, (forall p x, G !! p = Some x -> b < p \/ p + PGSIZE <= b) ->
       (do_free = true -> forall pa, pa ∈ unmapped_pages root s a n -> b < pa \/ pa + PGSIZE <= b) ->
       k_mem s' b = k_mem s b).
Proof.
  induction n as [|n IH]; intros fuel a s l G Hf Ht Ha Ha0 Hb Hmax Hun.
  - exists s. destruct fuel; cbn [uvmunmap_loop]; rewrite (proj2 (Z.ltb_ge a bound)) by lia.
    all: split; [done|]; split; [done|]; split; [by destruct do_free|]; split; [|done].
    all: intros va _; unfold unmapped, in_range; destruct (Z.leb_spec a va),
      (Z.ltb_spec va (a + Z.of_nat 0 * PGSIZE)); cbn [andb]; (done || lia).
  - destruct fuel as [|fuel]; [lia|]. cbn [uvmunmap_loop].
    assert (a < bound) as Hlt by (unfold PGSIZE in *; lia).
    rewrite (proj2 (Z.ltb_lt a bound)) by done. mrun (walk_lookup root a s ltac:(lia)).
    destruct (un_leaf _ _ _ _ _ _ _ Hun 0 ltac:(lia)) as [Hv Hfl]. cbv zeta in Hv, Hfl.
    rewrite Z.add_0_r in Hv, Hfl.
    assert (pt_walk (k_mem s) 2 root a <> 0 /\
            load64 (k_mem s) (pt_walk (k_mem s) 2 root a) = lookup_pte (k_mem s) root a) as [Hnz Eld].
    { unfold lookup_pte in *. destruct (Z.eqb_spec (pt_walk (k_mem s) 2 root a) 0); done. }
    rewrite (proj2 (Z.eqb_neq _ _) Hnz). unfold kload64, kstore64. mred. rewrite Eld, Hv. cbn [negb].
    rewrite (proj2 (Z.eqb_neq _ _) Hfl).
    destruct (unmap_one root s l G a n do_free Ht Ha Ha0 ltac:(lia) Hun) as (Ht1 & Hun1 & Hlk1 & Hf1).
    rewrite (unmap_step root s l G a n do_free _ Ht ltac:(lia) Hun). rewrite u64_small by (unfold PGSIZE in *;
      rewrite MAXVA_val in Hmax; lia).
    destruct (IH fuel (a + PGSIZE) _ _ G ltac:(lia) Ht1) as (s' & E & Ho & Ht' & Hlk' & Hf');
      [unfold PGSIZE in *; Z.div_mod_to_equations; lia|unfold PGSIZE; lia|lia|lia|done|].
    assert (unmapped_pages root s a (S n) = PTE2PA (lookup_pte (k_mem s) root a) ::
      unmapped_pages root (unmap_state root a do_free s) (a + PGSIZE) n) as Epg.
    { apply unmapped_pages_S. intros k Hk. rewrite Hlk1 by (unfold PGSIZE in *; lia).
      destruct (Z.eqb_spec ((a + PGSIZE + Z.of_nat k * PGSIZE) / PGSIZE) (a / PGSIZE)) as [Eq|_];
        [exfalso; unfold PGSIZE in *; Z.div_mod_to_equations; lia|]. f_equal. lia. }
    exists s'. split; [exact E|]. split; [|split; [|split]].
    + eapply mem_only_trans; [|exact Ho]. by destruct do_free.
    + unfold freed in *. destruct do_free; [|done]. by rewrite Epg, reverse_cons, <- app_assoc.
    + intros va Hva. rewrite Hlk', <- unmapped_S by done. unfold unmapped. by rewrite Hlk1.
    + intros b HG Hpgs. rewrite Hf', Hf1; [done|done| |done|].
      * intros Hd. apply (Hpgs Hd). rewrite Epg. by left.
      * intros Hd pa Hpa. apply (Hpgs Hd). rewrite Epg. by right.
Qed.

(** The contract of uvmunmap(): when the range is mapped, it ends, the range
    is unmapped, the rest of the table is as before, and with do_free its
    pages go to the allocator. *)
Lemma uvmunmap_ok root va npages do_free s l G :
  table root s l G -> va mod PGSIZE = 0 -> 0 <= va -> 0 <= npages ->
  va + npages * PGSIZE <= MAXVA -> unmappable root s l G va (Z.to_nat npages) do_free ->
  exists s', uvmunmap root va npages do_free s = Ok tt s' /\ mem_only s s' /\
    table root s' (freed root s va (Z.to_nat npages) do_free l) G /\
    (forall a, 0 <= a < MAXVA ->
       lookup_pte (k_mem s') root a = unmapped (lookup_pte (k_mem s) root) va (Z.to_nat npages) a) /\
    (forall b, (forall p x, G !! p = Some x -> b < p \/ p + PGSIZE <= b) ->
       (do_free = true -> forall pa, pa ∈ unmapped_pages root s va (Z.to_nat npages) ->
          b < pa \/ pa + PGSIZE <= b) ->
       k_mem s' b = k_mem s b).
Proof.
  intros Ht Hva Hva0 Hn Hmax Hun. unfold uvmunmap. rewrite (proj2 (Z.eqb_eq _ _) Hva). cbn [negb].
  rewrite MAXVA_val in Hmax. unfold PGSIZE in *. rewrite (u64_small (npages * 4096)), u64_small by lia.
  apply uvmunmap_loop_ok; unfold PGSIZE; rewrite ?MAXVA_val; try done; try lia.
  replace (va + npages * 4096 - va) with (npages * 4096) by lia. rewrite Z.div_mul by lia. lia.
Qed.

(** ** uvmcreate *)

Definition zeroed (q : Z) (s : kstate) : kstate :=
  k_set_mem (mem_set (k_mem (kalloc_state q s)) q 0 PGSIZE) (kalloc_state q s).

Lemma kmem_zeroed s q l : kmem_inv s (q :: l) -> kmem_inv (zeroed q s) l.
Proof.
  intros Hk. pose proof (kmem_nodup _ _ Hk) as [Hn _]%NoDup_cons.
  pose proof (kmem_pages _ _ Hk) as [Hq Hl]%Forall_cons. rewrite Forall_forall in Hl.
  apply kmem_inv_frame; [by apply kalloc_inv|apply mem_set_ok, (kalloc_inv _ _ _ Hk)|].
  intros x a Hx Ha. unfold mem_set at 1. rewrite (proj2 (in_range_false _ _ _)); [done|].
  destruct (pages_disjoint q x); [apply Hq|apply (Hl x Hx)|by intros ->|lia..].
Qed.

Lemma lookup_zero_page m q va :
  (forall a, q <= a < q + PGSIZE -> m a = 0) -> lookup_pte m q va = 0.
Proof. apply look_zero_page. Qed.

Lemma uvmcreate_ok s q l : vm_ok s (q :: l) ->
  uvmcreate s = Ok q (zeroed q s) /\ table q (zeroed q s) l {[q := (2%nat, 0)]} /\
  forall va, lookup_pte (k_mem (zeroed q s)) q va = 0.
Proof.
  intros [Hs Hu Hk]. pose proof (kmem_pages _ _ Hk) as [Hq _]%Forall_cons.
  pose proof (kmem_nodup _ _ Hk) as [Hn _]%NoDup_cons.
  assert (forall a, q <= a < q + PGSIZE -> k_mem (zeroed q s) a = 0) as Hz.
  { intros a Ha. cbn. unfold mem_set at 1. by rewrite (proj2 (in_range_true _ _ _) Ha). }
  split; [|split; [split|]].
  - unfold uvmcreate. mrun (kalloc_eq q l s Hs Hu Hk).
    rewrite (proj2 (Z.eqb_neq q 0)) by apply (page_ok_nonzero q Hq). done.
  - split; [done|done|by apply kmem_zeroed].
  - split; [apply lookup_singleton_eq|..].
    + intros p x [<- _]%lookup_singleton_Some. done.
    + intros p lv pre i [<- _]%lookup_singleton_Some Hi. rewrite load_zero; [done|].
      intros x Hx. apply Hz. pose proof (slot_in_page q i Hi). lia.
  - intros p Hp. apply lookup_singleton_ne. by intros ->.
  - intros va. by apply lookup_zero_page.
Qed.

Lemma uvmcreate_fails s : vm_ok s [] -> uvmcreate s = Ok 0 s.
Proof. intros [Hs Hu Hk]. unfold uvmcreate. by mrun (kalloc_empty s Hs Hu Hk). Qed.

Lemma vm_ok_free_pages s pages : vm_ok s [] -> NoDup pages -> Forall page_ok pages ->
  vm_ok (foldr kfree_state s pages) pages.
Proof.
  intros [Hs Hu Hk] Hn. induction Hn as [|p pages Hp _ IH]; intros Hok; [done|].
  apply Forall_cons in Hok as [Hpok Hok]. destruct (IH Hok) as [Hs' Hu' Hk'].
  split; [exact Hs'|exact Hu'|]. by apply kfree_inv.
Qed.

(** C9: mappages() on an unmapped, page-aligned range. It returns 0 and the
    range of virtual pages maps to the range of physical pages with the given
    permissions, or it returns -1 because the allocator ran empty, with a
    prefix of the range mapped; with two free pages for every page of the
    range it succeeds, and it never takes more for the table. No other mapping changes, nothing outside the
    table's own pages is written, and the table stays well formed: pages it
    gained came from the allocator. *)
Theorem mappages_maps root va size pa perm s l G :
  table root s l G -> 0 <= perm < 1024 ->
  va mod PGSIZE = 0 -> size mod PGSIZE = 0 -> 0 < size -> 0 <= va -> va + size <= MAXVA ->
  0 <= pa -> pa + size <= 2 ^ 56 ->
  (forall a, va <= a < va + size -> bit_set (lookup_pte (k_mem s) root a) PTE_V = false) ->
  exists r s' l' G' j, mappages root va size pa perm s = Ok r s' /\
    grown root s l G s' l' G' /\
    ((r = 0 /\ Z.of_nat j = size / PGSIZE /\ Z.of_nat (length l) <= 2 * (size / PGSIZE) + Z.of_nat (length l')) \/
     (r = -1 /\ l' = [] /\ Z.of_nat j < size / PGSIZE /\ Z.of_nat (length l) < 2 * (size / PGSIZE))) /\
    forall a, 0 <= a < MAXVA ->
      lookup_pte (k_mem s') root a = mapped (lookup_pte (k_mem s) root) va pa perm j a.
Proof. apply mappages_ok. Qed.

(** C26: uvmunmap() of a mapped range removes exactly that range and, when asked
    to free, gives exactly its physical pages to the allocator; every other
    mapping and all memory outside the table and those pages is unchanged. *)
Theorem uvmunmap_unmaps root va npages do_free s l G :
  table root s l G -> va mod PGSIZE = 0 -> 0 <= va -> 0 <= npages ->
  va + npages * PGSIZE <= MAXVA -> unmappable root s l G va (Z.to_nat npages) do_free ->
  exists s', uvmunmap root va npages do_free s = Ok tt s' /\ mem_only s s' /\
    table root s' (freed root s va (Z.to_nat npages) do_free l) G /\
    (forall a, 0 <= a < MAXVA ->
       lookup_pte (k_mem s') root a = unmapped (lookup_pte (k_mem s) root) va (Z.to_nat npages) a) /\
    (forall b, (forall p x, G !! p = Some x -> b < p \/ p + PGSIZE <= b) ->
       (do_free = true -> forall pa, pa ∈ unmapped_pages root s va (Z.to_nat npages) ->
          b < pa \/ pa + PGSIZE <= b) ->
       k_mem s' b = k_mem s b).
Proof. apply uvmunmap_ok. Qed.

End Table.

(** ** A table to evaluate the theorems on *)

Module Example.

Definition linker : Linker := Trace.example_linker.
#[local] Existing Instance linker.

Definition pages : list Z := (fun k => PHYSTOP - k * PGSIZE) <$> [8; 7; 6; 5; 4; 3; 2].
Definition data : Z := PHYSTOP - PGSIZE.
Definition root : Z := PHYSTOP - 8 * PGSIZE.
Definition user_rw : Z := Z.lor (Z.lor PTE_R PTE_W) PTE_U.

(** Seven free pages; the eighth, [data], is in use. *)
Definition start : kstate := foldr kfree_state Trace.example_boot pages.

(** An empty user page table. *)
Definition empty : kstate := zeroed root start.

Lemma start_ok : vm_ok start pages.
Proof.
  destruct Trace.example_booting as (Hs & Hu & Hf & Hm). apply vm_ok_free_pages.
  - split; [done|done|]. split; [exact Hf|constructor|constructor|exact Hm].
  - apply (bool_decide_unpack _). by vm_compute.
  - rewrite Forall_forall. intros x (k & -> & Hk)%list_elem_of_fmap.
    unfold page_ok, PHYSTOP, KERNBASE, PGSIZE. cbn [kend linker Trace.example_linker].
    set_unfold. naive_solver (vm_compute; intuition congruence).
Qed.

Lemma empty_table : table root empty (tail pages) {[root := (2%nat, 0)]} /\
  forall va, lookup_pte (k_mem empty) root va = 0.
Proof. apply (uvmcreate_ok start root (tail pages)), start_ok. Qed.

(** The first page of the address space mapped to [data]. *)
Lemma one_page_room : exists s l G, table root s l G /\ data ∉ l /\ G !! data = None /\ (4 <= length l)%nat /\
  forall a, 0 <= a < MAXVA -> lookup_pte (k_mem s) root a =
    if a / PGSIZE =? 0 then leaf_pte data user_rw else 0.
Proof.
  destruct empty_table as [Ht H0].
  destruct (mappages_ok root 0 PGSIZE data user_rw empty (tail pages) _ Ht
    ltac:(by vm_compute) ltac:(by vm_compute) ltac:(by vm_compute) ltac:(by vm_compute)
    ltac:(by vm_compute) ltac:(by vm_compute) ltac:(by vm_compute) ltac:(by vm_compute))
    as (r & s' & l' & G' & j & E & [Ho Ht' Hsub (tk & Etk & Hdom) _ _] & Hr & Hlk).
  - intros a _. by rewrite H0.
  - assert (r = 0) as ->.
    { transitivity (match mappages root 0 PGSIZE data user_rw empty with Ok r _ => r | _ => 1 end);
        [by rewrite E|]. by vm_compute. }
    clear E.
    assert (data ∉ tail pages) as Hd by (apply (bool_decide_unpack _); by vm_compute).
    rewrite Etk in Hd. apply not_elem_of_app in Hd as [Hd1 Hd2].
    destruct Hr as [(_ & Hj & Hn)|[? _]]; [|done]. assert (j = 1%nat) as -> by (change (PGSIZE / PGSIZE) with 1 in Hj; lia).
    exists s', l', G'. split; [done|]. split; [done|]. split; [|split].
    + apply eq_None_not_Some. rewrite Hdom. intros [[x Hx]|?]; [|done].
      apply lookup_singleton_Some in Hx as [Hx _]. by vm_compute in Hx.
    + change (PGSIZE / PGSIZE) with 1 in Hn. change (length (tail pages)) with 6%nat in Hn. lia.
    + intros a Ha. rewrite Hlk, mapped_1 by done. change (0 / PGSIZE) with 0. by rewrite H0.
Qed.

Lemma one_page : exists s l G, table root s l G /\ data ∉ l /\ G !! data = None /\
  forall a, 0 <= a < MAXVA -> lookup_pte (k_mem s) root a =
    if a / PGSIZE =? 0 then leaf_pte data user_rw else 0.
Proof. destruct one_page_room as (s & l & G & Ht & Hl & HG & _ & Hlk). by exists s, l, G. Qed.

Lemma mappages_maps_witness : exists r s' l' G' j,
  mappages root 0 (2 * PGSIZE) data user_rw empty = Ok r s' /\
  grown root empty (tail pages) {[root := (2%nat, 0)]} s' l' G' /\
  ((r = 0 /\ Z.of_nat j = 2 * PGSIZE / PGSIZE /\ Z.of_nat (length (tail pages)) <= 2 * (2 * PGSIZE / PGSIZE) + Z.of_nat (length l')) \/
   (r = -1 /\ l' = [] /\ Z.of_nat j < 2 * PGSIZE / PGSIZE /\ Z.of_nat (length (tail pages)) < 2 * (2 * PGSIZE / PGSIZE))) /\
  forall a, 0 <= a < MAXVA ->
    lookup_pte (k_mem s') root a = mapped (lookup_pte (k_mem empty) root) 0 data user_rw j a.
Proof.
  destruct empty_table as [Ht H0].
  apply (mappages_maps root 0 (2 * PGSIZE) data user_rw empty _ _ Ht
    ltac:(by vm_compute) ltac:(by vm_compute) ltac:(by vm_compute) ltac:(by vm_compute)
    ltac:(by vm_compute) ltac:(by vm_compute) ltac:(by vm_compute) ltac:(by vm_compute)).
  intros a _. by rewrite H0.
Defined.

Lemma uvmunmap_unmaps_witness : exists s s' l G, uvmunmap root 0 1 true s = Ok tt s' /\
  lookup_pte (k_mem s) root 0 = leaf_pte data user_rw /\ lookup_pte (k_mem s') root 0 = 0 /\
  table root s' (data :: l) G.
Proof.
  destruct one_page as (s & l & G & Ht & Hl & HG & Hlk).
  assert (lookup_pte (k_mem s) root 0 = leaf_pte data user_rw) as E0 by (by rewrite Hlk).
  destruct (uvmunmap_unmaps root 0 1 true s l G Ht ltac:(by vm_compute) ltac:(by vm_compute)
    ltac:(by vm_compute) ltac:(by vm_compute)) as (s' & E & _ & Ht' & Hlk' & _).
  - split.
    + intros k Hk. assert (k = 0%nat) as -> by lia. cbv zeta.
      change (0 + Z.of_nat 0 * PGSIZE) with 0. rewrite E0. by vm_compute.
    + intros _ k Hk. assert (k = 0%nat) as -> by lia. cbv zeta.
      change (0 + Z.of_nat 0 * PGSIZE) with 0. rewrite E0.
      replace (PTE2PA (leaf_pte data user_rw)) with data by by vm_compute.
      split; [by vm_compute|done].
    + intros _ k1 k2 Hk. lia.
  - exists s, s', l, G. split; [done|]. split; [done|]. split; [by rewrite Hlk'|].
    change (freed root s 0 (Z.to_nat 1) true l)
      with (PTE2PA (lookup_pte (k_mem s) root 0) :: l) in Ht'. rewrite E0 in Ht'.
    by replace (PTE2PA (leaf_pte data user_rw)) with data in Ht' by by vm_compute.
Defined.

End Example.
