(* ===== verification/VmCopy.v ===== *)
(** vm.c: copyin(), copyinstr() and copyout() against a byte-by-byte reading
    of user memory.

    [ubyte m root va] is the byte a user program sees at [va] (None when the
    page is not mapped for user access). The copy loops work a page at a time;
    the theorems say that they agree with [uread], [ustr] and [uwrite], which
    work a byte at a time. *)

From S2P Require Import Prelude Riscv State Spinlock Kalloc Vm VmTable.

(** ** Reference definitions *)

(** What walkaddr() returns. *)
Definition upage (m : mem) (root va : Z) : Z :=
  if MAXVA <=? va then 0 else
  let v := lookup_pte m root va in
  if bit_set v PTE_V && bit_set v PTE_U then PTE2PA v else 0.

Definition ubyte (m : mem) (root va : Z) : option Z :=
  let pa := upage m root va in
  if pa =? 0 then None else Some (m (pa + va mod PGSIZE)).

Fixpoint uread (m : mem) (root : Z) (n : nat) (va : Z) : option (list Z) :=
  match n with
  | O => Some []
  | S n => match ubyte m root va with
           | None => None
           | Some b => (b ::.) <$> uread m root n (va + 1)
           end
  end.

(** A nul-terminated string of at most [n] bytes, the terminator included. *)
Fixpoint ustr (m : mem) (root : Z) (n : nat) (va : Z) : option (list Z) :=
  match n with
  | O => None
  | S n => match ubyte m root va with
           | None => None
           | Some b => if b =? 0 then Some [0] else (b ::.) <$> ustr m root n (va + 1)
           end
  end.

(** The physical address behind a user-writable virtual address. *)
Definition ucell (m : mem) (root va : Z) : option Z :=
  if MAXVA <=? va then None else
  let v := lookup_pte m root va in
  if bit_set v PTE_V && bit_set v PTE_U && bit_set v PTE_W
  then Some (PTE2PA v + va mod PGSIZE) else None.

(** ** walkaddr *)

Section Copy.
Context `{L : Linker}.

Lemma bit_set_0 mask : bit_set 0 mask = false.
Proof. unfold bit_set. by rewrite Z.land_0_l. Qed.

Lemma walkaddr_eq root va s : walkaddr root va s = Ok (upage (k_mem s) root va) s.
Proof.
  unfold walkaddr, upage. destruct (Z.leb_spec MAXVA va); [done|].
  mrun (walk_lookup root va s ltac:(lia)). unfold lookup_pte.
  destruct (Z.eqb_spec (pt_walk (k_mem s) 2 root va) 0) as [E|_]; [by rewrite bit_set_0|].
  unfold kload64. mred. by destruct (bit_set _ PTE_V), (bit_set _ PTE_U).
Qed.

Lemma lookup_pte_page m root va va' : va / PGSIZE = va' / PGSIZE ->
  lookup_pte m root va = lookup_pte m root va'.
Proof. intros H. unfold lookup_pte. by rewrite (pt_walk_page m 2 va va' H). Qed.

Lemma MAXVA_page va va' : va / PGSIZE = va' / PGSIZE -> (MAXVA <=? va) = (MAXVA <=? va').
Proof.
  rewrite MAXVA_val. unfold PGSIZE. intros H.
  destruct (Z.leb_spec (2 ^ 38) va), (Z.leb_spec (2 ^ 38) va'); try done;
    exfalso; Z.div_mod_to_equations; lia.
Qed.

Lemma upage_page m root va va' : va / PGSIZE = va' / PGSIZE -> upage m root va = upage m root va'.
Proof.
  intros H. unfold upage. by rewrite (lookup_pte_page m root va va' H), (MAXVA_page va va' H).
Qed.

Lemma PGROUNDDOWN_page va : 0 <= va < 2 ^ 64 -> PGROUNDDOWN va / PGSIZE = va / PGSIZE.
Proof. intros H. rewrite PGROUNDDOWN_eq by done. unfold PGSIZE. Z.div_mod_to_equations. lia. Qed.

(** [n] bytes from [va] that stay on one page. *)
Lemma uread_in_page m root n va :
  (0 < n)%nat -> va mod PGSIZE + Z.of_nat n <= PGSIZE ->
  uread m root n va =
    if upage m root va =? 0 then None
    else Some (mem_read m (upage m root va + va mod PGSIZE) n).
Proof.
  induction n as [|n IH] in va |- *; [lia|]. intros _ Hn. cbn [uread]. unfold ubyte.
  destruct (Z.eqb_spec (upage m root va) 0) as [E|E]; [done|].
  rewrite mem_read_S. destruct n as [|n]; [done|].
  assert ((va + 1) / PGSIZE = va / PGSIZE /\ (va + 1) mod PGSIZE = va mod PGSIZE + 1) as [E1 E2]
    by (unfold PGSIZE in *; Z.div_mod_to_equations; lia).
  rewrite IH, (upage_page m root _ _ E1), (proj2 (Z.eqb_neq _ _) E), E2 by lia.
  cbn. by rewrite Z.add_assoc.
Qed.

Lemma uread_app m root n k va :
  uread m root (n + k) va =
    match uread m root n va with
    | Some b => (b ++.) <$> uread m root k (va + Z.of_nat n)
    | None => None
    end.
Proof.
  induction n as [|n IH] in va |- *; cbn [uread Nat.add].
  - rewrite Z.add_0_r. by destruct (uread m root k va).
  - destruct (ubyte m root va) as [b|]; [|done]. rewrite IH.
    replace (va + 1 + Z.of_nat n) with (va + Z.of_nat (S n)) by lia.
    destruct (uread m root n (va + 1)); [|done]. cbn.
    by destruct (uread m root k _).
Qed.

(** The chunk of a copy that the loop handles in one iteration: [n1] bytes on
    the page of [va], then the rest from the next page. *)
Lemma chunk va len n :
  0 <= va < 2 ^ 64 -> 0 < len -> (va mod PGSIZE + len + PGSIZE - 1) / PGSIZE <= Z.of_nat (S n) ->
  let n1 := Z.min (PGSIZE - (va - PGROUNDDOWN va)) len in
  va - PGROUNDDOWN va = va mod PGSIZE /\ 0 < n1 <= len /\ va mod PGSIZE + n1 <= PGSIZE /\
  (va < MAXVA -> 0 <= u64 (PGROUNDDOWN va + PGSIZE) < 2 ^ 64 /\
     (n1 < len -> u64 (PGROUNDDOWN va + PGSIZE) = va + n1) /\
     (u64 (PGROUNDDOWN va + PGSIZE) mod PGSIZE + (len - n1) + PGSIZE - 1) / PGSIZE <= Z.of_nat n).
Proof.
  intros Hva Hlen Hf n1. assert (va - PGROUNDDOWN va = va mod PGSIZE) as E.
  { rewrite PGROUNDDOWN_eq by done. unfold PGSIZE. Z.div_mod_to_equations. lia. }
  assert (0 <= va mod PGSIZE < PGSIZE) as Hm by (apply Z.mod_pos_bound; done).
  assert (n1 = Z.min (PGSIZE - va mod PGSIZE) len) as En by (unfold n1; by rewrite E). clearbody n1.
  split; [done|]. split; [lia|]. split; [lia|]. rewrite MAXVA_val. intros Hmax.
  assert (u64 (PGROUNDDOWN va + PGSIZE) = va - va mod PGSIZE + PGSIZE) as E2.
  { rewrite u64_small by (unfold PGSIZE in *; lia). lia. }
  rewrite E2. split; [unfold PGSIZE in *; lia|]. split; [lia|].
  assert ((va - va mod PGSIZE + PGSIZE) mod PGSIZE = 0) as ->
    by (unfold PGSIZE; Z.div_mod_to_equations; lia).
  unfold PGSIZE in *. Z.div_mod_to_equations. lia.
Qed.

Lemma upage_user m root va : upage m root va <> 0 -> va < MAXVA.
Proof. unfold upage. by destruct (Z.leb_spec MAXVA va). Qed.

Lemma fuel_positive va len : 0 < len -> ~ (va mod PGSIZE + len + PGSIZE - 1) / PGSIZE <= Z.of_nat 0.
Proof. unfold PGSIZE. intros H. Z.div_mod_to_equations. lia. Qed.

(** ** copyin *)

Lemma copyin_loop_0 root s n srcva : copyin_loop n root srcva 0 s = Ok (0, []) s.
Proof. by destruct n. Qed.

Lemma copyin_loop_ok root s n : forall srcva len,
  0 <= srcva < 2 ^ 64 -> 0 <= len -> (srcva mod PGSIZE + len + PGSIZE - 1) / PGSIZE <= Z.of_nat n ->
  exists bs, copyin_loop n root srcva len s =
    match uread (k_mem s) root (Z.to_nat len) srcva with
    | Some b => Ok (0, b) s
    | None => Ok (-1, bs) s
    end.
Proof.
  induction n as [|n IH]; intros srcva len Hva Hlen Hf.
  all: destruct (Z.eq_dec len 0) as [->|Hl0]; [exists []; apply copyin_loop_0|].
  { exfalso. eapply fuel_positive; [|exact Hf]. lia. }
  destruct (chunk srcva len n Hva ltac:(lia) Hf) as (Er & Hn1 & Hpg & Hnext).
  cbn [copyin_loop]. rewrite (proj2 (Z.ltb_lt 0 len)) by lia.
  set (n1 := Z.min (PGSIZE - (srcva - PGROUNDDOWN srcva)) len) in *. clearbody n1.
  rewrite Er. mrun (walkaddr_eq root (PGROUNDDOWN srcva) s).
  rewrite (upage_page _ _ _ _ (PGROUNDDOWN_page srcva Hva)).
  replace (Z.to_nat len) with (Z.to_nat n1 + Z.to_nat (len - n1))%nat by lia.
  rewrite uread_app, uread_in_page by lia.
  destruct (Z.eqb_spec (upage (k_mem s) root srcva) 0) as [E|E]; [by exists []|].
  destruct (Hnext (upage_user _ _ _ E)) as (Hu & Hn & Hf').
  destruct (IH _ (len - n1) Hu ltac:(lia) Hf') as (bs & Eb).
  exists (mem_read (k_mem s) (upage (k_mem s) root srcva + srcva mod PGSIZE) (Z.to_nat n1) ++ bs).
  mred. unfold bind at 1. rewrite Eb.
  destruct (Z.eq_dec n1 len) as [En|En].
  - rewrite En, Z.sub_diag. cbn. done.
  - rewrite Hn by lia. replace (srcva + Z.of_nat (Z.to_nat n1)) with (srcva + n1) by lia.
    by destruct (uread (k_mem s) root (Z.to_nat (len - n1)) (srcva + n1)).
Qed.

(** ** copyinstr *)

Lemma ustr_in_page m root k n va :
  upage m root va <> 0 -> va mod PGSIZE + Z.of_nat n <= PGSIZE ->
  ustr m root (n + k) va =
    let '(d, g) := copyinstr_scan (mem_read m (upage m root va + va mod PGSIZE) n) in
    if g then Some d else (d ++.) <$> ustr m root k (va + Z.of_nat n).
Proof.
  intros Hp. induction n as [|n IH] in va, Hp |- *; intros Hn.
  { rewrite Z.add_0_r. change (mem_read _ _ 0) with (@nil Z). cbn. by destruct (ustr m root k va). }
  cbn [ustr Nat.add]. rewrite mem_read_S. cbn [copyinstr_scan]. unfold ubyte at 1.
  rewrite (proj2 (Z.eqb_neq _ _) Hp). destruct (_ =? 0); [done|].
  destruct n as [|n].
  { change (mem_read m (upage m root va + va mod PGSIZE + 1) 0) with (@nil Z).
    change (Z.of_nat 1) with 1. cbn. by destruct (ustr m root k (va + 1)). }
  assert ((va + 1) / PGSIZE = va / PGSIZE /\ (va + 1) mod PGSIZE = va mod PGSIZE + 1) as [E1 E2]
    by (unfold PGSIZE in *; Z.div_mod_to_equations; lia).
  rewrite IH by (rewrite ?(upage_page m root _ _ E1), ?E2; (done || lia)).
  rewrite (upage_page m root _ _ E1), E2, Z.add_assoc.
  destruct (copyinstr_scan _) as [d []]; [done|].
  replace (va + 1 + Z.of_nat (S n)) with (va + Z.of_nat (S (S n))) by lia.
  by destruct (ustr m root k (va + Z.of_nat (S (S n)))).
Qed.

Lemma copyinstr_loop_0 root s n srcva : copyinstr_loop n root srcva 0 s = Ok (-1, []) s.
Proof. by destruct n. Qed.

Lemma copyinstr_loop_ok root s n : forall srcva max,
  0 <= srcva < 2 ^ 64 -> 0 <= max -> (srcva mod PGSIZE + max + PGSIZE - 1) / PGSIZE <= Z.of_nat n ->
  exists bs, copyinstr_loop n root srcva max s =
    match ustr (k_mem s) root (Z.to_nat max) srcva with
    | Some d => Ok (0, d) s
    | None => Ok (-1, bs) s
    end.
Proof.
  induction n as [|n IH]; intros srcva max Hva Hlen Hf.
  all: destruct (Z.eq_dec max 0) as [->|Hl0]; [exists []; apply copyinstr_loop_0|].
  { exfalso. eapply fuel_positive; [|exact Hf]. lia. }
  destruct (chunk srcva max n Hva ltac:(lia) Hf) as (Er & Hn1 & Hpg & Hnext).
  cbn [copyinstr_loop]. rewrite (proj2 (Z.ltb_lt 0 max)) by lia.
  set (n1 := Z.min (PGSIZE - (srcva - PGROUNDDOWN srcva)) max) in *. clearbody n1.
  rewrite Er. mrun (walkaddr_eq root (PGROUNDDOWN srcva) s).
  rewrite (upage_page _ _ _ _ (PGROUNDDOWN_page srcva Hva)).
  replace (Z.to_nat max) with (Z.to_nat n1 + Z.to_nat (max - n1))%nat by lia.
  destruct (Z.eqb_spec (upage (k_mem s) root srcva) 0) as [E|E].
  { exists []. destruct (Z.to_nat n1) eqn:En; [lia|]. cbn [Nat.add ustr]. unfold ubyte.
    by rewrite E. }
  destruct (Hnext (upage_user _ _ _ E)) as (Hu & Hn & Hf').
  rewrite ustr_in_page by (done || lia). mred.
  destruct (copyinstr_scan _) as [d []]; [by exists []|].
  destruct (IH _ (max - n1) Hu ltac:(lia) Hf') as (bs & Eb).
  exists (d ++ bs). unfold bind at 1. rewrite Eb.
  destruct (Z.eq_dec n1 max) as [En|En].
  - by rewrite En, Z.sub_diag.
  - rewrite Hn by lia. replace (srcva + Z.of_nat (Z.to_nat n1)) with (srcva + n1) by lia.
    by destruct (ustr (k_mem s) root (Z.to_nat (max - n1)) (srcva + n1)).
Qed.

(** The fuel of the three functions is enough. *)
Lemma copy_fuel va len : 0 <= len ->
  (va mod PGSIZE + len + PGSIZE - 1) / PGSIZE <= Z.of_nat (Z.to_nat (len / PGSIZE + 2)).
Proof.
  intros H. unfold PGSIZE. assert (0 <= len / 4096) by (apply Z.div_pos; lia).
  rewrite Z2Nat.id by lia. Z.div_mod_to_equations. lia.
Qed.

(** ** copyout *)

(** The physical bytes behind [len] user bytes at [va] are not page-table
    bytes, and no two virtual addresses share one. *)
Record safe_range (m : mem) (root : Z) (G : gmap Z (nat * Z)) (va len : Z) : Prop := {
  sr_table : forall i pa p x, 0 <= i < len -> ucell m root (va + i) = Some pa ->
    G !! p = Some x -> pa < p \/ p + PGSIZE <= pa;
  sr_inj : forall i j pa, 0 <= i < len -> 0 <= j < len -> ucell m root (va + i) = Some pa ->
    ucell m root (va + j) = Some pa -> i = j
}.

(** What copyout() leaves in memory: the bytes of [src] behind the range when
    it succeeds; nothing outside of it, and the same mappings. *)
Record copied (m : mem) (root : Z) (va : Z) (src : list Z) (len : Z) (r : Z) (m' : mem) : Prop := {
  co_frame : forall a, (forall i, 0 <= i < len -> ucell m root (va + i) <> Some a) -> m' a = m a;
  co_cell : forall a, 0 <= a -> ucell m' root a = ucell m root a;
  co_result : (r = 0 /\ forall i, 0 <= i < len -> exists pa, ucell m root (va + i) = Some pa /\
                 src !! Z.to_nat i = Some (m' pa)) \/
              (r = -1 /\ exists i, 0 <= i < len /\ ucell m root (va + i) = None)
}.

Lemma ucell_in_page m root va pa i :
  ucell m root va = Some pa -> 0 <= va mod PGSIZE + i < PGSIZE -> ucell m root (va + i) = Some (pa + i).
Proof.
  unfold ucell. intros H Hi.
  assert ((va + i) / PGSIZE = va / PGSIZE /\ (va + i) mod PGSIZE = va mod PGSIZE + i) as [E1 E2]
    by (unfold PGSIZE in *; Z.div_mod_to_equations; lia).
  rewrite (MAXVA_page _ _ E1), (lookup_pte_page _ _ _ _ E1), E2.
  destruct (MAXVA <=? va); [done|]. destruct (_ && _); [|done]. injection H as <-. f_equal. lia.
Qed.

Lemma ucell_none_page m root va va' : va / PGSIZE = va' / PGSIZE ->
  ucell m root va = None -> ucell m root va' = None.
Proof.
  intros E. unfold ucell. rewrite (MAXVA_page _ _ E), (lookup_pte_page _ _ _ _ E).
  destruct (MAXVA <=? va'); [done|]. by destruct (_ && _).
Qed.

Lemma mem_write_frame m root G va len pa n (src : list Z) :
  0 <= va < 2 ^ 64 -> pt_inv m root G -> safe_range m root G va len -> ucell m root va = Some pa ->
  Z.of_nat (length src) = n -> 0 < n <= len -> va mod PGSIZE + n <= PGSIZE ->
  let m' := mem_write m pa src in
  pt_inv m' root G /\ (forall a, 0 <= a -> ucell m' root a = ucell m root a) /\
  (forall a, (forall i, 0 <= i < n -> ucell m root (va + i) <> Some a) -> m' a = m a).
Proof.
  intros Hva0 HI Hs Hc Hlen Hn Hpg m'.
  assert (0 <= va mod PGSIZE) by (apply Z.mod_pos_bound; done).
  assert (forall i, 0 <= i < n -> ucell m root (va + i) = Some (pa + i)) as Hci
    by (intros; apply ucell_in_page; [done|lia]).
  assert (forall a, (forall i, 0 <= i < n -> ucell m root (va + i) <> Some a) -> m' a = m a) as Hf.
  { intros a Ha. apply mem_write_out. destruct (decide (pa <= a < pa + n)); [|lia].
    exfalso. apply (Ha (a - pa)); [lia|]. rewrite Hci by lia. f_equal. lia. }
  destruct (lookup_frame m m' root G HI) as (HI' & _ & Hlk).
  { intros p x a Hp Ha. apply Hf. intros i Hi Hcell.
    destruct (sr_table _ _ _ _ _ Hs i a p x); try done; lia. }
  split; [done|]. split; [|done]. intros a Ha. unfold ucell.
  destruct (Z.leb_spec MAXVA a); [done|]. by rewrite Hlk by lia.
Qed.

Lemma copied_0 m root va src : copied m root va src 0 0 m.
Proof. split; [done|done|]. left. split; [done|]. lia. Qed.

(** A chunk that was written, then the rest. *)
Lemma copied_app m root G va src len n1 pa r m' :
  0 <= va < 2 ^ 64 -> pt_inv m root G -> safe_range m root G va len -> ucell m root va = Some pa ->
  0 < n1 <= len -> va mod PGSIZE + n1 <= PGSIZE -> len <= Z.of_nat (length src) ->
  let m1 := mem_write m pa (take (Z.to_nat n1) src) in
  copied m1 root (va + n1) (drop (Z.to_nat n1) src) (len - n1) r m' ->
  copied m root va src len r m'.
Proof.
  intros Hva0 HI Hs Hc Hn Hpg Hlen m1 [Hf Hcell Hr].
  assert (Z.of_nat (length (take (Z.to_nat n1) src)) = n1) as Hlt by (rewrite length_take; lia).
  destruct (mem_write_frame m root G va len pa n1 _ Hva0 HI Hs Hc Hlt Hn Hpg) as (HI1 & Hc1 & Hf1).
  fold m1 in HI1, Hc1, Hf1.
  assert (0 <= va mod PGSIZE) by (apply Z.mod_pos_bound; done).
  assert (forall i, 0 <= i < n1 -> ucell m root (va + i) = Some (pa + i)) as Hci
    by (intros; apply ucell_in_page; [done|lia]).
  split.
  - intros a Ha. rewrite Hf, Hf1; [done|intros i Hi; apply Ha; lia|].
    intros i Hi. rewrite Hc1 by lia. replace (va + n1 + i) with (va + (n1 + i)) by lia. apply Ha. lia.
  - intros a Ha. rewrite Hcell by done. by apply Hc1.
  - destruct Hr as [[-> Hr]|[-> (i & Hi & Hnone)]].
    + left. split; [done|]. intros i Hi. destruct (decide (i < n1)) as [Hlt1|Hge].
      * exists (pa + i). split; [apply Hci; lia|]. rewrite Hf.
        -- destruct (lookup_lt_is_Some_2 src (Z.to_nat i)) as [b Hb]; [lia|]. rewrite Hb. f_equal.
           unfold m1. symmetry. replace (pa + i) with (pa + Z.of_nat (Z.to_nat i)) by lia.
           apply mem_write_lookup. by rewrite lookup_take_lt by lia.
        -- intros j Hj. rewrite Hc1 by lia. replace (va + n1 + j) with (va + (n1 + j)) by lia.
           intros Hcj. pose proof (sr_inj _ _ _ _ _ Hs i (n1 + j) (pa + i)) as Hinj.
           rewrite Hci in Hinj by lia. specialize (Hinj ltac:(lia) ltac:(lia) eq_refl Hcj). lia.
      * destruct (Hr (i - n1)) as (pa' & Hp & Hsrc); [lia|]. rewrite Hc1 in Hp by lia.
        exists pa'. split; [rewrite <- Hp; f_equal; lia|].
        rewrite lookup_drop in Hsrc. rewrite <- Hsrc. f_equal. lia.
    + right. split; [done|]. exists (n1 + i). split; [lia|]. rewrite Hc1 in Hnone by lia.
      by rewrite Z.add_assoc.
Qed.

Lemma safe_range_rest m root G va len pa n1 (src : list Z) :
  0 <= va < 2 ^ 64 -> pt_inv m root G -> safe_range m root G va len -> ucell m root va = Some pa ->
  Z.of_nat (length src) = n1 -> 0 < n1 <= len -> va mod PGSIZE + n1 <= PGSIZE ->
  safe_range (mem_write m pa src) root G (va + n1) (len - n1).
Proof.
  intros Hva0 HI Hs Hc Hl Hn Hpg.
  destruct (mem_write_frame m root G va len pa n1 _ Hva0 HI Hs Hc Hl Hn Hpg) as (_ & Hc1 & _).
  destruct Hs as [H1 H2]. split.
  - intros i a p x Hi. rewrite Hc1, <- Z.add_assoc by lia. apply H1. lia.
  - intros i j a Hi Hj. rewrite !Hc1, <- !Z.add_assoc by lia. intros Hci Hcj.
    specialize (H2 (n1 + i) (n1 + j) a ltac:(lia) ltac:(lia) Hci Hcj). lia.
Qed.

Lemma copyout_loop_0 root s n dstva src : copyout_loop n root dstva src 0 s = Ok 0 s.
Proof. by destruct n. Qed.

(** One iteration: the page is not writable and the loop stops, or the chunk
    is written at its physical address. *)
Lemma copyout_page root va s (k : Z -> K Z) : 0 <= va < 2 ^ 64 ->
  (if MAXVA <=? PGROUNDDOWN va then ret (-1) else
   pte <- walk root (PGROUNDDOWN va) false;;
   if pte =? 0 then ret (-1) else
   v <- kload64 pte;;
   if negb (bit_set v PTE_V) || negb (bit_set v PTE_U) || negb (bit_set v PTE_W)
   then ret (-1) else k (PTE2PA v)) s =
  match ucell (k_mem s) root va with
  | Some pa => k (pa - va mod PGSIZE) s
  | None => Ok (-1) s
  end.
Proof.
  intros Hva. pose proof (PGROUNDDOWN_page va Hva) as Hpg. unfold ucell.
  rewrite <- (MAXVA_page _ _ Hpg), <- (lookup_pte_page _ _ _ _ Hpg).
  destruct (Z.leb_spec MAXVA (PGROUNDDOWN va)); [done|].
  mrun (walk_lookup root (PGROUNDDOWN va) s ltac:(lia)). unfold lookup_pte.
  destruct (Z.eqb_spec (pt_walk (k_mem s) 2 root (PGROUNDDOWN va)) 0); [by rewrite bit_set_0|].
  unfold kload64. mred.
  destruct (bit_set _ PTE_V), (bit_set _ PTE_U), (bit_set _ PTE_W); cbn [negb orb andb]; try done.
  f_equal. f_equal. lia.
Qed.

Lemma copyout_loop_ok root G n : forall dstva src len s,
  0 <= dstva < 2 ^ 64 -> 0 <= len <= Z.of_nat (length src) ->
  (dstva mod PGSIZE + len + PGSIZE - 1) / PGSIZE <= Z.of_nat n ->
  pt_inv (k_mem s) root G -> safe_range (k_mem s) root G dstva len ->
  exists r m', copyout_loop n root dstva src len s = Ok r (k_set_mem m' s) /\
    copied (k_mem s) root dstva src len r m'.
Proof.
  induction n as [|n IH]; intros dstva src len s Hva Hlen Hf HI Hs.
  all: destruct (Z.eq_dec len 0) as [->|Hl0];
    [exists 0, (k_mem s); split; [apply copyout_loop_0|apply copied_0]|].
  { exfalso. eapply fuel_positive; [|exact Hf]. lia. }
  destruct (chunk dstva len n Hva ltac:(lia) Hf) as (Er & Hn1 & Hpg & Hnext).
  cbn [copyout_loop]. rewrite (proj2 (Z.ltb_lt 0 len)) by lia.
  set (n1 := Z.min (PGSIZE - (dstva - PGROUNDDOWN dstva)) len) in *. clearbody n1.
  rewrite Er, (copyout_page root dstva s (fun pa0 =>
    modify (fun s0 => k_set_mem (mem_write (k_mem s0) (pa0 + dstva mod PGSIZE) (take (Z.to_nat n1) src)) s0);;
    copyout_loop n root (u64 (PGROUNDDOWN dstva + PGSIZE)) (drop (Z.to_nat n1) src) (len - n1))) by done.
  destruct (ucell (k_mem s) root dstva) as [pa|] eqn:Ec.
  2: { exists (-1), (k_mem s). split; [done|]. split; [done|done|]. right. split; [done|].
       exists 0. rewrite Z.add_0_r. split; [lia|done]. }
  mred. replace (pa - dstva mod PGSIZE + dstva mod PGSIZE) with pa by lia.
  set (m1 := mem_write (k_mem s) pa (take (Z.to_nat n1) src)).
  assert (dstva < MAXVA) as Hmax
    by (unfold ucell in Ec; destruct (Z.leb_spec MAXVA dstva); [done|lia]).
  destruct (Hnext Hmax) as (Hu & Hn & Hf').
  assert (Z.of_nat (length (take (Z.to_nat n1) src)) = n1) as Hlt by (rewrite length_take; lia).
  destruct (mem_write_frame (k_mem s) root G dstva len pa n1 _ Hva HI Hs Ec Hlt Hn1 Hpg) as (HI1 & _ & _).
  pose proof (safe_range_rest (k_mem s) root G dstva len pa n1 _ Hva HI Hs Ec Hlt Hn1 Hpg) as Hs1.
  assert (exists r m', copyout_loop n root (u64 (PGROUNDDOWN dstva + PGSIZE)) (drop (Z.to_nat n1) src)
     (len - n1) (k_set_mem m1 s) = Ok r (k_set_mem m' s) /\
     copied m1 root (dstva + n1) (drop (Z.to_nat n1) src) (len - n1) r m') as (r & m' & E & Hcp).
  { destruct (Z.eq_dec n1 len) as [En|En].
    - rewrite En, Z.sub_diag. exists 0, m1. split; [apply copyout_loop_0|apply copied_0].
    - rewrite Hn by lia. rewrite Hn in Hf', Hu by lia.
      apply (IH (dstva + n1) (drop (Z.to_nat n1) src) (len - n1) (k_set_mem m1 s)); try done.
      rewrite length_drop. lia. }
  exists r, m'. split; [exact E|]. eapply (copied_app _ _ G _ _ _ n1 pa); try done. lia.
Qed.

(** ** Reading back *)

Lemma uread_bytes m root (src : list Z) : forall va,
  (forall i, 0 <= i < Z.of_nat (length src) -> exists b, ubyte m root (va + i) = Some b /\
     src !! Z.to_nat i = Some b) ->
  uread m root (length src) va = Some src.
Proof.
  induction src as [|c src IH]; intros va H; [done|]. cbn [length uread].
  destruct (H 0) as (b & Hb & Hc); [cbn [length]; lia|]. rewrite Z.add_0_r in Hb. rewrite Hb.
  injection Hc as ->. rewrite IH; [done|]. intros i Hi.
  destruct (H (1 + i)) as (b' & Hb' & Hc'); [cbn [length]; lia|]. exists b'.
  rewrite Z.add_assoc in Hb'. split; [done|].
  replace (Z.to_nat (1 + i)) with (S (Z.to_nat i)) in Hc' by lia. done.
Qed.

Lemma ucell_ubyte m root va pa : ucell m root va = Some pa -> PGSIZE <= pa -> ubyte m root va = Some (m pa).
Proof.
  unfold ucell, ubyte, upage. destruct (MAXVA <=? va); [done|].
  destruct (bit_set _ PTE_V), (bit_set _ PTE_U), (bit_set _ PTE_W); cbn [andb]; try done.
  intros [= <-] Hpa. assert (0 <= va mod PGSIZE < PGSIZE) by (apply Z.mod_pos_bound; done).
  by rewrite (proj2 (Z.eqb_neq _ _)) by lia.
Qed.

(** ** What the three functions promise *)

(** copyin() returns 0 with the bytes the user program sees at
    [srcva, srcva + len) when all of them are mapped for user access, and -1
    otherwise. It always ends and changes nothing. *)
Theorem copyin_reads root srcva len s :
  0 <= srcva < 2 ^ 64 -> 0 <= len < 2 ^ 64 ->
  exists bs, copyin root srcva len s =
    match uread (k_mem s) root (Z.to_nat len) srcva with
    | Some b => Ok (0, b) s
    | None => Ok (-1, bs) s
    end.
Proof. intros. apply copyin_loop_ok; [done|lia|]. apply copy_fuel. lia. Qed.

(** copyinstr() returns 0 with the string up to and including its
    terminator when one lies within the next [max] user-accessible bytes, and
    -1 when an inaccessible byte or [max] comes first. *)
Theorem copyinstr_reads root srcva max s :
  0 <= srcva < 2 ^ 64 -> 0 <= max < 2 ^ 64 ->
  exists bs, copyinstr root srcva max s =
    match ustr (k_mem s) root (Z.to_nat max) srcva with
    | Some d => Ok (0, d) s
    | None => Ok (-1, bs) s
    end.
Proof. intros. apply copyinstr_loop_ok; [done|lia|]. apply copy_fuel. lia. Qed.

(** copyout() to a user range whose physical bytes are neither page-table
    bytes nor shared ends with 0 and every user-writable byte of the range
    holding the byte of [src], or with -1 because some byte of the range is not
    user-writable; no other byte of memory and no mapping changes. *)
Theorem copyout_writes root G dstva src len s :
  0 <= dstva < 2 ^ 64 -> 0 <= len <= Z.of_nat (length src) ->
  pt_inv (k_mem s) root G -> safe_range (k_mem s) root G dstva len ->
  exists r m', copyout root dstva src len s = Ok r (k_set_mem m' s) /\
    copied (k_mem s) root dstva src len r m'.
Proof. intros. apply (copyout_loop_ok root G); try done. apply copy_fuel. lia. Qed.

(** copyin() reads back what copyout() wrote. *)
Theorem copyout_copyin root G dstva src s s' :
  0 <= dstva < 2 ^ 64 -> Z.of_nat (length src) < 2 ^ 64 ->
  pt_inv (k_mem s) root G -> safe_range (k_mem s) root G dstva (Z.of_nat (length src)) ->
  (forall i pa, 0 <= i < Z.of_nat (length src) -> ucell (k_mem s) root (dstva + i) = Some pa -> PGSIZE <= pa) ->
  copyout root dstva src (Z.of_nat (length src)) s = Ok 0 s' ->
  copyin root dstva (Z.of_nat (length src)) s' = Ok (0, src) s'.
Proof.
  intros Hva Hlen HI Hs Hpa E.
  destruct (copyout_loop_ok root G _ dstva src (Z.of_nat (length src)) s Hva ltac:(lia)
    (copy_fuel dstva (Z.of_nat (length src)) ltac:(lia)) HI Hs) as (r & m' & E' & [_ Hc Hr]).
  unfold copyout in E. rewrite E in E'. injection E' as <- ->.
  destruct Hr as [[_ Hr]|[? _]]; [|done].
  destruct (copyin_loop_ok root (k_set_mem m' s) _ dstva (Z.of_nat (length src)) Hva ltac:(lia)
    (copy_fuel dstva (Z.of_nat (length src)) ltac:(lia))) as (bs & Ein).
  unfold copyin. rewrite Ein, Nat2Z.id, uread_bytes; [done|].
  intros i Hi. destruct (Hr i Hi) as (pa & Hcell & Hsrc). exists (m' pa). split; [|done].
  apply ucell_ubyte; [cbn; rewrite Hc by lia; done|by eapply Hpa].
Qed.

End Copy.

(** ** The theorems on a user page *)

Module CopyExample.
Import Example.
#[local] Existing Instance linker.

Lemma one_page_cells : exists s G, pt_inv (k_mem s) root G /\
  (forall i, 0 <= i < PGSIZE -> ucell (k_mem s) root i = Some (data + i)) /\
  safe_range (k_mem s) root G 0 PGSIZE.
Proof.
  destruct one_page as (s & l & G & Ht & Hl & HG & Hlk).
  pose proof (tb_inv _ _ _ _ Ht) as HI.
  assert (forall i, 0 <= i < PGSIZE -> ucell (k_mem s) root i = Some (data + i)) as Hc.
  { intros i Hi. unfold ucell. rewrite (proj2 (Z.leb_gt MAXVA i)) by (unfold PGSIZE in *; rewrite MAXVA_val; lia).
    rewrite Hlk by (unfold PGSIZE in *; rewrite MAXVA_val; lia). rewrite Z.div_small by done.
    rewrite Z.mod_small by done.
    change (Some (PTE2PA (leaf_pte data user_rw) + i) = Some (data + i)).
    by replace (PTE2PA (leaf_pte data user_rw)) with data by by vm_compute. }
  exists s, G. split; [done|]. split; [done|]. split.
  - intros i pa p x Hi. rewrite Z.add_0_l, Hc by done. intros [= <-] Hp.
    assert (p <> data) by (intros ->; congruence). pose proof (pt_page_aligned HI _ _ Hp).
    destruct (pages_disjoint p data); [done|by vm_compute|done|lia..].
  - intros i j pa Hi Hj. rewrite !Z.add_0_l, !Hc by done. intros [= <-] [= ?]. lia.
Qed.

Lemma copyin_reads_witness : exists s b, copyin root 10 5 s = Ok (0, b) s.
Proof.
  destruct one_page_cells as (s & G & HI & Hc & _).
  destruct (copyin_reads root 10 5 s) as (bs & E); [by vm_compute..|].
  exists s. destruct (uread (k_mem s) root (Z.to_nat 5) 10) as [b|] eqn:Eu; [by exists b|exfalso].
  rewrite (uread_bytes _ _ (mem_read (k_mem s) (data + 10) 5) 10) in Eu; [done|].
  intros i Hi. rewrite length_mem_read in Hi. exists (k_mem s (data + (10 + i))). split.
  - apply ucell_ubyte; [apply Hc; unfold PGSIZE; lia|]. unfold data, PHYSTOP, KERNBASE, PGSIZE. lia.
  - rewrite mem_read_lookup by lia. f_equal. f_equal. lia.
Defined.

Lemma copyinstr_reads_witness : exists s bs, copyinstr root 4096 5 s = Ok (-1, bs) s.
Proof.
  destruct one_page as (s & l & G & _ & _ & _ & Hlk).
  destruct (copyinstr_reads root 4096 5 s) as (bs & E); [by vm_compute..|].
  exists s, bs. rewrite E. change (Z.to_nat 5) with 5%nat. cbn [ustr]. unfold ubyte, upage.
  by rewrite Hlk.
Defined.

Lemma small_range : exists s G, pt_inv (k_mem s) root G /\
  (forall i, 0 <= i < 3 -> ucell (k_mem s) root (10 + i) = Some (data + (10 + i))) /\
  safe_range (k_mem s) root G 10 3.
Proof.
  destruct one_page_cells as (s & G & HI & Hc & [H1 H2]). exists s, G. split; [done|]. split.
  - intros i Hi. apply Hc. unfold PGSIZE. lia.
  - split; [intros i pa p x Hi; apply (H1 (10 + i)); unfold PGSIZE; lia|].
    intros i j pa Hi Hj Hci Hcj. specialize (H2 (10 + i) (10 + j) pa).
    enough (10 + i = 10 + j) by lia. apply H2; (done || unfold PGSIZE; lia).
Qed.

Lemma copyout_writes_witness : exists s m', copyout root 10 [1; 2; 3] 3 s = Ok 0 (k_set_mem m' s) /\
  m' (data + 11) = 2.
Proof.
  destruct small_range as (s & G & HI & Hc & Hs).
  destruct (copyout_writes root G 10 [1; 2; 3] 3 s) as (r & m' & E & [_ _ Hr]); [by vm_compute..|done|done|].
  exists s, m'. destruct Hr as [[-> Hr]|[_ (i & Hi & Hn)]].
  - split; [done|]. destruct (Hr 1 ltac:(lia)) as (pa & Hp & Hb).
    rewrite Hc in Hp by by vm_compute. injection Hp as <-. by injection Hb as ->.
  - by rewrite Hc in Hn.
Defined.

Lemma copyout_copyin_witness : exists s', copyin root 10 3 s' = Ok (0, [1; 2; 3]) s'.
Proof.
  destruct small_range as (s & G & HI & Hc & Hs).
  destruct (copyout_loop_ok root G _ 10 [1; 2; 3] 3 s ltac:(done) ltac:(by vm_compute)
    (copy_fuel 10 3 ltac:(lia)) HI Hs) as (r & m' & E & [_ _ Hr]).
  destruct Hr as [[-> _]|[_ (i & Hi & Hn)]]; [|by rewrite Hc in Hn].
  exists (k_set_mem m' s).
  apply (copyout_copyin root G 10 [1; 2; 3] s); [done|done|done|exact Hs| |exact E].
  intros i pa Hi. rewrite Hc by done. intros [= <-]. unfold data, PHYSTOP, KERNBASE, PGSIZE. lia.
Defined.

End CopyExample.
