(* ===== verification/VmFork.v ===== *)
(** Copying an address space: uvmcopy() of vm.c, which fork() uses.

    The file first collects what the users of a page table share: which memory a
    table does not depend on, and the page that kalloc() hands to its caller.
    Then [uvmcopy_copies]: the new table shows the old one's memory in pages of
    its own, or the pages and the table are given back. *)

From S2P Require Import Prelude Riscv State Spinlock Kalloc Vm VmTable VmCopy.

(** ** Memory outside the table and the free pages *)

Definition elsewhere (l : list Z) (G : gmap Z (nat * Z)) (x : Z) : Prop :=
  forall pg, pg ∈ l \/ is_Some (G !! pg) -> x < pg \/ pg + PGSIZE <= x.

Section Shared.
Context `{L : Linker}.

Lemma table_ext root s s' l G : k_mem s' = k_mem s -> k_freelist s' = k_freelist s -> settled s' -> lock_free LK_kmem s' ->
  table root s l G -> table root s' l G.
Proof.
  intros Em Ef Hs Hl [[_ _ [Hr Hn Hp Hb]] HI Hd]. split; [split; [done|done|]| |done].
  - split; [by rewrite Em, Ef|done|done|by rewrite Em].
  - by rewrite Em.
Qed.

Lemma grown_frame root s l G s' l' G' x : grown root s l G s' l' G' -> elsewhere l G x -> k_mem s' x = k_mem s x.
Proof.
  intros Hg Hx. destruct (gr_taken _ _ _ _ _ _ _ Hg) as (tk & -> & Htk). apply (gr_frame _ _ _ _ _ _ _ Hg). intros pg y Hy.
  apply Hx. rewrite elem_of_app. destruct (proj1 (Htk pg) (mk_is_Some _ _ Hy)); tauto.
Qed.

(** ** The page of a caller *)

Section Page.
Context (root : Z) (s : kstate) (q : Z) (l : list Z) (G : gmap Z (nat * Z)).
Context (Ht : table root s (q :: l) G).

Lemma new_page_ok : page_ok q /\ q ∉ l /\ G !! q = None.
Proof.
  pose proof (vm_kmem _ _ (tb_vm _ _ _ _ Ht)) as Hk. pose proof (kmem_nodup _ _ Hk) as [Hn _]%NoDup_cons.
  pose proof (kmem_pages _ _ Hk) as [Hp _]%Forall_cons. split; [done|]. split; [done|]. apply (tb_disj _ _ _ _ Ht). left.
Qed.

Lemma off_table p x a : G !! p = Some x -> p <= a < p + PGSIZE -> a < q \/ q + PGSIZE <= a.
Proof.
  intros Hp Ha. destruct new_page_ok as ([Hq _] & _ & Hn). pose proof (pt_page_aligned (tb_inv _ _ _ _ Ht) _ _ Hp) as Hpa.
  destruct (pages_disjoint p q Hpa Hq); [intros ->; congruence|lia..].
Qed.

Lemma zeroed_out a : a < q \/ q + PGSIZE <= a -> k_mem (zeroed q s) a = k_mem s a.
Proof.
  intros Ha. unfold zeroed. change (k_mem (k_set_mem ?m _)) with m. unfold mem_set at 1.
  rewrite (proj2 (in_range_false _ _ _)) by done. by apply kalloc_state_out.
Qed.

Lemma zeroed_in a : q <= a < q + PGSIZE -> k_mem (zeroed q s) a = 0.
Proof. intros Ha. unfold zeroed. change (k_mem (k_set_mem ?m _)) with m. unfold mem_set at 1. by rewrite (proj2 (in_range_true _ _ _) Ha). Qed.

Lemma zeroed_table : table root (zeroed q s) l G /\ forall va, 0 <= va < MAXVA -> lookup_pte (k_mem (zeroed q s)) root va = lookup_pte (k_mem s) root va.
Proof.
  pose proof Ht as [[Hs Hu Hk] HI Hd]. destruct (lookup_frame (k_mem s) (k_mem (zeroed q s)) root G HI) as (HI' & _ & Hlk).
  { intros p x a Hp Ha. apply zeroed_out. by apply (off_table p x). }
  split; [|done]. split; [split; [done|done|by apply kmem_zeroed]|done|]. intros p Hp. apply Hd. by right.
Qed.

Lemma kalloc_new : kalloc s = Ok q (kalloc_state q s) /\ q <> 0.
Proof.
  pose proof (tb_vm _ _ _ _ Ht) as [Hs Hu Hk]. destruct new_page_ok as (Hp & _). split; [by apply (kalloc_eq q l)|].
  apply (page_ok_nonzero q Hp).
Qed.

End Page.

(** mappages() does not use the page itself for the table. *)
Lemma grown_keeps root s l G s' l' G' q : grown root s l G s' l' G' -> page_ok q -> q ∉ l -> G !! q = None ->
  G' !! q = None /\ q ∉ l' /\ forall a, q <= a < q + PGSIZE -> k_mem s' a = k_mem s a.
Proof.
  intros Hg [Hq _] Hl HG. destruct (gr_taken _ _ _ _ _ _ _ Hg) as (tk & -> & Htk). rewrite elem_of_app in Hl.
  assert (HG' : G' !! q = None).
  { apply eq_None_not_Some. intros [[? ?]|?]%Htk; [congruence|tauto]. }
  split; [done|]. split; [tauto|]. intros a Ha. apply (gr_frame _ _ _ _ _ _ _ Hg). intros p x Hp.
  pose proof (pt_page_aligned (tb_inv _ _ _ _ (gr_table _ _ _ _ _ _ _ Hg)) _ _ Hp) as Hpa.
  destruct (pages_disjoint p q Hpa Hq); [intros ->; congruence|lia..].
Qed.

(** Writing the page leaves the table and the free list alone. *)
Lemma table_outside root s s' q l G : table root s l G -> page_ok q -> q ∉ l -> G !! q = None ->
  (forall x, x < q \/ q + PGSIZE <= x -> k_mem s' x = k_mem s x) -> (forall x, q <= x < q + PGSIZE -> is_byte (k_mem s' x)) ->
  k_freelist s' = k_freelist s -> settled s' -> lock_free LK_kmem s' ->
  table root s' l G /\ forall va, 0 <= va < MAXVA -> lookup_pte (k_mem s') root va = lookup_pte (k_mem s) root va.
Proof.
  intros Ht [Hq _] Hl HG Hout Hin Hfl Hs Hf. pose proof Ht as [[_ _ Hk] HI Hd].
  destruct (lookup_frame (k_mem s) (k_mem s') root G HI) as (HI' & _ & Hlk).
  { intros pg x a Hp Ha. apply Hout. destruct (pages_disjoint pg q (pt_page_aligned HI _ _ Hp) Hq); [intros ->; congruence|lia..]. }
  split; [|done]. apply (table_ext root (k_set_mem (k_mem s') s)); try done. split; [split|done|done]; try apply Ht.
  apply kmem_inv_frame; [done| |].
  - intros x. destruct (decide (q <= x < q + PGSIZE)); [by apply Hin|]. rewrite Hout by lia. apply Hk.
  - intros pg a Hp Ha. apply Hout. pose proof (kmem_pages _ _ Hk) as Hpk. rewrite Forall_forall in Hpk.
    destruct (Hpk pg) as [Hpa _]; [done|]. destruct (pages_disjoint pg q Hpa Hq); [intros ->; done|lia..].
Qed.

(** kalloc() and then any content for the page. *)
Lemma taken_table root s q l G m : table root s (q :: l) G -> mem_ok m -> (forall x, x < q \/ q + PGSIZE <= x -> m x = k_mem s x) ->
  table root (k_set_mem m (kalloc_state q s)) l G /\ forall va, 0 <= va < MAXVA -> lookup_pte m root va = lookup_pte (k_mem s) root va.
Proof.
  intros Ht Hm Hout. destruct (new_page_ok root s q l G Ht) as (Hq & Hl & HG). destruct (zeroed_table root s q l G Ht) as (Hz & Hlk).
  pose proof (tb_vm _ _ _ _ Ht) as [Hs Hu _].
  destruct (table_outside root (zeroed q s) (k_set_mem m (kalloc_state q s)) q l G Hz Hq Hl HG) as (Ht' & Hlk'); try done.
  - intros x Hx. change (k_mem (k_set_mem m _)) with m. rewrite zeroed_out by done. by apply Hout.
  - split; [done|]. intros va Hva. rewrite <- Hlk by done. by apply (Hlk' va).
Qed.

(** ** uvmcopy() *)

Section Copy.
Context (old new sz : Z) (s0 : kstate) (l0 : list Z) (G0 Go : gmap Z (nat * Z)).

Definition opte (i : nat) : Z := lookup_pte (k_mem s0) old (Z.of_nat i * PGSIZE).

(** The number of pages of the process. *)
Definition npages : nat := Z.to_nat ((sz + PGSIZE - 1) / PGSIZE).

(** The address space to be copied is complete and lies outside the free pages
    and the new table; the new table has nothing there. *)
Record copyable : Prop := {
  cy_sz : 0 <= sz /\ sz + PGSIZE <= MAXVA;
  cy_old : pt_inv (k_mem s0) old Go;
  cy_off p x a : Go !! p = Some x -> p <= a < p + PGSIZE -> elsewhere l0 G0 a;
  cy_leaf i : (i < npages)%nat -> bit_set (opte i) PTE_V = true /\ PTE_FLAGS (opte i) <> PTE_V /\ PTE2PA (opte i) <> 0 /\
    forall o, 0 <= o < PGSIZE -> elsewhere l0 G0 (PTE2PA (opte i) + o);
  cy_new : table new s0 l0 G0;
  cy_free va : 0 <= va < Z.of_nat npages * PGSIZE -> lookup_pte (k_mem s0) new va = 0
}.

(** After some iterations: the pages [qs] hold the copies. *)
Record copied (s : kstate) (l : list Z) (G : gmap Z (nat * Z)) (qs : list Z) : Prop := {
  cp_only : mem_only s0 s;
  cp_table : table new s l G;
  cp_free pg : pg ∈ l -> pg ∈ l0;
  cp_tab pg : is_Some (G !! pg) -> pg ∈ l0 \/ is_Some (G0 !! pg);
  cp_frame x : elsewhere l0 G0 x -> k_mem s x = k_mem s0 x;
  cp_nodup : NoDup qs;
  cp_len : (length qs <= npages)%nat;
  cp_pages q : q ∈ qs -> page_ok q /\ q ∈ l0 /\ q ∉ l /\ G !! q = None;
  cp_bytes i q o : qs !! i = Some q -> 0 <= o < PGSIZE -> k_mem s (q + o) = k_mem s0 (PTE2PA (opte i) + o);
  cp_lookup va : 0 <= va < MAXVA -> lookup_pte (k_mem s) new va =
    match qs !! Z.to_nat (va / PGSIZE) with
    | Some q => leaf_pte q (PTE_FLAGS (opte (Z.to_nat (va / PGSIZE))))
    | None => lookup_pte (k_mem s0) new va
    end
}.

Context (Hc : copyable).

Lemma copied_elsewhere s l G qs x : copied s l G qs -> elsewhere l0 G0 x -> elsewhere l G x.
Proof. intros Hcp Hx pg [H|H]; apply Hx; [left; by apply (cp_free _ _ _ _ Hcp)|by apply (cp_tab _ _ _ _ Hcp)]. Qed.

Lemma npages_bound i : (i < npages)%nat <-> Z.of_nat i * PGSIZE < sz.
Proof. unfold npages, PGSIZE. pose proof (cy_sz Hc). Z.div_mod_to_equations. lia. Qed.

Lemma copied_start : copied s0 l0 G0 [].
Proof. split; try done; [apply Hc|tauto|by apply NoDup_nil_2|cbn; lia|intros q Hq; by apply not_elem_of_nil in Hq]. Qed.

(** The old table is still there. *)
Lemma copied_old s l G qs : copied s l G qs -> forall va, 0 <= va < MAXVA -> lookup_pte (k_mem s) old va = lookup_pte (k_mem s0) old va.
Proof.
  intros Hcp. apply (lookup_frame (k_mem s0) (k_mem s) old Go (cy_old Hc)). intros p x a Hp Ha.
  apply (cp_frame _ _ _ _ Hcp). by apply (cy_off Hc p x).
Qed.

(** The page of iteration [length qs], copied but not yet mapped. *)
Definition page_copy (q : Z) (i : nat) (s : kstate) : kstate :=
  k_set_mem (mem_copy (k_mem (kalloc_state q s)) q (PTE2PA (opte i)) PGSIZE) (kalloc_state q s).

Lemma page_copy_out q i s x : x < q \/ q + PGSIZE <= x -> k_mem (page_copy q i s) x = k_mem s x.
Proof.
  intros Hx. unfold page_copy. change (k_mem (k_set_mem ?m _)) with m. unfold mem_copy.
  rewrite (proj2 (in_range_false _ _ _)) by done. by apply kalloc_state_out.
Qed.

Lemma page_copy_in q s l G qs o : copied s (q :: l) G qs -> (length qs < npages)%nat -> 0 <= o < PGSIZE ->
  k_mem (page_copy q (length qs) s) (q + o) = k_mem s0 (PTE2PA (opte (length qs)) + o).
Proof.
  intros Hcp Hi Ho. unfold page_copy. change (k_mem (k_set_mem ?m _)) with m. unfold mem_copy.
  rewrite (proj2 (in_range_true _ _ _)) by lia. replace (q + o - q) with o by lia.
  destruct (cy_leaf Hc _ Hi) as (_ & _ & _ & Hel). specialize (Hel o Ho).
  rewrite kalloc_state_out; [by apply (cp_frame _ _ _ _ Hcp)|]. apply (copied_elsewhere _ _ _ _ _ Hcp Hel). left. left.
Qed.

Lemma page_copy_table q i s l G : table new s (q :: l) G ->
  table new (page_copy q i s) l G /\ forall va, 0 <= va < MAXVA -> lookup_pte (k_mem (page_copy q i s)) new va = lookup_pte (k_mem s) new va.
Proof.
  intros Ht. apply (taken_table new s q l G (mem_copy (k_mem (kalloc_state q s)) q (PTE2PA (opte i)) PGSIZE)); [done| |intros x Hx; by apply (page_copy_out q i s)].
  pose proof (vm_kmem _ _ (tb_vm _ _ _ _ Ht)) as Hk. intros x. unfold mem_copy. pose proof (kmem_bytes _ _ (kalloc_inv q s l Hk)) as Hb. case_match; apply Hb.
Qed.

(** mappages() put the page into the new table. *)
Lemma copied_step q s l G qs s2 l2 G2 : copied s (q :: l) G qs -> (length qs < npages)%nat ->
  grown new (page_copy q (length qs) s) l G s2 l2 G2 ->
  (forall va, 0 <= va < MAXVA -> lookup_pte (k_mem s2) new va = mapped (lookup_pte (k_mem (page_copy q (length qs) s)) new)
     (Z.of_nat (length qs) * PGSIZE) q (PTE_FLAGS (opte (length qs))) 1 va) ->
  copied s2 l2 G2 (qs ++ [q]).
Proof.
  intros Hcp Hi Hg Hlk. pose proof Hcp as [Ho Ht Hfree Htab Hfr Hnd Hle Hp Hb Hl].
  destruct (new_page_ok new s q l G Ht) as (Hq & Hql & HqG). destruct (page_copy_table q (length qs) s l G Ht) as (Ht1 & Hlk1).
  destruct (gr_taken _ _ _ _ _ _ _ Hg) as (tk & El & Htk). assert (Hql0 : q ∈ l0) by (apply Hfree; left).
  assert (Hqs : q ∉ qs) by (intros (_ & _ & Hn' & _)%Hp; apply Hn'; left).
  destruct (grown_keeps _ _ _ _ _ _ _ q Hg Hq Hql HqG) as (HqG2 & Hql2 & Hqm).
  assert (Hkeep : forall q', q' ∈ qs -> G2 !! q' = None /\ q' ∉ l2 /\ forall o, 0 <= o < PGSIZE -> k_mem s2 (q' + o) = k_mem s (q' + o)).
  { intros q' Hq'. destruct (Hp q' Hq') as (Hok' & _ & Hl' & HG'). destruct (grown_keeps _ _ _ _ _ _ _ q' Hg Hok') as (? & ? & Hm); [set_solver|done|].
    split; [done|]. split; [done|]. intros o Ho'. rewrite Hm by lia. apply page_copy_out.
    destruct Hok' as [Ha' _], Hq as [Ha _]. destruct (pages_disjoint q' q Ha' Ha); [intros ->; done|lia..]. }
  split.
  - eapply mem_only_trans; [exact Ho|]. eapply mem_only_trans; [|apply Hg]. done.
  - apply Hg.
  - intros pg Hpg. apply Hfree. right. rewrite El. set_solver.
  - intros pg [?|?]%Htk; [by apply Htab|]. left. apply Hfree. right. rewrite El. set_solver.
  - intros x Hx. pose proof (copied_elsewhere _ _ _ _ _ Hcp Hx) as Hx'. rewrite (grown_frame _ _ _ _ _ _ _ _ Hg).
    + rewrite page_copy_out by (apply Hx'; left; left). by apply Hfr.
    + intros pg [H|H]; apply Hx'; [left; by right|by right].
  - apply NoDup_app. split; [done|]. split; [set_solver|apply NoDup_singleton].
  - rewrite length_app. cbn. lia.
  - intros q' [Hq'| ->%list_elem_of_singleton]%elem_of_app; [|done]. destruct (Hp q' Hq') as (? & ? & _). destruct (Hkeep q' Hq') as (? & ? & _). done.
  - intros i q' o [Hi'|(Hi1 & Hi2)]%lookup_app_Some Ho'.
    + destruct (Hkeep q') as (_ & _ & Hm); [by eapply list_elem_of_lookup_2|]. rewrite Hm by done. by apply Hb.
    + apply list_lookup_singleton_Some in Hi2 as [Hi2 <-]. replace i with (length qs) by lia.
      rewrite Hqm by lia. by apply (page_copy_in q s l G).
  - intros va Hva. rewrite Hlk, mapped_1, Hlk1, Hl by (done || (unfold PGSIZE; Z.div_mod_to_equations; lia)).
    rewrite Z.div_mul by done. destruct (Z.eqb_spec (va / PGSIZE) (Z.of_nat (length qs))) as [E|E].
    + rewrite E, Nat2Z.id, lookup_app_r, Nat.sub_diag by lia. done.
    + assert (0 <= va / PGSIZE) by (unfold PGSIZE; Z.div_mod_to_equations; lia).
      destruct (decide (Z.to_nat (va / PGSIZE) < length qs)%nat); [by rewrite lookup_app_l by lia|].
      rewrite (lookup_ge_None_2 qs) by lia. rewrite (lookup_ge_None_2 (qs ++ [q])) by (rewrite length_app; cbn; lia). done.
Qed.

(** mappages() failed and the page went back. *)
Lemma copied_back q s l G qs s2 G2 : copied s (q :: l) G qs ->
  grown new (page_copy q (length qs) s) l G s2 [] G2 ->
  (forall va, 0 <= va < MAXVA -> lookup_pte (k_mem s2) new va = lookup_pte (k_mem (page_copy q (length qs) s)) new va) ->
  copied (kfree_state q s2) [q] G2 qs.
Proof.
  intros Hcp Hg Hlk. pose proof Hcp as [Ho Ht Hfree Htab Hfr Hnd Hle Hp Hb Hl].
  destruct (new_page_ok new s q l G Ht) as (Hq & Hql & HqG). destruct (page_copy_table q (length qs) s l G Ht) as (Ht1 & Hlk1).
  destruct (gr_taken _ _ _ _ _ _ _ Hg) as (tk & El & Htk). assert (Hql0 : q ∈ l0) by (apply Hfree; left).
  destruct (grown_keeps _ _ _ _ _ _ _ q Hg Hq Hql HqG) as (HqG2 & Hql2 & Hqm).
  destruct (table_kfree new s2 [] G2 q (gr_table _ _ _ _ _ _ _ Hg) Hq Hql2 HqG2) as (Ht3 & _ & Hlk3).
  assert (Hkeep : forall q', q' ∈ qs -> q' <> q /\ G2 !! q' = None /\ forall o, 0 <= o < PGSIZE -> k_mem (kfree_state q s2) (q' + o) = k_mem s (q' + o)).
  { intros q' Hq'. destruct (Hp q' Hq') as (Hok' & _ & Hl' & HG'). assert (Hne : q' <> q) by set_solver.
    destruct (grown_keeps _ _ _ _ _ _ _ q' Hg Hok') as (? & _ & Hm); [set_solver|done|]. split; [done|]. split; [done|]. intros o Ho'.
    destruct Hok' as [Ha' _], Hq as [Ha _]. pose proof (pages_disjoint q' q Ha' Ha Hne) as Hdis.
    rewrite kfree_state_out, Hm, page_copy_out by lia. done. }
  split; try done.
  - eapply mem_only_trans; [exact Ho|]. eapply mem_only_trans; [|done]. eapply mem_only_trans; [|apply Hg]. done.
  - by intros pg ->%list_elem_of_singleton.
  - intros pg [?|?]%Htk; [by apply Htab|]. left. apply Hfree. right. rewrite El. set_solver.
  - intros x Hx. pose proof (copied_elsewhere _ _ _ _ _ Hcp Hx) as Hx'. rewrite kfree_state_out by (apply Hx'; left; left).
    rewrite (grown_frame _ _ _ _ _ _ _ _ Hg).
    + rewrite page_copy_out by (apply Hx'; left; left). by apply Hfr.
    + intros pg [H|H]; apply Hx'; [left; by right|by right].
  - intros q' Hq'. destruct (Hp q' Hq') as (? & ? & _). destruct (Hkeep q' Hq') as (? & ? & _). rewrite list_elem_of_singleton. done.
  - intros i q' o Hi' Ho'. destruct (Hkeep q') as (_ & _ & Hm); [by eapply list_elem_of_lookup_2|]. rewrite Hm by done. by apply Hb.
  - intros va Hva. by rewrite Hlk3, Hlk, Hlk1, Hl.
Qed.

(** The entry of a copied page. *)
Lemma copy_leaf q v : page_ok q -> bit_set v PTE_V = true -> let e := leaf_pte q (PTE_FLAGS v) in
  PTE2PA e = q /\ PTE_FLAGS e = PTE_FLAGS v /\ bit_set e PTE_V = true /\ bit_set e PTE_U = bit_set v PTE_U.
Proof.
  intros Hq Hv e. assert (Hv0 : Z.testbit v 0 = true) by (rewrite <- (bit_set_testbit v 0) by lia; exact Hv).
  assert (Hf : 0 <= PTE_FLAGS v < 1024) by (unfold PTE_FLAGS; change 0x3FF with (Z.ones 10); rewrite Z.land_ones by lia; apply Z.mod_pos_bound; lia).
  assert (Hbit : forall x k, 0 <= k < 10 -> Z.testbit (PTE_FLAGS x) k = Z.testbit x k).
  { intros x k Hk. unfold PTE_FLAGS. change 0x3FF with (Z.ones 10). rewrite Z.land_spec, Z.ones_spec_low by lia. apply andb_true_r. }
  assert (Ef : Z.lor (PTE_FLAGS v) PTE_V = PTE_FLAGS v).
  { apply Z.bits_inj'. intros k Hk. rewrite Z.lor_spec. change PTE_V with (2 ^ 0). rewrite Z.pow2_bits_eqb by lia.
    destruct (Z.eqb_spec 0 k) as [<-|?]; [rewrite Hbit, Hv0 by lia; done|apply orb_false_r]. }
  unfold e, leaf_pte. rewrite <- Z.lor_assoc, Ef. destruct (pte_page q (PTE_FLAGS v) Hq Hf) as (E1 & E2 & E3).
  split; [done|]. split; [done|]. split; [by rewrite E3, Hbit by lia|].
  change PTE_U with (2 ^ 4). rewrite !bit_set_testbit by lia. rewrite <- (Hbit _ 4), E2 by lia. apply Hbit. lia.
Qed.

Lemma copied_entry s l G qs i q : copied s l G qs -> qs !! i = Some q ->
  lookup_pte (k_mem s) new (Z.of_nat i * PGSIZE) = leaf_pte q (PTE_FLAGS (opte i)).
Proof.
  intros Hcp Hi. pose proof (lookup_lt_Some _ _ _ Hi) as Hlt. pose proof (cp_len _ _ _ _ Hcp) as Hle.
  pose proof (proj1 (npages_bound i) ltac:(lia)). pose proof (cy_sz Hc).
  rewrite (cp_lookup _ _ _ _ Hcp) by (unfold PGSIZE in *; lia).
  rewrite Z.div_mul, Nat2Z.id, Hi by done. done.
Qed.

(** The undoing of a failed copy. *)
Record restored (s : kstate) : Prop := {
  rt_only : mem_only s0 s;
  rt_table : exists l G, table new s l G;
  rt_new va : 0 <= va < MAXVA -> lookup_pte (k_mem s) new va = lookup_pte (k_mem s0) new va;
  rt_frame x : elsewhere l0 G0 x -> k_mem s x = k_mem s0 x
}.

Lemma copied_undo s l G qs : copied s l G qs -> exists s', uvmunmap new 0 (Z.of_nat (length qs)) true s = Ok tt s' /\ restored s'.
Proof.
  intros Hcp. pose proof Hcp as [Ho Ht Hfree Htab Hfr Hnd Hle Hp Hb Hl]. pose proof (cy_sz Hc) as Hsz.
  assert (Hat : forall k, (k < length qs)%nat -> exists q, qs !! k = Some q /\ page_ok q /\ (k < npages)%nat /\
    lookup_pte (k_mem s) new (0 + Z.of_nat k * PGSIZE) = leaf_pte q (PTE_FLAGS (opte k))).
  { intros k Hk. destruct (lookup_lt_is_Some_2 qs k Hk) as [q Hq]. exists q. split; [done|].
    split; [by apply Hp, (list_elem_of_lookup_2 _ k)|]. split; [lia|]. by apply (copied_entry s l G qs). }
  assert (Hend : Z.of_nat (length qs) * PGSIZE <= MAXVA).
  { destruct (length qs) as [|k]; [done|]. pose proof (proj1 (npages_bound k) ltac:(lia)). unfold PGSIZE in *. lia. }
  destruct (uvmunmap_ok new 0 (Z.of_nat (length qs)) true s l G Ht) as (s' & E & Ho' & Ht' & Hlk & Hm); try done; try lia.
  - rewrite Nat2Z.id. split.
    + intros k Hk. cbv zeta. destruct (Hat k Hk) as (q & _ & Hq & Hi & ->). destruct (cy_leaf Hc k Hi) as (Hv & Hne & _).
      destruct (copy_leaf q (opte k) Hq Hv) as (_ & -> & -> & _). done.
    + intros _ k Hk. cbv zeta. destruct (Hat k Hk) as (q & Hqk & Hq & Hi & ->). destruct (cy_leaf Hc k Hi) as (Hv & _).
      destruct (copy_leaf q (opte k) Hq Hv) as (-> & _). destruct (Hp q) as (_ & _ & ? & ?); [by eapply list_elem_of_lookup_2|]. done.
    + intros _ k1 k2 Hk. destruct (Hat k1) as (q1 & H1 & Hq1 & Hi1 & ->); [lia|]. destruct (Hat k2) as (q2 & H2 & Hq2 & Hi2 & ->); [lia|].
      destruct (copy_leaf q1 (opte k1) Hq1) as (-> & _); [by apply (cy_leaf Hc)|]. destruct (copy_leaf q2 (opte k2) Hq2) as (-> & _); [by apply (cy_leaf Hc)|].
      intros ->. pose proof (NoDup_lookup _ _ _ _ Hnd H1 H2). lia.
  - exists s'. split; [done|]. split; [by eapply mem_only_trans|by eexists _, _| |].
    + intros va Hva. rewrite Hlk by done. unfold unmapped. rewrite Nat2Z.id.
      destruct (in_range 0 (Z.of_nat (length qs) * PGSIZE) va) eqn:Er.
      * apply in_range_true in Er. symmetry. apply (cy_free Hc). unfold PGSIZE in *. lia.
      * apply in_range_false in Er. rewrite Hl by done. rewrite lookup_ge_None_2; [done|]. unfold PGSIZE in *. Z.div_mod_to_equations. lia.
    + intros x Hx. rewrite Hm; [by apply Hfr| |].
      * intros p y Hpy. apply (copied_elsewhere _ _ _ _ _ Hcp Hx). right. by eexists.
      * intros _ pa (k & -> & Hk)%list_elem_of_fmap. rewrite Nat2Z.id in Hk. apply elem_of_seq in Hk. destruct (Hat k) as (q & Hqk & Hq & Hi & ->); [lia|].
        destruct (copy_leaf q (opte k) Hq) as (-> & _); [by apply (cy_leaf Hc)|]. apply Hx. left. apply Hp. by eapply list_elem_of_lookup_2.
Qed.

(** The outcome of the loop. *)
Definition copy_outcome (r : Z) (s : kstate) : Prop :=
  (r = 0 /\ exists l G qs, copied s l G qs /\ length qs = npages) \/ (r = -1 /\ restored s /\ (length l0 < 3 * npages)%nat).

Lemma undo_outcome s l G qs : copied s l G qs -> (length l0 < 3 * npages)%nat ->
  exists r s', (uvmunmap new 0 (Z.of_nat (length qs) * PGSIZE / PGSIZE) true;; ret (-1)) s = Ok r s' /\ copy_outcome r s'.
Proof.
  intros Hcp Hn. destruct (copied_undo s l G qs Hcp) as (s' & E & Hr). rewrite Z.div_mul by done. exists (-1), s'.
  split; [by mrun E|right; done].
Qed.

(** The walk finds the entry of the page. *)
Lemma old_entry s l G qs : copied s l G qs -> (length qs < npages)%nat ->
  pt_walk (k_mem s) 2 old (Z.of_nat (length qs) * PGSIZE) <> 0 /\
  load64 (k_mem s) (pt_walk (k_mem s) 2 old (Z.of_nat (length qs) * PGSIZE)) = opte (length qs).
Proof.
  intros Hcp Hi. pose proof (proj1 (npages_bound _) Hi). pose proof (cy_sz Hc). destruct (cy_leaf Hc _ Hi) as (Hv & _).
  pose proof (copied_old _ _ _ _ Hcp (Z.of_nat (length qs) * PGSIZE) ltac:(unfold PGSIZE in *; lia)) as E. fold (opte (length qs)) in E.
  unfold lookup_pte at 1 in E. destruct (Z.eqb_spec (pt_walk (k_mem s) 2 old (Z.of_nat (length qs) * PGSIZE)) 0) as [E0|E0]; [|done].
  rewrite <- E, bit_set_0 in Hv. done.
Qed.

(** mappages() of the copied page. *)
Lemma map_copy q s l G qs : copied s (q :: l) G qs -> (length qs < npages)%nat ->
  exists r s2 l2 G2, mappages new (Z.of_nat (length qs) * PGSIZE) PGSIZE q (PTE_FLAGS (opte (length qs))) (page_copy q (length qs) s) = Ok r s2 /\
    ((r = 0 /\ copied s2 l2 G2 (qs ++ [q]) /\ (length l <= 2 + length l2)%nat) \/
     (r = -1 /\ (length l < 2)%nat /\ table new s2 [] G2 /\ copied (kfree_state q s2) [q] G2 qs)).
Proof.
  intros Hcp Hi. pose proof (proj1 (npages_bound _) Hi) as Hlt. pose proof (cy_sz Hc) as Hsz.
  destruct (new_page_ok new s q l G (cp_table _ _ _ _ Hcp)) as (Hq & Hql & HqG). pose proof (page_ok_nonzero q Hq) as Hqr.
  destruct (page_copy_table q (length qs) s l G (cp_table _ _ _ _ Hcp)) as (Ht1 & Hlk1).
  assert (Hf : 0 <= PTE_FLAGS (opte (length qs)) < 1024).
  { unfold PTE_FLAGS. change 0x3FF with (Z.ones 10). rewrite Z.land_ones by lia. apply Z.mod_pos_bound. lia. }
  assert (Hal : (Z.of_nat (length qs) * PGSIZE) mod PGSIZE = 0) by (apply Z.mod_mul; done).
  destruct (mappages_ok new (Z.of_nat (length qs) * PGSIZE) PGSIZE q (PTE_FLAGS (opte (length qs))) (page_copy q (length qs) s) l G Ht1 Hf Hal)
    as (r & s2 & l2 & G2 & j & Em & Hg & Hr & Hlk); try done; try (unfold PGSIZE in *; lia).
  { intros a Ha. rewrite Hlk1 by (unfold PGSIZE in *; lia). rewrite (cp_lookup _ _ _ _ Hcp) by (unfold PGSIZE in *; lia).
    rewrite lookup_ge_None_2 by (unfold PGSIZE in *; Z.div_mod_to_equations; lia). rewrite (cy_free Hc); [apply bit_set_0|].
    unfold PGSIZE in *. lia. }
  exists r, s2, l2, G2. split; [done|]. change (PGSIZE / PGSIZE) with 1 in Hr. destruct Hr as [(-> & Hj & Hn)|(-> & -> & Hj & Hn)].
  - left. assert (j = 1%nat) as -> by lia. split; [done|]. split; [by apply (copied_step q s l G qs)|lia].
  - right. assert (j = 0%nat) as -> by lia. split; [done|]. split; [lia|]. split; [apply Hg|]. apply (copied_back q s l G qs); [done|done|].
    intros va Hva. rewrite Hlk by done. apply mapped_0.
Qed.

Lemma uvmcopy_loop_spec n : forall s l G qs, copied s l G qs -> sz - Z.of_nat (length qs) * PGSIZE <= Z.of_nat n * PGSIZE ->
  (length l0 <= 3 * length qs + length l)%nat ->
  exists r s', uvmcopy_loop n old new (Z.of_nat (length qs) * PGSIZE) sz s = Ok r s' /\ copy_outcome r s'.
Proof.
  induction n as [|n IH]; intros s l G qs Hcp Hn Hu; cbn [uvmcopy_loop];
    (destruct (Z.ltb_spec (Z.of_nat (length qs) * PGSIZE) sz) as [Hlt|Hge];
     [|exists 0, s; split; [done|]; left; split; [done|]; exists l, G, qs; split; [done|]; pose proof (cp_len _ _ _ _ Hcp);
       pose proof (npages_bound (length qs)); lia]); [lia|].
  pose proof (proj2 (npages_bound _) Hlt) as Hi. pose proof (cy_sz Hc) as Hsz. destruct (old_entry s l G qs Hcp Hi) as (Hw & Hld).
  mrun (walk_lookup old (Z.of_nat (length qs) * PGSIZE) s ltac:(unfold PGSIZE in *; lia)). rewrite (proj2 (Z.eqb_neq _ _) Hw).
  unfold kload64. mred. rewrite Hld. destruct (cy_leaf Hc _ Hi) as (Hv & _). rewrite Hv. cbn [negb].
  pose proof (tb_vm _ _ _ _ (cp_table _ _ _ _ Hcp)) as [Hs Hlk Hk]. destruct l as [|q l].
  { mrun (kalloc_empty s Hs Hlk Hk). apply (undo_outcome s [] G qs Hcp). cbn in Hu. lia. }
  destruct (kalloc_new new s q l G (cp_table _ _ _ _ Hcp)) as (Ek & Hq0). mrun Ek. rewrite (proj2 (Z.eqb_neq _ _) Hq0).
  unfold memmove. mred. fold (page_copy q (length qs) s). destruct (new_page_ok new s q l G (cp_table _ _ _ _ Hcp)) as (Hq & _).
  destruct (map_copy q s l G qs Hcp Hi) as (r & s2 & l2 & G2 & Em & [(-> & Hcp2 & Hu2)|(-> & Hu2 & E2)]); mrun Em.
  - change (negb (0 =? 0)) with false. cbn match. rewrite u64_small by (unfold PGSIZE in *; rewrite MAXVA_val in Hsz; lia).
    replace (Z.of_nat (length qs) * PGSIZE + PGSIZE) with (Z.of_nat (length (qs ++ [q])) * PGSIZE) by (rewrite length_app; cbn [length]; unfold PGSIZE; lia).
    apply (IH s2 l2 G2); [done| |]; rewrite length_app; cbn [length] in *; unfold PGSIZE in *; lia.
  - change (negb (-1 =? 0)) with true. cbn match. pose proof (tb_vm _ _ _ _ (proj1 E2)) as [Hs2 Hf2 _]. mrun (kfree_eq q s2 Hs2 Hf2 Hq).
    apply (undo_outcome _ [q] G2 qs); [apply E2|]. cbn [length] in *. lia.
Qed.

(** The copy as the two processes see it. *)
Record shared_nothing (s : kstate) : Prop := {
  sn_table : exists l G, table new s l G;
  sn_view va : 0 <= va < sz -> ubyte (k_mem s) new va = ubyte (k_mem s0) old va;
  sn_flags va : 0 <= va < sz -> PTE_FLAGS (lookup_pte (k_mem s) new va) = PTE_FLAGS (lookup_pte (k_mem s0) old va);
  sn_own va : 0 <= va < sz -> PTE2PA (lookup_pte (k_mem s) new va) ∈ l0;
  sn_inj va va' : 0 <= va < sz -> 0 <= va' < sz -> PTE2PA (lookup_pte (k_mem s) new va) = PTE2PA (lookup_pte (k_mem s) new va') ->
    va / PGSIZE = va' / PGSIZE;
  sn_above va : Z.of_nat npages * PGSIZE <= va < MAXVA -> lookup_pte (k_mem s) new va = lookup_pte (k_mem s0) new va
}.

(** The page of an address below [sz]. *)
Lemma copied_at s l G qs va : copied s l G qs -> length qs = npages -> 0 <= va < sz ->
  let i := Z.to_nat (va / PGSIZE) in exists q, qs !! i = Some q /\ page_ok q /\ q ∈ l0 /\ (i < npages)%nat /\
    lookup_pte (k_mem s) new va = leaf_pte q (PTE_FLAGS (opte i)) /\ lookup_pte (k_mem s0) old va = opte i.
Proof.
  intros Hcp Hn Hva i. pose proof (cy_sz Hc). assert (Hi : (i < npages)%nat).
  { apply npages_bound. unfold i, PGSIZE. Z.div_mod_to_equations. lia. }
  destruct (lookup_lt_is_Some_2 qs i ltac:(lia)) as [q Hq]. exists q. split; [done|].
  destruct (cp_pages _ _ _ _ Hcp q) as (? & ? & _); [by eapply list_elem_of_lookup_2|]. split; [done|]. split; [done|]. split; [done|].
  rewrite (cp_lookup _ _ _ _ Hcp) by (unfold PGSIZE in *; lia). fold i. rewrite Hq. split; [done|]. unfold opte. apply lookup_pte_page.
  unfold i, PGSIZE. rewrite Z2Nat.id by (Z.div_mod_to_equations; lia). by rewrite Z.div_mul.
Qed.

Lemma copied_shared s l G qs : copied s l G qs -> length qs = npages -> shared_nothing s.
Proof.
  intros Hcp Hn. pose proof (cy_sz Hc) as Hsz. split.
  - exists l, G. apply Hcp.
  - intros va Hva. destruct (copied_at s l G qs va Hcp Hn Hva) as (q & Hqi & Hq & _ & Hi & En & Eo). destruct (cy_leaf Hc _ Hi) as (Hv & _ & Hpa & _).
    destruct (copy_leaf q _ Hq Hv) as (E1 & _ & E3 & E4). unfold ubyte, upage. rewrite (proj2 (Z.leb_gt _ _)), En, Eo, E1, E3, E4, Hv by (unfold PGSIZE in *; lia). cbn [andb].
    destruct (bit_set (opte (Z.to_nat (va / PGSIZE))) PTE_U); [|reflexivity]. rewrite (proj2 (Z.eqb_neq q 0)) by apply (page_ok_nonzero q Hq). rewrite (proj2 (Z.eqb_neq _ _) Hpa). f_equal.
    apply (cp_bytes _ _ _ _ Hcp _ _ _ Hqi). apply Z.mod_pos_bound. done.
  - intros va Hva. destruct (copied_at s l G qs va Hcp Hn Hva) as (q & _ & Hq & _ & Hi & -> & ->). destruct (cy_leaf Hc _ Hi) as (Hv & _).
    by destruct (copy_leaf q _ Hq Hv) as (_ & -> & _).
  - intros va Hva. destruct (copied_at s l G qs va Hcp Hn Hva) as (q & _ & Hq & Hl & Hi & -> & _). destruct (cy_leaf Hc _ Hi) as (Hv & _).
    by destruct (copy_leaf q _ Hq Hv) as (-> & _).
  - intros va va' Hva Hva'. destruct (copied_at s l G qs va Hcp Hn Hva) as (q & Hqi & Hq & _ & Hi & -> & _).
    destruct (copied_at s l G qs va' Hcp Hn Hva') as (q' & Hqi' & Hq' & _ & Hi' & -> & _).
    destruct (copy_leaf q _ Hq (proj1 (cy_leaf Hc _ Hi))) as (-> & _). destruct (copy_leaf q' _ Hq' (proj1 (cy_leaf Hc _ Hi'))) as (-> & _).
    intros <-. pose proof (NoDup_lookup _ _ _ _ (cp_nodup _ _ _ _ Hcp) Hqi Hqi'). unfold PGSIZE in *. Z.div_mod_to_equations. lia.
  - intros va Hva. rewrite (cp_lookup _ _ _ _ Hcp) by (unfold PGSIZE in *; lia). rewrite lookup_ge_None_2; [done|].
    rewrite Hn. unfold PGSIZE in *. Z.div_mod_to_equations. lia.
Qed.

Lemma uvmcopy_spec : exists r s', uvmcopy old new sz s0 = Ok r s' /\ copy_outcome r s'.
Proof.
  unfold uvmcopy. apply (uvmcopy_loop_spec _ s0 l0 G0 []); [apply copied_start|cbn [length]|cbn; lia].
  pose proof (cy_sz Hc). unfold PGSIZE. Z.div_mod_to_equations. lia.
Qed.

End Copy.

(** C5: uvmcopy(), by which fork() copies a process. With the parent's address
    space complete and outside the free pages, it returns 0, and at every
    address below [sz] the child sees the byte the parent sees, with the same
    permissions; every page of the child was free before and no two of its pages
    coincide, so neither process sees the other's writes. Otherwise it returns -1
    with the new table as it was, and only when fewer than three pages are free
    per page of the parent. In both cases the parent's table and all memory
    outside the free pages and the new table are unchanged. *)
Theorem uvmcopy_copies old new sz s l G Go : copyable old new sz s l G Go ->
  exists r s', uvmcopy old new sz s = Ok r s' /\ mem_only s s' /\
    (forall va, 0 <= va < MAXVA -> lookup_pte (k_mem s') old va = lookup_pte (k_mem s) old va) /\
    (forall x, elsewhere l G x -> k_mem s' x = k_mem s x) /\
    ((r = 0 /\ shared_nothing old new sz s l s') \/
     (r = -1 /\ restored new s l G s' /\ (length l < 3 * npages sz)%nat)).
Proof.
  intros Hc. destruct (uvmcopy_spec old new sz s l G Go Hc) as (r & s' & E & H). exists r, s'. split; [done|].
  assert (Hfr : mem_only s s' /\ forall x, elsewhere l G x -> k_mem s' x = k_mem s x).
  { destruct H as [(_ & l' & G' & qs & Hcp & _)|(_ & Hr & _)]; split; [apply Hcp|apply Hcp|apply Hr|apply Hr]. }
  destruct Hfr as [Ho Hfr]. split; [done|]. split; [|split; [done|]].
  - apply (lookup_frame (k_mem s) (k_mem s') old Go (cy_old _ _ _ _ _ _ _ Hc)). intros p x a Hp Ha. apply Hfr. by apply (cy_off _ _ _ _ _ _ _ Hc p x).
  - destruct H as [(-> & l' & G' & qs & Hcp & Hn)|(-> & Hr & Hn)]; [left|by right]. split; [done|].
    by apply (copied_shared old new sz s l G Go Hc s' l' G' qs).
Qed.

End Shared.

(** ** A process of one page *)

Module ForkExample.
Import VmTable.Example.
#[local] Existing Instance VmTable.Example.linker.

Lemma one_page_copyable : exists s new l Go, copyable root new 100 s l {[new := (2%nat, 0)]} Go /\ (3 <= length l)%nat /\
  ubyte (k_mem s) root 5 = Some (k_mem s (data + 5)).
Proof.
  destruct one_page_room as (s & l & G & Ht & Hl & HG & Hlen & Hlk). destruct l as [|q l]; [cbn in Hlen; lia|].
  destruct (uvmcreate_ok s q l (tb_vm _ _ _ _ Ht)) as (_ & Hn & Hn0). destruct (zeroed_table root s q l G Ht) as (Ht1 & Hlk1).
  destruct (new_page_ok root s q l G Ht) as (Hq & Hql & HqG). exists (zeroed q s), q, l, G.
  assert (Hleaf : lookup_pte (k_mem (zeroed q s)) root 0 = leaf_pte data user_rw) by by rewrite Hlk1, Hlk.
  assert (Hpa : PTE2PA (leaf_pte data user_rw) = data) by by vm_compute.
  assert (Hoff : forall p, p mod PGSIZE = 0 -> p <> q -> p ∉ l -> forall a, p <= a < p + PGSIZE -> elsewhere l {[q := (2%nat, 0)]} a).
  { intros p Hp Hpq Hpl a Ha pg [Hpg|[x Hx]].
    - pose proof (kmem_pages _ _ (vm_kmem _ _ (tb_vm _ _ _ _ Hn))) as Hps. rewrite Forall_forall in Hps. destruct (Hps pg Hpg) as [Hpga _].
      destruct (pages_disjoint p pg Hp Hpga); [intros ->; done|lia..].
    - apply lookup_singleton_Some in Hx as [<- _]. destruct Hq as [Hqa _]. destruct (pages_disjoint p q Hp Hqa Hpq); lia. }
  assert (Hnp : npages 100 = 1%nat) by reflexivity.
  split; [split|].
  - by vm_compute.
  - apply Ht1.
  - intros p x a Hp Ha. apply (Hoff p); [by apply (pt_page_aligned (tb_inv _ _ _ _ Ht) _ _ Hp)| | |done].
    + intros ->. congruence.
    + intros Hpl. rewrite (tb_disj _ _ _ _ Ht p) in Hp; [done|]. by right.
  - intros i Hi. rewrite Hnp in Hi. assert (i = 0%nat) as -> by lia. unfold opte. change (Z.of_nat 0 * PGSIZE) with 0. rewrite Hleaf, Hpa.
    split; [by vm_compute|]. split; [by vm_compute|]. split; [by vm_compute|]. intros o Ho.
    apply (Hoff data); [by vm_compute|set_solver|set_solver|lia].
  - exact Hn.
  - intros va _. apply Hn0.
  - split; [cbn in Hlen; lia|]. unfold ubyte, upage. change (MAXVA <=? 5) with false. cbn match.
    rewrite (lookup_pte_page _ _ 5 0) by done. rewrite Hleaf, Hpa.
    change (bit_set (leaf_pte data user_rw) PTE_V && bit_set (leaf_pte data user_rw) PTE_U) with true. change (5 mod PGSIZE) with 5. done.
Qed.

Lemma uvmcopy_copies_witness : exists s new s' b, uvmcopy root new 100 s = Ok 0 s' /\
  ubyte (k_mem s) root 5 = Some b /\ ubyte (k_mem s') new 5 = Some b.
Proof.
  destruct one_page_copyable as (s & new & l & Go & Hc & Hl & Hb).
  destruct (uvmcopy_copies root new 100 s l {[new := (2%nat, 0)]} Go Hc) as (r & s' & E & _ & _ & _ & [(-> & Hs)|(_ & _ & Hn)]).
  - exists s, new, s', (k_mem s (data + 5)). split; [done|]. split; [done|]. rewrite <- Hb. apply (sn_view _ _ _ _ _ _ Hs). lia.
  - change (npages 100) with 1%nat in Hn. lia.
Defined.

End ForkExample.
