(* ===== verification/Sched.v ===== *)
(** proc.c: switching, sleeping, waking and killing.

    sched() gives the CPU away with [Swtch]: the computation continues from
    whatever state the scheduler resumes it in. scheduler() does the same
    towards the process it picks. What swtch.S saves in [p->context] is the
    continuation itself, so the register values in that field are not
    modelled. *)

From S2P Require Import Prelude Riscv State Spinlock.

(** How often one wait loop may be resumed before the model gives up. *)
Definition patience : nat := 100.

Definition swtch : K unit := fun s => Swtch s (fun s' => Ok tt s').

Definition sched : K unit :=
  me <- myproc;;
  p <- deref me;;
  h <- holding (LK_proc p);;
  if negb h then panic "sched p->lock" else
  c <- mycpu;;
  if negb (c_noff c =? 1) then panic "sched locks" else
  pr <- proc_at p;;
  if bool_decide (p_state pr = RUNNING) then panic "sched running" else
  i <- intr_get;;
  if c_true i then panic "sched interruptible" else
  swtch;;
  upd_mycpu (c_set_intena (c_intena c)).

Definition yield : K unit :=
  me <- myproc;;
  p <- deref me;;
  acquire (LK_proc p);;
  upd_proc p (p_set_state RUNNABLE);;
  sched;;
  release (LK_proc p).

Definition sleep (ch : chan) (lk : lockid) : K unit :=
  me <- myproc;;
  p <- deref me;;
  acquire (LK_proc p);;
  release lk;;
  upd_proc p (p_set_chan ch);;
  upd_proc p (p_set_state SLEEPING);;
  sched;;
  upd_proc p (p_set_chan CH_null);;
  release (LK_proc p);;
  acquire lk.

Definition wakeup (ch : chan) : K unit :=
  for_each (seq 0 NPROC) (fun p =>
    me <- myproc;;
    when negb (bool_decide (me = Some p)) do
      (acquire (LK_proc p);;
       pr <- proc_at p;;
       (when bool_decide (p_state pr = SLEEPING) && bool_decide (p_chan pr = ch) do
          upd_proc p (p_set_state RUNNABLE));;
       release (LK_proc p))).

Fixpoint kill_loop (ps : list nat) (pid : Z) : K Z :=
  match ps with
  | [] => ret (-1)
  | p :: ps =>
      acquire (LK_proc p);;
      pr <- proc_at p;;
      if p_pid pr =? pid then
        upd_proc p (p_set_killed 1);;
        (when bool_decide (p_state pr = SLEEPING) do upd_proc p (p_set_state RUNNABLE));;
        release (LK_proc p);;
        ret 0
      else
      release (LK_proc p);;
      kill_loop ps pid
  end.

Definition kill (pid : Z) : K Z := kill_loop (seq 0 NPROC) pid.

Definition setkilled (p : nat) : K unit :=
  acquire (LK_proc p);;
  upd_proc p (p_set_killed 1);;
  release (LK_proc p).

Definition killed (p : nat) : K Z :=
  acquire (LK_proc p);;
  k <- gets (fun s => p_killed (k_procs s !!! p));;
  release (LK_proc p);;
  ret k.

(** One pass over the process table; the result is [found]. *)
Fixpoint scheduler_pass (ps : list nat) (found : Z) : K Z :=
  match ps with
  | [] => ret found
  | p :: ps =>
      acquire (LK_proc p);;
      pr <- proc_at p;;
      f <- (if bool_decide (p_state pr = RUNNABLE) then
              upd_proc p (p_set_state RUNNING);;
              upd_mycpu (c_set_proc (Some p));;
              swtch;;
              upd_mycpu (c_set_proc None);;
              ret 1
            else ret found);;
      release (LK_proc p);;
      scheduler_pass ps f
  end.

(** [n] rounds of the endless loop; wfi waits for an interrupt and has no
    other effect. *)
Fixpoint scheduler_rounds (n : nat) : K unit :=
  match n with
  | O => diverge
  | S n =>
      intr_on;;
      found <- scheduler_pass (seq 0 NPROC) 0;;
      (when found =? 0 do intr_on);;
      scheduler_rounds n
  end.

Definition scheduler (n : nat) : K unit :=
  upd_mycpu (c_set_proc None);;
  scheduler_rounds n.

(** ** Waking *)

Definition proc_locks_free (s : kstate) : Prop := forall i, lock_free (LK_proc i) s.

(** What wakeup() does to slot [i] of the table. *)
Definition woken (ch : chan) (me : option nat) (i : nat) (p : proc) : proc :=
  if bool_decide (me = Some i) then p else
  if bool_decide (p_state p = SLEEPING) && bool_decide (p_chan p = ch)
  then p_set_state RUNNABLE p else p.

Lemma fold_alter_lookup {A} (f : nat -> A -> A) n : forall a (l : list A) j,
  fold_left (fun l i => alter (f i) i l) (seq a n) l !! j =
    if decide (a <= j < a + n)%nat then f j <$> l !! j else l !! j.
Proof.
  induction n as [|n IH]; intros a l j; cbn [seq fold_left].
  - by rewrite decide_False by lia.
  - rewrite IH. destruct (decide (a = j)) as [->|Hne].
    + rewrite decide_False, decide_True by lia. apply list_lookup_alter_eq.
    + rewrite list_lookup_alter_ne by done.
      destruct (decide (S a <= j < S a + n)%nat); [rewrite decide_True by lia|rewrite decide_False by lia]; done.
Qed.

Lemma fold_alter {A} (f : nat -> A -> A) (l : list A) n : length l = n ->
  fold_left (fun l i => alter (f i) i l) (seq 0 n) l = imap f l.
Proof.
  intros Hn. apply list_eq. intros j. rewrite fold_alter_lookup, list_lookup_imap.
  destruct (decide _); [done|]. by rewrite (lookup_ge_None_2 l j) by lia.
Qed.

(** A loop over the process table whose body updates one slot. *)
Lemma for_each_procs (body : nat -> K unit) (f : nat -> proc -> proc) (Q : kstate -> Prop) s n :
  (forall s i, Q s -> (i < n)%nat ->
     body i s = Ok tt (k_set_procs (alter (f i) i (k_procs s)) s) /\
     Q (k_set_procs (alter (f i) i (k_procs s)) s)) ->
  Q s -> length (k_procs s) = n ->
  for_each (seq 0 n) body s = Ok tt (k_set_procs (imap f (k_procs s)) s).
Proof.
  intros Hb HQ Hn.
  destruct (for_each_fold body (fun s i => k_set_procs (alter (f i) i (k_procs s)) s) Q (seq 0 n))
    with (s := s) as [E _]; [|done|].
  { intros s1 i HQ1 [_ Hi]%elem_of_seq. apply Hb; [done|lia]. }
  rewrite E. f_equal. rewrite <- (fold_alter f (k_procs s) n) by done.
  generalize (seq 0 n). intros idx. clear. revert s.
  induction idx as [|i idx IH]; intros s; cbn [fold_left]; [done|]. by rewrite IH.
Qed.

Lemma wakeup_body ch p s :
  settled s -> lock_free (LK_proc p) s ->
  (me <- myproc;;
   when negb (bool_decide (me = Some p)) do
      (acquire (LK_proc p);;
       pr <- proc_at p;;
       (when bool_decide (p_state pr = SLEEPING) && bool_decide (p_chan pr = ch) do
          upd_proc p (p_set_state RUNNABLE));;
       release (LK_proc p))) s
  = Ok tt (k_set_procs (alter (woken ch (cur_proc s) p) p (k_procs s)) s).
Proof.
  intros Hs Hl. mrun (myproc_eq s Hs). unfold woken.
  destruct (bool_decide (cur_proc s = Some p)) eqn:Eme; cbn [negb].
  { by rewrite alter_const. }
  mrun (acquire_eq _ s Hl). unfold proc_at. mred.
  change (k_procs (locked (LK_proc p) s)) with (k_procs s).
  rewrite (alter_if (fun p0 => bool_decide (p_state p0 = SLEEPING) && bool_decide (p_chan p0 = ch))
    (p_set_state RUNNABLE)). cbv beta.
  unfold upd_proc. destruct (_ && _); mred.
  - set (s' := k_set_procs (alter (p_set_state RUNNABLE) p (k_procs s)) s).
    exact (release_locked (LK_proc p) s' Hs Hl).
  - exact (release_locked (LK_proc p) s Hs Hl).
Qed.

Lemma wakeup_eq ch s :
  settled s -> proc_locks_free s -> length (k_procs s) = NPROC ->
  wakeup ch s = Ok tt (k_set_procs (imap (woken ch (cur_proc s)) (k_procs s)) s).
Proof.
  intros Hs Hl Hn. unfold wakeup.
  apply (for_each_procs _ _ (fun s' => settled s' /\ proc_locks_free s' /\ cur_proc s' = cur_proc s)); [|done|done].
  intros s1 i (Hs1 & Hl1 & E1) Hi. rewrite <- E1. split; [by apply wakeup_body|done].
Qed.

(** ** Sleeping *)

(** Releasing the outer of two locks. *)
Lemma release_under lk lk2 s :
  settled s -> depth s + 1 < 2 ^ 30 -> lk <> lk2 -> lock_free lk s ->
  release lk (locked lk2 (locked lk s)) = Ok tt (locked lk2 s).
Proof.
  intros Hs Hd Hne Hf. unfold release, bind, holding, gets, modify. cbn [rbind].
  rewrite bool_decide_eq_true_2
    by (cbn; rewrite lookup_insert_ne by done; by rewrite lookup_insert_eq).
  cbn [negb rbind].
  assert (k_set_locks (delete lk (k_locks (locked lk2 (locked lk s)))) (locked lk2 (locked lk s))
    = pushed (locked lk2 s)) as ->.
  { unfold locked. cbn. rewrite delete_insert_ne, delete_insert_id by done. done. }
  apply pop_pushed. by apply settled_locked.
Qed.

(** The state in which process [p] blocks, and those it is resumed in: the
    scheduler runs [p] again with p->lock held and nothing else, and sched()
    restores the saved [intena] [i]. *)
Definition blocked (p : nat) (ch : chan) (s : kstate) : kstate :=
  k_set_procs (alter (fun pr => p_set_state SLEEPING (p_set_chan ch pr)) p (k_procs s))
    (locked (LK_proc p) s).

Definition resumed (p : nat) (i : Z) (s2 s : kstate) : Prop :=
  settled s /\ depth s = 0 /\ cur_proc s = Some p /\ lock_free (LK_proc p) s /\
  k_set_cpus (alter (c_set_intena i) (cpu_ix s2) (k_cpus s2)) s2 = locked (LK_proc p) s.

(** What sched() checks. *)
Lemma sched_eq p s :
  settled s -> depth s = 1 -> cur_proc s = Some p ->
  k_locks s !! LK_proc p = Some (s32 (r_tp (k_csr s))) ->
  p_state (k_procs s !!! p) <> RUNNING ->
  sched s = Swtch s (fun s' => upd_mycpu (c_set_intena (c_intena (this_cpu s))) s').
Proof.
  intros Hs Hd Hp Hl Hst. unfold sched. mrun (myproc_eq s Hs). rewrite Hp. cbn [deref]. mred.
  unfold holding. mred. rewrite bool_decide_eq_true_2 by done. cbn [negb].
  unfold mycpu. mred. unfold depth in Hd. rewrite Hd. cbn [negb Z.eqb Pos.eqb].
  unfold proc_at. mred. rewrite bool_decide_eq_false_2 by done. unfold intr_get. mred.
  assert (intr s = false) as ->.
  { destruct Hs as (_ & _ & Hi). by rewrite Hd in Hi. }
  done.
Qed.

Lemma intena_locked lk s : settled s -> depth s = 0 -> c_intena (this_cpu (locked lk s)) = Z.b2z (intr s).
Proof.
  intros Hs Hd. change (this_cpu (locked lk s)) with (this_cpu (pushed s)).
  rewrite this_cpu_pushed by done. unfold depth in Hd. by rewrite Hd.
Qed.

Lemma alter_alter {A} (f g : A -> A) i (l : list A) : alter f i (alter g i l) = alter (fun x => f (g x)) i l.
Proof.
  apply list_eq. intros j. destruct (decide (i = j)) as [<-|];
    [rewrite !list_lookup_alter_eq | by rewrite !list_lookup_alter_ne]. by destruct (l !! i).
Qed.

Lemma sleep_eq ch lk p s :
  settled s -> depth s = 0 -> cur_proc s = Some p -> (p < length (k_procs s))%nat ->
  lk <> LK_proc p -> lock_free lk s -> lock_free (LK_proc p) s ->
  exists k, sleep ch lk (locked lk s) = Swtch (blocked p ch s) k /\
    forall s2 s', resumed p (Z.b2z (intr s)) s2 s' -> lock_free lk s' ->
      k s2 = Ok tt (locked lk (k_set_procs (alter (p_set_chan CH_null) p (k_procs s')) s')).
Proof.
  intros Hs Hd Hp Hlen Hne Hl Hlp. unfold sleep.
  assert (settled (locked lk s)) as Hsl by (apply settled_locked; [done|lia]).
  mrun (myproc_eq _ Hsl). rewrite cur_proc_locked, Hp by done. cbn [deref]. mred.
  assert (lock_free (LK_proc p) (locked lk s)) as Hlp1 by by apply lock_free_locked.
  mrun (acquire_eq _ _ Hlp1). mrun (release_under lk (LK_proc p) s Hs ltac:(lia) Hne Hl).
  unfold upd_proc. mred.
  assert (k_set_procs (alter (p_set_state SLEEPING) p (alter (p_set_chan ch) p (k_procs s)))
    (locked (LK_proc p) s) = blocked p ch s) as E by (unfold blocked; by rewrite alter_alter).
  change (k_procs (k_set_procs (alter (p_set_chan ch) p (k_procs (locked (LK_proc p) s))) (locked (LK_proc p) s)))
    with (alter (p_set_chan ch) p (k_procs s)).
  change (k_set_procs (alter (p_set_state SLEEPING) p (alter (p_set_chan ch) p (k_procs s)))
     (k_set_procs (alter (p_set_chan ch) p (k_procs (locked (LK_proc p) s))) (locked (LK_proc p) s)))
    with (k_set_procs (alter (p_set_state SLEEPING) p (alter (p_set_chan ch) p (k_procs s)))
    (locked (LK_proc p) s)).
  rewrite E. unfold bind at 1. rewrite (sched_eq p).
  - cbn [rbind]. eexists. split; [reflexivity|]. intros s2 s' (Hs' & Hd' & Hp' & Hlp' & Es2) Hlk'.
    cbv beta. unfold upd_mycpu at 1, modify at 1. cbn [rbind].
    change (c_intena (this_cpu (blocked p ch s))) with (c_intena (this_cpu (locked (LK_proc p) s))).
    rewrite intena_locked by done. rewrite Es2. mred.
    set (s3 := k_set_procs (alter (p_set_chan CH_null) p (k_procs s')) s').
    mrun (release_locked (LK_proc p) s3 Hs' Hlp').
    by rewrite (acquire_eq lk s3 Hlk').
  - apply (settled_locked (LK_proc p) s); [done|lia].
  - change (depth (locked (LK_proc p) s) = 1). rewrite depth_locked by done. lia.
  - change (cur_proc (locked (LK_proc p) s) = Some p). by rewrite cur_proc_locked.
  - cbn. by rewrite lookup_insert_eq.
  - cbn. destruct (lookup_lt_is_Some_2 _ _ Hlen) as [pr Epr].
    erewrite list_lookup_total_correct; [|by rewrite list_lookup_alter_eq, Epr]. done.
Qed.

(** ** kill *)

Definition kill_proc (p : proc) : proc :=
  let p' := p_set_killed 1 p in
  if bool_decide (p_state p = SLEEPING) then p_set_state RUNNABLE p' else p'.

Lemma kill_loop_eq pid n : forall a s,
  settled s -> proc_locks_free s -> length (k_procs s) = (a + n)%nat ->
  kill_loop (seq a n) pid s =
    match list_find (fun p => p_pid p = pid) (drop a (k_procs s)) with
    | Some (i, _) => Ok 0 (k_set_procs (alter kill_proc (a + i)%nat (k_procs s)) s)
    | None => Ok (-1) s
    end.
Proof.
  induction n as [|n IH]; intros a s Hs Hl Hn; cbn [seq kill_loop].
  { by rewrite drop_ge by lia. }
  destruct (lookup_lt_is_Some_2 (k_procs s) a) as [p Hp]; [lia|].
  mrun (acquire_eq (LK_proc a) s (Hl a)). unfold proc_at. mred.
  change (k_procs (locked (LK_proc a) s)) with (k_procs s).
  rewrite (list_lookup_total_correct _ _ _ Hp), (drop_S _ _ _ Hp). cbn [list_find].
  destruct (decide (p_pid p = pid)) as [E|E].
  - rewrite (proj2 (Z.eqb_eq _ _) E), Nat.add_0_r. unfold upd_proc. mred.
    set (s1 := k_set_procs (alter kill_proc a (k_procs s)) s).
    assert (forall f, (forall x, k_procs s !! a = Some x -> f x = kill_proc x) ->
      (release (LK_proc a);; ret 0)
        (k_set_procs (alter f a (k_procs s)) (locked (LK_proc a) s)) = Ok 0 s1) as Hfin.
    { intros f Hf. rewrite (alter_ext f kill_proc) by done.
      by mrun (release_locked (LK_proc a) s1 Hs (Hl a)). }
    destruct (bool_decide (p_state p = SLEEPING)) eqn:Est; mred.
    + change (k_procs (k_set_procs (alter (p_set_killed 1) a (k_procs (locked (LK_proc a) s)))
        (locked (LK_proc a) s))) with (alter (p_set_killed 1) a (k_procs s)).
      rewrite alter_alter. apply Hfin. intros x Hx. assert (x = p) as -> by congruence.
      unfold kill_proc. by rewrite Est.
    + apply Hfin. intros x Hx. assert (x = p) as -> by congruence. unfold kill_proc. by rewrite Est.
  - rewrite (proj2 (Z.eqb_neq _ _) E).
    mrun (release_locked (LK_proc a) s Hs (Hl a)). rewrite IH by (done || lia).
    destruct (list_find _ (drop (S a) (k_procs s))) as [[i q]|]; [|done]. cbn.
    by rewrite Nat.add_succ_r.
Qed.

Lemma kill_eq pid s :
  settled s -> proc_locks_free s -> length (k_procs s) = NPROC ->
  kill pid s =
    match list_find (fun p => p_pid p = pid) (k_procs s) with
    | Some (i, _) => Ok 0 (k_set_procs (alter kill_proc i (k_procs s)) s)
    | None => Ok (-1) s
    end.
Proof. intros Hs Hl Hn. unfold kill. by rewrite kill_loop_eq. Qed.

Lemma killed_eq p s : settled s -> lock_free (LK_proc p) s ->
  killed p s = Ok (p_killed (k_procs s !!! p)) s.
Proof.
  intros Hs Hl. unfold killed. mrun (acquire_eq _ s Hl).
  by mrun (release_locked (LK_proc p) s Hs Hl).
Qed.

Lemma setkilled_eq p s : settled s -> lock_free (LK_proc p) s ->
  setkilled p s = Ok tt (k_set_procs (alter (p_set_killed 1) p (k_procs s)) s).
Proof.
  intros Hs Hl. unfold setkilled, upd_proc. mrun (acquire_eq _ s Hl).
  set (s1 := k_set_procs (alter (p_set_killed 1) p (k_procs s)) s).
  exact (release_locked (LK_proc p) s1 Hs Hl).
Qed.

(** ** No lost wakeup

    A process that waits for a condition under a lock [lk] with sleep(), and
    any number of harts that make the condition true and call wakeup(), cut
    at every lock operation and at every access to the condition and to
    [p->state]. *)
Module Wakeup.

Inductive who : Type := Waiter | Waker (h : nat).

(** The waiting process: [while(!cond) sleep(chan, &lk)] under [lk]. *)
Inductive wpc : Type :=
| WOut        (* before acquire(&lk), also when sleep() reacquires it *)
| WTest       (* holds lk, about to test the condition *)
| WSleep1     (* condition was false; in sleep(), about to acquire p->lock *)
| WSleep2     (* holds lk and p->lock, about to release lk *)
| WSleep3     (* about to set p->chan = chan *)
| WSleep4     (* about to set p->state = SLEEPING *)
| WSched      (* SLEEPING, about to switch; the scheduler releases p->lock *)
| WAsleep     (* off the CPU *)
| WTidy       (* resumed with p->lock held, about to set p->chan = 0 *)
| WBack       (* about to release p->lock *)
| WGot.       (* saw the condition under lk *)

(** A hart. It may set the condition under [lk] and call wakeup() on the
    condition's channel ([KSet] to [KUnlock]), or call wakeup() on any channel
    for a reason of its own ([XWake] to [XUnlockP]). *)
Inductive kpc : Type :=
| KOut | KSet
| KWake (ch : Z) (* in wakeup(ch), about to acquire p->lock *)
| KCheck (ch : Z) (* holds p->lock, about to test p->state and p->chan *)
| KUnlockP | KUnlock
| XWake (ch : Z) | XCheck (ch : Z) | XUnlockP.

Record st := mkSt {
  cond : bool; lk : option who; pl : option who; pstate : procstate; pchan : Z;
  w : wpc; ks : nat -> kpc
}.

Definition upd (f : nat -> kpc) (h : nat) (p : kpc) : nat -> kpc :=
  fun i => if decide (i = h) then p else f i.

(** The test of wakeup(): [p->state == SLEEPING && p->chan == chan]. *)
Definition wake_test (ps : procstate) (pc ch : Z) : procstate :=
  if bool_decide (ps = SLEEPING) && (pc =? ch) then RUNNABLE else ps.

Section Chan.
(** The channel the process waits on. *)
Variable chan : Z.

Inductive step : st -> st -> Prop :=
| S_acquire c pl ps pc k : step (mkSt c None pl ps pc WOut k) (mkSt c (Some Waiter) pl ps pc WTest k)
| S_test c l pl ps pc k :
    step (mkSt c l pl ps pc WTest k) (mkSt c l pl ps pc (if c then WGot else WSleep1) k)
| S_done c l pl ps pc k : step (mkSt c l pl ps pc WGot k) (mkSt false None pl ps pc WOut k)
| S_lockp c l ps pc k : step (mkSt c l None ps pc WSleep1 k) (mkSt c l (Some Waiter) ps pc WSleep2 k)
| S_unlock c l pl ps pc k : step (mkSt c l pl ps pc WSleep2 k) (mkSt c None pl ps pc WSleep3 k)
| S_chan c l pl ps pc k : step (mkSt c l pl ps pc WSleep3 k) (mkSt c l pl ps chan WSleep4 k)
| S_sleeping c l pl ps pc k : step (mkSt c l pl ps pc WSleep4 k) (mkSt c l pl SLEEPING pc WSched k)
| S_sched c l pl ps pc k : step (mkSt c l pl ps pc WSched k) (mkSt c l None ps pc WAsleep k)
| S_resume c l pc k :
    step (mkSt c l None RUNNABLE pc WAsleep k) (mkSt c l (Some Waiter) RUNNING pc WTidy k)
| S_tidy c l pl ps pc k : step (mkSt c l pl ps pc WTidy k) (mkSt c l pl ps 0 WBack k)
| S_back c l pl ps pc k : step (mkSt c l pl ps pc WBack k) (mkSt c l None ps pc WOut k)
| K_acquire c pl ps pc wp k h : k h = KOut ->
    step (mkSt c None pl ps pc wp k) (mkSt c (Some (Waker h)) pl ps pc wp (upd k h KSet))
| K_set c l pl ps pc wp k h : k h = KSet ->
    step (mkSt c l pl ps pc wp k) (mkSt true l pl ps pc wp (upd k h (KWake chan)))
| K_lockp c l ps pc wp k h ch : k h = KWake ch ->
    step (mkSt c l None ps pc wp k) (mkSt c l (Some (Waker h)) ps pc wp (upd k h (KCheck ch)))
| K_check c l pl ps pc wp k h ch : k h = KCheck ch ->
    step (mkSt c l pl ps pc wp k) (mkSt c l pl (wake_test ps pc ch) pc wp (upd k h KUnlockP))
| K_unlockp c l pl ps pc wp k h : k h = KUnlockP ->
    step (mkSt c l pl ps pc wp k) (mkSt c l None ps pc wp (upd k h KUnlock))
| K_unlock c l pl ps pc wp k h : k h = KUnlock ->
    step (mkSt c l pl ps pc wp k) (mkSt c None pl ps pc wp (upd k h KOut))
| X_call c l pl ps pc wp k h ch : k h = KOut ->
    step (mkSt c l pl ps pc wp k) (mkSt c l pl ps pc wp (upd k h (XWake ch)))
| X_lockp c l ps pc wp k h ch : k h = XWake ch ->
    step (mkSt c l None ps pc wp k) (mkSt c l (Some (Waker h)) ps pc wp (upd k h (XCheck ch)))
| X_check c l pl ps pc wp k h ch : k h = XCheck ch ->
    step (mkSt c l pl ps pc wp k) (mkSt c l pl (wake_test ps pc ch) pc wp (upd k h XUnlockP))
| X_unlockp c l pl ps pc wp k h : k h = XUnlockP ->
    step (mkSt c l pl ps pc wp k) (mkSt c l None ps pc wp (upd k h KOut)).

Definition init : st := mkSt false None None RUNNING 0 WOut (fun _ => KOut).

Inductive reachable : st -> Prop :=
| R_init : reachable init
| R_step s s' : reachable s -> step s s' -> reachable s'.

Definition w_lk (p : wpc) : bool := match p with WTest | WSleep1 | WSleep2 | WGot => true | _ => false end.
Definition w_pl (p : wpc) : bool :=
  match p with WSleep2 | WSleep3 | WSleep4 | WSched | WTidy | WBack => true | _ => false end.
Definition k_lk (p : kpc) : bool :=
  match p with KSet | KWake _ | KCheck _ | KUnlockP | KUnlock => true | _ => false end.
Definition k_pl (p : kpc) : bool :=
  match p with KCheck _ | KUnlockP | XCheck _ | XUnlockP => true | _ => false end.

(** In a wakeup() of the condition's channel, the process not yet tested. *)
Definition waking (p : kpc) : bool :=
  match p with KWake ch | KCheck ch => ch =? chan | _ => false end.

(** Committed to sleeping, the condition being false when last tested. *)
Definition w_commit (s : st) : bool :=
  match w s with
  | WSleep3 | WSleep4 | WSched => true
  | WAsleep => bool_decide (pstate s = SLEEPING)
  | _ => false
  end.

Definition w_onchan (p : wpc) : bool :=
  match p with WSleep4 | WSched | WAsleep | WTidy => true | _ => false end.

Record inv (s : st) : Prop := {
  i_wlk : w_lk (w s) = true <-> lk s = Some Waiter;
  i_klk : forall h, k_lk (ks s h) = true <-> lk s = Some (Waker h);
  i_wpl : w_pl (w s) = true <-> pl s = Some Waiter;
  i_kpl : forall h, k_pl (ks s h) = true <-> pl s = Some (Waker h);
  i_cond : w s = WSleep1 \/ w s = WSleep2 -> cond s = false;
  i_wake : w_commit s = true -> cond s = true -> exists h, waking (ks s h) = true;
  i_state : w s = WAsleep \/ w s = WSched \/ pstate s = RUNNING;
  i_sched : w s = WSched -> pstate s = SLEEPING;
  i_chan : w_onchan (w s) = true -> pchan s = chan
}.

Lemma wakeup_inv_init : inv init.
Proof. split; cbn; naive_solver. Qed.

Lemma upd_eq f h p : upd f h p h = p.
Proof. unfold upd. by rewrite decide_True. Qed.
Lemma upd_ne f h p i : i <> h -> upd f h p i = f i.
Proof. intros. unfold upd. by rewrite decide_False. Qed.

Lemma still_waking k h p : waking (k h) = false ->
  (exists i, waking (k i) = true) -> exists i, waking (upd k h p i) = true.
Proof. intros E [i Hi]. exists i. rewrite upd_ne; [done|]. intros ->. congruence. Qed.

(** A test that leaves the process asleep was made for another channel. *)
Lemma wake_test_sleeping ps pc ch : wake_test ps pc ch = SLEEPING -> ps = SLEEPING /\ pc <> ch.
Proof. unfold wake_test. destruct (pc =? ch) eqn:E; destruct ps; cbn; intros; try done; by apply Z.eqb_neq in E. Qed.

(** [look h]: what the invariant says of waker [h]. *)
#[local] Ltac look h :=
  match goal with
  | H2 : (forall h, k_lk _ = true <-> _), H4 : (forall h, k_pl _ = true <-> _) |- _ =>
      pose proof (H2 h); pose proof (H4 h)
  end.

Lemma moved_waking k h p : waking p = waking (k h) ->
  (exists i, waking (k i) = true) -> exists i, waking (upd k h p i) = true.
Proof.
  intros E [i Hi]. destruct (decide (i = h)) as [->|]; [exists h; rewrite upd_eq; congruence|].
  exists i. by rewrite upd_ne.
Qed.

(** After the test of a wakeup(), by a hart that holds p->lock, a process still
    committed to sleep has a waker other than that one. *)
Lemma check_waking c l pl0 l' pl' ps pc wp k h ch p :
  (w_onchan wp = true -> pc = chan) -> ~ w_pl wp = true ->
  (w_commit (mkSt c l pl0 ps pc wp k) = true -> c = true -> exists i, waking (k i) = true) ->
  (waking (k h) = true -> ch = chan) ->
  w_commit (mkSt c l' pl' (wake_test ps pc ch) pc wp (upd k h p)) = true -> c = true ->
  exists i, waking (upd k h p i) = true.
Proof.
  intros Hch Hpl Hw Hk Hc ->. destruct wp; cbn in *; try done.
  apply bool_decide_eq_true in Hc as [-> Hne]%wake_test_sleeping. specialize (Hch eq_refl) as ->.
  apply still_waking; [|by apply Hw].
  destruct (waking (k h)) eqn:E; [|done]. by specialize (Hk eq_refl) as ->.
Qed.

Lemma wakeup_inv_step s s' : inv s -> step s s' -> inv s'.
Proof.
  intros [H1 H2 H3 H4 H5 H6 H7 H8 H9] Hs.
  destruct Hs as [c pl0 ps pc k|c l pl0 ps pc k|c l pl0 ps pc k|c l ps pc k|c l pl0 ps pc k
    |c l pl0 ps pc k|c l pl0 ps pc k|c l pl0 ps pc k|c l pc k|c l pl0 ps pc k|c l pl0 ps pc k
    |c pl0 ps pc wp k h E|c l pl0 ps pc wp k h E|c l ps pc wp k h ch E|c l pl0 ps pc wp k h ch E
    |c l pl0 ps pc wp k h E|c l pl0 ps pc wp k h E|c l pl0 ps pc wp k h ch E|c l ps pc wp k h ch E
    |c l pl0 ps pc wp k h ch E|c l pl0 ps pc wp k h E]; cbn in *.
  2: destruct c.
  1-12: split; cbn; try (intros i; look i); try (intuition congruence).
  all: look h; rewrite E in *; cbn in *.
  all: split; cbn; try (intros i; destruct (decide (i = h)) as [->|];
    [rewrite upd_eq; cbn | rewrite upd_ne by done; look i]).
  all: try (intuition congruence).
  all: try (intros Hc Hcd; apply still_waking; [by rewrite E|exact (H6 Hc Hcd)]).
  - intros [-> | ->]; cbn in *; intuition congruence.
  - intros _ _. exists h. rewrite upd_eq. apply Z.eqb_refl.
  - intros Hc Hcd. apply moved_waking; [by rewrite E|exact (H6 Hc Hcd)].
  - intros Hc Hcd. eapply check_waking; [exact H9|intros ?; intuition congruence|exact H6| |exact Hc|exact Hcd].
    rewrite E. by intros ?%Z.eqb_eq.
  - destruct H7 as [|[| ->]]; auto.
  - intros ->. cbn in *. intuition congruence.
  - intros Hc Hcd. eapply check_waking; [exact H9|intros ?; intuition congruence|exact H6| |exact Hc|exact Hcd].
    by rewrite E.
  - destruct H7 as [|[| ->]]; auto.
  - intros ->. cbn in *. intuition congruence.
Qed.

Lemma wakeup_reachable_inv s : reachable s -> inv s.
Proof. induction 1; [apply wakeup_inv_init|by eapply wakeup_inv_step]. Qed.

(** C13: no wakeup is lost. In every reachable state, a process that sleeps in
    sleep(chan) (its state is SLEEPING and it is off the CPU) while the condition
    it waits for is true will be woken: some hart that made the condition true is
    in wakeup() of that channel and has yet to test the process, and the test
    will hold, since p->chan is the channel and stays it until the process is
    resumed. Other harts may call wakeup() on any channel meanwhile. The reason
    is that sleep() takes p->lock before it releases the condition's lock, and
    sets p->chan and p->state under it. *)
Theorem no_lost_wakeup s :
  reachable s -> w s = WAsleep -> pstate s = SLEEPING -> cond s = true ->
  exists h, (ks s h = KWake chan \/ ks s h = KCheck chan) /\
    wake_test (pstate s) (pchan s) chan = RUNNABLE.
Proof.
  intros [_ _ _ _ _ Hw _ _ Hch]%wakeup_reachable_inv Hs Hp Hc.
  destruct Hw as [h Hh]; [|done|].
  { unfold w_commit. rewrite Hs. by apply bool_decide_eq_true. }
  exists h. rewrite Hch, Hp by (by rewrite Hs). split; [|unfold wake_test; by rewrite Z.eqb_refl].
  destruct (ks s h); try done; cbn in Hh; apply Z.eqb_eq in Hh as ->; auto.
Qed.

End Chan.

Lemma no_lost_wakeup_witness : exists s, reachable 7 s /\ w s = WAsleep /\ cond s = true /\
  exists h, ks s h = KWake 7 \/ ks s h = KCheck 7.
Proof.
  pose proof (R_init 7) as H.
  eapply R_step in H; [|apply S_acquire]. eapply R_step in H; [|apply S_test].
  eapply R_step in H; [|apply S_lockp]. eapply R_step in H; [|apply S_unlock].
  eapply R_step in H; [|apply S_chan].
  eapply R_step in H; [|apply S_sleeping]. eapply R_step in H; [|apply S_sched].
  eapply R_step in H; [|apply (X_call _ _ _ _ _ _ _ _ 5 9); reflexivity].
  eapply R_step in H; [|apply (X_lockp _ _ _ _ _ _ _ 5 9); reflexivity].
  eapply R_step in H; [|apply (X_check _ _ _ _ _ _ _ _ 5 9); reflexivity].
  eapply R_step in H; [|apply (K_acquire _ _ _ _ _ _ _ 3); reflexivity].
  eapply R_step in H; [|apply (K_set _ _ _ _ _ _ _ _ 3); reflexivity].
  eexists. split; [exact H|]. split; [reflexivity|]. split; [reflexivity|].
  destruct (no_lost_wakeup 7 _ H) as (h & Hh & _); [reflexivity..|]. by exists h.
Defined.

End Wakeup.

(** wakeup(chan) makes runnable exactly the other processes that sleep on
    [chan], and changes nothing else. *)
Theorem wakeup_wakes ch s :
  settled s -> proc_locks_free s -> length (k_procs s) = NPROC ->
  wakeup ch s = Ok tt (k_set_procs (imap (fun i p =>
    if bool_decide (cur_proc s <> Some i) && bool_decide (p_state p = SLEEPING) &&
       bool_decide (p_chan p = ch)
    then p_set_state RUNNABLE p else p) (k_procs s)) s).
Proof.
  intros Hs Hl Hn. rewrite wakeup_eq by done. f_equal. f_equal. apply imap_ext.
  intros i p _. unfold woken. rewrite bool_decide_not.
  by destruct (bool_decide (cur_proc s = Some i)).
Qed.

Lemma wakeup_wakes_witness : exists s s', wakeup CH_ticks s = Ok tt s' /\
  p_state (k_procs s !!! 5%nat) = SLEEPING /\ p_state (k_procs s' !!! 5%nat) = RUNNABLE.
Proof.
  set (s0 := boot_state (fun _ => 0) ∅).
  set (s := k_set_procs (alter (fun p => p_set_state SLEEPING (p_set_chan CH_ticks p)) 5%nat (k_procs s0)) s0).
  exists s. eexists. split; [apply wakeup_wakes|split].
  - vm_compute. intuition congruence.
  - intros i. reflexivity.
  - reflexivity.
  - reflexivity.
  - vm_compute. reflexivity.
Defined.

(** sleep(chan, lk), called with [lk] held and nothing else, blocks the
    process in a single atomic step as seen by others: when it gives up the CPU
    it is SLEEPING on [chan], [lk] is free and p->lock is still held; and when
    the scheduler resumes it, it returns with [lk] held again, p->lock free and
    the interrupt state saved before. *)
Theorem sleep_blocks ch lk p s :
  settled s -> depth s = 0 -> cur_proc s = Some p -> (p < length (k_procs s))%nat ->
  lk <> LK_proc p -> lock_free lk s -> lock_free (LK_proc p) s ->
  exists k, sleep ch lk (locked lk s) = Swtch (blocked p ch s) k /\
    forall s2 s', resumed p (Z.b2z (intr s)) s2 s' -> lock_free lk s' ->
      k s2 = Ok tt (locked lk (k_set_procs (alter (p_set_chan CH_null) p (k_procs s')) s')).
Proof. apply sleep_eq. Qed.

Definition running0 : kstate :=
  let s := boot_state (fun _ => 0) ∅ in k_set_cpus (alter (c_set_proc (Some 3%nat)) 0%nat (k_cpus s)) s.

Lemma sleep_blocks_witness :
  exists k, sleep CH_ticks LK_ticks (locked LK_ticks running0) = Swtch (blocked 3 CH_ticks running0) k /\
    k (locked (LK_proc 3) running0) =
      Ok tt (locked LK_ticks (k_set_procs (alter (p_set_chan CH_null) 3%nat (k_procs running0)) running0)).
Proof.
  assert (settled running0) as Hs by (vm_compute; intuition congruence).
  destruct (sleep_blocks CH_ticks LK_ticks 3 running0 Hs) as (k & E & Hk); try reflexivity; try done.
  - vm_compute. lia.
  - exists k. split; [exact E|]. apply Hk; [|reflexivity].
    split; [exact Hs|]. split; [reflexivity|]. split; [reflexivity|]. split; [reflexivity|]. reflexivity.
Defined.

(** kill(pid) marks the first process with that pid as killed, wakes it if
    it sleeps, and returns 0; with no such process it returns -1 and changes
    nothing. *)
Theorem kill_marks pid s :
  settled s -> proc_locks_free s -> length (k_procs s) = NPROC ->
  kill pid s =
    match list_find (fun p => p_pid p = pid) (k_procs s) with
    | Some (i, _) => Ok 0 (k_set_procs (alter kill_proc i (k_procs s)) s)
    | None => Ok (-1) s
    end.
Proof. apply kill_eq. Qed.

Lemma kill_marks_witness : kill 7 running0 = Ok (-1) running0 /\ exists s', kill 0 running0 = Ok 0 s'.
Proof.
  assert (settled running0) as Hs by (vm_compute; intuition congruence).
  assert (proc_locks_free running0) as Hl by (intros i; reflexivity).
  split; [|eexists]; rewrite (kill_marks _ running0 Hs Hl); reflexivity.
Defined.
