(* ===== verification/Sleeplock.v ===== *)
(** sleeplock.c: long-term locks of buffers and inodes. *)

From S2P Require Import Prelude Riscv State Spinlock Sched.

(** The [struct sleeplock] inside a buffer or an inode. *)
Definition sl_get (l : slid) (s : kstate) : sleeplock :=
  match l with
  | SL_buf i => b_lock (k_bufs s !!! i)
  | SL_inode i => i_lock (k_inodes s !!! i)
  end.

Definition sl_put (l : slid) (v : sleeplock) (s : kstate) : kstate :=
  match l with
  | SL_buf i => k_set_bufs (alter (b_set_lock v) i (k_bufs s)) s
  | SL_inode i => k_set_inodes (alter (i_set_lock v) i (k_inodes s)) s
  end.

Definition upd_sl (l : slid) (f : sleeplock -> sleeplock) : K unit :=
  modify (fun s => sl_put l (f (sl_get l s)) s).

Definition mypid : K Z :=
  me <- myproc;;
  p <- deref me;;
  pr <- proc_at p;;
  ret (p_pid pr).

Definition initsleeplock (l : slid) : K unit :=
  initlock (LK_sleep l);;
  upd_sl l (sl_set_locked 0);;
  upd_sl l (sl_set_pid 0).

(** [while (lk->locked) sleep(lk, &lk->lk)] *)
Fixpoint acquiresleep_loop (n : nat) (l : slid) : K unit :=
  v <- gets (sl_get l);;
  if c_true (sl_locked v) then
    match n with
    | O => diverge
    | S n => sleep (CH_sleeplock l) (LK_sleep l);; acquiresleep_loop n l
    end
  else ret tt.

Definition acquiresleep (l : slid) : K unit :=
  acquire (LK_sleep l);;
  acquiresleep_loop patience l;;
  upd_sl l (sl_set_locked 1);;
  pid <- mypid;;
  upd_sl l (sl_set_pid pid);;
  release (LK_sleep l).

Definition releasesleep (l : slid) : K unit :=
  acquire (LK_sleep l);;
  upd_sl l (sl_set_locked 0);;
  upd_sl l (sl_set_pid 0);;
  wakeup (CH_sleeplock l);;
  release (LK_sleep l).

Definition holdingsleep (l : slid) : K bool :=
  acquire (LK_sleep l);;
  v <- gets (sl_get l);;
  pid <- (if c_true (sl_locked v) then mypid else ret 0);;
  release (LK_sleep l);;
  ret (c_true (sl_locked v) && (sl_pid v =? pid)).

(** ** A thread running in the kernel

    The state in which system-call code runs: interrupts as they may be, no
    spinlock held by anyone, this process running. *)
Record running (p : nat) (s : kstate) : Prop := {
  rn_settled : settled s;
  rn_depth : depth s = 0;
  rn_cur : cur_proc s = Some p;
  rn_procs : length (k_procs s) = NPROC;
  rn_p : (p < NPROC)%nat;
  rn_locks : k_locks s = ∅;
  rn_state : p_state (k_procs s !!! p) = RUNNING /\ p_chan (k_procs s !!! p) = CH_null
}.

Lemma running_free p s lk : running p s -> lock_free lk s.
Proof. intros [_ _ _ _ _ H _]. unfold lock_free. by rewrite H. Qed.

Lemma running_mypid p s : running p s -> mypid s = Ok (p_pid (k_procs s !!! p)) s.
Proof.
  intros Hr. unfold mypid. mrun (myproc_eq s (rn_settled _ _ Hr)). rewrite (rn_cur _ _ Hr). done.
Qed.

#[export] Hint Resolve rn_settled running_free : xv6.

(** What a wakeup by process [p] can do to the process table. *)
Definition procs_rel (p : nat) (ps ps' : list proc) : Prop :=
  length ps' = length ps /\ ps' !! p = ps !! p.

(** ** Sleep locks without contention *)

Definition sl_in (l : slid) (s : kstate) : Prop :=
  match l with
  | SL_buf i => (i < length (k_bufs s))%nat
  | SL_inode i => (i < length (k_inodes s))%nat
  end.

Lemma sl_put_locked l v lk s : sl_put l v (locked lk s) = locked lk (sl_put l v s).
Proof. by destruct l. Qed.

Lemma sl_get_locked l lk s : sl_get l (locked lk s) = sl_get l s.
Proof. by destruct l. Qed.

Lemma lookup_total_alter {A} `{Inhabited A} (f : A -> A) i (xs : list A) :
  (i < length xs)%nat -> alter f i xs !!! i = f (xs !!! i).
Proof.
  intros Hi. apply list_lookup_total_correct. rewrite list_lookup_alter_eq.
  by rewrite (list_lookup_lookup_total_lt xs i Hi).
Qed.

Lemma lookup_total_alter_ne {A} `{Inhabited A} (f : A -> A) i j (xs : list A) :
  i <> j -> alter f i xs !!! j = xs !!! j.
Proof. intros. by rewrite !list_lookup_total_alt, list_lookup_alter_ne. Qed.

Lemma sl_get_put l v s : sl_in l s -> sl_get l (sl_put l v s) = v.
Proof. destruct l; cbn; intros; by rewrite lookup_total_alter. Qed.

Lemma sl_put_put l v v' s : sl_put l v (sl_put l v' s) = sl_put l v s.
Proof. by destruct l; cbn; rewrite alter_alter. Qed.

Lemma running_sl_put p l v s : running p s -> running p (sl_put l v s).
Proof. intros []. by destruct l; split. Qed.

#[export] Hint Resolve running_sl_put : xv6.

Lemma mypid_locked p lk s :
  running p s -> mypid (locked lk s) = Ok (p_pid (k_procs s !!! p)) (locked lk s).
Proof.
  intros Hr. unfold mypid.
  assert (settled (locked lk s)) as Hsl
    by (apply settled_locked; [apply Hr|rewrite (rn_depth _ _ Hr); lia]).
  mrun (myproc_eq _ Hsl). rewrite cur_proc_locked, (rn_cur _ _ Hr) by apply Hr. done.
Qed.

(** acquiresleep() of a free lock records the caller. *)
Lemma acquiresleep_eq p l s :
  running p s -> sl_in l s -> sl_locked (sl_get l s) = 0 ->
  acquiresleep l s = Ok tt (sl_put l (mkSl 1 (p_pid (k_procs s !!! p))) s).
Proof.
  intros Hr Hin Hu. unfold acquiresleep. mrun (acquire_eq (LK_sleep l) s (running_free _ _ _ Hr)).
  change (acquiresleep_loop patience l) with
    (v <- gets (sl_get l);;
     if c_true (sl_locked v) then sleep (CH_sleeplock l) (LK_sleep l);; acquiresleep_loop 99 l else ret tt).
  mred. rewrite sl_get_locked, Hu. cbn [c_true Z.eqb negb]. mred. unfold upd_sl. mred.
  rewrite sl_get_locked, sl_put_locked. set (s1 := sl_put l _ s).
  assert (running p s1) as Hr1 by by apply running_sl_put.
  mrun (mypid_locked p (LK_sleep l) s1 Hr1). rewrite sl_get_locked, sl_put_locked.
  assert (k_procs s1 = k_procs s) as -> by by destruct l. unfold s1.
  rewrite sl_get_put, sl_put_put by done. change (sl_set_pid _ _) with (mkSl 1 (p_pid (k_procs s !!! p))).
  assert (running p (sl_put l (mkSl 1 (p_pid (k_procs s !!! p))) s)) as Hr2 by by apply running_sl_put.
  apply release_locked; [apply Hr2|by apply running_free with p].
Qed.

Lemma holdingsleep_eq p l s :
  running p s ->
  holdingsleep l s =
    Ok (c_true (sl_locked (sl_get l s)) && (sl_pid (sl_get l s) =?
        (if c_true (sl_locked (sl_get l s)) then p_pid (k_procs s !!! p) else 0))) s.
Proof.
  intros Hr. unfold holdingsleep. mrun (acquire_eq (LK_sleep l) s (running_free _ _ _ Hr)).
  rewrite sl_get_locked. destruct (c_true (sl_locked (sl_get l s))).
  - mrun (mypid_locked p (LK_sleep l) s Hr).
    by mrun (release_locked (LK_sleep l) s (rn_settled _ _ Hr) (running_free _ _ _ Hr)).
  - mred. by mrun (release_locked (LK_sleep l) s (rn_settled _ _ Hr) (running_free _ _ _ Hr)).
Qed.

(** The process table after wakeup(ch) by process [p]. *)
Definition woken_by (p : nat) (ch : chan) (ps : list proc) : list proc := imap (woken ch (Some p)) ps.

Lemma woken_by_rel p ch ps : procs_rel p ps (woken_by p ch ps).
Proof.
  split; [apply length_imap|]. unfold woken_by. rewrite list_lookup_imap.
  destruct (ps !! p) as [x|] eqn:E; [|done]. cbn. unfold woken. by rewrite bool_decide_eq_true_2.
Qed.

(** wakeup() inside a critical section of a lock that is not a process's. *)
Lemma wakeup_locked p ch lk s :
  running p s -> (forall i, lk <> LK_proc i) ->
  wakeup ch (locked lk s) = Ok tt (locked lk (k_set_procs (woken_by p ch (k_procs s)) s)).
Proof.
  intros Hr Hlk. rewrite wakeup_eq.
  - rewrite cur_proc_locked, (rn_cur _ _ Hr) by apply Hr. done.
  - apply settled_locked; [apply Hr|rewrite (rn_depth _ _ Hr); lia].
  - intros i. apply lock_free_locked; [done|]. by apply running_free with p.
  - apply Hr.
Qed.

Lemma running_set_procs p ps s : running p s -> procs_rel p (k_procs s) ps -> running p (k_set_procs ps s).
Proof.
  intros [] [Hl E]. split; try done; cbn; [by rewrite Hl|]. by rewrite !list_lookup_total_alt, E, <- !list_lookup_total_alt.
Qed.

Lemma releasesleep_eq p l s :
  running p s -> sl_in l s ->
  releasesleep l s =
    Ok tt (k_set_procs (woken_by p (CH_sleeplock l) (k_procs s)) (sl_put l (mkSl 0 0) s)).
Proof.
  intros Hr Hin. unfold releasesleep. mrun (acquire_eq (LK_sleep l) s (running_free _ _ _ Hr)).
  unfold upd_sl. mred. rewrite sl_get_locked, sl_put_locked, sl_get_locked, sl_put_locked.
  rewrite sl_get_put, sl_put_put by done. change (sl_set_pid 0 _) with (mkSl 0 0).
  set (s1 := sl_put l (mkSl 0 0) s). assert (running p s1) as Hr1 by by apply running_sl_put.
  mrun (wakeup_locked p (CH_sleeplock l) (LK_sleep l) s1 Hr1 ltac:(done)).
  assert (k_procs s1 = k_procs s) as -> by by destruct l.
  apply release_locked; [apply Hr1|]. apply running_free with p. apply running_set_procs; [done|].
  destruct l; apply woken_by_rel.
Qed.
