(* ===== verification/SchedSpec.v ===== *)
(** The scheduler runs every process that is ready.

    One pass of scheduler() over the process table gives the CPU to each
    RUNNABLE process in turn. What a process does while it has the CPU is
    arbitrary, except that it comes back through sched(): with its own lock
    held and nothing else. *)

From S2P Require Import Prelude Riscv State Spinlock Sched Sleeplock.

(** ** Interrupts and the current process at depth 0 *)

Definition sie (i : bool) (s : kstate) : kstate :=
  k_set_csr (r_set_sstatus (if i then Z.lor (r_sstatus (k_csr s)) SSTATUS_SIE
    else Z.land (r_sstatus (k_csr s)) (Z.lnot SSTATUS_SIE)) (k_csr s)) s.

(** [sie] with the [intena] a balanced use of locks would leave. *)
Definition irq (i : bool) (s : kstate) : kstate :=
  k_set_cpus (alter (c_set_intena (Z.b2z i)) (cpu_ix s) (k_cpus s)) (sie i s).

Definition set_cur (q : option nat) (s : kstate) : kstate :=
  k_set_cpus (alter (c_set_proc q) (cpu_ix s) (k_cpus s)) s.

Lemma intr_sie i s : intr (sie i s) = i.
Proof.
  rewrite intr_testbit. destruct i.
  - change (Z.testbit (Z.lor (r_sstatus (k_csr s)) SSTATUS_SIE) 1 = true). rewrite Z.lor_spec. change (Z.testbit SSTATUS_SIE 1) with true. apply orb_true_r.
  - apply (clear_bit_testbit _ 1). lia.
Qed.

Lemma clear_set x : Z.land (Z.lor x SSTATUS_SIE) (Z.lnot SSTATUS_SIE) = Z.land x (Z.lnot SSTATUS_SIE).
Proof. rewrite Z.land_lor_distr_l, Z.land_lnot_diag. apply Z.lor_0_r. Qed.

Lemma this_cpu_alter f s s' :
  (cpu_ix s < length (k_cpus s))%nat -> cpu_ix s' = cpu_ix s -> k_cpus s' = alter f (cpu_ix s) (k_cpus s) ->
  this_cpu s' = f (this_cpu s).
Proof. intros Hix Ei Ec. unfold this_cpu. rewrite Ei, Ec. by apply lookup_total_alter. Qed.

Lemma settled_irq i s : settled s -> depth s = 0 -> settled (irq i s) /\ depth (irq i s) = 0 /\ cur_proc (irq i s) = cur_proc s.
Proof.
  intros Hs Hd. pose proof (settled_ix _ Hs) as Hix.
  assert (E : this_cpu (irq i s) = c_set_intena (Z.b2z i) (this_cpu s)) by by apply this_cpu_alter.
  unfold settled, depth, cur_proc in *. rewrite E. cbn. rewrite Hd. cbn. split_and!; try done.
  - apply Hs.
  - rewrite length_alter. apply Hs.
  - change (intr (irq i s)) with (intr (sie i s)). by rewrite intr_sie.
Qed.

Lemma settled_set_cur q s : settled s -> settled (set_cur q s) /\ depth (set_cur q s) = depth s /\ cur_proc (set_cur q s) = q.
Proof.
  intros Hs. pose proof (settled_ix _ Hs) as Hix.
  assert (E : this_cpu (set_cur q s) = c_set_proc q (this_cpu s)) by by apply this_cpu_alter.
  unfold settled, depth, cur_proc in *. rewrite E. split_and!; try done; try apply Hs.
  cbn. rewrite length_alter. apply Hs.
Qed.

(** push_off() at depth 0 overwrites a stale [intena]. *)
Lemma locked_sie lk i s : settled s -> depth s = 0 -> locked lk (sie i s) = locked lk (irq i s).
Proof.
  intros Hs Hd. destruct (settled_irq i s Hs Hd) as (_ & Hd' & _). unfold locked, pushed.
  change (c_noff (this_cpu (sie i s))) with (depth s). rewrite Hd.
  change (c_noff (this_cpu (irq i s))) with (depth (irq i s)). rewrite Hd'. cbn.
  change (intr (irq i s)) with (intr (sie i s)). change (cpu_ix (irq i s)) with (cpu_ix (sie i s)).
  change (cpu_ix s) with (cpu_ix (sie i s)).
  by rewrite !alter_alter.
Qed.

Lemma set_cur_locked q lk s : settled s -> set_cur q (locked lk s) = locked lk (set_cur q s).
Proof.
  intros Hs. destruct (settled_set_cur q s Hs) as (_ & Hd & _). unfold set_cur at 1, locked, pushed.
  change (c_noff (this_cpu (set_cur q s))) with (depth (set_cur q s)). rewrite Hd.
  change (c_noff (this_cpu s)) with (depth s).
  f_equal. destruct (depth s =? 0); cbn; by rewrite !alter_alter.
Qed.

(** At depth 0, by the lock's effect on the cpu. *)
Lemma cpus_locked lk s : depth s = 0 ->
  k_cpus (locked lk s) = alter (fun c => c_set_noff (s32 (c_noff c + 1)) (c_set_intena (Z.b2z (intr s)) c)) (cpu_ix s) (k_cpus s).
Proof.
  intros Hd. unfold locked, pushed. cbn. change (c_noff (this_cpu s)) with (depth s). rewrite Hd. cbn. by rewrite alter_alter.
Qed.

Lemma cpus_csr_ext s1 s2 :
  k_cpus s1 = k_cpus s2 -> k_csr s1 = k_csr s2 -> k_set_cpus (k_cpus s2) (k_set_csr (k_csr s2) s1) = s2 -> s1 = s2.
Proof. intros <- <- E. exact E. Qed.

(** ** One pass *)

(** The scheduler between two processes. *)
Record between (s : kstate) : Prop := {
  bw_settled : settled s;
  bw_depth : depth s = 0;
  bw_locks : proc_locks_free s;
  bw_procs : length (k_procs s) = NPROC
}.

(** Process [q] gives the CPU back, [p] still waiting for its turn. *)
Definition gave_back (q p : nat) (s' : kstate) : Prop :=
  exists s0, s' = locked (LK_proc q) s0 /\ between s0 /\ cur_proc s0 = Some q /\ p_state (k_procs s0 !!! p) = RUNNABLE.

(** Among the next [n] switches of the scheduler is one to [p], which then
    runs with its lock held. *)
Inductive runs_within (p : nat) : nat -> res kstate Z -> Prop :=
  | rw_now n s k :
      cur_proc s = Some p -> p_state (k_procs s !!! p) = RUNNING ->
      k_locks s !! LK_proc p = Some (s32 (r_tp (k_csr s))) -> runs_within p (S n) (Swtch s k)
  | rw_later n s q k :
      q <> p -> cur_proc s = Some q -> (forall s', gave_back q p s' -> runs_within p n (k s')) ->
      runs_within p (S n) (Swtch s k).

Lemma between_set_cur q s : between s -> between (set_cur q s).
Proof. intros []. destruct (settled_set_cur q s) as (? & E & _); [done|]. split; try done. by rewrite E. Qed.

Lemma runs_within_mono p n n' r : runs_within p n r -> (n <= n')%nat -> runs_within p n' r.
Proof.
  intros H. revert n'. induction H as [n s k H1 H2 H3|n s q k Hne Hq _ IH]; intros n' Hn; (destruct n' as [|n']; [lia|]).
  - by apply rw_now.
  - apply rw_later with q; [done|done|]. intros s' Hg. apply IH; [done|lia].
Qed.

(** The state in which the scheduler switches to [q]. *)
Definition switched (q : nat) (s : kstate) : kstate :=
  set_cur (Some q) (k_set_procs (alter (p_set_state RUNNING) q (k_procs s)) (locked (LK_proc q) s)).

Lemma switched_cur q s : between s -> cur_proc (switched q s) = Some q.
Proof.
  intros [Hs Hd _ _]. set (s1 := k_set_procs (alter (p_set_state RUNNING) q (k_procs s)) s).
  assert (Hl : settled (locked (LK_proc q) s1)) by (apply (settled_locked (LK_proc q) s1); [exact Hs|change (depth s + 1 < 2 ^ 30); lia]).
  by destruct (settled_set_cur (Some q) (locked (LK_proc q) s1) Hl) as (_ & _ & ?).
Qed.

Lemma scheduler_visit q ps found s :
  between s ->
  (p_state (k_procs s !!! q) <> RUNNABLE -> scheduler_pass (q :: ps) found s = scheduler_pass ps found s) /\
  (p_state (k_procs s !!! q) = RUNNABLE -> exists k, scheduler_pass (q :: ps) found s = Swtch (switched q s) k /\
     forall s0, between s0 -> k (locked (LK_proc q) s0) = scheduler_pass ps 1 (set_cur None s0)).
Proof.
  intros Hb. pose proof Hb as [Hs Hd Hl Hn]. cbn [scheduler_pass].
  mrun (acquire_eq (LK_proc q) s (Hl q)). unfold proc_at. mred. change (k_procs (locked (LK_proc q) s)) with (k_procs s). split.
  - intros Hst. rewrite bool_decide_eq_false_2 by done. mred. by mrun (release_locked (LK_proc q) s Hs (Hl q)).
  - intros Hst. rewrite bool_decide_eq_true_2 by done. unfold upd_proc, upd_mycpu. mred.
    eexists. split; [reflexivity|]. intros s0 Hb0.
    change ((release (LK_proc q);; scheduler_pass ps 1) (set_cur None (locked (LK_proc q) s0)) = scheduler_pass ps 1 (set_cur None s0)).
    rewrite set_cur_locked by apply Hb0. pose proof (between_set_cur None s0 Hb0) as [Hs1 _ Hl1 _].
    by mrun (release_locked (LK_proc q) (set_cur None s0) Hs1 (Hl1 q)).
Qed.

Lemma scheduler_reaches p pre : forall post found s,
  (p < NPROC)%nat -> between s -> p ∉ pre -> p_state (k_procs s !!! p) = RUNNABLE ->
  runs_within p (S (length pre)) (scheduler_pass (pre ++ p :: post) found s).
Proof.
  induction pre as [|q pre IH]; intros post found s Hp Hb Hni Hst; cbn [app length].
  - destruct (scheduler_visit p post found s Hb) as [_ Hrun]. destruct (Hrun Hst) as (k & -> & _). apply rw_now.
    + by apply switched_cur.
    + change (p_state (alter (p_set_state RUNNING) p (k_procs s) !!! p) = RUNNING).
      by rewrite lookup_total_alter by (rewrite (bw_procs _ Hb); done).
    + change (<[LK_proc p := s32 (r_tp (k_csr s))]> (k_locks s) !! LK_proc p = Some (s32 (r_tp (k_csr s)))).
      by rewrite lookup_insert_eq.
  - apply not_elem_of_cons in Hni as [Hne Hni]. destruct (scheduler_visit q (pre ++ p :: post) found s Hb) as [Hskip Hrun].
    destruct (decide (p_state (k_procs s !!! q) = RUNNABLE)) as [Hq|Hq].
    + destruct (Hrun Hq) as (k & -> & Hk). apply rw_later with q; [done|by apply switched_cur|].
      intros s' (s0 & -> & Hb0 & _ & Hst0). rewrite (Hk s0 Hb0). apply IH; [done|by apply between_set_cur|done|done].
    + rewrite (Hskip Hq). apply runs_within_mono with (S (length pre)); [|lia]. by apply IH.
Qed.

(** C23: scheduler() is fair within a pass: whatever the other processes do
    with the CPU, as long as each comes back through sched() and none stops
    [p] from being RUNNABLE, a RUNNABLE process [p] is switched to after at
    most p other switches; it is then RUNNING, the current process of the
    hart, and its lock is held by the hart. *)
Theorem scheduler_runs_ready p s :
  (p < NPROC)%nat -> between s -> p_state (k_procs s !!! p) = RUNNABLE ->
  runs_within p (S p) (scheduler_pass (seq 0 NPROC) 0 s).
Proof.
  intros Hp Hb Hst. replace (seq 0 NPROC) with (seq 0 p ++ p :: seq (S p) (NPROC - S p)).
  - pose proof (scheduler_reaches p (seq 0 p) (seq (S p) (NPROC - S p)) 0 s Hp Hb) as H. rewrite length_seq in H.
    apply H; [|done]. rewrite elem_of_seq. lia.
  - change (p :: seq (S p) (NPROC - S p)) with (seq (0 + p) (S (NPROC - S p))). rewrite <- seq_app. f_equal. lia.
Qed.

(** Processes 2 and 5 are ready. *)
Definition two_ready : kstate :=
  let s := boot_state (fun _ => 0) ∅ in
  k_set_procs (alter (p_set_state RUNNABLE) 2%nat (alter (p_set_state RUNNABLE) 5%nat (k_procs s))) s.

Lemma scheduler_runs_ready_witness : runs_within 5 6 (scheduler_pass (seq 0 NPROC) 0 two_ready).
Proof.
  apply (scheduler_runs_ready 5 two_ready).
  - apply Nat.ltb_lt. reflexivity.
  - split; [vm_compute; intuition congruence|reflexivity|intros i; reflexivity|reflexivity].
  - reflexivity.
Defined.
