(* ===== verification/Printf.v ===== *)
(** printf.c with the synchronous output path of uart.c and console.c.

    The UART is the device behind [k_uart]: [u_out] is what was written to its
    transmit register, and [u_tx_room] how many bytes it takes before
    LSR_TX_IDLE clears. A driver that spins on LSR_TX_IDLE sees it set in the
    end: [uart_wait_idle] is the end of that loop. *)

From S2P Require Import Prelude Riscv State Spinlock.

(** ** Polled output *)

Definition uart_idle (s : kstate) : bool := negb (u_tx_room (k_uart s) =? 0)%nat.

Definition upd_uart (f : uart -> uart) : K unit :=
  modify (fun s => k_set_uart (f (k_uart s)) s).

Definition uart_wait_idle : K unit :=
  upd_uart (fun u => u_set_tx_room (Nat.max 1 (u_tx_room u)) u).

(** WriteReg(THR, c) *)
Definition write_THR (c : Z) : K unit :=
  upd_uart (fun u => u_set_tx_room (pred (u_tx_room u)) (u_set_out (u_out u ++ [u8 c]) u)).

Definition uartputc_sync (c : Z) : K unit :=
  push_off;;
  p <- gets k_panicked;;
  if c_true p then diverge else
  uart_wait_idle;;
  write_THR c;;
  pop_off.

Definition BACKSPACE : Z := 0x100.

Definition consputc (c : Z) : K unit :=
  if c =? BACKSPACE then
    uartputc_sync 8;; uartputc_sync 32;; uartputc_sync 8
  else uartputc_sync c.

(** ** Numbers *)

Definition digits : list Z := chars "0123456789abcdef".
Definition digit (i : Z) : Z := digits !!! Z.to_nat i.

(** The do-while loop that fills [buf] from the least significant digit on;
    [buf] holds the digits so far, the last one first. A 64-bit number has at
    most 64 digits in any base from 2 on. *)
Fixpoint printint_loop (n : nat) (x base : Z) (buf : list Z) : list Z :=
  match n with
  | O => buf
  | S n =>
      let buf := digit (x mod base) :: buf in
      if x / base =? 0 then buf else printint_loop n (x / base) base buf
  end.

(** The characters in the order they are printed. *)
Definition printint_chars (xx base sign : Z) : list Z :=
  let neg := c_true sign && (xx <? 0) in
  let x := if neg then u64 (- xx) else u64 xx in
  let buf := printint_loop 64 x base [] in
  if neg then 45 :: buf else buf.

(** [char buf[16]] *)
Definition PRINTINT_BUF : nat := 16.

Definition printint (xx base sign : Z) : K unit :=
  let cs := printint_chars xx base sign in
  if (PRINTINT_BUF <? length cs)%nat then undefined else for_each cs consputc.

Fixpoint printptr_chars (n : nat) (x : Z) : list Z :=
  match n with
  | O => []
  | S n => digit (Z.shiftr x 60) :: printptr_chars n (u64 (Z.shiftl x 4))
  end.

Definition printptr (x : Z) : K unit :=
  consputc 48;;
  consputc 120;;
  for_each (printptr_chars 16 x) consputc.

(** ** printf *)

(** What the caller passes for the format's conversions: the 64 bits of an
    integer argument, or a string. *)
Inductive parg : Type := PInt (v : Z) | PStr (s : option (list Z)).

Definition va_uint64 (ap : list parg) : Z * list parg :=
  match ap with PInt v :: ap => (u64 v, ap) | _ :: ap => (0, ap) | [] => (0, []) end.
Definition va_int (ap : list parg) : Z * list parg :=
  let '(v, ap) := va_uint64 ap in (s32 v, ap).
Definition va_str (ap : list parg) : list Z * list parg :=
  match ap with
  | PStr (Some s) :: ap => (cstr s, ap)
  | PStr None :: ap => (chars "(null)", ap)
  | _ :: ap => ([], ap)
  | [] => ([], [])
  end.

(** Character codes of the conversions. *)
Definition ch_d : Z := 100.
Definition ch_l : Z := 108.
Definition ch_u : Z := 117.
Definition ch_x : Z := 120.
Definition ch_p : Z := 112.
Definition ch_s : Z := 115.
Definition ch_percent : Z := 37.

(** The conversion that starts at [fmt] (behind the percent sign): what it
    prints, and how many further characters of the format it uses. *)
Definition printf_conv (fmt : list Z) (ap : list parg) : (K unit * list parg) * nat :=
  let c0 := hd 0 fmt in
  let c1 := if c_true c0 then hd 0 (tail fmt) else 0 in
  let c2 := if c_true c1 then hd 0 (tail (tail fmt)) else 0 in
  let int base sign := let '(v, ap) := va_int ap in (printint v base sign, ap) in
  let long base sign := let '(v, ap) := va_uint64 ap in (printint (s64 v) base sign, ap) in
  if c0 =? ch_d then (int 10 1, 1%nat)
  else if (c0 =? ch_l) && (c1 =? ch_d) then (long 10 1, 2%nat)
  else if (c0 =? ch_l) && (c1 =? ch_l) && (c2 =? ch_d) then (long 10 1, 3%nat)
  else if c0 =? ch_u then (int 10 0, 1%nat)
  else if (c0 =? ch_l) && (c1 =? ch_u) then (long 10 0, 2%nat)
  else if (c0 =? ch_l) && (c1 =? ch_l) && (c2 =? ch_u) then (long 10 0, 3%nat)
  else if c0 =? ch_x then (int 16 0, 1%nat)
  else if (c0 =? ch_l) && (c1 =? ch_x) then (long 16 0, 2%nat)
  else if (c0 =? ch_l) && (c1 =? ch_l) && (c2 =? ch_x) then (long 16 0, 3%nat)
  else if c0 =? ch_p then (let '(v, ap) := va_uint64 ap in (printptr v, ap), 1%nat)
  else if c0 =? ch_s then (let '(s, ap) := va_str ap in (for_each s consputc, ap), 1%nat)
  else if c0 =? ch_percent then ((consputc ch_percent, ap), 1%nat)
  else ((consputc ch_percent;; consputc c0, ap), 1%nat).

(** [n] bounds the characters left in the format. *)
Fixpoint printf_loop (n : nat) (fmt : list Z) (ap : list parg) : K unit :=
  match n with
  | O => ret tt
  | S n =>
      let cx := hd 0 fmt in
      if cx =? 0 then ret tt else
      if negb (cx =? ch_percent) then consputc cx;; printf_loop n (tail fmt) ap else
      if hd 0 (tail fmt) =? 0 then ret tt else
      let '((m, ap), k) := printf_conv (tail fmt) ap in
      m;; printf_loop n (drop k (tail fmt)) ap
  end.

Definition printf (fmt : list Z) (ap : list parg) : K Z :=
  locking <- gets k_locking;;
  (when c_true locking do acquire LK_pr);;
  printf_loop (S (length fmt)) fmt ap;;
  (when c_true locking do release LK_pr);;
  ret 0.

Definition printfinit : K unit :=
  initlock LK_pr;;
  modify (k_set_locking 1).

(** A format given as a literal; the escape for a newline is [NL]. *)
Definition NL : string := String (Ascii.ascii_of_nat 10) EmptyString.
Definition fmt (s : string) : list Z := chars s.

(** ** What reaches the device *)

Definition emit (cs : list Z) (s : kstate) : kstate :=
  k_set_uart (u_set_tx_room (match cs with [] => u_tx_room (k_uart s)
                                         | _ => (Nat.max 1 (u_tx_room (k_uart s)) - length cs)%nat end)
    (u_set_out (u_out (k_uart s) ++ cs) (k_uart s))) s.

Lemma emit_nil s : emit [] s = s.
Proof. unfold emit. by rewrite app_nil_r. Qed.

Lemma emit_emit cs ds s : emit ds (emit cs s) = emit (cs ++ ds) s.
Proof.
  destruct cs as [|c cs]; [by rewrite emit_nil|]. destruct ds as [|d ds]; [by rewrite emit_nil, app_nil_r|].
  set (r := u_tx_room (k_uart s)).
  assert (Nat.max 1 (Nat.max 1 r - length (c :: cs)) - length (d :: ds)
    = Nat.max 1 r - length ((c :: cs) ++ d :: ds))%nat as E by (rewrite length_app; cbn [length]; lia).
  unfold emit. cbn [app]. fold r. rewrite app_comm_cons, <- E.
  cbn [k_uart k_set_uart u_out u_tx_room u_set_tx_room u_set_out]. by rewrite <- app_assoc.
Qed.

Lemma uartputc_sync_eq c s : settled s -> k_panicked s = 0 -> uartputc_sync c s = Ok tt (emit [u8 c] s).
Proof.
  intros Hs Hp. unfold uartputc_sync. mrun (push_off_eq s).
  change (k_panicked (pushed s)) with (k_panicked s). rewrite Hp.
  change (c_true 0) with false. cbv iota. unfold uart_wait_idle, write_THR, upd_uart. mred.
  transitivity (pop_off (pushed (emit [u8 c] s))); [|by apply pop_pushed].
  f_equal. unfold emit. cbn [length]. f_equal. unfold pushed. cbn.
  by rewrite Nat.sub_1_r.
Qed.

(** A character that is not the BACKSPACE code, and therefore printed as one. *)
Lemma consputc_eq c s : 0 <= c < 256 -> settled s -> k_panicked s = 0 ->
  consputc c s = Ok tt (emit [c] s).
Proof.
  intros Hc Hs Hp. unfold consputc, BACKSPACE. rewrite (proj2 (Z.eqb_neq _ _)) by lia.
  rewrite uartputc_sync_eq by done. by rewrite u8_small.
Qed.

Lemma consputc_all cs : forall s, Forall is_byte cs -> settled s -> k_panicked s = 0 ->
  for_each cs consputc s = Ok tt (emit cs s).
Proof.
  induction cs as [|c cs IH]; intros s Hb Hs Hp; cbn [for_each]; [by rewrite emit_nil|].
  apply Forall_cons in Hb as [Hc Hb]. mrun (consputc_eq c s Hc Hs Hp).
  rewrite IH by done. by rewrite emit_emit.
Qed.

(** ** Numerals *)

(** The number a list of digits denotes, most significant first. *)
Definition numeral (base : Z) (ds : list Z) : Z := fold_left (fun a d => a * base + d) ds 0.

Lemma numeral_snoc base ds d : numeral base (ds ++ [d]) = numeral base ds * base + d.
Proof. unfold numeral. by rewrite fold_left_app. Qed.

Lemma printint_loop_spec base : 2 <= base <= 16 -> forall n x buf,
  0 <= x < base ^ Z.of_nat n -> (1 <= n)%nat ->
  exists ds, printint_loop n x base buf = (digit <$> ds) ++ buf /\
    Forall (fun d => 0 <= d < base) ds /\ numeral base ds = x /\
    forall k, (1 <= k)%nat -> ((length ds <= k)%nat <-> x < base ^ Z.of_nat k).
Proof.
  intros Hb. induction n as [|n IH]; intros x buf Hx Hn; [lia|]. cbn [printint_loop].
  assert (0 <= x mod base < base) as Hd by (apply Z.mod_pos_bound; lia).
  assert (x = base * (x / base) + x mod base) as Hx' by (apply Z.div_mod; lia).
  assert (0 <= x / base) as Hq by (apply Z.div_pos; lia).
  assert (forall k, 1 <= base ^ Z.of_nat k) as Hpow
    by (intros k; pose proof (Z.pow_pos_nonneg base (Z.of_nat k)); lia).
  destruct (Z.eqb_spec (x / base) 0) as [E|E].
  - exists [x mod base]. split; [done|]. split; [by apply Forall_singleton|].
    split; [cbn; lia|]. intros k Hk. cbn [length]. destruct k as [|k]; [lia|].
    rewrite Nat2Z.inj_succ, Z.pow_succ_r by lia. specialize (Hpow k). nia.
  - rewrite Nat2Z.inj_succ, Z.pow_succ_r in Hx by lia.
    assert (x / base < base ^ Z.of_nat n) by nia.
    destruct (IH (x / base) (digit (x mod base) :: buf)) as (ds & Eds & Hds & Hv & Hl).
    + lia.
    + destruct n; [|lia]. change (base ^ Z.of_nat 0) with 1 in *. lia.
    + exists (ds ++ [x mod base]). rewrite fmap_app, <- app_assoc, Eds. split; [done|].
      split; [apply Forall_app; split; [done|by apply Forall_singleton]|].
      split; [rewrite numeral_snoc; lia|]. intros k Hk. rewrite length_app. cbn [length].
      destruct k as [|[|k]]; [lia| |].
      * change (base ^ Z.of_nat 1) with (base ^ 1). rewrite Z.pow_1_r.
        assert (length ds <> 0)%nat; [|split; [lia|nia]].
        destruct ds; [cbn in Hv; lia|done].
      * specialize (Hl (S k) ltac:(lia)).
        rewrite (Nat2Z.inj_succ (S k)), Z.pow_succ_r by lia.
        specialize (Hpow (S k)). split; intros Hlt; [|]; destruct Hl as [Hl1 Hl2].
        -- specialize (Hl1 ltac:(lia)). nia.
        -- assert (x / base < base ^ Z.of_nat (S k)) by nia. specialize (Hl2 ltac:(done)). lia.
Qed.

Lemma digit_byte d : 0 <= d < 16 -> is_byte (digit d).
Proof.
  intros H. assert (forallb (fun d => (0 <=? digit d) && (digit d <? 256)) (seqZ 0 16) = true) as Hall
    by by vm_compute.
  rewrite forallb_forall in Hall. specialize (Hall d). rewrite <- list_elem_of_In, elem_of_seqZ in Hall.
  specialize (Hall ltac:(lia)). unfold is_byte. lia.
Qed.

(** The digits of [printint] in a base, and how many there are. *)
Lemma printint_chars_spec xx base sign : 2 <= base <= 16 -> - 2 ^ 63 <= xx < 2 ^ 63 ->
  let neg := c_true sign && (xx <? 0) in
  let x := if neg then - xx else u64 xx in
  exists ds, printint_chars xx base sign = (if neg then [45] else []) ++ (digit <$> ds) /\
    numeral base ds = x /\ Forall (fun d => 0 <= d < base) ds /\
    forall k, (1 <= k)%nat -> ((length ds <= k)%nat <-> x < base ^ Z.of_nat k).
Proof.
  intros Hb Hxx neg x. unfold printint_chars. fold neg.
  assert ((if neg then u64 (- xx) else u64 xx) = x /\ 0 <= x < 2 ^ 64) as [-> Hx].
  { subst x. destruct neg eqn:En; [|split; [done|apply u64_range]].
    subst neg. apply andb_true_iff in En as [_ En]. apply Z.ltb_lt in En.
    rewrite u64_small by lia. split; [done|lia]. }
  destruct (printint_loop_spec base Hb 64 x []) as (ds & E & Hds & Hv & Hl); [|lia|].
  { assert (2 ^ 64 <= base ^ 64) by (apply Z.pow_le_mono_l; lia). change (Z.of_nat 64) with 64. lia. }
  exists ds. rewrite E, app_nil_r. split; [by destruct neg|]. done.
Qed.

Lemma printint_bytes xx base sign : 2 <= base <= 16 -> - 2 ^ 63 <= xx < 2 ^ 63 ->
  Forall is_byte (printint_chars xx base sign).
Proof.
  intros Hb Hx. destruct (printint_chars_spec xx base sign Hb Hx) as (ds & -> & _ & Hds & _).
  apply Forall_app. split; [destruct (_ && _); by repeat constructor|].
  apply Forall_fmap. eapply Forall_impl; [exact Hds|]. cbv beta. intros d Hd. apply digit_byte. lia.
Qed.

(** printint() of an int prints its decimal (or, for a non-negative one,
    hexadecimal) numeral: a minus sign when it is negative, then digits whose
    value is the number's magnitude; it never overruns its 16-byte buffer, and
    exactly these characters reach the UART. *)
Theorem printint_int xx base s :
  - 2 ^ 31 <= xx < 2 ^ 31 -> base = 10 \/ base = 16 -> settled s -> k_panicked s = 0 ->
  exists ds, printint xx base 1 s =
      Ok tt (emit ((if xx <? 0 then [45] else []) ++ (digit <$> ds)) s) /\
    numeral base ds = Z.abs xx /\ Forall (fun d => 0 <= d < base) ds.
Proof.
  intros Hx Hb Hs Hp.
  assert (2 <= base <= 16) as Hb' by lia.
  destruct (printint_chars_spec xx base 1 Hb' ltac:(lia)) as (ds & E & Hv & Hds & Hl).
  exists ds. change (c_true 1) with true in *. cbn [andb] in *. unfold printint.
  assert (length ds <= 10)%nat as Hlen.
  { apply Hl; [lia|]. assert (10 ^ 10 <= base ^ Z.of_nat 10) by (apply Z.pow_le_mono_l; lia).
    change (10 ^ 10) with 10000000000 in *. destruct (xx <? 0) eqn:En; [lia|].
    rewrite u64_small by lia. lia. }
  rewrite (proj2 (Nat.ltb_ge _ _)).
  - rewrite consputc_all by (done || apply printint_bytes; lia). rewrite E. split; [done|].
    split; [|done]. rewrite Hv. destruct (Z.ltb_spec xx 0); [lia|]. rewrite u64_small by lia. lia.
  - rewrite E, length_app, length_fmap. unfold PRINTINT_BUF. destruct (xx <? 0); cbn [length]; lia.
Qed.

Lemma printint_int_witness : exists ds, printint (-42) 10 1 (boot_state (fun _ => 0) ∅) =
    Ok tt (emit ([45] ++ (digit <$> ds)) (boot_state (fun _ => 0) ∅)) /\
  numeral 10 ds = 42 /\ Forall (fun d => 0 <= d < 10) ds.
Proof.
  apply (printint_int (-42) 10 (boot_state (fun _ => 0) ∅)); [lia|by left|vm_compute; intuition congruence|done].
Defined.

(** a 64-bit number of 17 digits or more (%ld, %lu) overruns the 16-byte
    buffer of printint(). *)
Theorem printint_overflows xx s :
  10 ^ 16 <= xx < 2 ^ 63 -> printint xx 10 1 s = undefined s.
Proof.
  intros Hx. destruct (printint_chars_spec xx 10 1 ltac:(lia) ltac:(lia)) as (ds & E & _ & _ & Hl).
  unfold printint. rewrite (proj2 (Nat.ltb_lt _ _)); [done|]. rewrite E, length_app, length_fmap.
  specialize (Hl 16%nat ltac:(lia)). change (10 ^ Z.of_nat 16) with (10 ^ 16) in Hl.
  rewrite (proj2 (Z.ltb_ge xx 0)) in * by lia. rewrite andb_false_r in *. rewrite u64_small in Hl by lia.
  unfold PRINTINT_BUF. cbn [length]. lia.
Qed.

Lemma printint_overflows_witness :
  printint 12345678901234567 10 1 (boot_state (fun _ => 0) ∅) = undefined (boot_state (fun _ => 0) ∅).
Proof. apply (printint_overflows 12345678901234567). lia. Defined.
