(* ===== verification/PrintfSpec.v ===== *)
(** printf() against what a format means.

    The first part computes what printf() does on a given format and argument
    list: the format cut into directives ([parse]), and the characters of each
    ([render]); a directive whose numeral does not fit printint()'s buffer has no
    rendering. Other files use it for the messages they print.

    The second part, [Format], is the specification: a format as the sequence of the
    characters and conversions it was written from, each with its argument and
    the text it stands for, the numerals in positional notation. *)

From S2P Require Import Prelude Riscv State Spinlock Printf.

(** ** Reading the format *)

Inductive directive : Type :=
  | Lit (c : Z)                                (* an ordinary character *)
  | Num (long : bool) (base : Z) (signed : Z)  (* %d %u %x, %ld ... *)
  | Ptr                                        (* %p *)
  | Str                                        (* %s *)
  | Pct                                        (* %% *)
  | Bad (c : Z).                               (* any other character behind % *)

Fixpoint starts (p r : list Z) : bool :=
  match p, r with
  | [], _ => true
  | c :: p, x :: r => (x =? c) && starts p r
  | _, [] => false
  end.

(** The directive behind a percent sign and its length. *)
Definition decode (r : list Z) : directive * nat :=
  if starts (chars "d") r then (Num false 10 1, 1%nat)
  else if starts (chars "ld") r then (Num true 10 1, 2%nat)
  else if starts (chars "lld") r then (Num true 10 1, 3%nat)
  else if starts (chars "u") r then (Num false 10 0, 1%nat)
  else if starts (chars "lu") r then (Num true 10 0, 2%nat)
  else if starts (chars "llu") r then (Num true 10 0, 3%nat)
  else if starts (chars "x") r then (Num false 16 0, 1%nat)
  else if starts (chars "lx") r then (Num true 16 0, 2%nat)
  else if starts (chars "llx") r then (Num true 16 0, 3%nat)
  else if starts (chars "p") r then (Ptr, 1%nat)
  else if starts (chars "s") r then (Str, 1%nat)
  else if starts (chars "%") r then (Pct, 1%nat)
  else (Bad (hd 0 r), 1%nat).

Fixpoint parse (n : nat) (fmt : list Z) : list directive :=
  match n, fmt with
  | S n, c :: r =>
      if c =? 0 then [] else
      if negb (c =? 37) then Lit c :: parse n r else
      if hd 0 r =? 0 then [] else
      let '(d, k) := decode r in d :: parse n (drop k r)
  | _, _ => []
  end.

Definition numeral_text (v base signed : Z) : option (list Z) :=
  let cs := printint_chars v base signed in
  if (16 <? length cs)%nat then None else Some cs.

Definition render (d : directive) (ap : list parg) : option (list Z) * list parg :=
  match d with
  | Lit c | Bad c => (Some (if d is Bad _ then [37; c] else [c]), ap)
  | Num false base sg => let '(v, ap) := va_int ap in (numeral_text v base sg, ap)
  | Num true base sg => let '(v, ap) := va_uint64 ap in (numeral_text (s64 v) base sg, ap)
  | Ptr => let '(v, ap) := va_uint64 ap in (Some ([48; 120] ++ printptr_chars 16 v), ap)
  | Str => let '(s, ap) := va_str ap in (Some s, ap)
  | Pct => (Some [37], ap)
  end.

(** The text up to the end, or up to the first numeral that does not fit. *)
Fixpoint render_all (ds : list directive) (ap : list parg) : list Z * bool :=
  match ds with
  | [] => ([], true)
  | d :: ds =>
      match render d ap with
      | (None, _) => ([], false)
      | (Some cs, ap) => let '(rest, ok) := render_all ds ap in (cs ++ rest, ok)
      end
  end.

Definition format (fmt : list Z) (ap : list parg) : list Z * bool := render_all (parse (S (length fmt)) fmt) ap.

(** ** printf() prints the rendering *)

Definition arg_ok (a : parg) : Prop := match a with PStr (Some s) => Forall is_byte s | _ => True end.

(** What a computation that prints does, by the text rendered. *)
Definition prints (m : K unit) (r : option (list Z)) : Prop :=
  forall s, settled s -> k_panicked s = 0 ->
    m s = match r with Some cs => Ok tt (emit cs s) | None => Panic "undefined" s end.

Lemma printint_prints v base sg : 2 <= base <= 16 -> - 2 ^ 63 <= v < 2 ^ 63 ->
  prints (printint v base sg) (numeral_text v base sg).
Proof.
  intros Hb Hv s Hs Hp. unfold printint, numeral_text, PRINTINT_BUF. destruct (_ <? _)%nat; [done|].
  apply consputc_all; [by apply printint_bytes|done|done].
Qed.

Lemma emit_settled cs s : settled s -> settled (emit cs s).
Proof. done. Qed.

Lemma printptr_bytes n : forall x, 0 <= x < 2 ^ 64 -> Forall is_byte (printptr_chars n x).
Proof.
  induction n as [|n IH]; intros x Hx; cbn [printptr_chars]; [done|]. constructor.
  - apply digit_byte. rewrite Z.shiftr_div_pow2 by lia. split; [apply Z.div_pos; lia|]. apply Z.div_lt_upper_bound; lia.
  - apply IH. apply u64_range.
Qed.

Lemma printptr_prints v : 0 <= v < 2 ^ 64 -> prints (printptr v) (Some ([48; 120] ++ printptr_chars 16 v)).
Proof.
  intros Hv s Hs Hp. unfold printptr. mrun (consputc_eq 48 s ltac:(lia) Hs Hp).
  mrun (consputc_eq 120 (emit [48] s) ltac:(lia) Hs Hp).
  rewrite consputc_all by (done || by apply printptr_bytes). by rewrite !emit_emit.
Qed.

Lemma two_chars_prints c : 0 <= c < 256 -> prints (consputc 37;; consputc c) (Some [37; c]).
Proof.
  intros Hc s Hs Hp. mrun (consputc_eq 37 s ltac:(lia) Hs Hp). rewrite consputc_eq by done. by rewrite emit_emit.
Qed.

Lemma s32_range' x : - 2 ^ 63 <= s32 x < 2 ^ 63.
Proof. pose proof (s32_range x). lia. Qed.

Lemma va_str_bytes ap : Forall arg_ok ap -> Forall is_byte (va_str ap).1 /\ Forall arg_ok (va_str ap).2.
Proof.
  intros H. destruct ap as [|[v|[st|]] ap]; cbn; try (by split); apply Forall_cons in H as [Ha H]; split; try done.
  - cbn in Ha. clear -Ha. induction Ha as [|c st Hc _ IH]; cbn; [done|]. destruct (c =? 0); [done|by constructor].
  - repeat constructor; done.
Qed.

Lemma va_uint64_ok ap : Forall arg_ok ap -> Forall arg_ok (va_uint64 ap).2 /\ 0 <= (va_uint64 ap).1 < 2 ^ 64.
Proof.
  intros H. destruct ap as [|[v|st] ap]; cbn; try (by split); apply Forall_cons in H as [_ H]; split; try done.
  apply u64_range.
Qed.

Lemma s64_range x : - 2 ^ 63 <= s64 x < 2 ^ 63.
Proof. unfold s64. pose proof (Z.mod_pos_bound (x + 2 ^ 63) (2 ^ 64)). lia. Qed.

(** The two ways to recognise a directive. *)
Lemma starts1 c r : c <> 0 -> starts [c] r = (hd 0 r =? c).
Proof. intros Hc. destruct r as [|a r]; cbn [starts hd]; [symmetry; apply Z.eqb_neq; lia|]. by rewrite andb_true_r. Qed.

Lemma starts2 c d r : c <> 0 -> d <> 0 ->
  starts [c; d] r = (hd 0 r =? c) && ((if c_true (hd 0 r) then hd 0 (tail r) else 0) =? d).
Proof.
  intros Hc Hd. destruct r as [|a r]; cbn [starts hd tail]; [by rewrite (proj2 (Z.eqb_neq 0 c)) by lia|].
  destruct (Z.eqb_spec a c) as [->|]; [|done]. unfold c_true. rewrite (proj2 (Z.eqb_neq c 0) Hc). cbn [negb andb].
  by apply starts1.
Qed.

Lemma starts3 c d e r : c <> 0 -> d <> 0 -> e <> 0 ->
  let c1 := if c_true (hd 0 r) then hd 0 (tail r) else 0 in
  starts [c; d; e] r = (hd 0 r =? c) && (c1 =? d) && ((if c_true c1 then hd 0 (tail (tail r)) else 0) =? e).
Proof.
  intros Hc Hd He c1. unfold c1. destruct r as [|a r]; cbn [starts hd tail]; [by rewrite (proj2 (Z.eqb_neq 0 c)) by lia|].
  destruct (Z.eqb_spec a c) as [->|]; [|done]. unfold c_true. rewrite !(proj2 (Z.eqb_neq c 0) Hc). cbn [negb andb].
  destruct r as [|b r]; cbn [starts hd tail]; [by rewrite (proj2 (Z.eqb_neq 0 d)) by lia|].
  destruct (Z.eqb_spec b d) as [->|]; [|done]. rewrite (proj2 (Z.eqb_neq d 0) Hd). cbn [negb andb].
  by apply starts1.
Qed.

Lemma num_prints (long : bool) base sg ap : 2 <= base <= 16 ->
  let '(m, ap1) := if long then (let '(v, ap) := va_uint64 ap in (printint (s64 v) base sg, ap))
                   else (let '(v, ap) := va_int ap in (printint v base sg, ap)) in
  (render (Num long base sg) ap).2 = ap1 /\ prints m (render (Num long base sg) ap).1.
Proof.
  intros Hb. unfold render, va_int. destruct long, (va_uint64 ap) as [v ap1]; (split; [done|]);
    (apply printint_prints; [done|]); [apply s64_range|apply s32_range'].
Qed.

Ltac conv_num ap :=
  match goal with
  | |- context [render (Num ?l ?b ?sg) ap] =>
      let H := fresh in pose proof (num_prints l b sg ap ltac:(lia)) as H; cbv iota in H;
      (destruct (va_int ap) + destruct (va_uint64 ap)); split; [reflexivity|exact H]
  end.

Lemma conv_decode r ap : is_byte (hd 0 r) -> Forall arg_ok ap ->
  let '((m, ap1), k) := printf_conv r ap in
  let '(d, k') := decode r in
  k = k' /\ (render d ap).2 = ap1 /\ prints m (render d ap).1.
Proof.
  intros Hc0 Hap. unfold printf_conv, decode.
  change (chars "d") with [ch_d].
  change (chars "ld") with [ch_l; ch_d].
  change (chars "lld") with [ch_l; ch_l; ch_d].
  change (chars "u") with [ch_u].
  change (chars "lu") with [ch_l; ch_u].
  change (chars "llu") with [ch_l; ch_l; ch_u].
  change (chars "x") with [ch_x].
  change (chars "lx") with [ch_l; ch_x].
  change (chars "llx") with [ch_l; ch_l; ch_x].
  change (chars "p") with [ch_p].
  change (chars "s") with [ch_s].
  change (chars "%") with [ch_percent].
  rewrite !(starts1 _ r), !(starts2 _ _ r), !(starts3 _ _ _ r) by done. cbv zeta.
  set (c1 := if c_true (hd 0 r) then _ else _). set (c2 := if c_true c1 then _ else _).
  destruct (hd 0 r =? ch_d); [by conv_num ap|].
  destruct ((hd 0 r =? ch_l) && (c1 =? ch_d)); [by conv_num ap|].
  destruct ((hd 0 r =? ch_l) && (c1 =? ch_l) && (c2 =? ch_d)); [by conv_num ap|].
  destruct (hd 0 r =? ch_u); [by conv_num ap|].
  destruct ((hd 0 r =? ch_l) && (c1 =? ch_u)); [by conv_num ap|].
  destruct ((hd 0 r =? ch_l) && (c1 =? ch_l) && (c2 =? ch_u)); [by conv_num ap|].
  destruct (hd 0 r =? ch_x); [by conv_num ap|].
  destruct ((hd 0 r =? ch_l) && (c1 =? ch_x)); [by conv_num ap|].
  destruct ((hd 0 r =? ch_l) && (c1 =? ch_l) && (c2 =? ch_x)); [by conv_num ap|].
  destruct (va_uint64_ok ap Hap) as [_ Hv]. destruct (va_str_bytes ap Hap) as [Hs _].
  destruct (hd 0 r =? ch_p). { cbn [render]. destruct (va_uint64 ap) as [v ap1]. split; [done|]. split; [done|]. by apply printptr_prints. }
  destruct (hd 0 r =? ch_s). { cbn [render]. destruct (va_str ap) as [t ap1]. split; [done|]. split; [done|]. intros s Hset Hp. by apply consputc_all. }
  destruct (hd 0 r =? ch_percent). { split; [done|]. split; [done|]. intros s Hset Hp. by apply consputc_eq. }
  split; [done|]. split; [done|]. by apply two_chars_prints.
Qed.

Lemma render_args d ap : Forall arg_ok ap -> Forall arg_ok (render d ap).2.
Proof.
  intros H. destruct (va_uint64_ok ap H) as [Hu _]. destruct (va_str_bytes ap H) as [_ Hs].
  destruct d as [c|[] base sg| | | |c]; cbn [render]; try done; unfold va_int;
    try (destruct (va_uint64 ap); done). by destruct (va_str ap).
Qed.

Lemma printf_loop_eq n : forall fmt ap s, Forall is_byte fmt -> Forall arg_ok ap -> settled s -> k_panicked s = 0 ->
  let '(cs, ok) := render_all (parse n fmt) ap in
  printf_loop n fmt ap s = if ok : bool then Ok tt (emit cs s) else Panic "undefined" (emit cs s).
Proof.
  induction n as [|n IH]; intros fmt ap s Hf Hap Hs Hp; [cbn; by rewrite emit_nil|].
  destruct fmt as [|c fmt]; [cbn; by rewrite emit_nil|]. cbn [parse printf_loop hd tail].
  destruct (c =? 0); [cbn; by rewrite emit_nil|]. apply Forall_cons in Hf as [Hc Hf].
  change (c =? ch_percent) with (c =? 37). destruct (negb (c =? 37)).
  - cbn [render_all render]. specialize (IH fmt ap (emit [c] s) Hf Hap Hs Hp). destruct (render_all (parse n fmt) ap) as [cs ok].
    mrun (consputc_eq c s Hc Hs Hp). rewrite IH. by destruct ok; rewrite emit_emit.
  - destruct (hd 0 fmt =? 0) eqn:E0; [cbn; by rewrite emit_nil|].
    assert (Hb : is_byte (hd 0 fmt)) by (destruct fmt; [done|by apply Forall_cons in Hf as [? _]]).
    pose proof (conv_decode fmt ap Hb Hap) as Hcd. destruct (printf_conv fmt ap) as [[m ap1] k]. destruct (decode fmt) as [d k'].
    destruct Hcd as (<- & Har & Hpr). cbn [render_all]. pose proof (render_args d ap Hap) as Hap1.
    destruct (render d ap) as [[cs|] ap2]; cbn in Har, Hpr, Hap1; subst ap2.
    + specialize (IH (drop k fmt) ap1 (emit cs s) ltac:(by apply Forall_drop) Hap1 Hs Hp).
      destruct (render_all (parse n (drop k fmt)) ap1) as [cs' ok].
      mrun (Hpr s Hs Hp). rewrite IH. by destruct ok; rewrite emit_emit.
    + unfold bind. rewrite (Hpr s Hs Hp). cbn. by rewrite emit_nil.
Qed.

Lemma printf_eq fmt ap s cs : Forall is_byte fmt -> Forall arg_ok ap -> settled s -> depth s + 1 < 2 ^ 30 -> k_panicked s = 0 ->
  lock_free LK_pr s -> format fmt ap = (cs, true) -> printf fmt ap s = Ok 0 (emit cs s).
Proof.
  intros Hf Hap Hs Hd Hp Hl Hfm. unfold printf, format in *.
  pose proof (fun s' => printf_loop_eq (S (length fmt)) fmt ap s' Hf Hap) as Hloop. rewrite Hfm in Hloop.
  change (gets k_locking) with (gets (fun s => k_locking s)). mred. destruct (c_true (k_locking s)).
  - mrun (acquire_eq LK_pr s Hl). mrun (Hloop (locked LK_pr s) (settled_locked LK_pr s Hs Hd) Hp).
    by mrun (release_locked LK_pr (emit cs s) Hs Hl).
  - mred. by mrun (Hloop s Hs Hp).
Qed.

Lemma printf_overruns fmt ap s cs : Forall is_byte fmt -> Forall arg_ok ap -> settled s -> depth s + 1 < 2 ^ 30 -> k_panicked s = 0 ->
  lock_free LK_pr s -> format fmt ap = (cs, false) -> exists s', printf fmt ap s = Panic "undefined" s'.
Proof.
  intros Hf Hap Hs Hd Hp Hl Hfm. unfold printf, format in *.
  pose proof (fun s' => printf_loop_eq (S (length fmt)) fmt ap s' Hf Hap) as Hloop. rewrite Hfm in Hloop.
  change (gets k_locking) with (gets (fun s => k_locking s)). mred. destruct (c_true (k_locking s)).
  - mrun (acquire_eq LK_pr s Hl). unfold bind. rewrite (Hloop (locked LK_pr s) (settled_locked LK_pr s Hs Hd) Hp). by eexists.
  - mred. unfold bind. rewrite (Hloop s Hs Hp). by eexists.
Qed.

Module Format.

(** ** Positional notation *)

(** The [n] digits of [x] in base [b], the one of weight b^(n-1) first. *)
Definition positional (n : nat) (b x : Z) : list Z := (fun k => x / b ^ k mod b) <$> rev (seqZ 0 (Z.of_nat n)).

Fixpoint strip (ds : list Z) : list Z :=
  match ds with
  | d :: (_ :: _) as r => if d =? 0 then strip r else ds
  | _ => ds
  end.

Definition char_of (d : Z) : Z := if d <? 10 then 48 + d else 97 + (d - 10).

(** The numeral of a 64-bit number, without leading zeros. *)
Definition numeral_chars (b x : Z) : list Z := char_of <$> strip (positional 64 b x).

Lemma positional_snoc n b x : 2 <= b -> 0 <= x -> positional (S n) b x = positional n b (x / b) ++ [x mod b].
Proof.
  intros Hb Hx. unfold positional. rewrite Nat2Z.inj_succ, <- Z.add_1_l, seqZ_cons by lia.
  replace (Z.succ 0) with (1 + 0) by lia. replace (Z.pred (1 + Z.of_nat n)) with (Z.of_nat n) by lia.
  rewrite <- (fmap_add_seqZ 1 0 (Z.of_nat n)). cbn [rev].
  assert (E : rev (Z.add 1 <$> seqZ 0 (Z.of_nat n)) = Z.add 1 <$> rev (seqZ 0 (Z.of_nat n))) by (symmetry; apply map_rev).
  rewrite E, fmap_app, <- list_fmap_compose. f_equal.
  - apply list_fmap_ext. intros i k Hk%list_elem_of_lookup_2. apply list_elem_of_In, in_rev, list_elem_of_In, elem_of_seqZ in Hk.
    cbn. rewrite Z.pow_add_r, Z.pow_1_r, Z.div_div by lia. done.
  - cbn. by rewrite Z.div_1_r.
Qed.

Lemma positional_zero n b : 2 <= b -> forall x, 0 <= x < b ^ Z.of_nat n ->
  forallb (fun d => d =? 0) (positional n b x) = (x =? 0).
Proof.
  intros Hb. induction n as [|n IH]; intros x Hx.
  - change (b ^ Z.of_nat 0) with 1 in Hx. by replace x with 0 by lia.
  - rewrite Nat2Z.inj_succ, Z.pow_succ_r in Hx by lia. pose proof (Z.div_mod x b ltac:(lia)).
    pose proof (Z.mod_pos_bound x b ltac:(lia)). pose proof (Z.div_pos x b ltac:(lia) ltac:(lia)).
    rewrite positional_snoc, forallb_app, IH by nia. cbn. rewrite andb_true_r.
    destruct (Z.eqb_spec (x / b) 0), (Z.eqb_spec (x mod b) 0), (Z.eqb_spec x 0); nia || done.
Qed.

Lemma strip_snoc l d : strip (l ++ [d]) = if forallb (fun d => d =? 0) l then [d] else strip l ++ [d].
Proof.
  induction l as [|x l IH]; [done|]. destruct l as [|y l].
  - cbn. by destruct (x =? 0).
  - change ((x :: y :: l) ++ [d]) with (x :: (y :: l ++ [d])). cbn [strip forallb].
    destruct (x =? 0); [|done]. exact IH.
Qed.

(** The loop of printint() computes the numeral. *)
Lemma printint_loop_numeral b : 2 <= b <= 16 -> forall n x buf, 0 <= x < b ^ Z.of_nat (S n) ->
  printint_loop (S n) x b buf = (digit <$> strip (positional (S n) b x)) ++ buf.
Proof.
  intros Hb. induction n as [|n IH]; intros x buf Hx; pose proof (Z.div_mod x b ltac:(lia)) as Hd;
    pose proof (Z.mod_pos_bound x b ltac:(lia)); pose proof (Z.div_pos x b ltac:(lia) ltac:(lia));
    rewrite Nat2Z.inj_succ, Z.pow_succ_r in Hx by lia; rewrite positional_snoc, strip_snoc, positional_zero by nia;
    change (printint_loop (S ?n) x b buf) with (let buf := digit (x mod b) :: buf in
      if x / b =? 0 then buf else printint_loop n (x / b) b buf); cbv zeta.
  - change (b ^ Z.of_nat 0) with 1 in Hx. by replace (x / b) with 0 by nia.
  - destruct (x / b =? 0); [done|]. rewrite IH by nia. rewrite fmap_app, <- app_assoc. done.
Qed.

Lemma positional_digits n b x : 2 <= b -> Forall (fun d => 0 <= d < b) (positional n b x).
Proof. intros Hb. unfold positional. apply Forall_fmap, Forall_true. intros k. apply Z.mod_pos_bound. lia. Qed.

Lemma strip_sub ds d : d ∈ strip ds -> d ∈ ds.
Proof.
  induction ds as [|x [|y ds] IH]; [done|done|]. cbn [strip]. destruct (x =? 0); [|done]. intros H. right. by apply IH.
Qed.

Lemma digit_char d : 0 <= d < 16 -> digit d = char_of d.
Proof.
  intros H. assert (Hall : forallb (fun d => digit d =? char_of d) (seqZ 0 16) = true) by by vm_compute.
  rewrite forallb_forall in Hall. apply Z.eqb_eq, Hall, list_elem_of_In, elem_of_seqZ. lia.
Qed.

Lemma digits_chars b ds : b <= 16 -> Forall (fun d => 0 <= d < b) ds -> digit <$> ds = char_of <$> ds.
Proof.
  intros Hb Hd. apply list_fmap_ext. intros i d Hi. apply digit_char.
  pose proof (Forall_lookup_1 _ _ _ _ Hd Hi). cbn in *. lia.
Qed.

Lemma printint_numeral xx b sign : 2 <= b <= 16 -> - 2 ^ 63 <= xx < 2 ^ 63 ->
  printint_chars xx b sign =
    if c_true sign && (xx <? 0) then 45 :: numeral_chars b (- xx) else numeral_chars b (u64 xx).
Proof.
  intros Hb Hx. unfold printint_chars, numeral_chars. assert (Hp : 2 ^ 64 <= b ^ Z.of_nat 64) by (apply Z.pow_le_mono_l; lia).
  assert (Hl : forall x, 0 <= x < 2 ^ 64 -> printint_loop 64 x b [] = char_of <$> strip (positional 64 b x)).
  { intros y Hy. rewrite printint_loop_numeral, app_nil_r by lia. apply (digits_chars b); [lia|].
    apply Forall_forall. intros d Hd%strip_sub. by apply (proj1 (Forall_forall _ _) (positional_digits 64 b y ltac:(lia))). }
  destruct (c_true sign); cbn [andb]; [destruct (Z.ltb_spec xx 0)|]; rewrite Hl by (apply u64_range); try done.
  by rewrite u64_small by lia.
Qed.

(** The shifts of printptr() pick the hexadecimal digits. *)
Lemma printptr_positional n : forall x, 0 <= x < 2 ^ 64 -> (n <= 16)%nat ->
  printptr_chars n x = (fun i => digit (x / 16 ^ (15 - Z.of_nat i) mod 16)) <$> seq 0 n.
Proof.
  induction n as [|n IH]; intros x Hx Hn; [done|]. cbn [printptr_chars seq fmap list_fmap]. f_equal.
  - f_equal. rewrite Z.shiftr_div_pow2 by lia. change (16 ^ (15 - Z.of_nat 0)) with (2 ^ 60). rewrite (Z.mod_small (x / 2 ^ 60)); [done|].
    split; [apply Z.div_pos; lia|apply Z.div_lt_upper_bound; lia].
  - rewrite IH by (apply u64_range || lia). rewrite <- fmap_S_seq, <- list_fmap_compose. apply list_fmap_ext.
    intros i k Hk%lookup_seq. cbn. f_equal. destruct Hk as [-> Hk].
    replace (16 ^ (15 - Z.of_nat (0 + i))) with (2 ^ (60 - 4 * Z.of_nat i)) by (change 16 with (2 ^ 4); rewrite <- Z.pow_mul_r by lia; f_equal; lia).
    replace (16 ^ (15 - Z.of_nat (S (0 + i)))) with (2 ^ (56 - 4 * Z.of_nat i)) by (change 16 with (2 ^ 4); rewrite <- Z.pow_mul_r by lia; f_equal; lia).
    change 16 with (2 ^ 4). rewrite <- !Z.shiftr_div_pow2, <- !Z.land_ones by lia. unfold u64. rewrite <- Z.land_ones by lia.
    apply Z.bits_inj'. intros j Hj. rewrite !Z.land_spec. destruct (decide (j < 4)) as [Hj4|Hj4].
    + rewrite !Z.ones_spec_low, !andb_true_r by lia. rewrite !Z.shiftr_spec, Z.land_spec, Z.ones_spec_low, andb_true_r, Z.shiftl_spec by lia.
      f_equal. lia.
    + by rewrite !Z.ones_spec_high, !andb_false_r by lia.
Qed.

Lemma printptr_numeral x : 0 <= x < 2 ^ 64 -> printptr_chars 16 x = char_of <$> positional 16 16 x.
Proof.
  intros Hx. rewrite printptr_positional by lia. rewrite <- (digits_chars 16) by (lia || apply positional_digits; lia). done.
Qed.

(** ** What a format means *)

Inductive size : Type := Plain | Long | LongLong.
Inductive radix : Type := Signed | Unsigned | Hex.

(** One piece of a format, with its argument. *)
Inductive item : Type :=
  | Char (c : Z)                              (* an ordinary character *)
  | Int (sz : size) (r : radix) (v : Z)       (* %d %u %x %ld ... %llx *)
  | Pointer (v : Z)                           (* %p *)
  | Text (s : option (list Z))                (* %s, None the null pointer *)
  | Percent                                   (* %% *)
  | Unknown (c : Z).                          (* any other character behind % *)

(** How it is written in the format. *)
Definition spelling (it : item) : list Z :=
  match it with
  | Char c => [c]
  | Int sz r _ =>
      chars "%" ++ (match sz with Plain => [] | Long => chars "l" | LongLong => chars "ll" end) ++
      (match r with Signed => chars "d" | Unsigned => chars "u" | Hex => chars "x" end)
  | Pointer _ => chars "%p"
  | Text _ => chars "%s"
  | Percent => chars "%%"
  | Unknown c => chars "%" ++ [c]
  end.

(** What the caller passes for it. *)
Definition argument (it : item) : list parg :=
  match it with Int _ _ v | Pointer v => [PInt v] | Text s => [PStr s] | _ => [] end.

(** The number an integer conversion shows: the argument as an int, or as a long
    for %l and %ll; a conversion without sign shows the 64-bit two's complement of
    that, for an int too. *)
Definition shown (sz : size) (r : radix) (v : Z) : Z :=
  let n := match sz with Plain => s32 v | _ => s64 v end in
  match r with Signed => n | _ => u64 n end.

(** The text it stands for. *)
Definition meaning (it : item) : list Z :=
  match it with
  | Char c => [c]
  | Int sz r v =>
      let n := shown sz r v in
      (if n <? 0 then chars "-" else []) ++ numeral_chars (match r with Hex => 16 | _ => 10 end) (Z.abs n)
  | Pointer v => chars "0x" ++ (char_of <$> positional 16 16 (u64 v))
  | Text (Some s) => s
  | Text None => chars "(null)"
  | Percent => chars "%"
  | Unknown c => chars "%" ++ [c]
  end.

(** printint() has 16 bytes for a numeral and its sign. *)
Definition overruns (it : item) : bool :=
  match it with Int _ _ _ => (16 <? length (meaning it))%nat | _ => false end.

Definition item_ok (it : item) : Prop :=
  match it with
  | Char c => 0 < c < 256 /\ c <> 37
  | Text (Some s) => Forall (fun c => 0 < c < 256) s
  | Unknown c => 0 < c < 256 /\ c ∉ chars "duxlps%"
  | _ => True
  end.

(** The text of a format, or that of the items before the first that overruns. *)
Fixpoint meanings (its : list item) : list Z * bool :=
  match its with
  | [] => ([], true)
  | it :: its =>
      if overruns it then ([], false) else
      let '(cs, ok) := meanings its in (meaning it ++ cs, ok)
  end.

Lemma s32_u64 v : s32 (u64 v) = s32 v.
Proof.
  unfold s32, u64. f_equal. rewrite <- (Zplus_mod_idemp_l v), <- (Zplus_mod_idemp_l (v mod 2 ^ 64)). do 2 f_equal.
  rewrite <- (Znumtheory.Zmod_div_mod (2 ^ 32) (2 ^ 64) v); [done|lia|lia|]. by exists (2 ^ 32).
Qed.

Lemma s64_u64 v : s64 (u64 v) = s64 v.
Proof. unfold s64, u64. by rewrite Zplus_mod_idemp_l. Qed.

Lemma int_meaning sz r v :
  numeral_text (match sz with Plain => s32 v | _ => s64 v end) (match r with Hex => 16 | _ => 10 end)
    (match r with Signed => 1 | _ => 0 end) =
  if overruns (Int sz r v) then None else Some (meaning (Int sz r v)).
Proof.
  set (n := match sz with Plain => s32 v | _ => s64 v end).
  assert (Hn : - 2 ^ 63 <= n < 2 ^ 63) by (unfold n; destruct sz; [apply s32_range'|apply s64_range..]).
  assert (E : printint_chars n (match r with Hex => 16 | _ => 10 end) (match r with Signed => 1 | _ => 0 end) = meaning (Int sz r v)).
  { rewrite printint_numeral by (done || destruct r; lia). unfold meaning, shown. fold n. destruct r; cbn [c_true Z.eqb negb andb].
    - destruct (Z.ltb_spec n 0); [by rewrite Z.abs_neq by lia|]. by rewrite Z.abs_eq, u64_small by lia.
    - pose proof (u64_range n). rewrite (proj2 (Z.ltb_ge (u64 n) 0)), Z.abs_eq by lia. done.
    - pose proof (u64_range n). rewrite (proj2 (Z.ltb_ge (u64 n) 0)), Z.abs_eq by lia. done. }
  unfold numeral_text, overruns. by rewrite E.
Qed.

(** One item at the head of a format. *)
Lemma int_rendered n sz r v rest ap :
  render_all (parse (S n) (spelling (Int sz r v) ++ rest)) (PInt v :: ap) =
    if overruns (Int sz r v) then ([], false) else
    let '(cs, ok) := render_all (parse n rest) ap in (meaning (Int sz r v) ++ cs, ok).
Proof.
  transitivity (render_all (Num (match sz with Plain => false | _ => true end) (match r with Hex => 16 | _ => 10 end)
    (match r with Signed => 1 | _ => 0 end) :: parse n rest) (PInt v :: ap)); [by destruct sz, r|].
  pose proof (int_meaning sz r v) as E. destruct sz; cbn [render_all render va_uint64 va_int];
    rewrite ?s32_u64, ?s64_u64, E; by destruct (overruns _).
Qed.

Lemma cstr_whole s : Forall (fun c => 0 < c < 256) s -> cstr s = s.
Proof. induction 1 as [|c s Hc _ IH]; cbn; [done|]. by rewrite (proj2 (Z.eqb_neq c 0)), IH by lia. Qed.

Lemma unknown_decoded c rest : item_ok (Unknown c) -> decode (c :: rest) = (Bad c, 1%nat).
Proof.
  intros [Hc Hn]. unfold decode. cbn.
  rewrite !(fun x => proj2 (Z.eqb_neq c x)) by (intros ->; apply Hn; cbn; set_solver). done.
Qed.

Lemma item_rendered n it rest ap : item_ok it ->
  render_all (parse (S n) (spelling it ++ rest)) (argument it ++ ap) =
    if overruns it then ([], false) else
    let '(cs, ok) := render_all (parse n rest) ap in (meaning it ++ cs, ok).
Proof.
  intros Hok. destruct it as [c|sz r v|v|[s|]| |c].
  - cbn [spelling app parse]. destruct Hok as [Hc Hp]. rewrite (proj2 (Z.eqb_neq c 0)), (proj2 (Z.eqb_neq c 37)) by lia. done.
  - apply int_rendered.
  - transitivity (render_all (Ptr :: parse n rest) (PInt v :: ap)); [done|]. cbn [render_all render va_uint64].
    by rewrite printptr_numeral by apply u64_range.
  - transitivity (render_all (Str :: parse n rest) (PStr (Some s) :: ap)); [done|]. cbn [render_all render va_str].
    by rewrite cstr_whole.
  - done.
  - done.
  - transitivity (render_all (Bad c :: parse n rest) ap); [|done]. f_equal. cbn [spelling app chars parse hd].
    rewrite unknown_decoded by done. destruct Hok as [Hc _]. change (hd 0 (c :: rest)) with c.
    rewrite (proj2 (Z.eqb_neq c 0)) by lia. done.
Qed.

Lemma format_meanings its tail : Forall item_ok its -> tail = [] \/ tail = [37] ->
  forall n, (length (mjoin (spelling <$> its) ++ tail) < n)%nat ->
  render_all (parse n (mjoin (spelling <$> its) ++ tail)) (mjoin (argument <$> its)) = meanings its.
Proof.
  intros Hok Ht. induction Hok as [|it its Hit _ IH]; intros n Hn.
  - destruct n as [|n]; [done|]. by destruct Ht as [-> | ->].
  - change (mjoin (spelling <$> it :: its)) with (spelling it ++ mjoin (spelling <$> its)) in *.
    change (mjoin (argument <$> it :: its)) with (argument it ++ mjoin (argument <$> its)).
    rewrite <- app_assoc in *. destruct n as [|n]; [lia|].
    rewrite item_rendered by done. cbn [meanings]. destruct (overruns it); [done|].
    assert (1 <= length (spelling it))%nat by (destruct it as [|[] []| | | |]; by apply Nat.leb_le).
    rewrite (length_app (spelling it)) in Hn. by rewrite IH by lia.
Qed.

Lemma item_bytes it : item_ok it -> Forall is_byte (spelling it) /\ Forall arg_ok (argument it).
Proof.
  unfold is_byte. intros Hok. destruct it as [c|[] [] v|v|[s|]| |c]; cbn in *; split; repeat constructor; try lia; try done.
  eapply Forall_impl; [exact Hok|]. cbn. unfold is_byte. lia.
Qed.

Lemma items_bytes its : Forall item_ok its -> Forall is_byte (mjoin (spelling <$> its)) /\ Forall arg_ok (mjoin (argument <$> its)).
Proof.
  induction 1 as [|it its Hit _ [IH1 IH2]]; [done|]. cbn [fmap list_fmap mjoin list_join]. rewrite !Forall_app.
  by destruct (item_bytes it Hit).
Qed.

(** C31: printf() prints what its format means. For a format written from any
    sequence of ordinary characters, conversions (%d %u %x, each also with l and
    ll, %p, %s, %%) and unknown conversions, with one argument for each
    conversion that takes one, printf() sends to the UART exactly the texts the
    items stand for, in order, and changes nothing else: a signed numeral is a
    minus sign and the magnitude in positional notation without leading zeros, an
    unsigned or hexadecimal one the 64-bit value, a pointer sixteen hexadecimal
    digits. A percent sign that ends the format prints nothing. When a numeral
    with its sign has more than 16 characters, printint() runs over its buffer. *)
Theorem printf_formats its tail s :
  Forall item_ok its -> tail = [] \/ tail = [37] ->
  settled s -> depth s + 1 < 2 ^ 30 -> k_panicked s = 0 -> lock_free LK_pr s ->
  let fmt := mjoin (spelling <$> its) ++ tail in
  let ap := mjoin (argument <$> its) in
  match meanings its with
  | (cs, true) => printf fmt ap s = Ok 0 (emit cs s)
  | (_, false) => exists s', printf fmt ap s = Panic "undefined" s'
  end.
Proof.
  intros Hok Ht Hs Hd Hp Hl fmt ap. destruct (items_bytes its Hok) as [Hb Ha].
  assert (Hf : Forall is_byte fmt).
  { apply Forall_app. split; [done|]. destruct Ht as [-> | ->]; repeat constructor; unfold is_byte; lia. }
  assert (E : format fmt ap = meanings its) by (apply format_meanings; [done|done|apply Nat.lt_succ_diag_r]).
  rewrite <- E. destruct (format fmt ap) as [cs []] eqn:Ef; [by apply printf_eq|by eapply printf_overruns].
Qed.

Lemma printf_formats_witness : let s := boot_state (fun _ => 0) ∅ in
  printf (chars "pid %d: %s %lx%%%") [PInt (-3); PStr (Some (chars "sh")); PInt 255] s = Ok 0 (emit (chars "pid -3: sh ff%") s).
Proof.
  refine (printf_formats ((Char <$> chars "pid ") ++ [Int Plain Signed (-3); Char 58; Char 32; Text (Some (chars "sh")); Char 32;
    Int Long Hex 255; Percent]) [37] (boot_state (fun _ => 0) ∅) _ _ _ _ _ _).
  - cbn. repeat apply Forall_cons_2; try apply Forall_nil_2; cbn; try done; repeat apply Forall_cons_2; lia || apply Forall_nil_2.
  - by right.
  - vm_compute. intuition congruence.
  - reflexivity.
  - reflexivity.
  - reflexivity.
Defined.

End Format.
