(* ===== verification/Console.v ===== *)
(** console.c and the interrupt-driven half of uart.c: the transmit ring
    between write() and the device, and the line-edited input ring between the
    device and read(). *)

From S2P Require Import Prelude Riscv State Spinlock Kalloc Vm Sched Printf.

(** ** The transmit ring *)

Definition UART_TX_BUF_SIZE : Z := 32.

(** The loop of uartstart(): [n] bounds the characters it can send. *)
Fixpoint uartstart_loop (n : nat) : K unit :=
  u <- gets k_uart;;
  if u_tx_w u =? u_tx_r u then ret tt else
  idle <- gets uart_idle;;
  if negb idle then ret tt else
  match n with
  | O => diverge
  | S n =>
      let c := u_tx_buf u !!! Z.to_nat (u_tx_r u mod UART_TX_BUF_SIZE) in
      upd_uart (u_set_tx_r (u64 (u_tx_r u + 1)));;
      wakeup CH_uart_tx_r;;
      write_THR c;;
      uartstart_loop n
  end.

Definition uartstart : K unit :=
  u <- gets k_uart;;
  uartstart_loop (Z.to_nat (u64 (u_tx_w u - u_tx_r u))).

(** [while(uart_tx_w == uart_tx_r + UART_TX_BUF_SIZE) sleep(...)] *)
Fixpoint uartputc_wait (n : nat) : K unit :=
  u <- gets k_uart;;
  if u_tx_w u =? u64 (u_tx_r u + UART_TX_BUF_SIZE) then
    match n with
    | O => diverge
    | S n => sleep CH_uart_tx_r LK_uart;; uartputc_wait n
    end
  else ret tt.

Definition uartputc (c : Z) : K unit :=
  acquire LK_uart;;
  p <- gets k_panicked;;
  if c_true p then diverge else
  uartputc_wait patience;;
  upd_uart (fun u => u_set_tx_buf (<[Z.to_nat (u_tx_w u mod UART_TX_BUF_SIZE) := u8 c]> (u_tx_buf u)) u);;
  upd_uart (fun u => u_set_tx_w (u64 (u_tx_w u + 1)) u);;
  uartstart;;
  release LK_uart.

(** ** Input *)

Definition uartgetc : K Z :=
  u <- gets k_uart;;
  match u_rx u with
  | [] => ret (-1)
  | c :: rx => upd_uart (u_set_rx rx);; ret c
  end.

Definition upd_cons (f : cons -> cons) : K unit := modify (fun s => k_set_cons (f (k_cons s)) s).

Definition INPUT_BUF_SIZE : Z := 128.
Definition ctrl (c : Z) : Z := c - 64.
Definition ctrl_P : Z := ctrl 80.
Definition ctrl_U : Z := ctrl 85.
Definition ctrl_H : Z := ctrl 72.
Definition ctrl_D : Z := ctrl 68.

(** proc.c: the process listing. *)
Definition state_name (st : procstate) : list Z :=
  match st with
  | UNUSED => chars "unused" | USED => chars "used" | SLEEPING => chars "sleep "
  | RUNNABLE => chars "runble" | RUNNING => chars "run   " | ZOMBIE => chars "zombie"
  end.

Definition procdump : K unit :=
  printf (chars NL) [];;
  for_each (seq 0 NPROC) (fun i =>
    p <- proc_at i;;
    if bool_decide (p_state p = UNUSED) then ret tt else
    printf (chars "%d %s %s")
      [PInt (p_pid p); PStr (Some (state_name (p_state p))); PStr (Some (p_name p))];;
    printf (chars NL) [];;
    ret tt).

(** ^U: at most INPUT_BUF_SIZE characters lie between [w] and [e]. *)
Fixpoint kill_line (n : nat) : K unit :=
  c <- gets k_cons;;
  if negb (cons_e c =? cons_w c) &&
     negb (cons_buf c !!! Z.to_nat (u32 (cons_e c - 1) mod INPUT_BUF_SIZE) =? 10) then
    match n with
    | O => diverge
    | S n => upd_cons (cons_set_e (u32 (cons_e c - 1)));; consputc BACKSPACE;; kill_line n
    end
  else ret tt.

Definition consoleintr (c : Z) : K unit :=
  acquire LK_cons;;
  (if c =? ctrl_P then procdump
   else if c =? ctrl_U then
     v <- gets k_cons;;
     kill_line (Z.to_nat (u32 (cons_e v - cons_w v)))
   else if (c =? ctrl_H) || (c =? 0x7f) then
     v <- gets k_cons;;
     when negb (cons_e v =? cons_w v) do
       (upd_cons (cons_set_e (u32 (cons_e v - 1)));; consputc BACKSPACE)
   else
     v <- gets k_cons;;
     when negb (c =? 0) && (u32 (cons_e v - cons_r v) <? INPUT_BUF_SIZE) do
       (let c := if c =? 13 then 10 else c in
        consputc c;;
        upd_cons (fun v => cons_set_e (u32 (cons_e v + 1))
          (cons_set_buf (<[Z.to_nat (cons_e v mod INPUT_BUF_SIZE) := u8 c]> (cons_buf v)) v));;
        v <- gets k_cons;;
        when (c =? 10) || (c =? ctrl_D) || (u32 (cons_e v - cons_r v) =? INPUT_BUF_SIZE) do
          (upd_cons (cons_set_w (cons_e v));;
           wakeup CH_cons_r)));;
  release LK_cons.

Fixpoint uartintr_loop (n : nat) : K unit :=
  c <- uartgetc;;
  if c =? -1 then ret tt else
  match n with
  | O => diverge
  | S n => consoleintr c;; uartintr_loop n
  end.

(** The characters waiting in the receive FIFO bound the loop. *)
Definition uartintr : K unit :=
  u <- gets k_uart;;
  uartintr_loop (length (u_rx u));;
  acquire LK_uart;;
  uartstart;;
  release LK_uart.

Section Console.
Context `{L : Linker}.

(** ** The console device *)

Fixpoint consolewrite_loop (k : nat) (user_src src i n : Z) : K Z :=
  if i <? n then
    match k with
    | O => diverge
    | S k =>
        '(r, bytes) <- either_copyin user_src (u64 (src + i)) 1;;
        if r =? -1 then ret i else
        uartputc (hd 0 bytes);;
        consolewrite_loop k user_src src (i + 1) n
    end
  else ret i.

Definition consolewrite (user_src src n : Z) : K Z :=
  consolewrite_loop (Z.to_nat n) user_src src 0 n.

(** The inner wait loop; false when the process was killed. *)
Fixpoint consoleread_wait (k : nat) : K bool :=
  v <- gets k_cons;;
  if cons_r v =? cons_w v then
    me <- myproc;;
    p <- deref me;;
    kd <- killed p;;
    if c_true kd then ret false else
    match k with
    | O => diverge
    | S k => sleep CH_cons_r LK_cons;; consoleread_wait k
    end
  else ret true.

(** The result is None when the process was killed, else the final [n]. *)
Fixpoint consoleread_loop (k : nat) (user_dst dst n target : Z) : K (option Z) :=
  if 0 <? n then
    match k with
    | O => diverge
    | S k =>
        ok <- consoleread_wait patience;;
        if negb ok then ret None else
        v <- gets k_cons;;
        let c := cons_buf v !!! Z.to_nat (cons_r v mod INPUT_BUF_SIZE) in
        upd_cons (cons_set_r (u32 (cons_r v + 1)));;
        if c =? ctrl_D then
          (when u32 n <? target do upd_cons (fun v => cons_set_r (u32 (cons_r v - 1)) v));;
          ret (Some n)
        else
        r <- either_copyout user_dst dst [c] 1;;
        if r =? -1 then ret (Some n) else
        if c =? 10 then ret (Some (n - 1)) else
        consoleread_loop k user_dst (u64 (dst + 1)) (n - 1) target
    end
  else ret (Some n).

Definition consoleread (user_dst dst n : Z) : K Z :=
  let target := u32 n in
  acquire LK_cons;;
  r <- consoleread_loop (Z.to_nat n) user_dst dst n target;;
  release LK_cons;;
  match r with
  | None => ret (-1)
  | Some n' => ret (s32 (target - n'))
  end.

(** ** Initialisation *)

Definition IER : Z := 1.
Definition IER_RX_ENABLE : Z := Z.shiftl 1 0.
Definition IER_TX_ENABLE : Z := Z.shiftl 1 1.
Definition FCR : Z := 2.
Definition FCR_FIFO_ENABLE : Z := Z.shiftl 1 0.
Definition FCR_FIFO_CLEAR : Z := Z.shiftl 3 1.
Definition LCR : Z := 3.
Definition LCR_EIGHT_BITS : Z := Z.shiftl 3 0.
Definition LCR_BAUD_LATCH : Z := Z.shiftl 1 7.

(** The result is the writes to the device's registers, in order; they set the
    line up, which the model of the device has no state for. *)
Definition uartinit : K (list (Z * Z)) :=
  initlock LK_uart;;
  ret [(IER, 0x00); (LCR, LCR_BAUD_LATCH); (0, 0x03); (1, 0x00); (LCR, LCR_EIGHT_BITS);
       (FCR, Z.lor FCR_FIFO_ENABLE FCR_FIFO_CLEAR); (IER, Z.lor IER_TX_ENABLE IER_RX_ENABLE)].

(** The console is device 1. *)
Definition CONSOLE : nat := 1.

Definition consoleinit : K unit :=
  initlock LK_cons;;
  uartinit;;
  modify (fun s => k_set_devsw (<[CONSOLE := (Some DEV_console, Some DEV_console)]> (k_devsw s)) s).

End Console.
