(* ===== verification/Virtio.v ===== *)
(** virtio_disk.c: the driver of the virtio block device.

    The descriptor table, the two rings and the driver's book-keeping are
    [k_vdisk], with the device's QUEUE_NOTIFY and INTERRUPT_STATUS. The device is
    not part of the kernel: a write to QUEUE_NOTIFY makes it look at the queue,
    and what it does with the queue happens while the requesting process sleeps.
    In virtio_disk_init() a register reads a value the device chooses from the
    writes it has seen, the argument [reg]. *)

From S2P Require Import Prelude Riscv State Spinlock Kalloc Vm Sched.

(** ** Constants of virtio.h and virtio_disk.c *)

Definition NUM : Z := 8.
Definition VRING_DESC_F_NEXT : Z := 1.
Definition VRING_DESC_F_WRITE : Z := 2.
Definition VIRTIO_BLK_T_IN : Z := 0.
Definition VIRTIO_BLK_T_OUT : Z := 1.
Definition VIRTIO_MMIO_MAGIC_VALUE : Z := 0x000.
Definition VIRTIO_MMIO_VERSION : Z := 0x004.
Definition VIRTIO_MMIO_DEVICE_ID : Z := 0x008.
Definition VIRTIO_MMIO_VENDOR_ID : Z := 0x00c.
Definition VIRTIO_MMIO_DEVICE_FEATURES : Z := 0x010.
Definition VIRTIO_MMIO_DRIVER_FEATURES : Z := 0x020.
Definition VIRTIO_MMIO_QUEUE_SEL : Z := 0x030.
Definition VIRTIO_MMIO_QUEUE_NUM_MAX : Z := 0x034.
Definition VIRTIO_MMIO_QUEUE_NUM : Z := 0x038.
Definition VIRTIO_MMIO_QUEUE_READY : Z := 0x044.
Definition VIRTIO_MMIO_STATUS : Z := 0x070.
Definition VIRTIO_MMIO_QUEUE_DESC_LOW : Z := 0x080.
Definition VIRTIO_MMIO_QUEUE_DESC_HIGH : Z := 0x084.
Definition VIRTIO_MMIO_DRIVER_DESC_LOW : Z := 0x090.
Definition VIRTIO_MMIO_DRIVER_DESC_HIGH : Z := 0x094.
Definition VIRTIO_MMIO_DEVICE_DESC_LOW : Z := 0x0a0.
Definition VIRTIO_MMIO_DEVICE_DESC_HIGH : Z := 0x0a4.
Definition VIRTIO_CONFIG_S_ACKNOWLEDGE : Z := 1.
Definition VIRTIO_CONFIG_S_DRIVER : Z := 2.
Definition VIRTIO_CONFIG_S_DRIVER_OK : Z := 4.
Definition VIRTIO_CONFIG_S_FEATURES_OK : Z := 8.
Definition VIRTIO_BLK_F_RO : Z := 5.
Definition VIRTIO_BLK_F_SCSI : Z := 7.
Definition VIRTIO_BLK_F_CONFIG_WCE : Z := 11.
Definition VIRTIO_BLK_F_MQ : Z := 12.
Definition VIRTIO_F_ANY_LAYOUT : Z := 27.
Definition VIRTIO_RING_F_INDIRECT_DESC : Z := 28.
Definition VIRTIO_RING_F_EVENT_IDX : Z := 29.

Definition upd_vd (f : vdisk -> vdisk) : K unit := modify (fun s => k_set_vdisk (f (k_vdisk s)) s).

(** ** Initialisation *)

Section Init.
Context `{L : Linker}.

(** The writes to the device's registers so far, the latest first, and what a
    register reads after them. *)
Definition reg_writes : Type := list (Z * Z).
Definition reg_file : Type := reg_writes -> Z -> Z.

(** [features &= ~(1 << f)] for each of [fs]. *)
Definition clear_features (fs : list Z) (features : Z) : Z :=
  foldl (fun features f => Z.land features (Z.lnot (Z.shiftl 1 f))) features fs.

Definition refused_features : list Z :=
  [VIRTIO_BLK_F_RO; VIRTIO_BLK_F_SCSI; VIRTIO_BLK_F_CONFIG_WCE; VIRTIO_BLK_F_MQ;
   VIRTIO_F_ANY_LAYOUT; VIRTIO_RING_F_EVENT_IDX; VIRTIO_RING_F_INDIRECT_DESC].

(** The writes up to the first check of the answer: reset, acknowledge, and
    the features the driver accepts. *)
Definition negotiate (reg : reg_file) : reg_writes :=
  let w := [(VIRTIO_MMIO_STATUS, 0)] in
  let status := Z.lor 0 VIRTIO_CONFIG_S_ACKNOWLEDGE in
  let w := (VIRTIO_MMIO_STATUS, status) :: w in
  let status := Z.lor status VIRTIO_CONFIG_S_DRIVER in
  let w := (VIRTIO_MMIO_STATUS, status) :: w in
  let features := clear_features refused_features (reg w VIRTIO_MMIO_DEVICE_FEATURES) in
  let w := (VIRTIO_MMIO_DRIVER_FEATURES, u32 features) :: w in
  (VIRTIO_MMIO_STATUS, Z.lor status VIRTIO_CONFIG_S_FEATURES_OK) :: w.

(** The writes that tell the device where queue 0 is. *)
Definition queue_addresses (desc avail used : Z) (w : reg_writes) : reg_writes :=
  (VIRTIO_MMIO_QUEUE_READY, 1) ::
  (VIRTIO_MMIO_DEVICE_DESC_HIGH, u32 (Z.shiftr used 32)) ::
  (VIRTIO_MMIO_DEVICE_DESC_LOW, u32 used) ::
  (VIRTIO_MMIO_DRIVER_DESC_HIGH, u32 (Z.shiftr avail 32)) ::
  (VIRTIO_MMIO_DRIVER_DESC_LOW, u32 avail) ::
  (VIRTIO_MMIO_QUEUE_DESC_HIGH, u32 (Z.shiftr desc 32)) ::
  (VIRTIO_MMIO_QUEUE_DESC_LOW, u32 desc) ::
  (VIRTIO_MMIO_QUEUE_NUM, NUM) :: w.

(** The result is the writes the device has seen. *)
Definition virtio_disk_init (reg : reg_file) : K reg_writes :=
  initlock LK_vdisk;;
  if negb (reg [] VIRTIO_MMIO_MAGIC_VALUE =? 0x74726976) || negb (reg [] VIRTIO_MMIO_VERSION =? 2) ||
     negb (reg [] VIRTIO_MMIO_DEVICE_ID =? 2) || negb (reg [] VIRTIO_MMIO_VENDOR_ID =? 0x554d4551)
  then panic "could not find virtio disk" else
  let w := negotiate reg in
  let status := reg w VIRTIO_MMIO_STATUS in
  if negb (bit_set status VIRTIO_CONFIG_S_FEATURES_OK)
  then panic "virtio disk FEATURES_OK unset" else
  let w := (VIRTIO_MMIO_QUEUE_SEL, 0) :: w in
  if c_true (reg w VIRTIO_MMIO_QUEUE_READY) then panic "virtio disk should not be ready" else
  let max := reg w VIRTIO_MMIO_QUEUE_NUM_MAX in
  if max =? 0 then panic "virtio disk has no queue 0" else
  if max <? NUM then panic "virtio disk max queue too short" else
  desc <- kalloc;;
  avail <- kalloc;;
  used <- kalloc;;
  if (desc =? 0) || (avail =? 0) || (used =? 0) then panic "virtio disk kalloc" else
  memset desc 0 PGSIZE;;
  memset avail 0 PGSIZE;;
  memset used 0 PGSIZE;;
  upd_vd (fun v => v_set_desc (replicate 8 (mkDesc DA_null 0 0 0))
    (v_set_avail_idx 0 (v_set_avail_ring (replicate 8 0)
      (v_set_used_ring_idx 0 (v_set_used_ring (replicate 8 0) v)))));;
  let w := queue_addresses desc avail used w in
  upd_vd (v_set_free (replicate 8 1));;
  ret ((VIRTIO_MMIO_STATUS, Z.lor status VIRTIO_CONFIG_S_DRIVER_OK) :: w).

End Init.

(** ** Descriptors *)

Fixpoint alloc_desc_loop (is_ : list nat) : K Z :=
  match is_ with
  | [] => ret (-1)
  | i :: is_ =>
      v <- gets k_vdisk;;
      if c_true (v_free v !!! i) then
        upd_vd (fun v => v_set_free (<[i := 0]> (v_free v)) v);;
        ret (Z.of_nat i)
      else alloc_desc_loop is_
  end.

Definition alloc_desc : K Z := alloc_desc_loop (seq 0 8).

Definition free_desc (i : Z) : K unit :=
  if NUM <=? i then panic "free_desc 1" else
  v <- gets k_vdisk;;
  if c_true (v_free v !!! Z.to_nat i) then panic "free_desc 2" else
  upd_vd (fun v => v_set_desc (<[Z.to_nat i := mkDesc DA_null 0 0 0]> (v_desc v)) v);;
  upd_vd (fun v => v_set_free (<[Z.to_nat i := 1]> (v_free v)) v);;
  wakeup CH_disk_free.

(** [n] bounds the length of a chain: there are NUM descriptors. *)
Fixpoint free_chain_loop (n : nat) (i : Z) : K unit :=
  match n with
  | O => diverge
  | S n =>
      d <- gets (fun s => v_desc (k_vdisk s) !!! Z.to_nat i);;
      free_desc i;;
      if bit_set (d_flags d) VRING_DESC_F_NEXT then free_chain_loop n (d_next d) else ret tt
  end.

Definition free_chain (i : Z) : K unit := free_chain_loop 8 i.

(** [n] descriptors are still to be allocated, [got] were, the first first. *)
Fixpoint alloc_descs (n : nat) (got : list Z) : K (option (list Z)) :=
  match n with
  | O => ret (Some got)
  | S n =>
      i <- alloc_desc;;
      if i <? 0 then
        for_each got free_desc;;
        ret None
      else alloc_descs n (got ++ [i])
  end.

Definition alloc3_desc : K (option (list Z)) := alloc_descs 3 [].

(** ** Requests *)

(** [while(1){ if(alloc3_desc(idx) == 0) break; sleep(...); }] *)
Fixpoint virtio_alloc_wait (n : nat) : K (list Z) :=
  r <- alloc3_desc;;
  match r with
  | Some idx => ret idx
  | None =>
      match n with
      | O => diverge
      | S n => sleep CH_disk_free LK_vdisk;; virtio_alloc_wait n
      end
  end.

(** [while(b->disk == 1) sleep(b, &disk.vdisk_lock)] *)
Fixpoint virtio_done_wait (n : nat) (b : nat) : K unit :=
  d <- gets (fun s => b_disk (k_bufs s !!! b));;
  if d =? 1 then
    match n with
    | O => diverge
    | S n => sleep (CH_buf b) LK_vdisk;; virtio_done_wait n b
    end
  else ret tt.

Definition set_desc (i : Z) (d : vdesc) : K unit :=
  upd_vd (fun v => v_set_desc (<[Z.to_nat i := d]> (v_desc v)) v).

(** [*R(VIRTIO_MMIO_QUEUE_NOTIFY) = queue] *)
Definition queue_notify (queue : Z) : K unit := upd_vd (v_set_notify (Some queue)).

(** [*R(VIRTIO_MMIO_INTERRUPT_ACK) = bits]: the bits written are cleared in
    INTERRUPT_STATUS (virtio 1.1, section 4.2.2). *)
Definition interrupt_ack (bits : Z) : K unit :=
  upd_vd (fun v => v_set_intr_status (Z.land (v_intr_status v) (Z.lnot bits)) v).

(** Up to the write of QUEUE_NOTIFY included; the result is the head of the chain. *)
Definition virtio_submit (b : nat) (write : bool) : K Z :=
  blockno <- gets (fun s => b_blockno (k_bufs s !!! b));;
  let sector := u32 (blockno * (BSIZE / 512)) in
  acquire LK_vdisk;;
  idx <- virtio_alloc_wait patience;;
  let i0 := idx !!! 0%nat in
  let i1 := idx !!! 1%nat in
  let i2 := idx !!! 2%nat in
  upd_vd (fun v => v_set_ops
    (<[Z.to_nat i0 := (if write then VIRTIO_BLK_T_OUT else VIRTIO_BLK_T_IN, 0, sector)]> (v_ops v)) v);;
  set_desc i0 (mkDesc (DA_op (Z.to_nat i0)) 16 VRING_DESC_F_NEXT i1);;
  set_desc i1 (mkDesc (DA_data b) BSIZE
    (Z.lor (if write then 0 else VRING_DESC_F_WRITE) VRING_DESC_F_NEXT) i2);;
  upd_vd (fun v => v_set_info_status (<[Z.to_nat i0 := 0xff]> (v_info_status v)) v);;
  set_desc i2 (mkDesc (DA_status (Z.to_nat i0)) 1 VRING_DESC_F_WRITE 0);;
  modify (fun s => k_set_bufs (alter (b_set_disk 1) b (k_bufs s)) s);;
  upd_vd (fun v => v_set_info_b (<[Z.to_nat i0 := Some b]> (v_info_b v)) v);;
  upd_vd (fun v => v_set_avail_ring
    (<[Z.to_nat (v_avail_idx v mod NUM) := u16 i0]> (v_avail_ring v)) v);;
  upd_vd (fun v => v_set_avail_idx (u16 (v_avail_idx v + 1)) v);;
  queue_notify 0;;
  ret i0.

Definition virtio_disk_rw_c (b : nat) (write : bool) : K unit :=
  i0 <- virtio_submit b write;;
  virtio_done_wait patience b;;
  upd_vd (fun v => v_set_info_b (<[Z.to_nat i0 := None]> (v_info_b v)) v);;
  free_chain i0;;
  release LK_vdisk.

(** ** Completion *)

Fixpoint virtio_intr_loop (n : nat) : K unit :=
  v <- gets k_vdisk;;
  if v_used_idx v =? v_used_ring_idx v then ret tt else
  match n with
  | O => diverge
  | S n =>
      let id := v_used_ring v !!! Z.to_nat (v_used_idx v mod NUM) in
      if c_true (v_info_status v !!! Z.to_nat id) then panic "virtio_disk_intr status" else
      b <- deref (v_info_b v !!! Z.to_nat id);;
      modify (fun s => k_set_bufs (alter (b_set_disk 0) b (k_bufs s)) s);;
      wakeup (CH_buf b);;
      upd_vd (fun v => v_set_used_idx (u16 (v_used_idx v + 1)) v);;
      virtio_intr_loop n
  end.

Definition virtio_disk_intr : K unit :=
  acquire LK_vdisk;;
  status <- gets (fun s => v_intr_status (k_vdisk s));;
  interrupt_ack (Z.land status 0x3);;
  v <- gets k_vdisk;;
  virtio_intr_loop (Z.to_nat (u16 (v_used_ring_idx v - v_used_idx v)));;
  release LK_vdisk.
