(* ===== verification/Bio.v ===== *)
(** bio.c: the buffer cache, above the block device it is given.

    A buffer is an index into [k_bufs]; index NBUF is bcache.head. The class
    [BlockDev] is what bio.c relies on from the disk driver: virtio_disk_rw()
    returns once the block was transferred. *)

From S2P Require Import Prelude Riscv State Spinlock Sched Sleeplock.

(** ** The disk driver's promise *)

(** The driver computes the sector in 32 bits, and takes over buffers it does
    not own yet. *)
Definition transferable (b : buf) : Prop := 0 <= b_blockno b < 2 ^ 31 /\ b_disk b = 0.

Class BlockDev := {
  virtio_disk_rw : nat -> bool -> K unit;
  dev_ok : vdisk -> Prop;
  rw_read p s b d :
    running p s -> dev_ok (k_vdisk s) -> (b < NBUF)%nat -> length (k_bufs s) = S NBUF ->
    transferable (k_bufs s !!! b) ->
    disk s !! b_blockno (k_bufs s !!! b) = Some d ->
    exists v ps, dev_ok v /\ procs_rel p (k_procs s) ps /\
      virtio_disk_rw b false s =
        Ok tt (k_set_procs ps (k_set_vdisk v (k_set_bufs (alter (b_set_data d) b (k_bufs s)) s)));
  rw_write p s b :
    running p s -> dev_ok (k_vdisk s) -> (b < NBUF)%nat -> length (k_bufs s) = S NBUF ->
    transferable (k_bufs s !!! b) ->
    exists v ps, dev_ok v /\ procs_rel p (k_procs s) ps /\
      virtio_disk_rw b true s =
        Ok tt (k_set_procs ps (k_set_vdisk v
          (k_set_writes ((b_blockno (k_bufs s !!! b), b_data (k_bufs s !!! b)) :: k_writes s) s)))
}.

Definition buf_at (b : nat) : K buf := gets (fun s => k_bufs s !!! b).
Definition upd_buf (b : nat) (f : buf -> buf) : K unit :=
  modify (fun s => k_set_bufs (alter f b (k_bufs s)) s).

Section Bio.
Context `{D : BlockDev}.

Definition binit : K unit :=
  initlock LK_bcache;;
  upd_buf NBUF (b_set_prev NBUF);;
  upd_buf NBUF (b_set_next NBUF);;
  for_each (seq 0 NBUF) (fun b =>
    h <- buf_at NBUF;;
    upd_buf b (b_set_next (b_next h));;
    upd_buf b (b_set_prev NBUF);;
    initsleeplock (SL_buf b);;
    h <- buf_at NBUF;;
    upd_buf (b_next h) (b_set_prev b);;
    upd_buf NBUF (b_set_next b)).

(** The scan for a cached block, from [b] along next to the head. *)
Fixpoint bget_find (n : nat) (b : nat) (dev blockno : Z) : K (option nat) :=
  if (b =? NBUF)%nat then ret None else
  match n with
  | O => diverge
  | S n =>
      bf <- buf_at b;;
      if (b_dev bf =? dev) && (b_blockno bf =? blockno) then ret (Some b)
      else bget_find n (b_next bf) dev blockno
  end.

(** The scan for an unused buffer, from [b] along prev to the head. *)
Fixpoint bget_lru (n : nat) (b : nat) : K (option nat) :=
  if (b =? NBUF)%nat then ret None else
  match n with
  | O => diverge
  | S n =>
      bf <- buf_at b;;
      if b_refcnt bf =? 0 then ret (Some b) else bget_lru n (b_prev bf)
  end.

Definition bget (dev blockno : Z) : K nat :=
  acquire LK_bcache;;
  h <- buf_at NBUF;;
  r <- bget_find NBUF (b_next h) dev blockno;;
  match r with
  | Some b =>
      upd_buf b (fun bf => b_set_refcnt (u32 (b_refcnt bf + 1)) bf);;
      release LK_bcache;;
      acquiresleep (SL_buf b);;
      ret b
  | None =>
      r <- bget_lru NBUF (b_prev h);;
      match r with
      | Some b =>
          upd_buf b (b_set_dev dev);;
          upd_buf b (b_set_blockno blockno);;
          upd_buf b (b_set_valid 0);;
          upd_buf b (b_set_refcnt 1);;
          release LK_bcache;;
          acquiresleep (SL_buf b);;
          ret b
      | None => panic "bget: no buffers"
      end
  end.

Definition bread (dev blockno : Z) : K nat :=
  b <- bget dev blockno;;
  bf <- buf_at b;;
  (when negb (c_true (b_valid bf)) do
     (virtio_disk_rw b false;;
      upd_buf b (b_set_valid 1)));;
  ret b.

Definition bwrite (b : nat) : K unit :=
  h <- holdingsleep (SL_buf b);;
  if negb h then panic "bwrite" else
  virtio_disk_rw b true.

Definition brelse (b : nat) : K unit :=
  h <- holdingsleep (SL_buf b);;
  if negb h then panic "brelse" else
  releasesleep (SL_buf b);;
  acquire LK_bcache;;
  upd_buf b (fun bf => b_set_refcnt (u32 (b_refcnt bf - 1)) bf);;
  bf <- buf_at b;;
  (when b_refcnt bf =? 0 do
     (upd_buf (b_next bf) (b_set_prev (b_prev bf));;
      upd_buf (b_prev bf) (b_set_next (b_next bf));;
      h <- buf_at NBUF;;
      upd_buf b (b_set_next (b_next h));;
      upd_buf b (b_set_prev NBUF);;
      h <- buf_at NBUF;;
      upd_buf (b_next h) (b_set_prev b);;
      upd_buf NBUF (b_set_next b)));;
  release LK_bcache.

Definition bpin (b : nat) : K unit :=
  acquire LK_bcache;;
  upd_buf b (fun bf => b_set_refcnt (u32 (b_refcnt bf + 1)) bf);;
  release LK_bcache.

Definition bunpin (b : nat) : K unit :=
  acquire LK_bcache;;
  upd_buf b (fun bf => b_set_refcnt (u32 (b_refcnt bf - 1)) bf);;
  release LK_bcache.

End Bio.
