(* ===== verification/BioSpec.v ===== *)
(** The buffer cache's contract.

    [cache p s R H V] describes the cache when process [p] runs in the kernel
    with nobody else inside it: [R] gives the reference count of every block
    somebody holds or has pinned, [H] the blocks whose buffer [p] has locked,
    and [V] what a reader of each block gets. A block outside [R] reads as it
    is on disk; a block in [R] may be newer in memory than on disk. The
    operations of bio.c are specified by how they move [R], [H] and [V]. *)

From S2P Require Import Prelude Riscv State Spinlock Sched Sleeplock Bio.

Abbreviation bf s b := (k_bufs s !!! b).

(** ** The circular list of buffers *)

(** [nx] and [pv] link consecutive elements of the list both ways. *)
Fixpoint chain (nx pv : nat -> nat) (l : list nat) : Prop :=
  match l with
  | a :: ((b :: _) as l') => nx a = b /\ pv b = a /\ chain nx pv l'
  | _ => True
  end.

Lemma chain_cons nx pv a b l : chain nx pv (a :: b :: l) <-> nx a = b /\ pv b = a /\ chain nx pv (b :: l).
Proof. done. Qed.

Lemma chain_app nx pv l1 a l2 :
  chain nx pv (l1 ++ a :: l2) <-> chain nx pv (l1 ++ [a]) /\ chain nx pv (a :: l2).
Proof.
  induction l1 as [|x l1 IH]; [by cbn; tauto|].
  destruct l1 as [|y l1]; cbn [app] in *.
  - rewrite !chain_cons. cbn [chain]. tauto.
  - rewrite !(chain_cons nx pv x y). rewrite IH. tauto.
Qed.

(** Only the links out of all but the last, and into all but the first,
    matter. *)
Lemma chain_ext nx pv nx' pv' a l :
  (forall x, x ∈ removelast (a :: l) -> nx' x = nx x) -> (forall x, x ∈ l -> pv' x = pv x) ->
  chain nx pv (a :: l) -> chain nx' pv' (a :: l).
Proof.
  revert a. induction l as [|b l IH]; intros a Hn Hp; [done|].
  rewrite !chain_cons. intros (Ea & Eb & Hc). split_and!.
  - rewrite Hn; [done|]. cbn. left.
  - rewrite Hp; [done|left].
  - apply IH; [| |done].
    + intros x Hx. apply Hn. by right.
    + intros x Hx. apply Hp. by right.
Qed.

Definition nx (bs : list buf) (b : nat) : nat := b_next (bs !!! b).
Definition pv (bs : list buf) (b : nat) : nat := b_prev (bs !!! b).

(** The buffers in the order of the list, most recently used first. *)
Definition ring (bs : list buf) (order : list nat) : Prop :=
  order ≡ₚ seq 0 NBUF /\ chain (nx bs) (pv bs) (NBUF :: order ++ [NBUF]).

Lemma ring_in bs order b : ring bs order -> b ∈ order <-> (b < NBUF)%nat.
Proof. intros [Hp _]. rewrite Hp, elem_of_seq. lia. Qed.

Lemma ring_nodup bs order : ring bs order -> NoDup order.
Proof. intros [Hp _]. rewrite Hp. apply NoDup_seq. Qed.

Lemma ring_length bs order : ring bs order -> length order = NBUF.
Proof. intros [Hp _]. by rewrite Hp, length_seq. Qed.

(** The scans of bget(). *)
Lemma bget_find_chain (s : kstate) dev blk l : forall n a,
  (length l <= n)%nat -> Forall (fun b => (b < NBUF)%nat) l -> chain (nx (k_bufs s)) (pv (k_bufs s)) (a :: l ++ [NBUF]) ->
  bget_find n (nx (k_bufs s) a) dev blk s =
    Ok (find (fun b => (b_dev (bf s b) =? dev) && (b_blockno (bf s b) =? blk)) l) s.
Proof.
  induction l as [|b l IH]; intros n a Hn Hl Hc.
  - destruct Hc as (-> & _). by destruct n.
  - cbn [app] in Hc. rewrite chain_cons in Hc. destruct Hc as (-> & _ & Hc).
    apply Forall_cons in Hl as [Hb Hl]. cbn [length] in Hn. destruct n as [|n]; [lia|].
    cbn [bget_find find]. rewrite (proj2 (Nat.eqb_neq b NBUF)) by lia. unfold buf_at. mred.
    destruct (_ && _); [done|]. apply IH; [lia|done|done].
Qed.

Lemma bget_lru_chain (s : kstate) l : forall n c,
  (length l <= n)%nat -> Forall (fun b => (b < NBUF)%nat) l -> chain (nx (k_bufs s)) (pv (k_bufs s)) (NBUF :: l ++ [c]) ->
  bget_lru n (pv (k_bufs s) c) s = Ok (find (fun b => b_refcnt (bf s b) =? 0) (rev l)) s.
Proof.
  induction l as [|b l IH] using rev_ind; intros n c Hn Hl Hc.
  - destruct Hc as (_ & -> & _). by destruct n.
  - rewrite <- app_assoc in Hc. cbn [app] in Hc. rewrite app_comm_cons, chain_app in Hc.
    destruct Hc as [Hc (Hbc & Hcb & _)]. apply Forall_app in Hl as [Hl Hb].
    apply Forall_cons in Hb as [Hb _]. rewrite length_app in Hn. cbn [length] in Hn.
    rewrite rev_unit. destruct n as [|n]; [lia|]. cbn [bget_lru find]. rewrite Hcb.
    rewrite (proj2 (Nat.eqb_neq b NBUF)) by lia. unfold buf_at. mred.
    destruct (_ =? 0); [done|]. apply (IH n b); [lia|done|done].
Qed.

(** ** Moving a released buffer to the front *)

(** A buffer without its links. *)
Definition core (b : buf) : buf := b_set_prev 0 (b_set_next 0 b).

Lemma core_fields x y : core x = core y ->
  b_dev x = b_dev y /\ b_blockno x = b_blockno y /\ b_refcnt x = b_refcnt y /\
  b_valid x = b_valid y /\ b_data x = b_data y /\ b_lock x = b_lock y.
Proof.
  intros E. split_and!; [exact (f_equal b_dev E)|exact (f_equal b_blockno E)|exact (f_equal b_refcnt E)
    |exact (f_equal b_valid E)|exact (f_equal b_data E)|exact (f_equal b_lock E)].
Qed.

Definition unlink (b : nat) (bs : list buf) : list buf :=
  let x := bs !!! b in
  let bs := alter (b_set_prev (b_prev x)) (b_next x) bs in
  alter (b_set_next (b_next x)) (b_prev x) bs.

Definition push_front (b : nat) (bs : list buf) : list buf :=
  let bs := alter (b_set_next (nx bs NBUF)) b bs in
  let bs := alter (b_set_prev NBUF) b bs in
  let bs := alter (b_set_prev b) (nx bs NBUF) bs in
  alter (b_set_next b) NBUF bs.

Lemma length_unlink b bs : length (unlink b bs) = length bs.
Proof. unfold unlink. by rewrite !length_alter. Qed.

Lemma length_push_front b bs : length (push_front b bs) = length bs.
Proof. unfold push_front. by rewrite !length_alter. Qed.

Lemma core_alter (f : buf -> buf) (i : nat) (bs : list buf) (j : nat) :
  (forall x, core (f x) = core x) -> core (alter f i bs !!! j) = core (bs !!! j).
Proof.
  intros Hf. destruct (decide (i = j)) as [<-|]; [|by rewrite lookup_total_alter_ne].
  destruct (decide (i < length bs)%nat) as [Hi|Hi]; [by rewrite lookup_total_alter|].
  rewrite alter_none; [done|]. apply lookup_ge_None_2. lia.
Qed.

Lemma core_unlink b bs j : core (unlink b bs !!! j) = core (bs !!! j).
Proof. unfold unlink. by rewrite !core_alter. Qed.

Lemma core_push_front b bs j : core (push_front b bs !!! j) = core (bs !!! j).
Proof. unfold push_front. by rewrite !core_alter. Qed.

Lemma nx_alter_next (v i : nat) (bs : list buf) (j : nat) :
  (i < length bs)%nat -> nx (alter (b_set_next v) i bs) j = if decide (j = i) then v else nx bs j.
Proof.
  intros Hi. unfold nx. destruct (decide (j = i)) as [->|]; [by rewrite lookup_total_alter|].
  by rewrite lookup_total_alter_ne.
Qed.

Lemma pv_alter_prev (v i : nat) (bs : list buf) (j : nat) :
  (i < length bs)%nat -> pv (alter (b_set_prev v) i bs) j = if decide (j = i) then v else pv bs j.
Proof.
  intros Hi. unfold pv. destruct (decide (j = i)) as [->|]; [by rewrite lookup_total_alter|].
  by rewrite lookup_total_alter_ne.
Qed.

Lemma nx_alter_other (f : buf -> buf) (i : nat) (bs : list buf) (j : nat) :
  (forall x, b_next (f x) = b_next x) -> nx (alter f i bs) j = nx bs j.
Proof.
  intros Hf. unfold nx. destruct (decide (i = j)) as [<-|]; [|by rewrite lookup_total_alter_ne].
  destruct (decide (i < length bs)%nat) as [Hi|Hi]; [by rewrite lookup_total_alter|].
  rewrite alter_none; [done|]. apply lookup_ge_None_2. lia.
Qed.

Lemma pv_alter_other (f : buf -> buf) (i : nat) (bs : list buf) (j : nat) :
  (forall x, b_prev (f x) = b_prev x) -> pv (alter f i bs) j = pv bs j.
Proof.
  intros Hf. unfold pv. destruct (decide (i = j)) as [<-|]; [|by rewrite lookup_total_alter_ne].
  destruct (decide (i < length bs)%nat) as [Hi|Hi]; [by rewrite lookup_total_alter|].
  rewrite alter_none; [done|]. apply lookup_ge_None_2. lia.
Qed.

Lemma ring_alter bs order (f : buf -> buf) (i : nat) :
  (forall x, b_next (f x) = b_next x) -> (forall x, b_prev (f x) = b_prev x) ->
  ring bs order -> ring (alter f i bs) order.
Proof.
  intros Hn Hp [Hperm Hc]. split; [done|]. revert Hc. apply chain_ext; intros.
  - by rewrite nx_alter_other.
  - by rewrite pv_alter_other.
Qed.

(** The list without [b]. *)
Lemma unlink_chain bs l1 b l2 :
  length bs = S NBUF -> ring bs (l1 ++ b :: l2) ->
  chain (nx (unlink b bs)) (pv (unlink b bs)) (NBUF :: (l1 ++ l2) ++ [NBUF]).
Proof.
  intros Hlen Hr.
  assert (Hlt : forall x, x ∈ l1 ++ b :: l2 -> (x < NBUF)%nat) by (intros x; by apply (ring_in bs)).
  assert (Hnd : NoDup ((NBUF :: l1) ++ b :: l2)).
  { cbn. apply NoDup_cons. split; [intros H%Hlt; lia|by apply (ring_nodup bs)]. }
  destruct Hr as [_ Hc]. rewrite <- app_assoc in Hc. cbn [app] in Hc.
  destruct (exists_last (l := NBUF :: l1)) as (l1' & x & E1); [done|].
  destruct (l2 ++ [NBUF]) as [|y l2'] eqn:E2; [by destruct l2|].
  rewrite app_comm_cons, E1, <- app_assoc in Hc. cbn [app] in Hc.
  rewrite chain_app, chain_cons, chain_cons in Hc. destruct Hc as (Hc1 & Hxb & Hbx & Hby & Hyb & Hc2).
  rewrite <- app_assoc, E2, app_comm_cons, E1, <- app_assoc. cbn [app].
  assert (Hx : x ∈ NBUF :: l1) by (rewrite E1; apply elem_of_app; right; left).
  assert (Hy : y ∈ l2 ++ [NBUF]) by (rewrite E2; left).
  assert (Hx' : (x < S NBUF)%nat).
  { apply elem_of_cons in Hx as [->|Hx]; [lia|]. pose proof (Hlt x). set_solver by lia. }
  assert (Hy' : (y < S NBUF)%nat).
  { apply elem_of_app in Hy as [Hy|Hy]; [pose proof (Hlt y)|]; set_solver by lia. }
  assert (Hnx : forall j, nx (unlink b bs) j = if decide (j = x) then y else nx bs j).
  { intros j. unfold unlink. change (b_next (bs !!! b)) with (nx bs b). change (b_prev (bs !!! b)) with (pv bs b).
    rewrite Hby, Hbx. rewrite nx_alter_next by (rewrite length_alter; lia).
    destruct (decide (j = x)); [done|]. by apply nx_alter_other. }
  assert (Hpv : forall j, pv (unlink b bs) j = if decide (j = y) then x else pv bs j).
  { intros j. unfold unlink. change (b_next (bs !!! b)) with (nx bs b). change (b_prev (bs !!! b)) with (pv bs b).
    rewrite Hby, Hbx. rewrite pv_alter_other by done. by apply pv_alter_prev; lia. }
  apply NoDup_app in Hnd as (Hnd1 & Hd & Hnd2). apply NoDup_cons in Hnd2 as [Hb2 Hnd2].
  assert (HN2 : NBUF ∉ l2) by (intros H; specialize (Hlt NBUF); set_solver by lia).
  assert (Hnd3 : NoDup (y :: l2')).
  { rewrite <- E2. apply NoDup_app. split_and!; [done|set_solver|apply NoDup_singleton]. }
  apply chain_app. split.
  - rewrite <- E1. rewrite <- E1 in Hc1. revert Hc1. apply chain_ext; intros z Hz.
    + rewrite Hnx, decide_False; [done|]. intros ->. rewrite E1, removelast_last in Hz.
      rewrite E1 in Hnd1. apply NoDup_app in Hnd1 as (_ & Hd1 & _). apply (Hd1 x Hz). left.
    + rewrite Hpv, decide_False; [done|]. intros ->. apply NoDup_cons in Hnd1 as [HN1 _].
      apply elem_of_app in Hy as [Hy|Hy%list_elem_of_singleton]; [|apply HN1; by rewrite <- Hy].
      by apply (Hd y); right.
  - apply chain_cons. split_and!; [by rewrite Hnx, decide_True|by rewrite Hpv, decide_True|].
    revert Hc2. apply chain_ext; intros z Hz.
    + rewrite Hnx, decide_False; [done|]. intros ->. rewrite <- E2, removelast_last in Hz. apply (Hd x Hx). by right.
    + rewrite Hpv, decide_False; [done|]. intros ->. by apply NoDup_cons in Hnd3 as [? _].
Qed.

Lemma push_front_chain bs b order :
  length bs = S NBUF -> (forall x, x ∈ b :: order -> (x < NBUF)%nat) -> NoDup (b :: order) ->
  chain (nx bs) (pv bs) (NBUF :: order ++ [NBUF]) ->
  chain (nx (push_front b bs)) (pv (push_front b bs)) (NBUF :: (b :: order) ++ [NBUF]).
Proof.
  intros Hlen Hlt Hnd Hc.
  pose proof (Hlt b ltac:(left)) as Hb. apply NoDup_cons in Hnd as [Hbo Hnd].
  destruct (order ++ [NBUF]) as [|h rest] eqn:E; [by destruct order|].
  rewrite chain_cons in Hc. destruct Hc as (Hn & Hph & Hc).
  assert (Hh : (h < S NBUF)%nat /\ h <> b).
  { assert (h ∈ order ++ [NBUF]) as Hh by (rewrite E; left). apply elem_of_app in Hh as [Hh|Hh].
    - specialize (Hlt h ltac:(by right)). split; [lia|set_solver].
    - apply list_elem_of_singleton in Hh. lia. }
  assert (Hnx : forall j, nx (push_front b bs) j =
     if decide (j = NBUF) then b else if decide (j = b) then h else nx bs j).
  { intros j. unfold push_front. rewrite nx_alter_next by (rewrite !length_alter; lia).
    destruct (decide (j = NBUF)); [done|]. rewrite !nx_alter_other by done.
    rewrite nx_alter_next by lia. by rewrite Hn. }
  assert (Hpv : forall j, pv (push_front b bs) j =
     if decide (j = h) then b else if decide (j = b) then NBUF else pv bs j).
  { intros j. unfold push_front. rewrite pv_alter_other by done.
    rewrite nx_alter_other, nx_alter_next, decide_False, Hn by (done || lia).
    rewrite pv_alter_prev by (rewrite !length_alter; lia). destruct (decide (j = h)); [done|].
    rewrite pv_alter_prev by (rewrite !length_alter; lia). destruct (decide (j = b)); [done|].
    by rewrite pv_alter_other. }
  cbn [app]. rewrite E, chain_cons, chain_cons. split_and!.
  - by rewrite Hnx, decide_True.
  - rewrite Hpv, decide_False by naive_solver. by rewrite decide_True.
  - rewrite Hnx, decide_False by lia. by rewrite decide_True.
  - by rewrite Hpv, decide_True.
  - assert (Hnd3 : NoDup (h :: rest)).
    { rewrite <- E. apply NoDup_app. split_and!; [done| |apply NoDup_singleton].
      intros x Hx ->%list_elem_of_singleton. specialize (Hlt NBUF ltac:(by right)). lia. }
    revert Hc. apply chain_ext; intros z Hz.
    + rewrite <- E, removelast_last in Hz. rewrite Hnx, !decide_False; [done| |].
      * by intros ->.
      * intros ->. specialize (Hlt NBUF ltac:(by right)). lia.
    + rewrite Hpv, !decide_False; [done| |].
      * intros ->. assert (b ∈ order ++ [NBUF]) as H by (rewrite E; by right). set_solver by lia.
      * intros ->. by apply NoDup_cons in Hnd3 as [? _].
Qed.

Lemma push_front_ring bs b order :
  length bs = S NBUF -> b :: order ≡ₚ seq 0 NBUF ->
  chain (nx bs) (pv bs) (NBUF :: order ++ [NBUF]) -> ring (push_front b bs) (b :: order).
Proof.
  intros Hlen Hp Hc. split; [done|]. apply push_front_chain; [done| | |done].
  - intros x. rewrite Hp, elem_of_seq. lia.
  - rewrite Hp. apply NoDup_seq.
Qed.

(** The list after a buffer is released for the last time. *)
Lemma move_front_ring bs order b :
  length bs = S NBUF -> ring bs order -> (b < NBUF)%nat ->
  exists order', ring (push_front b (unlink b bs)) order' /\ hd NBUF order' = b.
Proof.
  intros Hlen Hr Hb. assert (b ∈ order) as Hin by by apply (ring_in bs).
  apply list_elem_of_split in Hin as (l1 & l2 & ->). exists (b :: l1 ++ l2). split; [|done].
  apply push_front_ring; [by rewrite length_unlink| |by apply unlink_chain].
  rewrite Permutation_middle. apply Hr.
Qed.

(** ** The state of the cache *)

(** What an operation of the cache leaves alone. *)
Record fs_step (p : nat) (s s' : kstate) : Prop := {
  fst_eq : s' = k_set_procs (k_procs s') (k_set_vdisk (k_vdisk s')
             (k_set_writes (k_writes s') (k_set_bufs (k_bufs s') s)));
  fst_procs : procs_rel p (k_procs s) (k_procs s')
}.

#[export] Instance procs_rel_refl p : Reflexive (procs_rel p).
Proof. by split. Qed.
#[export] Instance procs_rel_trans p : Transitive (procs_rel p).
Proof. intros ps1 ps2 ps3 [? ?] [? ?]. split; congruence. Qed.
#[export] Instance fs_step_refl p : Reflexive (fs_step p).
Proof. by split. Qed.
#[export] Instance fs_step_trans p : Transitive (fs_step p).
Proof.
  intros s1 s2 s3 [E1 P1] [E2 P2]. split; [|by etrans]. rewrite E2 at 1. rewrite E1. done.
Qed.

Lemma fs_step_running p s s' : fs_step p s s' -> running p s -> running p s'.
Proof.
  intros [E Hp] Hr. rewrite E. apply running_set_procs; [|exact Hp]. by destruct Hr.
Qed.

Lemma fs_step_pid p s s' : fs_step p s s' -> p_pid (k_procs s' !!! p) = p_pid (k_procs s !!! p).
Proof. intros [_ [_ E]]. by rewrite !list_lookup_total_alt, E. Qed.

Lemma fs_step_log p s s' : fs_step p s s' -> k_log s' = k_log s.
Proof. intros [E _]. by rewrite E. Qed.

Lemma fs_step_blocks p s s' : fs_step p s s' -> k_blocks s' = k_blocks s.
Proof. intros [E _]. by rewrite E. Qed.

(** [b] is the buffer of block [blk]. *)
Definition buf_of (s : kstate) (b : nat) (blk : Z) : Prop :=
  (b < NBUF)%nat /\ b_dev (bf s b) = ROOTDEV /\ b_blockno (bf s b) = blk.

Definition refs (R : gmap Z Z) (blk : Z) : Z := default 0 (R !! blk).

Definition lock_ok (pid : Z) (held : bool) (l : sleeplock) : Prop :=
  if held then l = mkSl 1 pid else sl_locked l = 0.

Section BioSpec.
Context `{D : BlockDev}.

Record cache (p : nat) (s : kstate) (R : gmap Z Z) (H : gset Z) (V : gmap Z (list Z)) : Prop := {
  ca_run : running p s;
  ca_dev : dev_ok (k_vdisk s);
  ca_len : length (k_bufs s) = S NBUF;
  ca_ring : exists order, ring (k_bufs s) order;
  ca_unused b : (b < NBUF)%nat -> b_dev (bf s b) <> ROOTDEV ->
    b_refcnt (bf s b) = 0 /\ sl_locked (b_lock (bf s b)) = 0;
  ca_uniq b b' blk : buf_of s b blk -> buf_of s b' blk -> b = b';
  ca_ref b blk : buf_of s b blk -> b_refcnt (bf s b) = refs R blk;
  ca_data b blk : buf_of s b blk -> c_true (b_valid (bf s b)) = true /\ V !! blk = Some (b_data (bf s b));
  ca_lock b blk : buf_of s b blk ->
    lock_ok (p_pid (k_procs s !!! p)) (bool_decide (blk ∈ H)) (b_lock (bf s b));
  ca_pinned blk n : R !! blk = Some n -> 0 < n /\ exists b, buf_of s b blk;
  ca_held blk : blk ∈ H -> is_Some (R !! blk);
  ca_clean blk : R !! blk = None -> V !! blk = disk s !! blk;
  ca_idle b : (b < NBUF)%nat -> b_disk (bf s b) = 0;
  ca_range blk d : V !! blk = Some d -> 0 <= blk < 2 ^ 31
}.

(** Changing one buffer. *)
Lemma cache_upd p s s' R H V R' H' V' b blk :
  cache p s R H V -> (b < NBUF)%nat ->
  (forall b', buf_of s b' blk -> b' = b) -> (buf_of s b blk \/ b_refcnt (bf s b) = 0) ->
  fs_step p s s' -> dev_ok (k_vdisk s') -> length (k_bufs s') = S NBUF ->
  (exists order, ring (k_bufs s') order) ->
  (forall b', b' <> b -> core (bf s' b') = core (bf s b')) ->
  (forall blk', blk' <> blk -> R' !! blk' = R !! blk' /\ (blk' ∈ H' <-> blk' ∈ H) /\
     V' !! blk' = V !! blk' /\ disk s' !! blk' = disk s !! blk') ->
  buf_of s' b blk -> b_refcnt (bf s' b) = refs R' blk -> c_true (b_valid (bf s' b)) = true ->
  V' !! blk = Some (b_data (bf s' b)) ->
  lock_ok (p_pid (k_procs s !!! p)) (bool_decide (blk ∈ H')) (b_lock (bf s' b)) ->
  (forall n, R' !! blk = Some n -> 0 < n) -> (blk ∈ H' -> is_Some (R' !! blk)) ->
  (R' !! blk = None -> V' !! blk = disk s' !! blk) ->
  b_disk (bf s' b) = b_disk (bf s b) -> is_Some (V !! blk) ->
  cache p s' R' H' V'.
Proof.
  intros C Hb Huq Hor Hst Hdev Hlen Hring Hoth Hblk Hbuf Href Hval Hdat Hlk Hpos Hheld Hcl Hdk Hrg.
  assert (Hco : forall b', b' <> b -> b_dev (bf s' b') = b_dev (bf s b') /\ b_blockno (bf s' b') = b_blockno (bf s b')
    /\ b_refcnt (bf s' b') = b_refcnt (bf s b') /\ b_valid (bf s' b') = b_valid (bf s b')
    /\ b_data (bf s' b') = b_data (bf s b') /\ b_lock (bf s' b') = b_lock (bf s b')).
  { intros b' Hne. by apply core_fields, Hoth. }
  assert (Hcase : forall b' blk', buf_of s' b' blk' -> (b' = b /\ blk' = blk) \/ (b' <> b /\ blk' <> blk /\ buf_of s b' blk')).
  { intros b' blk' Hb'. destruct (decide (b' = b)) as [->|Hne].
    - left. split; [done|]. destruct Hb' as (_ & _ & <-), Hbuf as (_ & _ & <-). done.
    - right. destruct (Hco b' Hne) as (E1 & E2 & _). assert (buf_of s b' blk') as Hb2.
      { destruct Hb' as (? & ? & ?). split_and!; congruence. }
      split_and!; [done| |done]. intros ->. by apply Hne, Huq. }
  split.
  - by eapply fs_step_running, C.
  - done.
  - done.
  - done.
  - intros b' Hb' Hd. destruct (decide (b' = b)) as [->|Hne]; [by destruct Hbuf as (_ & ? & _)|].
    destruct (Hco b' Hne) as (E1 & _ & -> & _ & _ & ->). apply C; congruence.
  - intros b1 b2 blk' H1 H2. destruct (Hcase _ _ H1) as [[-> ->]|(? & ? & H1')], (Hcase _ _ H2) as [[-> ?]|(? & ? & H2')]; try done.
    by apply (ca_uniq _ _ _ _ _ C b1 b2 blk').
  - intros b' blk' Hb'. destruct (Hcase _ _ Hb') as [[-> ->]|(Hne & Hne' & Hb2)]; [done|].
    destruct (Hco b' Hne) as (_ & _ & -> & _). unfold refs. rewrite (proj1 (Hblk blk' Hne')).
    by apply (ca_ref _ _ _ _ _ C).
  - intros b' blk' Hb'. destruct (Hcase _ _ Hb') as [[-> ->]|(Hne & Hne' & Hb2)]; [done|].
    destruct (Hco b' Hne) as (_ & _ & _ & -> & -> & _). destruct (Hblk blk' Hne') as (_ & _ & -> & _).
    by apply (ca_data _ _ _ _ _ C).
  - intros b' blk' Hb'. rewrite (fs_step_pid _ _ _ Hst).
    destruct (Hcase _ _ Hb') as [[-> ->]|(Hne & Hne' & Hb2)]; [done|].
    destruct (Hco b' Hne) as (_ & _ & _ & _ & _ & ->). destruct (Hblk blk' Hne') as (_ & Hi & _).
    rewrite (bool_decide_ext _ _ Hi). by apply (ca_lock _ _ _ _ _ C).
  - intros blk' n HR. destruct (decide (blk' = blk)) as [->|Hne].
    { split; [by apply Hpos|by exists b]. }
    rewrite (proj1 (Hblk blk' Hne)) in HR. destruct (ca_pinned _ _ _ _ _ C blk' n HR) as [Hn (b' & Hb')].
    split; [done|]. exists b'. assert (b' <> b) as Hne2.
    { intros ->. destruct Hor as [Ho|Ho].
      - apply Hne. destruct Ho as (_ & _ & <-), Hb' as (_ & _ & <-). done.
      - rewrite (ca_ref _ _ _ _ _ C b blk' Hb') in Ho. unfold refs in Ho. rewrite HR in Ho. cbn in Ho. lia. }
    destruct (Hco b' Hne2) as (E1 & E2 & _). destruct Hb' as (? & ? & ?). split_and!; congruence.
  - intros blk' Hh. destruct (decide (blk' = blk)) as [->|Hne]; [by apply Hheld|].
    destruct (Hblk blk' Hne) as (-> & Hi & _). apply (ca_held _ _ _ _ _ C). by apply Hi.
  - intros blk' HR. destruct (decide (blk' = blk)) as [->|Hne]; [by apply Hcl|].
    destruct (Hblk blk' Hne) as (E & _ & -> & ->). apply C. by rewrite <- E.
  - intros b' Hb'. destruct (decide (b' = b)) as [->|Hne]; [rewrite Hdk; by apply C|].
    replace (b_disk (bf s' b')) with (b_disk (bf s b')) by exact (f_equal b_disk (eq_sym (Hoth b' Hne))). by apply C.
  - intros blk' x. destruct (decide (blk' = blk)) as [->|Hne].
    + intros _. destruct Hrg as [y Hy]. by apply (ca_range _ _ _ _ _ C blk y).
    + destruct (Hblk blk' Hne) as (_ & _ & -> & _). apply (ca_range _ _ _ _ _ C).
Qed.

(** With fewer than NBUF blocks in use some buffer can be recycled. *)
Lemma cache_free p s R H V :
  cache p s R H V -> (size R < NBUF)%nat -> exists b, (b < NBUF)%nat /\ b_refcnt (bf s b) = 0.
Proof.
  intros C Hsz. destruct (decide (Exists (fun b => b_refcnt (bf s b) = 0) (seq 0 NBUF))) as [He|He].
  { apply Exists_exists in He as (b & Hb%elem_of_seq & ?). exists b. split; [lia|done]. }
  exfalso. assert (Hbuf : forall b, (b < NBUF)%nat -> buf_of s b (b_blockno (bf s b)) /\ is_Some (R !! b_blockno (bf s b))).
  { intros b Hb. assert (b_refcnt (bf s b) <> 0) as Hne.
    { intros E. apply He, Exists_exists. exists b. rewrite elem_of_seq. split; [lia|done]. }
    assert (buf_of s b (b_blockno (bf s b))) as Hbo.
    { split_and!; [done| |done]. destruct (decide (b_dev (bf s b) = ROOTDEV)); [done|].
      by destruct (ca_unused _ _ _ _ _ C b Hb). }
    split; [done|]. rewrite (ca_ref _ _ _ _ _ C _ _ Hbo) in Hne. unfold refs in Hne.
    by destruct (R !! _). }
  set (l := (fun b => b_blockno (bf s b)) <$> seq 0 NBUF).
  assert (Hnd : NoDup l).
  { apply NoDup_fmap_2_strong; [|apply NoDup_seq]. intros b1 b2 Hb1%elem_of_seq Hb2%elem_of_seq E.
    eapply (ca_uniq _ _ _ _ _ C); [apply Hbuf; lia|]. rewrite E. apply Hbuf. lia. }
  assert (Hsub : (list_to_set l : gset Z) ⊆ dom R).
  { intros blk (b & -> & Hb%elem_of_seq)%elem_of_list_to_set%list_elem_of_fmap.
    apply elem_of_dom, Hbuf. lia. }
  apply subseteq_size in Hsub. rewrite size_list_to_set, size_dom in Hsub by done.
  unfold l in Hsub. rewrite length_fmap, length_seq in Hsub. lia.
Qed.

(** Where bget() finds the buffer: the block's own, or one nobody uses. *)
Lemma cache_find p s s1 R H V blk :
  cache p s R H V -> k_bufs s1 = k_bufs s ->
  (exists b, bget_find NBUF (b_next (bf s NBUF)) ROOTDEV blk s1 = Ok (Some b) s1 /\ buf_of s b blk) \/
  (bget_find NBUF (b_next (bf s NBUF)) ROOTDEV blk s1 = Ok None s1 /\ forall b, ~ buf_of s b blk).
Proof.
  intros C Es. destruct (ca_ring _ _ _ _ _ C) as [order Hr]. pose proof (fun b => ring_in _ _ b Hr) as Hin.
  assert (Hall : Forall (fun b => (b < NBUF)%nat) order) by (apply Forall_forall; intros b; apply Hin).
  change (b_next (bf s NBUF)) with (nx (k_bufs s) NBUF). rewrite <- Es in *.
  rewrite (bget_find_chain s1 ROOTDEV blk order NBUF NBUF); [|by rewrite (ring_length _ _ Hr)|done|apply Hr].
  destruct (find _ order) as [b|] eqn:E.
  - left. exists b. split; [done|]. apply find_some in E as [Hb [E1 E2]%andb_prop].
    rewrite Z.eqb_eq in E1, E2. unfold buf_of. rewrite <- Es. split_and!; [|done|done]. by apply Hin, list_elem_of_In.
  - right. split; [done|]. unfold buf_of. rewrite <- Es. intros b (Hb & E1 & E2). apply Hin, list_elem_of_In in Hb.
    pose proof (find_none _ _ E b Hb) as F. cbv beta in F. rewrite E1, E2, !Z.eqb_refl in F. done.
Qed.

Lemma cache_lru p s s1 R H V :
  cache p s R H V -> k_bufs s1 = k_bufs s -> (size R < NBUF)%nat ->
  exists b, bget_lru NBUF (b_prev (bf s NBUF)) s1 = Ok (Some b) s1 /\ (b < NBUF)%nat /\ b_refcnt (bf s b) = 0.
Proof.
  intros C Es Hsz. destruct (cache_free _ _ _ _ _ C Hsz) as (b0 & Hb0 & E0). destruct (ca_ring _ _ _ _ _ C) as [order Hr]. pose proof (fun b => ring_in _ _ b Hr) as Hin.
  assert (Hall : Forall (fun b => (b < NBUF)%nat) order) by (apply Forall_forall; intros b; apply Hin).
  change (b_prev (bf s NBUF)) with (pv (k_bufs s) NBUF). rewrite <- Es in *.
  rewrite (bget_lru_chain s1 order NBUF NBUF); [|by rewrite (ring_length _ _ Hr)|done|apply Hr].
  destruct (find _ (rev order)) as [b|] eqn:E.
  - exists b. apply find_some in E as [Hb E%Z.eqb_eq]. split_and!; [done| |done].
    apply Hin, list_elem_of_In. by apply in_rev.
  - exfalso. apply Hin, list_elem_of_In, in_rev in Hb0. pose proof (find_none _ _ E b0 Hb0) as F. cbv beta in F.
    by rewrite E0 in F.
Qed.

(** A critical section of bcache.lock that changes the buffers. *)
Lemma running_bufs p s bs : running p s -> running p (k_set_bufs bs s).
Proof. by intros []. Qed.

(** A buffer no one references holds no pinned block and is unlocked. *)
Lemma unreferenced p s R H V b blk :
  cache p s R H V -> buf_of s b blk -> b_refcnt (bf s b) = 0 -> R !! blk = None.
Proof.
  intros C Hbo Hz. rewrite (ca_ref _ _ _ _ _ C _ _ Hbo) in Hz. unfold refs in Hz.
  destruct (R !! blk) as [n|] eqn:Hn; [|done]. cbn in Hz. destruct (ca_pinned _ _ _ _ _ C _ _ Hn). lia.
Qed.

Lemma unreferenced_unlocked p s R H V b :
  cache p s R H V -> (b < NBUF)%nat -> b_refcnt (bf s b) = 0 -> sl_locked (b_lock (bf s b)) = 0.
Proof.
  intros C Hb Hz. destruct (decide (b_dev (bf s b) = ROOTDEV)) as [Hd|Hd]; [|by apply (ca_unused _ _ _ _ _ C b)].
  assert (buf_of s b (b_blockno (bf s b))) as Hbo by done.
  pose proof (ca_lock _ _ _ _ _ C _ _ Hbo) as Hl. rewrite bool_decide_eq_false_2 in Hl; [done|].
  intros Hh%(ca_held _ _ _ _ _ C). rewrite (unreferenced _ _ _ _ _ _ _ C Hbo Hz) in Hh. by destruct Hh.
Qed.

(** bget(): the state it leaves, by how the buffer was found. *)
Lemma bget_eq p s R H V blk :
  cache p s R H V -> blk ∉ H -> refs R blk < 2 ^ 31 ->
  is_Some (R !! blk) \/ (size R < NBUF)%nat ->
  let pid := p_pid (k_procs s !!! p) in
  exists b f, bget ROOTDEV blk s = Ok b (k_set_bufs (alter f b (k_bufs s)) s) /\ (b < NBUF)%nat /\
    ((buf_of s b blk /\ f = (fun x => b_set_lock (mkSl 1 pid) (b_set_refcnt (refs R blk + 1) x))) \/
     ((forall b', ~ buf_of s b' blk) /\ b_refcnt (bf s b) = 0 /\
      f = (fun x => b_set_lock (mkSl 1 pid) (b_set_refcnt 1 (b_set_valid 0 (b_set_blockno blk (b_set_dev ROOTDEV x))))))).
Proof.
  intros C HH Hmax Hcap pid. pose proof (ca_run _ _ _ _ _ C) as Hr. unfold bget.
  mrun (acquire_eq LK_bcache s (running_free _ _ _ Hr)). unfold buf_at. mred.
  change (k_bufs (locked LK_bcache s)) with (k_bufs s).
  destruct (cache_find p s (locked LK_bcache s) R H V blk C eq_refl) as [(b & E & Hb)|[E Hno]]; mrun E.
  - exists b. eexists. split; [|split; [apply Hb|left; split; [exact Hb|reflexivity]]].
    pose proof (ca_lock _ _ _ _ _ C b blk Hb) as Hl. rewrite bool_decide_eq_false_2 in Hl by done. cbn in Hl.
    set (s1 := k_set_bufs (alter (fun x => b_set_refcnt (refs R blk + 1) x) b (k_bufs s)) s).
    assert (upd_buf b (fun x => b_set_refcnt (u32 (b_refcnt x + 1)) x) (locked LK_bcache s) = Ok tt (locked LK_bcache s1)) as Eu.
    { unfold upd_buf, modify, s1. change (k_bufs (locked LK_bcache s)) with (k_bufs s).
      erewrite alter_ext; [reflexivity|]. intros x Hx%list_lookup_total_correct.
      pose proof (ca_ref _ _ _ _ _ C b blk Hb) as Er. rewrite Hx in Er. rewrite Er.
      destruct (R !! blk) as [n|] eqn:ER; unfold refs in *; rewrite ER in *; cbn in *.
      - destruct (ca_pinned _ _ _ _ _ C blk n ER). by rewrite u32_small by lia.
      - by rewrite u32_small by lia. }
    mrun Eu. mrun (release_locked LK_bcache s1 (rn_settled _ _ Hr) (running_free _ _ LK_bcache Hr)).
    assert (Hin : sl_in (SL_buf b) s1). { cbn. rewrite length_alter, (ca_len _ _ _ _ _ C). destruct Hb. lia. }
    assert (Hu : sl_locked (sl_get (SL_buf b) s1) = 0).
    { cbn. rewrite lookup_total_alter; [done|]. rewrite (ca_len _ _ _ _ _ C). destruct Hb. lia. }
    mrun (acquiresleep_eq p (SL_buf b) s1 (running_bufs _ _ _ Hr) Hin Hu). unfold ret, s1. cbn [sl_put].
    cbn [k_bufs k_set_bufs]. by rewrite alter_alter.
  - destruct Hcap as [[n Hn]|Hcap]. { destruct (ca_pinned _ _ _ _ _ C blk n Hn) as (_ & b & Hb). by destruct (Hno b). }
    destruct (cache_lru p s (locked LK_bcache s) R H V C eq_refl Hcap) as (b & El & Hb & Hz). mrun El.
    exists b. eexists. split; [|split; [done|right; split; [done|split; [done|reflexivity]]]].
    unfold upd_buf. mred.
    change (k_bufs (locked LK_bcache s)) with (k_bufs s).
    cbn [k_bufs k_set_bufs]. rewrite !alter_alter.
    set (g := fun x => b_set_refcnt 1 (b_set_valid 0 (b_set_blockno blk (b_set_dev ROOTDEV x)))).
    set (s1 := k_set_bufs (alter g b (k_bufs s)) s).
    match goal with |- bind (release _) _ ?s2 = _ => change s2 with (locked LK_bcache s1) end.
    mrun (release_locked LK_bcache s1 (rn_settled _ _ Hr) (running_free _ _ LK_bcache Hr)).
    assert (Hin : sl_in (SL_buf b) s1). { cbn. rewrite length_alter, (ca_len _ _ _ _ _ C). lia. }
    assert (Hu : sl_locked (sl_get (SL_buf b) s1) = 0).
    { cbn. rewrite lookup_total_alter by (rewrite (ca_len _ _ _ _ _ C); lia). by apply (unreferenced_unlocked p s R H V). }
    mrun (acquiresleep_eq p (SL_buf b) s1 (running_bufs _ _ _ Hr) Hin Hu). unfold ret, s1. cbn [sl_put].
    cbn [k_bufs k_set_bufs]. by rewrite alter_alter.
Qed.

(** The buffers after one of them is changed, links apart. *)
Lemma alter_bufs p s R H V b (f : buf -> buf) (bs : list buf) :
  cache p s R H V -> (b < NBUF)%nat ->
  (forall x, b_next (f x) = b_next x) -> (forall x, b_prev (f x) = b_prev x) ->
  bs = alter f b (k_bufs s) ->
  length bs = S NBUF /\ (exists order, ring bs order) /\ bs !!! b = f (bf s b) /\
  forall b', b' <> b -> core (bs !!! b') = core (bf s b').
Proof.
  intros C Hb Hn Hp ->. destruct (ca_ring _ _ _ _ _ C) as [order Hr]. split_and!.
  - by rewrite length_alter, (ca_len _ _ _ _ _ C).
  - exists order. by apply ring_alter.
  - apply lookup_total_alter. rewrite (ca_len _ _ _ _ _ C). lia.
  - intros b' Hne. by rewrite lookup_total_alter_ne by done.
Qed.

Lemma refs_nonneg p s R H V blk : cache p s R H V -> 0 <= refs R blk.
Proof.
  intros C. unfold refs. destruct (R !! blk) as [n|] eqn:E; cbn; [|lia].
  destruct (ca_pinned _ _ _ _ _ C _ _ E). lia.
Qed.

Lemma buf_of_alter s s' b b' blk (f : buf -> buf) :
  k_bufs s' = alter f b (k_bufs s) -> b' <> b -> buf_of s b' blk -> buf_of s' b' blk.
Proof. intros E Hne (? & ? & ?). unfold buf_of. rewrite E, lookup_total_alter_ne by done. done. Qed.

(** What a reference to one more block leaves of the others. *)
Lemma reference_others (R : gmap Z Z) (H : gset Z) (V W : gmap Z (list Z)) blk n blk' : blk' <> blk ->
  <[blk := n]> R !! blk' = R !! blk' /\ (blk' ∈ {[blk]} ∪ H <-> blk' ∈ H) /\ V !! blk' = V !! blk' /\ W !! blk' = W !! blk'.
Proof. intros Hne. rewrite lookup_insert_ne by done. set_solver. Qed.

(** A block found in the cache: its buffer is locked and referenced once more. *)
Lemma reference_hit p s R H V blk b :
  cache p s R H V -> buf_of s b blk ->
  let s' := k_set_bufs (alter (fun x => b_set_lock (mkSl 1 (p_pid (k_procs s !!! p)))
                                          (b_set_refcnt (refs R blk + 1) x)) b (k_bufs s)) s in
  buf_of s' b blk /\ cache p s' (<[blk := refs R blk + 1]> R) ({[blk]} ∪ H) V /\
  forall b' blk', buf_of s b' blk' -> buf_of s' b' blk'.
Proof.
  intros C Hbo s'. pose proof (refs_nonneg _ _ _ _ _ blk C) as Hnn. pose proof (proj1 Hbo) as Hb.
  destruct (ca_data _ _ _ _ _ C b blk Hbo) as [Hval HV].
  destruct (alter_bufs _ _ _ _ _ b (fun x => b_set_lock (mkSl 1 (p_pid (k_procs s !!! p))) (b_set_refcnt (refs R blk + 1) x)) _
    C Hb ltac:(done) ltac:(done) eq_refl) as (Hl & Hr & Hx & Ho).
  assert (buf_of s' b blk) as Hbo'.
  { unfold buf_of, s'. cbn [k_bufs k_set_bufs]. rewrite Hx. exact Hbo. }
  split; [exact Hbo'|]. split.
  - apply (cache_upd p s _ R H V _ _ V b blk); unfold s' in *; cbn [k_bufs k_set_bufs k_vdisk]; try rewrite Hx; cbn;
      rewrite ?lookup_insert_eq, ?bool_decide_eq_true_2 by set_solver; try done.
    + intros b' Hb'. by apply (ca_uniq _ _ _ _ _ C b' b blk).
    + by left.
    + apply (ca_dev _ _ _ _ _ C).
    + intros blk' Hne. by apply reference_others.
    + unfold refs at 2. by rewrite lookup_insert_eq.
    + intros n [= <-]. lia.
  - intros b' blk' Hb'. destruct (decide (b' = b)) as [->|Hne]; [|by eapply (buf_of_alter s _ b); [reflexivity|..]].
    destruct Hb' as (? & ? & <-), Hbo as (? & ? & <-). exact Hbo'.
Qed.

(** bread() locks the block's buffer and takes a reference; what anyone reads
    does not change. *)
Lemma bread_spec p s R H V blk d :
  cache p s R H V -> blk ∉ H -> V !! blk = Some d -> refs R blk < 2 ^ 31 ->
  is_Some (R !! blk) \/ (size R < NBUF)%nat ->
  exists b s', bread ROOTDEV blk s = Ok b s' /\ fs_step p s s' /\ k_writes s' = k_writes s /\
    buf_of s' b blk /\ cache p s' (<[blk := refs R blk + 1]> R) ({[blk]} ∪ H) V /\
    forall b' blk', is_Some (R !! blk') -> buf_of s b' blk' -> buf_of s' b' blk'.
Proof.
  intros C HH HV Hmax Hcap. pose proof (refs_nonneg _ _ _ _ _ blk C) as Hnn.
  destruct (bget_eq p s R H V blk C HH Hmax Hcap) as (b & f & E & Hb & Hcase).
  unfold bread. mrun E. unfold buf_at. mred. cbn [k_bufs k_set_bufs].
  rewrite lookup_total_alter by (rewrite (ca_len _ _ _ _ _ C); lia).
  destruct Hcase as [[Hbo ->]|(Hno & Hz & ->)].
  - destruct (ca_data _ _ _ _ _ C b blk Hbo) as [Hval HV']. cbn. rewrite Hval. cbn.
    destruct (reference_hit p s R H V blk b C Hbo) as (Hbo' & C' & K).
    eexists b, _. split_and!; [reflexivity|by split|done|exact Hbo'|exact C'|]. intros b' blk' _. apply K.
  - cbn. assert (HR : R !! blk = None).
    { destruct (R !! blk) as [n|] eqn:ER; [|done]. destruct (ca_pinned _ _ _ _ _ C blk n ER) as (_ & b' & Hb').
      by destruct (Hno b'). }
    assert (Hr0 : refs R blk = 0) by (unfold refs; by rewrite HR).
    set (f := fun x => b_set_lock _ _). set (s1 := k_set_bufs (alter f b (k_bufs s)) s).
    assert (Hx1 : bf s1 b = f (bf s b)) by (apply lookup_total_alter; rewrite (ca_len _ _ _ _ _ C); lia).
    destruct (rw_read p s1 b d) as (v & ps & Hv & Hps & Erw).
    { apply running_bufs, C. } { apply C. } { done. }
    { cbn. by rewrite length_alter, (ca_len _ _ _ _ _ C). }
    { rewrite Hx1. split; [by apply (ca_range _ _ _ _ _ C blk d)|by apply (ca_idle _ _ _ _ _ C)]. }
    { rewrite Hx1. change (disk s !! blk = Some d). by rewrite <- (ca_clean _ _ _ _ _ C blk HR). }
    mrun Erw. unfold upd_buf, modify, ret. cbn [rbind k_bufs k_set_bufs k_set_procs k_set_vdisk].
    unfold s1 at 1 2. cbn [k_bufs k_set_bufs].
    rewrite !alter_alter. set (g := fun x => b_set_valid 1 (b_set_data d (f x))).
    match goal with |- context [alter ?h b (k_bufs s)] => change h with g end.
    eexists b, _. split; [reflexivity|].
    destruct (alter_bufs _ _ _ _ _ b g _ C Hb ltac:(done) ltac:(done) eq_refl) as (Hl & Hr & Hx & Ho).
    split; [by split|]. split; [done|].
    match goal with |- buf_of ?s' b blk /\ _ => assert (buf_of s' b blk) as Hbo' end.
    { unfold buf_of. cbn [k_bufs k_set_bufs k_set_procs k_set_vdisk]. rewrite Hx. done. }
    split; [exact Hbo'|]. split.
    + eapply (cache_upd p s _ R H V _ _ V b blk); cbn [k_bufs k_set_bufs k_vdisk k_set_procs k_set_vdisk]; try rewrite Hx; cbn;
        rewrite ?lookup_insert_eq, ?bool_decide_eq_true_2 by set_solver; try done.
      * intros b' Hb'. by destruct (Hno b').
      * by right.
      * intros blk' Hne. by apply reference_others.
      * unfold refs. by rewrite lookup_insert_eq, HR.
      * intros n [= <-]. lia.
    + intros b' blk' [n Hn] Hb'. eapply (buf_of_alter s _ b); [reflexivity| |done]. intros ->.
      by rewrite (unreferenced _ _ _ _ _ _ _ C Hb' Hz) in Hn.
Qed.

(** Writing into the data of a locked buffer. *)
Lemma upd_data_spec p s R H V b blk (g : buf -> list Z) :
  cache p s R H V -> buf_of s b blk -> blk ∈ H ->
  let s' := k_set_bufs (alter (fun x => b_set_data (g x) x) b (k_bufs s)) s in
  upd_buf b (fun x => b_set_data (g x) x) s = Ok tt s' /\ fs_step p s s' /\
  cache p s' R H (<[blk := g (bf s b)]> V) /\ forall b' blk', buf_of s' b' blk' <-> buf_of s b' blk'.
Proof.
  intros C Hb HH s'. pose proof Hb as (Hlt & Hd & Hbn).
  destruct (alter_bufs _ _ _ _ _ b (fun x => b_set_data (g x) x) _ C Hlt ltac:(done) ltac:(done) eq_refl)
    as (Hl & Hr & Hx & Ho).
  assert (Hiff : forall b' blk', buf_of s' b' blk' <-> buf_of s b' blk').
  { intros b' blk'. unfold buf_of. cbn [s' k_bufs k_set_bufs]. destruct (decide (b' = b)) as [->|Hne].
    - by rewrite Hx.
    - by rewrite lookup_total_alter_ne by done. }
  split; [done|]. split; [by split|]. split; [|done].
  pose proof (ca_lock _ _ _ _ _ C b blk Hb) as Hlk. destruct (ca_data _ _ _ _ _ C b blk Hb) as [Hv HV].
  destruct (ca_held _ _ _ _ _ C blk HH) as [n Hn].
  apply (cache_upd p s s' R H V R H _ b blk); cbn [s' k_bufs k_set_bufs k_vdisk]; try rewrite Hx; cbn; try done.
  - intros b' Hb'. by apply (ca_uniq _ _ _ _ _ C b' b blk).
  - by left.
  - apply (ca_dev _ _ _ _ _ C).
  - intros blk' Hne. by rewrite lookup_insert_ne.
  - by apply Hiff.
  - by apply (ca_ref _ _ _ _ _ C).
  - by rewrite lookup_insert_eq.
  - intros m Hm. by destruct (ca_pinned _ _ _ _ _ C blk m Hm).
  - by rewrite Hn.
Qed.

Lemma holding_held p s R H V b blk :
  cache p s R H V -> buf_of s b blk -> blk ∈ H -> holdingsleep (SL_buf b) s = Ok true s.
Proof.
  intros C Hb HH. rewrite (holdingsleep_eq p) by apply C.
  pose proof (ca_lock _ _ _ _ _ C b blk Hb) as Hlk. rewrite bool_decide_eq_true_2 in Hlk by done.
  cbn in Hlk. cbn [sl_get]. rewrite Hlk. cbn. by rewrite Z.eqb_refl.
Qed.

Lemma disk_write s blk d v ps :
  disk (k_set_procs ps (k_set_vdisk v (k_set_writes ((blk, d) :: k_writes s) s))) = <[blk := d]> (disk s).
Proof. done. Qed.

(** bwrite() puts the buffer's data on the disk. *)
Lemma bwrite_spec p s R H V b blk :
  cache p s R H V -> buf_of s b blk -> blk ∈ H ->
  exists s', bwrite b s = Ok tt s' /\ fs_step p s s' /\ k_bufs s' = k_bufs s /\
    k_writes s' = (blk, b_data (bf s b)) :: k_writes s /\ cache p s' R H V.
Proof.
  intros C Hb HH. unfold bwrite. mrun (holding_held _ _ _ _ _ _ _ C Hb HH). cbn [negb].
  pose proof Hb as (Hlt & Hd & Hbn).
  destruct (ca_data _ _ _ _ _ C b blk Hb) as [Hval HV].
  destruct (rw_write p s b) as (v & ps & Hv & Hps & Erw); [apply C|apply C|done|apply C| |].
  { split; [rewrite Hbn; by eapply (ca_range _ _ _ _ _ C)|by apply (ca_idle _ _ _ _ _ C)]. }
  rewrite Hbn in Erw. eexists. split; [exact Erw|]. split; [by split|]. split; [done|]. split; [done|].
  destruct (ca_held _ _ _ _ _ C blk HH) as [n Hn].
  apply (cache_upd p s _ R H V R H V b blk); cbn [k_bufs k_vdisk k_set_procs k_set_vdisk k_set_writes]; try done.
  - intros b' Hb'. by apply (ca_uniq _ _ _ _ _ C b' b blk).
  - by left.
  - apply C.
  - apply (ca_ring _ _ _ _ _ C).
  - intros blk' Hne. rewrite disk_write. by rewrite lookup_insert_ne.
  - by apply (ca_ref _ _ _ _ _ C).
  - by apply (ca_lock _ _ _ _ _ C).
  - intros m Hm. by destruct (ca_pinned _ _ _ _ _ C blk m Hm).
  - by rewrite Hn.
Qed.

(** The reference counts after one reference is dropped. *)
Definition drop_ref (R : gmap Z Z) (blk : Z) : gmap Z Z :=
  if refs R blk =? 1 then delete blk R else <[blk := refs R blk - 1]> R.

Lemma drop_ref_ne R blk blk' : blk' <> blk -> drop_ref R blk !! blk' = R !! blk'.
Proof.
  intros. unfold drop_ref. destruct (_ =? 1); [by rewrite lookup_delete_ne|by rewrite lookup_insert_ne].
Qed.

Lemma refs_drop_ref R blk n : R !! blk = Some n -> refs (drop_ref R blk) blk = n - 1.
Proof.
  intros Hn. unfold drop_ref, refs. rewrite Hn. cbn.
  destruct (Z.eqb_spec n 1) as [->|]; [by rewrite lookup_delete_eq|by rewrite lookup_insert_eq].
Qed.

Lemma drop_ref_none R blk n : R !! blk = Some n -> drop_ref R blk !! blk = None -> n = 1.
Proof.
  intros Hn. unfold drop_ref, refs. rewrite Hn. cbn.
  destruct (Z.eqb_spec n 1) as [->|]; [done|by rewrite lookup_insert_eq].
Qed.

Lemma drop_ref_pos R blk n m : R !! blk = Some n -> 0 < n -> drop_ref R blk !! blk = Some m -> 0 < m.
Proof.
  intros Hn Hp. unfold drop_ref, refs. rewrite Hn. cbn.
  destruct (Z.eqb_spec n 1) as [->|]; [by rewrite lookup_delete_eq|rewrite lookup_insert_eq; intros [= <-]; lia].
Qed.

(** The buffers after brelse(). *)
Definition released (b : nat) (n : Z) (bs : list buf) : list buf :=
  let bs := alter (fun x => b_set_refcnt (n - 1) (b_set_lock (mkSl 0 0) x)) b bs in
  if n - 1 =? 0 then push_front b (unlink b bs) else bs.

Lemma released_facts p s R H V b n :
  cache p s R H V -> (b < NBUF)%nat ->
  let bs := released b n (k_bufs s) in
  length bs = S NBUF /\ (exists order, ring bs order) /\
  core (bs !!! b) = core (b_set_refcnt (n - 1) (b_set_lock (mkSl 0 0) (bf s b))) /\
  forall b', b' <> b -> core (bs !!! b') = core (bf s b').
Proof.
  intros C Hb bs. set (f := fun x => b_set_refcnt (n - 1) (b_set_lock (mkSl 0 0) x)).
  destruct (alter_bufs _ _ _ _ _ b f _ C Hb ltac:(done) ltac:(done) eq_refl) as (Hl & (order & Hr) & Hx & Ho).
  unfold bs, released. fold f. destruct (n - 1 =? 0).
  - split_and!.
    + by rewrite length_push_front, length_unlink.
    + destruct (move_front_ring _ order b Hl Hr Hb) as (order' & Hr' & _). by exists order'.
    + by rewrite core_push_front, core_unlink, Hx.
    + intros b' Hne. rewrite core_push_front, core_unlink. by apply Ho.
  - split_and!; [done|by exists order|by rewrite Hx|done].
Qed.

Lemma brelse_eq p s R H V b blk n :
  cache p s R H V -> buf_of s b blk -> blk ∈ H -> R !! blk = Some n -> n < 2 ^ 32 ->
  brelse b s = Ok tt (k_set_bufs (released b n (k_bufs s))
                       (k_set_procs (woken_by p (CH_sleeplock (SL_buf b)) (k_procs s)) s)).
Proof.
  intros C Hb HH Hn Hmax. pose proof (ca_run _ _ _ _ _ C) as Hr. pose proof Hb as (Hlt & _ & _).
  pose proof (ca_len _ _ _ _ _ C) as Hlen.
  unfold brelse. mrun (holding_held _ _ _ _ _ _ _ C Hb HH). cbn [negb].
  assert (Hin : sl_in (SL_buf b) s) by (cbn; lia).
  mrun (releasesleep_eq p (SL_buf b) s Hr Hin). cbn [sl_put].
  set (s1 := k_set_procs _ _).
  assert (Hr1 : running p s1) by (apply running_set_procs; [by apply running_bufs|apply woken_by_rel]).
  mrun (acquire_eq LK_bcache s1 (running_free _ _ _ Hr1)). unfold upd_buf, buf_at. mred.
  change (k_bufs (locked LK_bcache s1)) with (alter (b_set_lock (mkSl 0 0)) b (k_bufs s)).
  cbn [k_bufs k_set_bufs]. rewrite alter_alter.
  rewrite (alter_ext _ (fun x => b_set_refcnt (n - 1) (b_set_lock (mkSl 0 0) x))).
  2: { intros x Hx%list_lookup_total_correct. pose proof (ca_ref _ _ _ _ _ C b blk Hb) as Er.
       rewrite Hx in Er. unfold refs in Er. rewrite Hn in Er. cbn in Er. cbn. rewrite Er.
       destruct (ca_pinned _ _ _ _ _ C blk n Hn). by rewrite u32_small by lia. }
  unfold released, unlink. cbv zeta. rewrite !(lookup_total_alter _ b (k_bufs s)) by lia. cbn [b_refcnt b_set_refcnt].
  destruct (n - 1 =? 0); mred; cbn [k_bufs k_set_bufs].
  - leave LK_bcache; [apply Hr1|apply (running_free _ _ LK_bcache Hr1)].
  - leave LK_bcache; [apply Hr1|apply (running_free _ _ LK_bcache Hr1)].
Qed.

(** brelse() unlocks the buffer and drops the reference; the last reference
    may only be dropped when the block is on disk as it is in memory. *)
Lemma brelse_spec p s R H V b blk n :
  cache p s R H V -> buf_of s b blk -> blk ∈ H -> R !! blk = Some n -> n < 2 ^ 32 ->
  (n = 1 -> V !! blk = disk s !! blk) ->
  exists s', brelse b s = Ok tt s' /\ fs_step p s s' /\ k_writes s' = k_writes s /\
    cache p s' (drop_ref R blk) (H ∖ {[blk]}) V /\
    forall b' blk', buf_of s b' blk' -> buf_of s' b' blk'.
Proof.
  intros C Hb HH Hn Hmax Hcl. pose proof Hb as (Hlt & Hd & Hbn).
  rewrite (brelse_eq p s R H V b blk n C Hb HH Hn Hmax). eexists. split; [reflexivity|].
  split; [by split; [|apply woken_by_rel]|]. split; [done|].
  destruct (released_facts _ _ _ _ _ b n C Hlt) as (Hl & Hr & Hx & Ho).
  destruct (ca_data _ _ _ _ _ C b blk Hb) as [Hval HV]. destruct (ca_pinned _ _ _ _ _ C blk n Hn) as [Hpos _].
  assert (Hiff : forall b' blk', buf_of s b' blk' ->
    buf_of (k_set_bufs (released b n (k_bufs s)) (k_set_procs (woken_by p (CH_sleeplock (SL_buf b)) (k_procs s)) s)) b' blk').
  { intros b' blk' (? & ? & ?). unfold buf_of. cbn [k_bufs k_set_bufs].
    destruct (decide (b' = b)) as [->|Hne].
    - destruct (core_fields _ _ Hx) as (-> & -> & _). done.
    - destruct (core_fields _ _ (Ho b' Hne)) as (-> & -> & _). done. }
  destruct (core_fields _ _ Hx) as (_ & _ & Ex3 & Ex4 & Ex5 & Ex6).
  split; [|done].
  apply (cache_upd p s _ R H V _ _ V b blk); cbn [k_bufs k_set_bufs k_vdisk k_set_procs]; try done.
  - intros b' Hb'. by apply (ca_uniq _ _ _ _ _ C b' b blk).
  - by left.
  - by split; [|apply woken_by_rel].
  - apply C.
  - intros blk' Hne. rewrite drop_ref_ne by done. set_solver.
  - by apply Hiff.
  - rewrite Ex3. cbn. by rewrite (refs_drop_ref _ _ n).
  - by rewrite Ex4.
  - by rewrite Ex5.
  - rewrite bool_decide_eq_false_2 by set_solver. by rewrite Ex6.
  - intros m. by apply (drop_ref_pos _ _ n).
  - set_solver.
  - intros Hnone. apply Hcl. by apply (drop_ref_none R blk).
  - exact (f_equal b_disk Hx).
Qed.

(** bpin() and bunpin(): the reference count [n] of a block becomes [n'],
    described by [R']. *)
Lemma set_refcnt_spec p s R H V b blk n n' R' :
  cache p s R H V -> buf_of s b blk -> R !! blk = Some n ->
  (forall blk', blk' <> blk -> R' !! blk' = R !! blk') -> refs R' blk = n' ->
  (forall m, R' !! blk = Some m -> 0 < m) -> (blk ∈ H -> is_Some (R' !! blk)) ->
  (R' !! blk = None -> V !! blk = disk s !! blk) ->
  let s' := k_set_bufs (alter (b_set_refcnt n') b (k_bufs s)) s in
  cache p s' R' H V /\ forall b' blk', buf_of s' b' blk' <-> buf_of s b' blk'.
Proof.
  intros C Hb Hn HR' Hn' Hpos Hheld Hcl s'. pose proof Hb as (Hlt & _ & _).
  destruct (alter_bufs _ _ _ _ _ b (b_set_refcnt n') _ C Hlt ltac:(done) ltac:(done) eq_refl) as (Hl & Hr & Hx & Ho).
  assert (Hiff : forall b' blk', buf_of s' b' blk' <-> buf_of s b' blk').
  { intros b' blk'. unfold buf_of. cbn [s' k_bufs k_set_bufs]. destruct (decide (b' = b)) as [->|Hne].
    - by rewrite Hx.
    - by rewrite lookup_total_alter_ne by done. }
  split; [|done]. destruct (ca_data _ _ _ _ _ C b blk Hb) as [Hval HV].
  apply (cache_upd p s s' R H V R' H V b blk); cbn [s' k_bufs k_set_bufs k_vdisk]; try rewrite Hx; cbn; try done.
  - intros b' Hb'. by apply (ca_uniq _ _ _ _ _ C b' b blk).
  - by left.
  - apply C.
  - intros blk' Hne. by rewrite HR'.
  - by apply Hiff.
  - by apply (ca_lock _ _ _ _ _ C).
Qed.

Lemma set_refcnt_eq s b (g : Z -> Z) n' :
  settled s -> lock_free LK_bcache s -> g (b_refcnt (bf s b)) = n' ->
  (acquire LK_bcache;; upd_buf b (fun x => b_set_refcnt (g (b_refcnt x)) x);; release LK_bcache) s
  = Ok tt (k_set_bufs (alter (b_set_refcnt n') b (k_bufs s)) s).
Proof.
  intros Hs Hf Hg. mrun (acquire_eq LK_bcache s Hf). unfold upd_buf. mred.
  change (k_bufs (locked LK_bcache s)) with (k_bufs s).
  rewrite (alter_ext _ (b_set_refcnt n')) by (intros x Hx%list_lookup_total_correct; by rewrite <- Hg, Hx).
  leave LK_bcache; done.
Qed.

Lemma upd_refcnt_eq p s R H V b blk n (g : Z -> Z) n' :
  cache p s R H V -> buf_of s b blk -> R !! blk = Some n -> g n = n' ->
  (acquire LK_bcache;; upd_buf b (fun x => b_set_refcnt (g (b_refcnt x)) x);; release LK_bcache) s
  = Ok tt (k_set_bufs (alter (b_set_refcnt n') b (k_bufs s)) s).
Proof.
  intros C Hb Hn Hg. pose proof (ca_run _ _ _ _ _ C) as Hr.
  apply set_refcnt_eq; [apply Hr|by apply (running_free _ _ _ Hr)|].
  rewrite (ca_ref _ _ _ _ _ C b blk Hb). unfold refs. by rewrite Hn.
Qed.

Lemma bpin_spec p s R H V b blk n :
  cache p s R H V -> buf_of s b blk -> R !! blk = Some n -> n < 2 ^ 31 ->
  exists s', bpin b s = Ok tt s' /\ fs_step p s s' /\ k_writes s' = k_writes s /\
    cache p s' (<[blk := n + 1]> R) H V /\ forall b' blk', buf_of s' b' blk' <-> buf_of s b' blk'.
Proof.
  intros C Hb Hn Hmax. destruct (ca_pinned _ _ _ _ _ C blk n Hn) as [Hpos _].
  unfold bpin. rewrite (upd_refcnt_eq p s R H V b blk n (fun r => u32 (r + 1)) (n + 1))
    by (done || (rewrite u32_small by lia; done)).
  eexists. split; [reflexivity|]. split; [by split|]. split; [done|].
  apply (set_refcnt_spec p s R H V b blk n); try done.
  - intros blk' Hne. by rewrite lookup_insert_ne.
  - unfold refs. by rewrite lookup_insert_eq.
  - intros m. rewrite lookup_insert_eq. intros [= <-]. lia.
  - by rewrite lookup_insert_eq.
  - by rewrite lookup_insert_eq.
Qed.

Lemma bunpin_spec p s R H V b blk n :
  cache p s R H V -> buf_of s b blk -> R !! blk = Some n -> n < 2 ^ 32 ->
  (n = 1 -> blk ∉ H /\ V !! blk = disk s !! blk) ->
  exists s', bunpin b s = Ok tt s' /\ fs_step p s s' /\ k_writes s' = k_writes s /\
    cache p s' (drop_ref R blk) H V /\ forall b' blk', buf_of s' b' blk' <-> buf_of s b' blk'.
Proof.
  intros C Hb Hn Hmax Hcl. destruct (ca_pinned _ _ _ _ _ C blk n Hn) as [Hpos _].
  unfold bunpin. rewrite (upd_refcnt_eq p s R H V b blk n (fun r => u32 (r - 1)) (n - 1))
    by (done || (rewrite u32_small by lia; done)).
  eexists. split; [reflexivity|]. split; [by split|]. split; [done|].
  apply (set_refcnt_spec p s R H V b blk n); try done.
  - intros blk' Hne. by apply drop_ref_ne.
  - by apply refs_drop_ref.
  - intros m. by apply (drop_ref_pos _ _ n).
  - intros HH. destruct (decide (n = 1)) as [->|Hne]; [by destruct (Hcl eq_refl)|].
    unfold drop_ref, refs. rewrite Hn. cbn. rewrite (proj2 (Z.eqb_neq n 1)) by done. by rewrite lookup_insert_eq.
  - intros Hnone. apply Hcl. by apply (drop_ref_none R blk).
Qed.

(** ** binit() *)

Lemma elem_of_rev {A} (x : A) l : x ∈ rev l <-> x ∈ l.
Proof. by rewrite <- Permutation_rev. Qed.
Lemma nodup_rev {A} (l : list A) : NoDup l -> NoDup (rev l).
Proof. by rewrite <- Permutation_rev. Qed.

(** After [n] iterations. *)
Definition binit_inv (s : kstate) (l : list nat) (s' : kstate) : Prop :=
  exists bs, s' = k_set_bufs bs s /\ length bs = S NBUF /\
    chain (nx bs) (pv bs) (NBUF :: rev l ++ [NBUF]) /\
    forall b, (b < NBUF)%nat ->
      core (bs !!! b) = core (if bool_decide (b ∈ l) then b_set_lock (mkSl 0 0) (bf s b) else bf s b).

Lemma initsleeplock_eq l s :
  k_locks s = ∅ -> sl_in l s -> initsleeplock l s = Ok tt (sl_put l (mkSl 0 0) s).
Proof.
  intros Hl Hin. unfold initsleeplock, initlock, upd_sl. mred. rewrite Hl, delete_empty.
  assert (k_set_locks ∅ s = s) as -> by (rewrite <- Hl; done).
  unfold modify. rewrite sl_get_put, sl_put_put by done. done.
Qed.

Lemma binit_step s l b s' :
  k_locks s = ∅ -> (b < NBUF)%nat -> NoDup (l ++ [b]) -> (forall x, x ∈ l -> (x < NBUF)%nat) ->
  binit_inv s l s' ->
  exists s'', (h <- buf_at NBUF;; upd_buf b (b_set_next (b_next h));; upd_buf b (b_set_prev NBUF);;
     initsleeplock (SL_buf b);; h <- buf_at NBUF;; upd_buf (b_next h) (b_set_prev b);;
     upd_buf NBUF (b_set_next b)) s' = Ok tt s'' /\ binit_inv s (l ++ [b]) s''.
Proof.
  intros Hk Hb Hnd Hlt (bs & -> & Hlen & Hc & Hco). unfold buf_at, upd_buf. mred. cbn [k_bufs k_set_bufs].
  set (s1 := k_set_bufs _ _).
  assert (Hin : sl_in (SL_buf b) s1) by (cbn; rewrite !length_alter; lia).
  mrun (initsleeplock_eq (SL_buf b) s1 Hk Hin). cbn [sl_put]. unfold s1. cbn [k_bufs k_set_bufs].
  set (bs0 := alter (b_set_lock (mkSl 0 0)) b bs).
  assert (Hbs0 : alter (b_set_lock (mkSl 0 0)) b (alter (b_set_prev NBUF) b (alter (b_set_next (b_next (bs !!! NBUF))) b bs))
    = alter (b_set_prev NBUF) b (alter (b_set_next (nx bs0 NBUF)) b bs0)).
  { unfold bs0. rewrite nx_alter_other by done. rewrite !alter_alter. done. }
  rewrite Hbs0. unfold modify. eexists. split; [reflexivity|]. exists (push_front b bs0).
  assert (Hlen0 : length bs0 = S NBUF) by (unfold bs0; by rewrite length_alter).
  apply NoDup_app in Hnd as (Hnd & Hdis & _).
  split_and!.
  - done.
  - by rewrite length_push_front.
  - rewrite rev_unit. apply push_front_chain; [done| | |].
    + intros x Hx. apply elem_of_cons in Hx as [->|Hx]; [done|]. apply Hlt. by rewrite elem_of_rev in Hx.
    + apply NoDup_cons. rewrite elem_of_rev. split; [|by apply nodup_rev]. intros Hbl. apply (Hdis b Hbl). left.
    + revert Hc. apply chain_ext; intros x _; unfold bs0; [by rewrite nx_alter_other|by rewrite pv_alter_other].
  - intros b' Hb'. rewrite core_push_front. unfold bs0. destruct (decide (b' = b)) as [->|Hne].
    + rewrite lookup_total_alter by lia. rewrite bool_decide_eq_true_2 by (apply elem_of_app; right; left).
      pose proof (Hco b Hb) as E. rewrite bool_decide_eq_false_2 in E by (intros Hbl; apply (Hdis b Hbl); left).
      exact (f_equal (b_set_lock (mkSl 0 0)) E).
    + rewrite lookup_total_alter_ne by done. rewrite Hco by done.
      rewrite (bool_decide_ext (b' ∈ l) (b' ∈ l ++ [b])); [done|]. rewrite elem_of_app, list_elem_of_singleton. naive_solver.
Qed.

Lemma binit_eq s :
  length (k_bufs s) = S NBUF -> k_locks s = ∅ ->
  exists bs, binit s = Ok tt (k_set_bufs bs s) /\ length bs = S NBUF /\ ring bs (rev (seq 0 NBUF)) /\
    forall b, (b < NBUF)%nat -> core (bs !!! b) = core (b_set_lock (mkSl 0 0) (bf s b)).
Proof.
  intros Hlen Hl. unfold binit, initlock. mred. rewrite Hl, delete_empty.
  assert (k_set_locks ∅ s = s) as -> by (rewrite <- Hl; done). unfold upd_buf at 1 2. mred. cbn [k_bufs k_set_bufs].
  rewrite alter_alter. set (f := fun x => b_set_next NBUF (b_set_prev NBUF x)). set (bs0 := alter f NBUF (k_bufs s)).
  set (s1 := k_set_bufs bs0 s).
  assert (Hx : bs0 !!! NBUF = f (bf s NBUF)) by (apply lookup_total_alter; lia).
  destruct (for_each_inv (binit_inv s1) (fun b =>
    h <- buf_at NBUF;; upd_buf b (b_set_next (b_next h));; upd_buf b (b_set_prev NBUF);;
    initsleeplock (SL_buf b);; h <- buf_at NBUF;; upd_buf (b_next h) (b_set_prev b);;
    upd_buf NBUF (b_set_next b)) (seq 0 NBUF) s1 []) as (s2 & E & bs & -> & Hlen2 & Hc & Hco).
  - exists bs0. split_and!; [done|unfold bs0; by rewrite length_alter| |done].
    cbn [rev app]. unfold chain, nx, pv. rewrite Hx. done.
  - intros pre b post s' Hseq Hinv. cbn [app] in *.
    assert (Hnd : NoDup (pre ++ b :: post)) by (rewrite <- Hseq; apply NoDup_seq).
    assert (Hin : forall x, x ∈ pre ++ b :: post -> (x < NBUF)%nat) by (intros x; rewrite <- Hseq, elem_of_seq; lia).
    apply (binit_step s1 pre b s'); [done| | | |done].
    + apply Hin, elem_of_app. right. left.
    + change (b :: post) with ([b] ++ post) in Hnd. rewrite app_assoc in Hnd. by apply NoDup_app in Hnd as [? _].
    + intros x Hx'. apply Hin, elem_of_app. by left.
  - exists bs. split; [exact E|]. split; [done|]. split.
    + split; [by rewrite <- Permutation_rev|]. exact Hc.
    + intros b Hb. rewrite Hco by done. cbn [app]. rewrite bool_decide_eq_true_2 by (apply elem_of_seq; lia).
      unfold s1, bs0. cbn [k_bufs k_set_bufs]. by rewrite lookup_total_alter_ne by lia.
Qed.

(** After binit() nobody holds a block and every block reads as on disk. *)
Lemma cache_binit p s bs :
  running p s -> dev_ok (k_vdisk s) -> length bs = S NBUF -> (exists order, ring bs order) ->
  (forall b, (b < NBUF)%nat -> b_dev (bs !!! b) <> ROOTDEV /\ b_refcnt (bs !!! b) = 0 /\
     sl_locked (b_lock (bs !!! b)) = 0 /\ b_disk (bs !!! b) = 0) ->
  (forall blk d, disk s !! blk = Some d -> 0 <= blk < 2 ^ 31) ->
  cache p (k_set_bufs bs s) ∅ ∅ (disk s).
Proof.
  intros Hr Hd Hl Hring Hb Hrange.
  assert (Hno : forall b blk, ~ buf_of (k_set_bufs bs s) b blk).
  { intros b blk (Hlt & Hdev & _). by destruct (Hb b Hlt) as [? _]. }
  split; try done; try (intros b blk Hbo; by destruct (Hno b blk)); try (intros b b' blk Hbo; by destruct (Hno b blk)).
  - by apply running_bufs.
  - intros b Hlt _. by destruct (Hb b Hlt) as (_ & ? & ? & _).
  - intros b Hlt. by destruct (Hb b Hlt) as (_ & _ & _ & ?).
Qed.

Lemma binit_cache p s :
  running p s -> dev_ok (k_vdisk s) -> length (k_bufs s) = S NBUF ->
  (forall b, (b < NBUF)%nat -> b_dev (bf s b) <> ROOTDEV /\ b_refcnt (bf s b) = 0 /\ b_disk (bf s b) = 0) ->
  (forall blk d, disk s !! blk = Some d -> 0 <= blk < 2 ^ 31) ->
  exists bs, binit s = Ok tt (k_set_bufs bs s) /\ ring bs (rev (seq 0 NBUF)) /\
    cache p (k_set_bufs bs s) ∅ ∅ (disk s).
Proof.
  intros Hr Hd Hl Hz Hrange. destruct (binit_eq s Hl (rn_locks _ _ Hr)) as (bs & E & Hl' & Hring & Hco).
  exists bs. split; [done|]. split; [done|]. apply cache_binit; [done|done|done|by eexists| |done].
  intros b Hb. destruct (core_fields _ _ (Hco b Hb)) as (-> & _ & -> & _ & _ & ->).
  destruct (Hz b Hb) as (? & ? & ?). split_and!; [done|done|done|].
  by transitivity (b_disk (bf s b)); [exact (f_equal b_disk (Hco b Hb))|].
Qed.

End BioSpec.

(** ** References of nested buffers *)

Lemma refs_insert_eq R blk n : refs (<[blk := n]> R) blk = n.
Proof. unfold refs. by rewrite lookup_insert_eq. Qed.

Lemma drop_ref_insert R blk :
  (forall n, R !! blk = Some n -> 0 < n) -> drop_ref (<[blk := refs R blk + 1]> R) blk = R.
Proof.
  intros Hp. unfold drop_ref. rewrite !refs_insert_eq, Z.add_simpl_r, insert_insert_eq.
  destruct (R !! blk) as [n|] eqn:E; unfold refs; rewrite E; cbn.
  - specialize (Hp n eq_refl). rewrite (proj2 (Z.eqb_neq _ _)) by lia. by apply insert_id.
  - by apply delete_insert_id.
Qed.

Lemma drop_ref_one R blk : R !! blk = Some 1 -> drop_ref R blk = delete blk R.
Proof. intros E. unfold drop_ref, refs. by rewrite E. Qed.

Lemma refs_insert_ne R blk blk' n : blk <> blk' -> refs (<[blk' := n]> R) blk = refs R blk.
Proof. intros. unfold refs. by rewrite lookup_insert_ne. Qed.

Lemma refs_none R blk : R !! blk = None -> refs R blk = 0.
Proof. intros E. unfold refs. by rewrite E. Qed.
Lemma refs_some R blk n : R !! blk = Some n -> refs R blk = n.
Proof. intros E. unfold refs. by rewrite E. Qed.

(** ** The contract of bio.c *)

Section Claims.
Context `{D : BlockDev}.

(** binit() on the zeroed buffers establishes the invariant of the cache:
    the list through [head] is a ring over all NBUF buffers, the last one
    linked being the most recently used; nobody holds a block, and every block
    reads as it is on disk, provided block numbers stay below 2^31 (the driver
    doubles them in 32 bits). *)
Theorem binit_establishes p s :
  running p s -> dev_ok (k_vdisk s) -> length (k_bufs s) = S NBUF ->
  (forall b, (b < NBUF)%nat -> b_dev (bf s b) <> ROOTDEV /\ b_refcnt (bf s b) = 0 /\ b_disk (bf s b) = 0) ->
  (forall blk d, disk s !! blk = Some d -> 0 <= blk < 2 ^ 31) ->
  exists bs, binit s = Ok tt (k_set_bufs bs s) /\ ring bs (rev (seq 0 NBUF)) /\
    cache p (k_set_bufs bs s) ∅ ∅ (disk s).
Proof. apply binit_cache. Qed.

(** C10: bread() of a block nobody holds returns a buffer with the block's
    contents, held by the caller with one more reference, and writes nothing;
    as long as a buffer is unreferenced, or the block is cached, it cannot
    fail. brelse() gives the buffer back: reference counts, held blocks and
    contents are then what they were, in a cache that satisfies the
    invariant. *)
Theorem bread_brelse p s R H V blk d :
  cache p s R H V -> blk ∉ H -> V !! blk = Some d -> refs R blk < 2 ^ 31 ->
  is_Some (R !! blk) \/ (size R < NBUF)%nat ->
  exists b s1 s2, bread ROOTDEV blk s = Ok b s1 /\ b_data (bf s1 b) = d /\
    cache p s1 (<[blk := refs R blk + 1]> R) ({[blk]} ∪ H) V /\
    brelse b s1 = Ok tt s2 /\ cache p s2 R H V /\ disk s2 = disk s.
Proof.
  intros C HH HV Hmax Hroom.
  destruct (bread_spec p s R H V blk d C HH HV Hmax Hroom) as (b & s1 & E1 & F1 & W1 & Hb & C1 & _).
  assert (Hd : forall s', k_writes s' = k_writes s -> fs_step p s s' -> disk s' = disk s).
  { intros s' W F. unfold disk. by rewrite W, (fs_step_blocks _ _ _ F). }
  destruct (brelse_spec p s1 _ _ V b blk (refs R blk + 1) C1 Hb) as (s2 & E2 & F2 & W2 & C2 & _);
    [set_solver|by rewrite lookup_insert_eq|lia| |].
  { intros Hn. rewrite (Hd s1 W1 F1). apply C. destruct (R !! blk) as [n|] eqn:E; [|done].
    rewrite (refs_some _ _ _ E) in Hn. destruct (ca_pinned _ _ _ _ _ C blk n E). lia. }
  rewrite drop_ref_insert in C2 by (intros n Hn; by destruct (ca_pinned _ _ _ _ _ C blk n Hn)).
  replace (({[blk]} ∪ H) ∖ {[blk]}) with H in C2 by set_solver.
  exists b, s1, s2. destruct (ca_data _ _ _ _ _ C1 b blk Hb) as [_ Ed]. rewrite HV in Ed. injection Ed as <-.
  split_and!; try done. apply Hd; [by rewrite W2|by etrans].
Qed.

End Claims.

(** ** An ideal disk *)

Module RamDisk.

(** The transfer happens at once. *)
Definition rw (b : nat) (write : bool) : K unit := fun s =>
  let blk := b_blockno (k_bufs s !!! b) in
  if write then Ok tt (k_set_writes ((blk, b_data (k_bufs s !!! b)) :: k_writes s) s)
  else Ok tt (k_set_bufs (alter (b_set_data (disk s !!! blk)) b (k_bufs s)) s).

Lemma rw_reads p s b d :
  running p s -> True -> (b < NBUF)%nat -> length (k_bufs s) = S NBUF ->
  transferable (k_bufs s !!! b) ->
  disk s !! b_blockno (k_bufs s !!! b) = Some d ->
  exists v ps, True /\ procs_rel p (k_procs s) ps /\
    rw b false s = Ok tt (k_set_procs ps (k_set_vdisk v (k_set_bufs (alter (b_set_data d) b (k_bufs s)) s))).
Proof.
  intros _ _ _ _ _ E. exists (k_vdisk s), (k_procs s). split_and!; [done|done|]. unfold rw.
  by rewrite (lookup_total_correct _ _ _ E).
Qed.

Lemma rw_writes p s b :
  running p s -> True -> (b < NBUF)%nat -> length (k_bufs s) = S NBUF ->
  transferable (k_bufs s !!! b) ->
  exists v ps, True /\ procs_rel p (k_procs s) ps /\
    rw b true s = Ok tt (k_set_procs ps (k_set_vdisk v
      (k_set_writes ((b_blockno (k_bufs s !!! b), b_data (k_bufs s !!! b)) :: k_writes s) s))).
Proof. intros _ _ _ _ _. by exists (k_vdisk s), (k_procs s). Qed.

#[export] Instance ram_disk : BlockDev :=
  {| virtio_disk_rw := rw; dev_ok := fun _ => True; rw_read := rw_reads; rw_write := rw_writes |}.

(** Process 3 on a machine just booted with the disk [d]. *)
Definition machine (d : gmap Z (list Z)) : kstate :=
  let s := boot_state (fun _ => 0) d in
  k_set_procs (alter (p_set_state RUNNING) 3%nat (k_procs s))
    (k_set_cpus (alter (c_set_proc (Some 3%nat)) 0%nat (k_cpus s)) s).

Lemma machine_running d : running 3 (machine d).
Proof.
  split; try reflexivity.
  - vm_compute. intuition congruence.
  - apply Nat.ltb_lt. reflexivity.
  - split; reflexivity.
Qed.

Lemma machine_bufs d b : (b < NBUF)%nat ->
  b_dev (bf (machine d) b) <> ROOTDEV /\ b_refcnt (bf (machine d) b) = 0 /\ b_disk (bf (machine d) b) = 0.
Proof.
  intros Hb. unfold machine. cbn [k_bufs k_set_cpus k_set_procs boot_state]. rewrite lookup_total_replicate_2 by lia. done.
Qed.

Lemma machine_cache d : (forall blk x, d !! blk = Some x -> 0 <= blk < 2 ^ 31) -> exists bs, binit (machine d) = Ok tt (k_set_bufs bs (machine d)) /\
  cache 3 (k_set_bufs bs (machine d)) ∅ ∅ d.
Proof.
  intros Hd. destruct (binit_cache 3 (machine d)) as (bs & E & _ & C);
    [apply machine_running|exact I|reflexivity|apply machine_bufs|exact Hd|]. exists bs. split; [exact E|exact C].
Qed.

(** A disk of [n] zero blocks. *)
Definition zeros (n : Z) : gmap Z (list Z) := gset_to_gmap (replicate 1024 0) (list_to_set (seqZ 0 n)).

Lemma zeros_lookup n blk : 0 <= blk < n -> zeros n !! blk = Some (replicate 1024 0).
Proof. intros H. apply lookup_gset_to_gmap_Some. split; [|done]. apply elem_of_list_to_set, elem_of_seqZ. lia. Qed.

Lemma zeros_data n blk d : zeros n !! blk = Some d -> d = replicate 1024 0.
Proof. intros [_ E]%lookup_gset_to_gmap_Some. done. Qed.

Lemma zeros_range n blk d : n <= 2 ^ 31 -> zeros n !! blk = Some d -> 0 <= blk < 2 ^ 31.
Proof. intros Hn [Hin%elem_of_list_to_set%elem_of_seqZ _]%lookup_gset_to_gmap_Some. lia. Qed.

Lemma binit_establishes_witness : exists bs,
  binit (machine (zeros 50)) = Ok tt (k_set_bufs bs (machine (zeros 50))) /\ ring bs (rev (seq 0 NBUF)).
Proof.
  destruct (binit_establishes (D := ram_disk) 3 (machine (zeros 50)) (machine_running _) I eq_refl (machine_bufs _)
    (fun blk d => zeros_range 50 blk d ltac:(lia))) as (bs & E & Hr & _).
  exists bs. split; [exact E|exact Hr].
Defined.

Lemma bread_brelse_witness : exists s b s1 s2, bread ROOTDEV 45 s = Ok b s1 /\
  b_data (bf s1 b) = replicate 1024 0 /\ brelse b s1 = Ok tt s2.
Proof.
  destruct (machine_cache (zeros 50) (fun blk d => zeros_range 50 blk d ltac:(lia))) as (bs & _ & C).
  destruct (bread_brelse (D := ram_disk) 3 _ ∅ ∅ _ 45 (replicate 1024 0) C) as (b & s1 & s2 & E1 & Ed & _ & E2 & _).
  - by intros ?%elem_of_empty.
  - by apply zeros_lookup.
  - done.
  - right. apply Nat.ltb_lt. reflexivity.
  - exists (k_set_bufs bs (machine (zeros 50))), b, s1, s2. split; [exact E1|]. split; [exact Ed|exact E2].
Defined.

End RamDisk.
