(* ===== verification/VirtioSpec.v ===== *)
(** The disk driver keeps the promise bio.c relies on.

    The class [VirtioDevice] says what the device does with a request it finds
    in the available ring. [cycle] is what happens between the two context
    switches of a process that waits for its request: the scheduler gets the
    CPU, the device finishes and, when no interrupt of its own is still
    unacknowledged, interrupts, virtio_disk_intr() runs, and the scheduler
    resumes the process. Closing virtio_disk_rw() with it gives an
    instance of [BlockDev]. *)

From S2P Require Import Prelude Riscv State Spinlock Sched Sleeplock SchedSpec Virtio Bio BioSpec.

(** ** The device *)

(** The chain of the newest entry of the available ring, which the device was
    told of and has not seen yet: a transfer of block [blk] from or to buffer [b]. *)
Record pending (v : vdisk) (i0 i1 i2 : Z) (b : nat) (write : bool) (blk : Z) : Prop := {
  pd_notified : v_notify v = Some 0;
  pd_ix : 0 <= v_used_ring_idx v < 2 ^ 16;
  pd_new : v_avail_idx v = u16 (v_used_ring_idx v + 1);
  pd_ring : v_avail_ring v !!! Z.to_nat (v_used_ring_idx v mod NUM) = i0;
  pd_op : v_ops v !!! Z.to_nat i0 = (if write then VIRTIO_BLK_T_OUT else VIRTIO_BLK_T_IN, 0, 2 * blk);
  pd_desc0 : v_desc v !!! Z.to_nat i0 = mkDesc (DA_op (Z.to_nat i0)) 16 VRING_DESC_F_NEXT i1;
  pd_desc1 : v_desc v !!! Z.to_nat i1 = mkDesc (DA_data b) BSIZE
    (Z.lor (if write then 0 else VRING_DESC_F_WRITE) VRING_DESC_F_NEXT) i2;
  pd_desc2 : v_desc v !!! Z.to_nat i2 = mkDesc (DA_status (Z.to_nat i0)) 1 VRING_DESC_F_WRITE 0
}.

(** The status byte, the used ring and its index; the notification is consumed
    and bit 0 of INTERRUPT_STATUS, used buffer, is set. *)
Definition completed (i0 : Z) (v : vdisk) : vdisk :=
  v_set_notify None (v_set_intr_status (Z.lor (v_intr_status v) 1)
  (v_set_used_ring_idx (u16 (v_used_ring_idx v + 1))
    (v_set_used_ring (<[Z.to_nat (v_used_ring_idx v mod NUM) := i0]> (v_used_ring v))
      (v_set_info_status (<[Z.to_nat i0 := 0]> (v_info_status v)) v)))).

(** virtio 1.1, sections 2.6 and 5.2.6: the device transfers the data and
    returns the chain through the used ring. *)
Class VirtioDevice := {
  device : kstate -> kstate;
  device_reads s i0 i1 i2 b blk d :
    pending (k_vdisk s) i0 i1 i2 b false blk -> disk s !! blk = Some d ->
    device s = k_set_bufs (alter (b_set_data d) b (k_bufs s)) (k_set_vdisk (completed i0 (k_vdisk s)) s);
  device_writes s i0 i1 i2 b blk :
    pending (k_vdisk s) i0 i1 i2 b true blk ->
    device s = k_set_writes ((blk, b_data (k_bufs s !!! b)) :: k_writes s)
      (k_set_vdisk (completed i0 (k_vdisk s)) s)
}.

(** ** The driver at rest *)

Record driver_ok (v : vdisk) : Prop := {
  dv_desc : length (v_desc v) = 8%nat;
  dv_avail : length (v_avail_ring v) = 8%nat;
  dv_used : length (v_used_ring v) = 8%nat;
  dv_info : length (v_info_b v) = 8%nat;
  dv_status : length (v_info_status v) = 8%nat;
  dv_ops : length (v_ops v) = 8%nat;
  dv_free : v_free v = replicate 8 1;
  dv_range : 0 <= v_used_idx v < 2 ^ 16;
  dv_seen : v_used_ring_idx v = v_used_idx v;
  dv_sent : v_avail_idx v = v_used_idx v;
  dv_quiet : v_intr_status v = 0
}.

(** The book-keeping of one request, the chain being 0, 1, 2. *)
Definition submitted (b : nat) (write : bool) (sector : Z) (v : vdisk) : vdisk :=
  v_set_notify (Some 0)
  (v_set_avail_idx (u16 (v_avail_idx v + 1))
  (v_set_avail_ring (<[Z.to_nat (v_avail_idx v mod NUM) := 0]> (v_avail_ring v))
  (v_set_info_b (<[0%nat := Some b]> (v_info_b v))
  (v_set_desc (<[2%nat := mkDesc (DA_status 0) 1 VRING_DESC_F_WRITE 0]>
    (<[1%nat := mkDesc (DA_data b) BSIZE (Z.lor (if write then 0 else VRING_DESC_F_WRITE) VRING_DESC_F_NEXT) 2]>
    (<[0%nat := mkDesc (DA_op 0) 16 VRING_DESC_F_NEXT 1]> (v_desc v))))
  (v_set_info_status (<[0%nat := 0xff]> (v_info_status v))
  (v_set_ops (<[0%nat := (if write then VIRTIO_BLK_T_OUT else VIRTIO_BLK_T_IN, 0, sector)]> (v_ops v))
  (v_set_free [0; 0; 0; 1; 1; 1; 1; 1] v))))))).

Lemma alloc_wait_eq n s :
  v_free (k_vdisk s) = replicate 8 1 ->
  virtio_alloc_wait n s = Ok [0; 1; 2] (k_set_vdisk (v_set_free [0; 0; 0; 1; 1; 1; 1; 1] (k_vdisk s)) s).
Proof.
  intros Hf. assert (E : s = k_set_vdisk (v_set_free (replicate 8 1) (k_vdisk s)) s) by (rewrite <- Hf; done).
  rewrite E at 1. by destruct n.
Qed.

Definition submit_state (b : nat) (write : bool) (blk : Z) (s : kstate) : kstate :=
  k_set_bufs (alter (b_set_disk 1) b (k_bufs s)) (k_set_vdisk (submitted b write (2 * blk) (k_vdisk s)) s).

Lemma submit_eq p s b write :
  running p s -> driver_ok (k_vdisk s) -> transferable (k_bufs s !!! b) ->
  virtio_submit b write s = Ok 0 (locked LK_vdisk (submit_state b write (b_blockno (k_bufs s !!! b)) s)).
Proof.
  intros Hr Hv [Hb _]. unfold virtio_submit. mred. mrun (acquire_eq LK_vdisk s (running_free _ _ _ Hr)).
  replace (u32 (b_blockno (k_bufs s !!! b) * (BSIZE / 512))) with (2 * b_blockno (k_bufs s !!! b))
    by (change (BSIZE / 512) with 2; rewrite u32_small; lia).
  mrun (alloc_wait_eq patience (locked LK_vdisk s) (dv_free _ Hv)). done.
Qed.

Lemma submitted_pending b write blk v :
  driver_ok v -> pending (submitted b write (2 * blk) v) 0 1 2 b write blk.
Proof.
  intros Hv. destruct Hv as [Hd Ha Hu Hi Hs Ho Hf Hr Hse Hsn Hq]. split; cbn.
  - done.
  - lia.
  - by rewrite Hsn, Hse.
  - rewrite Hsn, Hse. apply list_lookup_total_insert_eq. rewrite Ha. unfold NUM.
    pose proof (Z.mod_pos_bound (v_used_idx v) 8). lia.
  - apply list_lookup_total_insert_eq. lia.
  - rewrite !list_lookup_total_insert_ne by done. apply list_lookup_total_insert_eq. lia.
  - rewrite list_lookup_total_insert_ne by done. apply list_lookup_total_insert_eq. rewrite length_insert. lia.
  - apply list_lookup_total_insert_eq. rewrite !length_insert. lia.
Qed.

(** ** The interrupt handler *)

(** One finished chain, that of buffer [b]. *)
Record finished (v : vdisk) (b : nat) : Prop := {
  fi_range : 0 <= v_used_idx v < 2 ^ 16;
  fi_one : v_used_ring_idx v = u16 (v_used_idx v + 1);
  fi_id : v_used_ring v !!! Z.to_nat (v_used_idx v mod NUM) = 0;
  fi_status : v_info_status v !!! 0%nat = 0;
  fi_buf : v_info_b v !!! 0%nat = Some b
}.

Lemma completed_finished b write blk v : driver_ok v -> finished (completed 0 (submitted b write (2 * blk) v)) b.
Proof.
  intros Hv. destruct Hv as [Hd Ha Hu Hi Hs Ho Hf Hr Hse Hsn Hq]. split; cbn.
  - done.
  - by rewrite Hse.
  - rewrite Hse. apply list_lookup_total_insert_eq. rewrite Hu. unfold NUM.
    pose proof (Z.mod_pos_bound (v_used_idx v) 8). lia.
  - apply list_lookup_total_insert_eq. rewrite length_insert. lia.
  - apply list_lookup_total_insert_eq. lia.
Qed.

Definition acked (v : vdisk) : vdisk :=
  v_set_intr_status (Z.land (v_intr_status v) (Z.lnot (Z.land (v_intr_status v) 3))) v.

(** What the handler does to the driver's state when one chain is finished. *)
Definition seen (v : vdisk) : vdisk := v_set_used_idx (u16 (v_used_idx v + 1)) (acked v).

Lemma acked_finished v b : finished v b -> finished (acked v) b.
Proof. by intros []. Qed.

Definition handled (b : nat) (s : kstate) : kstate :=
  k_set_vdisk (seen (k_vdisk s))
    (k_set_procs (imap (woken (CH_buf b) None) (k_procs s)) (k_set_bufs (alter (b_set_disk 0) b (k_bufs s)) s)).

Lemma u16_step x : 0 <= x < 2 ^ 16 -> u16 (u16 (x + 1) - x) = 1 /\ x <> u16 (x + 1) /\ 0 <= u16 (x + 1) < 2 ^ 16.
Proof.
  intros H. unfold u16. change (2 ^ 16) with 65536 in *. split_and!.
  - rewrite Zminus_mod_idemp_l. by replace (x + 1 - x) with 1 by lia.
  - destruct (decide (x = 65535)) as [->|]; [done|]. rewrite Z.mod_small by lia. lia.
  - apply Z.mod_pos_bound. lia.
  - apply Z.mod_pos_bound. lia.
Qed.

Lemma intr_loop_eq s b :
  settled s -> proc_locks_free s -> length (k_procs s) = NPROC -> cur_proc s = None -> finished (k_vdisk s) b ->
  virtio_intr_loop 1 (k_set_vdisk (acked (k_vdisk s)) s) = Ok tt (handled b s).
Proof.
  intros Hs Hl Hn Hc [Hr Ho Hi Hst Hb]%acked_finished. destruct (u16_step _ Hr) as (_ & Hne & _).
  set (s0 := k_set_vdisk (acked (k_vdisk s)) s). change (acked (k_vdisk s)) with (k_vdisk s0) in Hr, Ho, Hi, Hst, Hb, Hne.
  unfold virtio_intr_loop. change (gets k_vdisk) with (gets (fun s => k_vdisk s)). mred.
  rewrite Ho, (proj2 (Z.eqb_neq _ _) Hne), Hi. change (Z.to_nat 0) with 0%nat. rewrite Hst, Hb. cbn [c_true Z.eqb negb deref]. mred.
  set (s1 := k_set_bufs _ s0). mrun (wakeup_eq (CH_buf b) s1 Hs Hl Hn). change (cur_proc s1) with (cur_proc s). rewrite Hc.
  unfold upd_vd. mred. cbn [k_vdisk k_set_procs k_set_bufs k_set_vdisk v_used_idx v_used_ring_idx v_set_used_idx s1].
  rewrite Ho, Z.eqb_refl. done.
Qed.

(** A hart that is in no process and holds nothing. *)
Record idle (s : kstate) : Prop := {
  id_settled : settled s;
  id_depth : depth s = 0;
  id_cur : cur_proc s = None;
  id_procs : length (k_procs s) = NPROC;
  id_locks : k_locks s = ∅
}.

Lemma idle_irq i s : idle s -> idle (irq i s).
Proof. intros []. destruct (settled_irq i s) as (? & ? & E); [done|done|]. split; try done. by rewrite E. Qed.

Lemma idle_handled b s : idle s -> idle (handled b s).
Proof. intros []. split; try done. cbn. by rewrite length_imap. Qed.

Lemma disk_intr_eq s b : idle s -> finished (k_vdisk s) b -> virtio_disk_intr (sie false s) = Ok tt (handled b (irq false s)).
Proof.
  intros Hi Hf. pose proof (idle_irq false s Hi) as Hq. unfold virtio_disk_intr.
  assert (Hfree : forall lk s', k_locks s' = ∅ -> lock_free lk s') by (intros lk s' E; unfold lock_free; by rewrite E).
  mrun (acquire_eq LK_vdisk (sie false s) (Hfree _ _ (id_locks _ Hi))).
  rewrite (locked_sie LK_vdisk false s (id_settled _ Hi) (id_depth _ Hi)).
  unfold interrupt_ack, upd_vd. change (gets k_vdisk) with (gets (fun s => k_vdisk s)). mred.
  change (k_vdisk (k_set_vdisk _ _)) with (acked (k_vdisk s)).
  change (k_set_vdisk _ (locked LK_vdisk (irq false s)))
    with (k_set_vdisk (acked (k_vdisk (locked LK_vdisk (irq false s)))) (locked LK_vdisk (irq false s))).
  change (v_used_ring_idx (acked (k_vdisk s))) with (v_used_ring_idx (k_vdisk s)).
  change (v_used_idx (acked (k_vdisk s))) with (v_used_idx (k_vdisk s)). destruct (u16_step _ (fi_range _ _ Hf)) as (E1 & _ & _).
  rewrite (fi_one _ _ Hf), E1. change (Z.to_nat 1) with 1%nat.
  assert (Hsl : settled (locked LK_vdisk (irq false s))) by (apply settled_locked; [apply Hq|rewrite (id_depth _ Hq); lia]).
  rewrite (bind_ok _ _ _ _ _ (intr_loop_eq (locked LK_vdisk (irq false s)) b Hsl
    (fun i => lock_free_locked (LK_proc i) LK_vdisk (irq false s) ltac:(done) (Hfree _ _ (id_locks _ Hq)))
    (id_procs _ Hq) (eq_trans (cur_proc_locked _ _ (id_settled _ Hq)) (id_cur _ Hq)) Hf)).
  pose proof (idle_handled b _ Hq) as Hh. leave LK_vdisk; [apply Hh|apply Hfree, Hh].
Qed.

(** ** From one context switch to the next *)

Section Driver.
Context `{VD : VirtioDevice}.

(** scheduler() after the swtch() from [p]; the device; its interrupt, which the
    hart takes with interrupts off, and which the device raises when
    INTERRUPT_STATUS becomes nonzero, not while an earlier one is not
    acknowledged; scheduler() up to the swtch() to [p]. *)
Definition cycle (p : nat) : K unit :=
  upd_mycpu (c_set_proc None);;
  release (LK_proc p);;
  intr_on;;
  before <- gets (fun s => v_intr_status (k_vdisk s));;
  modify device;;
  after <- gets (fun s => v_intr_status (k_vdisk s));;
  intr_off;;
  (when (before =? 0) && negb (after =? 0) do virtio_disk_intr);;
  intr_on;;
  acquire (LK_proc p);;
  pr <- proc_at p;;
  if bool_decide (p_state pr = RUNNABLE) then
    upd_proc p (p_set_state RUNNING);;
    upd_mycpu (c_set_proc (Some p))
  else diverge.

(** What the device did, as a change of the state: the disk writes, the
    buffers and the rings. *)
Definition after_device (ws : list (Z * list Z)) (bs : list buf) (v : vdisk) (s : kstate) : kstate :=
  k_set_writes ws (k_set_bufs bs (k_set_vdisk v s)).

Definition asleep (p : nat) (ch : chan) (s : kstate) : kstate :=
  k_set_procs (alter (fun pr => p_set_state SLEEPING (p_set_chan ch pr)) p (k_procs s)) s.

Lemma idle_released p ch s : running p s -> idle (set_cur None (asleep p ch s)).
Proof.
  intros Hr. destruct (settled_set_cur None (asleep p ch s)) as (? & E & ?); [apply Hr|]. split; try done.
  - rewrite E. apply Hr.
  - cbn. rewrite length_alter. apply Hr.
  - apply Hr.
Qed.

(** The process table when [p] is about to run again. *)
Definition procs_back (p b : nat) (ps : list proc) : list proc :=
  alter (p_set_state RUNNING) p (imap (woken (CH_buf b) None)
    (alter (fun pr => p_set_state SLEEPING (p_set_chan (CH_buf b) pr)) p ps)).

Lemma procs_back_lookup p b ps pr :
  ps !! p = Some pr -> p_state pr = RUNNING -> procs_back p b ps !! p = Some (p_set_chan (CH_buf b) pr).
Proof.
  intros E Hst. unfold procs_back. rewrite list_lookup_alter_eq, list_lookup_imap, list_lookup_alter_eq, E. cbn.
  unfold woken. rewrite bool_decide_eq_false_2, !bool_decide_eq_true_2 by done. cbn [andb].
  by rewrite <- Hst.
Qed.

(** The switches of [c->proc], [intena] and sstatus cancel out. *)
Lemma resumed_eq p b s ws bs v :
  settled s -> depth s = 0 -> cur_proc s = Some p ->
  let sC := handled b (irq false (after_device ws bs v (set_cur None (asleep p (CH_buf b) s)))) in
  let s1 := k_set_procs (alter (p_set_state RUNNING) p (k_procs (locked (LK_proc p) (irq true sC)))) (locked (LK_proc p) (irq true sC)) in
  let s2 := k_set_cpus (alter (c_set_proc (Some p)) (cpu_ix s1) (k_cpus s1)) s1 in
  k_set_cpus (alter (c_set_intena (Z.b2z (intr s))) (cpu_ix s2) (k_cpus s2)) s2 =
  locked (LK_proc p) (k_set_procs (procs_back p b (k_procs s)) (after_device ws (alter (b_set_disk 0) b bs)
        (seen v) s)).
Proof.
  intros Hs Hd Hc sC s1 s2. pose proof (settled_ix _ Hs) as Hix. set (ix := cpu_ix s).
  assert (Hd' : depth (irq true sC) = 0).
  { destruct (settled_set_cur None (asleep p (CH_buf b) s) Hs) as (Hs1 & Hd1 & _). change (depth (asleep p (CH_buf b) s)) with (depth s) in Hd1.
    rewrite Hd in Hd1. destruct (settled_irq false (after_device ws bs v (set_cur None (asleep p (CH_buf b) s))) Hs1 Hd1) as (Hs2 & Hd2 & _).
    by destruct (settled_irq true sC Hs2 Hd2) as (_ & ? & _). }
  apply cpus_csr_ext; [| |reflexivity].
  - change (alter (c_set_intena (Z.b2z (intr s))) ix (alter (c_set_proc (Some p)) ix
        (k_cpus (locked (LK_proc p) (irq true sC)))) = k_cpus (locked (LK_proc p) s)).
    rewrite !cpus_locked by done. change (cpu_ix (irq true sC)) with ix. fold ix.
    change (k_cpus (irq true sC)) with (alter (c_set_intena 1) ix (alter (c_set_intena 0) ix (alter (c_set_proc None) ix (k_cpus s)))).
    rewrite !alter_alter. apply alter_ext. intros c Ec. rewrite (this_cpu_lookup s Hs : k_cpus s !! ix = _) in Ec. injection Ec as <-.
    unfold cur_proc in Hc. by rewrite <- Hc.
  - change (r_set_sstatus (Z.land (Z.lor (Z.land (r_sstatus (k_csr s)) (Z.lnot SSTATUS_SIE)) SSTATUS_SIE) (Z.lnot SSTATUS_SIE)) (k_csr s)
      = r_set_sstatus (Z.land (r_sstatus (k_csr s)) (Z.lnot SSTATUS_SIE)) (k_csr s)).
    rewrite clear_set. by rewrite <- Z.land_assoc, Z.land_diag.
Qed.

Lemma cycle_eq p b s ws bs v :
  running p s ->
  (forall s', k_vdisk s' = k_vdisk s -> k_bufs s' = k_bufs s -> k_writes s' = k_writes s -> k_blocks s' = k_blocks s ->
     device s' = after_device ws bs v s') ->
  finished v b -> v_intr_status (k_vdisk s) = 0 -> v_intr_status v = 1 ->
  exists s2, cycle p (blocked p (CH_buf b) s) = Ok tt s2 /\
    resumed p (Z.b2z (intr s)) s2
      (k_set_procs (procs_back p b (k_procs s)) (after_device ws (alter (b_set_disk 0) b bs)
        (seen v) s)).
Proof.
  intros Hr Hdev Hf Hq0 Hq1. set (ch := CH_buf b). unfold cycle.
  pose proof (rn_settled _ _ Hr) as Hs. pose proof (idle_released p ch s Hr) as Hi.
  unfold upd_mycpu at 1. mred.
  change (k_set_cpus _ (blocked p ch s)) with (set_cur None (locked (LK_proc p) (asleep p ch s))).
  rewrite (set_cur_locked None (LK_proc p) (asleep p ch s) Hs).
  assert (Hfree : forall lk s', k_locks s' = ∅ -> lock_free lk s') by (intros lk s' E; unfold lock_free; by rewrite E).
  set (sA := set_cur None (asleep p ch s)) in *.
  mrun (release_locked (LK_proc p) sA (id_settled _ Hi) (Hfree _ _ (id_locks _ Hi))).
  unfold intr_on at 1. mred. change (k_set_csr _ sA) with (sie true sA).
  rewrite (Hdev (sie true sA)) by done.
  unfold intr_off. mred.
  set (sB := after_device ws bs v sA).
  assert (EB : k_set_csr (r_set_sstatus (Z.land (r_sstatus (k_csr (after_device ws bs v (sie true sA)))) (Z.lnot SSTATUS_SIE))
     (k_csr (after_device ws bs v (sie true sA)))) (after_device ws bs v (sie true sA)) = sie false sB).
  { unfold sB, after_device, sie. cbn. by rewrite clear_set. }
  rewrite EB. change (v_intr_status (k_vdisk (sie true sA))) with (v_intr_status (k_vdisk s)).
  change (v_intr_status (k_vdisk (after_device ws bs v (sie true sA)))) with (v_intr_status v).
  rewrite Hq0, Hq1. cbn [Z.eqb negb andb]. assert (HB : idle sB) by by destruct Hi.
  mrun (disk_intr_eq sB b HB Hf). pose proof (idle_handled b _ (idle_irq false sB HB)) as HC.
  set (sC := handled b (irq false sB)) in *. unfold intr_on. mred. change (k_set_csr _ sC) with (sie true sC).
  mrun (acquire_eq (LK_proc p) (sie true sC) (Hfree _ _ (id_locks _ HC))).
  rewrite (locked_sie (LK_proc p) true sC (id_settled _ HC) (id_depth _ HC)).
  unfold proc_at. mred. change (k_procs (locked (LK_proc p) (irq true sC))) with
    (imap (woken ch None) (alter (fun pr => p_set_state SLEEPING (p_set_chan ch pr)) p (k_procs s))).
  destruct (lookup_lt_is_Some_2 (k_procs s) p) as [pr Hp]; [rewrite (rn_procs _ _ Hr); apply Hr|].
  rewrite bool_decide_eq_true_2.
  2: { erewrite list_lookup_total_correct; [|rewrite list_lookup_imap, list_lookup_alter_eq, Hp; reflexivity].
       unfold woken. by rewrite bool_decide_eq_false_2, !bool_decide_eq_true_2 by done. }
  unfold upd_proc, upd_mycpu. mred. eexists. split; [reflexivity|].
  split_and!; [apply Hr|apply Hr|apply Hr|apply Hfree, Hr|].
  apply resumed_eq; [done|apply Hr|apply Hr].
Qed.

(** ** Giving the descriptors back *)

Definition null_desc (i : nat) (v : vdisk) : vdisk :=
  v_set_free (<[i := 1]> (v_free v)) (v_set_desc (<[i := mkDesc DA_null 0 0 0]> (v_desc v)) v).

Definition freed (me : option nat) (i : nat) (s : kstate) : kstate :=
  k_set_procs (imap (woken CH_disk_free me) (k_procs s)) (k_set_vdisk (null_desc i (k_vdisk s)) s).

Record may_wake (s : kstate) : Prop := {
  mw_settled : settled s;
  mw_locks : proc_locks_free s;
  mw_procs : length (k_procs s) = NPROC
}.

Lemma free_desc_eq i s :
  may_wake s -> (i < 8)%nat -> v_free (k_vdisk s) !!! i = 0 ->
  free_desc (Z.of_nat i) s = Ok tt (freed (cur_proc s) i s) /\ may_wake (freed (cur_proc s) i s).
Proof.
  intros [Hs Hl Hn] Hi Hf. split; [|split; try done; cbn; by rewrite length_imap]. unfold free_desc.
  replace (NUM <=? Z.of_nat i) with false by (symmetry; apply Z.leb_gt; unfold NUM; lia).
  change (gets k_vdisk) with (gets (fun s => k_vdisk s)). mred. rewrite Nat2Z.id, Hf. unfold upd_vd. cbn [c_true Z.eqb negb]. mred.
  set (s1 := k_set_vdisk _ _). by rewrite (wakeup_eq CH_disk_free s1 Hs Hl Hn).
Qed.

Lemma free_chain_eq s d0 d1 d2 :
  may_wake s -> v_free (k_vdisk s) = [0; 0; 0; 1; 1; 1; 1; 1] ->
  v_desc (k_vdisk s) !!! 0%nat = mkDesc d0 16 VRING_DESC_F_NEXT 1 ->
  (exists f, v_desc (k_vdisk s) !!! 1%nat = mkDesc d1 BSIZE (Z.lor f VRING_DESC_F_NEXT) 2 /\ (f = 0 \/ f = VRING_DESC_F_WRITE)) ->
  v_desc (k_vdisk s) !!! 2%nat = mkDesc d2 1 VRING_DESC_F_WRITE 0 ->
  let me := cur_proc s in free_chain 0 s = Ok tt (freed me 2 (freed me 1 (freed me 0 s))).
Proof.
  intros Hw Hf H0 (f & H1 & Hfl) H2 me. unfold free_chain, free_chain_loop.
  destruct (free_desc_eq 0 s Hw) as [E0 Hw0]; [lia|by rewrite Hf|].
  mred. change (Z.to_nat 0) with 0%nat. rewrite H0. mrun E0. cbn [d_flags d_next].
  change (bit_set VRING_DESC_F_NEXT VRING_DESC_F_NEXT) with true. fold me in Hw0. fold me.
  destruct (free_desc_eq 1 (freed me 0 s) Hw0) as [E1 Hw1]; [lia|cbn; by rewrite Hf|].
  mred. change (Z.to_nat 1) with 1%nat.
  replace (v_desc (k_vdisk (freed me 0 s)) !!! 1%nat) with (v_desc (k_vdisk s) !!! 1%nat)
    by (cbn; by rewrite list_lookup_total_insert_ne by done).
  rewrite H1. mrun E1. cbn [d_flags d_next].
  replace (bit_set (Z.lor f VRING_DESC_F_NEXT) VRING_DESC_F_NEXT) with true by (by destruct Hfl as [-> | ->]).
  change (cur_proc (freed me 0 s)) with me in *.
  destruct (free_desc_eq 2 (freed me 1 (freed me 0 s)) Hw1) as [E2 Hw2]; [lia|cbn; by rewrite Hf|].
  mred. change (Z.to_nat 2) with 2%nat.
  replace (v_desc (k_vdisk (freed me 1 (freed me 0 s))) !!! 2%nat) with (v_desc (k_vdisk s) !!! 2%nat)
    by (cbn; by rewrite !list_lookup_total_insert_ne by done).
  rewrite H2. mrun E2. done.
Qed.

(** ** A whole request *)

(** A computation of process [p] that waits once, run with the scheduler, the
    device and the interrupt handler. *)
Definition drive (p : nat) (r : res kstate unit) : res kstate unit :=
  match r with
  | Swtch s k =>
      match cycle p s with
      | Ok _ s' => k s'
      | Panic m s' => Panic m s'
      | Swtch _ _ | Diverge => Diverge
      end
  | r => r
  end.

Definition rest_vd (v : vdisk) : vdisk :=
  null_desc 2 (null_desc 1 (null_desc 0 (v_set_info_b (<[0%nat := None]> (v_info_b v))
    (seen v)))).

Definition rest_procs (p b : nat) (ps : list proc) : list proc :=
  let w := imap (woken CH_disk_free (Some p)) in w (w (w (alter (p_set_chan CH_null) p (procs_back p b ps)))).

Lemma back_rel p b s : running p s -> procs_rel p (k_procs s) (alter (p_set_chan CH_null) p (procs_back p b (k_procs s))).
Proof.
  intros Hr. destruct (lookup_lt_is_Some_2 (k_procs s) p) as [pr Hp]; [rewrite (rn_procs _ _ Hr); apply Hr|].
  destruct (rn_state _ _ Hr) as [Hst Hch]. rewrite (list_lookup_total_correct _ _ _ Hp) in Hst, Hch. split.
  - rewrite length_alter. unfold procs_back. by rewrite length_alter, length_imap, length_alter.
  - rewrite list_lookup_alter_eq, (procs_back_lookup p b _ pr Hp Hst), Hp. cbn. f_equal.
    change (p_set_chan CH_null pr = pr). by rewrite <- Hch.
Qed.

Lemma rest_procs_rel p b s : running p s -> procs_rel p (k_procs s) (rest_procs p b (k_procs s)).
Proof.
  intros Hr. assert (Hw : forall ps, imap (woken CH_disk_free (Some p)) ps !! p = ps !! p).
  { intros ps. rewrite list_lookup_imap. destruct (ps !! p) as [x|]; [|done]. cbn. unfold woken. by rewrite bool_decide_eq_true_2. }
  destruct (back_rel p b s Hr) as [Hl Hp]. unfold rest_procs. split; [by rewrite !length_imap|by rewrite !Hw].
Qed.

(** After the process was resumed. *)
Lemma rw_finish p b n s v :
  running p s -> k_vdisk s = seen v ->
  b_disk (k_bufs s !!! b) = 0 ->
  v_free v = [0; 0; 0; 1; 1; 1; 1; 1] ->
  (exists d0 d1 d2 f, v_desc v !!! 0%nat = mkDesc d0 16 VRING_DESC_F_NEXT 1 /\
    v_desc v !!! 1%nat = mkDesc d1 BSIZE (Z.lor f VRING_DESC_F_NEXT) 2 /\ (f = 0 \/ f = VRING_DESC_F_WRITE) /\
    v_desc v !!! 2%nat = mkDesc d2 1 VRING_DESC_F_WRITE 0) ->
  let w := imap (woken CH_disk_free (Some p)) in
  (virtio_done_wait n b;; upd_vd (fun v => v_set_info_b (<[Z.to_nat 0 := None]> (v_info_b v)) v);; free_chain 0;; release LK_vdisk)
    (locked LK_vdisk s) = Ok tt (k_set_procs (w (w (w (k_procs s)))) (k_set_vdisk (rest_vd v) s)).
Proof.
  intros Hr Ev Hd Hf (d0 & d1 & d2 & f & H0 & H1 & Hfl & H2) w. pose proof (rn_settled _ _ Hr) as Hs.
  assert (Hwait : virtio_done_wait n b (locked LK_vdisk s) = Ok tt (locked LK_vdisk s)).
  { destruct n; unfold virtio_done_wait; mred; change (k_bufs (locked LK_vdisk s)) with (k_bufs s); by rewrite Hd. }
  mrun Hwait. unfold upd_vd. mred. change (Z.to_nat 0) with 0%nat. change (k_vdisk (locked LK_vdisk s)) with (k_vdisk s). rewrite Ev.
  set (s1 := k_set_vdisk _ (locked LK_vdisk s)).
  assert (Hw : may_wake s1).
  { split; [apply (settled_locked LK_vdisk s); [done|rewrite (rn_depth _ _ Hr); lia]| |apply (rn_procs _ _ Hr)].
    intros i. apply (lock_free_locked (LK_proc i) LK_vdisk s); [done|]. by apply running_free with p. }
  assert (Hme : cur_proc s1 = Some p).
  { change (cur_proc (locked LK_vdisk s) = Some p). rewrite cur_proc_locked by done. apply Hr. }
  mrun (free_chain_eq s1 d0 d1 d2 Hw Hf H0 (ex_intro _ f (conj H1 Hfl)) H2). rewrite Hme.
  leave LK_vdisk; [exact Hs|]. by apply (running_free _ _ LK_vdisk Hr).
Qed.

Lemma rw_drive p s b write ws bs :
  running p s -> driver_ok (k_vdisk s) -> (b < NBUF)%nat -> length (k_bufs s) = S NBUF ->
  transferable (k_bufs s !!! b) -> length bs = S NBUF ->
  let s1 := submit_state b write (b_blockno (k_bufs s !!! b)) s in
  let v := completed 0 (k_vdisk s1) in
  (forall s', k_vdisk s' = k_vdisk s1 -> k_bufs s' = k_bufs s1 -> k_writes s' = k_writes s1 -> k_blocks s' = k_blocks s1 ->
     device s' = after_device ws bs v s') ->
  drive p (virtio_disk_rw_c b write s) =
    Ok tt (k_set_procs (rest_procs p b (k_procs s)) (after_device ws (alter (b_set_disk 0) b bs) (rest_vd v) s)).
Proof.
  intros Hr Hv Hb Hlen Ht Hbs s1 v Hdev. unfold virtio_disk_rw_c.
  mrun (submit_eq p s b write Hr Hv Ht). fold s1.
  assert (Hr1 : running p s1) by by destruct Hr.
  destruct (sleep_eq (CH_buf b) LK_vdisk p s1) as (k & Ek & Hk); try apply Hr1; try done.
  { rewrite (rn_procs _ _ Hr1). apply Hr1. } { apply (running_free _ _ LK_vdisk Hr1). } { apply (running_free _ _ _ Hr1). }
  assert (Hwait : virtio_done_wait patience b (locked LK_vdisk s1) =
    (sleep (CH_buf b) LK_vdisk;; virtio_done_wait 99 b) (locked LK_vdisk s1)).
  { change (virtio_done_wait patience b) with (d <- gets (fun s => b_disk (k_bufs s !!! b));;
      if d =? 1 then sleep (CH_buf b) LK_vdisk;; virtio_done_wait 99 b else ret tt). mred.
    change (k_bufs (locked LK_vdisk s1)) with (alter (b_set_disk 1) b (k_bufs s)). rewrite lookup_total_alter by lia. done. }
  unfold bind at 1. rewrite Hwait. unfold bind at 1. rewrite Ek. cbn [rbind drive].
  destruct (cycle_eq p b s1 ws bs v Hr1 Hdev) as (s2 & E2 & Hres).
  { by apply completed_finished. } { apply Hv. } { cbn. by rewrite (dv_quiet _ Hv). }
  rewrite E2. rewrite (Hk s2 _ Hres) by apply (running_free _ _ LK_vdisk Hr1).
  set (s5 := k_set_procs _ (k_set_procs _ _)).
  assert (Hr5 : running p s5).
  { apply (running_set_procs p _ (after_device ws (alter (b_set_disk 0) b bs) (seen v) s1));
      [by destruct Hr1|]. exact (back_rel p b s1 Hr1). }
  pose proof (submitted_pending b write (b_blockno (k_bufs s !!! b)) _ Hv) as [_ _ _ _ _ P0 P1 P2].
  apply (rw_finish p b 99 s5 v Hr5 eq_refl).
  - change (b_disk (alter (b_set_disk 0) b bs !!! b) = 0). by rewrite lookup_total_alter by lia.
  - done.
  - eexists _, _, _, _. split; [exact P0|]. split; [exact P1|]. split; [destruct write; auto|exact P2].
Qed.

Lemma rest_vd_ok b write blk v : driver_ok v -> driver_ok (rest_vd (completed 0 (submitted b write (2 * blk) v))).
Proof.
  intros [Hd Ha Hu Hi Hs Ho Hf Hr Hse Hsn Hq]. destruct (u16_step _ Hr) as (_ & _ & Hr'). split; cbn.
  - by rewrite !length_insert.
  - by rewrite length_insert.
  - by rewrite length_insert.
  - by rewrite !length_insert.
  - by rewrite !length_insert.
  - by rewrite length_insert.
  - done.
  - done.
  - by rewrite Hse.
  - by rewrite Hsn.
  - by rewrite Hq.
Qed.

(** virtio_disk_rw() as its caller sees it. *)
Definition driver_rw (b : nat) (write : bool) : K unit := fun s =>
  match cur_proc s with Some p => drive p (virtio_disk_rw_c b write s) | None => Diverge end.

Lemma alter_disk_back (l : list buf) (b : nat) (f : buf -> buf) :
  (b < length l)%nat -> b_disk (l !!! b) = 0 -> (forall x, b_set_disk 0 (f (b_set_disk 1 x)) = f (b_set_disk 0 x)) ->
  alter (b_set_disk 0) b (alter f b (alter (b_set_disk 1) b l)) = alter f b l.
Proof.
  intros Hb Hd Hf. rewrite !alter_alter. apply alter_ext. intros x Hx. rewrite Hf. f_equal.
  apply list_lookup_total_correct in Hx. rewrite Hx in Hd. by rewrite <- Hd.
Qed.

Lemma driver_reads p s b d :
  running p s -> driver_ok (k_vdisk s) -> (b < NBUF)%nat -> length (k_bufs s) = S NBUF ->
  transferable (k_bufs s !!! b) -> disk s !! b_blockno (k_bufs s !!! b) = Some d ->
  exists v ps, driver_ok v /\ procs_rel p (k_procs s) ps /\
    driver_rw b false s = Ok tt (k_set_procs ps (k_set_vdisk v (k_set_bufs (alter (b_set_data d) b (k_bufs s)) s))).
Proof.
  intros Hr Hv Hb Hlen Ht Hd. set (blk := b_blockno (k_bufs s !!! b)) in *.
  exists (rest_vd (completed 0 (submitted b false (2 * blk) (k_vdisk s)))), (rest_procs p b (k_procs s)).
  split; [by apply rest_vd_ok|]. split; [by apply rest_procs_rel|].
  unfold driver_rw. rewrite (rn_cur _ _ Hr).
  rewrite (rw_drive p s b false (k_writes s) (alter (b_set_data d) b (alter (b_set_disk 1) b (k_bufs s)))); try done.
  - unfold after_device. rewrite alter_disk_back; [done|lia|apply Ht|done].
  - by rewrite !length_alter.
  - intros s' Ev Eb Ew Ek. rewrite (device_reads s' 0 1 2 b blk d).
    + unfold after_device. rewrite Ev, Eb. change (k_writes (submit_state b false _ s)) with (k_writes s) in Ew. by rewrite <- Ew.
    + rewrite Ev. by apply submitted_pending.
    + unfold disk. rewrite Ew, Ek. exact Hd.
Qed.

Lemma driver_writes p s b :
  running p s -> driver_ok (k_vdisk s) -> (b < NBUF)%nat -> length (k_bufs s) = S NBUF ->
  transferable (k_bufs s !!! b) ->
  exists v ps, driver_ok v /\ procs_rel p (k_procs s) ps /\
    driver_rw b true s = Ok tt (k_set_procs ps (k_set_vdisk v
      (k_set_writes ((b_blockno (k_bufs s !!! b), b_data (k_bufs s !!! b)) :: k_writes s) s))).
Proof.
  intros Hr Hv Hb Hlen Ht. set (blk := b_blockno (k_bufs s !!! b)) in *.
  exists (rest_vd (completed 0 (submitted b true (2 * blk) (k_vdisk s)))), (rest_procs p b (k_procs s)).
  split; [by apply rest_vd_ok|]. split; [by apply rest_procs_rel|].
  unfold driver_rw. rewrite (rn_cur _ _ Hr).
  rewrite (rw_drive p s b true ((blk, b_data (k_bufs s !!! b)) :: k_writes s) (alter (b_set_disk 1) b (k_bufs s))); try done.
  - unfold after_device. rewrite <- (alter_const (fun x => x) b (alter (b_set_disk 1) b (k_bufs s))) at 1 by done.
    rewrite (alter_disk_back _ _ (fun x => x)); [|lia|apply Ht|done]. by rewrite alter_const by done.
  - by rewrite length_alter.
  - intros s' Ev Eb Ew Ek. rewrite (device_writes s' 0 1 2 b blk).
    + change (k_bufs (submit_state b true _ s)) with (alter (b_set_disk 1) b (k_bufs s)) in Eb.
      assert (Ed : b_data (k_bufs s' !!! b) = b_data (k_bufs s !!! b)) by (rewrite Eb, lookup_total_alter by lia; done).
      unfold after_device. rewrite Ev, Ew, Ed, <- Eb. done.
    + rewrite Ev. by apply submitted_pending.
Qed.

#[export] Instance virtio_disk : BlockDev :=
  {| virtio_disk_rw := driver_rw; dev_ok := driver_ok; rw_read := driver_reads; rw_write := driver_writes |}.

(** C11: virtio_disk_rw() keeps the promise the buffer cache is built on. The
    driver being at rest (all descriptors free, both rings drained, no interrupt
    unacknowledged), a request for a buffer the process owns allocates a chain of
    three descriptors, queues it, notifies the device, and sleeps; with the
    device serving a queue it was notified of, the interrupt handler waking the
    process and the scheduler running it again, the call returns with the block
    read into the buffer, or its data appended to the writes that reached the
    disk; the driver is at rest again, so that the next request will be
    interrupted for, and the process, its locks and its interrupt state are as
    before. *)
Theorem virtio_disk_rw_transfers p s b :
  running p s -> driver_ok (k_vdisk s) -> (b < NBUF)%nat -> length (k_bufs s) = S NBUF ->
  transferable (k_bufs s !!! b) ->
  (forall d, disk s !! b_blockno (k_bufs s !!! b) = Some d ->
    exists v ps, driver_ok v /\ procs_rel p (k_procs s) ps /\
      drive p (virtio_disk_rw_c b false s) =
        Ok tt (k_set_procs ps (k_set_vdisk v (k_set_bufs (alter (b_set_data d) b (k_bufs s)) s)))) /\
  exists v ps, driver_ok v /\ procs_rel p (k_procs s) ps /\
    drive p (virtio_disk_rw_c b true s) = Ok tt (k_set_procs ps (k_set_vdisk v
      (k_set_writes ((b_blockno (k_bufs s !!! b), b_data (k_bufs s !!! b)) :: k_writes s) s))).
Proof.
  intros Hr Hv Hb Hl Ht. split.
  - intros d Hd. destruct (driver_reads p s b d Hr Hv Hb Hl Ht Hd) as (v & ps & H1 & H2 & E). unfold driver_rw in E.
    rewrite (rn_cur _ _ Hr) in E. by exists v, ps.
  - destruct (driver_writes p s b Hr Hv Hb Hl Ht) as (v & ps & H1 & H2 & E). unfold driver_rw in E.
    rewrite (rn_cur _ _ Hr) in E. by exists v, ps.
Qed.

End Driver.

(** ** A device *)

Module Qemu.

(** The newest chain of the available ring, interpreted once the driver has
    notified the device. *)
Definition serve (s : kstate) : kstate :=
  let v := k_vdisk s in
  let i0 := v_avail_ring v !!! Z.to_nat (v_used_ring_idx v mod NUM) in
  let d0 := v_desc v !!! Z.to_nat i0 in
  let '(type, _, sector) := v_ops v !!! Z.to_nat i0 in
  if bool_decide (v_notify v = None) then s else
  match d_addr (v_desc v !!! Z.to_nat (d_next d0)) with
  | DA_data b =>
      if type =? VIRTIO_BLK_T_OUT
      then k_set_writes ((sector / 2, b_data (k_bufs s !!! b)) :: k_writes s) (k_set_vdisk (completed i0 v) s)
      else k_set_bufs (alter (b_set_data (disk s !!! (sector / 2))) b (k_bufs s)) (k_set_vdisk (completed i0 v) s)
  | _ => s
  end.

Lemma half_sector blk : 2 * blk / 2 = blk.
Proof. rewrite Z.mul_comm. by apply Z.div_mul. Qed.

Lemma serve_reads s i0 i1 i2 b blk d :
  pending (k_vdisk s) i0 i1 i2 b false blk -> disk s !! blk = Some d ->
  serve s = k_set_bufs (alter (b_set_data d) b (k_bufs s)) (k_set_vdisk (completed i0 (k_vdisk s)) s).
Proof.
  intros [Hn _ _ Hr Ho H0 H1 _] Hd. unfold serve. rewrite Hr, Ho, H0, Hn. cbn [d_next].
  rewrite bool_decide_eq_false_2 by done. rewrite H1. cbn [d_addr].
  rewrite half_sector, (lookup_total_correct _ _ _ Hd). done.
Qed.

Lemma serve_writes s i0 i1 i2 b blk :
  pending (k_vdisk s) i0 i1 i2 b true blk ->
  serve s = k_set_writes ((blk, b_data (k_bufs s !!! b)) :: k_writes s) (k_set_vdisk (completed i0 (k_vdisk s)) s).
Proof.
  intros [Hn _ _ Hr Ho H0 H1 _]. unfold serve. rewrite Hr, Ho, H0, Hn. cbn [d_next].
  rewrite bool_decide_eq_false_2 by done. rewrite H1. cbn [d_addr].
  rewrite half_sector. done.
Qed.

#[export] Instance qemu : VirtioDevice :=
  {| device := serve; device_reads := serve_reads; device_writes := serve_writes |}.

(** The driver initialised. *)
Definition ready (d : gmap Z (list Z)) : kstate :=
  let s := RamDisk.machine d in k_set_vdisk (v_set_free (replicate 8 1) (k_vdisk s)) s.

Lemma ready_ok d : driver_ok (k_vdisk (ready d)).
Proof. split; try reflexivity. cbn. lia. Qed.

Lemma virtio_disk_rw_transfers_witness : exists v ps, driver_ok v /\
  drive 3 (virtio_disk_rw_c 2 false (ready (RamDisk.zeros 50))) =
    Ok tt (k_set_procs ps (k_set_vdisk v (k_set_bufs
      (alter (b_set_data (replicate 1024 0)) 2%nat (k_bufs (ready (RamDisk.zeros 50)))) (ready (RamDisk.zeros 50))))).
Proof.
  destruct (virtio_disk_rw_transfers 3 (ready (RamDisk.zeros 50)) 2) as [Hread _].
  - by destruct (RamDisk.machine_running (RamDisk.zeros 50)).
  - apply ready_ok.
  - apply Nat.ltb_lt. reflexivity.
  - reflexivity.
  - split; [|reflexivity]. change (0 <= 0 < 2 ^ 31). lia.
  - destruct (Hread (replicate 1024 0)) as (v & ps & Hv & _ & E).
    + change (RamDisk.zeros 50 !! 0 = Some (replicate 1024 0)). apply RamDisk.zeros_lookup. lia.
    + exists v, ps. split; [exact Hv|exact E].
Defined.

End Qemu.
