(* ===== verification/Log.v ===== *)
(** log.c: the redo log. *)

From S2P Require Import Prelude Riscv State Spinlock Sched Sleeplock Bio.

(** Byte layout of [struct logheader] in a block: n at 0, block[i] at 4 + 4i. *)
Definition lh_n (d : list Z) : Z := s32 (get_le 4 d 0).
Definition lh_block (d : list Z) (i : Z) : Z := s32 (get_le 4 d (Z.to_nat (4 + 4 * i))).
Definition set_lh_n (d : list Z) (n : Z) : list Z := put_le 4 d 0 n.
Definition set_lh_block (d : list Z) (i v : Z) : list Z := put_le 4 d (Z.to_nat (4 + 4 * i)) v.

Definition upd_log (f : logst -> logst) : K unit := modify (fun s => k_set_log (f (k_log s)) s).

Section Log.
Context `{D : BlockDev}.

Definition set_data (b : nat) (d : list Z) : K unit := upd_buf b (b_set_data d).

(** log.lh.n does not change during the loops over the log: no one else runs
    commit() or log_write() meanwhile. *)
Definition install_trans (recovering : Z) : K unit :=
  l <- gets k_log;;
  for_each (seqZ 0 (l_n l)) (fun tail =>
    lbuf <- bread (l_dev l) (u32 (l_start l + tail + 1));;
    dbuf <- bread (l_dev l) (u32 (l_block l !!! Z.to_nat tail));;
    lb <- buf_at lbuf;;
    set_data dbuf (b_data lb);;
    bwrite dbuf;;
    (when recovering =? 0 do bunpin dbuf);;
    brelse lbuf;;
    brelse dbuf).

Definition read_head : K unit :=
  l <- gets k_log;;
  b <- bread (l_dev l) (u32 (l_start l));;
  bf <- buf_at b;;
  let n := lh_n (b_data bf) in
  upd_log (l_set_n n);;
  if LOGSIZE <? n then undefined else
  for_each (seqZ 0 n) (fun i =>
    upd_log (fun l => l_set_block (<[Z.to_nat i := lh_block (b_data bf) i]> (l_block l)) l));;
  brelse b.

Definition write_head : K unit :=
  l <- gets k_log;;
  b <- bread (l_dev l) (u32 (l_start l));;
  upd_buf b (fun bf => b_set_data (set_lh_n (b_data bf) (l_n l)) bf);;
  for_each (seqZ 0 (l_n l)) (fun i =>
    upd_buf b (fun bf => b_set_data (set_lh_block (b_data bf) i (l_block l !!! Z.to_nat i)) bf));;
  bwrite b;;
  brelse b.

Definition recover_from_log : K unit :=
  read_head;;
  install_trans 1;;
  upd_log (l_set_n 0);;
  write_head.

(** sizeof(struct logheader) is 4 * (1 + LOGSIZE), less than BSIZE. *)
Definition initlog (dev : Z) (sb : superblock) : K unit :=
  if 1024 <=? 4 * (1 + LOGSIZE) then panic "initlog: too big logheader" else
  initlock LK_log;;
  upd_log (l_set_start (s32 (sb_logstart sb)));;
  upd_log (l_set_size (s32 (sb_nlog sb)));;
  upd_log (l_set_dev dev);;
  recover_from_log.

Fixpoint begin_op_loop (n : nat) : K unit :=
  l <- gets k_log;;
  if c_true (l_committing l) || (LOGSIZE <? l_n l + (l_outstanding l + 1) * MAXOPBLOCKS) then
    match n with
    | O => diverge
    | S n => sleep CH_log LK_log;; begin_op_loop n
    end
  else
    upd_log (l_set_outstanding (l_outstanding l + 1));;
    release LK_log.

Definition begin_op : K unit :=
  acquire LK_log;;
  begin_op_loop patience.

Definition write_log : K unit :=
  l <- gets k_log;;
  for_each (seqZ 0 (l_n l)) (fun tail =>
    to <- bread (l_dev l) (u32 (l_start l + tail + 1));;
    from <- bread (l_dev l) (u32 (l_block l !!! Z.to_nat tail));;
    fb <- buf_at from;;
    set_data to (b_data fb);;
    bwrite to;;
    brelse from;;
    brelse to).

Definition commit : K unit :=
  l <- gets k_log;;
  when 0 <? l_n l do
    (write_log;;
     write_head;;
     install_trans 0;;
     upd_log (l_set_n 0);;
     write_head).

Definition end_op : K unit :=
  acquire LK_log;;
  upd_log (fun l => l_set_outstanding (l_outstanding l - 1) l);;
  l <- gets k_log;;
  if c_true (l_committing l) then panic "log.committing" else
  do_commit <- (if l_outstanding l =? 0
                then upd_log (l_set_committing 1);; ret true
                else wakeup CH_log;; ret false);;
  release LK_log;;
  when (do_commit : bool) do
    (commit;;
     acquire LK_log;;
     upd_log (l_set_committing 0);;
     wakeup CH_log;;
     release LK_log).

(** The index at which [blockno] sits in lh.block, lh.n when it does not. *)
Fixpoint log_find (bs : list Z) (blockno : Z) (i : nat) : nat :=
  match bs with
  | [] => i
  | x :: bs => if u32 x =? blockno then i else log_find bs blockno (S i)
  end.

Definition log_write (b : nat) : K unit :=
  acquire LK_log;;
  l <- gets k_log;;
  if (LOGSIZE <=? l_n l) || (l_size l - 1 <=? l_n l) then panic "too big a transaction" else
  if l_outstanding l <? 1 then panic "log_write outside of trans" else
  bf <- buf_at b;;
  let i := log_find (take (Z.to_nat (l_n l)) (l_block l)) (b_blockno bf) 0 in
  upd_log (fun l => l_set_block (<[i := s32 (b_blockno bf)]> (l_block l)) l);;
  (when Z.of_nat i =? l_n l do
     (bpin b;;
      upd_log (fun l => l_set_n (l_n l + 1) l)));;
  release LK_log.

End Log.
