(* ===== verification/LogSpec.v ===== *)
(** Crash safety of the log.

    The disk a crash leaves is the replay of the writes issued before it. The
    theorems say which writes commit() issues and what recovery makes of every
    prefix of them: the blocks outside the log are all as before the
    transaction, or all as the transaction made them. *)

From S2P Require Import Prelude Riscv State Spinlock Sched Sleeplock Bio BioSpec Log.

(** [gets k_log] with the projection applied. *)
Ltac mlog := change (gets k_log) with (gets (fun s => k_log s)); mred.

(** ** Replaying writes *)

Lemma replay_app ws1 ws2 d : replay (ws1 ++ ws2) d = replay ws1 (replay ws2 d).
Proof. apply foldr_app. Qed.

Lemma replay_ne ws d blk : blk ∉ ws.*1 -> replay ws d !! blk = d !! blk.
Proof.
  induction ws as [|[b x] ws IH]; [done|]. rewrite fmap_cons, not_elem_of_cons. intros [Hne Hni].
  cbn. rewrite lookup_insert_ne by done. by apply IH.
Qed.

Lemma replay_in ws d blk x : NoDup ws.*1 -> (blk, x) ∈ ws -> replay ws d !! blk = Some x.
Proof.
  induction ws as [|[b y] ws IH]; [by intros _ ?%not_elem_of_nil|].
  rewrite fmap_cons, NoDup_cons. intros [Hni Hnd] [[= -> ->]|Hin]%elem_of_cons; cbn.
  - by rewrite lookup_insert_eq.
  - assert (b <> blk). { intros ->. apply Hni. by apply (list_elem_of_fmap_2 fst _ (blk, x)). }
    rewrite lookup_insert_ne by done. by apply IH.
Qed.

Lemma fmap_rev {A B} (f : A -> B) l : f <$> rev l = rev (f <$> l).
Proof. apply map_rev. Qed.

(** Writes in the order they are issued. *)
Definition apply_writes (ws : list (Z * list Z)) (d : gmap Z (list Z)) : gmap Z (list Z) := replay (rev ws) d.

Lemma apply_writes_snoc ws w d : apply_writes (ws ++ [w]) d = <[w.1 := w.2]> (apply_writes ws d).
Proof. unfold apply_writes. by rewrite rev_unit. Qed.

Lemma apply_writes_app ws1 ws2 d : apply_writes (ws1 ++ ws2) d = apply_writes ws2 (apply_writes ws1 d).
Proof. unfold apply_writes. by rewrite rev_app_distr, replay_app. Qed.

Lemma apply_writes_ne ws d blk : blk ∉ ws.*1 -> apply_writes ws d !! blk = d !! blk.
Proof.
  intros H. apply replay_ne. intros Hin. apply H. revert Hin. by rewrite fmap_rev, elem_of_rev.
Qed.

Lemma apply_writes_in ws d blk x : NoDup ws.*1 -> (blk, x) ∈ ws -> apply_writes ws d !! blk = Some x.
Proof.
  intros Hnd Hin. apply replay_in; [|by apply elem_of_rev]. rewrite fmap_rev. by apply nodup_rev.
Qed.

Section LogSpec.
Context `{D : BlockDev}.

(** The body of write_log()'s loop: block [from], pinned, goes to the log
    block [to]. *)
Lemma log_copy p s R V to from d :
  cache p s R ∅ V -> R !! from = Some 1 -> R !! to = None -> (size R < NBUF)%nat ->
  V !! from = Some d -> is_Some (V !! to) ->
  exists s', (to <- bread ROOTDEV to;; from <- bread ROOTDEV from;; fb <- buf_at from;;
      set_data to (b_data fb);; bwrite to;; brelse from;; brelse to) s = Ok tt s' /\
    fs_step p s s' /\ k_writes s' = (to, d) :: k_writes s /\ cache p s' R ∅ (<[to := d]> V).
Proof.
  intros C Hf Ht Hsz Hd [dt Hdt]. assert (Hne : to <> from) by congruence.
  assert (Hp0 : forall b n, R !! b = Some n -> 0 < n) by (intros b n E; by destruct (ca_pinned _ _ _ _ _ C b n E)).
  destruct (bread_spec p s R ∅ V to dt C) as (bt & s1 & E1 & F1 & W1 & Hbt & C1 & K1); try done.
  { by rewrite (refs_none _ _ Ht). } { by right. }
  mrun E1. rewrite union_empty_r_L in C1. set (R1 := <[to := _]> R) in *.
  assert (Hf1 : R1 !! from = Some 1) by (unfold R1; by rewrite lookup_insert_ne).
  destruct (bread_spec p s1 R1 {[to]} V from d C1) as (bfr & s2 & E2 & F2 & W2 & Hbf & C2 & K2); try done.
  { set_solver. } { by rewrite (refs_some _ _ _ Hf1). } { left. by eexists. }
  mrun E2. unfold buf_at. mred.
  assert (Ed : b_data (bf s2 bfr) = d).
  { destruct (ca_data _ _ _ _ _ C2 bfr from Hbf) as [_ E]. congruence. }
  rewrite Ed. set (R2 := <[from := _]> R1) in *.
  assert (Ht1 : R1 !! to = Some 1) by (unfold R1; by rewrite (refs_none _ _ Ht), lookup_insert_eq).
  assert (Hbt2 : buf_of s2 bt to) by (apply K2; [by eexists|done]).
  destruct (upd_data_spec p s2 R2 _ V bt to (fun _ => d) C2 Hbt2) as (E3 & F3 & C3 & K3); [set_solver|].
  change (set_data bt d) with (upd_buf bt (fun x => b_set_data d x)). mrun E3.
  set (s3 := k_set_bufs _ s2) in *.
  assert (Ed3 : b_data (bf s3 bt) = d).
  { destruct (ca_data _ _ _ _ _ C3 bt to) as [_ E]; [by apply K3|]. rewrite lookup_insert_eq in E. by injection E. }
  destruct (bwrite_spec p s3 _ _ _ bt to C3) as (s4 & E4 & F4 & B4 & W4 & C4); [by apply K3|set_solver|].
  mrun E4. rewrite Ed3 in W4.
  assert (K4 : forall b blk, buf_of s2 b blk -> buf_of s4 b blk).
  { intros b blk Hb. apply K3 in Hb. unfold buf_of in *. by rewrite B4. }
  destruct (brelse_spec p s4 _ _ _ bfr from 2 C4) as (s5 & E5 & F5 & W5 & C5 & K5).
  { by apply K4. } { set_solver. } { unfold R2. rewrite (refs_some _ _ _ Hf1). by rewrite lookup_insert_eq. } { lia. } { lia. }
  mrun E5. unfold R2 in C5. rewrite drop_ref_insert in C5 by (intros n; rewrite Hf1; intros [= <-]; lia).
  destruct (brelse_spec p s5 _ _ _ bt to 1 C5) as (s6 & E6 & F6 & W6 & C6 & K6).
  { apply K5, K4, Hbt2. } { set_solver. } { done. } { lia. }
  { intros _. rewrite lookup_insert_eq. unfold disk. rewrite W5, W4. cbn. by rewrite lookup_insert_eq. }
  exists s6. split; [done|]. split; [by repeat (etrans; [eassumption|])|]. split.
  { rewrite W6, W5, W4. change (k_writes s3) with (k_writes s2). by rewrite W2, W1. }
  unfold R1 in C6. rewrite drop_ref_insert in C6 by (intros n; rewrite Ht; done).
  replace (_ ∖ _) with (∅ : gset Z) in C6 by set_solver. done.
Qed.

(** install_trans()'s loop up to bwrite(): log block [src] goes home to [dst],
    which commit() has pinned and recovery has not. *)
Lemma install_copy p s R V src dst d (k : nat -> nat -> K unit) :
  cache p s R ∅ V -> R !! src = None -> src <> dst -> (R !! dst = Some 1 \/ R !! dst = None) ->
  (size R + 1 < NBUF)%nat \/ ((size R < NBUF)%nat /\ R !! dst = Some 1) ->
  V !! src = Some d -> is_Some (V !! dst) ->
  exists bs bd s', (lbuf <- bread ROOTDEV src;; dbuf <- bread ROOTDEV dst;; lb <- buf_at lbuf;;
      set_data dbuf (b_data lb);; bwrite dbuf;; k lbuf dbuf) s = k bs bd s' /\
    fs_step p s s' /\ k_writes s' = (dst, d) :: k_writes s /\ buf_of s' bs src /\ buf_of s' bd dst /\
    cache p s' (<[dst := refs R dst + 1]> (<[src := 1]> R)) {[dst; src]} (<[dst := d]> V).
Proof.
  intros C Hs Hne Hdst Hsz Hd [dt Hdt].
  assert (Hrd : refs R dst < 2 ^ 31) by (unfold refs; by destruct Hdst as [-> | ->]).
  destruct (bread_spec p s R ∅ V src d C) as (bs & s1 & E1 & F1 & W1 & Hbs & C1 & K1); try done.
  { by rewrite (refs_none _ _ Hs). } { right. lia. }
  mrun E1. rewrite union_empty_r_L, (refs_none _ _ Hs) in C1. change (0 + 1) with 1 in C1.
  destruct (bread_spec p s1 _ _ V dst dt C1) as (bd & s2 & E2 & F2 & W2 & Hbd & C2 & K2); try done.
  { set_solver. } { by rewrite refs_insert_ne. }
  { rewrite lookup_insert_ne by done. destruct Hsz as [Hsz|[_ ->]]; [right|by left].
    rewrite map_size_insert_None by done. lia. }
  mrun E2. rewrite refs_insert_ne in C2 by done. unfold buf_at. mred.
  assert (Hbs2 : buf_of s2 bs src) by (apply K2; [by rewrite lookup_insert_eq|done]).
  assert (Ed : b_data (bf s2 bs) = d).
  { destruct (ca_data _ _ _ _ _ C2 bs src Hbs2) as [_ E]. congruence. }
  rewrite Ed. destruct (upd_data_spec p s2 _ _ V bd dst (fun _ => d) C2 Hbd) as (E3 & F3 & C3 & K3); [set_solver|].
  change (set_data bd d) with (upd_buf bd (fun x => b_set_data d x)). mrun E3.
  set (s3 := k_set_bufs _ s2) in *.
  assert (Ed3 : b_data (bf s3 bd) = d).
  { destruct (ca_data _ _ _ _ _ C3 bd dst) as [_ E]; [by apply K3|]. rewrite lookup_insert_eq in E. by injection E. }
  destruct (bwrite_spec p s3 _ _ _ bd dst C3) as (s4 & E4 & F4 & B4 & W4 & C4); [by apply K3|set_solver|].
  mrun E4. rewrite Ed3 in W4.
  assert (K4 : forall b blk, buf_of s2 b blk -> buf_of s4 b blk).
  { intros b blk Hb. apply K3 in Hb. unfold buf_of in *. by rewrite B4. }
  exists bs, bd, s4. split; [done|]. split; [by repeat (etrans; [eassumption|])|].
  split. { rewrite W4. change (k_writes s3) with (k_writes s2). by rewrite W2, W1. }
  split; [by apply K4|]. split; [by apply K4|]. done.
Qed.

Lemma disk_head s w ws : k_writes s = w :: ws -> disk s !! w.1 = Some w.2.
Proof. intros E. unfold disk. rewrite E. cbn. by rewrite lookup_insert_eq. Qed.

Lemma install_commit p s R V src dst d :
  cache p s R ∅ V -> R !! src = None -> R !! dst = Some 1 -> (size R < NBUF)%nat ->
  V !! src = Some d -> is_Some (V !! dst) ->
  exists s', (lbuf <- bread ROOTDEV src;; dbuf <- bread ROOTDEV dst;; lb <- buf_at lbuf;;
      set_data dbuf (b_data lb);; bwrite dbuf;;
      bunpin dbuf;; brelse lbuf;; brelse dbuf) s = Ok tt s' /\
    fs_step p s s' /\ k_writes s' = (dst, d) :: k_writes s /\ cache p s' (delete dst R) ∅ (<[dst := d]> V).
Proof.
  intros C Hs Hdst Hsz Hd Hdt. assert (Hne : src <> dst) by congruence.
  destruct (install_copy p s R V src dst d (fun lbuf dbuf => bunpin dbuf;; brelse lbuf;; brelse dbuf) C)
    as (bs & bd & s4 & E & F & W & Hbs & Hbd & C4); try done; [by left|by right|]. rewrite E.
  rewrite (refs_some _ _ _ Hdst) in C4.
  destruct (bunpin_spec p s4 _ _ _ bd dst 2 C4 Hbd) as (s5 & E5 & F5 & W5 & C5 & K5); try (done || lia).
  { by rewrite lookup_insert_eq. }
  mrun E5.
  assert (Hdel : drop_ref (<[dst := 1 + 1]> (<[src := 1]> R)) dst = <[src := 1]> R).
  { pose proof (drop_ref_insert (<[src := 1]> R) dst) as Hx. rewrite refs_insert_ne, (refs_some _ _ _ Hdst) in Hx by done.
    apply Hx. intros n. rewrite lookup_insert_ne, Hdst by done. by intros [= <-]. }
  rewrite Hdel in C5.
  assert (Hsrc5 : (<[dst := d]> V) !! src = disk s5 !! src).
  { rewrite lookup_insert_ne by done. rewrite (ca_clean _ _ _ _ _ C src Hs). unfold disk.
    rewrite W5, W, (fs_step_blocks p s s5) by (etrans; eassumption). cbn. by rewrite lookup_insert_ne. }
  destruct (brelse_spec p s5 _ _ _ bs src 1 C5) as (s6 & E6 & F6 & W6 & C6 & K6); try (done || lia).
  { by apply K5. } { set_solver. } { by rewrite lookup_insert_eq. }
  mrun E6.
  assert (Hdel2 : drop_ref (<[src := 1]> R) src = R).
  { pose proof (drop_ref_insert R src) as Hx. rewrite (refs_none _ _ Hs) in Hx. apply Hx. by rewrite Hs. }
  rewrite Hdel2 in C6.
  destruct (brelse_spec p s6 _ _ _ bd dst 1 C6) as (s7 & E7 & F7 & W7 & C7 & K7); try (done || lia).
  { by apply K6, K5. } { set_solver. }
  { intros _. rewrite lookup_insert_eq. symmetry. apply (disk_head s6 (dst, d) (k_writes s)). congruence. }
  exists s7. split; [done|]. split; [by repeat (etrans; [eassumption|])|]. split; [congruence|].
  rewrite drop_ref_one in C7 by done. replace (_ ∖ _) with (∅ : gset Z) in C7 by set_solver. done.
Qed.

Lemma install_recover p s V src dst d :
  cache p s ∅ ∅ V -> src <> dst -> V !! src = Some d -> is_Some (V !! dst) ->
  exists s', (lbuf <- bread ROOTDEV src;; dbuf <- bread ROOTDEV dst;; lb <- buf_at lbuf;;
      set_data dbuf (b_data lb);; bwrite dbuf;; ret tt;; brelse lbuf;; brelse dbuf) s = Ok tt s' /\
    fs_step p s s' /\ k_writes s' = (dst, d) :: k_writes s /\ cache p s' ∅ ∅ (<[dst := d]> V).
Proof.
  intros C Hne Hd Hdt.
  destruct (install_copy p s ∅ V src dst d (fun lbuf dbuf => ret tt;; brelse lbuf;; brelse dbuf) C)
    as (bs & bd & s4 & E & F & W & Hbs & Hbd & C4); try done; [by right|left; rewrite map_size_empty; unfold NBUF; lia|].
  rewrite E. mred. rewrite (refs_none ∅ dst) in C4 by done. change (0 + 1) with 1 in C4.
  assert (Hsrc5 : (<[dst := d]> V) !! src = disk s4 !! src).
  { rewrite lookup_insert_ne by done. rewrite (ca_clean _ _ _ _ _ C src) by done. unfold disk.
    rewrite W, (fs_step_blocks p s s4) by done. cbn. by rewrite lookup_insert_ne. }
  rewrite insert_insert_ne in C4 by done.
  destruct (brelse_spec p s4 _ _ _ bs src 1 C4) as (s6 & E6 & F6 & W6 & C6 & K6); try (done || lia).
  { set_solver. } { by rewrite lookup_insert_eq. }
  mrun E6.
  rewrite drop_ref_one in C6 by (by rewrite lookup_insert_eq). rewrite delete_insert_id in C6 by (by rewrite lookup_insert_ne).
  destruct (brelse_spec p s6 _ _ _ bd dst 1 C6) as (s7 & E7 & F7 & W7 & C7 & K7); try (done || lia).
  { by apply K6. } { set_solver. } { by rewrite lookup_insert_eq. }
  { intros _. rewrite lookup_insert_eq. symmetry. apply (disk_head s6 (dst, d) (k_writes s)). congruence. }
  exists s7. split; [done|]. split; [by repeat (etrans; [eassumption|])|]. split; [congruence|].
  rewrite drop_ref_one, delete_insert_id in C7 by (done || by rewrite lookup_insert_eq).
  replace (_ ∖ _) with (∅ : gset Z) in C7 by set_solver. done.
Qed.

(** ** The header block *)

Definition head_data (h : list Z) (l : logst) (is_ : list Z) : list Z :=
  foldl (fun d i => set_lh_block d i (l_block l !!! Z.to_nat i)) (set_lh_n h (l_n l)) is_.

(** The log: where it is, and the blocks of the current transaction. *)
Record log_ok (l : logst) (LS : Z) (bl : list Z) : Prop := {
  lo_dev : l_dev l = ROOTDEV;
  lo_start : l_start l = LS;
  lo_n : l_n l = Z.of_nat (length bl);
  lo_blocks i : (i < length bl)%nat -> l_block l !!! i = bl !!! i;
  lo_range : 0 <= LS < 2 ^ 31 - LOGSIZE;
  lo_max : (length bl < NBUF)%nat;
  lo_nodup : NoDup bl;
  lo_home : Forall (fun b => 0 <= b < 2 ^ 31 /\ (b < LS \/ LS + LOGSIZE <= b)) bl
}.

Lemma head_data_spec h l LS bl (k : nat) :
  log_ok l LS bl -> length h = 1024%nat -> (k <= length bl)%nat ->
  let d := head_data h l (seqZ 0 (Z.of_nat k)) in
  length d = 1024%nat /\ lh_n d = l_n l /\ forall i, (i < k)%nat -> lh_block d (Z.of_nat i) = bl !!! i.
Proof.
  intros Hl Hh. pose proof (lo_max _ _ _ Hl) as Hmax. unfold NBUF in Hmax.
  induction k as [|k IH]; intros Hk d.
  - change d with (set_lh_n h (l_n l)). unfold set_lh_n, lh_n. split_and!.
    + by rewrite length_put_le by lia.
    + rewrite get_put_le_same by lia. rewrite (lo_n _ _ _ Hl). change (256 ^ Z.of_nat 4) with (2 ^ 32).
      rewrite Z.mod_small by lia. apply s32_small. lia.
    + lia.
  - unfold d. rewrite Nat2Z.inj_succ, <- Z.add_1_r, seqZ_app by lia. unfold head_data. rewrite foldl_app.
    fold (head_data h l (seqZ 0 (Z.of_nat k))). destruct IH as (Hlen & Hn & Hb); [lia|].
    change (seqZ (0 + Z.of_nat k) 1) with [Z.of_nat k]. cbn [foldl]. unfold set_lh_block.
    set (d0 := head_data h l (seqZ 0 (Z.of_nat k))) in *.
    split_and!.
    + rewrite length_put_le; [done|lia].
    + unfold lh_n. rewrite get_put_le_out by lia. exact Hn.
    + intros i Hi. unfold lh_block. destruct (decide (i = k)) as [->|Hne].
      * rewrite get_put_le_same by lia. rewrite Nat2Z.id, (lo_blocks _ _ _ Hl) by lia.
        change (256 ^ Z.of_nat 4) with (2 ^ 32).
        pose proof (proj1 (Forall_lookup _ _) (lo_home _ _ _ Hl) k (bl !!! k)) as Hr.
        destruct Hr as [Hr _]. { apply list_lookup_lookup_total_lt. lia. }
        rewrite Z.mod_small by lia. apply s32_small. lia.
      * rewrite get_put_le_out by lia. apply Hb. lia.
Qed.

Lemma write_head_spec p s R V LS bl h :
  cache p s R ∅ V -> log_ok (k_log s) LS bl -> R !! LS = None -> (size R < NBUF)%nat -> V !! LS = Some h ->
  let h' := head_data h (k_log s) (seqZ 0 (l_n (k_log s))) in
  exists s', write_head s = Ok tt s' /\ fs_step p s s' /\ k_writes s' = (LS, h') :: k_writes s /\
    cache p s' R ∅ (<[LS := h']> V).
Proof.
  intros C Hl HR Hsz Hh h'. unfold write_head. mlog. pose proof (lo_range _ _ _ Hl) as Hrg.
  rewrite (lo_dev _ _ _ Hl), (lo_start _ _ _ Hl), u32_small by (unfold LOGSIZE, MAXOPBLOCKS in *; lia).
  destruct (bread_spec p s R ∅ V LS h C) as (b & s1 & E1 & F1 & W1 & Hb & C1 & K1); try done.
  { by rewrite (refs_none _ _ HR). } { by right. }
  mrun E1. rewrite union_empty_r_L, (refs_none _ _ HR) in C1. change (0 + 1) with 1 in C1.
  set (l := k_log s) in *.
  assert (Eh : b_data (bf s1 b) = h). { destruct (ca_data _ _ _ _ _ C1 b LS Hb) as [_ E]. congruence. }
  destruct (upd_data_spec p s1 _ _ V b LS (fun x => set_lh_n (b_data x) (l_n l)) C1 Hb) as (E2 & F2 & C2 & K2); [set_solver|].
  mrun E2. set (s2 := k_set_bufs _ s1) in *. rewrite Eh in C2.
  destruct (for_each_inv (fun is_ s' => fs_step p s2 s' /\ k_writes s' = k_writes s2 /\ buf_of s' b LS /\
      cache p s' (<[LS := 1]> R) {[LS]} (<[LS := head_data h l is_]> V))
    (fun i => upd_buf b (fun bf => b_set_data (set_lh_block (b_data bf) i (l_block l !!! Z.to_nat i)) bf))
    (seqZ 0 (l_n l)) s2 []) as (s3 & E3 & F3 & W3 & Hb3 & C3).
  - split_and!; [done|done|by apply K2|done].
  - cbn [app]. intros pre i post s' _ (F' & W' & Hb' & C').
    destruct (upd_data_spec p s' _ _ _ b LS (fun x => set_lh_block (b_data x) i (l_block l !!! Z.to_nat i)) C' Hb')
      as (E'' & F'' & C'' & K''); [set_solver|].
    eexists. split; [exact E''|]. split; [by etrans|]. split; [exact W'|]. split; [by apply K''|].
    destruct (ca_data _ _ _ _ _ C' b LS Hb') as [_ Ed]. rewrite lookup_insert_eq in Ed. injection Ed as Ed.
    rewrite insert_insert_eq, <- Ed in C''. unfold head_data. rewrite foldl_app. exact C''.
  - mrun E3. cbn [app] in C3.
    destruct (bwrite_spec p s3 _ _ _ b LS C3 Hb3) as (s4 & E4 & F4 & B4 & W4 & C4); [set_solver|]. mrun E4.
    destruct (ca_data _ _ _ _ _ C3 b LS Hb3) as [_ Ed]. rewrite lookup_insert_eq in Ed. injection Ed as Ed.
    rewrite <- Ed in W4.
    destruct (brelse_spec p s4 _ _ _ b LS 1 C4) as (s5 & E5 & F5 & W5 & C5 & K5); try (done || lia).
    { unfold buf_of in *. by rewrite B4. } { set_solver. } { by rewrite lookup_insert_eq. }
    { intros _. rewrite lookup_insert_eq. symmetry. by apply (disk_head s4 (LS, h') (k_writes s3)). }
    exists s5. split; [done|]. split; [by repeat (etrans; [eassumption|])|].
    split. { rewrite W5, W4, W3. change (k_writes s2) with (k_writes s1). by rewrite W1. }
    rewrite drop_ref_one, delete_insert_id in C5 by (done || by rewrite lookup_insert_eq).
    replace (_ ∖ _) with (∅ : gset Z) in C5 by set_solver. done.
Qed.

(** ** The loops over the log *)

(** The blocks of the transaction, each pinned once. *)
Definition pins (bl : list Z) : gmap Z Z := list_to_map ((fun b => (b, 1)) <$> bl).

Lemma pins_cons b bl : pins (b :: bl) = <[b := 1]> (pins bl).
Proof. done. Qed.

Lemma pins_in bl b : b ∈ bl -> pins bl !! b = Some 1.
Proof.
  induction bl as [|x bl IH]; [by intros ?%not_elem_of_nil|]. rewrite pins_cons, elem_of_cons.
  destruct (decide (b = x)) as [->|Hne]; [by rewrite lookup_insert_eq|]. intros [?|?]; [done|].
  rewrite lookup_insert_ne by done. by apply IH.
Qed.

Lemma pins_out bl b : b ∉ bl -> pins bl !! b = None.
Proof.
  induction bl as [|x bl IH]; [done|]. rewrite pins_cons, not_elem_of_cons. intros [? ?].
  rewrite lookup_insert_ne by done. by apply IH.
Qed.

Lemma size_pins bl : (size (pins bl) <= length bl)%nat.
Proof.
  induction bl as [|x bl IH]; [done|]. rewrite pins_cons. cbn.
  rewrite map_size_insert. destruct (pins bl !! x); cbn in *; lia.
Qed.

Lemma seqZ_split n pre x post : seqZ 0 n = pre ++ x :: post -> x = Z.of_nat (length pre) /\ x < n.
Proof.
  intros E. assert (seqZ 0 n !! length pre = Some x) as Hx by (rewrite E; by apply list_lookup_middle).
  apply lookup_seqZ in Hx. lia.
Qed.

Definition log_writes (V : gmap Z (list Z)) (LS : Z) (bl : list Z) : list (Z * list Z) :=
  imap (fun i b => (LS + 1 + Z.of_nat i, V !!! b)) bl.
Definition home_writes (V : gmap Z (list Z)) (LS : Z) (bl : list Z) : list (Z * list Z) :=
  imap (fun i b => (b, V !!! (LS + 1 + Z.of_nat i))) bl.

Lemma log_writes_fst V LS bl : (log_writes V LS bl).*1 = seqZ (LS + 1) (Z.of_nat (length bl)).
Proof.
  apply list_eq. intros i. rewrite list_lookup_fmap. unfold log_writes. rewrite list_lookup_imap.
  destruct (bl !! i) as [b|] eqn:E; cbn.
  - symmetry. apply lookup_seqZ. apply lookup_lt_Some in E. lia.
  - symmetry. apply lookup_seqZ_ge. apply lookup_ge_None in E. lia.
Qed.

Lemma home_writes_fst V LS bl : (home_writes V LS bl).*1 = bl.
Proof.
  apply list_eq. intros i. rewrite list_lookup_fmap. unfold home_writes. rewrite list_lookup_imap.
  by destruct (bl !! i).
Qed.

Lemma log_home_apart l LS bl b :
  log_ok l LS bl -> b ∈ bl -> 0 <= b < 2 ^ 31 /\ (b < LS \/ LS + LOGSIZE <= b).
Proof. intros Hl Hb. exact (proj1 (Forall_forall _ _) (lo_home _ _ _ Hl) b Hb). Qed.

(** Every block of the log area exists. *)
Definition log_area (V : gmap Z (list Z)) (LS : Z) : Prop :=
  forall i, 0 <= i < LOGSIZE -> exists d, V !! (LS + i) = Some d /\ length d = 1024%nat.

Lemma write_log_spec p s V LS bl :
  cache p s (pins bl) ∅ V -> log_ok (k_log s) LS bl -> log_area V LS ->
  let ws := log_writes V LS bl in
  exists s', write_log s = Ok tt s' /\ fs_step p s s' /\ k_writes s' = rev ws ++ k_writes s /\
    cache p s' (pins bl) ∅ (apply_writes ws V).
Proof.
  intros C Hl Ha ws. unfold write_log. mlog. set (l := k_log s) in *.
  pose proof (lo_range _ _ _ Hl) as Hrg. pose proof (lo_max _ _ _ Hl) as Hmax.
  assert (Hlen : length ws = length bl) by apply length_imap. rewrite (lo_dev _ _ _ Hl), (lo_start _ _ _ Hl), (lo_n _ _ _ Hl).
  match goal with |- exists s', for_each _ ?f s = _ /\ _ => destruct (for_each_inv (fun dn s' => fs_step p s s' /\
     k_writes s' = rev (take (length dn) ws) ++ k_writes s /\
     cache p s' (pins bl) ∅ (apply_writes (take (length dn) ws) V)) f (seqZ 0 (Z.of_nat (length bl))) s []) as (s2 & E & F & W & C2) end.
  - done.
  - cbn [app]. intros pre x post s' Hseq (F & W & C'). apply seqZ_split in Hseq as [-> Hx].
    set (t := length pre) in *. assert (Ht : (t < length bl)%nat) by lia.
    destruct (lookup_lt_is_Some_2 bl t Ht) as [b Hb]. assert (Hin : b ∈ bl) by by apply list_elem_of_lookup_2 in Hb.
    destruct (log_home_apart _ _ _ _ Hl Hin) as [Hbr Hbo]. unfold LOGSIZE, MAXOPBLOCKS, NBUF in *.
    rewrite Nat2Z.id, (lo_blocks _ _ _ Hl), (list_lookup_total_correct _ _ _ Hb) by done.
    rewrite (u32_small b), (u32_small (LS + Z.of_nat t + 1)) by lia.
    assert (Hfst : forall blk, blk ∈ (take t ws).*1 -> LS + 1 <= blk < LS + 1 + Z.of_nat t).
    { intros blk. unfold ws. rewrite fmap_take, log_writes_fst. rewrite list_elem_of_lookup.
      intros (i & Hi). rewrite lookup_take_Some in Hi. destruct Hi as [Hi ?]. apply lookup_seqZ in Hi. lia. }
    assert (Hd : is_Some (V !! b)).
    { destruct (ca_pinned _ _ _ _ _ C b 1 (pins_in _ _ Hin)) as (_ & bb & Hbb).
      destruct (ca_data _ _ _ _ _ C bb b Hbb) as [_ ->]. by eexists. }
    destruct Hd as [d Hd].
    destruct (log_copy p s' (pins bl) _ (LS + Z.of_nat t + 1) b d C') as (s'' & E'' & F'' & W'' & C'').
    + by apply pins_in.
    + apply pins_out. intros Hin2. destruct (log_home_apart _ _ _ _ Hl Hin2) as [? ?]. unfold LOGSIZE, MAXOPBLOCKS in *. lia.
    + pose proof (size_pins bl). unfold NBUF. lia.
    + rewrite apply_writes_ne; [done|]. intros Hx'%Hfst. lia.
    + rewrite apply_writes_ne; [|intros Hx'%Hfst; lia].
      destruct (Ha (Z.of_nat t + 1)) as (dd & E & _); [unfold LOGSIZE, MAXOPBLOCKS; lia|]. exists dd. rewrite <- E. f_equal. lia.
    + exists s''. split; [exact E''|]. split; [by etrans|].
      assert (Hwt : ws !! t = Some (LS + Z.of_nat t + 1, d)).
      { unfold ws, log_writes. rewrite list_lookup_imap, Hb. cbn. do 2 f_equal; [lia|].
        by apply lookup_total_correct. }
      rewrite length_app. fold t. cbn [length]. rewrite Nat.add_1_r, (take_S_r _ _ _ Hwt).
      rewrite rev_unit, W'', W, apply_writes_snoc. done.
  - exists s2. rewrite E. split; [done|]. split; [done|]. cbn [app] in W, C2. rewrite length_seqZ in W, C2.
    rewrite take_ge in W, C2 by lia. done.
Qed.

Lemma delete_pins b bl : b ∉ bl -> delete b (pins (b :: bl)) = pins bl.
Proof. intros. rewrite pins_cons. by apply delete_insert_id, pins_out. Qed.

(** install_trans() writes every block of the log home. *)
Lemma install_trans_spec p s V LS bl (r : Z) :
  cache p s (if r =? 0 then pins bl else ∅) ∅ V -> log_ok (k_log s) LS bl -> log_area V LS ->
  (forall b, b ∈ bl -> is_Some (V !! b)) ->
  let ws := home_writes V LS bl in
  exists s', install_trans r s = Ok tt s' /\ fs_step p s s' /\ k_writes s' = rev ws ++ k_writes s /\
    cache p s' ∅ ∅ (apply_writes ws V).
Proof.
  intros C Hl Ha Hv ws. unfold install_trans. mlog. set (l := k_log s) in *.
  pose proof (lo_range _ _ _ Hl) as Hrg. pose proof (lo_max _ _ _ Hl) as Hmax. pose proof (lo_nodup _ _ _ Hl) as Hnd.
  assert (Hlen : length ws = length bl) by apply length_imap. rewrite (lo_dev _ _ _ Hl), (lo_start _ _ _ Hl), (lo_n _ _ _ Hl).
  match goal with |- exists s', for_each _ ?f s = _ /\ _ => destruct (for_each_inv (fun dn s' => fs_step p s s' /\
     k_writes s' = rev (take (length dn) ws) ++ k_writes s /\
     cache p s' (if r =? 0 then pins (drop (length dn) bl) else ∅) ∅ (apply_writes (take (length dn) ws) V)) f (seqZ 0 (Z.of_nat (length bl))) s []) as (s2 & E & F & W & C2) end.
  - done.
  - cbn [app]. intros pre x post s' Hseq (F & W & C'). apply seqZ_split in Hseq as [-> Hx].
    set (t := length pre) in *. assert (Ht : (t < length bl)%nat) by lia.
    destruct (lookup_lt_is_Some_2 bl t Ht) as [b Hb]. assert (Hin : b ∈ bl) by by apply list_elem_of_lookup_2 in Hb.
    destruct (log_home_apart _ _ _ _ Hl Hin) as [Hbr Hbo]. unfold LOGSIZE, MAXOPBLOCKS, NBUF in *.
    rewrite Nat2Z.id, (lo_blocks _ _ _ Hl), (list_lookup_total_correct _ _ _ Hb) by done.
    rewrite (u32_small b), (u32_small (LS + Z.of_nat t + 1)) by lia.
    destruct (Ha (Z.of_nat t + 1)) as (d & Hd & _); [unfold LOGSIZE, MAXOPBLOCKS; lia|]. replace (LS + (Z.of_nat t + 1)) with (LS + Z.of_nat t + 1) in Hd by lia.
    assert (Hfst : (take t ws).*1 = take t bl) by (unfold ws; by rewrite fmap_take, home_writes_fst).
    assert (Hlog : LS + Z.of_nat t + 1 ∉ bl).
    { intros Hin2. destruct (log_home_apart _ _ _ _ Hl Hin2) as [? ?]. unfold LOGSIZE, MAXOPBLOCKS in *. lia. }
    assert (Hsrc : apply_writes (take t ws) V !! (LS + Z.of_nat t + 1) = Some d).
    { rewrite apply_writes_ne; [done|]. rewrite Hfst. intros (j & Hj & _)%elem_of_take. apply Hlog. by apply list_elem_of_lookup_2 in Hj. }
    assert (Hdst : is_Some (apply_writes (take t ws) V !! b)).
    { rewrite apply_writes_ne; [by apply Hv|]. rewrite Hfst. intros Hin2%elem_of_take.
      destruct Hin2 as (j & Hj & ?). pose proof (NoDup_lookup _ _ _ _ Hnd Hj Hb). lia. }
    assert (Hwt : ws !! t = Some (b, d)).
    { unfold ws, home_writes. rewrite list_lookup_imap, Hb. cbn. do 2 f_equal.
      apply lookup_total_correct. rewrite <- Hd. f_equal. lia. }
    rewrite length_app. fold t. cbn [length]. rewrite Nat.add_1_r, (take_S_r _ _ _ Hwt), rev_unit.
    setoid_rewrite apply_writes_snoc. cbn [fst snd].
    assert (Hdrop : drop t bl = b :: drop (S t) bl) by by apply drop_S.
    destruct (r =? 0).
    + rewrite Hdrop in C'. assert (Hbn : b ∉ drop (S t) bl).
      { intros (j & Hj)%list_elem_of_lookup. rewrite lookup_drop in Hj. pose proof (NoDup_lookup _ _ _ _ Hnd Hj Hb). lia. }
      destruct (install_commit p s' _ _ (LS + Z.of_nat t + 1) b d C') as (s'' & E'' & F'' & W'' & C''); try done.
      * apply pins_out. rewrite <- Hdrop. intros (j & Hj)%list_elem_of_lookup. rewrite lookup_drop in Hj.
        apply Hlog. by apply list_elem_of_lookup_2 in Hj.
      * apply pins_in. left.
      * pose proof (size_pins (b :: drop (S t) bl)) as Hsz. rewrite <- Hdrop in Hsz at 2. rewrite length_drop in Hsz. unfold NBUF. lia.
      * exists s''. split; [exact E''|]. split; [by etrans|]. split; [by rewrite W'', W|].
        rewrite delete_pins in C'' by done. done.
    + destruct (install_recover p s' _ (LS + Z.of_nat t + 1) b d C') as (s'' & E'' & F'' & W'' & C''); try done.
      * intros Heq. apply Hlog. by rewrite Heq.
      * exists s''. split; [exact E''|]. split; [by etrans|]. split; [by rewrite W'', W|]. done.
  - exists s2. rewrite E. split; [done|]. split; [done|]. cbn [app] in W, C2. rewrite length_seqZ in W, C2.
    rewrite take_ge in W, C2 by lia. rewrite drop_ge in C2 by lia. by destruct (r =? 0).
Qed.

(** ** commit() *)

Lemma cache_log p s R H V l : cache p s R H V -> cache p (k_set_log l s) R H V.
Proof. intros C. split; try apply C. destruct (ca_run _ _ _ _ _ C). by split. Qed.

(** The four groups of writes of a commit: the copies in the log, the header
    that commits them, the home locations, the empty header. *)
Definition head_of (V : gmap Z (list Z)) (LS : Z) (l : logst) : list Z :=
  head_data (V !!! LS) l (seqZ 0 (l_n l)).
Definition install_writes (V : gmap Z (list Z)) (bl : list Z) : list (Z * list Z) :=
  (fun b => (b, V !!! b)) <$> bl.
Definition commit_writes (V : gmap Z (list Z)) (LS : Z) (l : logst) (bl : list Z) : list (Z * list Z) :=
  log_writes V LS bl ++ [(LS, head_of V LS l)] ++ install_writes V bl ++
  [(LS, set_lh_n (head_of V LS l) 0)].

Lemma logged_block V LS l bl h i b :
  log_ok l LS bl -> bl !! i = Some b ->
  (<[LS := h]> (apply_writes (log_writes V LS bl) V)) !! (LS + 1 + Z.of_nat i) = Some (V !!! b).
Proof.
  intros Hl Hb. rewrite lookup_insert_ne by lia. apply apply_writes_in.
  - rewrite log_writes_fst. apply NoDup_seqZ.
  - apply list_elem_of_lookup_2 with i. unfold log_writes. by rewrite list_lookup_imap, Hb.
Qed.

Lemma home_writes_logged V LS l bl h :
  log_ok l LS bl ->
  home_writes (<[LS := h]> (apply_writes (log_writes V LS bl) V)) LS bl = install_writes V bl.
Proof.
  intros Hl. apply list_eq. intros i. unfold home_writes, install_writes.
  rewrite list_lookup_imap, list_lookup_fmap. destruct (bl !! i) as [b|] eqn:Hb; [|done]. cbn. do 2 f_equal.
  apply lookup_total_correct. by eapply logged_block.
Qed.

Lemma log_ok_empty l LS bl : log_ok l LS bl -> log_ok (l_set_n 0 l) LS [].
Proof.
  intros []. split; try done; cbn.
  - intros i. lia.
  - unfold NBUF. lia.
  - apply NoDup_nil_2.
Qed.

Lemma log_writes_area V LS l bl blk :
  log_ok l LS bl -> blk ∈ (log_writes V LS bl).*1 -> LS < blk < LS + LOGSIZE.
Proof.
  intros Hl. rewrite log_writes_fst, elem_of_seqZ. pose proof (lo_max _ _ _ Hl). unfold NBUF, LOGSIZE, MAXOPBLOCKS in *. lia.
Qed.

Lemma log_writes_length V LS l bl x :
  log_ok l LS bl -> (forall b d, V !! b = Some d -> length d = 1024%nat) -> (forall b, b ∈ bl -> is_Some (V !! b)) ->
  x ∈ log_writes V LS bl -> length x.2 = 1024%nat.
Proof.
  intros Hl HV Hb Hx. unfold log_writes in Hx. apply elem_of_lookup_imap in Hx as (i & b & -> & Hi). cbn.
  destruct (Hb b) as [d Hd]; [by apply list_elem_of_lookup_2 in Hi|]. rewrite (lookup_total_correct _ _ _ Hd). by eapply HV.
Qed.

(** ** Recovery *)

(** The log as the disk [d] records it: the header names the blocks [bl]. *)
Record disk_log (d : gmap Z (list Z)) (LS : Z) (bl : list Z) (h : list Z) : Prop := {
  dl_head : d !! LS = Some h;
  dl_n : lh_n h = Z.of_nat (length bl);
  dl_block i : (i < length bl)%nat -> lh_block h (Z.of_nat i) = bl !!! i;
  dl_range : 0 <= LS < 2 ^ 31 - LOGSIZE;
  dl_max : (length bl < NBUF)%nat;
  dl_nodup : NoDup bl;
  dl_home : Forall (fun b => 0 <= b < 2 ^ 31 /\ (b < LS \/ LS + LOGSIZE <= b)) bl;
  dl_area : log_area d LS;
  dl_exists b : b ∈ bl -> is_Some (d !! b)
}.

Lemma cache_clean_eq p s V : cache p s ∅ ∅ V -> V = disk s.
Proof. intros C. apply map_eq. intros blk. by apply C. Qed.

Lemma read_head_spec p s LS bl h :
  cache p s ∅ ∅ (disk s) -> disk_log (disk s) LS bl h ->
  l_dev (k_log s) = ROOTDEV -> l_start (k_log s) = LS -> length (l_block (k_log s)) = Z.to_nat LOGSIZE ->
  exists s', read_head s = Ok tt s' /\ log_ok (k_log s') LS bl /\ k_writes s' = k_writes s /\
    k_blocks s' = k_blocks s /\ cache p s' ∅ ∅ (disk s).
Proof.
  intros C Hd Hdev Hst Hlen. unfold read_head. mlog. pose proof (dl_range _ _ _ _ Hd) as Hr.
  rewrite Hdev, Hst, u32_small by (unfold LOGSIZE, MAXOPBLOCKS in *; lia).
  destruct (bread_spec p s ∅ ∅ (disk s) LS h C) as (b & s1 & E1 & F1 & W1 & Hb & C1 & _);
    [set_solver|by apply Hd|by rewrite refs_none|right; rewrite map_size_empty; unfold NBUF; lia|].
  mrun E1. rewrite union_empty_r_L, refs_none in C1 by done. change (0 + 1) with 1 in C1.
  unfold buf_at, upd_log. mred.
  assert (Eh : b_data (bf s1 b) = h).
  { destruct (ca_data _ _ _ _ _ C1 b LS Hb) as [_ E]. rewrite (dl_head _ _ _ _ Hd) in E. by injection E. }
  rewrite Eh, (dl_n _ _ _ _ Hd). pose proof (dl_max _ _ _ _ Hd) as Hmax.
  replace (LOGSIZE <? _) with false by (symmetry; apply Z.ltb_ge; unfold LOGSIZE, MAXOPBLOCKS, NBUF in *; lia).
  set (s2 := k_set_log _ s1).
  match goal with |- context [for_each ?is_ ?f] => destruct (for_each_inv (fun dn s' =>
    (exists l, s' = k_set_log l s1) /\ l_dev (k_log s') = ROOTDEV /\ l_start (k_log s') = LS /\
    l_n (k_log s') = Z.of_nat (length bl) /\ length (l_block (k_log s')) = Z.to_nat LOGSIZE /\
    forall i, (i < length dn)%nat -> l_block (k_log s') !!! i = bl !!! i) f is_ s2 []) as (s3 & E3 & (l & El) & Hdev3 & Hst3 & Hn3 & _ & Hbl3) end.
  - rewrite <- (fs_step_log _ _ _ F1) in Hdev, Hst, Hlen. split; [by eexists|]. split_and!; try done. cbn. lia.
  - cbn [app]. intros pre x post s' Hseq ((l & El) & Hdev' & Hst' & Hn' & Hlen' & Hbl'). apply seqZ_split in Hseq as [-> Hx].
    unfold modify. eexists. split; [reflexivity|]. split; [rewrite El; by eexists|]. split_and!; try done.
    + change (length (<[Z.to_nat (Z.of_nat (length pre)) := lh_block h (Z.of_nat (length pre))]> (l_block (k_log s'))) = Z.to_nat LOGSIZE).
      by rewrite length_insert.
    + rewrite length_app. cbn [length]. intros i Hi.
      change (<[Z.to_nat (Z.of_nat (length pre)) := lh_block h (Z.of_nat (length pre))]> (l_block (k_log s')) !!! i = bl !!! i).
      rewrite Nat2Z.id. destruct (decide (i = length pre)) as [->|Hne].
      * rewrite list_lookup_total_insert_eq by (unfold LOGSIZE, MAXOPBLOCKS, NBUF in *; lia). apply Hd. lia.
      * rewrite list_lookup_total_insert_ne by lia. apply Hbl'. lia.
  - mrun E3. subst s3. pose proof (cache_log _ _ _ _ _ l C1) as C3.
    destruct (brelse_spec p (k_set_log l s1) _ _ _ b LS 1 C3 Hb) as (s4 & E4 & F4 & W4 & C4 & _);
      [set_solver|by rewrite lookup_insert_eq|lia| |].
    { intros _. change (disk (k_set_log l s1)) with (disk s1). unfold disk. by rewrite W1, (fs_step_blocks _ _ _ F1). }
    exists s4. split; [exact E4|]. rewrite (fs_step_log _ _ _ F4), (fs_step_blocks _ _ _ F4), W4.
    cbn [app] in Hbl3. rewrite length_seqZ, Nat2Z.id in Hbl3.
    split; [by split; try done; apply Hd|]. split; [done|]. split; [by apply (fs_step_blocks _ _ _ F1)|].
    rewrite drop_ref_one, delete_insert_id in C4 by (done || by rewrite lookup_insert_eq).
    by replace (_ ∖ _) with (∅ : gset Z) in C4 by set_solver.
Qed.

Lemma disk_writes s s' ws : k_writes s' = rev ws ++ k_writes s -> k_blocks s' = k_blocks s -> disk s' = apply_writes ws (disk s).
Proof. intros Hw Hb. unfold disk, apply_writes. by rewrite Hw, Hb, replay_app. Qed.

(** initlog() installs what the header names, then empties the header. *)
Definition recovery_writes (d : gmap Z (list Z)) (LS : Z) (bl : list Z) (h : list Z) : list (Z * list Z) :=
  home_writes d LS bl ++ [(LS, set_lh_n h 0)].
Definition recovered (d : gmap Z (list Z)) (LS : Z) (bl : list Z) (h : list Z) : gmap Z (list Z) :=
  apply_writes (recovery_writes d LS bl h) d.

Lemma home_apply_ne ws d LS (bl : list Z) :
  ws.*1 = bl -> Forall (fun b => 0 <= b < 2 ^ 31 /\ (b < LS \/ LS + LOGSIZE <= b)) bl ->
  forall blk, LS <= blk < LS + LOGSIZE -> apply_writes ws d !! blk = d !! blk.
Proof.
  intros E Hf blk Hb. apply apply_writes_ne. rewrite E. intros Hin.
  pose proof (proj1 (Forall_forall _ _) Hf blk Hin) as [_ ?]. lia.
Qed.

Lemma initlog_spec p s sb LS bl h :
  cache p s ∅ ∅ (disk s) -> disk_log (disk s) LS bl h -> sb_logstart sb = LS ->
  length (l_block (k_log s)) = Z.to_nat LOGSIZE ->
  exists s', initlog ROOTDEV sb s = Ok tt s' /\ disk s' = recovered (disk s) LS bl h /\
    cache p s' ∅ ∅ (disk s') /\ log_ok (k_log s') LS [] /\
    k_writes s' = rev (recovery_writes (disk s) LS bl h) ++ k_writes s.
Proof.
  intros C Hd Hsb Hlen. unfold initlog. replace (1024 <=? _) with false by reflexivity.
  unfold initlock, upd_log. mred. pose proof (dl_range _ _ _ _ Hd) as Hr. rewrite Hsb, (s32_small LS) by (unfold LOGSIZE, MAXOPBLOCKS in *; lia).
  rewrite (rn_locks _ _ (ca_run _ _ _ _ _ C)), delete_empty.
  match goal with |- exists s', recover_from_log ?x = _ /\ _ => set (s0 := x) end.
  assert (C0 : cache p s0 ∅ ∅ (disk s0)).
  { split; try apply C. destruct (ca_run _ _ _ _ _ C) as [? ? ? ? ? Hlk]. split; try done. }
  change (disk s) with (disk s0) in *. unfold recover_from_log.
  destruct (read_head_spec p s0 LS bl h C0 Hd) as (s1 & E1 & L1 & W1 & B1 & C1); [done|done|exact Hlen|]. mrun E1.
  destruct (install_trans_spec p s1 (disk s0) LS bl 1 C1 L1) as (s2 & E2 & F2 & W2 & C2);
    [apply Hd|apply (dl_exists _ _ _ _ Hd)|]. mrun E2.
  unfold upd_log. mred. set (s3 := k_set_log _ s2).
  assert (L3 : log_ok (k_log s3) LS []).
  { change (k_log s3) with (l_set_n 0 (k_log s2)). rewrite (fs_step_log _ _ _ F2). by eapply log_ok_empty. }
  destruct (write_head_spec p s3 ∅ _ LS [] h (cache_log _ _ _ _ _ _ C2) L3 eq_refl) as (s4 & E4 & F4 & W4 & C4).
  { rewrite map_size_empty. unfold NBUF. lia. }
  { rewrite (home_apply_ne _ _ LS bl); [apply Hd|apply home_writes_fst|apply Hd|unfold LOGSIZE, MAXOPBLOCKS; lia]. }
  assert (Hw : k_writes s4 = rev (recovery_writes (disk s0) LS bl h) ++ k_writes s0).
  { rewrite W4. change (k_writes s3) with (k_writes s2). unfold recovery_writes. rewrite W2, W1, rev_app_distr.
    rewrite (lo_n _ _ _ L3). cbn. unfold head_data. cbn. done. }
  assert (Hdk : disk s4 = recovered (disk s0) LS bl h).
  { apply disk_writes; [done|by rewrite (fs_step_blocks _ _ _ F4); change (k_blocks s3) with (k_blocks s2); rewrite (fs_step_blocks _ _ _ F2)]. }
  exists s4. split; [done|]. split; [done|]. split; [|by rewrite (fs_step_log _ _ _ F4)].
  by rewrite <- (cache_clean_eq _ _ _ C4).
Qed.

Lemma area_writes ws d LS :
  log_area d LS -> Forall (fun w => length w.2 = 1024%nat) ws -> log_area (apply_writes ws d) LS.
Proof.
  intros Ha. induction ws as [|w ws IH] using rev_ind; [done|]. intros [Hw [Hl _]%Forall_cons]%Forall_app i Hi.
  rewrite apply_writes_snoc. destruct (decide (w.1 = LS + i)) as [<-|Hne].
  - rewrite lookup_insert_eq. exists w.2; split; [reflexivity|exact Hl].
  - rewrite lookup_insert_ne by done. by apply IH.
Qed.

Lemma exists_writes ws d blk : is_Some (d !! blk) -> is_Some (apply_writes ws d !! blk).
Proof.
  intros Hs. induction ws as [|w ws IH] using rev_ind; [done|]. rewrite apply_writes_snoc.
  apply lookup_insert_is_Some'. by right.
Qed.

Lemma install_writes_fst V bl : (install_writes V bl).*1 = bl.
Proof. unfold install_writes. rewrite <- list_fmap_compose. change (fst ∘ _) with (fun b : Z => b). apply list_fmap_id. Qed.

Lemma disk_log_empty d LS h :
  d !! LS = Some h -> lh_n h = 0 -> log_area d LS -> 0 <= LS < 2 ^ 31 - LOGSIZE -> disk_log d LS [] h.
Proof.
  intros Hh Hn Ha Hr. split; try done.
  - cbn. lia.
  - unfold NBUF. cbn. lia.
  - apply NoDup_nil_2.
  - by intros b ?%elem_of_nil.
Qed.

Lemma recovered_empty d LS h blk : blk < LS \/ LS + LOGSIZE <= blk -> recovered d LS [] h !! blk = d !! blk.
Proof.
  intros Hb. unfold recovered, apply_writes. cbn. rewrite lookup_insert_ne; [done|]. unfold LOGSIZE, MAXOPBLOCKS in *. lia.
Qed.

(** ** Crashes during recovery *)

Lemma take_sub {A} k (w : list A) : take k w ⊆ w.
Proof. intros x (i & Hi & _)%elem_of_take. by apply list_elem_of_lookup_2 in Hi. Qed.

Lemma home_writes_area d d' LS bl :
  (length bl < NBUF)%nat -> (forall blk, LS <= blk < LS + LOGSIZE -> d' !! blk = d !! blk) ->
  home_writes d' LS bl = home_writes d LS bl.
Proof.
  intros Hl Hd. unfold home_writes. apply imap_ext. intros i b Hb%lookup_lt_Some. f_equal.
  unfold lookup_total, map_lookup_total. rewrite Hd; [done|]. unfold LOGSIZE, MAXOPBLOCKS, NBUF in *. lia.
Qed.

(** Writes again what part of [ws] wrote: the rest is as after [ws] alone. *)
Lemma apply_writes_again ws w d blk :
  NoDup ws.*1 -> w ⊆ ws -> apply_writes ws (apply_writes w d) !! blk = apply_writes ws d !! blk.
Proof.
  intros Hnd Hw. destruct (decide (blk ∈ ws.*1)) as [Hin|Hn].
  - apply list_elem_of_fmap in Hin as ([b x] & -> & Hx). by rewrite !(apply_writes_in _ _ b x).
  - rewrite !(apply_writes_ne ws) by done. apply apply_writes_ne. intros Hin. apply Hn.
    apply list_elem_of_fmap in Hin as (x & -> & Hx). by apply list_elem_of_fmap_2, Hw.
Qed.

(** Stopped while it installs, recovery leaves the log as it was. *)
Lemma recovery_installing d LS bl h w :
  disk_log d LS bl h -> w ⊆ home_writes d LS bl -> let d' := apply_writes w d in
  disk_log d' LS bl h /\
  forall blk, blk < LS \/ LS + LOGSIZE <= blk -> recovered d' LS bl h !! blk = recovered d LS bl h !! blk.
Proof.
  intros Hd Hw d'. assert (Ha : forall blk, LS <= blk < LS + LOGSIZE -> d' !! blk = d !! blk).
  { intros blk Hb. apply apply_writes_ne. intros (x & -> & Hx)%list_elem_of_fmap.
    apply Hw, (list_elem_of_fmap_2 fst) in Hx. rewrite home_writes_fst in Hx.
    pose proof (proj1 (Forall_forall _ _) (dl_home _ _ _ _ Hd) _ Hx) as [_ ?]. lia. }
  pose proof (home_writes_area d d' LS bl (dl_max _ _ _ _ Hd) Ha) as Eh. split.
  - destruct Hd as [H1 H2 H3 H4 H5 H6 H7 H8 H9]. split; try done.
    + rewrite Ha; [done|]. unfold LOGSIZE, MAXOPBLOCKS. lia.
    + intros i Hi. rewrite Ha by lia. by apply H8.
    + intros b Hb. by apply exists_writes, H9.
  - intros blk Hb. unfold recovered, recovery_writes. rewrite Eh, !apply_writes_snoc. cbn.
    rewrite !lookup_insert_ne by (unfold LOGSIZE, MAXOPBLOCKS in *; lia). apply apply_writes_again; [|done].
    rewrite home_writes_fst. apply Hd.
Qed.

(** Once recovery has emptied the header, the next one changes nothing. *)
Lemma recovery_done d LS bl h :
  disk_log d LS bl h -> let d' := recovered d LS bl h in
  disk_log d' LS [] (set_lh_n h 0) /\
  forall blk, blk < LS \/ LS + LOGSIZE <= blk -> recovered d' LS [] (set_lh_n h 0) !! blk = d' !! blk.
Proof.
  intros Hd d'. pose proof (dl_range _ _ _ _ Hd) as Hr. split; [|intros blk Hb; by apply recovered_empty].
  assert (Ed : d' = <[LS := set_lh_n h 0]> (apply_writes (home_writes d LS bl) d)) by apply apply_writes_snoc.
  assert (Hh : length h = 1024%nat).
  { destruct (dl_area _ _ _ _ Hd 0) as (h' & Hh & Hl); [unfold LOGSIZE, MAXOPBLOCKS; lia|].
    rewrite Z.add_0_r, (dl_head _ _ _ _ Hd) in Hh. by injection Hh as <-. }
  apply disk_log_empty; [by rewrite Ed, lookup_insert_eq|unfold lh_n, set_lh_n; by rewrite get_put_le_same by lia| |done].
  intros i Hi. rewrite Ed. destruct (decide (i = 0)) as [->|Hne].
  - rewrite Z.add_0_r, lookup_insert_eq. eexists. split; [done|]. unfold set_lh_n. by rewrite length_put_le by lia.
  - rewrite lookup_insert_ne, (home_apply_ne _ _ LS bl) by (lia || apply home_writes_fst || apply Hd). by apply Hd.
Qed.

(** Whatever the number of recovery's writes that reached the disk, the next
    recovery finds a well-formed log and ends as this one would have. *)
Lemma recovery_prefix d LS bl h j :
  disk_log d LS bl h -> let d' := apply_writes (take j (recovery_writes d LS bl h)) d in
  exists bl' h', disk_log d' LS bl' h' /\
  forall blk, blk < LS \/ LS + LOGSIZE <= blk -> recovered d' LS bl' h' !! blk = recovered d LS bl h !! blk.
Proof.
  intros Hd d'. assert (Hl : length (home_writes d LS bl) = length bl) by apply length_imap.
  destruct (decide (j <= length bl)%nat) as [Hj|Hj].
  - exists bl, h. unfold d', recovery_writes. rewrite take_app_le by lia.
    apply recovery_installing; [done|apply take_sub].
  - exists [], (set_lh_n h 0). unfold d'. rewrite take_ge by (unfold recovery_writes; rewrite length_app, Hl; cbn; lia).
    by apply recovery_done.
Qed.

(** ** Crashes during commit() *)

(** The disk before the commit, [d0], and the blocks as the cache has them, [V]. *)
Record committing (d0 V : gmap Z (list Z)) (LS : Z) (l : logst) (bl : list Z) : Prop := {
  cm_log : log_ok l LS bl;
  cm_nonempty : bl <> [];
  cm_area : log_area V LS;
  cm_empty : lh_n (V !!! LS) = 0;
  cm_same blk : blk ∉ bl -> V !! blk = d0 !! blk;
  cm_exists b : b ∈ bl -> is_Some (d0 !! b);
  cm_data b d : V !! b = Some d -> length d = 1024%nat;
  cm_cached b : b ∈ bl -> is_Some (V !! b)
}.

Section Crash.
Context (d0 V : gmap Z (list Z)) (LS : Z) (l : logst) (bl : list Z) (CM : committing d0 V LS l bl).

Notation ws := (commit_writes V LS l bl).
Notation n := (length bl).

Lemma cm_out blk : LS <= blk < LS + LOGSIZE -> blk ∉ bl.
Proof. intros Hb Hin. destruct (log_home_apart _ _ _ _ (cm_log _ _ _ _ _ CM) Hin). lia. Qed.

Lemma cm_disk_area : log_area d0 LS.
Proof.
  intros i Hi. rewrite <- (cm_same _ _ _ _ _ CM); [by apply CM|]. apply cm_out. lia.
Qed.

Lemma cm_header : exists h, V !! LS = Some h /\ V !!! LS = h /\ length h = 1024%nat.
Proof.
  destruct (cm_area _ _ _ _ _ CM 0) as (h & Hh & Hl); [unfold LOGSIZE, MAXOPBLOCKS; lia|].
  rewrite Z.add_0_r in Hh. exists h. by rewrite (lookup_total_correct _ _ _ Hh).
Qed.

Lemma cm_new_head :
  length (head_of V LS l) = 1024%nat /\ lh_n (head_of V LS l) = Z.of_nat n /\
  forall i, (i < n)%nat -> lh_block (head_of V LS l) (Z.of_nat i) = bl !!! i.
Proof.
  destruct cm_header as (h & _ & Eh & Hh). pose proof (lo_n _ _ _ (cm_log _ _ _ _ _ CM)) as En. unfold head_of. rewrite Eh, En.
  destruct (head_data_spec h l LS bl n (cm_log _ _ _ _ _ CM) Hh) as (A & B & E); [lia|].
  by rewrite En in B.
Qed.

Lemma cm_empty_head : length (set_lh_n (head_of V LS l) 0) = 1024%nat /\ lh_n (set_lh_n (head_of V LS l) 0) = 0.
Proof.
  destruct cm_new_head as (Hl & _). unfold set_lh_n, lh_n. rewrite length_put_le by lia. split; [done|].
  by rewrite get_put_le_same by lia.
Qed.

Lemma cm_block_length b : b ∈ bl -> length (V !!! b) = 1024%nat.
Proof.
  intros Hb. destruct (cm_cached _ _ _ _ _ CM b Hb) as [d Hd]. rewrite (lookup_total_correct _ _ _ Hd). by apply (cm_data _ _ _ _ _ CM b).
Qed.

Lemma cm_writes_length : Forall (fun w => length w.2 = 1024%nat) ws.
Proof.
  unfold commit_writes. rewrite !Forall_app, !Forall_singleton. split_and!.
  - apply Forall_forall. intros x Hx. apply (log_writes_length V LS l bl x); [apply CM|apply (cm_data _ _ _ _ _ CM)|apply (cm_cached _ _ _ _ _ CM)|done].
  - apply cm_new_head.
  - apply Forall_fmap, Forall_forall. intros b Hb. by apply cm_block_length.
  - apply cm_empty_head.
Qed.

Lemma cm_prefix_area k : log_area (apply_writes (take k ws) d0) LS.
Proof. apply area_writes; [apply cm_disk_area|]. apply Forall_take, cm_writes_length. Qed.

Lemma log_writes_out w blk :
  w ⊆ log_writes V LS bl -> blk <= LS \/ LS + LOGSIZE <= blk -> blk ∉ w.*1.
Proof.
  intros Hw Hb Hin. apply list_elem_of_fmap in Hin as (x & -> & Hx). apply Hw, (list_elem_of_fmap_2 fst) in Hx.
  apply (log_writes_area _ _ _ _ _ (cm_log _ _ _ _ _ CM)) in Hx. lia.
Qed.

Lemma install_writes_out w blk : w ⊆ install_writes V bl -> blk ∉ bl -> blk ∉ w.*1.
Proof.
  intros Hw Hb Hin. apply Hb. rewrite <- (install_writes_fst V bl).
  apply list_elem_of_fmap in Hin as (x & -> & Hx). by apply list_elem_of_fmap_2, Hw.
Qed.

(** A crash before the header is written leaves the old contents. *)
Lemma crash_logging k :
  (k <= n)%nat -> let d := apply_writes (take k ws) d0 in
  disk_log d LS [] (V !!! LS) /\
  forall blk, blk < LS \/ LS + LOGSIZE <= blk -> recovered d LS [] (V !!! LS) !! blk = d0 !! blk.
Proof.
  intros Hk d. assert (Hd : d = apply_writes (take k (log_writes V LS bl)) d0).
  { unfold d, commit_writes. rewrite take_app_le; [done|]. unfold log_writes. by rewrite length_imap. }
  assert (Hsub : take k (log_writes V LS bl) ⊆ log_writes V LS bl) by apply take_sub.
  destruct cm_header as (h & Hh & Eh & _). split.
  - apply disk_log_empty; [|apply CM|apply cm_prefix_area|apply CM]. rewrite Hd, Eh.
    rewrite apply_writes_ne by (apply log_writes_out; [done|lia]). rewrite <- (cm_same _ _ _ _ _ CM); [done|].
    apply cm_out. unfold LOGSIZE, MAXOPBLOCKS. lia.
  - intros blk Hb. rewrite recovered_empty, Hd by done. apply apply_writes_ne, log_writes_out; [done|lia].
Qed.

(** The disk once the header is on it, [w] being part of the installation. *)
Lemma logged_disk w :
  w ⊆ install_writes V bl ->
  let d := apply_writes (log_writes V LS bl ++ [(LS, head_of V LS l)] ++ w) d0 in
  d !! LS = Some (head_of V LS l) /\ home_writes d LS bl = install_writes V bl /\
  forall blk, blk < LS \/ LS + LOGSIZE <= blk -> blk ∉ bl -> d !! blk = V !! blk.
Proof.
  intros Hw d. assert (Hin : forall blk, LS <= blk < LS + LOGSIZE ->
    d !! blk = <[LS := head_of V LS l]> (apply_writes (log_writes V LS bl) d0) !! blk).
  { intros blk Hb. unfold d. rewrite !apply_writes_app, apply_writes_ne; [done|]. by apply install_writes_out, cm_out. }
  split_and!.
  - rewrite Hin by (unfold LOGSIZE, MAXOPBLOCKS; lia). by rewrite lookup_insert_eq.
  - apply list_eq. intros i. unfold home_writes, install_writes. rewrite list_lookup_imap, list_lookup_fmap.
    destruct (bl !! i) as [b|] eqn:Hb; [|done]. cbn. do 2 f_equal. apply lookup_total_correct.
    pose proof (lookup_lt_Some _ _ _ Hb). pose proof (lo_max _ _ _ (cm_log _ _ _ _ _ CM)).
    rewrite Hin by (unfold LOGSIZE, MAXOPBLOCKS, NBUF in *; lia). rewrite lookup_insert_ne by lia. apply apply_writes_in.
    + rewrite log_writes_fst. apply NoDup_seqZ.
    + apply list_elem_of_lookup_2 with i. unfold log_writes. by rewrite list_lookup_imap, Hb.
  - intros blk Hb Hn. unfold d. rewrite !apply_writes_app, (apply_writes_ne w) by by apply install_writes_out.
    unfold apply_writes at 1. cbn. rewrite lookup_insert_ne by (unfold LOGSIZE, MAXOPBLOCKS in *; lia).
    rewrite apply_writes_ne by (apply log_writes_out; [done|lia]). symmetry. by apply CM.
Qed.

Lemma install_writes_all d blk : (blk ∉ bl -> d !! blk = V !! blk) -> apply_writes (install_writes V bl) d !! blk = V !! blk.
Proof.
  intros Hd. destruct (decide (blk ∈ bl)) as [Hin|Hn].
  - destruct (cm_cached _ _ _ _ _ CM blk Hin) as [x Hx]. rewrite Hx. apply apply_writes_in.
    + rewrite install_writes_fst. apply CM.
    + rewrite <- (lookup_total_correct _ _ _ Hx). apply list_elem_of_fmap. by exists blk.
  - rewrite apply_writes_ne by by rewrite install_writes_fst. by apply Hd.
Qed.

(** A crash while the blocks are installed: recovery installs them all again. *)
Lemma crash_installing k :
  (n < k < length ws)%nat -> let d := apply_writes (take k ws) d0 in
  disk_log d LS bl (head_of V LS l) /\
  forall blk, blk < LS \/ LS + LOGSIZE <= blk -> recovered d LS bl (head_of V LS l) !! blk = V !! blk.
Proof.
  intros Hk d. assert (Hln : length (log_writes V LS bl) = n) by apply length_imap.
  assert (Hli : length (install_writes V bl) = n) by apply length_fmap.
  assert (Hws : length ws = (2 * n + 2)%nat) by (unfold commit_writes; rewrite !length_app, Hln, Hli; cbn; lia).
  assert (Ed : take k ws = log_writes V LS bl ++ [(LS, head_of V LS l)] ++ take (k - n - 1) (install_writes V bl)).
  { unfold commit_writes. rewrite take_app_ge, Hln by lia. f_equal. rewrite take_app_ge by (cbn; lia). f_equal. cbn [length].
    rewrite take_app_le; [done|lia]. }
  assert (Hsub : take (k - n - 1) (install_writes V bl) ⊆ install_writes V bl) by apply take_sub.
  destruct (logged_disk _ Hsub) as (Hh & Hw & Ho). rewrite <- Ed in Hh, Hw, Ho. fold d in Hh, Hw, Ho.
  destruct cm_new_head as (_ & Hn & Hb). split.
  - split; try done; try apply CM; [apply cm_prefix_area|]. intros b Hbl. apply exists_writes. by apply CM.
  - intros blk Hblk. unfold recovered, recovery_writes. rewrite apply_writes_snoc, Hw. cbn.
    rewrite lookup_insert_ne by (unfold LOGSIZE, MAXOPBLOCKS in *; lia). apply install_writes_all. by apply Ho.
Qed.

(** Once the header is empty again, the new contents are in place. *)
Lemma crash_done :
  let d := apply_writes ws d0 in let h := set_lh_n (head_of V LS l) 0 in
  disk_log d LS [] h /\
  forall blk, blk < LS \/ LS + LOGSIZE <= blk -> d !! blk = V !! blk /\ recovered d LS [] h !! blk = V !! blk.
Proof.
  intros d h. assert (Ed : d = <[LS := h]> (apply_writes (log_writes V LS bl ++ [(LS, head_of V LS l)] ++ install_writes V bl) d0)).
  { unfold d, commit_writes. rewrite !app_assoc. apply apply_writes_snoc. }
  split.
  - apply disk_log_empty; [by rewrite Ed, lookup_insert_eq|apply cm_empty_head| |apply CM].
    unfold d. rewrite <- (take_ge ws (length ws)) by lia. apply cm_prefix_area.
  - intros blk Hb. rewrite recovered_empty by done. cut (d !! blk = V !! blk); [done|].
    rewrite Ed, lookup_insert_ne by (unfold LOGSIZE, MAXOPBLOCKS in *; lia).
    rewrite !apply_writes_app. apply install_writes_all. intros Hn. unfold apply_writes at 1. cbn.
    rewrite lookup_insert_ne by (unfold LOGSIZE, MAXOPBLOCKS in *; lia).
    rewrite apply_writes_ne by (apply log_writes_out; [done|lia]). symmetry. by apply CM.
Qed.

(** Whatever the number of writes that reached the disk, recovery finds a
    well-formed log and the result is the old or the new contents. *)
Lemma crash_any k :
  let d := apply_writes (take k ws) d0 in exists bl' h', disk_log d LS bl' h' /\
  forall blk, blk < LS \/ LS + LOGSIZE <= blk ->
    recovered d LS bl' h' !! blk = if decide (k <= n)%nat then d0 !! blk else V !! blk.
Proof.
  intros d. destruct (decide (k <= n)%nat) as [Hk|Hk].
  - destruct (crash_logging k Hk). by eexists _, _.
  - destruct (decide (k < length ws)%nat) as [Hk'|Hk'].
    + destruct (crash_installing k) as [? ?]; [lia|]. by eexists _, _.
    + destruct crash_done as [? H]. unfold d. rewrite take_ge by lia. eexists _, _. split; [done|]. intros blk Hb. by apply H.
Qed.

End Crash.

(** ** commit() as a whole *)

Lemma fs_step_set_log p s s' l : fs_step p s s' -> fs_step p (k_set_log l s) (k_set_log l s').
Proof. intros [E P]. split; [|done]. by rewrite E at 1. Qed.

Lemma commit_log_spec p s V LS bl :
  cache p s (pins bl) ∅ V -> committing (disk s) V LS (k_log s) bl ->
  let ws := log_writes V LS bl ++ [(LS, head_of V LS (k_log s))] in
  exists s1 s2, write_log s = Ok tt s1 /\ write_head s1 = Ok tt s2 /\ fs_step p s s2 /\
    k_writes s2 = rev ws ++ k_writes s /\ cache p s2 (pins bl) ∅ (apply_writes ws V).
Proof.
  intros C CM ws. pose proof (cm_log _ _ _ _ _ CM) as Hl.
  destruct (write_log_spec p s V LS bl C Hl (cm_area _ _ _ _ _ CM)) as (s1 & E1 & F1 & W1 & C1).
  destruct (cm_header _ _ _ _ _ CM) as (h & Hh & Eh & _).
  destruct (write_head_spec p s1 (pins bl) (apply_writes (log_writes V LS bl) V) LS bl h C1) as (s2 & E2 & F2 & W2 & C2).
  - by rewrite (fs_step_log _ _ _ F1).
  - apply pins_out, (cm_out _ _ _ _ _ CM). unfold LOGSIZE, MAXOPBLOCKS. lia.
  - pose proof (size_pins bl). pose proof (lo_max _ _ _ Hl). lia.
  - rewrite apply_writes_ne; [done|]. apply (log_writes_out _ _ _ _ _ CM); [done|lia].
  - exists s1, s2. rewrite (fs_step_log _ _ _ F1), <- Eh in W2, C2. fold (head_of V LS (k_log s)) in W2, C2.
    split_and!; [done|done|by etrans| |].
    + unfold ws. rewrite W2, W1, rev_app_distr. done.
    + unfold ws. by rewrite apply_writes_snoc.
Qed.

Lemma commit_spec p s V LS bl :
  cache p s (pins bl) ∅ V -> committing (disk s) V LS (k_log s) bl ->
  let ws := commit_writes V LS (k_log s) bl in
  exists s', commit s = Ok tt s' /\ k_writes s' = rev ws ++ k_writes s /\
    fs_step p (k_set_log (l_set_n 0 (k_log s)) s) s' /\ cache p s' ∅ ∅ (apply_writes ws V).
Proof.
  intros C CM ws. unfold commit. mlog. set (l := k_log s) in *. pose proof (cm_log _ _ _ _ _ CM) as Hl.
  replace (0 <? l_n l) with true.
  2: { rewrite (lo_n _ _ _ Hl). pose proof (cm_nonempty _ _ _ _ _ CM). by destruct bl. }
  destruct (commit_log_spec p s V LS bl C CM) as (s1 & s2 & E1 & E2 & F2 & W2 & C2). mrun E1. mrun E2. fold l in W2, C2.
  set (V2 := apply_writes _ V) in C2.
  assert (EV2 : V2 = <[LS := head_of V LS l]> (apply_writes (log_writes V LS bl) V)) by apply apply_writes_snoc.
  pose proof (cm_writes_length _ _ _ _ _ CM) as Hfl. unfold commit_writes in Hfl. rewrite app_assoc in Hfl. apply Forall_app in Hfl as [Hfl _].
  destruct (install_trans_spec p s2 V2 LS bl 0 C2) as (s3 & E3 & F3 & W3 & C3);
    [by rewrite (fs_step_log _ _ _ F2)|apply area_writes; [apply CM|done]|intros b Hb; by apply exists_writes, (cm_cached _ _ _ _ _ CM)|].
  mrun E3. replace (home_writes V2 LS bl) with (install_writes V bl) in W3, C3 by (rewrite EV2; symmetry; by apply (home_writes_logged V LS l)). unfold upd_log. mred. set (s4 := k_set_log _ s3).
  assert (Hlog : k_log s4 = l_set_n 0 l).
  { change (k_log s4) with (l_set_n 0 (k_log s3)). by rewrite (fs_step_log _ _ _ F3), (fs_step_log _ _ _ F2). }
  destruct (write_head_spec p s4 ∅ (apply_writes (install_writes V bl) V2) LS [] (head_of V LS l) (cache_log _ _ _ _ _ _ C3)) as (s5 & E5 & F5 & W5 & C5).
  { rewrite Hlog. by eapply log_ok_empty. } { done. } { rewrite map_size_empty. unfold NBUF. lia. }
  { rewrite apply_writes_ne, EV2, lookup_insert_eq; [done|]. rewrite install_writes_fst. apply (cm_out _ _ _ _ _ CM). unfold LOGSIZE, MAXOPBLOCKS. lia. }
  rewrite Hlog in W5, C5. change (head_data (head_of V LS l) (l_set_n 0 l) (seqZ 0 (l_n (l_set_n 0 l))))
    with (set_lh_n (head_of V LS l) 0) in W5, C5.
  exists s5. split; [done|]. split.
  { rewrite W5. change (k_writes s4) with (k_writes s3). rewrite W3, W2. unfold ws, commit_writes.
    rewrite !rev_app_distr. cbn. by rewrite <- !app_assoc. }
  split. { etrans; [|exact F5]. unfold s4 in Hlog |- *. cbn in Hlog. rewrite Hlog. apply fs_step_set_log. by etrans. }
  unfold ws, commit_writes. rewrite app_assoc, apply_writes_app, apply_writes_app. exact C5.
Qed.

(** A machine restarted on the disk [d], its buffer cache just initialised. *)
Record booted (p : nat) (s : kstate) (d : gmap Z (list Z)) : Prop := {
  bt_cache : cache p s ∅ ∅ d;
  bt_log : length (l_block (k_log s)) = Z.to_nat LOGSIZE
}.

Lemma length_commit_writes V LS l bl : length (commit_writes V LS l bl) = (2 * length bl + 2)%nat.
Proof. unfold commit_writes, log_writes, install_writes. rewrite !length_app, length_imap, length_fmap. cbn. lia. Qed.

(** The disks a recovery of [d] may start from: [d] itself, and what such a
    recovery leaves when it is stopped after any number of its writes, however
    often that happens. *)
Inductive crashes (sb : superblock) (d : gmap Z (list Z)) : gmap Z (list Z) -> Prop :=
| crashes_none : crashes sb d d
| crashes_again d' q s0 s1 ws j :
    crashes sb d d' -> booted q s0 d' -> initlog ROOTDEV sb s0 = Ok tt s1 ->
    k_writes s1 = rev ws ++ k_writes s0 -> crashes sb d (apply_writes (take j ws) d').

Lemma crashes_log sb d LS bl h d' :
  sb_logstart sb = LS -> disk_log d LS bl h -> crashes sb d d' ->
  exists bl' h', disk_log d' LS bl' h' /\
  forall blk, blk < LS \/ LS + LOGSIZE <= blk -> recovered d' LS bl' h' !! blk = recovered d LS bl h !! blk.
Proof.
  intros Hsb Hd. induction 1 as [|d' q s0 s1 ws j _ (bl1 & h1 & Hd1 & Hr1) [C0 Hlen] E Hw]; [by exists bl, h|].
  pose proof (cache_clean_eq _ _ _ C0) as Ed. subst d'.
  destruct (initlog_spec q s0 sb LS bl1 h1 C0 Hd1 Hsb Hlen) as (s1' & E' & _ & _ & _ & Hw').
  rewrite E in E'. injection E' as <-. rewrite Hw in Hw'. apply app_inv_tail, (f_equal (@rev _)) in Hw'.
  rewrite !rev_involutive in Hw'. subst ws.
  destruct (recovery_prefix (disk s0) LS bl1 h1 j Hd1) as (bl2 & h2 & Hd2 & Hr2).
  exists bl2, h2. split; [done|]. intros blk Hb. by rewrite Hr2, Hr1.
Qed.

(** However many of commit()'s writes reached the disk, and however recovery is
    cut short, the recovery that completes finds the old contents or the new
    ones. *)
Lemma crashes_recover d V LS l bl k sb d' q s0 :
  committing d V LS l bl -> sb_logstart sb = LS ->
  crashes sb (apply_writes (take k (commit_writes V LS l bl)) d) d' -> booted q s0 d' ->
  exists s1, initlog ROOTDEV sb s0 = Ok tt s1 /\ cache q s1 ∅ ∅ (disk s1) /\ log_ok (k_log s1) LS [] /\
    forall blk, blk < LS \/ LS + LOGSIZE <= blk ->
      disk s1 !! blk = if decide (k <= length bl)%nat then d !! blk else V !! blk.
Proof.
  intros CM Hsb Hc [C0 Hlen]. destruct (crash_any _ _ _ _ _ CM k) as (bl1 & h1 & Hd1 & Hr1).
  destruct (crashes_log _ _ _ _ _ _ Hsb Hd1 Hc) as (bl' & h' & Hd & Hr).
  pose proof (cache_clean_eq _ _ _ C0) as Ed. subst d'.
  destruct (initlog_spec q s0 sb LS bl' h' C0 Hd Hsb Hlen) as (s1 & E1 & D1 & C1 & L1 & _).
  exists s1. split_and!; [done|done|done|]. intros blk Hb. rewrite D1, Hr by done. by apply Hr1.
Qed.

Lemma crash_recovers d V LS l bl k sb q s0 :
  committing d V LS l bl -> sb_logstart sb = LS -> booted q s0 (apply_writes (take k (commit_writes V LS l bl)) d) ->
  exists s1, initlog ROOTDEV sb s0 = Ok tt s1 /\ cache q s1 ∅ ∅ (disk s1) /\ log_ok (k_log s1) LS [] /\
    forall blk, blk < LS \/ LS + LOGSIZE <= blk ->
      disk s1 !! blk = if decide (k <= length bl)%nat then d !! blk else V !! blk.
Proof. intros CM Hsb Hb. eapply crashes_recover; [done|done|apply crashes_none|done]. Qed.

Lemma recovery_after_commit p s V LS bl :
  cache p s (pins bl) ∅ V -> committing (disk s) V LS (k_log s) bl ->
  exists s', commit s = Ok tt s' /\ cache p s' ∅ ∅ (disk s') /\
    (forall blk, blk < LS \/ LS + LOGSIZE <= blk -> disk s' !! blk = V !! blk) /\
    exists ws, k_writes s' = rev ws ++ k_writes s /\ disk s' = apply_writes ws (disk s) /\
    length ws = (2 * length bl + 2)%nat /\
    forall k sb d' q s0, sb_logstart sb = LS ->
    crashes sb (apply_writes (take k ws) (disk s)) d' -> booted q s0 d' ->
    exists s1, initlog ROOTDEV sb s0 = Ok tt s1 /\ cache q s1 ∅ ∅ (disk s1) /\ log_ok (k_log s1) LS [] /\
      forall blk, blk < LS \/ LS + LOGSIZE <= blk ->
        disk s1 !! blk = if decide (k <= length bl)%nat then disk s !! blk else V !! blk.
Proof.
  intros C CM. destruct (commit_spec p s V LS bl C CM) as (s' & E & W & F & C').
  set (ws := commit_writes V LS (k_log s) bl) in *. exists s'. split; [done|].
  pose proof (disk_writes _ _ _ W (fs_step_blocks _ _ _ F)) as Ed.
  rewrite (cache_clean_eq _ _ _ C') in C'. split; [done|]. split.
  { intros blk Hb. rewrite Ed. by apply (crash_done _ _ _ _ _ CM). }
  exists ws. split; [done|]. split; [done|]. split; [apply length_commit_writes|].
  intros k sb d' q s0 Hsb Hc Hb. by apply (crashes_recover _ _ _ _ _ _ _ _ _ _ CM Hsb Hc).
Qed.

(** ** log_write() *)

Lemma log_find_absent bl blk i : (forall b, b ∈ bl -> u32 b <> blk) -> log_find bl blk i = (i + length bl)%nat.
Proof.
  revert i. induction bl as [|b bl IH]; intros i H; cbn; [lia|].
  rewrite (proj2 (Z.eqb_neq _ _)) by (apply H; left). rewrite IH; [lia|]. intros b' Hb'. apply H. by right.
Qed.

Lemma log_find_present bl blk i :
  (forall b, b ∈ bl -> u32 b = b) -> blk ∈ bl -> exists j, log_find bl blk i = (i + j)%nat /\ bl !! j = Some blk.
Proof.
  revert i. induction bl as [|b bl IH]; intros i H Hin; [by apply elem_of_nil in Hin|]. cbn. rewrite (H b) by left.
  destruct (Z.eqb_spec b blk) as [->|Hne].
  - exists 0%nat. split; [lia|done].
  - destruct (IH (S i)) as (j & E & Hj); [intros; apply H; by right|by apply elem_of_cons in Hin as [->|]|].
    exists (S j). split; [lia|done].
Qed.

Lemma log_ok_take l LS bl :
  log_ok l LS bl -> length (l_block l) = Z.to_nat LOGSIZE -> take (Z.to_nat (l_n l)) (l_block l) = bl.
Proof.
  intros Hl Hlen. pose proof (lo_max _ _ _ Hl) as Hm. rewrite (lo_n _ _ _ Hl), Nat2Z.id. apply list_eq_same_length with (length bl).
  - done.
  - rewrite length_take. unfold LOGSIZE, MAXOPBLOCKS, NBUF in *. lia.
  - intros i x y Hi Hx Hy. rewrite lookup_take in Hx. case_decide; [|lia].
    apply list_lookup_total_correct in Hx, Hy. rewrite <- Hx, <- Hy. by apply (lo_blocks _ _ _ Hl).
Qed.

(** The transaction after log_write() of [blk]. *)
Definition logged (bl : list Z) (blk : Z) : list Z := if decide (blk ∈ bl) then bl else bl ++ [blk].

Lemma log_ok_logged l LS bl blk :
  log_ok l LS bl -> length (l_block l) = Z.to_nat LOGSIZE -> blk ∉ bl -> (S (length bl) < NBUF)%nat ->
  0 <= blk < 2 ^ 31 /\ (blk < LS \/ LS + LOGSIZE <= blk) ->
  log_ok (l_set_n (l_n l + 1) (l_set_block (<[length bl := blk]> (l_block l)) l)) LS (bl ++ [blk]).
Proof.
  intros Hl Hlen Hn Hmax Hblk. destruct Hl as [? ? En Hb ? ? Hnd Hh]. split; try done; cbn.
  - rewrite length_app. cbn. lia.
  - rewrite length_app. cbn. intros i Hi. destruct (decide (i = length bl)) as [->|Hne].
    + rewrite list_lookup_total_insert_eq by (unfold LOGSIZE, MAXOPBLOCKS, NBUF in *; lia).
      by rewrite lookup_total_app_r, Nat.sub_diag by lia.
    + rewrite list_lookup_total_insert_ne, Hb, lookup_total_app_l by lia. done.
  - rewrite length_app. cbn. lia.
  - apply NoDup_app. split_and!; [done| |apply NoDup_singleton]. intros x Hx ->%list_elem_of_singleton. done.
  - apply Forall_app. split; [done|]. by apply Forall_singleton.
Qed.

(** log_write() leaves the rest of the log as it is. *)
Record log_same (l l' : logst) : Prop := {
  ls_size : l_size l' = l_size l;
  ls_len : length (l_block l') = length (l_block l);
  ls_outstanding : l_outstanding l' = l_outstanding l;
  ls_committing : l_committing l' = l_committing l
}.

#[export] Instance log_same_refl : Reflexive log_same.
Proof. by split. Qed.
#[export] Instance log_same_trans : Transitive log_same.
Proof. intros l1 l2 l3 [] []. split; congruence. Qed.

Lemma log_write_spec p s R H V LS bl b blk n :
  cache p s R H V -> log_ok (k_log s) LS bl -> buf_of s b blk -> R !! blk = Some n -> n < 2 ^ 31 ->
  length (l_block (k_log s)) = Z.to_nat LOGSIZE -> l_size (k_log s) <= LOGSIZE ->
  0 <= blk < 2 ^ 31 /\ (blk < LS \/ LS + LOGSIZE <= blk) ->
  1 <= l_outstanding (k_log s) -> l_n (k_log s) < l_size (k_log s) - 1 ->
  exists s', log_write b s = Ok tt s' /\ log_ok (k_log s') LS (logged bl blk) /\
    s' = k_set_log (k_log s') (k_set_bufs (k_bufs s') s) /\ log_same (k_log s) (k_log s') /\
    cache p s' (if decide (blk ∈ bl) then R else <[blk := n + 1]> R) H V /\
    (forall b' blk', buf_of s' b' blk' <-> buf_of s b' blk').
Proof.
  intros C Hl Hb HR Hn Hlen Hsz Hblk Hout Hfull. pose proof (ca_run _ _ _ _ _ C) as Hr.
  pose proof (lo_n _ _ _ Hl) as En.
  unfold log_write. mrun (acquire_eq LK_log s (running_free _ _ _ Hr)). mlog.
  change (k_log (locked LK_log s)) with (k_log s).
  replace (_ || _) with false by (symmetry; apply orb_false_iff; rewrite !Z.leb_gt; lia).
  rewrite (proj2 (Z.ltb_ge _ _)) by lia. unfold buf_at, upd_log. mred.
  change (k_bufs (locked LK_log s)) with (k_bufs s). change (k_log (locked LK_log s)) with (k_log s). pose proof Hb as (Hlt & _ & Ebn). rewrite Ebn.
  rewrite (log_ok_take _ _ _ Hl Hlen), (s32_small blk) by lia.
  assert (Hu : forall b, b ∈ bl -> u32 b = b).
  { intros b' Hb'. apply u32_small. destruct (log_home_apart _ _ _ _ Hl Hb'). lia. }
  unfold logged. destruct (decide (blk ∈ bl)) as [Hin|Hnin].
  - destruct (log_find_present bl blk 0 Hu Hin) as (j & -> & Hj). cbn [Nat.add].
    pose proof (lookup_lt_Some _ _ _ Hj). rewrite (proj2 (Z.eqb_neq _ _)) by lia. mred.
    exists s. split; [|split_and!; try done; by destruct s]. rewrite list_insert_id; [leave LK_log; [apply Hr|apply (running_free _ _ _ Hr)]|].
    apply list_lookup_alt. split; [rewrite Hlen; lia|].
    rewrite (lo_blocks _ _ _ Hl) by done. by apply list_lookup_total_correct.
  - rewrite log_find_absent by (intros b' Hb' Eb; rewrite (Hu b' Hb') in Eb; by subst).
    cbn [Nat.add]. rewrite (proj2 (Z.eqb_eq _ _)) by lia.
    set (l1 := l_set_block _ (k_log s)). unfold bpin.
    change (k_set_log l1 (locked LK_log s)) with (locked LK_log (k_set_log l1 s)).
    assert (Hs1 : settled (locked LK_log (k_set_log l1 s))).
    { apply settled_locked; [apply Hr|]. change (depth s + 1 < 2 ^ 30). rewrite (rn_depth _ _ Hr). lia. }
    assert (Hrc : u32 (b_refcnt (bf s b) + 1) = n + 1).
    { rewrite (ca_ref _ _ _ _ _ C b blk Hb), (refs_some _ _ _ HR).
      destruct (ca_pinned _ _ _ _ _ C blk n HR) as [? _]. apply u32_small. lia. }
    mrun (set_refcnt_eq (locked LK_log (k_set_log l1 s)) b (fun r => u32 (r + 1)) (n + 1) Hs1
      (lock_free_locked LK_bcache LK_log s ltac:(done) (running_free _ _ LK_bcache Hr)) Hrc).
    exists (k_set_log (l_set_n (l_n (k_log s) + 1) l1) (k_set_bufs (alter (b_set_refcnt (n + 1)) b (k_bufs s)) s)).
    split; [leave LK_log; [apply Hr|apply (running_free _ _ LK_log Hr)]|].
    split. { apply log_ok_logged; try done. unfold LOGSIZE, MAXOPBLOCKS, NBUF in *. lia. }
    split; [done|]. split; [by split; cbn; [|rewrite length_insert|..]|].
    destruct (set_refcnt_spec p s R H V b blk n (n + 1) (<[blk := n + 1]> R) C Hb HR) as [C' Hiff].
    + intros blk' Hne. by rewrite lookup_insert_ne.
    + apply refs_insert_eq.
    + intros m. rewrite lookup_insert_eq. intros [= <-]. destruct (ca_pinned _ _ _ _ _ C blk n HR). lia.
    + by rewrite lookup_insert_eq.
    + by rewrite lookup_insert_eq.
    + split; [by apply cache_log|exact Hiff].
Qed.

End LogSpec.

(** ** The contract of log.c *)

Section Claims.
Context `{D : BlockDev}.

(** C2: commit() is atomic with respect to crashes. Let the transaction's
    blocks [bl] be pinned in the cache with the contents [V]. commit() issues
    2n+2 block writes. Afterwards the disk has the new contents. And whatever
    number [k] of these writes reached the disk when the machine stopped, and
    however many recoveries then stopped after any number of their own writes
    ([crashes]), initlog() on the restarted machine succeeds, empties the log,
    and leaves outside the log area either the old contents of every block (when
    the header had not been written, k <= n) or the new contents of every
    block. *)
Theorem commit_crash_safe p s V LS bl :
  cache p s (pins bl) ∅ V -> committing (disk s) V LS (k_log s) bl ->
  exists s', commit s = Ok tt s' /\ cache p s' ∅ ∅ (disk s') /\
    (forall blk, blk < LS \/ LS + LOGSIZE <= blk -> disk s' !! blk = V !! blk) /\
    exists ws, k_writes s' = rev ws ++ k_writes s /\ disk s' = apply_writes ws (disk s) /\
    length ws = (2 * length bl + 2)%nat /\
    forall k sb d' q s0, sb_logstart sb = LS ->
    crashes sb (apply_writes (take k ws) (disk s)) d' -> booted q s0 d' ->
    exists s1, initlog ROOTDEV sb s0 = Ok tt s1 /\ cache q s1 ∅ ∅ (disk s1) /\ log_ok (k_log s1) LS [] /\
      forall blk, blk < LS \/ LS + LOGSIZE <= blk ->
        disk s1 !! blk = if decide (k <= length bl)%nat then disk s !! blk else V !! blk.
Proof. apply recovery_after_commit. Qed.

(** log_write() of a buffer the caller holds, inside a transaction with
    room, records the block: a block already in the transaction is absorbed
    and nothing changes; a new one is appended and its buffer pinned with one
    more reference, so that it stays in the cache until commit(). Nothing is
    written to the disk, and the log stays well formed. *)
Theorem log_write_records p s R H V LS bl b blk n :
  cache p s R H V -> log_ok (k_log s) LS bl -> buf_of s b blk -> R !! blk = Some n -> n < 2 ^ 31 ->
  length (l_block (k_log s)) = Z.to_nat LOGSIZE -> l_size (k_log s) <= LOGSIZE ->
  0 <= blk < 2 ^ 31 /\ (blk < LS \/ LS + LOGSIZE <= blk) ->
  1 <= l_outstanding (k_log s) -> l_n (k_log s) < l_size (k_log s) - 1 ->
  exists s', log_write b s = Ok tt s' /\ log_ok (k_log s') LS (logged bl blk) /\
    k_writes s' = k_writes s /\ k_blocks s' = k_blocks s /\
    cache p s' (if decide (blk ∈ bl) then R else <[blk := n + 1]> R) H V /\
    (forall b' blk', buf_of s' b' blk' <-> buf_of s b' blk').
Proof.
  intros C Hl Hb HR Hn Hlen Hsz Hblk Hout Hfull.
  destruct (log_write_spec p s R H V LS bl b blk n) as (s' & E & Hl' & Es & _ & C' & K'); try done.
  exists s'. split_and!; try done; by rewrite Es.
Qed.

End Claims.

(** ** A transaction of one block *)

Module LogExample.
Import RamDisk.

(** The log of 30 blocks at block 2, one system call running. *)
Definition log0 : logst := mkLog 2 30 1 0 1 0 (replicate 30 0).
Definition ones : list Z := replicate 1024 1.

Definition V0 : gmap Z (list Z) := zeros 50.
Definition V1 : gmap Z (list Z) := <[45 := ones]> V0.

Lemma log0_ok : log_ok log0 2 [].
Proof.
  split; try done.
  - cbn. lia.
  - apply Nat.ltb_lt. reflexivity.
  - apply NoDup_nil_2.
Qed.

(** Block 45 read and modified, the buffer still held. *)
Lemma holding_45 : exists s b, cache 3 s {[45 := 1]} {[45]} V1 /\ buf_of s b 45 /\ k_log s = log0 /\
  k_writes s = [] /\ k_blocks s = V0.
Proof.
  destruct (machine_cache V0 (fun blk d => zeros_range 50 blk d ltac:(lia))) as (bs & _ & C). set (s0 := k_set_log log0 (k_set_bufs bs (machine V0))).
  destruct (bread_spec 3 s0 ∅ ∅ V0 45 (replicate 1024 0) (cache_log _ _ _ _ _ log0 C)) as (b & s1 & E1 & F1 & W1 & Hb & C1 & _).
  - by intros ?%elem_of_empty.
  - by apply zeros_lookup.
  - done.
  - right. apply Nat.ltb_lt. reflexivity.
  - destruct (upd_data_spec 3 s1 _ _ V0 b 45 (fun _ => ones) C1 Hb) as (E2 & F2 & C2 & K2); [set_solver|].
    rewrite union_empty_r_L in C2. set (s2 := k_set_bufs _ s1) in *. exists s2, b.
    split; [exact C2|]. split; [by apply K2|].
    rewrite (fs_step_log _ _ _ F2), (fs_step_log _ _ _ F1), (fs_step_blocks _ _ _ F2), (fs_step_blocks _ _ _ F1).
    split; [reflexivity|]. split; [exact W1|reflexivity].
Qed.

Lemma pinned_45 : exists s, cache 3 s (pins [45]) ∅ V1 /\ log_ok (k_log s) 2 [45] /\ disk s = V0.
Proof.
  destruct holding_45 as (s & b & C & Hb & El & Ew & Eb).
  destruct (log_write_spec 3 s {[45 := 1]} {[45]} V1 2 [] b 45 1 C) as (s' & E & Hl & Es & _ & C' & K');
    try (by rewrite El); [rewrite El; apply log0_ok|done|by rewrite lookup_singleton_eq|done|unfold LOGSIZE, MAXOPBLOCKS; lia|].
  destruct (decide (45 ∈ [])) as [?%elem_of_nil|_]; [done|]. unfold singletonM, map_singleton in C'.
  rewrite insert_insert_eq in C'.
  destruct (brelse_spec 3 s' _ _ V1 b 45 2 C') as (s2 & E2 & F2 & W2 & C2 & _);
    [by apply K'|set_solver|by rewrite lookup_insert_eq|lia|lia|].
  exists s2. rewrite (fs_step_log _ _ _ F2). split_and!; [|exact Hl|].
  - replace ({[45]} ∖ {[45]} : gset Z) with (∅ : gset Z) in C2 by set_solver. exact C2.
  - unfold disk. rewrite W2, (fs_step_blocks _ _ _ F2), Es. cbn. by rewrite Ew, Eb.
Qed.

Lemma committing_45 : exists s, cache 3 s (pins [45]) ∅ V1 /\ committing (disk s) V1 2 (k_log s) [45] /\ disk s = V0.
Proof.
  destruct pinned_45 as (s & C & Hl & Hd). exists s. split; [exact C|]. split; [|exact Hd].
  assert (H45 : forall b, b ∈ [45] -> b = 45) by (intros b; apply list_elem_of_singleton).
  rewrite Hd. split.
  - exact Hl.
  - done.
  - intros i Hi. exists (replicate 1024 0). unfold V1, LOGSIZE, MAXOPBLOCKS in *.
    rewrite lookup_insert_ne by lia. split; [apply zeros_lookup; lia|apply length_replicate].
  - unfold V1. rewrite lookup_total_insert_ne by lia. unfold V0. by rewrite (lookup_total_correct _ _ _ (zeros_lookup 50 2 ltac:(lia))).
  - intros blk Hb. unfold V1. rewrite lookup_insert_ne; [done|]. intros <-. by apply Hb, list_elem_of_singleton.
  - intros b ->%H45. unfold V0. by rewrite zeros_lookup by lia.
  - intros b d. unfold V1. destruct (decide (b = 45)) as [->|Hne].
    + rewrite lookup_insert_eq. intros [= <-]. apply length_replicate.
    + rewrite lookup_insert_ne by done. intros ->%zeros_data. apply length_replicate.
  - intros b ->%H45. unfold V1. by rewrite lookup_insert_eq.
Qed.

(** A machine booted on any disk. *)
Lemma boots d : (forall blk x, d !! blk = Some x -> 0 <= blk < 2 ^ 31) -> exists s, booted 3 s d.
Proof. intros Hd. destruct (machine_cache d Hd) as (bs & _ & C). eexists. by split; [exact C|]. Qed.

(** Cut after the second write, the header's, the transaction is recovered;
    cut after the first, it never happened. *)
Lemma commit_crash_safe_witness : exists s s', commit s = Ok tt s' /\ disk s' !! 45 = Some ones /\
  exists s1 s2, disk s1 !! 45 = Some (replicate 1024 0) /\ disk s2 !! 45 = Some ones.
Proof.
  destruct committing_45 as (s & C & CM & Hd).
  destruct (commit_crash_safe (D := ram_disk) 3 s V1 2 [45] C CM) as (s' & E & C' & Hnew & ws & _ & Hws & _ & Hcrash).
  assert (H45 : V1 !! 45 = Some ones) by (unfold V1; by rewrite lookup_insert_eq).
  assert (Hout : 45 < 2 \/ 2 + LOGSIZE <= 45) by (unfold LOGSIZE, MAXOPBLOCKS; lia).
  exists s, s'. split; [exact E|]. split; [rewrite Hnew by exact Hout; exact H45|].
  assert (Hrange : forall k blk x, apply_writes (take k ws) (disk s) !! blk = Some x -> 0 <= blk < 2 ^ 31).
  { intros k blk x Hx. destruct (exists_writes (drop k ws) (apply_writes (take k ws) (disk s)) blk) as [y Hy]; [by rewrite Hx|].
    rewrite <- apply_writes_app, take_drop, <- Hws in Hy. by apply (ca_range _ _ _ _ _ C' blk y). }
  destruct (boots _ (Hrange 1%nat)) as [m1 B1]. destruct (boots _ (Hrange 2%nat)) as [m2 B2].
  destruct (Hcrash 1%nat (mkSb 0 0 0 0 0 2 0 0) _ 3%nat m1 eq_refl (crashes_none _ _) B1) as (s1 & _ & _ & _ & H1).
  destruct (Hcrash 2%nat (mkSb 0 0 0 0 0 2 0 0) _ 3%nat m2 eq_refl (crashes_none _ _) B2) as (s2 & _ & _ & _ & H2).
  exists s1, s2. split.
  - rewrite H1 by exact Hout. rewrite decide_True by (cbn; lia). rewrite Hd. apply zeros_lookup. lia.
  - rewrite H2 by exact Hout. rewrite decide_False by (cbn; lia). exact H45.
Defined.

Lemma log_write_records_witness : exists s b s', log_write b s = Ok tt s' /\ log_ok (k_log s') 2 [45] /\
  cache 3 s' {[45 := 2]} {[45]} V1 /\ k_writes s' = [] /\ k_blocks s' = V0 /\ buf_of s' b 45.
Proof.
  destruct holding_45 as (s & b & C & Hb & El & Ew & Eb).
  destruct (log_write_records (D := ram_disk) 3 s {[45 := 1]} {[45]} V1 2 [] b 45 1 C) as (s' & E & Hl & W & B & C' & K').
  - rewrite El. apply log0_ok.
  - done.
  - by rewrite lookup_singleton_eq.
  - done.
  - by rewrite El.
  - by rewrite El.
  - unfold LOGSIZE, MAXOPBLOCKS. lia.
  - by rewrite El.
  - by rewrite El.
  - exists s, b, s'. split; [exact E|]. split; [exact Hl|]. rewrite W, B. split; [|split_and!; [done|done|by apply K']].
    destruct (decide (45 ∈ [])) as [?%elem_of_nil|_]; [done|]. unfold singletonM, map_singleton in C'.
    rewrite insert_insert_eq in C'. exact C'.
Defined.

End LogExample.
