(* ===== verification/FsTx.v ===== *)
(** The file system's view of the layers below it: inside a transaction, the
    blocks of the disk are a map from block numbers to contents.

    [tx] combines the invariants of the buffer cache and of the log: the
    caller holds the buffers of [H], the transaction so far has written the
    blocks [bl], and [V] is what anyone who reads a block finds. bread(),
    brelse() and log_write() act on it as fs.c expects, and at the end of the
    transaction it is the state that commit() starts from. *)

From S2P Require Import Prelude Riscv State Spinlock Sched Sleeplock Printf PrintfSpec Bio BioSpec Log LogSpec.

(** The references to a block: the caller's, the transaction's. *)
Definition uses (bl : list Z) (H : gset Z) (blk : Z) : Z :=
  (if bool_decide (blk ∈ H) then 1 else 0) + (if bool_decide (blk ∈ bl) then 1 else 0).

(** A block outside the log. *)
Definition home (LS blk : Z) : Prop := 0 <= blk < 2 ^ 31 /\ (blk < LS \/ LS + LOGSIZE <= blk).

Definition block_ok (d : list Z) : Prop := length d = 1024%nat /\ Forall is_byte d.

(** What the file system's work on blocks may change. *)
Record tx_step (p : nat) (s s' : kstate) : Prop := {
  ts_eq : s' = k_set_procs (k_procs s') (k_set_vdisk (k_vdisk s') (k_set_log (k_log s')
            (k_set_uart (k_uart s') (k_set_bufs (k_bufs s') s))));
  ts_procs : procs_rel p (k_procs s) (k_procs s');
  ts_log : log_same (k_log s) (k_log s')
}.

#[export] Instance tx_step_refl p : Reflexive (tx_step p).
Proof. intros s. split; [by destruct s|reflexivity|reflexivity]. Qed.

#[export] Instance tx_step_trans p : Transitive (tx_step p).
Proof.
  intros s1 s2 s3 [E1 P1 L1] [E2 P2 L2]. split; [|by etrans|by etrans].
  rewrite E2 at 1. rewrite E1. reflexivity.
Qed.

Lemma fs_tx_step p s s' : fs_step p s s' -> k_writes s' = k_writes s -> tx_step p s s'.
Proof.
  intros [E P] W. split; [|done|by rewrite E]. rewrite E. rewrite W. by destruct s.
Qed.

Section Frame.
Context (p : nat) (s s' : kstate) (T : tx_step p s s').

Lemma ts_mem : k_mem s' = k_mem s.
Proof. destruct T as [E _ _]. by rewrite E. Qed.
Lemma ts_inodes : k_inodes s' = k_inodes s.
Proof. destruct T as [E _ _]. by rewrite E. Qed.
Lemma ts_sb : k_sb s' = k_sb s.
Proof. destruct T as [E _ _]. by rewrite E. Qed.
Lemma ts_panicked : k_panicked s' = k_panicked s.
Proof. destruct T as [E _ _]. by rewrite E. Qed.
Lemma ts_disk : disk s' = disk s.
Proof. destruct T as [E _ _]. by rewrite E. Qed.
Lemma ts_writes : k_writes s' = k_writes s.
Proof. destruct T as [E _ _]. by rewrite E. Qed.
Lemma ts_proc : k_procs s' !!! p = k_procs s !!! p.
Proof. destruct T as [_ [_ E] _]. by rewrite !list_lookup_total_alt, E. Qed.

End Frame.

Lemma tx_step_mem p s s' m : tx_step p s s' -> tx_step p (k_set_mem m s) (k_set_mem m s').
Proof. intros [E P L]. split; [|done|done]. rewrite E at 1. by destruct s. Qed.

Section Tx.
Context `{D : BlockDev}.

Record tx (p : nat) (LS : Z) (s : kstate) (bl : list Z) (H : gset Z) (V : gmap Z (list Z)) : Prop := {
  tx_cache : exists R, cache p s R H V /\ forall blk, refs R blk = uses bl H blk;
  tx_log : log_ok (k_log s) LS bl;
  tx_size : l_size (k_log s) = LOGSIZE;
  tx_len : length (l_block (k_log s)) = Z.to_nat LOGSIZE;
  tx_open : 1 <= l_outstanding (k_log s);
  tx_clean blk : blk ∉ bl -> V !! blk = disk s !! blk;
  tx_exists blk : blk ∈ bl -> is_Some (disk s !! blk);
  tx_data blk d : V !! blk = Some d -> block_ok d;
  tx_quiet : k_panicked s = 0
}.

Lemma tx_running p LS s bl H V : tx p LS s bl H V -> running p s.
Proof. intros T. destruct (tx_cache _ _ _ _ _ _ T) as (R & C & _). apply C. Qed.

Lemma tx_range p LS s bl H V blk d : tx p LS s bl H V -> V !! blk = Some d -> 0 <= blk < 2 ^ 31.
Proof. intros T. destruct (tx_cache _ _ _ _ _ _ T) as (R & C & _). apply C. Qed.

(** A buffer of the cache shows the contents of its block. *)
Lemma tx_buf p LS s bl H V b blk : tx p LS s bl H V -> buf_of s b blk -> V !! blk = Some (b_data (bf s b)).
Proof. intros T Hb. destruct (tx_cache _ _ _ _ _ _ T) as (R & C & _). by apply (ca_data _ _ _ _ _ C). Qed.

Lemma tx_buf_total p LS s bl H V b blk : tx p LS s bl H V -> buf_of s b blk -> b_data (bf s b) = V !!! blk.
Proof. intros T Hb. symmetry. apply lookup_total_correct. by eapply tx_buf. Qed.

Lemma refs_lookup p s R H V blk n : cache p s R H V -> refs R blk = n -> 0 < n -> R !! blk = Some n.
Proof. intros C E Hn. unfold refs in E. destruct (R !! blk); cbn in *; [by subst|lia]. Qed.

Lemma refs_zero p s R H V blk : cache p s R H V -> refs R blk = 0 -> R !! blk = None.
Proof.
  intros C E. unfold refs in E. destruct (R !! blk) as [n|] eqn:En; cbn in *; [|done].
  destruct (ca_pinned _ _ _ _ _ C _ _ En). lia.
Qed.

(** The blocks in use are those held and those logged. *)
Lemma size_uses p s R bl H V : cache p s R H V -> (forall blk, refs R blk = uses bl H blk) -> NoDup bl ->
  (size R <= length bl + size H)%nat.
Proof.
  intros C Hu Hnd. rewrite <- size_dom.
  assert (dom R ⊆ list_to_set bl ∪ H) as Hsub.
  { intros blk [n Hn]%elem_of_dom. pose proof (Hu blk) as E. unfold refs in E. rewrite Hn in E. cbn in E.
    destruct (ca_pinned _ _ _ _ _ C _ _ Hn) as [Hp _]. unfold uses in E.
    rewrite elem_of_union, elem_of_list_to_set.
    destruct (bool_decide (blk ∈ H)) eqn:EH; [right; by apply bool_decide_eq_true in EH|].
    destruct (bool_decide (blk ∈ bl)) eqn:Eb; [left; by apply bool_decide_eq_true in Eb|]. lia. }
  apply subseteq_size in Hsub. rewrite size_union_alt in Hsub.
  rewrite size_list_to_set in Hsub by done.
  pose proof (subseteq_size (H ∖ list_to_set bl) H ltac:(set_solver)). lia.
Qed.

(** bread() of a block no one else holds. *)
Lemma tx_bread p LS s bl H V blk d :
  tx p LS s bl H V -> blk ∉ H -> V !! blk = Some d -> (length bl + size H < NBUF)%nat ->
  exists b s', bread ROOTDEV blk s = Ok b s' /\ tx_step p s s' /\ buf_of s' b blk /\ b_data (bf s' b) = d /\
    tx p LS s' bl ({[blk]} ∪ H) V /\ forall b' blk', blk' ∈ H -> buf_of s b' blk' -> buf_of s' b' blk'.
Proof.
  intros T HH HV Hroom. pose proof T as [(R & C & Hu) Hl ? ? ? Hcl Hex Hd ?].
  pose proof (Hu blk) as Eu. unfold uses in Eu. rewrite (bool_decide_eq_false_2 _ HH) in Eu.
  destruct (bread_spec p s R H V blk d C HH HV) as (b & s' & E & F & W & Hb & C' & K).
  - rewrite Eu. case_match; lia.
  - right. pose proof (size_uses p s R bl H V C Hu (lo_nodup _ _ _ Hl)). lia.
  - pose proof (fs_tx_step _ _ _ F W) as Ts. exists b, s'.
    assert (tx p LS s' bl ({[blk]} ∪ H) V) as T'.
    { split; rewrite ?(fs_step_log _ _ _ F); try done.
      - exists (<[blk := refs R blk + 1]> R). split; [done|]. intros blk'. unfold uses.
        destruct (decide (blk' = blk)) as [->|Hne].
        + rewrite refs_insert_eq, Eu, (bool_decide_eq_true_2 (blk ∈ {[blk]} ∪ H)) by set_solver. lia.
        + rewrite refs_insert_ne by done. rewrite Hu. unfold uses.
          rewrite (bool_decide_ext (blk' ∈ {[blk]} ∪ H) (blk' ∈ H)) by set_solver. done.
      - intros. rewrite (ts_disk _ _ _ Ts). by apply Hcl.
      - intros. rewrite (ts_disk _ _ _ Ts). by apply Hex.
      - by rewrite (ts_panicked _ _ _ Ts). }
    split_and!; try done.
    + pose proof (tx_buf _ _ _ _ _ _ _ _ T' Hb). congruence.
    + intros b' blk' Hin. apply K. by apply (ca_held _ _ _ _ _ C).
Qed.

(** brelse() of a held block. *)
Lemma tx_brelse p LS s bl H V b blk :
  tx p LS s bl H V -> blk ∈ H -> buf_of s b blk ->
  exists s', brelse b s = Ok tt s' /\ tx_step p s s' /\ tx p LS s' bl (H ∖ {[blk]}) V /\
    forall b' blk', buf_of s b' blk' -> buf_of s' b' blk'.
Proof.
  intros T HH Hb. pose proof T as [(R & C & Hu) Hl ? ? ? Hcl Hex Hd ?].
  pose proof (Hu blk) as Eu. unfold uses in Eu. rewrite (bool_decide_eq_true_2 _ HH) in Eu.
  set (n := if bool_decide (blk ∈ bl) then 1 else 0) in Eu.
  assert (Hn : 0 <= n <= 1) by (unfold n; case_match; lia).
  pose proof (refs_lookup _ _ _ _ _ _ _ C Eu ltac:(lia)) as HR.
  destruct (brelse_spec p s R H V b blk (1 + n) C Hb HH HR) as (s' & E & F & W & C' & K); [lia| |].
  { intros En. apply Hcl. intros Hin. unfold n in En. rewrite (bool_decide_eq_true_2 _ Hin) in En. lia. }
  pose proof (fs_tx_step _ _ _ F W) as Ts. exists s'. split_and!; try done.
  split; rewrite ?(fs_step_log _ _ _ F); try done.
  - eexists. split; [done|]. intros blk'. unfold uses. destruct (decide (blk' = blk)) as [->|Hne].
    + rewrite (refs_drop_ref _ _ _ HR), (bool_decide_eq_false_2 (blk ∈ H ∖ {[blk]})) by set_solver. fold n. lia.
    + unfold refs. rewrite drop_ref_ne by done. fold (refs R blk'). rewrite Hu. unfold uses.
      rewrite (bool_decide_ext (blk' ∈ H ∖ {[blk]}) (blk' ∈ H)) by set_solver. done.
  - intros. rewrite (ts_disk _ _ _ Ts). by apply Hcl.
  - intros. rewrite (ts_disk _ _ _ Ts). by apply Hex.
  - by rewrite (ts_panicked _ _ _ Ts).
Qed.

Lemma logged_in bl blk x : x ∈ logged bl blk <-> x ∈ bl \/ x = blk.
Proof. unfold logged. destruct (decide _); set_solver. Qed.

Lemma length_logged bl blk : (length (logged bl blk) <= S (length bl))%nat.
Proof. unfold logged. destruct (decide _); rewrite ?length_app; cbn; lia. Qed.

(** Changing a held block and logging it. *)
Lemma tx_log_write p LS s bl H V b blk (g : buf -> list Z) :
  tx p LS s bl H V -> blk ∈ H -> buf_of s b blk -> home LS blk -> block_ok (g (bf s b)) ->
  Z.of_nat (length bl) < LOGSIZE - 1 ->
  exists s1 s', upd_buf b (fun x => b_set_data (g x) x) s = Ok tt s1 /\ log_write b s1 = Ok tt s' /\
    tx_step p s s' /\ tx p LS s' (logged bl blk) H (<[blk := g (bf s b)]> V) /\
    forall b' blk', buf_of s' b' blk' <-> buf_of s b' blk'.
Proof.
  intros T HH Hb Hh Hg Hroom. pose proof T as [(R & C & Hu) Hl ? ? ? Hcl Hex Hd ?].
  pose proof (Hu blk) as Eu. unfold uses in Eu. rewrite (bool_decide_eq_true_2 _ HH) in Eu.
  destruct (upd_data_spec p s R H V b blk g C Hb HH) as (E1 & F1 & C1 & K1).
  set (s1 := k_set_bufs _ s) in *. exists s1.
  assert (Ts1 : tx_step p s s1) by (by apply fs_tx_step).
  pose proof (refs_lookup _ _ _ _ _ _ _ C Eu ltac:(case_match; lia)) as HR.
  destruct (log_write_spec p s1 R H _ LS bl b blk _ C1 Hl (proj2 (K1 b blk) Hb) HR)
    as (s' & E & Hl' & Es & Hsame & C' & K'); try done.
  { case_match; lia. } { change (k_log s1) with (k_log s). lia. }
  { change (k_log s1) with (k_log s). rewrite (lo_n _ _ _ Hl). lia. }
  exists s'. assert (Ts : tx_step p s s').
  { split; [rewrite Es; by destruct s|rewrite Es; reflexivity|exact Hsame]. }
  split_and!; try done.
  - pose proof Hsame as [? ? ? ?]. change (k_log s1) with (k_log s) in *. split; try done; try congruence.
    + eexists. split; [done|]. intros blk'. unfold uses. rewrite (bool_decide_ext _ _ (logged_in bl blk blk')).
      destruct (decide (blk ∈ bl)) as [Hin|Hnin].
      * rewrite Hu. unfold uses. f_equal. rewrite (bool_decide_ext (blk' ∈ bl \/ blk' = blk) (blk' ∈ bl)); [done|set_solver].
      * destruct (decide (blk' = blk)) as [->|Hne].
        -- rewrite refs_insert_eq, (bool_decide_eq_true_2 (blk ∈ H)), (bool_decide_eq_true_2 (_ \/ _)) by tauto.
           rewrite bool_decide_eq_false_2 by done. lia.
        -- rewrite refs_insert_ne by done. rewrite Hu. unfold uses. f_equal.
           rewrite (bool_decide_ext (blk' ∈ bl \/ blk' = blk) (blk' ∈ bl)); [done|tauto].
    + intros blk'. rewrite logged_in. intros Hno. rewrite lookup_insert_ne by (intros ->; tauto).
      rewrite (ts_disk _ _ _ Ts). apply Hcl. tauto.
    + intros blk'. rewrite logged_in, (ts_disk _ _ _ Ts). intros [?| ->]; [by apply Hex|].
      destruct (decide (blk ∈ bl)); [by apply Hex|]. rewrite <- Hcl by done. eexists. by eapply tx_buf.
    + intros blk' d. destruct (decide (blk' = blk)) as [->|]; [rewrite lookup_insert_eq; by intros [= <-]|].
      rewrite lookup_insert_ne by done. apply Hd.
    + by rewrite (ts_panicked _ _ _ Ts).
  - intros b' blk'. by rewrite K', K1.
Qed.

(** Output to the console. *)
Lemma tx_emit p LS s bl H V cs : tx p LS s bl H V -> tx p LS (emit cs s) bl H V.
Proof.
  intros [(R & C & Hu) ? ? ? ? ? ? ? ?]. split; try done. exists R. split; [|done].
  destruct C as [[]]. split; try done.
Qed.

Lemma emit_step p cs s : tx_step p s (emit cs s).
Proof. split; [by destruct s|reflexivity|reflexivity]. Qed.

(** At its end the transaction is what commit() takes. *)
Lemma tx_committing p LS s bl V :
  tx p LS s bl ∅ V -> bl <> [] -> log_area V LS -> lh_n (V !!! LS) = 0 ->
  cache p s (pins bl) ∅ V /\ committing (disk s) V LS (k_log s) bl.
Proof.
  intros T Hne Ha H0. pose proof T as [(R & C & Hu) Hl ? ? ? Hcl Hex Hd ?].
  assert (R = pins bl) as ->.
  { apply map_eq. intros blk. pose proof (Hu blk) as E. unfold uses in E.
    rewrite bool_decide_eq_false_2 in E by set_solver. destruct (decide (blk ∈ bl)) as [Hin|Hnin].
    - rewrite (bool_decide_eq_true_2 _ Hin) in E. rewrite pins_in by done. by apply (refs_lookup _ _ _ _ _ _ _ C E).
    - rewrite (bool_decide_eq_false_2 _ Hnin) in E. rewrite pins_out by done. by apply (refs_zero _ _ _ _ _ _ C E). }
  split; [done|]. split; try done.
  - intros b d Hb. by apply (Hd b d).
  - intros b Hb. destruct (ca_pinned _ _ _ _ _ C b 1 (pins_in _ _ Hb)) as [_ (i & Hi)]. eexists. by eapply tx_buf.
Qed.

(** ** Reading

    Reading needs no transaction: the blocks are those of [V] whoever reads.
    [R] counts the references to the buffers, which a reader gives back. *)
Record rd (p : nat) (s : kstate) (R : gmap Z Z) (V : gmap Z (list Z)) : Prop := {
  rd_cache : cache p s R ∅ V;
  rd_room : (size R < NBUF)%nat;
  rd_refs blk : refs R blk <= 1;
  rd_data blk d : V !! blk = Some d -> block_ok d
}.

(** A reader leaves the log alone. *)
Record rd_step (p : nat) (s s' : kstate) : Prop := {
  rs_tx : tx_step p s s';
  rs_log : k_log s' = k_log s
}.

#[export] Instance rd_step_refl p : Reflexive (rd_step p).
Proof. done. Qed.
#[export] Instance rd_step_trans p : Transitive (rd_step p).
Proof. intros s1 s2 s3 [T1 L1] [T2 L2]. split; [by etrans|congruence]. Qed.

Lemma rd_step_mem p s s' m : rd_step p s s' -> rd_step p (k_set_mem m s) (k_set_mem m s').
Proof. intros [T Hl]. split; [by apply tx_step_mem|done]. Qed.

Lemma rd_running p s R V : rd p s R V -> running p s.
Proof. intros [C _ _ _]. apply C. Qed.

Lemma tx_rd p LS s bl V : tx p LS s bl ∅ V -> exists R, rd p s R V /\ forall blk, refs R blk = uses bl ∅ blk.
Proof.
  intros T. pose proof T as [(R & C & Hu) Hl ? ? ? Hcl Hex Hd ?]. exists R. split; [|done]. split; [done| | |done].
  - pose proof (size_uses p s R bl ∅ V C Hu (lo_nodup _ _ _ Hl)). rewrite size_empty in *. pose proof (lo_max _ _ _ Hl). lia.
  - intros blk. rewrite Hu. unfold uses. rewrite bool_decide_eq_false_2 by set_solver. case_match; lia.
Qed.

(** A transaction goes on after reading. *)
Lemma tx_after_read p LS s s' bl V R m :
  tx p LS s bl ∅ V -> (forall blk, refs R blk = uses bl ∅ blk) -> rd_step p (k_set_mem m s) s' -> rd p s' R V -> tx p LS s' bl ∅ V.
Proof.
  intros [_ Hl ? ? ? Hcl Hex Hd Hq] HR [T El] [C' _ _ _]. cbn in El.
  split; rewrite ?El; try done.
  - by exists R.
  - intros blk Hb. rewrite (ts_disk _ _ _ T). by apply Hcl.
  - intros blk Hb. rewrite (ts_disk _ _ _ T). by apply Hex.
  - by rewrite (ts_panicked _ _ _ T).
Qed.

(** The reader may store elsewhere before it releases the buffer. *)
Definition set_other (m : mem) (is_ : list inode) (s : kstate) : kstate := k_set_mem m (k_set_inodes is_ s).

Lemma set_other_inodes is_ s : k_set_inodes is_ s = set_other (k_mem s) is_ s.
Proof. by destruct s. Qed.
Lemma set_other_mem m s : k_set_mem m s = set_other m (k_inodes s) s.
Proof. by destruct s. Qed.

Lemma cache_other p s R H V m is_ : cache p s R H V -> cache p (set_other m is_ s) R H V.
Proof. intros [[]]. by split. Qed.

Lemma rd_other p s R V m is_ : rd p s R V -> rd p (set_other m is_ s) R V.
Proof. intros [C Hs Hr Hd]. split; try done. by apply cache_other. Qed.

Lemma rd_bread p s R V blk d : rd p s R V -> V !! blk = Some d ->
  exists b s1, bread ROOTDEV blk s = Ok b s1 /\ rd_step p s s1 /\ b_data (bf s1 b) = d /\ running p s1 /\
    forall m is_, exists s2, brelse b (set_other m is_ s1) = Ok tt s2 /\ rd_step p (set_other m is_ s1) s2 /\ rd p s2 R V.
Proof.
  intros [C Hs Hr Hd] HV. pose proof (Hr blk) as Hb. pose proof (refs_nonneg _ _ _ _ _ blk C) as Hn.
  destruct (bread_spec p s R ∅ V blk d C ltac:(set_solver) HV ltac:(lia) ltac:(by right)) as (b & s1 & E & F & W & Hb1 & C1 & _).
  exists b, s1. split; [done|]. split; [split; [by apply fs_tx_step|apply (fs_step_log _ _ _ F)]|].
  split. { pose proof (ca_data _ _ _ _ _ C1 b blk Hb1) as [_ E1]. congruence. }
  split; [apply C1|]. intros m is_. pose proof (cache_other _ _ _ _ _ m is_ C1) as C2.
  destruct (brelse_spec p _ _ _ V b blk (refs R blk + 1) C2) as (s2 & E2 & F2 & W2 & C3 & _).
  - exact Hb1.
  - set_solver.
  - by rewrite lookup_insert_eq.
  - lia.
  - intros E1. assert (refs R blk = 0) as Hz by lia. pose proof (refs_zero _ _ _ _ _ _ C Hz) as Hnone.
    rewrite (ca_clean _ _ _ _ _ C blk Hnone). unfold disk. cbn. by rewrite W, (fs_step_blocks _ _ _ F).
  - exists s2. split; [done|]. split; [split; [by apply fs_tx_step|apply (fs_step_log _ _ _ F2)]|]. split; try done.
    rewrite drop_ref_insert in C3 by (intros n Hn2; by destruct (ca_pinned _ _ _ _ _ C _ _ Hn2)).
    by replace (({[blk]} ∪ ∅) ∖ {[blk]}) with (∅ : gset Z) in C3 by set_solver.
Qed.

End Tx.
