(* ===== verification/FsOp.v ===== *)
(** Whole file-system operations: begin_op() ... end_op() around the work of a
    transaction, and what a crash in the middle leaves.

    [idle] is the state between operations: nothing is held, the log is empty
    in memory and on the disk. begin_op() opens a transaction ([tx] of FsTx),
    end_op() of the only operation commits it and comes back to [idle].
    [recovers] describes a sequence of disk writes by what initlog() makes of
    each of its prefixes; it composes over sequences of operations. *)

From S2P Require Import Prelude Riscv State Spinlock Sched Sleeplock Printf PrintfSpec Bio BioSpec Log LogSpec FsTx.

(** Two disks that differ at most in the log's blocks. *)
Definition agree (LS : Z) (d d' : gmap Z (list Z)) : Prop :=
  forall blk, blk < LS \/ LS + LOGSIZE <= blk -> d !! blk = d' !! blk.

#[export] Instance agree_equivalence LS : Equivalence (agree LS).
Proof.
  split; [done|intros d d' A blk Hb; symmetry; by apply A|].
  intros d1 d2 d3 A1 A2 blk Hb. rewrite A1 by done. by apply A2.
Qed.

Lemma agree_total LS d d' blk : agree LS d d' -> blk < LS \/ LS + LOGSIZE <= blk -> d !!! blk = d' !!! blk.
Proof. intros A Hb. by rewrite !lookup_total_alt, A. Qed.

(** What an operation may change. *)
Record op_step (p : nat) (s s' : kstate) : Prop := {
  os_eq : s' = k_set_procs (k_procs s') (k_set_vdisk (k_vdisk s') (k_set_log (k_log s') (k_set_writes (k_writes s')
            (k_set_uart (k_uart s') (k_set_bufs (k_bufs s') s)))));
  os_procs : procs_rel p (k_procs s) (k_procs s')
}.

#[export] Instance op_step_refl p : Reflexive (op_step p).
Proof. intros s. split; [by destruct s|reflexivity]. Qed.

#[export] Instance op_step_trans p : Transitive (op_step p).
Proof.
  intros s1 s2 s3 [E1 P1] [E2 P2]. split; [|by etrans].
  rewrite E2 at 1. rewrite E1. reflexivity.
Qed.

Lemma tx_op_step p s s' : tx_step p s s' -> op_step p s s'.
Proof. intros [E P _]. split; [|done]. rewrite E at 1. rewrite E. by destruct s. Qed.

Lemma fs_op_step p s s' : fs_step p s s' -> op_step p s s'.
Proof. intros [E P]. split; [|done]. rewrite E at 1. rewrite E. by destruct s. Qed.

Lemma log_op_step p l s : op_step p s (k_set_log l s).
Proof. split; [by destruct s|reflexivity]. Qed.

Lemma procs_op_step p ps s : procs_rel p (k_procs s) ps -> op_step p s (k_set_procs ps s).
Proof. split; [by destruct s|done]. Qed.

Section Frame.
Context (p : nat) (s s' : kstate) (T : op_step p s s').

Lemma os_mem : k_mem s' = k_mem s.
Proof. destruct T as [E _]. by rewrite E. Qed.
Lemma os_inodes : k_inodes s' = k_inodes s.
Proof. destruct T as [E _]. by rewrite E. Qed.
Lemma os_files : k_files s' = k_files s.
Proof. destruct T as [E _]. by rewrite E. Qed.
Lemma os_sb : k_sb s' = k_sb s.
Proof. destruct T as [E _]. by rewrite E. Qed.
Lemma os_panicked : k_panicked s' = k_panicked s.
Proof. destruct T as [E _]. by rewrite E. Qed.
Lemma os_blocks : k_blocks s' = k_blocks s.
Proof. destruct T as [E _]. by rewrite E. Qed.
Lemma os_proc : k_procs s' !!! p = k_procs s !!! p.
Proof. destruct T as [_ [_ E]]. by rewrite !list_lookup_total_alt, E. Qed.

End Frame.

(** ** The blocks commit() writes hold bytes *)

Lemma put_le_bytes k b o v : Forall is_byte b -> Forall is_byte (put_le k b o v).
Proof. intros Hb. apply put_bytes_is_byte; [done|apply le_bytes_is_byte]. Qed.

Lemma head_data_bytes h l is_ : Forall is_byte h -> Forall is_byte (head_data h l is_).
Proof.
  intros Hh. unfold head_data. induction is_ as [|x is_ IH] using rev_ind; [by apply put_le_bytes|].
  rewrite foldl_app. by apply put_le_bytes.
Qed.

Lemma apply_writes_inv ws d blk x : apply_writes ws d !! blk = Some x -> (blk, x) ∈ ws \/ d !! blk = Some x.
Proof.
  induction ws as [|w ws IH] using rev_ind; [by right|]. rewrite apply_writes_snoc.
  destruct (decide (w.1 = blk)) as [<-|Hne].
  - rewrite lookup_insert_eq. intros [= <-]. left. destruct w. set_solver.
  - rewrite lookup_insert_ne by done. intros [?|?]%IH; [left; set_solver|by right].
Qed.

Section Committed.
Context (d V : gmap Z (list Z)) (LS : Z) (l : logst) (bl : list Z).
Context (CM : committing d V LS l bl) (HV : forall blk x, V !! blk = Some x -> block_ok x).

Lemma commit_writes_ok w : w ∈ commit_writes V LS l bl -> block_ok w.2.
Proof.
  intros Hw. split; [exact (proj1 (Forall_forall _ _) (cm_writes_length _ _ _ _ _ CM) w Hw)|].
  assert (Hb : forall b, b ∈ bl -> Forall is_byte (V !!! b)).
  { intros b Hb. destruct (cm_cached _ _ _ _ _ CM b Hb) as [x Hx]. rewrite (lookup_total_correct _ _ _ Hx). by eapply HV. }
  destruct (cm_header _ _ _ _ _ CM) as (h & Hh & Eh & _). destruct (HV _ _ Hh) as [_ Hhb].
  unfold commit_writes in Hw. rewrite !elem_of_app, !list_elem_of_singleton in Hw.
  destruct Hw as [Hw | [-> | [Hw | ->]]]; cbn.
  - apply elem_of_lookup_imap in Hw as (i & b & -> & Hi). apply Hb. by apply list_elem_of_lookup_2 in Hi.
  - apply head_data_bytes. by rewrite Eh.
  - apply list_elem_of_fmap in Hw as (b & -> & Hin). by apply Hb.
  - apply put_le_bytes, head_data_bytes. by rewrite Eh.
Qed.

Lemma committed_ok blk x : apply_writes (commit_writes V LS l bl) d !! blk = Some x -> block_ok x.
Proof.
  intros Hx. destruct (decide (blk < LS \/ LS + LOGSIZE <= blk)) as [Hh|Hn].
  - apply (HV blk). rewrite <- Hx. symmetry. by apply (crash_done _ _ _ _ _ CM).
  - apply apply_writes_inv in Hx as [Hx|Hx]; [exact (commit_writes_ok _ Hx)|]. apply (HV blk).
    rewrite (cm_same _ _ _ _ _ CM); [done|]. apply (cm_out _ _ _ _ _ CM). lia.
Qed.

End Committed.

Section Op.
Context `{D : BlockDev}.

(** ** Crashes *)

(** The writes [ws] on the disk [d]: after any number of them, a machine that
    boots and runs initlog() has a disk that satisfies [P]. *)
Definition recovers (LS : Z) (d : gmap Z (list Z)) (ws : list (Z * list Z)) (P : gmap Z (list Z) -> Prop) : Prop :=
  forall k sb q s0, sb_logstart sb = LS -> booted q s0 (apply_writes (take k ws) d) ->
  exists s1, initlog ROOTDEV sb s0 = Ok tt s1 /\ cache q s1 ∅ ∅ (disk s1) /\ log_ok (k_log s1) LS [] /\ P (disk s1).

Lemma recovers_mono LS d ws (P Q : gmap Z (list Z) -> Prop) : (forall d', P d' -> Q d') -> recovers LS d ws P -> recovers LS d ws Q.
Proof. intros HPQ HR k sb q s0 Hsb Hb. destruct (HR k sb q s0 Hsb Hb) as (s1 & ? & ? & ? & ?). exists s1. auto. Qed.

Lemma recovers_app LS d ws1 ws2 P :
  recovers LS d ws1 P -> recovers LS (apply_writes ws1 d) ws2 P -> recovers LS d (ws1 ++ ws2) P.
Proof.
  intros H1 H2 k sb q s0 Hsb Hb. rewrite take_app in Hb. destruct (decide (k <= length ws1)%nat) as [Hk|Hk].
  - apply (H1 k sb q s0 Hsb). replace (k - length ws1)%nat with 0%nat in Hb by lia. by rewrite take_0, app_nil_r in Hb.
  - apply (H2 (k - length ws1)%nat sb q s0 Hsb). rewrite take_ge in Hb by lia. by rewrite apply_writes_app in Hb.
Qed.

(** A disk with an empty log. *)
Lemma recovers_nil LS d (P : gmap Z (list Z) -> Prop) :
  0 <= LS < 2 ^ 31 - LOGSIZE -> log_area d LS -> lh_n (d !!! LS) = 0 -> (forall d', agree LS d' d -> P d') -> recovers LS d [] P.
Proof.
  intros HLS Ha H0 HP k sb q s0 Hsb [C0 Hlen]. rewrite take_nil in C0. change (apply_writes [] d) with d in C0.
  pose proof (cache_clean_eq _ _ _ C0) as Ed. destruct (Ha 0 ltac:(done)) as (h & Hh & _). rewrite Z.add_0_r in Hh.
  rewrite (lookup_total_correct _ _ _ Hh) in H0. subst d.
  destruct (initlog_spec q s0 sb LS [] h C0) as (s1 & E1 & D1 & C1 & L1 & _); [|done|done|].
  { split; try done; [intros i Hi; cbn in Hi; lia|cbn; unfold NBUF; lia|apply NoDup_nil_2|by intros b Hb%elem_of_nil]. }
  exists s1. split_and!; [done|done|done|]. rewrite D1. apply HP. intros blk Hb. by apply recovered_empty.
Qed.

(** ** Between operations *)

Record idle (p : nat) (LS : Z) (s : kstate) : Prop := {
  id_cache : cache p s ∅ ∅ (disk s);
  id_log : log_ok (k_log s) LS [];
  id_size : l_size (k_log s) = LOGSIZE;
  id_len : length (l_block (k_log s)) = Z.to_nat LOGSIZE;
  id_out : l_outstanding (k_log s) = 0;
  id_com : l_committing (k_log s) = 0;
  id_area : log_area (disk s) LS;
  id_head : lh_n (disk s !!! LS) = 0;
  id_data blk d : disk s !! blk = Some d -> block_ok d;
  id_quiet : k_panicked s = 0
}.

Lemma begin_op_spec p LS s : idle p LS s ->
  let s' := k_set_log (l_set_outstanding 1 (k_log s)) s in begin_op s = Ok tt s' /\ tx p LS s' [] ∅ (disk s).
Proof.
  intros [C Hl Hsz Hlen Ho Hc Ha Hh Hd Hq] s'. pose proof (ca_run _ _ _ _ _ C) as Hr. split.
  - unfold begin_op. mrun (acquire_eq LK_log s (running_free _ _ _ Hr)). unfold patience. cbn [begin_op_loop]. mlog.
    change (k_log (locked LK_log s)) with (k_log s). rewrite Hc, Ho, (lo_n _ _ _ Hl). replace (_ || _) with false by reflexivity.
    unfold upd_log. mred. leave LK_log; [apply Hr|apply (running_free _ _ _ Hr)].
  - split; cbn; rewrite ?Ho; try done.
    + exists ∅. split; [by apply cache_log|]. intros blk. unfold uses. by rewrite !bool_decide_eq_false_2 by set_solver.
    + by destruct Hl.
    + by intros blk Hb%elem_of_nil.
Qed.

Lemma cache_procs p s R H V ps : cache p s R H V -> procs_rel p (k_procs s) ps -> cache p (k_set_procs ps s) R H V.
Proof.
  intros [] Hps. split; try done; [by apply running_set_procs|]. destruct Hps as [_ E]. cbn.
  by rewrite list_lookup_total_alt, E, <- list_lookup_total_alt.
Qed.

(** What end_op() does around commit(). *)
Lemma end_op_last p s s2 : running p s -> l_outstanding (k_log s) = 1 -> l_committing (k_log s) = 0 ->
  commit (k_set_log (l_set_committing 1 (l_set_outstanding 0 (k_log s))) s) = Ok tt s2 -> running p s2 ->
  end_op s = Ok tt (k_set_procs (woken_by p CH_log (k_procs s2)) (k_set_log (l_set_committing 0 (k_log s2)) s2)).
Proof.
  intros Hr Ho Hc Ec Hr2. unfold end_op, upd_log. mrun (acquire_eq LK_log s (running_free _ _ _ Hr)). mlog.
  change (k_log (locked LK_log s)) with (k_log s). cbn [k_log k_set_log l_committing l_outstanding l_set_outstanding]. rewrite Ho, Hc.
  change (1 - 1 =? 0) with true. cbn [c_true]. change (c_true 0) with false. cbv iota. mred.
  set (s1 := k_set_log (l_set_committing 1 (l_set_outstanding 0 (k_log s))) s) in *.
  assert (Hr1 : running p s1) by by destruct Hr.
  assert (El : release LK_log (locked LK_log s1) = Ok tt s1) by (apply release_locked; [apply Hr1|apply (running_free _ _ _ Hr1)]).
  match goal with |- _ ?x = _ => change x with (locked LK_log s1) end. mrun El. mrun Ec. mrun (acquire_eq LK_log s2 (running_free _ _ _ Hr2)).
  set (s3 := k_set_log (l_set_committing 0 (k_log s2)) s2). assert (Hr3 : running p s3) by by destruct Hr2.
  match goal with |- _ ?x = _ => change x with (locked LK_log s3) end. mrun (wakeup_locked p CH_log LK_log s3 Hr3 ltac:(done)).
  apply release_locked; [apply Hr3|]. apply running_free with p. apply running_set_procs; [done|apply woken_by_rel].
Qed.

(** end_op() of the only operation commits its transaction. *)
Lemma end_op_spec p LS s bl V :
  tx p LS s bl ∅ V -> bl <> [] -> l_outstanding (k_log s) = 1 -> l_committing (k_log s) = 0 ->
  log_area V LS -> lh_n (V !!! LS) = 0 ->
  exists s' ws, end_op s = Ok tt s' /\ op_step p s s' /\ idle p LS s' /\ k_writes s' = rev ws ++ k_writes s /\
    agree LS (disk s') V /\ recovers LS (disk s) ws (fun d => agree LS d (disk s) \/ agree LS d V).
Proof.
  intros T Hne Ho Hc Ha H0. set (l1 := l_set_committing 1 (l_set_outstanding 0 (k_log s))). set (s1 := k_set_log l1 s).
  destruct (tx_committing p LS s bl V T Hne Ha H0) as [C CM].
  assert (CM1 : committing (disk s1) V LS l1 bl) by (destruct CM as [[]]; by split).
  destruct (commit_spec p s1 V LS bl (cache_log _ _ _ _ _ _ C) CM1) as (s2 & E2 & W2 & F2 & C2).
  change (k_log s1) with l1 in *. change (k_writes s1) with (k_writes s) in W2. set (ws := commit_writes V LS l1 bl) in *.
  pose proof (disk_writes _ _ _ W2 (fs_step_blocks _ _ _ F2)) as D2. change (disk s1) with (disk s) in *.
  pose proof (cache_clean_eq _ _ _ C2) as Ecl. rewrite Ecl in C2. destruct (crash_done _ _ _ _ _ CM1) as [Hlog Hhome].
  pose proof (fs_step_log _ _ _ F2) as L2. cbn in L2. fold ws in Hlog, Hhome. rewrite <- D2 in Hlog, Hhome.
  exists (k_set_procs (woken_by p CH_log (k_procs s2)) (k_set_log (l_set_committing 0 (k_log s2)) s2)), ws.
  set (s' := k_set_procs _ _). assert (F : op_step p s s').
  { unfold s'. etrans; [|apply procs_op_step, woken_by_rel]. etrans; [|apply log_op_step].
    etrans; [|apply fs_op_step, F2]. unfold s1. etrans; apply log_op_step. }
  split; [apply end_op_last; try done; [apply C|apply C2]|]. split; [done|]. split; [|split; [done|split]].
  - split; change (disk s') with (disk s2).
    + apply cache_procs; [by apply cache_log|apply woken_by_rel].
    + change (k_log s') with (l_set_committing 0 (k_log s2)). rewrite L2.
      pose proof (log_ok_empty _ _ _ (cm_log _ _ _ _ _ CM1)) as Hl0. by destruct Hl0.
    + cbn. rewrite L2. apply T.
    + cbn. rewrite L2. apply T.
    + cbn. by rewrite L2.
    + done.
    + apply Hlog.
    + rewrite (lookup_total_correct _ _ _ (dl_head _ _ _ _ Hlog)). apply Hlog.
    + rewrite D2. apply (committed_ok _ _ _ _ _ CM1). apply T.
    + rewrite (os_panicked _ _ _ F). apply T.
  - intros blk Hb. by apply Hhome.
  - intros k sb q s0 Hsb Hb. destruct (crash_recovers _ _ _ _ _ k sb q s0 CM1 Hsb Hb) as (s3 & ? & ? & ? & HP). exists s3.
    split_and!; try done. destruct (decide (k <= length bl)%nat); [by left|by right].
Qed.

(** end_op() of a transaction that wrote nothing. *)
Lemma end_op_empty p LS s V :
  tx p LS s [] ∅ V -> l_outstanding (k_log s) = 1 -> l_committing (k_log s) = 0 -> log_area V LS -> lh_n (V !!! LS) = 0 ->
  exists s', end_op s = Ok tt s' /\ op_step p s s' /\ idle p LS s' /\ k_writes s' = k_writes s /\ disk s' = disk s.
Proof.
  intros T Ho Hc Ha H0. pose proof T as [(R & C & Hu) Hl Hsz Hlen _ Hcl _ Hd Hq].
  assert (V = disk s) as -> by (apply map_eq; intros blk; apply Hcl, not_elem_of_nil).
  assert (R = ∅) as ->.
  { apply map_eq. intros blk. rewrite lookup_empty. apply (refs_zero _ _ _ _ _ _ C). rewrite Hu. unfold uses.
    by rewrite !bool_decide_eq_false_2 by set_solver. }
  set (l1 := l_set_committing 1 (l_set_outstanding 0 (k_log s))). set (s1 := k_set_log l1 s).
  assert (E : commit s1 = Ok tt s1).
  { unfold commit. change (gets k_log) with (gets (fun s => k_log s)). mred. change (l_n (k_log s1)) with (l_n (k_log s)).
    by rewrite (lo_n _ _ _ Hl). }
  assert (Hr1 : running p s1) by by destruct (ca_run _ _ _ _ _ C).
  eexists. split; [apply (end_op_last p s s1); try done; apply C|].
  split; [etrans; [|apply procs_op_step, woken_by_rel]; etrans; [|apply log_op_step]; apply log_op_step|].
  split; [|done]. split; try done.
  - apply cache_procs; [by do 2 apply cache_log|apply woken_by_rel].
  - by destruct Hl.
Qed.

End Op.
