(* ===== verification/Fs.v ===== *)
(** fs.c: blocks, inodes, files, directories and paths.

    An in-memory inode is an index into [k_inodes]. On-disk structures are
    read and written in the bytes of a buffer at the offsets of fs.h. The
    address of a local [struct dirent] is [DE_ADDR], above every address the
    allocator hands out. *)

From S2P Require Import Prelude Riscv StringC State Spinlock Kalloc Vm Sched Sleeplock Printf Bio Log.

(** ** fs.h *)

Definition ROOTINO : Z := 1.
Definition FSMAGIC : Z := 0x10203040.
Definition NDIRECT : Z := 12.
Definition NINDIRECT : Z := BSIZE / 4.
Definition MAXFILE : Z := NDIRECT + NINDIRECT.
Definition DINODE_SIZE : Z := 64.
Definition IPB : Z := BSIZE / DINODE_SIZE.
Definition BPB : Z := BSIZE * 8.
Definition DIRSIZ : nat := 14.
Definition DIRENT_SIZE : Z := 16.
Definition T_DIR : Z := 1.
Definition T_FILE : Z := 2.
Definition T_DEVICE : Z := 3.

Definition IBLOCK (i : Z) (sb : superblock) : Z := u32 (i / IPB + sb_inodestart sb).
Definition BBLOCK (b : Z) (sb : superblock) : Z := u32 (b / BPB + sb_bmapstart sb).

(** The structures as bytes. *)
Definition sb_of_bytes (d : list Z) : superblock :=
  mkSb (get_le 4 d 0) (get_le 4 d 4) (get_le 4 d 8) (get_le 4 d 12)
       (get_le 4 d 16) (get_le 4 d 20) (get_le 4 d 24) (get_le 4 d 28).

Definition dinode_off (inum : Z) : nat := Z.to_nat (inum mod IPB * DINODE_SIZE).

Definition dip_type (d : list Z) (o : nat) : Z := s16 (get_le 2 d o).
Definition dip_major (d : list Z) (o : nat) : Z := s16 (get_le 2 d (o + 2)).
Definition dip_minor (d : list Z) (o : nat) : Z := s16 (get_le 2 d (o + 4)).
Definition dip_nlink (d : list Z) (o : nat) : Z := s16 (get_le 2 d (o + 6)).
Definition dip_size (d : list Z) (o : nat) : Z := get_le 4 d (o + 8).
Definition dip_addrs (d : list Z) (o : nat) : list Z :=
  (fun i => get_le 4 d (o + 12 + 4 * i)) <$> seq 0 13.

Definition put_addrs (d : list Z) (o : nat) (addrs : list Z) : list Z :=
  put_bytes d (o + 12) (mjoin (le_bytes 4 <$> addrs)).

Definition put_dinode (d : list Z) (o : nat) (ip : inode) : list Z :=
  let d := put_le 2 d o (i_type ip) in
  let d := put_le 2 d (o + 2) (i_major ip) in
  let d := put_le 2 d (o + 4) (i_minor ip) in
  let d := put_le 2 d (o + 6) (i_nlink ip) in
  let d := put_le 4 d (o + 8) (i_size ip) in
  put_addrs d o (i_addrs ip).

Definition de_inum (d : list Z) : Z := get_le 2 d 0.
Definition de_name (d : list Z) : list Z := get_bytes d 2 DIRSIZ.
Definition mk_dirent (inum : Z) (name : list Z) : list Z := le_bytes 2 inum ++ name.

Definition DE_ADDR : Z := 2 ^ 64 - 4096.

Definition inode_at (ip : nat) : K inode := gets (fun s => k_inodes s !!! ip).
Definition upd_inode (ip : nat) (f : inode -> inode) : K unit :=
  modify (fun s => k_set_inodes (alter f ip (k_inodes s)) s).

Section Fs.
Context `{L : Linker} `{D : BlockDev}.

(** ** Superblock and blocks *)

Definition readsb (dev : Z) : K unit :=
  bp <- bread dev 1;;
  bf <- buf_at bp;;
  modify (k_set_sb (sb_of_bytes (b_data bf)));;
  brelse bp.

Definition fsinit (dev : Z) : K unit :=
  readsb dev;;
  sb <- gets k_sb;;
  if negb (sb_magic sb =? FSMAGIC) then panic "invalid file system" else
  initlog dev sb.

Definition bzero (dev bno : Z) : K unit :=
  bp <- bread dev (u32 bno);;
  set_data bp (replicate (Z.to_nat BSIZE) 0);;
  log_write bp;;
  brelse bp.

Definition bit_mask (bi : Z) : Z := Z.shiftl 1 (bi mod 8).
Definition bit_used (data : list Z) (bi : Z) : bool :=
  bit_set (data !!! Z.to_nat (bi / 8)) (bit_mask bi).

(** The inner loop of balloc(): the first clear bit from [bi] on, below BPB
    and below sb.size; [n] bits are left in the block. *)
Fixpoint balloc_scan (n : nat) (data : list Z) (b bi size : Z) : option Z :=
  match n with
  | O => None
  | S n =>
      if (bi <? BPB) && (b + bi <? size) then
        if bit_used data bi then balloc_scan n data b (bi + 1) size else Some bi
      else None
  end.

Fixpoint balloc_loop (n : nat) (dev b : Z) : K Z :=
  sb <- gets k_sb;;
  if b <? sb_size sb then
    match n with
    | O => diverge
    | S n =>
        bp <- bread dev (BBLOCK b sb);;
        bf <- buf_at bp;;
        match balloc_scan (Z.to_nat BPB) (b_data bf) b 0 (sb_size sb) with
        | Some bi =>
            set_data bp (alter (fun x => Z.lor x (bit_mask bi)) (Z.to_nat (bi / 8)) (b_data bf));;
            log_write bp;;
            brelse bp;;
            bzero dev (b + bi);;
            ret (b + bi)
        | None =>
            brelse bp;;
            balloc_loop n dev (b + BPB)
        end
    end
  else
    printf (chars "balloc: out of blocks" ++ chars NL) [];;
    ret 0.

Definition balloc (dev : Z) : K Z :=
  sb <- gets k_sb;;
  balloc_loop (Z.to_nat (sb_size sb / BPB + 1)) dev 0.

Definition bfree (dev b : Z) : K unit :=
  sb <- gets k_sb;;
  bp <- bread dev (BBLOCK b sb);;
  bf <- buf_at bp;;
  let bi := b mod BPB in
  if negb (bit_used (b_data bf) bi) then panic "freeing free block" else
  set_data bp (alter (fun x => Z.land x (Z.lnot (bit_mask bi))) (Z.to_nat (bi / 8)) (b_data bf));;
  log_write bp;;
  brelse bp.

(** ** The inode table *)

Definition iinit : K unit :=
  initlock LK_itable;;
  for_each (seq 0 NINODE) (fun i => initsleeplock (SL_inode i)).

Fixpoint iget_loop (is_ : list nat) (empty : option nat) (dev inum : Z) : K (nat * bool) :=
  match is_ with
  | [] =>
      match empty with
      | None => panic "iget: no inodes"
      | Some ip => ret (ip, false)
      end
  | i :: is_ =>
      ip <- inode_at i;;
      if (0 <? i_ref ip) && (i_dev ip =? dev) && (i_inum ip =? inum) then ret (i, true) else
      iget_loop is_ (if bool_decide (empty = None) && (i_ref ip =? 0) then Some i else empty) dev inum
  end.

Definition iget (dev inum : Z) : K nat :=
  acquire LK_itable;;
  '(ip, found) <- iget_loop (seq 0 NINODE) None dev inum;;
  (if (found : bool) then upd_inode ip (fun i => i_set_ref (s32 (i_ref i + 1)) i)
   else upd_inode ip (fun i => i_set_valid 0 (i_set_ref 1 (i_set_inum inum (i_set_dev dev i)))));;
  release LK_itable;;
  ret ip.

Fixpoint ialloc_loop (n : nat) (dev type inum : Z) : K (option nat) :=
  sb <- gets k_sb;;
  if inum <? sb_ninodes sb then
    match n with
    | O => diverge
    | S n =>
        bp <- bread dev (IBLOCK inum sb);;
        bf <- buf_at bp;;
        let o := dinode_off inum in
        if dip_type (b_data bf) o =? 0 then
          set_data bp (put_le 2 (put_bytes (b_data bf) o (replicate (Z.to_nat DINODE_SIZE) 0)) o type);;
          log_write bp;;
          brelse bp;;
          ip <- iget dev inum;;
          ret (Some ip)
        else
        brelse bp;;
        ialloc_loop n dev type (inum + 1)
    end
  else
    printf (chars "ialloc: no inodes" ++ chars NL) [];;
    ret None.

Definition ialloc (dev type : Z) : K (option nat) :=
  sb <- gets k_sb;;
  ialloc_loop (Z.to_nat (sb_ninodes sb)) dev type 1.

Definition iupdate (ip : nat) : K unit :=
  i <- inode_at ip;;
  sb <- gets k_sb;;
  bp <- bread (i_dev i) (IBLOCK (i_inum i) sb);;
  upd_buf bp (fun bf => b_set_data (put_dinode (b_data bf) (dinode_off (i_inum i)) i) bf);;
  log_write bp;;
  brelse bp.

Definition idup (ip : nat) : K nat :=
  acquire LK_itable;;
  upd_inode ip (fun i => i_set_ref (s32 (i_ref i + 1)) i);;
  release LK_itable;;
  ret ip.

(** What ilock() copies out of the disk inode. *)
Definition load_dinode (d : list Z) (o : nat) (i : inode) : inode :=
  i_set_addrs (dip_addrs d o) (i_set_size (dip_size d o) (i_set_nlink (dip_nlink d o)
    (i_set_minor (dip_minor d o) (i_set_major (dip_major d o) (i_set_type (dip_type d o) i))))).

Definition ilock (ip : option nat) : K unit :=
  match ip with
  | None => panic "ilock"
  | Some ip =>
      i <- inode_at ip;;
      if i_ref i <? 1 then panic "ilock" else
      acquiresleep (SL_inode ip);;
      i <- inode_at ip;;
      if i_valid i =? 0 then
        sb <- gets k_sb;;
        bp <- bread (i_dev i) (IBLOCK (i_inum i) sb);;
        bf <- buf_at bp;;
        upd_inode ip (load_dinode (b_data bf) (dinode_off (i_inum i)));;
        brelse bp;;
        upd_inode ip (i_set_valid 1);;
        i <- inode_at ip;;
        when i_type i =? 0 do panic "ilock: no type"
      else ret tt
  end.

Definition iunlock (ip : option nat) : K unit :=
  match ip with
  | None => panic "iunlock"
  | Some ip =>
      h <- holdingsleep (SL_inode ip);;
      i <- inode_at ip;;
      if negb h || (i_ref i <? 1) then panic "iunlock" else
      releasesleep (SL_inode ip)
  end.

(** ** Inode content *)

(** [a[bn]] of an indirect block. *)
Definition ind_get (d : list Z) (bn : Z) : Z := get_le 4 d (Z.to_nat (4 * bn)).

Definition bmap (ip : nat) (bn : Z) : K Z :=
  i <- inode_at ip;;
  if bn <? NDIRECT then
    let addr := i_addrs i !!! Z.to_nat bn in
    if addr =? 0 then
      addr <- balloc (i_dev i);;
      if addr =? 0 then ret 0 else
      upd_inode ip (fun i => i_set_addrs (<[Z.to_nat bn := addr]> (i_addrs i)) i);;
      ret addr
    else ret addr
  else
  let bn := bn - NDIRECT in
  if bn <? NINDIRECT then
    addr <- (let addr := i_addrs i !!! Z.to_nat NDIRECT in
             if addr =? 0 then
               addr <- balloc (i_dev i);;
               (when negb (addr =? 0) do
                  upd_inode ip (fun i => i_set_addrs (<[Z.to_nat NDIRECT := addr]> (i_addrs i)) i));;
               ret addr
             else ret addr);;
    if addr =? 0 then ret 0 else
    bp <- bread (i_dev i) addr;;
    bf <- buf_at bp;;
    addr <- (let addr := ind_get (b_data bf) bn in
             if addr =? 0 then
               addr <- balloc (i_dev i);;
               (when negb (addr =? 0) do
                  (upd_buf bp (fun bf => b_set_data (put_le 4 (b_data bf) (Z.to_nat (4 * bn)) addr) bf);;
                   log_write bp));;
               ret addr
             else ret addr);;
    brelse bp;;
    ret addr
  else panic "bmap: out of range".

Definition itrunc (ip : nat) : K unit :=
  for_each (seq 0 (Z.to_nat NDIRECT)) (fun n =>
    i <- inode_at ip;;
    when negb (i_addrs i !!! n =? 0) do
      (bfree (i_dev i) (i_addrs i !!! n);;
       upd_inode ip (fun i => i_set_addrs (<[n := 0]> (i_addrs i)) i)));;
  i <- inode_at ip;;
  (when negb (i_addrs i !!! Z.to_nat NDIRECT =? 0) do
     (bp <- bread (i_dev i) (i_addrs i !!! Z.to_nat NDIRECT);;
      for_each (seqZ 0 NINDIRECT) (fun j =>
        bf <- buf_at bp;;
        when negb (ind_get (b_data bf) j =? 0) do bfree (i_dev i) (ind_get (b_data bf) j));;
      brelse bp;;
      bfree (i_dev i) (i_addrs i !!! Z.to_nat NDIRECT);;
      upd_inode ip (fun i => i_set_addrs (<[Z.to_nat NDIRECT := 0]> (i_addrs i)) i)));;
  upd_inode ip (i_set_size 0);;
  iupdate ip.

Definition iput (ip : nat) : K unit :=
  acquire LK_itable;;
  i <- inode_at ip;;
  (when (i_ref i =? 1) && c_true (i_valid i) && (i_nlink i =? 0) do
     (acquiresleep (SL_inode ip);;
      release LK_itable;;
      itrunc ip;;
      upd_inode ip (i_set_type 0);;
      iupdate ip;;
      upd_inode ip (i_set_valid 0);;
      releasesleep (SL_inode ip);;
      acquire LK_itable));;
  upd_inode ip (fun i => i_set_ref (s32 (i_ref i - 1)) i);;
  release LK_itable.

Definition iunlockput (ip : option nat) : K unit :=
  iunlock ip;;
  i <- deref ip;;
  iput i.

(** The bytes of the [struct stat], laid out as in stat.h. *)
Definition stati (ip : nat) : K (list Z) :=
  i <- inode_at ip;;
  ret (le_bytes 4 (i_dev i) ++ le_bytes 4 (i_inum i) ++ le_bytes 2 (i_type i) ++
       le_bytes 2 (i_nlink i) ++ replicate 4 0 ++ le_bytes 8 (i_size i)).

Fixpoint readi_loop (k : nat) (ip : nat) (user_dst dst off n tot : Z) : K Z :=
  if tot <? n then
    match k with
    | O => diverge
    | S k =>
        addr <- bmap ip (off / BSIZE);;
        if addr =? 0 then ret tot else
        i <- inode_at ip;;
        bp <- bread (i_dev i) addr;;
        bf <- buf_at bp;;
        let m := Z.min (n - tot) (BSIZE - off mod BSIZE) in
        r <- either_copyout user_dst dst (drop (Z.to_nat (off mod BSIZE)) (b_data bf)) m;;
        if r =? -1 then
          brelse bp;;
          ret (-1)
        else
        brelse bp;;
        readi_loop k ip user_dst (u64 (dst + m)) (u32 (off + m)) n (tot + m)
    end
  else ret tot.

Definition readi (ip : nat) (user_dst dst off n : Z) : K Z :=
  i <- inode_at ip;;
  if (i_size i <? off) || (u32 (off + n) <? off) then ret 0 else
  let n := if i_size i <? u32 (off + n) then u32 (i_size i - off) else n in
  tot <- readi_loop (Z.to_nat (n / BSIZE + 2)) ip user_dst dst off n 0;;
  ret (s32 tot).

(** The result is (tot, off) when the loop ends. *)
Fixpoint writei_loop (k : nat) (ip : nat) (user_src src off n tot : Z) : K (Z * Z) :=
  if tot <? n then
    match k with
    | O => diverge
    | S k =>
        addr <- bmap ip (off / BSIZE);;
        if addr =? 0 then ret (tot, off) else
        i <- inode_at ip;;
        bp <- bread (i_dev i) addr;;
        let m := Z.min (n - tot) (BSIZE - off mod BSIZE) in
        '(r, bytes) <- either_copyin user_src src m;;
        upd_buf bp (fun bf => b_set_data (put_bytes (b_data bf) (Z.to_nat (off mod BSIZE)) bytes) bf);;
        if r =? -1 then
          brelse bp;;
          ret (tot, off)
        else
        log_write bp;;
        brelse bp;;
        writei_loop k ip user_src (u64 (src + m)) (u32 (off + m)) n (tot + m)
    end
  else ret (tot, off).

Definition writei (ip : nat) (user_src src off n : Z) : K Z :=
  i <- inode_at ip;;
  if (i_size i <? off) || (u32 (off + n) <? off) then ret (-1) else
  if MAXFILE * BSIZE <? u32 (off + n) then ret (-1) else
  '(tot, off) <- writei_loop (Z.to_nat (n / BSIZE + 2)) ip user_src src off n 0;;
  i <- inode_at ip;;
  (when i_size i <? off do upd_inode ip (i_set_size off));;
  iupdate ip;;
  ret (s32 tot).

(** ** Directories *)

Definition namecmp (s t : list Z) : Z := strncmp DIRSIZ s t.

(** readi() of one entry into the local [de]. *)
Definition read_dirent (dp : nat) (off : Z) : K (Z * list Z) :=
  r <- readi dp 0 DE_ADDR off DIRENT_SIZE;;
  de <- gets (fun s => mem_read (k_mem s) DE_ADDR (Z.to_nat DIRENT_SIZE));;
  ret (r, de).

Fixpoint dirlookup_loop (k : nat) (dp : nat) (name : list Z) (off : Z) : K (option (nat * Z)) :=
  d <- inode_at dp;;
  if off <? i_size d then
    match k with
    | O => diverge
    | S k =>
        '(r, de) <- read_dirent dp off;;
        if negb (r =? DIRENT_SIZE) then panic "dirlookup read" else
        if de_inum de =? 0 then dirlookup_loop k dp name (u32 (off + DIRENT_SIZE)) else
        if namecmp name (de_name de) =? 0 then
          d <- inode_at dp;;
          ip <- iget (i_dev d) (de_inum de);;
          ret (Some (ip, off))
        else dirlookup_loop k dp name (u32 (off + DIRENT_SIZE))
    end
  else ret None.

(** The result carries the offset that is stored through [poff]. *)
Definition dirlookup (dp : nat) (name : list Z) : K (option (nat * Z)) :=
  d <- inode_at dp;;
  if negb (i_type d =? T_DIR) then panic "dirlookup not DIR" else
  dirlookup_loop (Z.to_nat (i_size d / DIRENT_SIZE + 1)) dp name 0.

(** The offset of the first empty entry, or the directory's size. *)
Fixpoint dirlink_find (k : nat) (dp : nat) (off : Z) : K Z :=
  d <- inode_at dp;;
  if u32 off <? i_size d then
    match k with
    | O => diverge
    | S k =>
        '(r, de) <- read_dirent dp off;;
        if negb (r =? DIRENT_SIZE) then panic "dirlink read" else
        if de_inum de =? 0 then ret off else dirlink_find k dp (off + DIRENT_SIZE)
    end
  else ret off.

Definition dirlink (dp : nat) (name : list Z) (inum : Z) : K Z :=
  r <- dirlookup dp name;;
  match r with
  | Some (ip, _) =>
      iput ip;;
      ret (-1)
  | None =>
      d <- inode_at dp;;
      off <- dirlink_find (Z.to_nat (i_size d / DIRENT_SIZE + 1)) dp 0;;
      modify (fun s => k_set_mem (mem_write (k_mem s) DE_ADDR (mk_dirent inum (strncpy DIRSIZ name))) s);;
      r <- writei dp 0 DE_ADDR (u32 off) DIRENT_SIZE;;
      if negb (r =? DIRENT_SIZE) then ret (-1) else ret 0
  end.

(** ** Paths *)

Definition SLASH : Z := 47.

Fixpoint skip_slashes (path : list Z) : list Z :=
  match path with
  | c :: p => if c =? SLASH then skip_slashes p else path
  | [] => []
  end.

(** The characters up to the next slash or the end, and the rest. *)
Fixpoint span_elem (path : list Z) : list Z * list Z :=
  match path with
  | [] => ([], [])
  | c :: p => if (c =? SLASH) || (c =? 0) then ([], path)
              else let '(e, r) := span_elem p in (c :: e, r)
  end.

(** [name] is the DIRSIZ-byte array; the result is the path that follows and
    the array after the call. *)
Definition skipelem (path name : list Z) : option (list Z * list Z) :=
  let path := skip_slashes path in
  if hd 0 path =? 0 then None else
  let '(s, rest) := span_elem path in
  let name := if (DIRSIZ <=? length s)%nat then put_bytes name 0 (take DIRSIZ s)
              else put_bytes name 0 (s ++ [0]) in
  Some (skip_slashes rest, name).

Fixpoint namex_loop (k : nat) (ip : nat) (path name : list Z) (parent : bool)
    : K (option nat * list Z) :=
  match skipelem path name with
  | None =>
      if parent then iput ip;; ret (None, name) else ret (Some ip, name)
  | Some (path, name) =>
      match k with
      | O => diverge
      | S k =>
          ilock (Some ip);;
          i <- inode_at ip;;
          if negb (i_type i =? T_DIR) then
            iunlockput (Some ip);;
            ret (None, name)
          else if parent && (hd 0 path =? 0) then
            iunlock (Some ip);;
            ret (Some ip, name)
          else
          r <- dirlookup ip name;;
          match r with
          | None =>
              iunlockput (Some ip);;
              ret (None, name)
          | Some (next, _) =>
              iunlockput (Some ip);;
              namex_loop k next path name parent
          end
      end
  end.

Definition namex (path : list Z) (parent : bool) (name : list Z) : K (option nat * list Z) :=
  ip <- (if hd 0 path =? SLASH then iget ROOTDEV ROOTINO
         else
           me <- myproc;;
           p <- deref me;;
           pr <- proc_at p;;
           cwd <- deref (p_cwd pr);;
           idup cwd);;
  namex_loop (S (length path)) ip path name parent.

Definition namei (path : list Z) : K (option nat) :=
  '(ip, _) <- namex path false (replicate DIRSIZ 0);;
  ret ip.

Definition nameiparent (path name : list Z) : K (option nat * list Z) := namex path true name.

End Fs.
