(* ===== verification/FsBlock.v ===== *)
(** Blocks of the file system: the free map, balloc(), bfree() and bzero(),
    on the map of blocks that [FsTx] provides. *)

From S2P Require Import Prelude Riscv State Spinlock Sched Sleeplock Printf PrintfSpec Bio BioSpec Log LogSpec FsTx Fs.

(** ** The layout of the disk

    [ boot block | super block | log | inode blocks | free bit map | data blocks ] *)

Definition sb_data (sb : superblock) : Z := sb_bmapstart sb + sb_size sb / BPB + 1.

Record geometry (LS : Z) (sb : superblock) : Prop := {
  ge_log : 2 <= LS;
  ge_ninodes : 0 <= sb_ninodes sb;
  ge_inodes : LS + LOGSIZE <= sb_inodestart sb;
  ge_bmap : sb_inodestart sb + sb_ninodes sb / IPB + 1 <= sb_bmapstart sb;
  ge_data : sb_data sb <= sb_size sb;
  ge_size : 0 <= sb_size sb < 2 ^ 30
}.

(** The order of the areas. *)
Lemma layout LS sb : geometry LS sb ->
  2 <= LS /\ LS + 30 <= sb_inodestart sb /\ sb_inodestart sb < sb_bmapstart sb < sb_data sb /\
  sb_data sb <= sb_size sb < 2 ^ 30 /\ LOGSIZE = 30.
Proof.
  intros [? ? H1 H2 H3 ?]. unfold LOGSIZE, MAXOPBLOCKS, sb_data in *.
  pose proof (Z.div_pos (sb_ninodes sb) IPB ltac:(lia) ltac:(done)).
  pose proof (Z.div_pos (sb_size sb) BPB ltac:(lia) ltac:(done)). lia.
Qed.

Ltac geo := match goal with G : geometry _ _ |- _ => pose proof (layout _ _ G) end; unfold home; lia.

(** The bit of block [b] in the free map. *)
Definition used (V : gmap Z (list Z)) (sb : superblock) (b : Z) : bool :=
  bit_used (V !!! BBLOCK b sb) (b mod BPB).

(** Every block can be read, and what is not data is in use. *)
Record fs_ok (LS : Z) (sb : superblock) (V : gmap Z (list Z)) : Prop := {
  fo_geo : geometry LS sb;
  fo_full b : 0 <= b < sb_size sb -> exists d, V !! b = Some d /\ block_ok d;
  fo_meta b : 0 <= b < sb_data sb -> used V sb b = true
}.

Definition zeros_block : list Z := replicate (Z.to_nat BSIZE) 0.

Definition set_bit (d : list Z) (bi : Z) : list Z :=
  alter (fun x => Z.lor x (bit_mask bi)) (Z.to_nat (bi / 8)) d.
Definition clear_bit (d : list Z) (bi : Z) : list Z :=
  alter (fun x => Z.land x (Z.lnot (bit_mask bi))) (Z.to_nat (bi / 8)) d.

(** ** Bits *)

Lemma bit_mask_pow bi : 0 <= bi -> bit_mask bi = 2 ^ (bi mod 8).
Proof. intros. unfold bit_mask. rewrite Z.shiftl_mul_pow2 by dlia. lia. Qed.

Lemma bit_used_testbit d bi : 0 <= bi -> bit_used d bi = Z.testbit (d !!! Z.to_nat (bi / 8)) (bi mod 8).
Proof. intros. unfold bit_used. rewrite bit_mask_pow by done. apply bit_set_testbit. dlia. Qed.

Lemma set_bit_used d bi j : 0 <= bi < BPB -> 0 <= j < BPB -> length d = 1024%nat ->
  bit_used (set_bit d bi) j = (j =? bi) || bit_used d j.
Proof.
  intros Hbi Hj Hlen. unfold BPB, BSIZE in *. rewrite !bit_used_testbit by lia. unfold set_bit.
  destruct (decide (j / 8 = bi / 8)) as [E|E].
  - rewrite E, lookup_total_alter by (rewrite Hlen; dlia). rewrite Z.lor_spec, bit_mask_pow by lia.
    rewrite Z.pow2_bits_eqb by dlia. rewrite orb_comm. f_equal.
    destruct (Z.eqb_spec j bi) as [->|]; [apply Z.eqb_refl|apply Z.eqb_neq; dlia].
  - rewrite lookup_total_alter_ne by (intros ?; apply E; dlia).
    rewrite (proj2 (Z.eqb_neq j bi)); [done|]. by intros ->.
Qed.

Lemma clear_bit_used d bi j : 0 <= bi < BPB -> 0 <= j < BPB -> length d = 1024%nat ->
  bit_used (clear_bit d bi) j = negb (j =? bi) && bit_used d j.
Proof.
  intros Hbi Hj Hlen. unfold BPB, BSIZE in *. rewrite !bit_used_testbit by lia. unfold clear_bit.
  destruct (decide (j / 8 = bi / 8)) as [E|E].
  - rewrite E, lookup_total_alter by (rewrite Hlen; dlia). rewrite Z.land_spec, Z.lnot_spec, bit_mask_pow by dlia.
    rewrite Z.pow2_bits_eqb by dlia. rewrite andb_comm. do 2 f_equal.
    destruct (Z.eqb_spec j bi) as [->|]; [apply Z.eqb_refl|apply Z.eqb_neq; dlia].
  - rewrite lookup_total_alter_ne by (intros ?; apply E; dlia).
    rewrite (proj2 (Z.eqb_neq j bi)); [done|]. by intros ->.
Qed.

Lemma block_ok_alter d (f : Z -> Z) i :
  block_ok d -> (forall x, is_byte x -> is_byte (f x)) -> block_ok (alter f i d).
Proof.
  intros [Hl Hb] Hf. split; [by rewrite length_alter|]. apply Forall_lookup. intros j x.
  destruct (decide (i = j)) as [<-|]; [|rewrite list_lookup_alter_ne by done; by apply Forall_lookup].
  rewrite list_lookup_alter_eq. destruct (d !! i) as [y|] eqn:E; [|done]. intros [= <-]. apply Hf.
  by eapply Forall_lookup_1.
Qed.

Lemma set_bit_ok d bi : 0 <= bi -> block_ok d -> block_ok (set_bit d bi).
Proof.
  intros. apply block_ok_alter; [done|]. intros x Hx. rewrite bit_mask_pow by done.
  apply (lor_range x _ 8); [lia|done|]. split; [apply Z.pow_nonneg; lia|]. apply Z.pow_lt_mono_r; dlia.
Qed.

Lemma clear_bit_ok d bi : block_ok d -> block_ok (clear_bit d bi).
Proof.
  intros. apply block_ok_alter; [done|]. intros x Hx. unfold is_byte in *.
  assert (0 <= Z.land x (Z.lnot (bit_mask bi)) <= x); [|lia]. apply Z.ldiff_le; [lia|].
  apply Z.bits_inj'. intros n Hn. rewrite Z.ldiff_spec, Z.land_spec, Z.bits_0.
  by destruct (Z.testbit x n), (Z.testbit (Z.lnot _) n).
Qed.

Lemma zeros_ok : block_ok zeros_block.
Proof. split; [done|]. apply Forall_replicate. unfold is_byte. lia. Qed.

(** ** The free map *)

Section Map.
Context (LS : Z) (sb : superblock) (G : geometry LS sb).

Lemma BBLOCK_eq b : 0 <= b < sb_size sb -> BBLOCK b sb = b / BPB + sb_bmapstart sb.
Proof.
  intros Hb. unfold BBLOCK. apply u32_small.
  pose proof (Z.div_pos b BPB ltac:(lia) ltac:(done)). pose proof (Z.div_le_mono b (sb_size sb) BPB ltac:(done) ltac:(lia)).
  pose proof (layout _ _ G). unfold sb_data in *. lia.
Qed.

Lemma BBLOCK_range b : 0 <= b < sb_size sb ->
  sb_bmapstart sb <= BBLOCK b sb < sb_data sb /\ home LS (BBLOCK b sb) /\ 0 <= BBLOCK b sb < sb_size sb.
Proof.
  intros Hb. rewrite BBLOCK_eq by done.
  pose proof (Z.div_pos b BPB ltac:(lia) ltac:(done)). pose proof (Z.div_le_mono b (sb_size sb) BPB ltac:(done) ltac:(lia)).
  pose proof (layout _ _ G). unfold home, sb_data in *. lia.
Qed.

Lemma data_home b : sb_data sb <= b < sb_size sb -> home LS b.
Proof. geo. Qed.

(** The blocks after [b] was taken. *)
Definition alloc_block (V : gmap Z (list Z)) (b : Z) : gmap Z (list Z) :=
  <[b := zeros_block]> (<[BBLOCK b sb := set_bit (V !!! BBLOCK b sb) (b mod BPB)]> V).
Definition free_block (V : gmap Z (list Z)) (b : Z) : gmap Z (list Z) :=
  <[BBLOCK b sb := clear_bit (V !!! BBLOCK b sb) (b mod BPB)]> V.

Lemma same_map b x : 0 <= b < sb_size sb -> 0 <= x < sb_size sb ->
  BBLOCK x sb = BBLOCK b sb -> (x mod BPB =? b mod BPB) = (x =? b).
Proof.
  intros Hb Hx. rewrite !BBLOCK_eq by done. unfold BPB, BSIZE. intros E.
  destruct (Z.eqb_spec x b) as [->|]; [apply Z.eqb_refl|apply Z.eqb_neq; dlia].
Qed.

Lemma mod_BPB b : 0 <= b mod BPB < BPB.
Proof. apply Z.mod_pos_bound. done. Qed.

Lemma used_update V b x d : fs_ok LS sb V -> 0 <= b < sb_size sb -> 0 <= x < sb_size sb ->
  used (<[BBLOCK b sb := d]> V) sb x =
    if BBLOCK x sb =? BBLOCK b sb then bit_used d (x mod BPB) else used V sb x.
Proof.
  intros HV Hb Hx. unfold used. destruct (Z.eqb_spec (BBLOCK x sb) (BBLOCK b sb)) as [->|].
  - by rewrite lookup_total_insert_eq.
  - by rewrite lookup_total_insert_ne.
Qed.

Lemma map_block_ok V b : fs_ok LS sb V -> 0 <= b < sb_size sb -> block_ok (V !!! BBLOCK b sb).
Proof.
  intros HV Hb. destruct (fo_full _ _ _ HV (BBLOCK b sb)) as (d & Hd & Hok); [by apply BBLOCK_range|].
  by rewrite (lookup_total_correct _ _ _ Hd).
Qed.

(** Blocks that are no bit-map blocks do not matter to the map. *)
Lemma used_data V a d x : sb_data sb <= a -> 0 <= x < sb_size sb -> used (<[a := d]> V) sb x = used V sb x.
Proof.
  intros Ha Hx. unfold used. rewrite lookup_total_insert_ne; [done|].
  pose proof (BBLOCK_range x Hx). lia.
Qed.

Lemma fs_ok_data V a d : fs_ok LS sb V -> sb_data sb <= a -> block_ok d -> fs_ok LS sb (<[a := d]> V).
Proof.
  intros HV Ha Hd. split; [done| |].
  - intros b Hb. destruct (decide (a = b)) as [->|]; [rewrite lookup_insert_eq; eauto|].
    rewrite lookup_insert_ne by done. by apply HV.
  - intros b Hb. pose proof (ge_data _ _ G). rewrite used_data by lia. by apply HV.
Qed.

Lemma fs_ok_map V b d : fs_ok LS sb V -> 0 <= b < sb_size sb -> block_ok d ->
  (forall x, 0 <= x < sb_data sb -> BBLOCK x sb = BBLOCK b sb -> bit_used d (x mod BPB) = true) ->
  fs_ok LS sb (<[BBLOCK b sb := d]> V).
Proof.
  intros HV Hb Hd Hm. split; [done| |].
  - intros x Hx. destruct (decide (BBLOCK b sb = x)) as [->|]; [rewrite lookup_insert_eq; eauto|].
    rewrite lookup_insert_ne by done. by apply HV.
  - intros x Hx. pose proof (ge_data _ _ G). rewrite used_update by (done || lia).
    destruct (Z.eqb_spec (BBLOCK x sb) (BBLOCK b sb)); [by apply Hm|by apply HV].
Qed.

Lemma alloc_used V b x : fs_ok LS sb V -> sb_data sb <= b < sb_size sb -> 0 <= x < sb_size sb ->
  used (alloc_block V b) sb x = (x =? b) || used V sb x.
Proof.
  intros HV Hb Hx. assert (0 <= b < sb_size sb) as Hb0.
  { pose proof (BBLOCK_range x Hx). lia. }
  unfold alloc_block. rewrite used_data, used_update by (done || lia).
  destruct (Z.eqb_spec (BBLOCK x sb) (BBLOCK b sb)) as [E|E].
  - rewrite set_bit_used by (apply mod_BPB || by apply map_block_ok).
    rewrite (same_map b x) by done. unfold used. by rewrite E.
  - rewrite (proj2 (Z.eqb_neq x b)); [done|]. by intros ->.
Qed.

Lemma mark_ok V b : fs_ok LS sb V -> 0 <= b < sb_size sb ->
  fs_ok LS sb (<[BBLOCK b sb := set_bit (V !!! BBLOCK b sb) (b mod BPB)]> V).
Proof.
  intros HV Hb. pose proof (map_block_ok V b HV Hb) as Hm.
  apply fs_ok_map; [done|lia|apply set_bit_ok; [apply mod_BPB|done]|].
  intros x Hx E. rewrite set_bit_used by (apply mod_BPB || by apply Hm).
  rewrite <- E. pose proof (fo_meta _ _ _ HV x Hx) as Hu. unfold used in Hu. by rewrite Hu, orb_true_r.
Qed.

Lemma alloc_ok V b : fs_ok LS sb V -> sb_data sb <= b < sb_size sb -> fs_ok LS sb (alloc_block V b).
Proof.
  intros HV Hb. pose proof (layout _ _ G). apply fs_ok_data; [|lia|apply zeros_ok]. apply mark_ok; [done|lia].
Qed.

Lemma alloc_lookup V b x : x <> b -> x <> BBLOCK b sb -> alloc_block V b !! x = V !! x.
Proof. intros. unfold alloc_block. by rewrite !lookup_insert_ne. Qed.

Lemma alloc_new V b : alloc_block V b !! b = Some zeros_block.
Proof. apply lookup_insert_eq. Qed.

Lemma free_used V b x : fs_ok LS sb V -> 0 <= b < sb_size sb -> 0 <= x < sb_size sb ->
  used (free_block V b) sb x = negb (x =? b) && used V sb x.
Proof.
  intros HV Hb Hx. unfold free_block. rewrite used_update by done.
  destruct (Z.eqb_spec (BBLOCK x sb) (BBLOCK b sb)) as [E|E].
  - rewrite clear_bit_used by (apply mod_BPB || by apply map_block_ok).
    rewrite (same_map b x) by done. unfold used. by rewrite E.
  - rewrite (proj2 (Z.eqb_neq x b)); [done|]. by intros ->.
Qed.

Lemma free_block_ok V b : fs_ok LS sb V -> sb_data sb <= b < sb_size sb -> fs_ok LS sb (free_block V b).
Proof.
  intros HV Hb. assert (0 <= b) as H0 by geo.
  pose proof (ge_data _ _ G). pose proof (map_block_ok V b HV ltac:(lia)) as Hm.
  apply fs_ok_map; [done|lia|by apply clear_bit_ok|].
  intros x Hx E. rewrite clear_bit_used by (apply mod_BPB || by apply Hm).
  rewrite (same_map b x) by (done || lia). rewrite <- E.
  pose proof (fo_meta _ _ _ HV x Hx) as Hu. unfold used in Hu. rewrite Hu, andb_true_r.
  rewrite (proj2 (Z.eqb_neq x b)); [done|lia].
Qed.

End Map.

(** ** The search for a clear bit *)

Lemma balloc_scan_spec data b size : forall n bi, (Z.to_nat (BPB - bi) <= n)%nat -> 0 <= bi ->
  match balloc_scan n data b bi size with
  | Some k => bi <= k < BPB /\ b + k < size /\ bit_used data k = false
  | None => forall k, bi <= k < BPB -> b + k < size -> bit_used data k = true
  end.
Proof.
  induction n as [|n IH]; intros bi Hn Hbi; cbn [balloc_scan]; [intros; lia|].
  destruct (Z.ltb_spec bi BPB); cbn [andb]; [|intros; lia].
  destruct (Z.ltb_spec (b + bi) size); [|intros; lia].
  destruct (bit_used data bi) eqn:E; [|done].
  specialize (IH (bi + 1) ltac:(lia) ltac:(lia)). destruct (balloc_scan n data b (bi + 1) size) as [k|].
  - destruct IH as (? & ? & ?). split; [lia|done].
  - intros k Hk Hs. destruct (decide (k = bi)) as [->|]; [done|]. apply IH; [lia|done].
Qed.

Section FsBlock.
Context `{D : BlockDev}.
Context (p : nat) (LS : Z) (sb : superblock).

(** bzero() of a block no one holds. *)
Lemma bzero_spec s bl H V b :
  tx p LS s bl H V -> fs_ok LS sb V -> sb_data sb <= b < sb_size sb -> b ∉ H ->
  (length bl + size H < 29)%nat ->
  exists s', bzero ROOTDEV b s = Ok tt s' /\ tx_step p s s' /\ tx p LS s' (logged bl b) H (<[b := zeros_block]> V) /\
    forall b' blk', blk' ∈ H -> buf_of s b' blk' -> buf_of s' b' blk'.
Proof.
  intros T HV Hb HH Hroom. pose proof (fo_geo _ _ _ HV) as G. pose proof (layout _ _ G) as Hlay.
  destruct (fo_full _ _ _ HV b) as (d & Hd & _); [lia|].
  unfold bzero. rewrite u32_small by lia.
  destruct (tx_bread p LS s bl H V b d T HH Hd) as (bp & s1 & E1 & S1 & Hb1 & _ & T1 & K1); [unfold NBUF; lia|].
  mrun E1. destruct (tx_log_write p LS s1 bl _ V bp b (fun _ => zeros_block) T1) as (s2 & s3 & E2 & E3 & S3 & T3 & K3);
    [set_solver|done|by apply (data_home LS sb)|apply zeros_ok|lia|].
  unfold set_data. mrun E2. mrun E3.
  destruct (tx_brelse p LS s3 _ _ _ bp b T3) as (s4 & E4 & S4 & T4 & K4); [set_solver|by apply K3|].
  exists s4. split_and!; [done|by etrans; [etrans|]| |].
  - replace (({[b]} ∪ H) ∖ {[b]}) with H in T4 by set_solver. exact T4.
  - intros b' blk' Hin Hbf. by apply K4, K3, K1.
Qed.

(** The blocks the caller holds are data blocks in use. *)
Definition held_ok (V : gmap Z (list Z)) (H : gset Z) : Prop :=
  forall blk, blk ∈ H -> sb_data sb <= blk < sb_size sb /\ used V sb blk = true.

(** What balloc() does: no block is free and it returns 0, or it returns a
    block that was free, marked in the map and zeroed. *)
Definition allocated (s' : kstate) (bl : list Z) (H : gset Z) (V : gmap Z (list Z)) (r : Z) : Prop :=
  (r = 0 /\ (forall x, 0 <= x < sb_size sb -> used V sb x = true) /\ tx p LS s' bl H V) \/
  (sb_data sb <= r < sb_size sb /\ used V sb r = false /\
   tx p LS s' (logged (logged bl (BBLOCK r sb)) r) H (alloc_block sb V r)).

Lemma map_block k bi : geometry LS sb -> 0 <= k -> 0 <= bi < BPB -> k * BPB + bi < sb_size sb ->
  BBLOCK (k * BPB + bi) sb = BBLOCK (k * BPB) sb /\ (k * BPB + bi) mod BPB = bi.
Proof.
  intros G Hk Hbi Hsz. assert (0 <= k * BPB) by (unfold BPB, BSIZE in *; lia).
  rewrite !(BBLOCK_eq LS) by (done || lia). rewrite (Z.add_comm (k * BPB)).
  rewrite Z.div_add, Z.mod_add, Z.div_small, Z.mod_small, Z.div_mul by done. done.
Qed.

(** A message without directives. *)
Lemma tx_message s bl H V msg :
  tx p LS s bl H V -> Forall is_byte msg -> format msg [] = (msg, true) ->
  printf msg [] s = Ok 0 (emit msg s) /\ tx_step p s (emit msg s) /\ tx p LS (emit msg s) bl H V.
Proof.
  intros T Hm Hf. pose proof (tx_running _ _ _ _ _ _ T) as Hr. split; [|split; [apply emit_step|by apply tx_emit]].
  apply printf_eq; try done; [apply Hr|rewrite (rn_depth _ _ Hr); lia|apply T|by apply (running_free p)].
Qed.

(** Past the last block balloc() gives up. *)
Lemma balloc_full n s bl H V k :
  tx p LS s bl H V -> k_sb s = sb -> sb_size sb <= k * BPB ->
  (forall x, 0 <= x < k * BPB -> x < sb_size sb -> used V sb x = true) ->
  exists r s', balloc_loop n ROOTDEV (k * BPB) s = Ok r s' /\ tx_step p s s' /\ allocated s' bl H V r /\
    forall b' blk', blk' ∈ H -> buf_of s b' blk' -> buf_of s' b' blk'.
Proof.
  intros T Esb Hk Hpre. destruct (tx_message s bl H V (chars "balloc: out of blocks" ++ chars NL) T) as (E & S & T');
    [apply (bool_decide_unpack _); vm_compute; exact I|reflexivity|].
  eexists 0, _. split; [|split; [exact S|split; [|done]]].
  - destruct n; cbn [balloc_loop]; change (gets k_sb) with (gets (fun s => k_sb s)); mred; rewrite Esb;
      rewrite (proj2 (Z.ltb_ge _ _)) by lia; by mrun E.
  - left. split; [done|]. split; [|done]. intros x Hx. apply Hpre; lia.
Qed.

(** A clear bit of the map is a free data block, and setting it is the first
    half of an allocation. *)
Lemma free_bit k bi V d :
  fs_ok LS sb V -> 0 <= k -> 0 <= bi < BPB -> k * BPB + bi < sb_size sb ->
  V !! BBLOCK (k * BPB) sb = Some d -> bit_used d bi = false ->
  let b := k * BPB + bi in
  BBLOCK b sb = BBLOCK (k * BPB) sb /\ used V sb b = false /\ sb_data sb <= b < sb_size sb /\
  alloc_block sb V b = <[b := zeros_block]> (<[BBLOCK (k * BPB) sb := set_bit d bi]> V) /\
  fs_ok LS sb (<[BBLOCK (k * BPB) sb := set_bit d bi]> V).
Proof.
  intros HV Hk Hbi Hsz Hd Hfree b. pose proof (fo_geo _ _ _ HV) as G.
  destruct (map_block k bi G Hk Hbi Hsz) as [Em Eb]. fold b in Em, Eb.
  assert (Hu : used V sb b = false) by (unfold used; rewrite Em, Eb, (lookup_total_correct _ _ _ Hd); done).
  assert (Hb0 : 0 <= b < sb_size sb) by (unfold b, BPB, BSIZE in *; lia).
  split_and!; [done|done| |lia| |].
  - destruct (decide (b < sb_data sb)); [|lia]. rewrite (fo_meta _ _ _ HV) in Hu; [done|]. lia.
  - unfold alloc_block. by rewrite Em, Eb, (lookup_total_correct _ _ _ Hd).
  - pose proof (mark_ok LS sb G V b HV ltac:(lia)) as Hmk. by rewrite Em, Eb, (lookup_total_correct _ _ _ Hd) in Hmk.
Qed.

Lemma balloc_loop_spec : forall n s bl H V k,
  tx p LS s bl H V -> fs_ok LS sb V -> k_sb s = sb -> held_ok V H -> (length bl + size H < 28)%nat ->
  0 <= k -> sb_size sb <= (k + Z.of_nat n) * BPB ->
  (forall x, 0 <= x < k * BPB -> x < sb_size sb -> used V sb x = true) ->
  exists r s', balloc_loop n ROOTDEV (k * BPB) s = Ok r s' /\ tx_step p s s' /\ allocated s' bl H V r /\
    forall b' blk', blk' ∈ H -> buf_of s b' blk' -> buf_of s' b' blk'.
Proof.
  intros n s bl H V k T HV Esb HH Hroom. revert n s k T Esb.
  pose proof (fo_geo _ _ _ HV) as G. pose proof (layout _ _ G) as Hlay.
  induction n as [|n IH]; intros s k T Esb Hk Hn Hpre; [apply balloc_full; try done; lia|].
  destruct (decide (sb_size sb <= k * BPB)) as [|Hlt]; [by apply balloc_full|].
  cbn [balloc_loop]. change (gets k_sb) with (gets (fun s => k_sb s)). mred. rewrite Esb.
  rewrite (proj2 (Z.ltb_lt _ _)) by lia.
  assert (Hb0 : 0 <= k * BPB < sb_size sb) by (unfold BPB, BSIZE in *; lia).
  destruct (BBLOCK_range LS sb G _ Hb0) as (Hr1 & Hr2 & Hr3). set (mb := BBLOCK (k * BPB) sb) in *.
  destruct (fo_full _ _ _ HV mb Hr3) as (d & Hd & Hok).
  assert (HmH : mb ∉ H) by (intros ?%HH; lia).
  destruct (tx_bread p LS s bl H V mb d T HmH Hd) as (bp & s1 & E1 & S1 & Hb1 & Ed1 & T1 & K1); [unfold NBUF; lia|].
  mrun E1. unfold buf_at. mred. rewrite Ed1.
  pose proof (balloc_scan_spec d (k * BPB) (sb_size sb) (Z.to_nat BPB) 0 ltac:(lia) ltac:(lia)) as Hscan.
  destruct (balloc_scan (Z.to_nat BPB) d (k * BPB) 0 (sb_size sb)) as [bi|].
  - destruct Hscan as (Hbi & Hsz & Hfree).
    destruct (tx_log_write p LS s1 bl _ V bp mb (fun _ => set_bit d bi) T1) as (s2 & s3 & E2 & E3 & S3 & T3 & K3);
      [set_solver|done|done|apply set_bit_ok; [lia|done]|lia|].
    unfold set_data, set_bit in *. mrun E2. mrun E3.
    destruct (tx_brelse p LS s3 _ _ _ bp mb T3) as (s4 & E4 & S4 & T4 & K4); [set_solver|by apply K3|].
    mrun E4. replace (({[mb]} ∪ H) ∖ {[mb]}) with H in T4 by set_solver.
    destruct (free_bit k bi V d HV Hk Hbi Hsz Hd Hfree) as (Em & Hu & Hbd & Ha & Hmk).
    fold mb in Em, Ha, Hmk. set (b := k * BPB + bi) in *.
    pose proof (length_logged bl mb).
    assert (HbH : b ∉ H) by (intros [_ ?]%HH; congruence).
    destruct (bzero_spec s4 _ _ _ b T4 Hmk Hbd HbH) as (s5 & E5 & S5 & T5 & K5); [lia|].
    mrun E5. exists b, s5. split_and!; [done|by repeat (etrans; [eassumption|])| |].
    + right. split_and!; [lia|lia|done|]. by rewrite Ha, Em.
    + intros b' blk' Hin Hbf. by apply K5, K4, K3, K1.
  - destruct (tx_brelse p LS s1 _ _ _ bp mb T1) as (s2 & E2 & S2 & T2 & K2); [set_solver|done|].
    mrun E2. replace (({[mb]} ∪ H) ∖ {[mb]}) with H in T2 by set_solver.
    replace (k * BPB + BPB) with ((k + 1) * BPB) by lia.
    destruct (IH s2 (k + 1) T2) as (r & s' & E & S & A & K).
    + by rewrite (ts_sb _ _ _ S2), (ts_sb _ _ _ S1).
    + lia.
    + lia.
    + intros x Hx Hxs. destruct (decide (x < k * BPB)); [apply Hpre; lia|].
      destruct (map_block k (x - k * BPB) G Hk) as [Em Eb]; [lia|lia|].
      replace (k * BPB + (x - k * BPB)) with x in * by lia. unfold used. rewrite Em, Eb.
      fold mb. rewrite (lookup_total_correct _ _ _ Hd). apply Hscan; lia.
    + exists r, s'. split_and!; [done|by etrans; [etrans|]|done|].
      intros b' blk' Hin Hbf. by apply K, K2, K1.
Qed.

Lemma balloc_spec s bl H V :
  tx p LS s bl H V -> fs_ok LS sb V -> k_sb s = sb -> held_ok V H -> (length bl + size H < 28)%nat ->
  exists r s', balloc ROOTDEV s = Ok r s' /\ tx_step p s s' /\ allocated s' bl H V r /\
    forall b' blk', blk' ∈ H -> buf_of s b' blk' -> buf_of s' b' blk'.
Proof.
  intros T HV Esb HH Hroom. unfold balloc. change (gets k_sb) with (gets (fun s => k_sb s)). mred. rewrite Esb.
  apply (balloc_loop_spec _ s bl H V 0); try done; [|intros; lia].
  pose proof (layout _ _ (fo_geo _ _ _ HV)). rewrite Z2Nat.id by (apply Z.add_nonneg_nonneg; [apply Z.div_pos|]; lia || done).
  pose proof (Z.mul_succ_div_gt (sb_size sb) BPB ltac:(done)). lia.
Qed.

(** bfree() of a block in use clears its bit; of a free block it panics. *)
Lemma bfree_spec s bl H V b :
  tx p LS s bl H V -> fs_ok LS sb V -> k_sb s = sb -> held_ok V H -> (length bl + size H < 29)%nat ->
  sb_data sb <= b < sb_size sb -> used V sb b = true ->
  exists s', bfree ROOTDEV b s = Ok tt s' /\ tx_step p s s' /\ tx p LS s' (logged bl (BBLOCK b sb)) H (free_block sb V b) /\
    forall b' blk', blk' ∈ H -> buf_of s b' blk' -> buf_of s' b' blk'.
Proof.
  intros T HV Esb HH Hroom Hb Hu. pose proof (fo_geo _ _ _ HV) as G. pose proof (layout _ _ G) as Hlay.
  destruct (BBLOCK_range LS sb G b ltac:(lia)) as (Hr1 & Hr2 & Hr3). unfold bfree.
  change (gets k_sb) with (gets (fun s => k_sb s)). mred. rewrite Esb. unfold used, free_block in *.
  set (mb := BBLOCK b sb) in *. destruct (fo_full _ _ _ HV mb Hr3) as (d & Hd & Hok).
  rewrite (lookup_total_correct _ _ _ Hd) in *.
  assert (HmH : mb ∉ H) by (intros ?%HH; lia).
  destruct (tx_bread p LS s bl H V mb d T HmH Hd) as (bp & s1 & E1 & S1 & Hb1 & Ed1 & T1 & K1); [unfold NBUF; lia|].
  mrun E1. unfold buf_at. mred. rewrite Ed1, Hu. cbn [negb].
  destruct (tx_log_write p LS s1 bl _ V bp mb (fun _ => clear_bit d (b mod BPB)) T1) as (s2 & s3 & E2 & E3 & S3 & T3 & K3);
    [set_solver|done|done|by apply clear_bit_ok|lia|].
  unfold set_data, clear_bit in *. mrun E2. mrun E3.
  destruct (tx_brelse p LS s3 _ _ _ bp mb T3) as (s4 & E4 & S4 & T4 & K4); [set_solver|by apply K3|].
  replace (({[mb]} ∪ H) ∖ {[mb]}) with H in T4 by set_solver.
  exists s4. split_and!; [done|by etrans; [etrans|]|done|]. intros b' blk' Hin Hbf. by apply K4, K3, K1.
Qed.

End FsBlock.
