(* ===== verification/FsFile.v ===== *)
(** Files: the blocks of an inode and the bytes they hold. bmap(), readi()
    and writei() of fs.c against a file as a sequence of bytes. *)

From S2P Require Import Prelude Riscv State Spinlock Kalloc Vm VmCopy Sched Sleeplock Printf PrintfSpec Bio BioSpec Log LogSpec FsTx Fs FsBlock.

(** ** Block addresses *)

(** The address of the indirect block, 0 when there is none. *)
Definition ind_of (A : list Z) : Z := A !!! Z.to_nat NDIRECT.

(** The block that holds block [bn] of the file, 0 when there is none. *)
Definition baddr (V : gmap Z (list Z)) (A : list Z) (bn : Z) : Z :=
  if bn <? NDIRECT then A !!! Z.to_nat bn else
  if ind_of A =? 0 then 0 else ind_get (V !!! ind_of A) (bn - NDIRECT).

(** The byte at offset [o]. *)
Definition fbyte (V : gmap Z (list Z)) (A : list Z) (o : Z) : Z :=
  (V !!! baddr V A (o / BSIZE)) !!! Z.to_nat (o mod BSIZE).

Definition content (V : gmap Z (list Z)) (A : list Z) (size : Z) : list Z :=
  (fun k => fbyte V A (Z.of_nat k)) <$> seq 0 (Z.to_nat size).

Lemma MAXFILE_val : MAXFILE = 268.
Proof. reflexivity. Qed.

Section File.
Context (LS : Z) (sb : superblock).

Definition data_block (V : gmap Z (list Z)) (a : Z) : Prop :=
  sb_data sb <= a < sb_size sb /\ used V sb a = true.

(** The blocks of the file. *)
Definition owned (V : gmap Z (list Z)) (A : list Z) (x : Z) : Prop :=
  x <> 0 /\ (x = ind_of A \/ exists bn, 0 <= bn < MAXFILE /\ x = baddr V A bn).

(** Its blocks are data blocks in use, each with one role. *)
Record file_ok (V : gmap Z (list Z)) (A : list Z) : Prop := {
  fi_len : length A = 13%nat;
  fi_data x : owned V A x -> data_block V x;
  fi_inj bn bn' : 0 <= bn < MAXFILE -> 0 <= bn' < MAXFILE -> baddr V A bn <> 0 ->
    baddr V A bn = baddr V A bn' -> bn = bn';
  fi_ind bn : 0 <= bn < MAXFILE -> baddr V A bn <> 0 -> baddr V A bn <> ind_of A
}.

(** [w] was written at [off], with blocks allocated as needed; nothing else of
    the file changed, nor any block that is not the file's, the free map's or
    a block that was free. *)
Record wrote (V : gmap Z (list Z)) (A : list Z) (off : Z) (w : list Z) (V' : gmap Z (list Z)) (A' : list Z) : Prop := {
  wr_ok : fs_ok LS sb V';
  wr_file : file_ok V' A';
  wr_map bn : 0 <= bn < MAXFILE -> baddr V A bn <> 0 -> baddr V' A' bn = baddr V A bn;
  wr_in o : off <= o < off + Z.of_nat (length w) -> baddr V' A' (o / BSIZE) <> 0;
  wr_bytes o : off <= o < off + Z.of_nat (length w) -> fbyte V' A' o = w !!! Z.to_nat (o - off);
  wr_rest o : 0 <= o < MAXFILE * BSIZE -> ~ off <= o < off + Z.of_nat (length w) ->
    baddr V A (o / BSIZE) <> 0 -> fbyte V' A' o = fbyte V A o;
  wr_frame x : data_block V x -> ~ owned V A x -> V' !! x = V !! x;
  wr_meta x : x < sb_bmapstart sb -> V' !! x = V !! x;
  wr_used x : 0 <= x < sb_size sb -> used V sb x = true -> used V' sb x = true;
  wr_owned x : owned V' A' x -> owned V A x \/ used V sb x = false;
  wr_owner x : owned V A x -> owned V' A' x;
  wr_marked x : 0 <= x < sb_size sb -> used V' sb x = true -> used V sb x = true \/ owned V' A' x
}.

Lemma wrote_refl V A off : fs_ok LS sb V -> file_ok V A -> wrote V A off [] V A.
Proof. intros. split; try done; cbn; try lia; auto. Qed.

Lemma owned_baddr V A bn : 0 <= bn < MAXFILE -> baddr V A bn <> 0 -> owned V A (baddr V A bn).
Proof. intros. split; [done|]. right. by exists bn. Qed.

Lemma BSIZE_index o : 0 <= o < MAXFILE * BSIZE -> 0 <= o / BSIZE < MAXFILE.
Proof. rewrite MAXFILE_val. unfold BSIZE. dlia. Qed.

Lemma wrote_trans V A off w1 w2 V1 A1 V2 A2 :
  geometry LS sb -> 0 <= off -> off + Z.of_nat (length w1) + Z.of_nat (length w2) <= MAXFILE * BSIZE ->
  wrote V A off w1 V1 A1 -> wrote V1 A1 (off + Z.of_nat (length w1)) w2 V2 A2 ->
  wrote V A off (w1 ++ w2) V2 A2.
Proof.
  intros G Hoff Hmax H1 H2. pose proof (layout _ _ G) as Hlay. split; try (by apply H2).
  - intros bn Hbn Hb. rewrite (wr_map _ _ _ _ _ _ H2), (wr_map _ _ _ _ _ _ H1); try done.
    by rewrite (wr_map _ _ _ _ _ _ H1).
  - intros o. rewrite length_app. intros Ho. destruct (decide (o < off + Z.of_nat (length w1))) as [Hlt|].
    + pose proof (wr_in _ _ _ _ _ _ H1 o ltac:(lia)) as Hn. rewrite (wr_map _ _ _ _ _ _ H2); [done| |done].
      apply BSIZE_index. lia.
    + apply (wr_in _ _ _ _ _ _ H2). lia.
  - intros o. rewrite length_app. intros Ho. destruct (decide (o < off + Z.of_nat (length w1))) as [Hlt|].
    + pose proof (wr_in _ _ _ _ _ _ H1 o ltac:(lia)) as Hn. rewrite (wr_rest _ _ _ _ _ _ H2); [|lia|lia|done].
      rewrite (wr_bytes _ _ _ _ _ _ H1) by lia. by rewrite lookup_total_app_l by lia.
    + rewrite (wr_bytes _ _ _ _ _ _ H2) by lia. rewrite lookup_total_app_r by lia. f_equal. lia.
  - intros o Ho. rewrite length_app. intros Hno Hb.
    rewrite (wr_rest _ _ _ _ _ _ H2); [|done|lia|].
    + rewrite (wr_rest _ _ _ _ _ _ H1); [done|done|lia|done].
    + by rewrite (wr_map _ _ _ _ _ _ H1) by (done || by apply BSIZE_index).
  - intros x [Hx Hu] Hno. rewrite (wr_frame _ _ _ _ _ _ H2), (wr_frame _ _ _ _ _ _ H1); try done.
    + split; [done|]. apply (wr_used _ _ _ _ _ _ H1); [lia|done].
    + intros [?|Hf]%(wr_owned _ _ _ _ _ _ H1); [done|]. congruence.
  - intros x Hx. rewrite (wr_meta _ _ _ _ _ _ H2), (wr_meta _ _ _ _ _ _ H1); done.
  - intros x Hx Hu. apply (wr_used _ _ _ _ _ _ H2); [done|]. by apply (wr_used _ _ _ _ _ _ H1).
  - intros x Hx. destruct (fi_data _ _ (wr_file _ _ _ _ _ _ H2) x Hx) as [Hr _].
    destruct (wr_owned _ _ _ _ _ _ H2 x Hx) as [?|Hu]; [by apply (wr_owned _ _ _ _ _ _ H1)|]. right.
    destruct (used V sb x) eqn:E; [|done]. rewrite (wr_used _ _ _ _ _ _ H1) in Hu; [done|lia|done].
  - intros x Hx. by apply (wr_owner _ _ _ _ _ _ H2), (wr_owner _ _ _ _ _ _ H1).
  - intros x Hx [Hu|?]%(wr_marked _ _ _ _ _ _ H2); [|by right|done].
    destruct (wr_marked _ _ _ _ _ _ H1 x Hx Hu) as [?|?]; [by left|]. right. by apply (wr_owner _ _ _ _ _ _ H2).
Qed.

(** ** How an address changes *)

Lemma baddr_same V V' A bn : (ind_of A <> 0 -> V' !!! ind_of A = V !!! ind_of A) -> baddr V' A bn = baddr V A bn.
Proof.
  intros H. unfold baddr. destruct (bn <? NDIRECT); [done|].
  destruct (Z.eqb_spec (ind_of A) 0); [done|]. by rewrite H.
Qed.

Lemma ind_of_direct A bn a : 0 <= bn < NDIRECT -> ind_of (<[Z.to_nat bn := a]> A) = ind_of A.
Proof. intros. unfold ind_of, NDIRECT in *. by rewrite list_lookup_total_insert_ne by lia. Qed.

Lemma baddr_direct V A bn a bn' : length A = 13%nat -> 0 <= bn < NDIRECT -> 0 <= bn' ->
  baddr V (<[Z.to_nat bn := a]> A) bn' = if bn' =? bn then a else baddr V A bn'.
Proof.
  intros Hl Hbn Hbn'. unfold baddr. rewrite ind_of_direct by done. unfold NDIRECT in *.
  destruct (Z.eqb_spec bn' bn) as [->|Hne].
  - rewrite (proj2 (Z.ltb_lt bn 12)) by lia. by rewrite list_lookup_total_insert_eq by lia.
  - destruct (Z.ltb_spec bn' 12); [|done]. by rewrite list_lookup_total_insert_ne by lia.
Qed.

Lemma ind_of_set A a : length A = 13%nat -> ind_of (<[Z.to_nat NDIRECT := a]> A) = a.
Proof. intros. unfold ind_of, NDIRECT. by rewrite list_lookup_total_insert_eq by lia. Qed.

Lemma ind_get_zeros k : ind_get zeros_block k = 0.
Proof.
  unfold ind_get, get_le, zeros_block. rewrite drop_replicate, take_replicate.
  generalize (4 `min` (Z.to_nat BSIZE - Z.to_nat (4 * k)))%nat. induction n as [|n IH]; [done|].
  cbn [replicate le_value]. rewrite IH. done.
Qed.

Lemma baddr_new_ind V A a bn : length A = 13%nat -> ind_of A = 0 -> V !!! a = zeros_block ->
  baddr V (<[Z.to_nat NDIRECT := a]> A) bn = baddr V A bn.
Proof.
  intros Hl H0 Hz. unfold baddr. rewrite ind_of_set by done. unfold NDIRECT. destruct (Z.ltb_spec bn 12).
  - destruct (decide (Z.to_nat bn = Z.to_nat 12)); [|by rewrite list_lookup_total_insert_ne].
    lia.
  - rewrite H0, Hz, ind_get_zeros. by destruct (a =? 0).
Qed.

Lemma ind_get_put d k a k' : length d = 1024%nat -> 0 <= k < NINDIRECT -> 0 <= k' < NINDIRECT -> 0 <= a < 2 ^ 32 ->
  ind_get (put_le 4 d (Z.to_nat (4 * k)) a) k' = if k' =? k then a else ind_get d k'.
Proof.
  intros Hl Hk Hk' Ha. unfold ind_get, NINDIRECT, BSIZE in *. change (1024 / 4) with 256 in *.
  destruct (Z.eqb_spec k' k) as [->|].
  - rewrite get_put_le_same by lia. apply Z.mod_small. exact Ha.
  - apply get_put_le_out; lia.
Qed.

Lemma baddr_entry V A bn a bn' : ind_of A <> 0 -> length (V !!! ind_of A) = 1024%nat ->
  NDIRECT <= bn < MAXFILE -> 0 <= bn' < MAXFILE -> 0 <= a < 2 ^ 32 ->
  baddr (<[ind_of A := put_le 4 (V !!! ind_of A) (Z.to_nat (4 * (bn - NDIRECT))) a]> V) A bn' =
    if bn' =? bn then a else baddr V A bn'.
Proof.
  intros H0 Hl Hbn Hbn' Ha. unfold baddr. rewrite lookup_total_insert_eq.
  rewrite (proj2 (Z.eqb_neq (ind_of A) 0) H0). unfold MAXFILE, NDIRECT in *.
  destruct (Z.ltb_spec bn' 12).
  - by rewrite (proj2 (Z.eqb_neq bn' bn)) by lia.
  - rewrite ind_get_put by (done || lia).
    destruct (Z.eqb_spec (bn' - 12) (bn - 12)), (Z.eqb_spec bn' bn); done || lia.
Qed.

(** ** A block added to the file *)

Section Alloc.
Context (V : gmap Z (list Z)) (A : list Z) (V' : gmap Z (list Z)) (A' : list Z) (a : Z).
Context (HV : fs_ok LS sb V) (HF : file_ok V A) (HV' : fs_ok LS sb V') (Hlen : length A' = 13%nat).
Context (Ha : sb_data sb <= a < sb_size sb) (Hfree : used V sb a = false).
Context (Hused : forall x, 0 <= x < sb_size sb -> used V' sb x = (x =? a) || used V sb x).
Context (Hframe : forall x, x <> a -> (x <> 0 -> x <> ind_of A) -> x < sb_bmapstart sb \/ sb_data sb <= x -> V' !! x = V !! x).
Context (Hrole :
  (ind_of A' = ind_of A /\ exists bn, 0 <= bn < MAXFILE /\ baddr V A bn = 0 /\
     forall bn', 0 <= bn' < MAXFILE -> baddr V' A' bn' = if bn' =? bn then a else baddr V A bn') \/
  (ind_of A = 0 /\ ind_of A' = a /\ forall bn', 0 <= bn' < MAXFILE -> baddr V' A' bn' = baddr V A bn')).

Lemma alloc_owned x : owned V' A' x <-> owned V A x \/ x = a.
Proof.
  pose proof (layout _ _ (fo_geo _ _ _ HV)). unfold owned.
  destruct Hrole as [(Ei & bn & Hbn & H0 & Hb)|(E0 & Ei & Hb)].
  - split.
    + intros [Hx [->|(bn' & Hbn' & ->)]]; [left; by rewrite Ei in *; auto|].
      rewrite Hb in * by done. destruct (bn' =? bn); [by right|]. left. split; [done|]. right. by exists bn'.
    + intros [[Hx [->|(bn' & Hbn' & ->)]]| ->].
      * split; [done|]. left. done.
      * split; [done|]. right. exists bn'. split; [done|]. rewrite Hb by done.
        destruct (Z.eqb_spec bn' bn) as [->|]; done.
      * split; [lia|]. right. exists bn. split; [done|]. rewrite Hb by done. by rewrite Z.eqb_refl.
  - split.
    + intros [Hx [->|(bn' & Hbn' & ->)]]; [by right|]. rewrite Hb in * by done. left. split; [done|]. right. by exists bn'.
    + intros [[Hx [->|(bn' & Hbn' & ->)]]| ->]; [by rewrite E0 in Hx| |].
      * split; [done|]. right. exists bn'. split; [done|]. by rewrite Hb.
      * split; [lia|]. by left.
Qed.

Lemma alloc_not_owned : ~ owned V A a.
Proof. intros [_ Hu]%(fi_data _ _ HF). congruence. Qed.

Lemma alloc_file : file_ok V' A'.
Proof.
  pose proof (layout _ _ (fo_geo _ _ _ HV)). pose proof alloc_not_owned as Hno. split; [done| | |].
  - intros x [Hx| ->]%alloc_owned.
    + destruct (fi_data _ _ HF x Hx) as [Hr Hu]. split; [done|]. rewrite Hused, Hu by lia. apply orb_true_r.
    + split; [done|]. rewrite Hused by lia. by rewrite Z.eqb_refl.
  - intros bn bn' Hbn Hbn'. destruct Hrole as [(Ei & b & Hb0 & H0 & Hb)|(E0 & Ei & Hb)]; rewrite !Hb by done;
      [|by apply (fi_inj _ _ HF)].
    destruct (Z.eqb_spec bn b) as [->|], (Z.eqb_spec bn' b) as [->|]; try done.
    + intros _ E. destruct Hno. rewrite E. apply owned_baddr; [done|]. lia.
    + intros Hn E. destruct Hno. rewrite <- E. by apply owned_baddr.
    + by apply (fi_inj _ _ HF).
  - intros bn Hbn. destruct Hrole as [(Ei & b & Hb0 & H0 & Hb)|(E0 & Ei & Hb)]; rewrite Hb, Ei by done.
    + destruct (Z.eqb_spec bn b); [|by apply (fi_ind _ _ HF)]. intros Hn E. destruct Hno. split; [done|]. by left.
    + intros Hn E. destruct Hno. rewrite <- E. by apply owned_baddr.
Qed.

Lemma alloc_keep bn : 0 <= bn < MAXFILE -> baddr V A bn <> 0 -> baddr V' A' bn = baddr V A bn.
Proof.
  intros Hbn Hn. destruct Hrole as [(Ei & b & Hb0 & H0 & Hb)|(E0 & Ei & Hb)]; rewrite Hb by done; [|done].
  destruct (Z.eqb_spec bn b) as [->|]; [by rewrite H0 in Hn|done].
Qed.

Lemma wrote_alloc off : wrote V A off [] V' A'.
Proof.
  pose proof (layout _ _ (fo_geo _ _ _ HV)) as Hlay. pose proof alloc_not_owned as Hno.
  split; cbn [length]; [done|apply alloc_file|by apply alloc_keep|lia|lia| | | | | | |].
  - intros o Ho _ Hn. apply BSIZE_index in Ho. unfold fbyte. rewrite alloc_keep by done.
    pose proof (owned_baddr V A _ Ho Hn) as Hown. destruct (fi_data _ _ HF _ Hown) as [Hr _].
    rewrite !lookup_total_alt, Hframe; [done| | |].
    + intros E. by rewrite E in Hown.
    + intros _. by apply (fi_ind _ _ HF).
    + lia.
  - intros x [Hr Hu] Hnx. apply Hframe; [intros ->; congruence| |lia].
    intros Hx0 ->. destruct Hnx. split; [done|]. by left.
  - intros x Hx. apply Hframe; [lia| |lia]. intros Hx0 ->.
    destruct (fi_data _ _ HF (ind_of A)) as [Hr _]; [split; [done|by left]|]. lia.
  - intros x Hx Hu. rewrite Hused, Hu by done. apply orb_true_r.
  - intros x [?| ->]%alloc_owned; [by left|by right].
  - intros x Hx. apply alloc_owned. by left.
  - intros x Hx. rewrite Hused by done. destruct (Z.eqb_spec x a) as [->|]; [|by left].
    intros _. right. apply alloc_owned. by right.
Qed.

End Alloc.

(** The three ways bmap() uses a new block: as a direct block, as the indirect
    block, as a block named by the indirect block. *)
Section Roles.
Context (V : gmap Z (list Z)) (A : list Z) (HV : fs_ok LS sb V) (HF : file_ok V A).
Context (a : Z) (Ha : sb_data sb <= a < sb_size sb) (Hfree : used V sb a = false).

Lemma alloc_frame x : x <> a -> x < sb_bmapstart sb \/ sb_data sb <= x -> alloc_block sb V a !! x = V !! x.
Proof.
  intros Hx Hr. pose proof (layout _ _ (fo_geo _ _ _ HV)).
  pose proof (BBLOCK_range LS sb (fo_geo _ _ _ HV) a ltac:(lia)). apply alloc_lookup; lia.
Qed.

Lemma alloc_ind_data : ind_of A <> 0 -> data_block V (ind_of A) /\ alloc_block sb V a !!! ind_of A = V !!! ind_of A.
Proof.
  intros Hn. assert (data_block V (ind_of A)) as Hd by (apply (fi_data _ _ HF); split; [done|by left]).
  split; [done|]. destruct Hd as [? Hu]. rewrite !lookup_total_alt, alloc_frame; [done| |lia].
  intros E. rewrite E in Hu. congruence.
Qed.

Lemma wrote_direct bn off : 0 <= bn < NDIRECT -> baddr V A bn = 0 ->
  wrote V A off [] (alloc_block sb V a) (<[Z.to_nat bn := a]> A).
Proof.
  intros Hbn H0. pose proof (layout _ _ (fo_geo _ _ _ HV)). apply (wrote_alloc V A _ _ a); try done.
  - by apply alloc_ok; [apply HV| |].
  - rewrite length_insert. apply HF.
  - intros x Hx. by apply (alloc_used LS); [apply HV|..].
  - intros x Hxa _ Hr. by apply alloc_frame.
  - left. split; [by apply ind_of_direct|]. exists bn. split; [rewrite MAXFILE_val; unfold NDIRECT in *; lia|]. split; [done|].
    intros bn' Hbn'. rewrite baddr_direct by (apply HF || lia). destruct (bn' =? bn); [done|].
    apply baddr_same. intros Hn. by apply alloc_ind_data.
Qed.

Lemma wrote_new_ind off : ind_of A = 0 -> wrote V A off [] (alloc_block sb V a) (<[Z.to_nat NDIRECT := a]> A).
Proof.
  intros H0. pose proof (layout _ _ (fo_geo _ _ _ HV)). apply (wrote_alloc V A _ _ a); try done.
  - by apply alloc_ok; [apply HV| |].
  - rewrite length_insert. apply HF.
  - intros x Hx. by apply (alloc_used LS); [apply HV|..].
  - intros x Hxa _ Hr. by apply alloc_frame.
  - right. split; [done|]. split; [apply ind_of_set, HF|]. intros bn' Hbn'. rewrite baddr_new_ind; [|apply HF|done|].
    + by apply baddr_same.
    + apply lookup_total_correct, alloc_new.
Qed.

Lemma wrote_entry bn off : NDIRECT <= bn < MAXFILE -> ind_of A <> 0 -> baddr V A bn = 0 ->
  wrote V A off [] (<[ind_of A := put_le 4 (V !!! ind_of A) (Z.to_nat (4 * (bn - NDIRECT))) a]> (alloc_block sb V a)) A.
Proof.
  intros Hbn Hn H0. pose proof (layout _ _ (fo_geo _ _ _ HV)) as Hlay. pose proof (fo_geo _ _ _ HV) as G.
  destruct (alloc_ind_data Hn) as [[Hr Hu] E].
  pose proof (alloc_ok LS sb G V a HV Ha) as HV1.
  destruct (fo_full _ _ _ HV (ind_of A)) as (d & Hd & Hlen & Hby); [lia|].
  assert (V !!! ind_of A = d) as Ed by by apply lookup_total_correct.
  assert (Hk : 0 <= bn - NDIRECT < 256) by (rewrite MAXFILE_val in Hbn; unfold NDIRECT in *; lia).
  apply (wrote_alloc V A _ _ a); try done.
  - apply fs_ok_data; [done|done|lia|]. rewrite Ed.
    split; [rewrite length_put_le; lia|apply put_bytes_is_byte; [done|apply le_bytes_is_byte]].
  - apply HF.
  - intros x Hx. rewrite (used_data LS) by (done || lia). by apply (alloc_used LS).
  - intros x Hxa Hxi Hrx. rewrite lookup_insert_ne; [by apply alloc_frame|]. intros <-. by apply Hxi.
  - left. split; [done|]. exists bn. split; [unfold NDIRECT in *; lia|]. split; [done|]. intros bn' Hbn'.
    rewrite <- E, baddr_entry; [|done|by rewrite E, Ed|done|done|lia].
    destruct (bn' =? bn); [done|]. by apply baddr_same.
Qed.

End Roles.

(** ** Bytes stored in a block of the file *)

Lemma lookup_put_bytes (d w : list Z) (o i : nat) : (o + length w <= length d)%nat ->
  put_bytes d o w !!! i = if bool_decide (o <= i < o + length w)%nat then w !!! (i - o)%nat else d !!! i.
Proof.
  intros Hl. case_bool_decide as Hi.
  - unfold put_bytes. rewrite lookup_total_app_r by (rewrite length_take; lia).
    rewrite lookup_total_app_l by (rewrite length_take; lia). f_equal. rewrite length_take. lia.
  - rewrite !list_lookup_total_alt, lookup_put_bytes_out by lia. done.
Qed.

Lemma wrote_put V A off w :
  fs_ok LS sb V -> file_ok V A -> 0 <= off -> Forall is_byte w -> (0 < length w)%nat ->
  off mod BSIZE + Z.of_nat (length w) <= BSIZE -> off + Z.of_nat (length w) <= MAXFILE * BSIZE ->
  let r := baddr V A (off / BSIZE) in r <> 0 ->
  wrote V A off w (<[r := put_bytes (V !!! r) (Z.to_nat (off mod BSIZE)) w]> V) A.
Proof.
  intros HV HF Hoff Hw Hlw Hfit Hmax r Hr. pose proof (layout _ _ (fo_geo _ _ _ HV)) as Hlay.
  assert (Hi : 0 <= off / BSIZE < MAXFILE) by (apply BSIZE_index; lia).
  pose proof (owned_baddr V A _ Hi Hr) as Hown. fold r in Hown.
  destruct (fi_data _ _ HF r Hown) as [Hrange Hru].
  destruct (fo_full _ _ _ HV r ltac:(lia)) as (d & Hd & Hlen & Hbytes).
  rewrite (lookup_total_correct _ _ _ Hd).
  set (d' := put_bytes d (Z.to_nat (off mod BSIZE)) w). set (V' := <[r := d']> V).
  assert (Hm : 0 <= off mod BSIZE < BSIZE) by (apply Z.mod_pos_bound; done).
  assert (Hd' : block_ok d').
  { split; [|by apply put_bytes_is_byte]. unfold d'. rewrite length_put_bytes; unfold BSIZE in *; lia. }
  assert (Hb : forall bn, baddr V' A bn = baddr V A bn).
  { intros bn. apply baddr_same. intros Hn. unfold V'. rewrite lookup_total_insert_ne; [done|].
    by apply (fi_ind _ _ HF). }
  assert (Hu : forall x, 0 <= x < sb_size sb -> used V' sb x = used V sb x).
  { intros x Hx. apply (used_data LS); [apply HV|lia|done]. }
  assert (Ho : forall x, owned V' A x <-> owned V A x).
  { intros x. unfold owned. setoid_rewrite Hb. done. }
  split.
  - apply fs_ok_data; [apply HV|done|lia|done].
  - split; [apply HF| | |].
    + intros x Hx%Ho. destruct (fi_data _ _ HF x Hx) as [? ?]. split; [done|]. by rewrite Hu by lia.
    + intros bn bn'. rewrite !Hb. apply (fi_inj _ _ HF).
    + intros bn. rewrite Hb. apply (fi_ind _ _ HF).
  - intros. apply Hb.
  - intros o Hio. rewrite Hb. replace (o / BSIZE) with (off / BSIZE); [done|]. unfold BSIZE in *. dlia.
  - intros o Hio. unfold fbyte. rewrite Hb. replace (o / BSIZE) with (off / BSIZE) by (unfold BSIZE in *; dlia).
    fold r. unfold V'. rewrite lookup_total_insert_eq. unfold d'.
    assert (o mod BSIZE = off mod BSIZE + (o - off)) as -> by (unfold BSIZE in *; dlia).
    rewrite lookup_put_bytes by (rewrite Hlen; unfold BSIZE in *; lia).
    rewrite bool_decide_eq_true_2 by lia. f_equal. lia.
  - intros o Hmo Hio Hn. unfold fbyte. rewrite Hb. destruct (decide (o / BSIZE = off / BSIZE)) as [E|E].
    + rewrite E. fold r. unfold V'. rewrite lookup_total_insert_eq, (lookup_total_correct _ _ _ Hd). unfold d'.
      rewrite lookup_put_bytes by (rewrite Hlen; unfold BSIZE in *; lia).
      rewrite bool_decide_eq_false_2; [done|]. unfold BSIZE in *. dlia.
    + unfold V'. rewrite lookup_total_insert_ne; [done|]. intros Er. destruct E. symmetry.
      apply (fi_inj _ _ HF); [done|by apply BSIZE_index|done|done].
  - intros x [Hx Hux] Hno. unfold V'. rewrite lookup_insert_ne; [done|]. by intros <-.
  - intros x Hx. unfold V'. rewrite lookup_insert_ne; [done|]. lia.
  - intros x Hx. by rewrite Hu.
  - intros x Hx%Ho. by left.
  - intros x Hx. by apply Ho.
  - intros x Hx. rewrite Hu by done. by left.
Qed.

End File.

(** ** The inode's copy of the addresses *)

Definition set_addrs (ip : nat) (A : list Z) (s : kstate) : kstate :=
  k_set_inodes (alter (i_set_addrs A) ip (k_inodes s)) s.

Lemma set_addrs_id ip s : set_addrs ip (i_addrs (k_inodes s !!! ip)) s = s.
Proof.
  unfold set_addrs. rewrite alter_const; [by destruct s|]. intros i Hi.
  rewrite (list_lookup_total_correct _ _ _ Hi). by destruct i.
Qed.

Lemma set_addrs_twice ip A A' s : set_addrs ip A' (set_addrs ip A s) = set_addrs ip A' s.
Proof. unfold set_addrs. cbn. by rewrite alter_alter. Qed.

Lemma addrs_set_addrs ip A s : (ip < length (k_inodes s))%nat ->
  k_inodes (set_addrs ip A s) !!! ip = i_set_addrs A (k_inodes s !!! ip).
Proof. intros. cbn. by rewrite lookup_total_alter. Qed.

Lemma upd_addrs_eq ip n a s : (ip < length (k_inodes s))%nat ->
  upd_inode ip (fun i => i_set_addrs (<[n := a]> (i_addrs i)) i) s =
    Ok tt (set_addrs ip (<[n := a]> (i_addrs (k_inodes s !!! ip))) s).
Proof.
  intros H. unfold upd_inode, set_addrs, modify. do 2 f_equal. apply alter_ext. intros i Hi.
  by rewrite (list_lookup_total_correct _ _ _ Hi).
Qed.

Lemma tx_step_inodes p s s' x : tx_step p s s' -> tx_step p (k_set_inodes x s) (k_set_inodes x s').
Proof. intros [E P L]. split; [|done|done]. rewrite E at 1. by destruct s. Qed.

Lemma rd_step_inodes p s s' x : rd_step p s s' -> rd_step p (k_set_inodes x s) (k_set_inodes x s').
Proof. intros [T Hl]. split; [by apply tx_step_inodes|done]. Qed.

Lemma set_addrs_step p ip A s s' : tx_step p s s' -> tx_step p (set_addrs ip A s) (set_addrs ip A s').
Proof. intros T. unfold set_addrs. rewrite (ts_inodes _ _ _ T). by apply tx_step_inodes. Qed.

Section Bmap.
Context `{D : BlockDev}.
Context (p : nat) (LS : Z) (sb : superblock).

Lemma tx_inodes s bl H V x : tx p LS s bl H V -> tx p LS (k_set_inodes x s) bl H V.
Proof.
  intros [(R & C & Hu) ? ? ? ? ? ? ? ?]. split; try done. exists R. split; [|done].
  destruct C as [[]]. by split.
Qed.

(** The state in which fs.c works on the inode [ip]: its addresses are [A], and
    the transaction has logged at most [n] blocks. *)
Record at_file (s : kstate) (ip : nat) (bl : list Z) (V : gmap Z (list Z)) (A : list Z) : Prop := {
  af_tx : tx p LS s bl ∅ V;
  af_sb : k_sb s = sb;
  af_ip : (ip < length (k_inodes s))%nat;
  af_dev : i_dev (k_inodes s !!! ip) = ROOTDEV;
  af_addrs : i_addrs (k_inodes s !!! ip) = A
}.

Lemma at_file_step s s' ip bl V A bl' V' A' :
  at_file s ip bl V A -> tx_step p (set_addrs ip A' s) s' -> tx p LS s' bl' ∅ V' -> at_file s' ip bl' V' A'.
Proof.
  intros [? ? Hip ? ?] S T. assert (Hi : k_inodes s' !!! ip = i_set_addrs A' (k_inodes s !!! ip)).
  { rewrite (ts_inodes _ _ _ S). by apply addrs_set_addrs. }
  split; [done| | | |]; rewrite ?Hi; try done.
  - by rewrite (ts_sb _ _ _ S).
  - rewrite (ts_inodes _ _ _ S). cbn. by rewrite length_alter.
Qed.

(** Blocks a step may have added to the transaction. *)
Definition touched (bl bl' : list Z) (T : list Z) : Prop := forall x, x ∈ bl' -> x ∈ bl \/ (0 < x /\ x ∈ T).

Lemma touched_refl bl T : touched bl bl T.
Proof. intros x Hx. by left. Qed.

Lemma touched_trans bl bl1 bl2 T T' : touched bl bl1 T -> touched bl1 bl2 T' ->
  (forall x, 0 < x -> x ∈ T -> x ∈ T') -> touched bl bl2 T'.
Proof.
  intros H1 H2 Hs x Hx. destruct (H2 x Hx) as [Hx1|?]; [|by right].
  destruct (H1 x Hx1) as [?|[? ?]]; [by left|]. right. auto.
Qed.

Lemma touched_length bl bl' T l : log_ok l LS bl' -> touched bl bl' T -> (length bl' <= length bl + length T)%nat.
Proof.
  intros Hl Ht. rewrite <- length_app. apply submseteq_length, NoDup_submseteq; [apply Hl|].
  intros x Hx. apply elem_of_app. destruct (Ht x Hx) as [?|[_ ?]]; auto.
Qed.

Lemma held_none V : held_ok sb V ∅.
Proof. intros x ?%elem_of_empty. done. Qed.

(** The free map is a single block. *)
Lemma BBLOCK_one b : geometry LS sb -> sb_size sb <= BPB -> 0 <= b < sb_size sb -> BBLOCK b sb = sb_bmapstart sb.
Proof. intros. rewrite (BBLOCK_eq LS) by done. rewrite Z.div_small by lia. lia. Qed.

Lemma lookup_of_ok V x : fs_ok LS sb V -> sb_data sb <= x < sb_size sb -> V !! x = Some (V !!! x) /\ block_ok (V !!! x).
Proof.
  intros HV Hx. pose proof (layout _ _ (fo_geo _ _ _ HV)). destruct (fo_full _ _ _ HV x) as (d & Hd & Hok); [lia|].
  by rewrite (lookup_total_correct _ _ _ Hd).
Qed.

(** What bmap() does: it returns the address of block [bn], allocating what is
    missing, or 0 when the disk is full. *)
Record mapped (s : kstate) (ip : nat) (bl : list Z) (V : gmap Z (list Z)) (A : list Z) (bn r : Z)
  (s' : kstate) (bl' : list Z) (V' : gmap Z (list Z)) (A' : list Z) : Prop := {
  mp_step : tx_step p (set_addrs ip A' s) s';
  mp_tx : tx p LS s' bl' ∅ V';
  mp_wrote : wrote LS sb V A 0 [] V' A';
  mp_addr : baddr V' A' bn = r;
  mp_ind : ind_of A <> 0 -> ind_of A' = ind_of A;
  mp_full : r = 0 -> forall x, 0 <= x < sb_size sb -> used V' sb x = true;
  mp_touched : touched bl bl' [sb_bmapstart sb; ind_of A'; r]
}.

Lemma mapped_none s s' ip bl V A bn :
  at_file s ip bl V A -> fs_ok LS sb V -> file_ok sb V A -> tx_step p s s' -> tx p LS s' bl ∅ V ->
  (baddr V A bn = 0 -> forall x, 0 <= x < sb_size sb -> used V sb x = true) ->
  mapped s ip bl V A bn (baddr V A bn) s' bl V A.
Proof.
  intros Hat HV HF S T Hfull. split; try done.
  - rewrite <- (af_addrs _ _ _ _ _ Hat). by rewrite set_addrs_id.
  - by apply wrote_refl.
  - apply touched_refl.
Qed.

Lemma touched_alloc bl V r T : fs_ok LS sb V -> sb_size sb <= BPB -> sb_data sb <= r < sb_size sb ->
  sb_bmapstart sb ∈ T -> r ∈ T -> touched bl (logged (logged bl (BBLOCK r sb)) r) T.
Proof.
  intros HV Hone Hr Hm HT x. pose proof (layout _ _ (fo_geo _ _ _ HV)).
  rewrite !logged_in, (BBLOCK_one r) by (apply HV || lia).
  intros [[?| ->]| ->]; [by left|right; split; [lia|done]..].
Qed.

Lemma bmap_direct s ip bl V A bn :
  at_file s ip bl V A -> fs_ok LS sb V -> file_ok sb V A -> sb_size sb <= BPB -> (length bl < 28)%nat ->
  0 <= bn < NDIRECT -> exists r s' bl' V' A', bmap ip bn s = Ok r s' /\ mapped s ip bl V A bn r s' bl' V' A'.
Proof.
  intros Hat HV HF Hone Hroom Hbn. pose proof Hat as [T Esb Hip Hdev HA].
  assert (Eb : baddr V A bn = A !!! Z.to_nat bn) by (unfold baddr; by rewrite (proj2 (Z.ltb_lt _ _)) by lia).
  unfold bmap, inode_at. mred. rewrite (proj2 (Z.ltb_lt bn NDIRECT)), HA, Hdev, <- Eb by lia.
  destruct (Z.eqb_spec (baddr V A bn) 0) as [E0|E0].
  2: { exists (baddr V A bn), s, bl, V, A. split; [done|]. by apply mapped_none. }
  destruct (balloc_spec p LS sb s bl ∅ V T HV Esb (held_none V)) as (r & s1 & E1 & S1 & [(-> & Hfull & T1)|(Hr & Hu & T1)] & _);
    [rewrite size_empty; lia| |]; mrun E1.
  { exists 0, s1, bl, V, A. split; [done|]. rewrite <- E0. by apply mapped_none. }
  pose proof (layout _ _ (fo_geo _ _ _ HV)). rewrite (proj2 (Z.eqb_neq r 0)) by lia.
  mrun (upd_addrs_eq ip (Z.to_nat bn) r s1 ltac:(by rewrite (ts_inodes _ _ _ S1))).
  rewrite (ts_inodes _ _ _ S1), HA. set (A' := <[Z.to_nat bn := r]> A).
  exists r, (set_addrs ip A' s1), (logged (logged bl (BBLOCK r sb)) r), (alloc_block sb V r), A'. split; [done|]. split.
  - by apply set_addrs_step.
  - by apply tx_inodes.
  - by apply wrote_direct.
  - unfold A'. by rewrite baddr_direct, Z.eqb_refl by (apply HF || lia).
  - intros _. unfold A'. by apply ind_of_direct.
  - lia.
  - apply (touched_alloc _ V); try done; set_solver.
Qed.

(** The indirect block, allocated when the file has none. *)
Lemma bmap_ind s ip bl V A bn :
  at_file s ip bl V A -> fs_ok LS sb V -> file_ok sb V A -> sb_size sb <= BPB -> (length bl < 28)%nat ->
  NDIRECT <= bn < MAXFILE -> exists r s' bl' V' A',
  (if ind_of A =? 0 then
     addr <- balloc ROOTDEV;;
     (when negb (addr =? 0) do upd_inode ip (fun i => i_set_addrs (<[Z.to_nat NDIRECT := addr]> (i_addrs i)) i));;
     ret addr
   else ret (ind_of A)) s = Ok r s' /\
  tx_step p (set_addrs ip A' s) s' /\ tx p LS s' bl' ∅ V' /\ wrote LS sb V A 0 [] V' A' /\
  r = ind_of A' /\ (ind_of A <> 0 -> ind_of A' = ind_of A) /\ baddr V' A' bn = baddr V A bn /\
  (r = 0 -> baddr V' A' bn = 0 /\ forall x, 0 <= x < sb_size sb -> used V' sb x = true) /\
  touched bl bl' [sb_bmapstart sb; ind_of A'].
Proof.
  intros Hat HV HF Hone Hroom Hbn. pose proof Hat as [T Esb Hip Hdev HA].
  assert (Hid : set_addrs ip A s = s) by (rewrite <- HA; apply set_addrs_id).
  assert (Hb0 : ind_of A = 0 -> baddr V A bn = 0).
  { intros E. unfold baddr. by rewrite (proj2 (Z.ltb_ge _ _)), E by lia. }
  destruct (Z.eqb_spec (ind_of A) 0) as [E0|E0].
  2: { exists (ind_of A), s, bl, V, A. rewrite Hid. split_and!; try done; [by apply wrote_refl|apply touched_refl]. }
  destruct (balloc_spec p LS sb s bl ∅ V T HV Esb (held_none V)) as (r & s1 & E1 & S1 & [(-> & Hfull & T1)|(Hr & Hu & T1)] & _);
    [rewrite size_empty; lia| |]; mrun E1.
  { exists 0, s1, bl, V, A. rewrite Hid. split_and!; try done; [by apply wrote_refl|by auto|apply touched_refl]. }
  pose proof (layout _ _ (fo_geo _ _ _ HV)). rewrite (proj2 (Z.eqb_neq r 0)) by lia. cbn [negb].
  mrun (upd_addrs_eq ip (Z.to_nat NDIRECT) r s1 ltac:(by rewrite (ts_inodes _ _ _ S1))).
  rewrite (ts_inodes _ _ _ S1), HA. set (A' := <[Z.to_nat NDIRECT := r]> A).
  assert (Ei : ind_of A' = r) by apply ind_of_set, HF.
  exists r, (set_addrs ip A' s1), (logged (logged bl (BBLOCK r sb)) r), (alloc_block sb V r), A'.
  split_and!; [done|by apply set_addrs_step|by apply tx_inodes|by apply wrote_new_ind|done|done| |lia|].
  - unfold A'. rewrite baddr_new_ind; [|apply HF|done|apply lookup_total_correct, alloc_new].
    by apply baddr_same.
  - apply (touched_alloc _ V); try done; rewrite ?Ei; set_solver.
Qed.

(** The entry of the indirect block, filled in when it is 0. *)
Lemma bmap_entry s ip bl V A bn :
  at_file s ip bl V A -> fs_ok LS sb V -> file_ok sb V A -> sb_size sb <= BPB -> (length bl < 26)%nat ->
  NDIRECT <= bn < MAXFILE -> ind_of A <> 0 -> exists r s' bl' V',
  (bp <- bread ROOTDEV (ind_of A);;
   bf <- buf_at bp;;
   addr <- (let addr := ind_get (b_data bf) (bn - NDIRECT) in
            if addr =? 0 then
              addr <- balloc ROOTDEV;;
              (when negb (addr =? 0) do
                 (upd_buf bp (fun bf => b_set_data (put_le 4 (b_data bf) (Z.to_nat (4 * (bn - NDIRECT))) addr) bf);;
                  log_write bp));;
              ret addr
            else ret addr);;
   brelse bp;;
   ret addr) s = Ok r s' /\ mapped s ip bl V A bn r s' bl' V' A.
Proof.
  intros Hat HV HF Hone Hroom Hbn Hn. pose proof Hat as [T Esb Hip Hdev HA].
  pose proof (layout _ _ (fo_geo _ _ _ HV)) as Hlay. set (ind := ind_of A) in *.
  destruct (fi_data _ _ _ HF ind) as [Hr Hu]; [split; [done|by left]|].
  destruct (lookup_of_ok V ind HV Hr) as [Hd Hok].
  assert (Eb : baddr V A bn = ind_get (V !!! ind) (bn - NDIRECT)).
  { unfold baddr. fold ind. by rewrite (proj2 (Z.ltb_ge _ _)), (proj2 (Z.eqb_neq ind 0)) by (done || lia). }
  destruct (tx_bread p LS s bl ∅ V ind _ T ltac:(set_solver) Hd) as (bp & s1 & E1 & S1 & Hb1 & Ed1 & T1 & _);
    [rewrite size_empty; unfold NBUF; lia|].
  mrun E1. unfold buf_at. mred. rewrite Ed1, <- Eb. rewrite union_empty_r_L in T1.
  assert (Hout : ({[ind]} : gset Z) ∖ {[ind]} = ∅) by set_solver.
  assert (Hdone : forall s2, tx_step p s s2 -> tx p LS s2 bl {[ind]} V -> buf_of s2 bp ind ->
    (baddr V A bn = 0 -> forall x, 0 <= x < sb_size sb -> used V sb x = true) ->
    exists r s' bl' V', (brelse bp;; ret (baddr V A bn)) s2 = Ok r s' /\ mapped s ip bl V A bn r s' bl' V' A).
  { intros s2 S2 T2 Hb2 Hfull. destruct (tx_brelse p LS s2 _ _ _ bp ind T2) as (s3 & E3 & S3 & T3 & _); [set_solver|done|].
    mrun E3. rewrite Hout in T3. exists (baddr V A bn), s3, bl, V. split; [done|]. apply mapped_none; try done. by etrans. }
  destruct (Z.eqb_spec (baddr V A bn) 0) as [E0|E0]; mred; [|by apply Hdone].
  destruct (balloc_spec p LS sb s1 bl {[ind]} V T1 HV) as (r & s2 & E2 & S2 & Hres & K2).
  { by rewrite (ts_sb _ _ _ S1). } { intros x ->%elem_of_singleton. done. } { rewrite size_singleton. lia. }
  mrun E2. apply K2 in Hb1; [|set_solver]. destruct Hres as [(-> & Hfull & T2)|(Hr2 & Hu2 & T2)].
  { change (negb (0 =? 0)) with false. cbv iota. mred. rewrite <- E0. apply Hdone; try done; by etrans. }
  rewrite (proj2 (Z.eqb_neq r 0)) by lia. cbn [negb].
  assert (Hk : (Z.to_nat (4 * (bn - NDIRECT)) + 4 <= 1024)%nat) by (rewrite MAXFILE_val in Hbn; unfold NDIRECT in *; lia).
  destruct (alloc_ind_data LS sb V A HV HF r Hr2 Hu2 Hn) as [_ Ea]. fold ind in Ea.
  pose proof (tx_buf_total _ _ _ _ _ _ _ _ T2 Hb1) as Ed2. rewrite Ea in Ed2.
  set (g := fun bf => put_le 4 (b_data bf) (Z.to_nat (4 * (bn - NDIRECT))) r).
  assert (Eg : g (BioSpec.bf s2 bp) = put_le 4 (V !!! ind) (Z.to_nat (4 * (bn - NDIRECT))) r) by (unfold g; by rewrite Ed2).
  destruct (tx_log_write p LS s2 _ _ _ bp ind g T2) as (s3 & s4 & E3 & E4 & S4 & T4 & K4);
    [set_solver|done|by apply (data_home LS sb); [apply HV|]| | |].
  { rewrite Eg. destruct Hok. split; [by rewrite length_put_le by lia|].
    apply put_bytes_is_byte; [done|apply le_bytes_is_byte]. }
  { pose proof (length_logged (logged bl (BBLOCK r sb)) r). pose proof (length_logged bl (BBLOCK r sb)). lia. }
  rewrite Eg in T4. mrun (eq_trans (bind_ok _ (fun _ => log_write bp) _ _ _ E3) E4).
  destruct (tx_brelse p LS s4 _ _ _ bp ind T4) as (s5 & E5 & S5 & T5 & _); [set_solver|by apply K4|].
  mrun E5. rewrite Hout in T5. eexists r, s5, _, _. split; [done|]. split; [|exact T5| | | | |].
  - rewrite <- HA, set_addrs_id. by repeat (etrans; [eassumption|]).
  - by apply wrote_entry.
  - rewrite <- Ea. unfold ind. rewrite baddr_entry, Z.eqb_refl; [done|done| |done| |lia].
    + fold ind. rewrite Ea. apply Hok.
    + unfold NDIRECT in *. lia.
  - done.
  - lia.
  - eapply (touched_trans _ _ _ [sb_bmapstart sb; r]); [apply (touched_alloc _ V); try done; set_solver| |set_solver].
    intros x. rewrite logged_in. intros [?| ->]; [by left|]. right. split; [lia|]. fold ind. set_solver.
Qed.

Lemma wrote_nil_trans V A V1 A1 V2 A2 : geometry LS sb ->
  wrote LS sb V A 0 [] V1 A1 -> wrote LS sb V1 A1 0 [] V2 A2 -> wrote LS sb V A 0 [] V2 A2.
Proof. intros G W1 W2. by apply (wrote_trans LS sb V A 0 [] [] V1 A1 V2 A2). Qed.

Lemma bmap_spec s ip bl V A bn :
  at_file s ip bl V A -> fs_ok LS sb V -> file_ok sb V A -> sb_size sb <= BPB -> (length bl < 24)%nat ->
  0 <= bn < MAXFILE -> exists r s' bl' V' A', bmap ip bn s = Ok r s' /\ mapped s ip bl V A bn r s' bl' V' A'.
Proof.
  intros Hat HV HF Hone Hroom Hbn. destruct (decide (bn < NDIRECT)) as [Hd|Hd]; [apply bmap_direct; try done; lia|].
  pose proof Hat as [T Esb Hip Hdev HA]. unfold bmap, inode_at. mred.
  rewrite (proj2 (Z.ltb_ge bn NDIRECT)), HA, Hdev by lia. cbv zeta.
  rewrite (proj2 (Z.ltb_lt (bn - NDIRECT) NINDIRECT)) by (rewrite MAXFILE_val in Hbn; change NINDIRECT with 256; unfold NDIRECT in *; lia).
  change (A !!! Z.to_nat NDIRECT) with (ind_of A).
  destruct (bmap_ind s ip bl V A bn) as (i & s1 & bl1 & V1 & A1 & E1 & S1 & T1 & W1 & Ei & Hk & Eb & H0 & Ht1); [done..|lia|lia|].
  mrun E1. destruct (Z.eqb_spec i 0) as [Hi|Hi].
  { destruct (H0 Hi) as [Eb0 Hfull]. exists 0, s1, bl1, V1, A1. split; [done|]. split; try done.
    apply (touched_trans _ _ _ _ _ Ht1 (touched_refl _ _)). set_solver. }
  pose proof (touched_length _ _ _ _ (tx_log _ _ _ _ _ _ T1) Ht1) as Hl1. cbn in Hl1.
  pose proof (at_file_step _ _ _ _ _ _ _ _ _ Hat S1 T1) as Hat1. rewrite Ei in *.
  destruct (bmap_entry s1 ip bl1 V1 A1 bn) as (r & s2 & bl2 & V2 & E2 & [S2 T2 W2 Er _ Hfull Ht2]);
    [done|apply W1|apply W1|done|lia|lia|done|].
  exists r, s2, bl2, V2, A1. split; [exact E2|]. split; try done.
  - etrans; [exact S1|]. rewrite <- (af_addrs _ _ _ _ _ Hat1) in S2 at 1. by rewrite set_addrs_id in S2.
  - apply (wrote_nil_trans _ _ V1 A1); [apply HV|done|done].
  - apply (touched_trans _ _ _ _ _ Ht1 Ht2). set_solver.
Qed.

End Bmap.
