(* ===== verification/FsInode.v ===== *)
(** Inodes on disk: what iupdate() writes is what ilock() reads back. *)

From S2P Require Import Prelude Riscv State Spinlock Kalloc Vm Sched Sleeplock Printf PrintfSpec Bio BioSpec Log LogSpec FsTx Fs FsBlock FsFile.

(** The fields of an inode within their C types. *)
Record inode_typed (i : inode) : Prop := {
  it_type : - 2 ^ 15 <= i_type i < 2 ^ 15;
  it_major : - 2 ^ 15 <= i_major i < 2 ^ 15;
  it_minor : - 2 ^ 15 <= i_minor i < 2 ^ 15;
  it_nlink : - 2 ^ 15 <= i_nlink i < 2 ^ 15;
  it_size : 0 <= i_size i < 2 ^ 32;
  it_len : length (i_addrs i) = 13%nat;
  it_addrs : Forall (fun a => 0 <= a < 2 ^ 32) (i_addrs i)
}.

(** The inode [inum] as the blocks [V] record it. *)
Definition dinode (V : gmap Z (list Z)) (sb : superblock) (inum : Z) (i : inode) : inode :=
  load_dinode (V !!! IBLOCK inum sb) (dinode_off inum) i.

(** ** Structures in a block *)

Lemma mjoin_cons (x : Z) l : mjoin (le_bytes 4 <$> x :: l) = le_bytes 4 x ++ mjoin (le_bytes 4 <$> l).
Proof. done. Qed.

Lemma length_mjoin_le (l : list Z) : length (mjoin (le_bytes 4 <$> l)) = (4 * length l)%nat.
Proof. induction l as [|x l IH]; [done|]. rewrite mjoin_cons, length_app, length_le_bytes, IH. cbn. lia. Qed.

Lemma get_put_bytes_in b off l off' n :
  (off + length l <= length b)%nat -> (off <= off')%nat -> (off' + n <= off + length l)%nat ->
  get_bytes (put_bytes b off l) off' n = get_bytes l (off' - off) n.
Proof.
  intros Hl H1 H2. unfold get_bytes, put_bytes.
  rewrite drop_app_ge by (rewrite length_take; lia). rewrite length_take, Nat.min_l by lia.
  rewrite drop_app_le by lia. by rewrite take_app_le by (rewrite length_drop; lia).
Qed.

Lemma get_mjoin_le (l : list Z) (i : nat) : (i < length l)%nat -> Forall (fun a => 0 <= a < 2 ^ 32) l ->
  get_le 4 (mjoin (le_bytes 4 <$> l)) (4 * i) = l !!! i.
Proof.
  revert i. induction l as [|x l IH]; intros i Hi Hl; [cbn in Hi; lia|]. apply Forall_cons in Hl as [Hx Hl].
  rewrite get_le_bytes, mjoin_cons. destruct i as [|i].
  - unfold get_bytes. rewrite drop_0, take_app_length' by (by rewrite length_le_bytes).
    rewrite le_value_bytes. by apply Z.mod_small.
  - cbn in Hi. change ((x :: l) !!! S i) with (l !!! i). rewrite <- (IH i) by (done || lia). rewrite get_le_bytes. f_equal. unfold get_bytes. f_equal.
    rewrite drop_app_ge by (rewrite length_le_bytes; lia). rewrite length_le_bytes. f_equal. lia.
Qed.

Lemma s16_wrap z : - 2 ^ 15 <= z < 2 ^ 15 -> s16 (z mod 256 ^ Z.of_nat 2) = z.
Proof. unfold s16. change (256 ^ Z.of_nat 2) with (2 ^ 16). intros. dlia. Qed.

Lemma dinode_off_room inum : (dinode_off inum + 64 <= 1024)%nat.
Proof. unfold dinode_off, IPB, BSIZE, DINODE_SIZE. change (1024 / 64) with 16. dlia. Qed.

Lemma block_put_le k d off v : length d = 1024%nat -> (off + k <= 1024)%nat -> length (put_le k d off v) = 1024%nat.
Proof. intros. rewrite length_put_le; lia. Qed.

Lemma put_le_lookup k d off v j : length d = 1024%nat -> (off + k <= 1024)%nat -> (j < off \/ off + k <= j)%nat ->
  put_le k d off v !! j = d !! j.
Proof. intros. apply lookup_put_bytes_out; rewrite length_le_bytes; lia. Qed.

Section Dinode.
Context (d : list Z) (o : nat) (i : inode) (Hd : length d = 1024%nat) (Ho : (o + 64 <= 1024)%nat) (Hi : inode_typed i).

(** The fields before the addresses. *)
Definition put_fields : list Z :=
  put_le 4 (put_le 2 (put_le 2 (put_le 2 (put_le 2 d o (i_type i)) (o + 2) (i_major i)) (o + 4) (i_minor i))
    (o + 6) (i_nlink i)) (o + 8) (i_size i).

Ltac lens := repeat (apply block_put_le; [|lia]); exact Hd.

Lemma length_put_fields : length put_fields = 1024%nat.
Proof. unfold put_fields. lens. Qed.

Lemma length_addrs : length (mjoin (le_bytes 4 <$> i_addrs i)) = 52%nat.
Proof. by rewrite length_mjoin_le, (it_len _ Hi). Qed.

Lemma length_put_dinode : length (put_dinode d o i) = 1024%nat.
Proof.
  change (put_dinode d o i) with (put_addrs put_fields o (i_addrs i)). unfold put_addrs.
  rewrite length_put_bytes; rewrite length_put_fields, ?length_addrs; lia.
Qed.

Ltac room := match goal with |- (_ <= length ?b)%nat => replace (length b) with 1024%nat by (symmetry; lens); lia end.

Lemma put_fields_get :
  s16 (get_le 2 put_fields o) = i_type i /\ s16 (get_le 2 put_fields (o + 2)) = i_major i /\
  s16 (get_le 2 put_fields (o + 4)) = i_minor i /\ s16 (get_le 2 put_fields (o + 6)) = i_nlink i /\
  get_le 4 put_fields (o + 8) = i_size i.
Proof.
  unfold put_fields. destruct Hi. split_and!;
    repeat (rewrite get_put_le_out; [|room|lia]); rewrite get_put_le_same by room; try by apply s16_wrap.
  by apply Z.mod_small.
Qed.

(** The bytes of other inodes stay. *)
Lemma put_dinode_out k : (k < o \/ o + 64 <= k)%nat -> put_dinode d o i !! k = d !! k.
Proof.
  intros Hk. change (put_dinode d o i) with (put_addrs put_fields o (i_addrs i)). unfold put_addrs.
  rewrite lookup_put_bytes_out by (rewrite ?length_put_fields, length_addrs; lia).
  unfold put_fields. rewrite !put_le_lookup; [done|..]; lens || lia.
Qed.

Lemma put_dinode_bytes : Forall is_byte d -> Forall is_byte (put_dinode d o i).
Proof.
  intros Hb. unfold put_dinode, put_addrs, put_le.
  apply put_bytes_is_byte; [by repeat (apply put_bytes_is_byte; [|apply le_bytes_is_byte])|].
  induction (i_addrs i) as [|x l IH]; [constructor|]. rewrite mjoin_cons.
  apply Forall_app. split; [apply le_bytes_is_byte|exact IH].
Qed.

(** What ilock() reads is what iupdate() wrote. *)
Lemma load_put_dinode j : load_dinode (put_dinode d o i) o j =
  i_set_addrs (i_addrs i) (i_set_size (i_size i) (i_set_nlink (i_nlink i)
    (i_set_minor (i_minor i) (i_set_major (i_major i) (i_set_type (i_type i) j))))).
Proof.
  change (put_dinode d o i) with (put_addrs put_fields o (i_addrs i)).
  pose proof length_put_fields as Hf. pose proof length_addrs as Ha. destruct Hi.
  assert (Hout : forall k off, (off + k <= o + 12)%nat -> get_le k (put_addrs put_fields o (i_addrs i)) off = get_le k put_fields off).
  { intros k off Hoff. rewrite !get_le_bytes. unfold put_addrs. rewrite get_put_bytes_out; [done|lia|lia]. }
  unfold load_dinode, dip_type, dip_major, dip_minor, dip_nlink, dip_size. rewrite !Hout by lia.
  assert (Ex : dip_addrs (put_addrs put_fields o (i_addrs i)) o = i_addrs i).
  { apply list_eq_same_length with 13%nat; [done|done|]. intros k x y Hk. unfold dip_addrs.
    rewrite list_lookup_fmap, lookup_seq_lt by done. intros [= <-] Hy. rewrite get_le_bytes. unfold put_addrs.
    rewrite get_put_bytes_in by lia. replace (_ - (o + 12))%nat with (4 * k)%nat by lia.
    rewrite <- get_le_bytes, get_mjoin_le by (done || lia). by apply list_lookup_total_correct. }
  destruct put_fields_get as (-> & -> & -> & -> & ->). by rewrite Ex.
Qed.

End Dinode.

(** ** Inode blocks *)

Section Blocks.
Context (LS : Z) (sb : superblock) (G : geometry LS sb).

Lemma IBLOCK_range inum : 0 <= inum < sb_ninodes sb ->
  sb_inodestart sb <= IBLOCK inum sb < sb_bmapstart sb /\ home LS (IBLOCK inum sb) /\
  IBLOCK inum sb = inum / IPB + sb_inodestart sb.
Proof.
  intros Hi. pose proof (layout _ _ G) as Hlay. pose proof (Z.div_pos inum IPB ltac:(lia) ltac:(done)).
  pose proof (Z.div_le_mono inum (sb_ninodes sb) IPB ltac:(done) ltac:(lia)). pose proof (ge_bmap _ _ G).
  assert (IBLOCK inum sb = inum / IPB + sb_inodestart sb) as E by (apply u32_small; lia).
  rewrite E. unfold home. lia.
Qed.

(** Two inodes have different places. *)
Lemma inode_places i j : 0 <= i < sb_ninodes sb -> 0 <= j < sb_ninodes sb -> i <> j -> IBLOCK i sb = IBLOCK j sb ->
  (dinode_off i + 64 <= dinode_off j \/ dinode_off j + 64 <= dinode_off i)%nat.
Proof.
  intros Hi Hj Hne. destruct (IBLOCK_range i Hi) as (_ & _ & ->). destruct (IBLOCK_range j Hj) as (_ & _ & ->).
  unfold dinode_off, IPB, BSIZE, DINODE_SIZE. change (1024 / 64) with 16. intros. dlia.
Qed.

(** A block before the free map does not matter to it. *)
Lemma used_low V a d x : a < sb_bmapstart sb -> 0 <= x < sb_size sb -> used (<[a := d]> V) sb x = used V sb x.
Proof.
  intros Ha Hx. unfold used. rewrite lookup_total_insert_ne; [done|].
  pose proof (BBLOCK_range LS sb G x Hx). lia.
Qed.

Lemma fs_ok_low V a d : fs_ok LS sb V -> a < sb_bmapstart sb -> block_ok d -> fs_ok LS sb (<[a := d]> V).
Proof.
  intros HV Ha Hd. pose proof (layout _ _ G). split; [done| |].
  - intros b Hb. destruct (decide (a = b)) as [->|]; [rewrite lookup_insert_eq; eauto|].
    rewrite lookup_insert_ne by done. by apply HV.
  - intros b Hb. rewrite used_low by lia. by apply HV.
Qed.

(** The blocks after inode [inum] was written. *)
Definition put_inode (V : gmap Z (list Z)) (inum : Z) (i : inode) : gmap Z (list Z) :=
  <[IBLOCK inum sb := put_dinode (V !!! IBLOCK inum sb) (dinode_off inum) i]> V.

Lemma inode_block V inum : fs_ok LS sb V -> 0 <= inum < sb_ninodes sb ->
  V !! IBLOCK inum sb = Some (V !!! IBLOCK inum sb) /\ block_ok (V !!! IBLOCK inum sb).
Proof.
  intros HV Hi. pose proof (layout _ _ G). destruct (IBLOCK_range inum Hi) as (Hr & _ & _).
  destruct (fo_full _ _ _ HV (IBLOCK inum sb)) as (d & Hd & Hok); [lia|]. by rewrite (lookup_total_correct _ _ _ Hd).
Qed.

Lemma put_inode_ok V inum i : fs_ok LS sb V -> 0 <= inum < sb_ninodes sb -> inode_typed i ->
  block_ok (put_dinode (V !!! IBLOCK inum sb) (dinode_off inum) i) /\ fs_ok LS sb (put_inode V inum i).
Proof.
  intros HV Hn Hi. destruct (inode_block V inum HV Hn) as [_ [Hl Hb]].
  assert (block_ok (put_dinode (V !!! IBLOCK inum sb) (dinode_off inum) i)) as Hok.
  { split; [apply length_put_dinode; [done|apply dinode_off_room|done]|by apply put_dinode_bytes]. }
  split; [done|]. apply fs_ok_low; [done| |done]. apply IBLOCK_range. done.
Qed.

Lemma dinode_put V inum i j : fs_ok LS sb V -> 0 <= inum < sb_ninodes sb -> inode_typed i ->
  dinode (put_inode V inum i) sb inum j =
  i_set_addrs (i_addrs i) (i_set_size (i_size i) (i_set_nlink (i_nlink i)
    (i_set_minor (i_minor i) (i_set_major (i_major i) (i_set_type (i_type i) j))))).
Proof.
  intros HV Hn Hi. destruct (inode_block V inum HV Hn) as [_ [Hl Hb]].
  unfold dinode, put_inode. rewrite lookup_total_insert_eq. apply load_put_dinode; [done|apply dinode_off_room|done].
Qed.

(** The other inodes keep theirs. *)
Lemma load_dinode_ext d d' o j : (forall k, (o <= k < o + 64)%nat -> d !! k = d' !! k) ->
  load_dinode d o j = load_dinode d' o j.
Proof.
  intros H. assert (Hg : forall n k, (o <= k)%nat -> (k + n <= o + 64)%nat -> get_le n d k = get_le n d' k).
  { intros n k Hk Hn. rewrite !get_le_bytes. f_equal. unfold get_bytes. apply list_eq. intros x.
    destruct (decide (x < n)%nat); [|by rewrite !lookup_take_ge by lia].
    rewrite !lookup_take_lt, !lookup_drop by lia. apply H. lia. }
  unfold load_dinode, dip_type, dip_major, dip_minor, dip_nlink, dip_size. rewrite !Hg by lia. f_equal.
  unfold dip_addrs. apply list_fmap_ext. intros k x Hx%lookup_seq. apply Hg; lia.
Qed.

Lemma dinode_other V inum i inum' j : fs_ok LS sb V -> 0 <= inum < sb_ninodes sb -> 0 <= inum' < sb_ninodes sb ->
  inode_typed i -> inum' <> inum -> dinode (put_inode V inum i) sb inum' j = dinode V sb inum' j.
Proof.
  intros HV Hn Hn' Hi Hne. destruct (inode_block V inum HV Hn) as [_ [Hl Hb]]. unfold dinode, put_inode.
  destruct (decide (IBLOCK inum' sb = IBLOCK inum sb)) as [E|E]; [|by rewrite lookup_total_insert_ne].
  rewrite E, lookup_total_insert_eq. apply load_dinode_ext. intros k Hk.
  apply put_dinode_out; [done|apply dinode_off_room|done|].
  destruct (inode_places inum' inum Hn' Hn Hne E); lia.
Qed.

End Blocks.

(** ** iupdate() and ilock() *)

Section Ops.
Context `{D : BlockDev}.
Context (p : nat) (LS : Z) (sb : superblock).

Lemma iupdate_spec s ip bl V A :
  at_file p LS sb s ip bl V A -> fs_ok LS sb V -> (length bl < 29)%nat ->
  let i := k_inodes s !!! ip in inode_typed i -> 0 <= i_inum i < sb_ninodes sb ->
  exists s', iupdate ip s = Ok tt s' /\ tx_step p s s' /\
    tx p LS s' (logged bl (IBLOCK (i_inum i) sb)) ∅ (put_inode sb V (i_inum i) i).
Proof.
  intros Hat HV Hroom i Hi Hn. pose proof Hat as [T Esb Hip Hdev HA]. pose proof (fo_geo _ _ _ HV) as G.
  pose proof (layout _ _ G) as Hlay. destruct (IBLOCK_range LS sb G _ Hn) as (Hr & Hh & _).
  destruct (inode_block LS sb G V _ HV Hn) as [Hd Hok]. destruct (put_inode_ok LS sb G V _ i HV Hn Hi) as [Hok' _].
  unfold iupdate, inode_at. change (gets k_sb) with (gets (fun s => k_sb s)). mred.
  rewrite Esb, Hdev. fold i. unfold put_inode. set (ib := IBLOCK (i_inum i) sb) in *.
  destruct (tx_bread p LS s bl ∅ V ib _ T ltac:(set_solver) Hd) as (bp & s1 & E1 & S1 & Hb1 & Ed1 & T1 & _);
    [rewrite size_empty; unfold NBUF; lia|].
  mrun E1. set (g := fun bf => put_dinode (b_data bf) (dinode_off (i_inum i)) i).
  destruct (tx_log_write p LS s1 _ _ _ bp ib g T1) as (s2 & s3 & E2 & E3 & S3 & T3 & K3);
    [set_solver|done|done|unfold g; by rewrite Ed1|lia|].
  mrun E2. mrun E3. unfold g in T3. rewrite Ed1 in T3.
  destruct (tx_brelse p LS s3 _ _ _ bp ib T3) as (s4 & E4 & S4 & T4 & _); [set_solver|by apply K3|].
  rewrite E4. exists s4. split; [done|]. split; [by repeat (etrans; [eassumption|])|].
  by replace ((({[ib]} ∪ ∅) : gset Z) ∖ {[ib]}) with (∅ : gset Z) in T4 by set_solver.
Qed.

(** An inode table entry that was not read yet. *)
Record fresh_entry (s : kstate) (ip : nat) (inum : Z) : Prop := {
  fe_ip : (ip < length (k_inodes s))%nat;
  fe_dev : i_dev (k_inodes s !!! ip) = ROOTDEV;
  fe_inum : i_inum (k_inodes s !!! ip) = inum;
  fe_ref : 1 <= i_ref (k_inodes s !!! ip);
  fe_free : sl_locked (i_lock (k_inodes s !!! ip)) = 0;
  fe_valid : i_valid (k_inodes s !!! ip) = 0
}.

(** ilock() of such an entry locks it and reads the inode from its block. *)
Lemma ilock_loads s ip R V inum :
  rd p s R V -> k_sb s = sb -> fs_ok LS sb V -> 0 <= inum < sb_ninodes sb -> fresh_entry s ip inum ->
  let i := i_set_valid 1 (dinode V sb inum (i_set_lock (mkSl 1 (p_pid (k_procs s !!! p))) (k_inodes s !!! ip))) in
  exists s', ilock (Some ip) s = (if i_type i =? 0 then Panic "ilock: no type" s' else Ok tt s') /\
    rd p s' R V /\ rd_step p (k_set_inodes (<[ip := i]> (k_inodes s)) s) s'.
Proof.
  intros Hrd Esb HV Hn [Hip Hdev Hinum Href Hfree Hvalid] i. pose proof (rd_running _ _ _ _ Hrd) as Hrun.
  pose proof (fo_geo _ _ _ HV) as G. destruct (inode_block LS sb G V _ HV Hn) as [Hd Hok].
  unfold ilock, inode_at. change (gets k_sb) with (gets (fun s => k_sb s)). mred. rewrite (proj2 (Z.ltb_ge _ _)) by lia.
  mrun (acquiresleep_eq p (SL_inode ip) s Hrun Hip Hfree).
  set (pid := p_pid (k_procs s !!! p)) in *. set (s1 := sl_put (SL_inode ip) (mkSl 1 pid) s).
  assert (Ei1 : k_inodes s1 !!! ip = i_set_lock (mkSl 1 pid) (k_inodes s !!! ip)).
  { unfold s1. cbn. by rewrite lookup_total_alter. }
  rewrite Ei1. change (i_valid (i_set_lock _ ?x)) with (i_valid x). rewrite Hvalid. change (0 =? 0) with true. cbv iota.
  mred. change (k_sb s1) with (k_sb s). rewrite Esb.
  change (i_dev (i_set_lock _ ?x)) with (i_dev x). change (i_inum (i_set_lock _ ?x)) with (i_inum x). rewrite Hdev, Hinum.
  assert (R1 : rd p s1 R V).
  { unfold s1. cbn [sl_put]. rewrite set_other_inodes. by apply rd_other. }
  destruct (rd_bread p s1 R V _ _ R1 Hd) as (b & s2 & E2 & S2 & Ed2 & _ & Hrel). mrun E2. unfold buf_at, upd_inode. mred.
  rewrite Ed2, set_other_inodes. destruct (Hrel (k_mem s2) (alter (load_dinode (V !!! IBLOCK inum sb) (dinode_off inum)) ip (k_inodes s2)))
    as (s3 & E3 & S3 & R3). mrun E3.
  assert (Ex : alter (i_set_valid 1) ip (k_inodes s3) = <[ip := i]> (k_inodes s)).
  { rewrite (ts_inodes _ _ _ (rs_tx _ _ _ S3)). cbn. rewrite (ts_inodes _ _ _ (rs_tx _ _ _ S2)). unfold s1. cbn. rewrite !alter_alter.
    apply list_eq. intros k. destruct (decide (ip = k)) as [<-|Hne].
    - rewrite list_lookup_alter_eq, list_lookup_insert_eq by done.
      by rewrite (list_lookup_lookup_total_lt (k_inodes s) ip Hip).
    - by rewrite list_lookup_alter_ne, list_lookup_insert_ne by done. }
  rewrite Ex. cbn [k_inodes k_set_inodes]. rewrite list_lookup_total_insert_eq by done.
  exists (k_set_inodes (<[ip := i]> (k_inodes s)) s3).
  split; [by destruct (i_type i =? 0)|]. split; [rewrite set_other_inodes; by apply rd_other|].
  pose proof (rd_step_inodes _ _ _ (<[ip := i]> (k_inodes s)) S3) as S3'.
  pose proof (rd_step_inodes _ _ _ (<[ip := i]> (k_inodes s)) S2) as S2'.
  etrans; [exact S2'|]. rewrite <- set_other_inodes in S3'. exact S3'.
Qed.

Lemma ilock_spec s ip R V inum :
  rd p s R V -> k_sb s = sb -> fs_ok LS sb V -> 0 <= inum < sb_ninodes sb -> fresh_entry s ip inum ->
  let i := i_set_valid 1 (dinode V sb inum (i_set_lock (mkSl 1 (p_pid (k_procs s !!! p))) (k_inodes s !!! ip))) in
  i_type i <> 0 ->
  exists s', ilock (Some ip) s = Ok tt s' /\ rd p s' R V /\ rd_step p (k_set_inodes (<[ip := i]> (k_inodes s)) s) s'.
Proof.
  intros Hrd Esb HV Hn Hfe i Hty. destruct (ilock_loads s ip R V inum Hrd Esb HV Hn Hfe) as (s' & E & H).
  fold i in E, H. rewrite (proj2 (Z.eqb_neq _ _) Hty) in E. by exists s'.
Qed.

End Ops.
