(* ===== verification/FsRw.v ===== *)
(** readi(), writei() and iupdate() of fs.c: a file is a sequence of bytes. *)

From S2P Require Import Prelude Riscv State Spinlock Kalloc Vm VmCopy Sched Sleeplock Printf PrintfSpec Bio BioSpec Log LogSpec FsTx Fs FsBlock FsFile FsInode.

Lemma u64_add a b : u64 (u64 a + b) = u64 (a + b).
Proof. unfold u64. apply Z.add_mod_idemp_l. done. Qed.

Lemma get_bytes_app (w : list Z) (a b c : nat) : (a + b + c <= length w)%nat ->
  get_bytes w a (b + c) = get_bytes w a b ++ get_bytes w (a + b) c.
Proof.
  intros H. unfold get_bytes. rewrite <- (take_drop b (drop a w)) at 1.
  rewrite take_app, take_take, length_take, length_drop, drop_drop.
  f_equal; f_equal; lia.
Qed.

Lemma length_get_bytes (w : list Z) (a n : nat) : (a + n <= length w)%nat -> length (get_bytes w a n) = n.
Proof. intros. unfold get_bytes. rewrite length_take, length_drop. lia. Qed.

Lemma alter_as_insert {A} `{Inhabited A} (f : A -> A) (k : nat) (l : list A) :
  (k < length l)%nat -> alter f k l = <[k := f (l !!! k)]> l.
Proof.
  intros Hk. apply list_eq. intros j. destruct (decide (k = j)) as [<-|Hne].
  - rewrite list_lookup_alter_eq, list_lookup_insert_eq by done. by rewrite (list_lookup_lookup_total_lt l k Hk).
  - by rewrite list_lookup_alter_ne, list_lookup_insert_ne by done.
Qed.

Section FsRw.
Context `{D : BlockDev}.
Context (p : nat) (LS : Z) (sb : superblock).

(** ** Where the bytes come from *)

(** [us] tells whether [src] is a user or a kernel address, as either_copyin()
    has it; [W] is what memory holds there. *)
Definition source (s : kstate) (us src : Z) (W : list Z) : Prop :=
  0 <= src < 2 ^ 64 /\
  if c_true us then uread (k_mem s) (p_pagetable (k_procs s !!! p)) (length W) src = Some W
  else mem_read (k_mem s) src (length W) = W /\ src + Z.of_nat (length W) <= 2 ^ 64.

Lemma source_step s s' ip A us src W : tx_step p (set_addrs ip A s) s' -> source s us src W -> source s' us src W.
Proof. intros S. unfold source. by rewrite (ts_mem _ _ _ S), (ts_proc _ _ _ S). Qed.

Lemma uread_length m root n : forall va l, uread m root n va = Some l -> length l = n.
Proof.
  induction n as [|n IH]; intros va l; cbn [uread]; [by intros [= <-]|].
  destruct (ubyte m root va); [|done]. destruct (uread m root n (va + 1)) as [r|] eqn:E; [|done].
  intros [= <-]. cbn. by rewrite (IH _ _ E).
Qed.

Lemma uread_sub m root W va (k n : nat) : uread m root (length W) va = Some W -> (k + n <= length W)%nat ->
  uread m root n (va + Z.of_nat k) = Some (get_bytes W k n).
Proof.
  intros E Hkn. replace (length W) with (k + (n + (length W - k - n)))%nat in E by lia.
  rewrite uread_app in E. destruct (uread m root k va) as [W1|] eqn:E1; [|done].
  rewrite uread_app in E. destruct (uread m root n (va + Z.of_nat k)) as [W2|] eqn:E2; [|done].
  destruct (uread m root (length W - k - n) _) as [W3|] eqn:E3; [|done]. cbn in E. injection E as <-. f_equal.
  apply uread_length in E1, E2, E3. unfold get_bytes. rewrite drop_app_length' by done. by rewrite take_app_length' by done.
Qed.

Lemma uread_max m root n va l : uread m root (S n) va = Some l -> va + Z.of_nat n < 2 ^ 38.
Proof.
  replace (S n) with (n + 1)%nat by lia. rewrite uread_app. destruct (uread m root n va); [|done].
  cbn [uread]. unfold ubyte. destruct (Z.eqb_spec (upage m root (va + Z.of_nat n)) 0) as [|Hn]; [done|].
  intros _. apply upage_user in Hn. by rewrite MAXVA_val in Hn.
Qed.

Lemma mem_read_sub m a (W : list Z) (k n : nat) : mem_read m a (length W) = W -> (k + n <= length W)%nat ->
  mem_read m (a + Z.of_nat k) n = get_bytes W k n.
Proof.
  intros E Hkn. rewrite <- E. replace (length W) with (k + (n + (length W - k - n)))%nat by lia.
  rewrite !mem_read_app. unfold get_bytes. rewrite drop_app_length' by (by rewrite length_mem_read).
  by rewrite take_app_length' by (by rewrite length_mem_read).
Qed.

(** A piece of it. *)
Lemma either_copyin_source s us src W k m :
  running p s -> source s us src W -> 0 <= k -> 0 < m -> k + m <= Z.of_nat (length W) ->
  either_copyin us (u64 (src + k)) m s = Ok (0, get_bytes W (Z.to_nat k) (Z.to_nat m)) s.
Proof.
  intros Hr [Hs Hsrc] Hk Hm Hkm. unfold either_copyin. mrun (myproc_eq s (rn_settled _ _ Hr)).
  rewrite (rn_cur _ _ Hr). destruct (c_true us).
  - unfold deref, proc_at. mred. set (root := p_pagetable _) in *.
    pose proof (uread_sub _ _ _ _ (Z.to_nat k) (Z.to_nat m) Hsrc ltac:(lia)) as E.
    rewrite Z2Nat.id in E by lia. replace (Z.to_nat m) with (S (Z.to_nat (m - 1))) in E at 1 by lia.
    pose proof (uread_max _ _ _ _ _ E). rewrite (u64_small (src + k)) by lia.
    replace (S (Z.to_nat (m - 1))) with (Z.to_nat m) in E by lia.
    destruct (copyin_loop_ok root s _ (src + k) m ltac:(lia) ltac:(lia) (copy_fuel _ m ltac:(lia))) as (bs & Ec).
    rewrite E in Ec. exact Ec.
  - destruct Hsrc as [Hrd Hmax]. rewrite (u64_small (src + k)) by lia. mred.
    pose proof (mem_read_sub _ _ _ (Z.to_nat k) (Z.to_nat m) Hrd ltac:(lia)) as E.
    rewrite Z2Nat.id in E by lia. by rewrite E.
Qed.

(** ** writei() *)

(** One round after bmap(): the bytes are put into block [r] of the file. *)
Lemma writei_round {X} s ip bl V A us src W k m off r (e : X) (cont : K X) :
  at_file p LS sb s ip bl V A -> fs_ok LS sb V -> file_ok sb V A -> source s us src W -> Forall is_byte W ->
  0 <= k -> 0 < m -> k + m <= Z.of_nat (length W) -> 0 <= off -> off mod BSIZE + m <= BSIZE -> off < MAXFILE * BSIZE ->
  baddr V A (off / BSIZE) = r -> r <> 0 -> (length bl < 29)%nat ->
  exists s', (i <- inode_at ip;;
    bp <- bread (i_dev i) r;;
    '(c, bytes) <- either_copyin us (u64 (src + k)) m;;
    upd_buf bp (fun bf => b_set_data (put_bytes (b_data bf) (Z.to_nat (off mod BSIZE)) bytes) bf);;
    if c =? -1 then brelse bp;; ret e else log_write bp;; brelse bp;; cont) s = cont s' /\
  tx_step p s s' /\ tx p LS s' (logged bl r) ∅
    (<[r := put_bytes (V !!! r) (Z.to_nat (off mod BSIZE)) (get_bytes W (Z.to_nat k) (Z.to_nat m))]> V).
Proof.
  intros Hat HV HF Hsrc HW Hk Hm Hkm Hoff Hfit Hmax Er Hr Hroom. pose proof Hat as [T Esb Hip Hdev HA].
  pose proof (layout _ _ (fo_geo _ _ _ HV)) as Hlay.
  destruct (fi_data _ _ _ HF r) as [Hrange _].
  { rewrite <- Er in *. apply owned_baddr; [apply BSIZE_index; lia|done]. }
  destruct (lookup_of_ok LS sb V r HV Hrange) as [Hd Hok].
  unfold inode_at. mred. rewrite Hdev.
  destruct (tx_bread p LS s bl ∅ V r _ T ltac:(set_solver) Hd) as (bp & s1 & E1 & S1 & Hb1 & Ed1 & T1 & _);
    [rewrite size_empty; unfold NBUF; lia|].
  mrun E1. rewrite union_empty_r_L in T1.
  assert (Hsrc1 : source s1 us src W).
  { apply (source_step s s1 ip A); [|done]. by rewrite <- HA, set_addrs_id. }
  mrun (either_copyin_source s1 us src W k m (tx_running _ _ _ _ _ _ T1) Hsrc1 Hk Hm Hkm).
  set (w := get_bytes W _ _). set (g := fun bf => put_bytes (b_data bf) (Z.to_nat (off mod BSIZE)) w).
  assert (Hw : Forall is_byte w /\ length w = Z.to_nat m).
  { split; [by apply Forall_take, Forall_drop|apply length_get_bytes; lia]. }
  assert (0 <= off mod BSIZE) by (apply Z.mod_pos_bound; done).
  destruct (tx_log_write p LS s1 _ _ _ bp r g T1) as (s2 & s3 & E2 & E3 & S3 & T3 & K3);
    [set_solver|done|by apply (data_home LS sb); [apply HV|]| |lia|].
  { unfold g. rewrite Ed1. destruct Hok, Hw. split; [|by apply put_bytes_is_byte].
    rewrite length_put_bytes; unfold BSIZE in *; lia. }
  mrun E2. change (0 =? -1) with false. cbv iota. mrun E3. unfold g in T3. rewrite Ed1 in T3.
  destruct (tx_brelse p LS s3 _ _ _ bp r T3) as (s4 & E4 & S4 & T4 & _); [set_solver|by apply K3|].
  mrun E4. exists s4. split; [done|]. split; [by repeat (etrans; [eassumption|])|].
  by replace (({[r]} : gset Z) ∖ {[r]}) with (∅ : gset Z) in T4 by set_solver.
Qed.

Lemma wrote_nil_off V A V' A' off : wrote LS sb V A 0 [] V' A' -> wrote LS sb V A off [] V' A'.
Proof. intros [? ? ? ? ? Hr ? ? ? ? ? ?]. split; cbn [length] in *; try done; try lia. intros o Ho _. apply Hr; lia. Qed.

Lemma touched_round bl0 bl bl1 A A1 T r : (ind_of A <> 0 -> ind_of A1 = ind_of A) ->
  touched bl0 bl (sb_bmapstart sb :: ind_of A :: T) -> touched bl bl1 [sb_bmapstart sb; ind_of A1; r] ->
  touched bl0 bl1 (sb_bmapstart sb :: ind_of A1 :: r :: T).
Proof.
  intros Hi H1 H2. apply (touched_trans _ _ _ _ _ H1).
  - intros x Hx. destruct (H2 x Hx) as [?|[? Hin]]; [by left|]. right. split; [done|]. set_solver.
  - intros x Hx. rewrite !elem_of_cons. intros [->|[->|?]]; [by left| |by auto]. right. left. rewrite Hi; [done|lia].
Qed.

Lemma touched_logged bl0 bl r T : 0 < r -> r ∈ T -> touched bl0 bl T -> touched bl0 (logged bl r) T.
Proof.
  intros Hr Hin H1 x. rewrite logged_in. intros [?| ->]; [by apply H1|]. right. by split.
Qed.

(** What the loop of writei() leaves, from [t] bytes written: [t'] in all, the
    blocks logged on the way among [T']. *)
Record looped (ip : nat) (W : list Z) (off0 : Z) (f : nat) (bl0 : list Z) (s : kstate) (V : gmap Z (list Z)) (A : list Z) (t : Z)
  (T : list Z) (t' : Z) (s' : kstate) (bl' : list Z) (V' : gmap Z (list Z)) (A' T' : list Z) : Prop := {
  lp_range : t <= t' <= Z.of_nat (length W);
  lp_state : tx_step p (set_addrs ip A' s) s';
  lp_tx : tx p LS s' bl' ∅ V';
  lp_wrote : wrote LS sb V A (off0 + t) (get_bytes W (Z.to_nat t) (Z.to_nat (t' - t))) V' A';
  lp_full : t' < Z.of_nat (length W) ->
    baddr V A ((off0 + t') / BSIZE) = 0 /\ (t' = t \/ (off0 + t') mod BSIZE = 0) /\
    forall x, 0 <= x < sb_size sb -> used V' sb x = true;
  lp_touched : touched bl0 bl' (sb_bmapstart sb :: ind_of A' :: T');
  lp_room : (length T' <= length T + f)%nat
}.

Lemma looped_stop ip W off0 f bl0 s bl V A T :
  at_file p LS sb s ip bl V A -> fs_ok LS sb V -> file_ok sb V A -> touched bl0 bl (sb_bmapstart sb :: ind_of A :: T) ->
  looped ip W off0 f bl0 s V A (Z.of_nat (length W)) T (Z.of_nat (length W)) s bl V A T.
Proof.
  intros Hat HV HF Htou.
  assert (Hid : set_addrs ip A s = s) by (rewrite <- (af_addrs _ _ _ _ _ _ _ _ Hat); apply set_addrs_id).
  split; rewrite ?Hid, ?Z.sub_diag; try done; try lia; [apply Hat|by apply wrote_refl].
Qed.

(** A block the file does not have after a write it did not have before. *)
Lemma wrote_unmapped V A off w V' A' bn : 0 <= bn < MAXFILE -> wrote LS sb V A off w V' A' -> baddr V' A' bn = 0 -> baddr V A bn = 0.
Proof. intros Hbn W E. destruct (decide (baddr V A bn = 0)) as [|Hn]; [done|]. by rewrite (wr_map _ _ _ _ _ _ _ _ W) in E. Qed.

(** The disk has no block left for the next byte. *)
Lemma looped_full ip W off0 f bl0 s bl V A t T s1 bl1 V1 A1 :
  fs_ok LS sb V -> 0 <= off0 + t -> off0 + Z.of_nat (length W) <= MAXFILE * BSIZE -> t < Z.of_nat (length W) ->
  touched bl0 bl (sb_bmapstart sb :: ind_of A :: T) -> mapped p LS sb s ip bl V A ((off0 + t) / BSIZE) 0 s1 bl1 V1 A1 ->
  looped ip W off0 (S f) bl0 s V A t T t s1 bl1 V1 A1 (0 :: T).
Proof.
  intros HV Ht Hmax Hlt Htou [S1 T1 W1 Er Hi Hfull Ht1]. rewrite MAXFILE_val in Hmax.
  split; rewrite ?Z.sub_diag; try done; try lia.
  - by apply wrote_nil_off.
  - intros _. split; [|split; [by left|by apply Hfull]]. by apply (wrote_unmapped V A 0 [] V1 A1); [apply BSIZE_index; rewrite MAXFILE_val; lia| |].
  - by apply (touched_round bl0 bl _ A).
  - cbn. lia.
Qed.

(** A round that writes [m] bytes of the block [r], and the rest. *)
Lemma looped_next ip W off0 f bl0 s bl V A t T r s1 bl1 V1 A1 m s2 t' s3 bl3 V3 A3 T3 :
  fs_ok LS sb V -> 0 <= t -> 0 <= off0 -> off0 + Z.of_nat (length W) <= MAXFILE * BSIZE ->
  0 < m <= Z.of_nat (length W) - t -> (t + m < Z.of_nat (length W) -> (off0 + (t + m)) mod BSIZE = 0) ->
  mapped p LS sb s ip bl V A ((off0 + t) / BSIZE) r s1 bl1 V1 A1 -> tx_step p (set_addrs ip A1 s) s2 ->
  let w := get_bytes W (Z.to_nat t) (Z.to_nat m) in
  let V2 := <[r := put_bytes (V1 !!! r) (Z.to_nat ((off0 + t) mod BSIZE)) w]> V1 in
  wrote LS sb V1 A1 (off0 + t) w V2 A1 ->
  looped ip W off0 f bl0 s2 V2 A1 (t + m) (r :: T) t' s3 bl3 V3 A3 T3 ->
  looped ip W off0 (S f) bl0 s V A t T t' s3 bl3 V3 A3 T3.
Proof.
  intros HV Ht Hoff Hmax Hm Hend [S1 T1 W1 Er Hi Hfull Ht1] S12 w V2 W2 [Ht3 S3 Tx3 W3 Hf3 Hto3 Hl3]. rewrite MAXFILE_val in Hmax.
  assert (Hlw : length w = Z.to_nat m) by (apply length_get_bytes; lia).
  split; try done; try lia.
  - etrans; [|exact S3]. rewrite <- (set_addrs_twice ip A1 A3 s). by apply set_addrs_step.
  - replace (get_bytes W (Z.to_nat t) (Z.to_nat (t' - t))) with ([] ++ w ++ get_bytes W (Z.to_nat (t + m)) (Z.to_nat (t' - (t + m)))).
    2: { cbn [app]. unfold w. replace (Z.to_nat (t + m)) with (Z.to_nat t + Z.to_nat m)%nat by lia.
         rewrite <- get_bytes_app by lia. f_equal. lia. }
    set (rest := get_bytes W (Z.to_nat (t + m)) _) in *. assert (Hlr : length rest = Z.to_nat (t' - (t + m))) by (apply length_get_bytes; lia).
    apply (wrote_trans LS sb V A (off0 + t) [] _ V1 A1); [apply HV|lia|rewrite MAXFILE_val, length_app; cbn [length]; lia|by apply wrote_nil_off|].
    cbn [length]. rewrite Z.add_0_r.
    apply (wrote_trans LS sb V1 A1 (off0 + t) w rest V2 A1); [apply HV|lia|rewrite MAXFILE_val; lia|done|].
    replace (off0 + t + Z.of_nat (length w)) with (off0 + (t + m)) by lia. done.
  - intros Hlt3. destruct (Hf3 Hlt3) as (Hb & Hor & ?). split; [|split; [|done]].
    + assert (0 <= (off0 + t') / BSIZE < MAXFILE) by (apply BSIZE_index; rewrite MAXFILE_val; lia).
      apply (wrote_unmapped V A 0 [] V1 A1); [done|done|]. by apply (wrote_unmapped V1 A1 (off0 + t) w V2 A1).
    + right. destruct Hor as [->|?]; [|done]. by apply Hend; lia.
  - cbn [length] in Hl3. lia.
Qed.

Lemma writei_loop_spec ip us src W off0 :
  0 <= off0 -> off0 + Z.of_nat (length W) <= MAXFILE * BSIZE -> Forall is_byte W -> sb_size sb <= BPB ->
  let n := Z.of_nat (length W) in
  forall f s bl V A t T bl0, at_file p LS sb s ip bl V A -> fs_ok LS sb V -> file_ok sb V A -> source s us src W ->
  0 <= t <= n -> (t < n -> (off0 + t) mod BSIZE + (n - t) <= Z.of_nat f * BSIZE) ->
  touched bl0 bl (sb_bmapstart sb :: ind_of A :: T) -> (length bl0 + length T + f <= 21)%nat ->
  exists t' s' bl' V' A' T', writei_loop f ip us (u64 (src + t)) (off0 + t) n t s = Ok (t', off0 + t') s' /\
    looped ip W off0 f bl0 s V A t T t' s' bl' V' A' T'.
Proof.
  intros Hoff Hmax HW Hone n. pose proof Hmax as Hmax'. rewrite MAXFILE_val in Hmax'.
  induction f as [|f IH]; intros s bl V A t T bl0 Hat HV HF Hsrc Ht Hf Htou Hroom;
    (destruct (decide (t = n)) as [->|Hne];
     [eexists n, s, bl, V, A, T; split; [cbn [writei_loop]; by rewrite Z.ltb_irrefl|by apply looped_stop]|]).
  { specialize (Hf ltac:(lia)). pose proof (Z.mod_pos_bound (off0 + t) BSIZE ltac:(done)). lia. }
  cbn [writei_loop]. assert (Hlt : t < n) by lia. rewrite (proj2 (Z.ltb_lt t n)) by done. specialize (Hf Hlt).
  pose proof (touched_length _ _ _ _ _ (tx_log _ _ _ _ _ _ (af_tx _ _ _ _ _ _ _ _ Hat)) Htou) as Hlen. cbn [length] in Hlen.
  assert (Hbn : 0 <= (off0 + t) / BSIZE < MAXFILE) by (apply BSIZE_index; rewrite MAXFILE_val; lia).
  destruct (bmap_spec p LS sb s ip bl V A ((off0 + t) / BSIZE) Hat HV HF Hone ltac:(lia) Hbn) as (r & s1 & bl1 & V1 & A1 & E1 & M).
  mrun E1. destruct (Z.eqb_spec r 0) as [->|Hr0].
  { eexists t, s1, bl1, V1, A1, (0 :: T). split; [done|]. apply (looped_full _ _ _ _ _ _ bl); try done; lia. }
  pose proof M as [S1 T1 W1 Er Hi Hfull Ht1]. pose proof (at_file_step _ _ _ _ _ _ _ _ _ _ _ _ Hat S1 T1) as Hat1.
  pose proof (wr_ok _ _ _ _ _ _ _ _ W1) as HV1. pose proof (wr_file _ _ _ _ _ _ _ _ W1) as HF1.
  pose proof (source_step _ _ _ _ _ _ _ S1 Hsrc) as Hsrc1. pose proof (layout _ _ (fo_geo _ _ _ HV)) as Hlay.
  assert (Hr : 0 < r). { destruct (fi_data _ _ _ HF1 r) as [? _]; [rewrite <- Er in *; by apply owned_baddr|lia]. }
  set (m := Z.min (n - t) (BSIZE - (off0 + t) mod BSIZE)) in *.
  assert (Hmod : 0 <= (off0 + t) mod BSIZE < BSIZE) by (apply Z.mod_pos_bound; done).
  assert (Hm : 0 < m <= n - t /\ (off0 + t) mod BSIZE + m <= BSIZE) by lia.
  assert (Hend : t + m < n -> (off0 + (t + m)) mod BSIZE = 0).
  { intros ?. assert (m = BSIZE - (off0 + t) mod BSIZE) as -> by lia. clear. unfold BSIZE. dlia. }
  pose proof (touched_round _ _ _ _ _ _ _ Hi Htou Ht1) as Htou1.
  pose proof (touched_length _ _ _ _ _ (tx_log _ _ _ _ _ _ T1) Htou1) as Hlen1. cbn [length] in Hlen1.
  set (cont := writei_loop f ip us (u64 (u64 (src + t) + m)) (u32 (off0 + t + m)) n (t + m)).
  destruct (writei_round s1 ip bl1 V1 A1 us src W t m (off0 + t) r (t, off0 + t) cont) as (s2 & E2 & S2 & T2);
    [try done; rewrite ?MAXFILE_val; lia..|].
  rewrite E2. unfold cont. rewrite u64_add, <- (Z.add_assoc off0), <- (Z.add_assoc src), u32_small by (unfold BSIZE in *; lia).
  assert (W2 : wrote LS sb V1 A1 (off0 + t) (get_bytes W (Z.to_nat t) (Z.to_nat m))
                 (<[r := put_bytes (V1 !!! r) (Z.to_nat ((off0 + t) mod BSIZE)) (get_bytes W (Z.to_nat t) (Z.to_nat m))]> V1) A1).
  { rewrite <- Er in *. apply wrote_put; try done; try (rewrite ?MAXFILE_val, ?length_get_bytes; lia). by apply Forall_take, Forall_drop. }
  assert (S12 : tx_step p (set_addrs ip A1 s) s2) by by etrans.
  destruct (IH s2 (logged bl1 r) _ A1 (t + m) (r :: T) bl0 (at_file_step _ _ _ _ _ _ _ _ _ _ _ _ Hat S12 T2) (wr_ok _ _ _ _ _ _ _ _ W2) (wr_file _ _ _ _ _ _ _ _ W2)
    (source_step _ _ _ _ _ _ _ S12 Hsrc)) as (t' & s3 & bl3 & V3 & A3 & T3 & E3 & L3).
  - lia.
  - intros Hlt2. rewrite Hend by done. lia.
  - apply touched_logged; [done|set_solver|done].
  - cbn [length]. lia.
  - exists t', s3, bl3, V3, A3, T3. split; [exact E3|]. by eapply looped_next; try done; try lia.
Qed.

(** ** The file as a sequence of bytes *)

Lemma content_lookup V A size k : (k < Z.to_nat size)%nat -> content V A size !! k = Some (fbyte V A (Z.of_nat k)).
Proof. intros Hk. unfold content. rewrite list_lookup_fmap, lookup_seq_lt by done. done. Qed.

Lemma length_content V A size : length (content V A size) = Z.to_nat size.
Proof. unfold content. by rewrite length_fmap, length_seq. Qed.

(** The sequence [c] with [w] written over it at [off]. *)
Definition overwrite (c : list Z) (off : nat) (w : list Z) : list Z := take off c ++ w ++ drop (off + length w) c.

Lemma lookup_overwrite c off w x : (off <= length c)%nat ->
  overwrite c off w !! x = if decide (off <= x < off + length w)%nat then w !! (x - off)%nat else c !! x.
Proof.
  intros Ho. unfold overwrite. assert (Hl : length (take off c) = off) by (rewrite length_take; lia).
  case_decide as Hx.
  - rewrite lookup_app_r, Hl, lookup_app_l by lia. done.
  - destruct (decide (x < off)%nat); [by rewrite lookup_app_l, lookup_take_lt by lia|].
    rewrite lookup_app_r, Hl, lookup_app_r, lookup_drop by lia. f_equal. lia.
Qed.

Lemma length_overwrite c off w : (off <= length c)%nat -> length (overwrite c off w) = Nat.max (length c) (off + length w).
Proof. intros. unfold overwrite. rewrite !length_app, length_take, length_drop. lia. Qed.

Lemma overwrite_nil c off : overwrite c off [] = c.
Proof. unfold overwrite. cbn [length app]. by rewrite Nat.add_0_r, take_drop. Qed.

Lemma overwrite_app c off w1 w2 : (off <= length c)%nat ->
  overwrite (overwrite c off w1) (off + length w1) w2 = overwrite c off (w1 ++ w2).
Proof.
  intros Ho. apply list_eq. intros x. rewrite lookup_overwrite by (rewrite length_overwrite; lia).
  rewrite !lookup_overwrite by done. rewrite length_app. repeat case_decide; try lia; try done.
  - rewrite lookup_app_r by lia. f_equal. lia.
  - by rewrite lookup_app_l by lia.
Qed.

Lemma content_wrote V A V' A' off w size :
  wrote LS sb V A off w V' A' -> 0 <= off <= size -> size <= MAXFILE * BSIZE -> off + Z.of_nat (length w) <= MAXFILE * BSIZE ->
  (forall o, 0 <= o < size -> baddr V A (o / BSIZE) <> 0) ->
  content V' A' (Z.max size (off + Z.of_nat (length w))) = overwrite (content V A size) (Z.to_nat off) w.
Proof.
  intros Hw Hoff Hsz Hmax Hb. apply list_eq. intros k. unfold overwrite.
  assert (Hlen : length (take (Z.to_nat off) (content V A size)) = Z.to_nat off) by (rewrite length_take, length_content; lia).
  destruct (decide (k < Z.to_nat (Z.max size (off + Z.of_nat (length w))))%nat) as [Hk|Hk].
  2: { rewrite !lookup_ge_None_2; [done| |by rewrite length_content; lia].
       rewrite !length_app, Hlen, length_drop, length_content. lia. }
  rewrite content_lookup by done. destruct (decide (k < Z.to_nat off)%nat) as [H1|H1].
  { rewrite lookup_app_l, lookup_take_lt, content_lookup by lia. f_equal.
    apply (wr_rest _ _ _ _ _ _ _ _ Hw); [lia|lia|apply Hb; lia]. }
  rewrite lookup_app_r, Hlen by lia. destruct (decide (k < Z.to_nat off + length w)%nat) as [H2|H2].
  - rewrite lookup_app_l by lia. rewrite (wr_bytes _ _ _ _ _ _ _ _ Hw) by lia.
    replace (Z.to_nat (Z.of_nat k - off)) with (k - Z.to_nat off)%nat by lia. symmetry. apply list_lookup_lookup_total_lt. lia.
  - rewrite lookup_app_r, lookup_drop by lia. rewrite content_lookup by lia. f_equal.
    replace (Z.to_nat off + length w + (k - Z.to_nat off - length w))%nat with k by lia.
    apply (wr_rest _ _ _ _ _ _ _ _ Hw); [lia|lia|apply Hb; lia].
Qed.

(** The addresses of a file fit their type. *)
Lemma file_addrs V A : fs_ok LS sb V -> file_ok sb V A -> Forall (fun a => 0 <= a < 2 ^ 32) A.
Proof.
  intros HV HF. pose proof (layout _ _ (fo_geo _ _ _ HV)) as Hlay. apply Forall_lookup. intros k a Hk.
  destruct (decide (a = 0)) as [->|Hn]; [lia|]. pose proof (lookup_lt_Some _ _ _ Hk) as Hlt. rewrite (fi_len _ _ _ HF) in Hlt.
  destruct (fi_data _ _ _ HF a) as [? _]; [|lia]. split; [done|]. apply list_lookup_total_correct in Hk.
  destruct (decide (k = 12%nat)) as [->|]; [left; by rewrite <- Hk|]. right. exists (Z.of_nat k).
  rewrite MAXFILE_val. split; [lia|]. unfold baddr, NDIRECT. rewrite (proj2 (Z.ltb_lt _ _)), Nat2Z.id by lia. done.
Qed.

(** Writing a block before the free map leaves files alone. *)
Section Low.
Context (V : gmap Z (list Z)) (A : list Z) (a : Z) (d : list Z).
Context (HV : fs_ok LS sb V) (HF : file_ok sb V A) (Ha : 0 < a < sb_bmapstart sb) (Hd : block_ok d).

Lemma low_baddr bn : baddr (<[a := d]> V) A bn = baddr V A bn.
Proof.
  pose proof (layout _ _ (fo_geo _ _ _ HV)). apply baddr_same. intros Hn. rewrite lookup_total_insert_ne; [done|].
  destruct (fi_data _ _ _ HF (ind_of A)) as [? _]; [split; [done|by left]|]. lia.
Qed.

Lemma low_owned x : owned (<[a := d]> V) A x <-> owned V A x.
Proof. unfold owned. by setoid_rewrite low_baddr. Qed.

Lemma low_file : file_ok sb (<[a := d]> V) A.
Proof.
  pose proof (layout _ _ (fo_geo _ _ _ HV)). split; [apply HF| | |].
  - intros x Hx%low_owned. destruct (fi_data _ _ _ HF x Hx) as [? ?]. split; [done|].
    rewrite (used_low LS) by (apply HV || lia). done.
  - intros bn bn'. rewrite !low_baddr. apply (fi_inj _ _ _ HF).
  - intros bn. rewrite low_baddr. apply (fi_ind _ _ _ HF).
Qed.

Lemma low_fbyte o : 0 <= o < MAXFILE * BSIZE -> fbyte (<[a := d]> V) A o = fbyte V A o.
Proof.
  intros Ho. pose proof (layout _ _ (fo_geo _ _ _ HV)). unfold fbyte. rewrite low_baddr.
  rewrite lookup_total_insert_ne; [done|]. destruct (decide (baddr V A (o / BSIZE) = 0)) as [->|Hn]; [lia|].
  destruct (fi_data _ _ _ HF _ (owned_baddr V A _ (BSIZE_index _ Ho) Hn)). lia.
Qed.

Lemma low_content size : size <= MAXFILE * BSIZE -> content (<[a := d]> V) A size = content V A size.
Proof.
  intros Hs. unfold content. apply list_fmap_ext. intros k x Hx%lookup_seq. apply low_fbyte. lia.
Qed.

End Low.

(** An inode the caller has locked, and its file. *)
Record open_file (s : kstate) (ip : nat) (bl : list Z) (V : gmap Z (list Z)) (i : inode) : Prop := {
  of_at : at_file p LS sb s ip bl V (i_addrs i);
  of_inode : k_inodes s !!! ip = i;
  of_typed : inode_typed i;
  of_num : 0 <= i_inum i < sb_ninodes sb;
  of_ok : fs_ok LS sb V;
  of_file : file_ok sb V (i_addrs i);
  of_size : i_size i <= MAXFILE * BSIZE;
  of_blocks o : 0 <= o < i_size i -> baddr V (i_addrs i) (o / BSIZE) <> 0
}.

(** What writei() did when it stored [w] at [off]. *)
Record written (s : kstate) (ip : nat) (V : gmap Z (list Z)) (i : inode) (off : Z) (w : list Z)
  (s' : kstate) (bl' : list Z) (V' : gmap Z (list Z)) (i' : inode) : Prop := {
  wn_open : open_file s' ip bl' V' i';
  wn_state : tx_step p (k_set_inodes (<[ip := i']> (k_inodes s)) s) s';
  wn_inode : i' = i_set_size (Z.max (i_size i) (off + Z.of_nat (length w))) (i_set_addrs (i_addrs i') i);
  wn_content : content V' (i_addrs i') (i_size i') = overwrite (content V (i_addrs i) (i_size i)) (Z.to_nat off) w;
  wn_disk : dinode V' sb (i_inum i) i' = i';
  wn_blocks x : data_block sb V x -> ~ owned V (i_addrs i) x -> V' !! x = V !! x;
  wn_low x : x < sb_inodestart sb -> V' !! x = V !! x;
  wn_logged : IBLOCK (i_inum i) sb ∈ bl';
  wn_inodes n j : 0 <= n < sb_ninodes sb -> n <> i_inum i -> dinode V' sb n j = dinode V sb n j;
  wn_taken x : owned V' (i_addrs i') x -> owned V (i_addrs i) x \/ used V sb x = false;
  wn_marked x : 0 <= x < sb_size sb -> used V' sb x = true -> used V sb x = true \/ owned V' (i_addrs i') x;
  wn_used x : 0 <= x < sb_size sb -> used V sb x = true -> used V' sb x = true
}.

(** ** The end of writei(): the size and the inode's block *)

Definition grown_inode (i : inode) (A : list Z) (e : Z) : inode := i_set_size (Z.max (i_size i) e) (i_set_addrs A i).

Section Finish.
Context (s : kstate) (ip : nat) (bl : list Z) (V : gmap Z (list Z)) (i : inode) (s1 : kstate) (bl1 : list Z).
Context (V1 : gmap Z (list Z)) (A1 : list Z) (off : Z) (w : list Z).
Context (Hof : open_file s ip bl V i) (S1 : tx_step p (set_addrs ip A1 s) s1) (Tx1 : tx p LS s1 bl1 ∅ V1).
Context (W1 : wrote LS sb V (i_addrs i) off w V1 A1) (Hoff : 0 <= off <= i_size i).
Context (Hmax : off + Z.of_nat (length w) <= MAXFILE * BSIZE).

Definition finished : inode := grown_inode i A1 (off + Z.of_nat (length w)).
Definition resized : kstate := k_set_inodes (<[ip := finished]> (k_inodes s1)) s1.

Lemma finish_inode : k_inodes s1 !!! ip = i_set_addrs A1 i.
Proof. rewrite (ts_inodes _ _ _ S1), addrs_set_addrs by apply (of_at _ _ _ _ _ Hof). by rewrite (of_inode _ _ _ _ _ Hof). Qed.

Lemma finish_at_file : at_file p LS sb s1 ip bl1 V1 A1.
Proof. exact (at_file_step _ _ _ _ _ _ _ _ _ _ _ _ (of_at _ _ _ _ _ Hof) S1 Tx1). Qed.

Lemma finish_size :
  (when i_size (i_set_addrs A1 i) <? off + Z.of_nat (length w) do upd_inode ip (i_set_size (off + Z.of_nat (length w)))) s1
  = Ok tt resized.
Proof.
  pose proof finish_inode as Hi1. pose proof (af_ip _ _ _ _ _ _ _ _ finish_at_file) as Hip1.
  unfold resized, finished, grown_inode. set (e := off + Z.of_nat (length w)).
  change (i_size (i_set_addrs A1 i)) with (i_size i). destruct (Z.ltb_spec (i_size i) e).
  - rewrite Z.max_r by lia. unfold upd_inode, modify. do 2 f_equal. rewrite <- Hi1. by apply alter_as_insert.
  - rewrite Z.max_l by lia. unfold ret. f_equal. rewrite list_insert_id; [by destruct s1|].
    rewrite (list_lookup_lookup_total_lt _ _ Hip1), Hi1. by destruct i.
Qed.

Lemma resized_inode : k_inodes resized !!! ip = finished.
Proof. apply list_lookup_total_insert_eq. apply (af_ip _ _ _ _ _ _ _ _ finish_at_file). Qed.

Lemma resized_at_file : at_file p LS sb resized ip bl1 V1 A1.
Proof.
  pose proof finish_at_file as Hat1. split; rewrite ?resized_inode; [by apply tx_inodes|apply Hat1|cbn; rewrite length_insert; apply Hat1| |done].
  pose proof (af_dev _ _ _ _ _ _ _ _ (of_at _ _ _ _ _ Hof)) as Hd. by rewrite (of_inode _ _ _ _ _ Hof) in Hd.
Qed.

Lemma finished_typed : inode_typed finished.
Proof.
  assert (Hmf : MAXFILE * BSIZE = 274432) by reflexivity. pose proof (of_size _ _ _ _ _ Hof).
  destruct (of_typed _ _ _ _ _ Hof). split; try done; [cbn; lia|apply W1|].
  apply (file_addrs V1); [apply W1|apply W1].
Qed.

Lemma finished_blocks o : 0 <= o < i_size finished -> baddr V1 A1 (o / BSIZE) <> 0.
Proof.
  intros Ho. change (i_size finished) with (Z.max (i_size i) (off + Z.of_nat (length w))) in Ho. pose proof (of_size _ _ _ _ _ Hof).
  destruct (decide (o < i_size i)) as [Hlt|Hge]; [|apply (wr_in _ _ _ _ _ _ _ _ W1); lia].
  pose proof (of_blocks _ _ _ _ _ Hof o ltac:(lia)) as Hb. rewrite (wr_map _ _ _ _ _ _ _ _ W1); [done|apply BSIZE_index; lia|done].
Qed.

Lemma resized_step : tx_step p (k_set_inodes (<[ip := finished]> (k_inodes s)) s) resized.
Proof.
  unfold resized. pose proof (tx_step_inodes _ _ _ (<[ip := finished]> (k_inodes s1)) S1) as S1'.
  replace (k_set_inodes (<[ip := finished]> (k_inodes s)) s)
    with (k_set_inodes (<[ip := finished]> (k_inodes s1)) (set_addrs ip A1 s)); [done|].
  change (k_set_inodes ?x (set_addrs ip A1 s)) with (k_set_inodes x s). f_equal.
  rewrite (ts_inodes _ _ _ S1). cbn. apply list_eq. intros k.
  destruct (decide (ip = k)) as [<-|]; [|by rewrite !list_lookup_insert_ne, list_lookup_alter_ne by done].
  pose proof (af_ip _ _ _ _ _ _ _ _ (of_at _ _ _ _ _ Hof)). by rewrite !list_lookup_insert_eq by (rewrite ?length_alter; done).
Qed.

Definition stored : gmap Z (list Z) := put_inode sb V1 (i_inum i) finished.

Lemma stored_open s3 : tx_step p resized s3 -> tx p LS s3 (logged bl1 (IBLOCK (i_inum i) sb)) ∅ stored ->
  open_file s3 ip (logged bl1 (IBLOCK (i_inum i) sb)) stored finished.
Proof.
  intros S3 Tx3. pose proof Hof as [Hat Hi Hty Hnum HV HF Hsz Hbk]. pose proof resized_at_file as Hat2.
  pose proof (wr_ok _ _ _ _ _ _ _ _ W1) as HV1. pose proof (wr_file _ _ _ _ _ _ _ _ W1) as HF1.
  pose proof (fo_geo _ _ _ HV) as G. pose proof (layout _ _ G) as Hlay. destruct (IBLOCK_range LS sb G _ Hnum) as (Hib & _ & _).
  destruct (put_inode_ok LS sb G V1 _ finished HV1 Hnum finished_typed) as [Hok HV3].
  assert (Hi3 : k_inodes s3 !!! ip = finished) by (rewrite (ts_inodes _ _ _ S3); apply resized_inode).
  split; try done.
  - split; [exact Tx3| | | |]; rewrite ?Hi3; try done.
    + rewrite (ts_sb _ _ _ S3). apply Hat2.
    + rewrite (ts_inodes _ _ _ S3). apply Hat2.
    + rewrite <- resized_inode. apply Hat2.
  - apply finished_typed.
  - apply low_file; try done; lia.
  - cbn. lia.
  - intros o Ho. unfold stored, put_inode. rewrite low_baddr by (done || lia). by apply finished_blocks.
Qed.

Lemma stored_written s3 : tx_step p resized s3 -> tx p LS s3 (logged bl1 (IBLOCK (i_inum i) sb)) ∅ stored ->
  written s ip V i off w s3 (logged bl1 (IBLOCK (i_inum i) sb)) stored finished.
Proof.
  intros S3 Tx3. pose proof Hof as [Hat Hi Hty Hnum HV HF Hsz Hbk].
  pose proof (wr_ok _ _ _ _ _ _ _ _ W1) as HV1. pose proof (wr_file _ _ _ _ _ _ _ _ W1) as HF1. pose proof finished_typed as Hty2.
  pose proof (fo_geo _ _ _ HV) as G. pose proof (layout _ _ G) as Hlay. destruct (IBLOCK_range LS sb G _ Hnum) as (Hib & _ & _).
  assert (Hsz' : i_size finished <= MAXFILE * BSIZE) by (cbn; lia). unfold stored. split.
  - by apply stored_open.
  - etrans; [apply resized_step|done].
  - done.
  - unfold put_inode. rewrite low_content by (done || lia). by apply content_wrote.
  - rewrite (dinode_put LS sb G) by done. unfold finished, grown_inode. by destruct i.
  - intros x [Hx Hux] Hno. unfold put_inode. rewrite lookup_insert_ne by lia. by apply (wr_frame _ _ _ _ _ _ _ _ W1).
  - intros x Hx. unfold put_inode. rewrite lookup_insert_ne by lia. apply (wr_meta _ _ _ _ _ _ _ _ W1). lia.
  - apply logged_in. by right.
  - intros k j Hk Hne. rewrite (dinode_other LS sb G) by done. unfold dinode.
    rewrite !lookup_total_alt, (wr_meta _ _ _ _ _ _ _ _ W1); [done|]. by apply (IBLOCK_range LS sb G).
  - intros x Hx. apply (low_owned V1 A1) in Hx; [|done..|lia]. by apply (wr_owned _ _ _ _ _ _ _ _ W1).
  - intros x Hx. unfold put_inode. rewrite (used_low LS) by (done || lia). intros [?|?]%(wr_marked _ _ _ _ _ _ _ _ W1); [by left| |done].
    right. apply low_owned; [done..|lia|done].
  - intros x Hx Hux. unfold put_inode. rewrite (used_low LS) by (done || lia). by apply (wr_used _ _ _ _ _ _ _ _ W1).
Qed.

Lemma writei_finish (r : Z) : (length bl1 < 29)%nat ->
  exists s' bl' V' i', (i <- inode_at ip;;
    (when i_size i <? off + Z.of_nat (length w) do upd_inode ip (i_set_size (off + Z.of_nat (length w))));;
    iupdate ip;; ret r) s1 = Ok r s' /\
    (forall x, 0 <= x < sb_size sb -> used V' sb x = used V1 sb x) /\ written s ip V i off w s' bl' V' i'.
Proof.
  intros Hroom. pose proof (of_num _ _ _ _ _ Hof) as Hnum. pose proof (fo_geo _ _ _ (of_ok _ _ _ _ _ Hof)) as G.
  unfold inode_at. mred. rewrite finish_inode. mrun finish_size.
  destruct (iupdate_spec p LS sb resized ip bl1 V1 A1 resized_at_file) as (s3 & E3 & S3 & Tx3);
    [apply W1|lia|rewrite resized_inode; apply finished_typed|by rewrite resized_inode|].
  rewrite resized_inode in Tx3. mrun E3. change (i_inum finished) with (i_inum i) in Tx3.
  eexists s3, _, stored, finished. split; [done|]. split; [|by apply stored_written].
  intros x Hx. apply (used_low LS); [done| |done]. by apply (IBLOCK_range LS sb G).
Qed.

End Finish.

Lemma writei_spec s ip bl V i us src W off :
  open_file s ip bl V i -> sb_size sb <= BPB -> source s us src W -> Forall is_byte W ->
  0 <= off <= i_size i -> off + Z.of_nat (length W) <= MAXFILE * BSIZE ->
  Z.of_nat (length bl) + Z.of_nat (length W) / BSIZE <= 19 ->
  exists n s' bl' V' i', writei ip us src off (Z.of_nat (length W)) s = Ok n s' /\ 0 <= n <= Z.of_nat (length W) /\
    (n < Z.of_nat (length W) -> i_size i <= off + n /\ (n = 0 \/ (off + n) mod BSIZE = 0) /\
       forall x, 0 <= x < sb_size sb -> used V' sb x = true) /\
    written s ip V i off (take (Z.to_nat n) W) s' bl' V' i'.
Proof.
  intros [Hat Hi Hty Hnum HV HF Hsz Hbk] Hone Hsrc HW Hoff Hmax Hroom. pose proof (layout _ _ (fo_geo _ _ _ HV)) as Hlay.
  pose proof (it_size _ Hty). set (n := Z.of_nat (length W)) in *. assert (Hmf : MAXFILE * BSIZE = 274432) by reflexivity.
  unfold writei, inode_at. mred. rewrite Hi. rewrite u32_small by lia.
  rewrite (proj2 (Z.ltb_ge (i_size i) off)), (proj2 (Z.ltb_ge (off + n) off)) by lia. cbn [orb].
  rewrite (proj2 (Z.ltb_ge _ _) Hmax).
  pose proof (Z.div_pos n BSIZE ltac:(lia) ltac:(done)) as Hdiv.
  destruct (writei_loop_spec ip us src W off ltac:(lia) Hmax HW Hone (Z.to_nat (n / BSIZE + 2)) s bl V (i_addrs i) 0 [] bl)
    as (t & s1 & bl1 & V1 & A1 & T1 & E1 & [Ht S1 Tx1 W1 Hfull Htou Hlen]); try done.
  { lia. }
  { intros _. rewrite Z.add_0_r, Z2Nat.id by lia. unfold BSIZE in *. dlia. }
  { apply touched_refl. } { cbn [length]. lia. }
  rewrite !Z.add_0_r, (u64_small src) in E1 by apply Hsrc. fold n in E1. mrun E1.
  set (w := take (Z.to_nat t) W). assert (Hlw : Z.of_nat (length w) = t) by (unfold w; rewrite length_take; lia).
  replace (get_bytes W (Z.to_nat 0) (Z.to_nat (t - 0))) with w in W1 by (unfold w, get_bytes; by rewrite drop_0, Z.sub_0_r).
  rewrite Z.add_0_r in W1. pose proof (touched_length _ _ _ _ _ (tx_log _ _ _ _ _ _ Tx1) Htou) as Hlen1. cbn [length] in Hlen, Hlen1.
  destruct (writei_finish s ip bl V i s1 bl1 V1 A1 off w) with (r := s32 t) as (s2 & bl2 & V2 & i' & E2 & Hu & Hw); try done; try lia.
  rewrite Hlw in E2. exists t, s2, bl2, V2, i'. split; [rewrite <- (s32_small t) at 3 by lia; exact E2|]. split; [lia|].
  split; [|done]. intros Hlt. destruct (Hfull Hlt) as (Hb & ? & ?). split; [|split; [done|intros x Hx; rewrite Hu by done; auto]].
  destruct (decide (i_size i <= off + t)); [done|]. exfalso. apply (Hbk (off + t)); [lia|exact Hb].
Qed.

End FsRw.
