(* ===== verification/FsRead.v ===== *)
(** readi() of fs.c: the bytes of a file, delivered to kernel or user memory. *)

From S2P Require Import Prelude Riscv State Spinlock Kalloc Vm VmTable VmCopy Sched Sleeplock Printf PrintfSpec Bio BioSpec Log LogSpec FsTx Fs FsBlock FsFile FsInode FsRw.

(** ** Where the bytes go *)

(** The physical address of byte [j] of the destination; [us] tells whether
    [dst] is a user or a kernel address, as either_copyout() has it. *)
Definition cell (m : mem) (root us dst j : Z) : option Z :=
  if c_true us then ucell m root (dst + j) else Some (dst + j).

Section Sink.
Context `{L : Linker}.

(** [n] bytes at [dst] can be written, and are not part of the page table. *)
Record sink (m : mem) (root us dst n : Z) : Prop := {
  sk_range : 0 <= dst /\ dst + n <= 2 ^ 64;
  sk_cell j : 0 <= j < n -> is_Some (cell m root us dst j);
  sk_user : c_true us = true -> exists G, pt_inv m root G /\ safe_range m root G dst n
}.

(** [w] was stored at [dst + k], and nothing else. *)
Record delivered (m : mem) (root us dst n k : Z) (w : list Z) (m' : mem) : Prop := {
  dv_cell j : 0 <= j < n -> cell m' root us dst j = cell m root us dst j;
  dv_in j pa : 0 <= j < n -> cell m root us dst j = Some pa -> k <= j < k + Z.of_nat (length w) -> m' pa = w !!! Z.to_nat (j - k);
  dv_out j pa : 0 <= j < n -> cell m root us dst j = Some pa -> ~ k <= j < k + Z.of_nat (length w) -> m' pa = m pa;
  dv_frame a : (forall j, 0 <= j < n -> cell m root us dst j <> Some a) -> m' a = m a
}.

Lemma delivered_nil m root us dst n k : delivered m root us dst n k [] m.
Proof. split; try done. cbn [length]. intros; lia. Qed.

Lemma delivered_app m root us dst n k w1 w2 m1 m2 :
  delivered m root us dst n k w1 m1 -> delivered m1 root us dst n (k + Z.of_nat (length w1)) w2 m2 ->
  delivered m root us dst n k (w1 ++ w2) m2.
Proof.
  intros D1 D2. assert (Hc : forall j pa, 0 <= j < n -> cell m root us dst j = Some pa -> cell m1 root us dst j = Some pa).
  { intros j pa Hj. by rewrite (dv_cell _ _ _ _ _ _ _ _ D1). }
  split.
  - intros j Hj. by rewrite (dv_cell _ _ _ _ _ _ _ _ D2), (dv_cell _ _ _ _ _ _ _ _ D1).
  - intros j pa Hj Hp. rewrite length_app. intros Hk. destruct (decide (j < k + Z.of_nat (length w1))) as [Hlt|].
    + rewrite (dv_out _ _ _ _ _ _ _ _ D2 j pa), (dv_in _ _ _ _ _ _ _ _ D1 j pa) by (done || lia || by apply Hc).
      by rewrite lookup_total_app_l by lia.
    + rewrite (dv_in _ _ _ _ _ _ _ _ D2 j pa) by (done || lia || by apply Hc).
      rewrite lookup_total_app_r by lia. f_equal. lia.
  - intros j pa Hj Hp. rewrite length_app. intros Hk.
    rewrite (dv_out _ _ _ _ _ _ _ _ D2 j pa), (dv_out _ _ _ _ _ _ _ _ D1 j pa); try done; [lia|by apply Hc|lia].
  - intros a Ha. rewrite (dv_frame _ _ _ _ _ _ _ _ D2), (dv_frame _ _ _ _ _ _ _ _ D1); try done.
    intros j Hj. rewrite (dv_cell _ _ _ _ _ _ _ _ D1) by done. by apply Ha.
Qed.

Lemma safe_range_sub m root G va len k n : safe_range m root G va len -> 0 <= k -> k + n <= len ->
  safe_range m root G (va + k) n.
Proof.
  intros [H1 H2] Hk Hn. split.
  - intros i pa p x Hi Hc. rewrite <- Z.add_assoc in Hc. apply (H1 (k + i)); [lia|done].
  - intros i j pa Hi Hj Hci Hcj. rewrite <- Z.add_assoc in Hci, Hcj.
    pose proof (H2 (k + i) (k + j) pa ltac:(lia) ltac:(lia) Hci Hcj). lia.
Qed.

Lemma deliver_user p s us dst n k w len :
  running p s -> c_true us = true -> let root := p_pagetable (k_procs s !!! p) in sink (k_mem s) root us dst n ->
  0 <= k -> 0 < len <= Z.of_nat (length w) -> k + len <= n ->
  exists m', either_copyout us (u64 (dst + k)) w len s = Ok 0 (k_set_mem m' s) /\
    delivered (k_mem s) root us dst n k (take (Z.to_nat len) w) m' /\ sink m' root us dst n.
Proof.
  intros Hr Hus root [Hd Hc Hu] Hk Hlen Hkn. destruct (Hu Hus) as (G & HI & Hs). unfold cell in Hc. rewrite Hus in Hc.
  assert (Hva : forall j, 0 <= j < n -> dst + j < 2 ^ 38).
  { intros j Hj. destruct (Hc j Hj) as [pa Hpa]. unfold ucell in Hpa. rewrite MAXVA_val in Hpa.
    destruct (Z.leb_spec (2 ^ 38) (dst + j)); [done|lia]. }
  pose proof (Hva k ltac:(lia)). unfold either_copyout. mrun (myproc_eq s (rn_settled _ _ Hr)).
  rewrite (rn_cur _ _ Hr), Hus. unfold deref, proc_at. mred. fold root. rewrite u64_small by lia.
  destruct (copyout_loop_ok root G _ (dst + k) w len s ltac:(lia) ltac:(lia) (copy_fuel _ len ltac:(lia)) HI
    (safe_range_sub _ _ _ _ _ k len Hs Hk Hkn)) as (r & m' & E & [Hf Hcell Hres]).
  destruct Hres as [[-> Hres]|(_ & i & Hi & Hno)]; [|rewrite <- Z.add_assoc in Hno; destruct (Hc (k + i)) as [? ?]; [lia|congruence]].
  exists m'. split; [exact E|]. assert (Hlt : Z.of_nat (length (take (Z.to_nat len) w)) = len) by (rewrite length_take; lia).
  assert (Hframe : forall a, (forall j, 0 <= j < n -> ucell (k_mem s) root (dst + j) <> Some a) -> m' a = k_mem s a).
  { intros a Ha. apply Hf. intros i Hi. rewrite <- Z.add_assoc. apply Ha. lia. }
  split.
  - split; unfold cell; rewrite Hus, ?Hlt.
    + intros j Hj. apply Hcell. lia.
    + intros j pa Hj Hp Hin. destruct (Hres (j - k) ltac:(lia)) as (pa' & Hp' & Hb).
      replace (dst + k + (j - k)) with (dst + j) in Hp' by lia. assert (pa' = pa) as -> by congruence.
      symmetry. apply list_lookup_total_correct. by rewrite lookup_take_lt by lia.
    + intros j pa Hj Hp Hout. apply Hf. intros i Hi Hci. rewrite <- Z.add_assoc in Hci.
      pose proof (sr_inj _ _ _ _ _ Hs j (k + i) pa Hj ltac:(lia) Hp Hci). lia.
    + done.
  - split; [done| |].
    + intros j Hj. unfold cell. rewrite Hus, Hcell by lia. by apply Hc.
    + intros _. exists G. destruct (lookup_frame (k_mem s) m' root G HI) as (HI' & _ & _).
      { intros q x a Hq Ha. apply Hframe. intros j Hj Hcj. destruct (sr_table _ _ _ _ _ Hs j a q x Hj Hcj Hq); lia. }
      split; [done|]. destruct Hs as [H1 H2]. split.
      * intros i pa q x Hi. rewrite Hcell by lia. by apply H1.
      * intros i j pa Hi Hj. rewrite !Hcell by lia. by apply H2.
Qed.

Lemma deliver_kernel p s us root dst n k w len :
  running p s -> c_true us = false -> sink (k_mem s) root us dst n ->
  0 <= k -> 0 < len <= Z.of_nat (length w) -> k + len <= n ->
  exists m', either_copyout us (u64 (dst + k)) w len s = Ok 0 (k_set_mem m' s) /\
    delivered (k_mem s) root us dst n k (take (Z.to_nat len) w) m' /\ sink m' root us dst n.
Proof.
  intros Hr Hus [Hd Hc Hu] Hk Hlen Hkn. unfold either_copyout. mrun (myproc_eq s (rn_settled _ _ Hr)). rewrite Hus.
  rewrite u64_small by lia. set (w' := take (Z.to_nat len) w). exists (mem_write (k_mem s) (dst + k) w'). split; [done|].
  assert (Hlw : Z.of_nat (length w') = len) by (unfold w'; rewrite length_take; lia). unfold cell in *. rewrite Hus in *.
  split; split; unfold cell; rewrite ?Hus; try done.
  - intros j pa Hj [= <-] Hin. rewrite mem_write_in by lia. replace (Z.to_nat (dst + j - (dst + k))) with (Z.to_nat (j - k)) by lia.
    apply nth_lookup_Some. apply list_lookup_lookup_total_lt. lia.
  - intros j pa Hj [= <-] Hout. apply mem_write_out. lia.
  - intros a Ha. apply mem_write_out. destruct (decide (dst + k <= a < dst + k + len)); [|lia].
    exfalso. apply (Ha (a - dst)); [lia|]. f_equal. lia.
Qed.

Lemma deliver p s us dst n k w len :
  running p s -> let root := p_pagetable (k_procs s !!! p) in sink (k_mem s) root us dst n ->
  0 <= k -> 0 < len <= Z.of_nat (length w) -> k + len <= n ->
  exists m', either_copyout us (u64 (dst + k)) w len s = Ok 0 (k_set_mem m' s) /\
    delivered (k_mem s) root us dst n k (take (Z.to_nat len) w) m' /\ sink m' root us dst n.
Proof.
  intros Hr root. destruct (c_true us) eqn:Hus; [by apply deliver_user|by apply (deliver_kernel p)].
Qed.

End Sink.

(** ** readi() *)

Section FsRead.
Context `{L : Linker} `{D : BlockDev}.
Context (p : nat) (LS : Z) (sb : superblock).

(** A file that can be read: its blocks are there. *)
Record readable (R : gmap Z Z) (s : kstate) (ip : nat) (V : gmap Z (list Z)) (i : inode) : Prop := {
  re_rd : rd p s R V;
  re_inode : k_inodes s !!! ip = i;
  re_dev : i_dev i = ROOTDEV;
  re_ok : fs_ok LS sb V;
  re_file : file_ok sb V (i_addrs i);
  re_size : 0 <= i_size i <= MAXFILE * BSIZE;
  re_blocks o : 0 <= o < i_size i -> baddr V (i_addrs i) (o / BSIZE) <> 0
}.

Lemma readable_step R s s' ip V i : readable R s ip V i -> k_inodes s' = k_inodes s -> rd p s' R V -> readable R s' ip V i.
Proof. intros [? Hi ? ? ? ? ?] E Hrd. split; try done. by rewrite E. Qed.

Lemma open_readable s ip bl V i : open_file p LS sb s ip bl V i ->
  exists R, readable R s ip V i /\ forall blk, refs R blk = uses bl ∅ blk.
Proof.
  intros [Hat Hi Hty ? ? ? ? ?]. destruct (tx_rd _ _ _ _ _ (af_tx _ _ _ _ _ _ _ _ Hat)) as (R & Hrd & HR). exists R. split; [|done]. split; try done.
  - rewrite <- Hi. apply Hat.
  - split; [apply Hty|done].
Qed.

(** bmap() of a block that is there allocates nothing. *)
Lemma bmap_read R s ip V i bn :
  readable R s ip V i -> 0 <= bn < MAXFILE -> baddr V (i_addrs i) bn <> 0 ->
  exists s', bmap ip bn s = Ok (baddr V (i_addrs i) bn) s' /\ rd_step p s s' /\ rd p s' R V.
Proof.
  intros [Hrd Hi Hdev HV HF _ _] Hbn Hn. set (A := i_addrs i) in *. unfold bmap, inode_at. mred. rewrite Hi, Hdev. fold A.
  assert (Hb : baddr V A bn = if bn <? NDIRECT then A !!! Z.to_nat bn else
    if ind_of A =? 0 then 0 else ind_get (V !!! ind_of A) (bn - NDIRECT)) by done.
  destruct (Z.ltb_spec bn NDIRECT).
  { rewrite <- Hb, (proj2 (Z.eqb_neq _ _) Hn). exists s. split; [done|]. split; [reflexivity|done]. }
  rewrite (proj2 (Z.ltb_lt (bn - NDIRECT) NINDIRECT)) by (rewrite MAXFILE_val in Hbn; change NINDIRECT with 256; unfold NDIRECT in *; lia).
  change (A !!! Z.to_nat NDIRECT) with (ind_of A) in *. destruct (Z.eqb_spec (ind_of A) 0) as [E|E]; [by rewrite Hb in Hn|].
  mred. rewrite (proj2 (Z.eqb_neq _ _) E). destruct (fi_data _ _ _ HF (ind_of A)) as [Hr _]; [split; [done|by left]|].
  destruct (lookup_of_ok LS sb V _ HV Hr) as [Hd _].
  destruct (rd_bread p s R V _ _ Hrd Hd) as (b & s1 & E1 & S1 & Ed1 & _ & Hrel). mrun E1. unfold buf_at. mred.
  rewrite Ed1, <- Hb, (proj2 (Z.eqb_neq _ _) Hn). mred.
  destruct (Hrel (k_mem s1) (k_inodes s1)) as (s2 & E2 & S2 & R2). rewrite <- set_other_inodes in E2, S2.
  replace (k_set_inodes (k_inodes s1) s1) with s1 in E2, S2 by (by destruct s1).
  mrun E2. exists s2. split; [done|]. split; [by etrans|done].
Qed.

(** The bytes [off, off + n) of the file. *)
Definition fbytes (V : gmap Z (list Z)) (A : list Z) (off n : Z) : list Z :=
  (fun k => fbyte V A (off + Z.of_nat k)) <$> seq 0 (Z.to_nat n).

Lemma length_fbytes V A off n : length (fbytes V A off n) = Z.to_nat n.
Proof. unfold fbytes. by rewrite length_fmap, length_seq. Qed.

Lemma fbytes_app V A off n m : 0 <= n -> 0 <= m -> fbytes V A off (n + m) = fbytes V A off n ++ fbytes V A (off + n) m.
Proof.
  intros Hn Hm. unfold fbytes. rewrite Z2Nat.inj_add, seq_app, fmap_app by lia. f_equal.
  replace (0 + Z.to_nat n)%nat with (Z.to_nat n + 0)%nat by lia. rewrite <- (fmap_add_seq (Z.to_nat n) 0). rewrite <- list_fmap_compose. apply list_fmap_ext. intros k x _. cbn. f_equal. lia.
Qed.

(** Bytes of one block. *)
Lemma fbytes_block V A off m : 0 <= off -> 0 <= m -> off mod BSIZE + m <= BSIZE -> length (V !!! baddr V A (off / BSIZE)) = 1024%nat ->
  fbytes V A off m = take (Z.to_nat m) (drop (Z.to_nat (off mod BSIZE)) (V !!! baddr V A (off / BSIZE))).
Proof.
  intros Hoff Hm Hfit Hl. pose proof (Z.mod_pos_bound off BSIZE ltac:(done)). apply list_eq. intros k.
  destruct (decide (k < Z.to_nat m)%nat) as [Hk|Hk].
  - rewrite lookup_take_lt, lookup_drop by done. unfold fbytes. rewrite list_lookup_fmap, lookup_seq_lt by done. cbn. unfold fbyte.
    replace ((off + Z.of_nat k) / BSIZE) with (off / BSIZE) by (unfold BSIZE in *; dlia).
    replace ((off + Z.of_nat k) mod BSIZE) with (off mod BSIZE + Z.of_nat k) by (unfold BSIZE in *; dlia).
    rewrite Z2Nat.inj_add, Nat2Z.id by lia. symmetry. apply list_lookup_lookup_total_lt. unfold BSIZE in *. lia.
  - rewrite !lookup_ge_None_2; [done|rewrite length_take; lia|rewrite length_fbytes; lia].
Qed.

Lemma readi_loop_spec R ip us dst off0 n V i :
  0 <= off0 -> 0 <= n -> off0 + n <= i_size i ->
  forall f s t, readable R s ip V i -> let root := p_pagetable (k_procs s !!! p) in sink (k_mem s) root us dst n ->
  0 <= t <= n -> (t < n -> (off0 + t) mod BSIZE + (n - t) <= Z.of_nat f * BSIZE) ->
  exists s', readi_loop f ip us (u64 (dst + t)) (off0 + t) n t s = Ok n s' /\
    rd_step p (k_set_mem (k_mem s') s) s' /\ rd p s' R V /\
    delivered (k_mem s) root us dst n t (fbytes V (i_addrs i) (off0 + t) (n - t)) (k_mem s').
Proof.
  intros Hoff Hn0 Hmax. assert (Hmf : MAXFILE * BSIZE = 274432) by reflexivity.
  induction f as [|f IH]; intros s t Hre root Hs Ht Hf; pose proof Hre as [Hrd Hi Hdev HV HF Hsz Hbk];
    (destruct (decide (t = n)) as [->|Hne];
     [exists s; rewrite Z.sub_diag; cbn [readi_loop]; rewrite Z.ltb_irrefl; split; [done|]; split; [by destruct s|]; split; [done|]; apply delivered_nil|]).
  { specialize (Hf ltac:(lia)). pose proof (Z.mod_pos_bound (off0 + t) BSIZE ltac:(done)). lia. }
  cbn [readi_loop]. rewrite (proj2 (Z.ltb_lt t n)) by lia. specialize (Hf ltac:(lia)). set (off := off0 + t) in *.
  assert (Hbn : 0 <= off / BSIZE < MAXFILE) by (apply BSIZE_index; lia).
  set (r := baddr V (i_addrs i) (off / BSIZE)). assert (Hr0 : r <> 0) by (apply Hbk; lia).
  destruct (bmap_read R s ip V i (off / BSIZE) Hre Hbn Hr0) as (s1 & E1 & S1 & R1). mrun E1. fold r.
  rewrite (proj2 (Z.eqb_neq _ _) Hr0). unfold inode_at. mred. rewrite (ts_inodes _ _ _ (rs_tx _ _ _ S1)), Hi, Hdev.
  destruct (fi_data _ _ _ HF r (owned_baddr V _ _ Hbn Hr0)) as [Hr _].
  destruct (lookup_of_ok LS sb V _ HV Hr) as [Hd [Hlen _]].
  destruct (rd_bread p s1 R V _ _ R1 Hd) as (b & s2 & E2 & S2 & Ed2 & Hrun2 & Hrel). mrun E2. unfold buf_at. mred. rewrite Ed2.
  set (m := Z.min (n - t) (BSIZE - off mod BSIZE)). pose proof (Z.mod_pos_bound off BSIZE ltac:(done)) as Hmod.
  assert (Hm : 0 < m <= n - t /\ off mod BSIZE + m <= BSIZE) by lia.
  assert (S12 : rd_step p s s2) by by etrans.
  pose proof (fbytes_block V (i_addrs i) off m ltac:(lia) ltac:(lia) ltac:(lia) Hlen) as Hw. fold r in Hw.
  set (w := drop (Z.to_nat (off mod BSIZE)) (V !!! r)) in *.
  assert (Hlw : m <= Z.of_nat (length w)) by (unfold w; rewrite length_drop, Hlen; unfold BSIZE in *; lia).
  destruct (deliver p s2 us dst n t w m Hrun2) as (m' & E3 & Hdv & Hsk); rewrite ?(ts_proc _ _ _ (rs_tx _ _ _ S12)), ?(ts_mem _ _ _ (rs_tx _ _ _ S12)) in *;
    [done|lia|lia|lia|]. mrun E3. change (0 =? -1) with false. cbv iota. rewrite set_other_mem.
  destruct (Hrel m' (k_inodes s2)) as (s3 & E4 & S4 & R3). mrun E4. rewrite <- set_other_mem in S4.
  assert (Em : k_mem s3 = m') by (by rewrite (ts_mem _ _ _ (rs_tx _ _ _ S4))).
  assert (Ep : k_procs s3 !!! p = k_procs s !!! p) by (by rewrite (ts_proc _ _ _ (rs_tx _ _ _ S4)), <- (ts_proc _ _ _ (rs_tx _ _ _ S12))).
  rewrite u64_add, u32_small by (unfold BSIZE in *; lia).
  replace (dst + t + m) with (dst + (t + m)) by lia. replace (off + m) with (off0 + (t + m)) by lia.
  rewrite <- Hw in Hdv. fold root in Hdv, Hsk.
  destruct (IH s3 (t + m)) as (s4 & E5 & S5 & R4 & Hdv4); rewrite ?Ep, ?Em; try done.
  - apply (readable_step R s); [done| |done]. rewrite (ts_inodes _ _ _ (rs_tx _ _ _ S4)). cbn. by rewrite (ts_inodes _ _ _ (rs_tx _ _ _ S12)).
  - lia.
  - intros Hlt. replace (off0 + (t + m)) with (off + m) by lia. assert (m = BSIZE - off mod BSIZE) as E by lia.
    assert ((off + m) mod BSIZE = 0) as -> by (rewrite E; unfold BSIZE; dlia). lia.
  - exists s4. rewrite E5. split; [done|]. split; [|split; [done|]].
    + etrans; [|exact S5]. etrans; [exact (rd_step_mem _ _ _ _ S12)|exact (rd_step_mem _ _ _ (k_mem s4) S4)].
    + replace (n - t) with (m + (n - (t + m))) by lia. rewrite fbytes_app by lia. fold root in Hdv4. rewrite Ep in Hdv4. fold root in Hdv4.
      eapply delivered_app; [exact Hdv|]. rewrite length_fbytes, Z2Nat.id by lia. rewrite Em in Hdv4.
      replace (off + m) with (off0 + (t + m)) by lia. done.
Qed.

(** The part of a file that readi() is asked for. *)
Definition asked (i : inode) (off n : Z) : Z := Z.min n (i_size i - off).

Lemma fbytes_content V A off n size : 0 <= off -> 0 <= n -> off + n <= size ->
  fbytes V A off n = take (Z.to_nat n) (drop (Z.to_nat off) (content V A size)).
Proof.
  intros Hoff Hn Hs. apply list_eq. intros k. destruct (decide (k < Z.to_nat n)%nat) as [Hk|Hk].
  - rewrite lookup_take_lt, lookup_drop, content_lookup by lia. unfold fbytes.
    rewrite list_lookup_fmap, lookup_seq_lt by done. cbn. do 2 f_equal. lia.
  - rewrite !lookup_ge_None_2; [done|rewrite length_take; lia|rewrite length_fbytes; lia].
Qed.

Lemma readi_spec R s ip us dst off n V i :
  readable R s ip V i -> let root := p_pagetable (k_procs s !!! p) in
  0 <= off <= i_size i -> 0 <= n -> off + n < 2 ^ 32 -> sink (k_mem s) root us dst (asked i off n) -> 0 <= dst < 2 ^ 64 ->
  exists s', readi ip us dst off n s = Ok (asked i off n) s' /\ rd_step p (k_set_mem (k_mem s') s) s' /\ rd p s' R V /\
    delivered (k_mem s) root us dst (asked i off n) 0
      (take (Z.to_nat n) (drop (Z.to_nat off) (content V (i_addrs i) (i_size i)))) (k_mem s').
Proof.
  intros Hre root Hoff Hn Hmax Hs Hdst. pose proof (re_size _ _ _ _ _ Hre) as Hsz. pose proof (re_inode _ _ _ _ _ Hre) as Hi.
  assert (Hmf : MAXFILE * BSIZE = 274432) by reflexivity. unfold readi, inode_at. mred. rewrite Hi, u32_small by lia.
  rewrite (proj2 (Z.ltb_ge (i_size i) off)), (proj2 (Z.ltb_ge (off + n) off)) by lia. cbn [orb].
  assert (En : (if i_size i <? off + n then u32 (i_size i - off) else n) = asked i off n).
  { unfold asked. destruct (Z.ltb_spec (i_size i) (off + n)); [rewrite u32_small by lia; lia|lia]. }
  rewrite En. clear En. set (k := asked i off n) in *. assert (Hk : 0 <= k <= n /\ off + k <= i_size i) by (unfold k, asked; lia).
  pose proof (Z.div_pos k BSIZE ltac:(lia) ltac:(done)).
  destruct (readi_loop_spec R ip us dst off k V i ltac:(lia) ltac:(lia) ltac:(lia) (Z.to_nat (k / BSIZE + 2)) s 0 Hre Hs)
    as (s' & E & S & Hrd & Hdv).
  - lia.
  - intros _. rewrite Z.add_0_r, Z2Nat.id by lia. unfold BSIZE in *. dlia.
  - rewrite !Z.add_0_r, (u64_small dst) in E by lia. mrun E. rewrite s32_small by lia. exists s'.
    split; [done|]. split; [done|]. split; [done|]. rewrite Z.add_0_r, Z.sub_0_r in Hdv. fold root in Hdv.
    rewrite (fbytes_content _ _ _ _ (i_size i)) in Hdv by lia.
    replace (take (Z.to_nat n) (drop (Z.to_nat off) (content V (i_addrs i) (i_size i))))
      with (take (Z.to_nat k) (drop (Z.to_nat off) (content V (i_addrs i) (i_size i)))); [done|].
    destruct (decide (k = n)) as [->|]; [done|]. rewrite !take_ge; [done| |]; rewrite length_drop, length_content; unfold k, asked in *; lia.
Qed.

End FsRead.
