(* ===== verification/FsDir.v ===== *)
(** Directories: dirlookup() and dirlink() of fs.c against a directory as a
    list of entries, in which a name stands for an inode number. *)

From S2P Require Import Prelude Riscv StringC State Spinlock Kalloc Vm VmTable VmCopy Sched Sleeplock Printf PrintfSpec Bio BioSpec Log LogSpec FsTx Fs FsBlock FsFile FsInode FsRw FsRead.

(** ** A directory's contents *)

(** The name an entry or a caller means: up to DIRSIZ characters, ended by NUL. *)
Definition dname (name : list Z) : list Z := take DIRSIZ (cstr name).

Definition entry (c : list Z) (k : nat) : list Z := get_bytes c (16 * k) 16.
Definition entries (c : list Z) : list (list Z) := entry c <$> seq 0 (length c / 16).

Definition named (name e : list Z) : bool := negb (de_inum e =? 0) && bool_decide (dname (de_name e) = dname name).

(** The first entry with the name, and its inode number. *)
Fixpoint dir_find (es : list (list Z)) (name : list Z) (k : nat) : option (nat * Z) :=
  match es with
  | [] => None
  | e :: es => if named name e then Some (k, de_inum e) else dir_find es name (S k)
  end.

(** What the directory says about a name. *)
Definition dir_get (es : list (list Z)) (name : list Z) : option Z := snd <$> dir_find es name 0.

(** The first free entry, or the number of entries. *)
Fixpoint dir_free (es : list (list Z)) (k : nat) : nat :=
  match es with
  | [] => k
  | e :: es => if de_inum e =? 0 then k else dir_free es (S k)
  end.

Lemma dir_find_app es es' name k :
  dir_find (es ++ es') name k = match dir_find es name k with None => dir_find es' name (k + length es) | r => r end.
Proof.
  revert k. induction es as [|e es IH]; intros k; cbn [app dir_find length]; [by rewrite Nat.add_0_r|].
  destruct (named name e); [done|]. rewrite IH. by rewrite Nat.add_succ_r.
Qed.

Lemma dir_get_snd es name k : snd <$> dir_find es name k = dir_get es name.
Proof.
  unfold dir_get. generalize 0%nat. revert k. induction es as [|e es IH]; intros k j; [done|]. cbn [dir_find].
  by destruct (named name e).
Qed.

Lemma dir_find_none es name k : dir_find es name k = None <-> Forall (fun e => named name e = false) es.
Proof.
  revert k. induction es as [|e es IH]; intros k; cbn [dir_find]; [by split|]. rewrite Forall_cons, <- (IH (S k)).
  destruct (named name e); split; naive_solver.
Qed.

Lemma dir_free_spec es : forall k, let j := dir_free es k in
  (k <= j <= k + length es)%nat /\ (forall e, es !! (j - k)%nat = Some e -> de_inum e = 0) /\
  Forall (fun e => de_inum e <> 0) (take (j - k) es).
Proof.
  induction es as [|e es IH]; intros k; cbn [dir_free length].
  - split; [lia|]. split; [done|]. rewrite take_nil. constructor.
  - destruct (Z.eqb_spec (de_inum e) 0) as [E|E].
    + rewrite Nat.sub_diag. split; [lia|]. split; [by intros ? [= <-]|constructor].
    + destruct (IH (S k)) as (H1 & H2 & H3). set (j := dir_free es (S k)) in *. split; [lia|].
      replace (j - k)%nat with (S (j - S k)) by lia. split; [done|]. cbn [take]. by constructor.
Qed.

(** A free entry replaced by one for [name], which the directory did not have. *)
Lemma dir_get_set es k e name nm : dir_get es name = None -> named name e = true ->
  (forall x, es !! k = Some x -> de_inum x = 0) -> (k <= length es)%nat ->
  dir_get (take k es ++ e :: drop (S k) es) nm = if bool_decide (dname nm = dname name) then Some (de_inum e) else dir_get es nm.
Proof.
  intros Hn He Hk Hlen. unfold named in He. apply andb_true_iff in He as [Hi Hnm]. apply bool_decide_eq_true in Hnm.
  assert (Hes : Forall (fun x => named name x = false) es).
  { apply (dir_find_none es name 0). unfold dir_get in Hn. by destruct (dir_find es name 0). }
  unfold dir_get at 1. rewrite dir_find_app. cbn [dir_find]. unfold named at 1. rewrite Hi, Hnm. cbn [andb].
  rewrite (bool_decide_ext (dname name = dname nm) (dname nm = dname name)) by done. case_bool_decide as Hd.
  - assert (Hsame : forall x, named nm x = named name x) by (intros x; unfold named; by rewrite Hd).
    destruct (dir_find (take k es) nm 0) as [[j i]|] eqn:E; [|done]. exfalso.
    assert (dir_find (take k es) nm 0 = None) as E'; [|congruence]. apply dir_find_none.
    apply Forall_take. eapply Forall_impl; [exact Hes|]. intros x. by rewrite Hsame.
  - transitivity (dir_get (take k es ++ drop k es) nm); [|by rewrite take_drop]. unfold dir_get. rewrite dir_find_app.
    destruct (dir_find (take k es) nm 0); [done|]. destruct (drop k es) as [|x r] eqn:Ed.
    + rewrite (drop_ge es (S k)); [done|]. apply (f_equal length) in Ed. rewrite length_drop in Ed. cbn in Ed. lia.
    + assert (es !! k = Some x) as Hx. { rewrite <- (Nat.add_0_r k), <- lookup_drop, Ed. done. }
      assert (drop (S k) es = r) as ->. { replace (S k) with (k + 1)%nat by lia. by rewrite <- drop_drop, Ed. }
      cbn [dir_find]. assert (named nm x = false) as -> by (unfold named; by rewrite (Hk x Hx)).
      by rewrite !dir_get_snd.
Qed.

(** ** Entries in a file's bytes *)

Lemma entries_lookup c k : (16 * k + 16 <= length c)%nat -> entries c !! k = Some (entry c k).
Proof.
  intros Hk. unfold entries. rewrite list_lookup_fmap, lookup_seq_lt; [done|].
  apply (Nat.lt_le_trans _ (S k)); [lia|]. apply Nat.div_le_lower_bound; lia.
Qed.

Lemma length_entries c n : length c = (16 * n)%nat -> length (entries c) = n.
Proof. intros E. unfold entries. rewrite length_fmap, length_seq, E. rewrite Nat.mul_comm. by apply Nat.div_mul. Qed.

Lemma drop_entries c n k : length c = (16 * n)%nat -> (k < n)%nat -> drop k (entries c) = entry c k :: drop (S k) (entries c).
Proof. intros E Hk. apply drop_S. apply entries_lookup. lia. Qed.

Lemma named_namecmp name e : de_inum e <> 0 -> named name e = (namecmp name (de_name e) =? 0).
Proof.
  intros Hi. unfold named, namecmp. rewrite (proj2 (Z.eqb_neq _ _) Hi). cbn [negb andb].
  destruct (Z.eqb_spec (strncmp DIRSIZ name (de_name e)) 0) as [E|E].
  - apply bool_decide_eq_true. symmetry. by apply strncmp_zero.
  - apply bool_decide_eq_false. intros Hd. apply E, strncmp_zero. by symmetry.
Qed.

Lemma lookup_entry c k x : entry c k !! x = if decide (x < 16)%nat then c !! (16 * k + x)%nat else None.
Proof.
  unfold entry, get_bytes. case_decide; [by rewrite lookup_take_lt, lookup_drop|by rewrite lookup_take_ge by lia].
Qed.

(** An entry stored at place [k], which may be the end. *)
Lemma entries_overwrite c n k e : length c = (16 * n)%nat -> (k <= n)%nat -> length e = 16%nat ->
  entries (overwrite c (16 * k) e) = take k (entries c) ++ e :: drop (S k) (entries c).
Proof.
  intros Hc Hk He. pose proof (length_entries c n Hc) as Hn.
  assert (Hlo : length (overwrite c (16 * k) e) = (16 * Nat.max n (S k))%nat) by (rewrite length_overwrite; lia).
  assert (Hlr : length (take k (entries c) ++ e :: drop (S k) (entries c)) = Nat.max n (S k)).
  { rewrite length_app, length_take. cbn [length]. rewrite length_drop. lia. }
  apply list_eq_same_length with (Nat.max n (S k)); [done|by apply length_entries|]. intros j x y Hj.
  rewrite entries_lookup by lia. intros [= <-] Hy. apply list_eq. intros z. rewrite lookup_entry, lookup_overwrite by lia.
  destruct (decide (j = k)) as [->|Hne].
  { rewrite lookup_app_r in Hy by (rewrite length_take; lia). rewrite length_take, Nat.min_l, Nat.sub_diag in Hy by lia.
    injection Hy as <-. case_decide; [|rewrite lookup_ge_None_2; [done|lia]]. rewrite decide_True by lia. f_equal. lia. }
  assert (Ey : y = entry c j).
  { destruct (decide (j < k)%nat).
    - rewrite lookup_app_l, lookup_take_lt, entries_lookup in Hy by (rewrite ?length_take; lia). congruence.
    - rewrite lookup_app_r in Hy by (rewrite length_take; lia). rewrite length_take, Nat.min_l in Hy by lia.
      replace (j - k)%nat with (S (j - S k)) in Hy by lia. rewrite lookup_cons_ne_0 in Hy by done. cbn [pred] in Hy.
      rewrite lookup_drop in Hy. replace (S k + (j - S k))%nat with j in Hy by lia. rewrite entries_lookup in Hy by lia. congruence. }
  rewrite Ey, lookup_entry. case_decide; [|done]. rewrite decide_False by lia. done.
Qed.

(** ** The entry that dirlink() stores *)

Lemma strncpy_bytes n : forall t, Forall is_byte t -> Forall is_byte (strncpy n t).
Proof.
  induction n as [|n IH]; intros t Ht; [constructor|]. cbn [strncpy].
  destruct t as [|c t]; cbn [hd tail].
  - cbn. constructor; [unfold is_byte; lia|]. apply Forall_replicate. unfold is_byte. lia.
  - apply Forall_cons in Ht as [Hc Ht]. destruct (c_true c); [constructor; [done|by apply IH]|].
    constructor; [unfold is_byte; lia|]. apply Forall_replicate. unfold is_byte. lia.
Qed.

Lemma mk_dirent_spec inum name : 0 < inum < 2 ^ 16 -> Forall is_byte name ->
  let e := mk_dirent inum (strncpy DIRSIZ name) in
  length e = 16%nat /\ Forall is_byte e /\ de_inum e = inum /\ named name e = true.
Proof.
  intros Hi Hn e. destruct (strncpy_spec DIRSIZ name) as [Hl Hc]. unfold e, mk_dirent.
  assert (E1 : de_inum (le_bytes 2 inum ++ strncpy DIRSIZ name) = inum).
  { unfold de_inum. rewrite get_le_bytes. unfold get_bytes. rewrite drop_0, take_app_length' by (by rewrite length_le_bytes).
    rewrite le_value_bytes. apply Z.mod_small. change (256 ^ Z.of_nat 2) with (2 ^ 16). lia. }
  split; [by rewrite length_app, length_le_bytes, Hl|]. split.
  { apply Forall_app. split; [apply le_bytes_is_byte|by apply strncpy_bytes]. }
  split; [done|]. unfold named. rewrite E1, (proj2 (Z.eqb_neq _ _)) by lia. apply bool_decide_eq_true.
  unfold de_name, get_bytes. rewrite drop_app_length' by (by rewrite length_le_bytes). rewrite take_ge by lia.
  unfold dname. by rewrite Hc, take_take.
Qed.

Section FsDir.
Context `{L : Linker} `{D : BlockDev}.
Context (p : nat) (LS : Z) (sb : superblock).

(** Only the local [struct dirent] was stored to. *)
Definition scratch (s s' : kstate) : Prop := forall a, a < DE_ADDR \/ DE_ADDR + 16 <= a -> k_mem s' a = k_mem s a.

Lemma scratch_trans s1 s2 s3 : scratch s1 s2 -> scratch s2 s3 -> scratch s1 s3.
Proof. intros H1 H2 a Ha. by rewrite H2, H1. Qed.

Lemma read_dirent_spec R s dp V i n k :
  readable p LS sb R s dp V i -> i_size i = 16 * Z.of_nat n -> (k < n)%nat ->
  exists s', read_dirent dp (16 * Z.of_nat k) s = Ok (16, entry (content V (i_addrs i) (i_size i)) k) s' /\
    rd_step p (k_set_mem (k_mem s') s) s' /\ rd p s' R V /\ scratch s s'.
Proof.
  intros Hre Hn Hk. assert (Ha : asked i (16 * Z.of_nat k) DIRENT_SIZE = 16) by (unfold asked, DIRENT_SIZE; lia).
  pose proof (re_size _ _ _ _ _ _ _ _ Hre) as Hsz. assert (Hmf : MAXFILE * BSIZE = 274432) by reflexivity.
  destruct (readi_spec p LS sb R s dp 0 DE_ADDR (16 * Z.of_nat k) DIRENT_SIZE V i Hre) as (s' & E & S & Hrd & Hdv);
    rewrite ?Ha; [lia|done|unfold DIRENT_SIZE; lia| |done|].
  { split; [done|by eauto|done]. }
  rewrite Ha in *. unfold read_dirent. mrun E. exists s'. split; [|split; [done|]; split; [done|]].
  - unfold ret. do 2 f_equal. f_equal. set (c := content _ _ _) in *. replace (Z.to_nat (16 * Z.of_nat k)) with (16 * k)%nat in Hdv by lia.
    assert (Hle : length (entry c k) = 16%nat) by (apply length_get_bytes; unfold c; rewrite length_content; lia).
    change (take (Z.to_nat DIRENT_SIZE) (drop (16 * k) c)) with (entry c k) in Hdv.
    apply list_eq_same_length with 16%nat; [done|by rewrite length_mem_read|]. intros j x y Hj.
    rewrite mem_read_lookup by done. intros [= <-] Hy.
    rewrite (dv_in _ _ _ _ _ _ _ _ Hdv (Z.of_nat j)); [|lia|done|lia].
    replace (Z.to_nat (Z.of_nat j - 0)) with j by lia. by apply list_lookup_total_correct.
  - intros a Hout. apply (dv_frame _ _ _ _ _ _ _ _ Hdv). intros j Hj [= <-]. lia.
Qed.

Lemma dirlookup_loop_spec R dp V i n name :
  i_size i = 16 * Z.of_nat n -> let es := entries (content V (i_addrs i) (i_size i)) in
  forall f s k, readable p LS sb R s dp V i -> (k <= n)%nat -> (n - k <= f)%nat ->
  exists s', rd_step p (k_set_mem (k_mem s') s) s' /\ rd p s' R V /\ scratch s s' /\
    dirlookup_loop f dp name (16 * Z.of_nat k) s =
      match dir_find (drop k es) name k with
      | None => Ok None s'
      | Some (j, inum) => (ip <- iget ROOTDEV inum;; ret (Some (ip, 16 * Z.of_nat j))) s'
      end.
Proof.
  intros Hn es. assert (Hmf : MAXFILE * BSIZE = 274432) by reflexivity.
  assert (Hlc : length (content V (i_addrs i) (i_size i)) = (16 * n)%nat) by (rewrite length_content; lia).
  induction f as [|f IH]; intros s k Hre Hk Hf; pose proof Hre as [Hrd Hi Hdev HV HF Hsz Hbk];
    (destruct (decide (k = n)) as [->|Hne];
     [exists s; split; [by destruct s|]; split; [done|]; split; [done|];
      unfold es; rewrite drop_ge by (by rewrite (length_entries _ n)); cbn [dir_find dirlookup_loop]; unfold inode_at; mred;
      rewrite Hi, (proj2 (Z.ltb_ge _ _)) by lia; done|]).
  { lia. }
  unfold es. rewrite (drop_entries _ n) by (done || lia). fold es. set (c := content V (i_addrs i) (i_size i)) in *.
  cbn [dirlookup_loop dir_find]. unfold inode_at at 1. mred. rewrite Hi, (proj2 (Z.ltb_lt _ _)) by lia.
  destruct (read_dirent_spec R s dp V i n k Hre Hn ltac:(lia)) as (s1 & E1 & S1 & R1 & Hsc). fold c in E1. mrun E1.
  change (16 =? DIRENT_SIZE) with true. cbn [negb].
  assert (Hre1 : readable p LS sb R s1 dp V i).
  { apply (readable_step p LS sb R s); [done|by rewrite (ts_inodes _ _ _ (rs_tx _ _ _ S1))|done]. }
  assert (Hgo : exists s', rd_step p (k_set_mem (k_mem s') s) s' /\ rd p s' R V /\ scratch s s' /\
    dirlookup_loop f dp name (u32 (16 * Z.of_nat k + DIRENT_SIZE)) s1 =
      match dir_find (drop (S k) es) name (S k) with
      | None => Ok None s'
      | Some (j, inum) => (ip <- iget ROOTDEV inum;; ret (Some (ip, 16 * Z.of_nat j))) s'
      end).
  { destruct (IH s1 (S k) Hre1 ltac:(lia) ltac:(lia)) as (s' & S' & R' & Hsc' & E').
    exists s'. split; [|split; [done|]; split; [by eapply scratch_trans|]].
    - etrans; [|exact S']. exact (rd_step_mem _ _ _ (k_mem s') S1).
    - rewrite u32_small by (unfold DIRENT_SIZE; lia). unfold DIRENT_SIZE.
      replace (16 * Z.of_nat k + 16) with (16 * Z.of_nat (S k)) by lia. exact E'. }
  destruct (Z.eqb_spec (de_inum (entry c k)) 0) as [E0|E0].
  { assert (named name (entry c k) = false) as -> by (unfold named; by rewrite E0). exact Hgo. }
  rewrite named_namecmp by done. destruct (Z.eqb_spec (namecmp name (de_name (entry c k))) 0); [|exact Hgo].
  exists s1. split; [done|]. split; [done|]. split; [done|]. unfold inode_at. mred.
  by rewrite (re_inode _ _ _ _ _ _ _ _ Hre1), Hdev.
Qed.

(** A directory of [n] entries. *)
Definition dir_of (V : gmap Z (list Z)) (i : inode) : list (list Z) := entries (content V (i_addrs i) (i_size i)).
Definition is_dir (i : inode) (n : nat) : Prop := i_type i = T_DIR /\ i_size i = 16 * Z.of_nat n.

Lemma dirlookup_spec R s dp V i n name :
  readable p LS sb R s dp V i -> is_dir i n ->
  exists s', rd_step p (k_set_mem (k_mem s') s) s' /\ rd p s' R V /\ scratch s s' /\
    dirlookup dp name s =
      match dir_find (dir_of V i) name 0 with
      | None => Ok None s'
      | Some (j, inum) => (ip <- iget ROOTDEV inum;; ret (Some (ip, 16 * Z.of_nat j))) s'
      end.
Proof.
  intros Hre [Hty Hn]. pose proof (re_inode _ _ _ _ _ _ _ _ Hre) as Hi.
  destruct (dirlookup_loop_spec R dp V i n name Hn (Z.to_nat (i_size i / DIRENT_SIZE + 1)) s 0 Hre) as (s' & S & Hrd & Hsc & E).
  - lia.
  - unfold DIRENT_SIZE. rewrite Hn. dlia.
  - exists s'. split_and!; try done. unfold dirlookup, inode_at. mred. rewrite Hi, Hty. cbn [negb Z.eqb T_DIR].
    rewrite drop_0 in E. exact E.
Qed.

Lemma dirlink_find_spec R dp V i n :
  i_size i = 16 * Z.of_nat n -> let es := entries (content V (i_addrs i) (i_size i)) in
  forall f s k, readable p LS sb R s dp V i -> (k <= n)%nat -> (n - k <= f)%nat ->
  exists s', rd_step p (k_set_mem (k_mem s') s) s' /\ rd p s' R V /\ scratch s s' /\
    dirlink_find f dp (16 * Z.of_nat k) s = Ok (16 * Z.of_nat (dir_free (drop k es) k)) s'.
Proof.
  intros Hn es. assert (Hmf : MAXFILE * BSIZE = 274432) by reflexivity.
  assert (Hlc : length (content V (i_addrs i) (i_size i)) = (16 * n)%nat) by (rewrite length_content; lia).
  induction f as [|f IH]; intros s k Hre Hk Hf; pose proof Hre as [Hrd Hi Hdev HV HF Hsz Hbk];
    (destruct (decide (k = n)) as [->|Hne];
     [exists s; split; [by destruct s|]; split; [done|]; split; [done|];
      unfold es; rewrite drop_ge by (by rewrite (length_entries _ n)); cbn [dir_free dirlink_find]; unfold inode_at; mred;
      rewrite Hi, u32_small, (proj2 (Z.ltb_ge _ _)) by lia; done|]).
  { lia. }
  unfold es. rewrite (drop_entries _ n) by (done || lia). fold es. set (c := content V (i_addrs i) (i_size i)) in *.
  cbn [dirlink_find dir_free]. unfold inode_at at 1. mred. rewrite Hi, u32_small, (proj2 (Z.ltb_lt _ _)) by lia.
  destruct (read_dirent_spec R s dp V i n k Hre Hn ltac:(lia)) as (s1 & E1 & S1 & R1 & Hsc). fold c in E1. mrun E1.
  change (16 =? DIRENT_SIZE) with true. cbn [negb].
  destruct (Z.eqb_spec (de_inum (entry c k)) 0) as [E0|E0]; [by exists s1|].
  destruct (IH s1 (S k)) as (s' & S' & R' & Hsc' & E').
  { apply (readable_step p LS sb R s); [done|by rewrite (ts_inodes _ _ _ (rs_tx _ _ _ S1))|done]. }
  { lia. } { lia. }
  exists s'. split; [|split; [done|]; split; [by eapply scratch_trans|]].
  - etrans; [|exact S']. exact (rd_step_mem _ _ _ (k_mem s') S1).
  - unfold DIRENT_SIZE. replace (16 * Z.of_nat k + 16) with (16 * Z.of_nat (S k)) by lia. exact E'.
Qed.

(** A transaction goes on after reading. *)
Lemma open_after_read s s' dp bl V i R m : open_file p LS sb s dp bl V i -> (forall blk, refs R blk = uses bl ∅ blk) ->
  rd_step p (k_set_mem m s) s' -> rd p s' R V -> open_file p LS sb s' dp bl V i.
Proof.
  intros [[T Esb Hip Hdev HA] Hi ? ? ? ? ? ?] HR S Hrd.
  assert (Ei : k_inodes s' = k_inodes s) by (by rewrite (ts_inodes _ _ _ (rs_tx _ _ _ S))).
  split; try done; [|by rewrite Ei]. split; rewrite ?Ei; try done.
  - by apply (tx_after_read p LS s s' bl V R m).
  - by rewrite (ts_sb _ _ _ (rs_tx _ _ _ S)).
Qed.

Lemma open_set_mem s dp bl V i m : open_file p LS sb s dp bl V i -> open_file p LS sb (k_set_mem m s) dp bl V i.
Proof.
  intros Hof. destruct (tx_rd _ _ _ _ _ (af_tx _ _ _ _ _ _ _ _ (of_at _ _ _ _ _ _ _ _ Hof))) as (R & Hrd & HR).
  apply (open_after_read s _ dp bl V i R m); try done. rewrite set_other_mem. by apply rd_other.
Qed.

Lemma dir_of_written s1 dp V i n k w s' bl' V' i' :
  is_dir i n -> (k <= n)%nat -> written p LS sb s1 dp V i (16 * Z.of_nat k) w s' bl' V' i' ->
  (w = [] -> dir_of V' i' = dir_of V i /\ is_dir i' n) /\
  (length w = 16%nat -> dir_of V' i' = take k (dir_of V i) ++ w :: drop (S k) (dir_of V i) /\ is_dir i' (Nat.max n (S k))).
Proof.
  intros [Hty Hn] Hk Hw. pose proof (wn_inode _ _ _ _ _ _ _ _ _ _ _ _ _ Hw) as Ei. unfold dir_of.
  rewrite (wn_content _ _ _ _ _ _ _ _ _ _ _ _ _ Hw). replace (Z.to_nat (16 * Z.of_nat k)) with (16 * k)%nat by lia.
  assert (Hlc : length (content V (i_addrs i) (i_size i)) = (16 * n)%nat) by (rewrite length_content; lia).
  split.
  - intros ->. unfold overwrite. cbn [app length]. rewrite Nat.add_0_r, take_drop. split; [done|].
    rewrite Ei. split; [done|]. cbn. lia.
  - intros Hl. split; [by apply (entries_overwrite _ n)|]. rewrite Ei. split; [done|]. cbn. lia.
Qed.

(** The directory after dirlink() stored an entry for [name], and after it could not. *)
Definition linked (V : gmap Z (list Z)) (i : inode) (name : list Z) (inum : Z) (r : Z) (V' : gmap Z (list Z)) (i' : inode) : Prop :=
  (r = 0 /\ forall nm, dir_get (dir_of V' i') nm =
     if bool_decide (dname nm = dname name) then Some inum else dir_get (dir_of V i) nm) \/
  (r = -1 /\ dir_of V' i' = dir_of V i /\ forall x, 0 <= x < sb_size sb -> used V' sb x = true).

Lemma dirlink_spec s dp bl V i n name inum :
  open_file p LS sb s dp bl V i -> is_dir i n -> sb_size sb <= BPB -> (length bl <= 19)%nat ->
  16 * (Z.of_nat n + 1) <= MAXFILE * BSIZE -> Forall is_byte name -> 0 < inum < 2 ^ 16 -> dir_get (dir_of V i) name = None ->
  exists r s1 s' bl' V' i' k w, dirlink dp name inum s = Ok r s' /\ linked V i name inum r V' i' /\
    scratch s s1 /\ written p LS sb s1 dp V i k w s' bl' V' i'.
Proof.
  intros Hof Hdir Hone Hroom Hmax Hnm Hin Hnone. pose proof Hdir as [Hty Hn]. assert (Hmf : MAXFILE * BSIZE = 274432) by reflexivity.
  destruct (open_readable p LS sb s dp bl V i Hof) as (R & Hre & HR).
  destruct (dirlookup_spec R s dp V i n name Hre Hdir) as (s1 & S1 & R1 & Hsc1 & E1).
  assert (Hfind : dir_find (dir_of V i) name 0 = None) by (unfold dir_get in Hnone; by destruct (dir_find _ _ _)).
  rewrite Hfind in E1. pose proof (open_after_read _ _ _ _ _ _ _ _ Hof HR S1 R1) as Hof1.
  assert (Hre1 : readable p LS sb R s1 dp V i).
  { apply (readable_step p LS sb R s); [done|by rewrite (ts_inodes _ _ _ (rs_tx _ _ _ S1))|done]. }
  destruct (dirlink_find_spec R dp V i n Hn (Z.to_nat (i_size i / DIRENT_SIZE + 1)) s1 0 Hre1) as (s2 & S2 & R2 & Hsc2 & E2).
  { lia. } { unfold DIRENT_SIZE. rewrite Hn. dlia. }
  rewrite drop_0 in E2. fold (dir_of V i) in E2. pose proof (open_after_read _ _ _ _ _ _ _ _ Hof1 HR S2 R2) as Hof2.
  destruct (dir_free_spec (dir_of V i) 0) as (Hk & Hfree & _). set (k := dir_free (dir_of V i) 0) in *. rewrite Nat.sub_0_r in Hfree.
  assert (Hlen : length (dir_of V i) = n) by (apply length_entries; rewrite length_content; lia).
  unfold dirlink. mrun E1. unfold inode_at. mred. rewrite (re_inode _ _ _ _ _ _ _ _ Hre1). mrun E2.
  destruct (mk_dirent_spec inum name Hin Hnm) as (Hle & Hbe & Hie & Hne). set (e := mk_dirent inum (strncpy DIRSIZ name)) in *.
  set (s3 := k_set_mem (mem_write (k_mem s2) DE_ADDR e) s2). rewrite u32_small by lia.
  destruct (writei_spec p LS sb s3 dp bl V i 0 DE_ADDR e (16 * Z.of_nat k)) as (m & s4 & bl4 & V4 & i4 & E4 & Hm & Hshort & Hw);
    [by apply open_set_mem|done| |done|lia|rewrite Hle; lia|rewrite Hle; change (Z.of_nat 16 / BSIZE) with 0; lia|].
  { split; [done|]. cbn [c_true Z.eqb negb]. split; [apply mem_read_write|rewrite Hle; done]. }
  rewrite Hle in *. change (Z.of_nat 16) with DIRENT_SIZE in E4. mrun E4.
  assert (Hm16 : m = 0 \/ m = 16).
  { destruct (decide (m = 16)); [by right|]. left. destruct (Hshort ltac:(lia)) as (_ & [?|Hz] & _); [done|].
    unfold BSIZE in Hz. Z.div_mod_to_equations. lia. }
  destruct (dir_of_written _ _ _ _ n k _ _ _ _ _ Hdir ltac:(lia) Hw) as [H0 H16].
  assert (Hsc : scratch s s3).
  { intros a Ha. change (k_mem s3) with (mem_write (k_mem s2) DE_ADDR e). rewrite mem_write_out by (rewrite Hle; lia). by apply (scratch_trans s s1 s2). }
  exists (if negb (m =? DIRENT_SIZE) then -1 else 0), s3, s4, bl4, V4, i4, (16 * Z.of_nat k), (take (Z.to_nat m) e).
  split; [by destruct (m =? DIRENT_SIZE)|]. split; [|done]. destruct Hm16 as [-> | ->].
  - right. split; [done|]. split; [by apply H0|]. by apply Hshort.
  - left. split; [done|]. intros nm. destruct H16 as [-> _]; [by rewrite length_take, Hle|].
    change (Z.to_nat 16) with 16%nat. rewrite (take_ge e) by lia. rewrite (dir_get_set _ k e name nm Hnone Hne Hfree) by lia. by rewrite Hie.
Qed.

End FsDir.
