(* ===== verification/FsDisk.v ===== *)
(** A file as the disk holds it, and what writing to it changes.

    [file_data] follows the on-disk inode to the bytes of the file. The
    predicates of FsBlock, FsFile and FsInode read no block of the log, so two
    disks that agree elsewhere hold the same files. [rewritten] is the effect
    of a write on the disk: the file's bytes change as [overwrite] says, every
    other inode and every block of another file stays. *)

From S2P Require Import Prelude Riscv State Spinlock Kalloc Vm Sched Sleeplock Bio BioSpec Log LogSpec FsTx FsOp Fs FsBlock FsFile FsInode FsRw.

(** ** Disks that agree outside the log *)

Section Agree.
Context (LS : Z) (sb : superblock) (d d' : gmap Z (list Z)) (G : geometry LS sb) (HA : agree LS d' d).

Lemma agree_data x : sb_data sb <= x -> d' !! x = d !! x.
Proof. intros Hx. pose proof (layout _ _ G). apply HA. lia. Qed.

Lemma agree_used x : 0 <= x < sb_size sb -> used d' sb x = used d sb x.
Proof.
  intros Hx. unfold used. pose proof (layout _ _ G). destruct (BBLOCK_range LS sb G x Hx) as [? _].
  rewrite (agree_total LS d' d) by (done || lia). done.
Qed.

Lemma agree_dinode n j : 0 <= n < sb_ninodes sb -> dinode d' sb n j = dinode d sb n j.
Proof.
  intros Hn. unfold dinode. pose proof (layout _ _ G). destruct (IBLOCK_range LS sb G n Hn) as [? _].
  rewrite (agree_total LS d' d) by (done || lia). done.
Qed.

Lemma agree_data_block x : data_block sb d' x <-> data_block sb d x.
Proof. unfold data_block. pose proof (layout _ _ G). split; intros [Hx Hu]; (split; [done|]); rewrite agree_used in *; (done || lia). Qed.

Section File.
Context (A : list Z) (HF : file_ok sb d A).

Lemma agree_block x : owned d A x -> d' !!! x = d !!! x.
Proof. intros Hx. destruct (fi_data _ _ _ HF x Hx) as [? _]. by rewrite !lookup_total_alt, agree_data by lia. Qed.

Lemma agree_baddr bn : baddr d' A bn = baddr d A bn.
Proof. apply baddr_same. intros Hn. apply agree_block. split; [done|by left]. Qed.

Lemma agree_owned x : owned d' A x <-> owned d A x.
Proof. unfold owned. by setoid_rewrite agree_baddr. Qed.

Lemma agree_file : file_ok sb d' A.
Proof.
  split; [apply HF| | |].
  - intros x Hx%agree_owned. by apply agree_data_block, HF.
  - intros bn bn'. rewrite !agree_baddr. apply (fi_inj _ _ _ HF).
  - intros bn. rewrite agree_baddr. apply (fi_ind _ _ _ HF).
Qed.

Lemma agree_content size : size <= MAXFILE * BSIZE -> (forall o, 0 <= o < size -> baddr d A (o / BSIZE) <> 0) ->
  content d' A size = content d A size.
Proof.
  intros Hs Hb. unfold content. apply list_fmap_ext. intros k x Hx%lookup_seq. unfold fbyte. rewrite agree_baddr, agree_block; [done|].
  apply owned_baddr; [apply BSIZE_index; lia|apply Hb; lia].
Qed.

End File.

Lemma agree_fs_ok : fs_ok LS sb d -> log_area d' LS -> (forall blk x, d' !! blk = Some x -> block_ok x) -> fs_ok LS sb d'.
Proof.
  intros [_ Hfull Hmeta] Ha Hd. pose proof (layout _ _ G) as Hlay. split; [done| |].
  - intros b Hb. destruct (decide (LS <= b < LS + LOGSIZE)) as [Hin|Hout].
    + destruct (Ha (b - LS)) as (x & Hx & _); [lia|]. replace (LS + (b - LS)) with b in Hx by lia. eauto.
    + rewrite HA by lia. by apply Hfull.
  - intros b Hb. rewrite agree_used by lia. by apply Hmeta.
Qed.

End Agree.

Section Disk.
Context (LS : Z) (sb : superblock).

(** ** The file of an inode number *)

Definition disk_inode (d : gmap Z (list Z)) (inum : Z) : inode := dinode d sb inum inhabitant.
Definition file_data (d : gmap Z (list Z)) (inum : Z) : list Z := content d (i_addrs (disk_inode d inum)) (i_size (disk_inode d inum)).

Record sound_file (d : gmap Z (list Z)) (inum : Z) : Prop := {
  so_num : 0 <= inum < sb_ninodes sb;
  so_ok : fs_ok LS sb d;
  so_file : file_ok sb d (i_addrs (disk_inode d inum));
  so_size : 0 <= i_size (disk_inode d inum) <= MAXFILE * BSIZE;
  so_blocks o : 0 <= o < i_size (disk_inode d inum) -> baddr d (i_addrs (disk_inode d inum)) (o / BSIZE) <> 0
}.

(** The disk part of a cached inode. *)
Lemma disk_inode_of d inum i : dinode d sb inum i = i ->
  i_addrs (disk_inode d inum) = i_addrs i /\ i_size (disk_inode d inum) = i_size i.
Proof. intros E. rewrite <- E. done. Qed.

Lemma file_data_of d inum i : dinode d sb inum i = i -> file_data d inum = content d (i_addrs i) (i_size i).
Proof. intros E. destruct (disk_inode_of _ _ _ E) as [Ea Es]. unfold file_data. by rewrite Ea, Es. Qed.

Lemma length_file_data d inum : length (file_data d inum) = Z.to_nat (i_size (disk_inode d inum)).
Proof. apply length_content. Qed.

Lemma agree_file_data d d' inum : agree LS d' d -> sound_file d inum -> file_data d' inum = file_data d inum.
Proof.
  intros HA [Hn HV HF Hs Hb]. pose proof (fo_geo _ _ _ HV) as G. unfold file_data, disk_inode. rewrite (agree_dinode LS sb d d' G HA) by done.
  apply (agree_content LS sb d d' G HA); [done|apply Hs|done].
Qed.

Lemma agree_sound d d' inum : agree LS d' d -> log_area d' LS -> (forall blk x, d' !! blk = Some x -> block_ok x) ->
  sound_file d inum -> sound_file d' inum.
Proof.
  intros HA Hl Hd [Hn HV HF Hs Hb]. pose proof (fo_geo _ _ _ HV) as G.
  assert (E : disk_inode d' inum = disk_inode d inum) by by apply (agree_dinode LS sb d d' G HA).
  split; rewrite ?E; try done; [by apply (agree_fs_ok LS sb d d' G HA)|by apply (agree_file LS sb d d' G HA)|].
  intros o Ho. rewrite (agree_baddr LS sb d d' G HA) by done. by apply Hb.
Qed.

(** ** Writes *)

Record rewritten (inum : Z) (off : nat) (w : list Z) (d d' : gmap Z (list Z)) : Prop := {
  rw_data : file_data d' inum = overwrite (file_data d inum) off w;
  rw_inodes n j : 0 <= n < sb_ninodes sb -> n <> inum -> dinode d' sb n j = dinode d sb n j;
  rw_blocks x : data_block sb d x -> ~ owned d (i_addrs (disk_inode d inum)) x ->
    d' !! x = d !! x /\ data_block sb d' x /\ ~ owned d' (i_addrs (disk_inode d' inum)) x
}.

Lemma rewritten_refl inum off d : rewritten inum off [] d d.
Proof. split; [by rewrite overwrite_nil|done|done]. Qed.

Lemma rewritten_app inum off w1 w2 d d1 d2 : (off <= length (file_data d inum))%nat ->
  rewritten inum off w1 d d1 -> rewritten inum (off + length w1) w2 d1 d2 -> rewritten inum off (w1 ++ w2) d d2.
Proof.
  intros Ho [D1 I1 B1] [D2 I2 B2]. split.
  - rewrite D2, D1. by apply overwrite_app.
  - intros n j Hn Hne. rewrite I2 by done. by apply I1.
  - intros x Hx Ho1. destruct (B1 x Hx Ho1) as (E1 & Hx1 & Ho2). destruct (B2 x Hx1 Ho2) as (E2 & Hx2 & Ho3). by rewrite E2.
Qed.

Lemma rewritten_agree inum off w d d1 d2 : sound_file d1 inum -> agree LS d2 d1 -> rewritten inum off w d d1 -> rewritten inum off w d d2.
Proof.
  intros So HA [D1 I1 B1]. pose proof So as [Hn HV HF _ _]. pose proof (fo_geo _ _ _ HV) as G. pose proof (layout _ _ G).
  assert (E : disk_inode d2 inum = disk_inode d1 inum) by by apply (agree_dinode LS sb d1 d2 G HA). split.
  - by rewrite (agree_file_data d1 d2).
  - intros n j Hk Hne. rewrite (agree_dinode LS sb d1 d2 G HA) by done. by apply I1.
  - intros x Hx Ho. destruct (B1 x Hx Ho) as (E1 & Hx1 & Ho2). split; [|split].
    + rewrite (agree_data LS sb d1 d2 G HA); [done|]. by destruct Hx as [? _]; lia.
    + by apply (agree_data_block LS sb d1 d2 G HA).
    + rewrite E. by rewrite (agree_owned LS sb d1 d2 G HA).
Qed.

End Disk.

(** ** The inode table and the disk *)

Section Rest.
Context `{L : Linker} `{D : BlockDev}.
Context (p : nat) (LS : Z) (sb : superblock).

(** An inode in the table, unlocked and up to date. *)
Record cached (s : kstate) (ip : nat) (i : inode) : Prop := {
  cd_ip : (ip < length (k_inodes s))%nat;
  cd_inode : k_inodes s !!! ip = i;
  cd_dev : i_dev i = ROOTDEV;
  cd_ref : 1 <= i_ref i;
  cd_free : sl_locked (i_lock i) = 0;
  cd_valid : i_valid i <> 0;
  cd_typed : inode_typed i;
  cd_disk : dinode (disk s) sb (i_inum i) i = i;
  cd_sound : sound_file LS sb (disk s) (i_inum i)
}.

(** The file system between two system calls. *)
Record at_rest (s : kstate) : Prop := {
  ar_idle : idle p LS s;
  ar_sb : k_sb s = sb
}.

Lemma sound_of_open s ip bl V i : open_file p LS sb s ip bl V i -> dinode V sb (i_inum i) i = i -> sound_file LS sb V (i_inum i).
Proof.
  intros [Hat Hi Hty Hnum HV HF Hsz Hbk] E. destruct (disk_inode_of _ _ _ _ E) as [Ea Es]. pose proof (it_size _ Hty).
  split; rewrite ?Ea, ?Es; try done; lia.
Qed.

Lemma written_rewritten s ip V i off w s' bl' V' i' : dinode V sb (i_inum i) i = i ->
  written p LS sb s ip V i off w s' bl' V' i' -> rewritten sb (i_inum i) (Z.to_nat off) w V V'.
Proof.
  intros E [Ho _ Hi Hc Hd Hb _ _ Hn Ht _ Hu]. split.
  - rewrite (file_data_of _ _ _ _ Hd), (file_data_of _ _ _ _ E). done.
  - done.
  - destruct (disk_inode_of _ _ _ _ E) as [-> _], (disk_inode_of _ _ _ _ Hd) as [-> _].
    intros x [Hx Hux] Hno. split; [by apply Hb|]. pose proof (fo_geo _ _ _ (of_ok _ _ _ _ _ _ _ _ Ho)) as G. pose proof (layout _ _ G).
    split; [split; [done|apply Hu; [lia|done]]|]. intros [?|?]%Ht; congruence.
Qed.

(** The transaction as writei() finds it: begin_op() and ilock() have run. *)
Definition entered (s : kstate) (ip : nat) (i : inode) : kstate :=
  k_set_inodes (<[ip := i]> (k_inodes s)) (k_set_log (l_set_outstanding 1 (k_log s)) s).

Lemma entered_open s ip i l : at_rest s -> cached s ip i ->
  open_file p LS sb (entered s ip (i_set_lock l i)) ip [] (disk s) (i_set_lock l i).
Proof.
  intros [Hid Hsb] [Hip Hi Hd _ _ _ Hty Hdk [Hn HV HF Hs Hb]]. destruct (disk_inode_of _ _ _ _ Hdk) as [Ea Es].
  rewrite Ea in HF, Hb. rewrite Es in Hs, Hb. destruct (begin_op_spec p LS s Hid) as [_ T].
  assert (Ei : k_inodes (entered s ip (i_set_lock l i)) !!! ip = i_set_lock l i) by by apply list_lookup_total_insert_eq.
  split; try done; [|by destruct Hty|apply Hs]. split; rewrite ?Ei; try done; [|cbn; by rewrite length_insert].
  apply tx_inodes. exact T.
Qed.

End Rest.
