(* ===== verification/FsExample.v ===== *)
(** A small file system, on which the theorems about fs.c and file.c are
    evaluated: 60 blocks, a directory with the entries "." and "a", the file
    "a" of five bytes, and a file of 5000 bytes that has no name. *)

From S2P Require Import Prelude Riscv State Spinlock Kalloc Vm VmTable VmCopy Sched Sleeplock Bio BioSpec Log LogSpec FsTx FsOp Fs FsBlock FsFile FsInode FsRw FsDisk.

Module FsExample.
Import RamDisk.

Definition sb0 : superblock := mkSb FSMAGIC 60 25 16 30 2 32 34.

Definition dir_inode : inode := mkInode ROOTDEV 1 1 (mkSl 0 0) 1 T_DIR 0 0 1 32 (36 :: replicate 12 0).
Definition file_inode : inode := mkInode ROOTDEV 2 1 (mkSl 0 0) 1 T_FILE 0 0 1 5 (35 :: replicate 12 0).
Definition big_inode : inode := mkInode ROOTDEV 3 1 (mkSl 0 0) 1 T_FILE 0 0 1 5000 ([37; 38; 39; 40; 41] ++ replicate 8 0).

Definition block_of (bs : list Z) : list Z := bs ++ replicate (1024 - length bs) 0.
Definition inode_block : list Z := 
  put_dinode (put_dinode (put_dinode zeros_block (dinode_off 1) dir_inode) (dinode_off 2) file_inode) (dinode_off 3) big_inode.
Definition bitmap : list Z := block_of [255; 255; 255; 255; 255; 3].
Definition hello : list Z := block_of [104; 101; 108; 108; 111].
Definition dir_block : list Z := block_of ([1; 0; 46] ++ replicate 13 0 ++ [2; 0; 97]).

Definition disk0 : gmap Z (list Z) := <[36 := dir_block]> (<[35 := hello]> (<[34 := bitmap]> (<[32 := inode_block]> (zeros 60)))).

(** A page table that maps the page at address 0, with "hi" at 16. *)
Definition root : Z := KERNBASE + 4 * PGSIZE.
Definition pte (pa fl : Z) : Z := Z.lor (PA2PTE pa) fl.
Definition mem0 : mem :=
  let m := store 8 (fun _ => 0) root (pte (root + PGSIZE) PTE_V) in
  let m := store 8 m (root + PGSIZE) (pte (root + 2 * PGSIZE) PTE_V) in
  let m := store 8 m (root + 2 * PGSIZE) (pte (root + 3 * PGSIZE) (Z.lor PTE_V (Z.lor PTE_U PTE_W))) in
  mem_write m (root + 3 * PGSIZE + 16) [104; 105].

(** ** The disk *)

Definition byte_okb (b : Z) : bool := (0 <=? b) && (b <? 256).
Definition block_okb (d : list Z) : bool := Nat.eqb (length d) 1024 && forallb byte_okb d.

Lemma block_okb_ok d : block_okb d = true -> block_ok d.
Proof.
  unfold block_okb. rewrite andb_true_iff, Nat.eqb_eq, forallb_forall. intros [Hl Hb]. split; [done|].
  apply Forall_forall. intros x Hx%list_elem_of_In%Hb. unfold byte_okb in Hx. unfold is_byte.
  rewrite andb_true_iff, Z.leb_le, Z.ltb_lt in Hx. done.
Qed.

Lemma disk0_blocks b d : disk0 !! b = Some d -> 0 <= b < 60 /\ block_ok d.
Proof.
  unfold disk0. destruct (decide (b = 36)) as [->|?]; [rewrite lookup_insert_eq|rewrite lookup_insert_ne by done].
  { intros [= <-]. split; [lia|]. by apply block_okb_ok; vm_compute. }
  destruct (decide (b = 35)) as [->|?]; [rewrite lookup_insert_eq|rewrite lookup_insert_ne by done].
  { intros [= <-]. split; [lia|]. by apply block_okb_ok; vm_compute. }
  destruct (decide (b = 34)) as [->|?]; [rewrite lookup_insert_eq|rewrite lookup_insert_ne by done].
  { intros [= <-]. split; [lia|]. by apply block_okb_ok; vm_compute. }
  destruct (decide (b = 32)) as [->|?]; [rewrite lookup_insert_eq|rewrite lookup_insert_ne by done].
  { intros [= <-]. split; [lia|]. by apply block_okb_ok; vm_compute. }
  intros E. apply lookup_gset_to_gmap_Some in E as [Hb%elem_of_list_to_set%elem_of_seqZ <-]. split; [lia|]. by apply block_okb_ok; vm_compute.
Qed.

Lemma disk0_full b : 0 <= b < 60 -> is_Some (disk0 !! b).
Proof.
  intros Hb. unfold disk0. repeat (apply lookup_insert_is_Some'; right). by rewrite zeros_lookup.
Qed.

Lemma disk0_log b : 2 <= b < 32 -> disk0 !! b = Some (replicate 1024 0).
Proof. intros Hb. unfold disk0. rewrite !lookup_insert_ne by lia. apply zeros_lookup. lia. Qed.

Lemma used_below b : 0 <= b < 42 -> used disk0 sb0 b = true.
Proof.
  intros Hb. assert (Hall : forallb (fun b => used disk0 sb0 b) (seqZ 0 42) = true) by by vm_compute.
  apply (proj1 (forallb_forall _ _) Hall). apply list_elem_of_In, elem_of_seqZ. lia.
Qed.

Lemma geometry0 : geometry 2 sb0.
Proof. by split. Qed.

Lemma fs_ok0 : fs_ok 2 sb0 disk0.
Proof.
  split; [apply geometry0| |].
  - intros b Hb. destruct (disk0_full b Hb) as [d Hd]. exists d. split; [done|]. by apply (disk0_blocks b).
  - intros b Hb. apply used_below. change (sb_data sb0) with 35 in Hb. lia.
Qed.

(** ** Files of one block *)

Lemma baddr_one V a bn : 0 <= bn < MAXFILE -> baddr V (a :: replicate 12 0) bn = if bn =? 0 then a else 0.
Proof.
  intros Hbn. unfold baddr. destruct (Z.ltb_spec bn NDIRECT) as [Hd|Hd]; [|destruct (Z.eqb_spec bn 0); [unfold NDIRECT in Hd; lia|done]].
  destruct (Z.eqb_spec bn 0) as [->|Hn]; [done|]. replace (Z.to_nat bn) with (S (Z.to_nat (bn - 1))) by lia.
  change ((a :: ?l) !!! S ?k) with (l !!! k). rewrite lookup_total_replicate_2; [done|]. unfold NDIRECT in Hd. lia.
Qed.

Lemma file_one V a : 35 <= a < 60 -> used V sb0 a = true -> file_ok sb0 V (a :: replicate 12 0).
Proof.
  intros Ha Hu. split; [done| | |].
  - intros x [Hx [->|(bn & Hbn & ->)]]; [done|]. rewrite baddr_one in * by done. destruct (bn =? 0); [by split|done].
  - intros bn bn' Hbn Hbn'. rewrite !baddr_one by done. destruct (Z.eqb_spec bn 0), (Z.eqb_spec bn' 0); lia.
  - intros bn Hbn. rewrite !baddr_one by done. done.
Qed.

Lemma sound_one V n a sz : 0 <= n < 16 -> fs_ok 2 sb0 V -> 35 <= a < 60 -> used V sb0 a = true -> 0 <= sz < 1024 ->
  i_addrs (disk_inode sb0 V n) = a :: replicate 12 0 /\ i_size (disk_inode sb0 V n) = sz -> sound_file 2 sb0 V n.
Proof.
  intros Hn HV Ha Hu Hsz [Ea Es]. assert (Hmf : MAXFILE * BSIZE = 274432) by reflexivity.
  split; rewrite ?Ea, ?Es; [exact Hn|exact HV|by apply file_one|lia|].
  intros o Ho. rewrite Z.div_small by (unfold BSIZE; lia). rewrite baddr_one by (split; reflexivity || done). cbn. lia.
Qed.

Lemma sound_file0 : sound_file 2 sb0 disk0 2.
Proof. apply (sound_one disk0 2 35 5); [lia|apply fs_ok0|lia|by apply used_below|lia|by vm_compute]. Qed.

Lemma sound_dir0 : sound_file 2 sb0 disk0 1.
Proof. apply (sound_one disk0 1 36 32); [lia|apply fs_ok0|lia|by apply used_below|lia|by vm_compute]. Qed.

(** The file of five blocks. *)
Lemma baddr_big V bn : 0 <= bn < MAXFILE -> baddr V (i_addrs big_inode) bn = if bn <? 5 then 37 + bn else 0.
Proof.
  intros Hbn. unfold baddr. destruct (Z.ltb_spec bn NDIRECT) as [Hd|Hd]; unfold NDIRECT in Hd; [|by rewrite (proj2 (Z.ltb_ge _ _)) by lia].
  assert (Hall : forallb (fun k => (i_addrs big_inode !!! Z.to_nat k) =? (if k <? 5 then 37 + k else 0)) (seqZ 0 12) = true) by by vm_compute.
  apply Z.eqb_eq, (proj1 (forallb_forall _ _) Hall), list_elem_of_In, elem_of_seqZ. lia.
Qed.

Lemma sound_big0 : sound_file 2 sb0 disk0 3.
Proof.
  assert (E : i_addrs (disk_inode sb0 disk0 3) = i_addrs big_inode /\ i_size (disk_inode sb0 disk0 3) = 5000) by by vm_compute.
  destruct E as [Ea Es]. split; rewrite ?Ea, ?Es; [done|apply fs_ok0| |done|].
  - split; [done| | |].
    + intros x [Hx [->|(bn & Hbn & ->)]]; [done|]. rewrite baddr_big in * by done.
      destruct (Z.ltb_spec bn 5); [|done]. split; [change (35 <= 37 + bn < 60); lia|apply used_below; lia].
    + intros bn bn' Hbn Hbn'. rewrite !baddr_big by done. destruct (Z.ltb_spec bn 5), (Z.ltb_spec bn' 5); lia.
    + intros bn Hbn. rewrite !baddr_big by done. done.
  - intros o Ho. assert (o / BSIZE < 5 /\ 0 <= o / BSIZE) by (unfold BSIZE; Z.div_mod_to_equations; lia).
    rewrite baddr_big, (proj2 (Z.ltb_lt _ _)) by (change MAXFILE with 268; lia). lia.
Qed.

(** ** The machine *)

Definition log0 : logst := mkLog 2 30 0 0 ROOTDEV 0 (replicate 30 0).
Definition file0 : file := mkFile FD_INODE 1 1 1 0 (Some 1%nat) 3 0.

Definition free_inode : inode := mkInode 0 0 0 (mkSl 0 0) 0 0 0 0 0 0 (replicate 13 0).
Definition inodes0 : list inode := dir_inode :: file_inode :: replicate 48 free_inode.

Record system (s : kstate) : Prop := {
  sy_rest : at_rest 3 2 sb0 s;
  sy_dir : cached 2 sb0 s 0 dir_inode;
  sy_file : cached 2 sb0 s 1 file_inode;
  sy_inodes : k_inodes s = inodes0;
  sy_disk : disk s = disk0;
  sy_files : k_files s = [file0];
  sy_mem : k_mem s = mem0;
  sy_root : p_pagetable (k_procs s !!! 3%nat) = root
}.

Lemma cache_stage s R H V l sb is_ fs m : cache 3 s R H V ->
  cache 3 (k_set_mem m (k_set_files fs (k_set_inodes is_ (k_set_sb sb (k_set_log l s))))) R H V.
Proof. intros [[]]. by split. Qed.

Lemma cached0 s ip i : (ip < length (k_inodes s))%nat -> dinode (disk s) sb0 (i_inum i) i = i -> sound_file 2 sb0 (disk s) (i_inum i) ->
  k_inodes s !!! ip = i -> (i_dev i, i_ref i, sl_locked (i_lock i), i_valid i) = (ROOTDEV, 1, 0, 1) -> length (i_addrs i) = 13%nat ->
  forallb (fun z => (- 2 ^ 15 <=? z) && (z <? 2 ^ 15)) [i_type i; i_major i; i_minor i; i_nlink i] &&
  forallb (fun z => (0 <=? z) && (z <? 2 ^ 32)) (i_size i :: i_addrs i) = true -> cached 2 sb0 s ip i.
Proof.
  intros Hip Hd Hso Hi E Hl Hf. injection E as Edev Eref Elk Ev. apply andb_true_iff in Hf as [Hf Ha]. cbn [forallb] in Hf, Ha.
  rewrite !andb_true_iff, !Z.leb_le, !Z.ltb_lt in Hf. rewrite !andb_true_iff, Z.leb_le, Z.ltb_lt in Ha.
  split; try done; try lia. split; try lia; try done. apply Forall_forall. intros x Hx%list_elem_of_In.
  apply (proj1 (forallb_forall _ _) (proj2 Ha)) in Hx. lia.
Qed.

Lemma small_system : exists s, system s.
Proof.
  destruct (machine_cache disk0) as (bs & _ & C).
  { intros b d [Hb _]%disk0_blocks. lia. }
  set (s1 := k_set_mem mem0 (k_set_files [file0] (k_set_inodes inodes0 (k_set_sb sb0 (k_set_log log0 (k_set_bufs bs (machine disk0))))))).
  pose proof (cache_stage _ _ _ _ log0 sb0 inodes0 [file0] mem0 C) as C1. fold s1 in C1.
  set (ps := alter (p_set_pagetable root) 3%nat (k_procs s1)). exists (k_set_procs ps s1).
  assert (C2 : cache 3 (k_set_procs ps s1) ∅ ∅ disk0).
  { destruct C1 as [[]]. by split. }
  assert (Hd : disk (k_set_procs ps s1) = disk0) by reflexivity.
  split.
  - split; [|reflexivity]. split; try reflexivity; rewrite ?Hd.
    + exact C2.
    + split; try reflexivity; [intros i Hi; cbn in Hi; lia|by unfold LOGSIZE, MAXOPBLOCKS; cbn; lia|apply Nat.ltb_lt; reflexivity|apply NoDup_nil_2|by apply Forall_nil_2].
    + intros i Hi. exists (replicate 1024 0). unfold LOGSIZE, MAXOPBLOCKS in Hi. rewrite disk0_log by lia. split; [done|apply length_replicate].
    + intros b d Hb. by apply (disk0_blocks b).
  - apply (cached0 _ 0%nat); [apply Nat.ltb_lt; reflexivity|rewrite Hd; by vm_compute|rewrite Hd; apply sound_dir0|reflexivity..].
  - apply (cached0 _ 1%nat); [apply Nat.ltb_lt; reflexivity|rewrite Hd; by vm_compute|rewrite Hd; apply sound_file0|reflexivity..].
  - reflexivity.
  - exact Hd.
  - reflexivity.
  - reflexivity.
  - reflexivity.
Qed.

Lemma hi_source s : system s -> source 3 s 1 16 [104; 105].
Proof. intros Hs. split; [done|]. change (c_true 1) with true. cbv iota. rewrite (sy_mem _ Hs), (sy_root _ Hs). by vm_compute. Qed.

Lemma system_rd s : system s -> rd 3 s ∅ disk0.
Proof.
  intros Hs. pose proof (ar_idle _ _ _ _ (sy_rest _ Hs)) as Hid. split.
  - rewrite <- (sy_disk _ Hs). apply Hid.
  - apply Nat.ltb_lt. reflexivity.
  - intros blk. unfold refs. rewrite lookup_empty. cbn. lia.
  - intros blk d Hd. by apply (disk0_blocks blk).
Qed.

End FsExample.
