(* ===== verification/FsSpec.v ===== *)
(** The contract of fs.c, layer by layer: blocks, inodes, file contents and
    directories, each with a run on the small file system of FsExample. *)

From S2P Require Import Prelude Riscv StringC State Spinlock Kalloc Vm VmTable VmCopy Sched Sleeplock Printf PrintfSpec Bio BioSpec Log LogSpec FsTx FsOp Fs FsBlock FsFile FsInode FsRw FsRead FsDir FsDisk FsExample.

(** A struct dinode of fs.h as its 64 bytes: four shorts, the size, thirteen
    addresses, all little-endian and without padding. *)
Definition dinode_layout (type major minor nlink size : Z) (addrs : list Z) : list Z :=
  le_bytes 2 type ++ le_bytes 2 major ++ le_bytes 2 minor ++ le_bytes 2 nlink ++ le_bytes 4 size ++
  mjoin (le_bytes 4 <$> addrs).

(** A field of a structure laid out at [o]. *)
Lemma get_le_sub d o n k q : (q + k <= n)%nat -> get_le k d (o + q) = get_le k (get_bytes d o n) q.
Proof.
  intros H. unfold get_le, get_bytes. rewrite <- drop_drop, skipn_firstn_comm, take_take. do 2 f_equal. lia.
Qed.

Lemma get_le_field d o pre k v post :
  get_bytes d o 64 = pre ++ le_bytes k v ++ post -> (length pre + k <= 64)%nat ->
  get_le k d (o + length pre) = v mod 256 ^ Z.of_nat k.
Proof.
  intros E Hl. rewrite (get_le_sub _ _ 64), E by done. unfold get_le.
  rewrite drop_app_length, take_app_length' by (by rewrite length_le_bytes). apply le_value_bytes.
Qed.

Lemma get_layout_addrs d o h addrs :
  length h = 12%nat -> Forall (fun a => 0 <= a < 2 ^ 32) addrs -> length addrs = 13%nat ->
  get_bytes d o 64 = h ++ mjoin (le_bytes 4 <$> addrs) -> dip_addrs d o = addrs.
Proof.
  intros Hh Ha Hl E. apply list_eq_same_length with 13%nat; [done|done|]. intros k x y Hk. unfold dip_addrs.
  rewrite list_lookup_fmap, lookup_seq_lt by done. intros [= <-] Hy.
  rewrite <- Nat.add_assoc, (get_le_sub _ _ 64), E by lia. unfold get_le.
  rewrite <- Hh at 1. rewrite <- drop_drop, drop_app_length.
  change (get_le 4 (mjoin (le_bytes 4 <$> addrs)) (4 * k) = y). rewrite get_mjoin_le by (done || lia).
  by apply list_lookup_total_correct.
Qed.

(** What ilock() copies out of the 64 bytes. *)
Lemma load_layout d o t ma mi nl sz addrs i :
  inode_typed (mkInode 0 0 0 (mkSl 0 0) 0 t ma mi nl sz addrs) ->
  get_bytes d o 64 = dinode_layout t ma mi nl sz addrs ->
  load_dinode d o i = i_set_addrs addrs (i_set_size sz (i_set_nlink nl (i_set_minor mi (i_set_major ma (i_set_type t i))))).
Proof.
  intros [H1 H2 H3 H4 H5 H6 H7] E. cbn in H1, H2, H3, H4, H5, H6, H7. unfold load_dinode, dip_type, dip_major, dip_minor, dip_nlink, dip_size.
  unfold dinode_layout in E.
  assert (E1 := get_le_field d o [] 2 t _ E ltac:(cbn; lia)).
  assert (E2 := get_le_field d o (le_bytes 2 t) 2 ma _ E ltac:(rewrite !length_le_bytes; lia)). rewrite app_assoc in E.
  assert (E3 := get_le_field d o _ 2 mi _ E ltac:(rewrite !length_app, !length_le_bytes; lia)). rewrite app_assoc in E.
  assert (E4 := get_le_field d o _ 2 nl _ E ltac:(rewrite !length_app, !length_le_bytes; lia)). rewrite app_assoc in E.
  assert (E5 := get_le_field d o _ 4 sz _ E ltac:(rewrite !length_app, !length_le_bytes; lia)). rewrite app_assoc in E.
  apply get_layout_addrs in E; [|by rewrite !length_app, !length_le_bytes|done|done].
  rewrite !length_app, !length_le_bytes in *. cbn [length Nat.add] in *. rewrite Nat.add_0_r in E1.
  rewrite E, E1, E2, E3, E4, E5. rewrite !s16_wrap by done.
  rewrite (Z.mod_small sz) by (change (256 ^ Z.of_nat 4) with (2 ^ 32); lia). done.
Qed.

Section Claims.
Context `{L : Linker} `{D : BlockDev}.

(** C14: writei() of the bytes [W], from user or kernel memory, to a locked
    inode inside a transaction with room. It writes all of them, or stops at or
    past the end of the file, at 0 or at the end of a block, with every block of
    the disk in use, and returns the number [n] written. The file then holds its old bytes with those at
    [off] replaced by the first [n] of [W], longer when they reach past its end;
    the inode on the disk is the one in memory; blocks come only from the free
    map; no other inode and no block of another file changes. *)
Theorem writei_writes p LS sb s ip bl V i us src W off :
  open_file p LS sb s ip bl V i -> sb_size sb <= BPB -> source p s us src W -> Forall is_byte W ->
  0 <= off <= i_size i -> off + Z.of_nat (length W) <= MAXFILE * BSIZE ->
  Z.of_nat (length bl) + Z.of_nat (length W) / BSIZE <= 19 ->
  exists n s' bl' V' i', writei ip us src off (Z.of_nat (length W)) s = Ok n s' /\ 0 <= n <= Z.of_nat (length W) /\
    (n < Z.of_nat (length W) -> i_size i <= off + n /\ (n = 0 \/ (off + n) mod BSIZE = 0) /\
       forall x, 0 <= x < sb_size sb -> used V' sb x = true) /\
    written p LS sb s ip V i off (take (Z.to_nat n) W) s' bl' V' i'.
Proof. apply writei_spec. Qed.

(** C15: readi() of [n] bytes at [off] returns the number of bytes the file has
    there, at most [n], and stores exactly those bytes of its contents at [dst],
    in user memory through the page table or in kernel memory. No other byte of
    memory, no mapping and no block changes, and every buffer it used is given
    back. *)
Theorem readi_reads p LS sb R s ip us dst off n V i :
  let root := p_pagetable (k_procs s !!! p) in
  readable p LS sb R s ip V i -> 0 <= off <= i_size i -> 0 <= n -> off + n < 2 ^ 32 -> 0 <= dst < 2 ^ 64 ->
  sink (k_mem s) root us dst (asked i off n) ->
  exists s', readi ip us dst off n s = Ok (asked i off n) s' /\ rd_step p (k_set_mem (k_mem s') s) s' /\ rd p s' R V /\
    delivered (k_mem s) root us dst (asked i off n) 0
      (take (Z.to_nat n) (drop (Z.to_nat off) (content V (i_addrs i) (i_size i)))) (k_mem s').
Proof. intros root Hre Hoff Hn Hmax Hdst Hsk. by apply (readi_spec p LS sb). Qed.

(** C16: dirlink() of a name the directory does not have. Seen as a map from
    names (of at most DIRSIZ characters) to inode numbers, the directory gets
    exactly this binding and 0 is returned; or -1 is returned with the directory
    as it was, because no block is free. It is a write to the directory's file
    as of writei(), so nothing else on the disk changes. *)
Theorem dirlink_adds p LS sb s dp bl V i n name inum :
  open_file p LS sb s dp bl V i -> is_dir i n -> sb_size sb <= BPB -> (length bl <= 19)%nat ->
  16 * (Z.of_nat n + 1) <= MAXFILE * BSIZE -> Forall is_byte name -> 0 < inum < 2 ^ 16 -> dir_get (dir_of V i) name = None ->
  exists r s1 s' bl' V' i' k w, dirlink dp name inum s = Ok r s' /\ linked sb V i name inum r V' i' /\
    scratch s s1 /\ written p LS sb s1 dp V i k w s' bl' V' i'.
Proof. apply dirlink_spec. Qed.

(** C27: balloc() inside a transaction returns a data block that the free map
    had as free, marks it used and fills it with zeros, in the transaction; or 0
    when every block is in use. The free map keeps its well-formedness: blocks
    before the data stay marked. *)
Theorem balloc_allocates p LS sb s bl H V :
  tx p LS s bl H V -> fs_ok LS sb V -> k_sb s = sb -> held_ok sb V H -> (length bl + size H < 28)%nat ->
  exists r s', balloc ROOTDEV s = Ok r s' /\ tx_step p s s' /\ allocated p LS sb s' bl H V r /\
    (r <> 0 -> fs_ok LS sb (alloc_block sb V r) /\ forall x, 0 <= x < sb_size sb -> used (alloc_block sb V r) sb x = (x =? r) || used V sb x).
Proof.
  intros T HV Hsb Hh Hroom. destruct (balloc_spec p LS sb s bl H V T HV Hsb Hh Hroom) as (r & s' & E & S & Ha & _).
  exists r, s'. split; [done|]. split; [done|]. split; [done|]. intros Hr. destruct Ha as [[? _]|(Hrg & _ & _)]; [done|].
  pose proof (fo_geo _ _ _ HV) as G.
  split; [by apply (alloc_ok LS sb G)|]. intros x Hx. by apply (alloc_used LS sb G).
Qed.

(** C29: ilock() of an entry that is not loaded yet reads the inode of its number
    from the disk. When the 64 bytes at offset 64 * (inum mod 16) of block
    inodestart + inum / 16 are a struct dinode with given fields, a free inode
    (type 0) makes it panic, and with any other the entry's type, major, minor,
    nlink, size and thirteen addresses are those fields, the entry is valid, and
    its number and reference count are as before. The disk is not written. *)
Theorem ilock_reads p LS sb s ip R V inum type major minor nlink size addrs :
  rd p s R V -> k_sb s = sb -> fs_ok LS sb V -> 0 <= inum < sb_ninodes sb -> fresh_entry s ip inum ->
  inode_typed (mkInode 0 0 0 (mkSl 0 0) 0 type major minor nlink size addrs) ->
  get_bytes (V !!! (sb_inodestart sb + inum / 16)) (Z.to_nat (64 * (inum mod 16))) 64 =
    dinode_layout type major minor nlink size addrs ->
  exists s', ilock (Some ip) s = (if type =? 0 then Panic "ilock: no type" s' else Ok tt s') /\ rd p s' R V /\
    let i := k_inodes s' !!! ip in
    (i_type i, i_major i, i_minor i, i_nlink i, i_size i, i_addrs i) = (type, major, minor, nlink, size, addrs) /\
    i_valid i = 1 /\ i_inum i = inum /\ i_ref i = i_ref (k_inodes s !!! ip).
Proof.
  intros Hrd Hsb HV Hn Hfe Hty Hb. pose proof (fo_geo _ _ _ HV) as G.
  destruct (FsInode.ilock_loads p LS sb s ip R V inum Hrd Hsb HV Hn Hfe) as (s' & E & Hrd' & S'). exists s'.
  replace (sb_inodestart sb + inum / 16) with (IBLOCK inum sb) in Hb
    by (destruct (IBLOCK_range LS sb G inum Hn) as (_ & _ & ->); change IPB with 16; lia).
  replace (Z.to_nat (64 * (inum mod 16))) with (dinode_off inum) in Hb
    by (unfold dinode_off; f_equal; change IPB with 16; change DINODE_SIZE with 64; lia).
  unfold dinode in E, S'. rewrite (load_layout _ _ _ _ _ _ _ _ _ Hty Hb) in E, S'.
  split; [exact E|]. split; [done|]. cbv zeta.
  rewrite (ts_inodes _ _ _ (rs_tx _ _ _ S')). cbn [k_inodes k_set_inodes]. rewrite list_lookup_total_insert_eq by apply Hfe.
  split_and!; try done. apply (fe_inum _ _ _ Hfe).
Qed.

(** C28: iupdate() stores an inode so that ilock() finds it again: in any later
    state, of this or another process or machine, in which the inode's block is
    as iupdate() left it, ilock() of an entry for this number that is not loaded
    yet returns with every disk field equal to the one stored, through the
    64-byte record of the disk. The rest of the disk stays well formed and the
    other inodes of the block keep their contents. *)
Theorem iupdate_ilock p LS sb s ip bl V A :
  let i := k_inodes s !!! ip in
  at_file p LS sb s ip bl V A -> fs_ok LS sb V -> (length bl < 29)%nat -> inode_typed i -> 0 <= i_inum i < sb_ninodes sb -> i_type i <> 0 ->
  exists s1 V1, iupdate ip s = Ok tt s1 /\ tx p LS s1 (logged bl (IBLOCK (i_inum i) sb)) ∅ V1 /\ fs_ok LS sb V1 /\
    (forall n j, 0 <= n < sb_ninodes sb -> n <> i_inum i -> dinode V1 sb n j = dinode V sb n j) /\
    forall q R s2 jp, rd q s2 R V1 -> k_sb s2 = sb -> fresh_entry s2 jp (i_inum i) ->
    exists s3, ilock (Some jp) s2 = Ok tt s3 /\ let j := k_inodes s3 !!! jp in
      (i_type j, i_major j, i_minor j, i_nlink j, i_size j, i_addrs j) = (i_type i, i_major i, i_minor i, i_nlink i, i_size i, i_addrs i).
Proof.
  intros i Hat HV Hroom Hi Hn Hty. pose proof (fo_geo _ _ _ HV) as G.
  destruct (iupdate_spec p LS sb s ip bl V A Hat HV Hroom Hi Hn) as (s1 & E & _ & T1). fold i in T1. exists s1, (put_inode sb V (i_inum i) i).
  destruct (put_inode_ok LS sb G V _ i HV Hn Hi) as [_ HV1]. split; [done|]. split; [done|]. split; [done|]. split.
  { intros n j Hnn Hne. by apply (dinode_other LS sb G). }
  intros q R s2 jp Hrd Hsb Hfe.
  destruct (ilock_spec q LS sb s2 jp R _ (i_inum i) Hrd Hsb HV1 Hn Hfe) as (s3 & E3 & _ & S3).
  { rewrite (dinode_put LS sb G) by done. exact Hty. }
  exists s3. split; [done|]. cbv zeta. rewrite (ts_inodes _ _ _ (rs_tx _ _ _ S3)). cbn [k_inodes k_set_inodes].
  rewrite list_lookup_total_insert_eq by apply Hfe. by rewrite (dinode_put LS sb G).
Qed.

End Claims.

(** ** The small file system *)

Module FsSpecExample.
Import FsExample RamDisk.
#[local] Existing Instance VmTable.Example.linker.

(** The file of "hello" locked by process 3 inside a transaction, and the directory. *)
Lemma file_open s : system s -> open_file 3 2 sb0 (entered s 1 (i_set_lock (mkSl 1 0) file_inode)) 1 [] disk0 (i_set_lock (mkSl 1 0) file_inode).
Proof. intros Hs. rewrite <- (sy_disk _ Hs). apply entered_open; apply Hs. Qed.

Lemma dir_open s : system s -> open_file 3 2 sb0 (entered s 0 (i_set_lock (mkSl 1 0) dir_inode)) 0 [] disk0 (i_set_lock (mkSl 1 0) dir_inode).
Proof. intros Hs. rewrite <- (sy_disk _ Hs). apply entered_open; apply Hs. Qed.

Lemma writei_writes_witness : exists s n s' V' i', writei 1 1 16 4 2 s = Ok n s' /\ 0 <= n <= 2 /\
  content V' (i_addrs i') (i_size i') = overwrite [104; 101; 108; 108; 111] 4 (take (Z.to_nat n) [104; 105]).
Proof.
  destruct small_system as (s & Hs).
  destruct (writei_writes (D := ram_disk) 3 2 sb0 _ 1 [] disk0 _ 1 16 [104; 105] 4 (file_open s Hs)) as (n & s' & bl' & V' & i' & E & Hn & _ & W).
  - done.
  - exact (hi_source s Hs).
  - repeat constructor; done.
  - done.
  - done.
  - done.
  - eexists _, n, s', V', i'. split; [exact E|]. split; [exact Hn|]. rewrite (wn_content _ _ _ _ _ _ _ _ _ _ _ _ _ W). f_equal.
Defined.

Lemma readi_reads_witness : exists s s', readi 1 0 4096 1 100 s = Ok 4 s' /\ k_mem s' 4096 = 101 /\ k_mem s' 4099 = 111 /\ k_mem s' 4100 = k_mem s 4100.
Proof.
  destruct small_system as (s & Hs). pose proof (file_open s Hs) as Ho.
  destruct (open_readable 3 2 sb0 _ 1 [] disk0 _ Ho) as (R & Hre & _).
  destruct (readi_reads (D := ram_disk) 3 2 sb0 R _ 1 0 4096 1 100 disk0 _ Hre) as (s' & E & _ & _ & Hd).
  - done.
  - done.
  - done.
  - done.
  - split; [done| |done]. intros j Hj. by eexists.
  - eexists _, s'. split; [exact E|]. assert (Ec : take (Z.to_nat 100) (drop (Z.to_nat 1) (content disk0 (i_addrs (i_set_lock (mkSl 1 0) file_inode))
      (i_size (i_set_lock (mkSl 1 0) file_inode)))) = [101; 108; 108; 111]) by by vm_compute. rewrite Ec in Hd. split; [|split].
    + by rewrite (dv_in _ _ _ _ _ _ _ _ Hd 0 4096).
    + by rewrite (dv_in _ _ _ _ _ _ _ _ Hd 3 4099).
    + apply (dv_frame _ _ _ _ _ _ _ _ Hd). intros j Hj. change (asked _ 1 100) with 4 in Hj. unfold cell. cbn. intros [=]. lia.
Defined.

Lemma dirlink_adds_witness : exists s r s' V' i', dirlink 0 [98] 2 s = Ok r s' /\
  (r = 0 -> dir_get (dir_of V' i') [98] = Some 2 /\ dir_get (dir_of V' i') [97] = Some 2 /\ dir_get (dir_of V' i') [99] = None).
Proof.
  destruct small_system as (s & Hs).
  destruct (dirlink_adds (D := ram_disk) 3 2 sb0 _ 0 [] disk0 _ 2 [98] 2 (dir_open s Hs)) as (r & s1 & s' & bl' & V' & i' & k & w & E & Hl & _).
  - done.
  - done.
  - apply Nat.leb_le. reflexivity.
  - done.
  - repeat constructor; done.
  - done.
  - by vm_compute.
  - eexists _, r, s', V', i'. split; [exact E|]. intros ->. destruct Hl as [[_ Hl]|[? _]]; [|done]. rewrite !Hl. by vm_compute.
Defined.

Lemma balloc_allocates_witness : exists s r s', balloc ROOTDEV s = Ok r s' /\ allocated 3 2 sb0 s' [] ∅ disk0 r.
Proof.
  destruct small_system as (s & Hs). pose proof (file_open s Hs) as [Hat _ _ _ HV _ _ _].
  destruct (balloc_allocates (D := ram_disk) 3 2 sb0 _ [] ∅ disk0 (af_tx _ _ _ _ _ _ _ _ Hat) HV) as (r & s' & E & _ & Ha & _).
  - apply Hat.
  - by intros blk Hb%elem_of_empty.
  - rewrite size_empty. apply Nat.ltb_lt. reflexivity.
  - eexists _, r, s'. split; [exact E|exact Ha].
Defined.

(** An entry for inode 2 that is not loaded yet. *)
Definition fresh2 (s : kstate) : kstate := k_set_inodes (<[5%nat := mkInode ROOTDEV 2 1 (mkSl 0 0) 0 0 0 0 0 0 []]> (k_inodes s)) s.

Lemma fresh2_entry s : system s -> fresh_entry (fresh2 s) 5 2.
Proof.
  intros Hs. assert (Hl : (5 < length (k_inodes s))%nat) by (rewrite (sy_inodes _ Hs); apply Nat.ltb_lt; reflexivity).
  split; cbn [k_inodes k_set_inodes fresh2]; rewrite ?length_insert, ?list_lookup_total_insert_eq by done; done.
Qed.

Lemma ilock_reads_witness : exists s s', ilock (Some 5%nat) s = Ok tt s' /\ i_size (k_inodes s' !!! 5%nat) = 5.
Proof.
  destruct small_system as (s & Hs).
  destruct (ilock_reads (D := ram_disk) 3 2 sb0 (fresh2 s) 5 ∅ disk0 2 T_FILE 0 0 1 5 (35 :: replicate 12 0)) as (s' & E & _ & Hi & _).
  - unfold fresh2. rewrite set_other_inodes. by apply rd_other, system_rd.
  - apply (sy_rest _ Hs).
  - apply fs_ok0.
  - done.
  - by apply fresh2_entry.
  - split; cbn; [unfold T_FILE; lia..| |reflexivity|]; [lia|]. by repeat constructor.
  - by vm_compute.
  - exists (fresh2 s), s'. split; [exact E|]. congruence.
Defined.

Lemma iupdate_ilock_witness : exists s s1 V1, iupdate 1 s = Ok tt s1 /\ fs_ok 2 sb0 V1.
Proof.
  destruct small_system as (s & Hs). pose proof (file_open s Hs) as [Hat Hi Hty Hnum HV _ _ _].
  destruct (iupdate_ilock (D := ram_disk) 3 2 sb0 _ 1 [] disk0 _ Hat HV) as (s1 & V1 & E & _ & HV1 & _).
  - apply Nat.ltb_lt. reflexivity.
  - by rewrite Hi.
  - by rewrite Hi.
  - rewrite Hi. done.
  - eexists _, s1, V1. split; [exact E|exact HV1].
Defined.

End FsSpecExample.
