(* ===== verification/FsTable.v ===== *)
(** The inode table of fs.c: iget(), idup(), iput(), ilock() and iunlock() as
    operations on a map from inode numbers to reference counts.

    [itable] relates the entries of itable.inode to that map [T] and to the
    disk: an inode in use has one entry, its count is the entry's, and an entry
    marked valid is what the disk holds. *)

From S2P Require Import Prelude Riscv State Spinlock Kalloc Vm Sched Sleeplock Printf PrintfSpec Bio BioSpec Log LogSpec FsTx FsOp Fs FsBlock FsFile FsInode FsRw FsRead FsDisk.

Notation ent s ip := (k_inodes s !!! ip).

(** [lk] is the entry whose lock is held. *)
Record itable (sb : superblock) (V : gmap Z (list Z)) (s : kstate) (T : gmap Z Z) (lk : option nat) : Prop := {
  itb_len : length (k_inodes s) = NINODE;
  itb_ref ip : (ip < NINODE)%nat -> 0 <= i_ref (ent s ip);
  itb_ent ip : (ip < NINODE)%nat -> 0 < i_ref (ent s ip) -> i_dev (ent s ip) = ROOTDEV /\ T !! i_inum (ent s ip) = Some (i_ref (ent s ip));
  itb_has inum n : T !! inum = Some n -> 0 < n /\ exists ip, (ip < NINODE)%nat /\ i_ref (ent s ip) = n /\ i_inum (ent s ip) = inum;
  itb_uniq ip ip' : (ip < NINODE)%nat -> (ip' < NINODE)%nat -> 0 < i_ref (ent s ip) -> 0 < i_ref (ent s ip') ->
    i_inum (ent s ip) = i_inum (ent s ip') -> ip = ip';
  itb_free ip : (ip < NINODE)%nat -> lk <> Some ip -> sl_locked (i_lock (ent s ip)) = 0;
  itb_fresh ip : (ip < NINODE)%nat -> 0 < i_ref (ent s ip) -> i_valid (ent s ip) <> 0 ->
    dinode V sb (i_inum (ent s ip)) (ent s ip) = ent s ip
}.

(** One more reference. *)
Definition add_ref (T : gmap Z Z) (inum : Z) : gmap Z Z := <[inum := refs T inum + 1]> T.

Section Table.
Context (sb : superblock) (V : gmap Z (list Z)).

Lemma itable_same s s' T lk : k_inodes s' = k_inodes s -> itable sb V s T lk -> itable sb V s' T lk.
Proof. intros E []. split; rewrite ?E; done. Qed.

Lemma refs_pos s T lk inum : itable sb V s T lk -> 0 <= refs T inum.
Proof.
  intros I. unfold refs. destruct (T !! inum) as [n|] eqn:E; cbn; [|lia]. destruct (itb_has _ _ _ _ _ I _ _ E). lia.
Qed.

(** An entry replaced. *)
Section Insert.
Context (s : kstate) (T : gmap Z Z) (lk : option nat) (I : itable sb V s T lk).
Context (ip : nat) (i' : inode) (T' : gmap Z Z) (lk' : option nat) (Hip : (ip < NINODE)%nat).
Context (Hother : forall inum, inum <> i_inum i' -> T' !! inum = T !! inum).
Context (Hold : 0 < i_ref (ent s ip) -> i_inum (ent s ip) = i_inum i').
Context (Hnew : i_ref (ent s ip) = 0 -> T !! i_inum i' = None).
Context (Hcnt : T' !! i_inum i' = if 0 <? i_ref i' then Some (i_ref i') else None).
Context (Hpos : 0 <= i_ref i') (Hdev : 0 < i_ref i' -> i_dev i' = ROOTDEV).
Context (Hlk : lk' <> Some ip -> sl_locked (i_lock i') = 0) (Hlk' : forall k, k <> ip -> lk' <> Some k -> lk <> Some k).
Context (Hfresh : 0 < i_ref i' -> i_valid i' <> 0 -> dinode V sb (i_inum i') i' = i').

(** No other entry in use has this inode. *)
Lemma insert_alone k : (k < NINODE)%nat -> k <> ip -> 0 < i_ref (ent s k) -> i_inum (ent s k) <> i_inum i'.
Proof.
  intros Hk Hne Hr E. destruct (decide (i_ref (ent s ip) = 0)) as [Hz|Hz].
  - destruct (itb_ent _ _ _ _ _ I k Hk Hr) as [_ ET]. rewrite E, Hnew in ET by done. done.
  - pose proof (itb_ref _ _ _ _ _ I ip Hip). apply Hne. apply (itb_uniq _ _ _ _ _ I); try done; [lia|]. rewrite E. symmetry. apply Hold. lia.
Qed.

Lemma itable_insert : itable sb V (k_set_inodes (<[ip := i']> (k_inodes s)) s) T' lk'.
Proof.
  pose proof (itb_len _ _ _ _ _ I) as Hlen. set (s' := k_set_inodes _ s).
  assert (Hs : ent s' ip = i') by (cbn; apply list_lookup_total_insert_eq; lia).
  assert (Ho : forall k, k <> ip -> ent s' k = ent s k) by (intros k Hne; cbn; by rewrite list_lookup_total_insert_ne).
  split.
  - cbn. by rewrite length_insert.
  - intros k Hk. destruct (decide (k = ip)) as [->|Hne]; [by rewrite Hs|rewrite Ho by done; by apply I].
  - intros k Hk. destruct (decide (k = ip)) as [->|Hne].
    + rewrite Hs. intros Hr. split; [auto|]. rewrite Hcnt. by destruct (Z.ltb_spec 0 (i_ref i')); [|lia].
    + rewrite Ho by done. intros Hr. rewrite Hother by by apply insert_alone. by apply (itb_ent _ _ _ _ _ I).
  - intros inum n Hn. destruct (decide (inum = i_inum i')) as [->|Hni].
    + rewrite Hcnt in Hn. destruct (Z.ltb_spec 0 (i_ref i')); [|done]. injection Hn as <-. split; [done|]. exists ip. by rewrite Hs.
    + rewrite Hother in Hn by done. destruct (itb_has _ _ _ _ _ I _ _ Hn) as (Hp & k & Hk & Er & En). split; [done|]. exists k.
      rewrite Ho; [done|]. intros ->. apply Hni. rewrite <- En. apply Hold. lia.
  - intros k k' Hk Hk'. destruct (decide (k = ip)) as [->|Hne], (decide (k' = ip)) as [->|Hne']; try done; rewrite ?Hs, ?Ho by done.
    + intros _ Hr E. destruct (insert_alone k' Hk' Hne' Hr). by rewrite E.
    + intros Hr _ E. destruct (insert_alone k Hk Hne Hr). by rewrite E.
    + by apply (itb_uniq _ _ _ _ _ I).
  - intros k Hk Hl. destruct (decide (k = ip)) as [->|Hne]; [rewrite Hs; auto|]. rewrite Ho by done. apply (itb_free _ _ _ _ _ I); auto.
  - intros k Hk. destruct (decide (k = ip)) as [->|Hne]; [by rewrite Hs|rewrite Ho by done]. by apply (itb_fresh _ _ _ _ _ I).
Qed.

End Insert.

(** ** Finding an entry *)

(** A table with a reference count for fewer inodes than it has entries has a
    free one. *)
Lemma free_entry s T lk : itable sb V s T lk -> (size T < NINODE)%nat -> exists ip, (ip < NINODE)%nat /\ i_ref (ent s ip) = 0.
Proof.
  intros I Hsz. destruct (decide (Exists (fun ip => i_ref (ent s ip) = 0) (seq 0 NINODE))) as [Hex|Hno].
  { apply Exists_exists in Hex as (ip & Hin%elem_of_seq & Hr). exists ip. split; [lia|done]. }
  exfalso. set (ns := (fun ip => i_inum (ent s ip)) <$> seq 0 NINODE).
  assert (Hlive : forall ip, ip ∈ seq 0 NINODE -> (ip < NINODE)%nat /\ 0 < i_ref (ent s ip)).
  { intros ip Hin. pose proof Hin as Hin2%elem_of_seq. assert (Hip : (ip < NINODE)%nat) by lia. split; [done|].
    pose proof (itb_ref _ _ _ _ _ I ip Hip). destruct (decide (i_ref (ent s ip) = 0)) as [E|]; [|lia].
    exfalso. apply Hno, Exists_exists. by exists ip. }
  assert (Hnd : NoDup ns).
  { apply NoDup_fmap_2_strong; [|apply NoDup_seq]. intros x y Hx Hy E.
    destruct (Hlive x Hx), (Hlive y Hy). by apply (itb_uniq _ _ _ _ _ I). }
  assert (Hsub : list_to_set ns ⊆ dom T).
  { intros n [ip [-> Hin]]%elem_of_list_to_set%list_elem_of_fmap. destruct (Hlive ip Hin) as [Hip Hr].
    destruct (itb_ent _ _ _ _ _ I ip Hip Hr) as [_ E]. by apply elem_of_dom. }
  apply subseteq_size in Hsub. rewrite size_list_to_set, size_dom in Hsub by done. unfold ns in Hsub. rewrite length_fmap, length_seq in Hsub. lia.
Qed.

Definition matches (s : kstate) (inum : Z) (ip : nat) : Prop := 0 < i_ref (ent s ip) /\ i_dev (ent s ip) = ROOTDEV /\ i_inum (ent s ip) = inum.

Lemma iget_loop_hit s inum is_ : forall e, (exists ip, ip ∈ is_ /\ matches s inum ip) ->
  exists ip, iget_loop is_ e ROOTDEV inum s = Ok (ip, true) s /\ ip ∈ is_ /\ matches s inum ip.
Proof.
  induction is_ as [|k is_ IH]; intros e (ip & Hin & Hm); [by apply elem_of_nil in Hin|].
  cbn [iget_loop]. unfold inode_at. mred. destruct (_ && _) eqn:E.
  - rewrite !andb_true_iff, Z.ltb_lt, !Z.eqb_eq in E. destruct E as [[? ?] ?]. exists k. split; [done|]. split; [left|done].
  - apply elem_of_cons in Hin as [->|Hin].
    + exfalso. destruct Hm as (Hr & Hd & Hn). rewrite Hd, Hn, !Z.eqb_refl, (proj2 (Z.ltb_lt _ _) Hr) in E. done.
    + destruct (IH (if bool_decide (e = None) && (i_ref (ent s k) =? 0) then Some k else e)) as (ip' & E' & Hin' & Hm'); [by exists ip|].
      exists ip'. split; [done|]. split; [by right|done].
Qed.

Lemma iget_loop_miss s inum is_ : forall e, (forall ip, ip ∈ is_ -> ~ matches s inum ip) ->
  is_Some e \/ (exists ip, ip ∈ is_ /\ i_ref (ent s ip) = 0) ->
  exists ip, iget_loop is_ e ROOTDEV inum s = Ok (ip, false) s /\ (e = Some ip \/ (ip ∈ is_ /\ i_ref (ent s ip) = 0)).
Proof.
  induction is_ as [|k is_ IH]; intros e Hno Hex; cbn [iget_loop].
  - destruct Hex as [[ip ->]|(ip & Hin & _)]; [|by apply elem_of_nil in Hin]. exists ip. split; [done|by left].
  - unfold inode_at. mred. replace (_ && (i_inum _ =? inum)) with false.
    2: { symmetry. apply not_true_iff_false. rewrite !andb_true_iff, Z.ltb_lt, !Z.eqb_eq. intros [[? ?] ?]. apply (Hno k); [left|done]. }
    destruct (IH (if bool_decide (e = None) && (i_ref (ent s k) =? 0) then Some k else e)) as (ip & E & Hip).
    + intros ip Hin. apply Hno. by right.
    + destruct e as [x|]; [by left; eexists|]. cbn. destruct (Z.eqb_spec (i_ref (ent s k)) 0) as [|Hne]; [left; by eexists|].
      destruct Hex as [[? ?]|(ip & [->|Hin]%elem_of_cons & Hr)]; [done|done|]. right. by exists ip.
    + exists ip. split; [done|]. destruct Hip as [Hip|[Hin Hr]]; [|right; split; [by right|done]].
      destruct e as [x|]; [by left|]. cbn in Hip. destruct (Z.eqb_spec (i_ref (ent s k)) 0); [|done].
      right. injection Hip as ->. split; [left|done].
Qed.

End Table.

(** ** The operations *)

Section Ops.
Context `{L : Linker} `{D : BlockDev}.
Context (p : nat) (LS : Z) (sb : superblock) (V : gmap Z (list Z)).

Lemma alter_entry f ip s : (ip < length (k_inodes s))%nat ->
  k_set_inodes (alter f ip (k_inodes s)) s = k_set_inodes (<[ip := f (ent s ip)]> (k_inodes s)) s.
Proof. intros H. by rewrite alter_as_insert. Qed.

(** The state of a live entry. *)
Record live (s : kstate) (ip : nat) (inum : Z) : Prop := {
  lv_ip : (ip < NINODE)%nat;
  lv_ref : 0 < i_ref (ent s ip);
  lv_inum : i_inum (ent s ip) = inum
}.

Lemma live_insert s T lk ip i' inum : itable sb V s T lk -> (ip < NINODE)%nat -> 0 < i_ref i' -> i_inum i' = inum ->
  live (k_set_inodes (<[ip := i']> (k_inodes s)) s) ip inum.
Proof.
  intros I Hip Hr Hn. pose proof (itb_len _ _ _ _ _ I).
  split; [done|..]; change (ent (k_set_inodes ?x s) ip) with (x !!! ip); by rewrite list_lookup_total_insert_eq by lia.
Qed.

Lemma live_ext s s' ip inum : k_inodes s' = k_inodes s -> live s ip inum -> live s' ip inum.
Proof. intros E []. split; by rewrite ?E. Qed.

Lemma live_refs s T lk ip inum : itable sb V s T lk -> live s ip inum -> T !! inum = Some (i_ref (ent s ip)) /\ refs T inum = i_ref (ent s ip).
Proof. intros I [Hip Hr <-]. destruct (itb_ent _ _ _ _ _ I ip Hip Hr) as [_ E]. split; [done|by apply refs_some]. Qed.

(** A live entry that at most changed its count. *)
Definition kept (s s' : kstate) (k : nat) : Prop := exists n, 0 < n /\ ent s' k = i_set_ref n (ent s k).

Lemma kept_insert s ip i' k : (ip < length (k_inodes s))%nat -> 0 < i_ref (ent s k) ->
  (k = ip -> exists n, 0 < n /\ i' = i_set_ref n (ent s ip)) -> kept s (k_set_inodes (<[ip := i']> (k_inodes s)) s) k.
Proof.
  intros Hip Hr Hi. unfold kept. change (ent (k_set_inodes ?x s) k) with (x !!! k). destruct (decide (k = ip)) as [->|Hne].
  - rewrite list_lookup_total_insert_eq by done. auto.
  - rewrite list_lookup_total_insert_ne by done. exists (i_ref (ent s k)). split; [done|]. by destruct (ent s k).
Qed.

(** A live entry gets [n] references. *)
Lemma itable_set_ref s T lk ip inum n : itable sb V s T lk -> live s ip inum -> 0 <= n ->
  itable sb V (k_set_inodes (<[ip := i_set_ref n (ent s ip)]> (k_inodes s)) s) (if 0 <? n then <[inum := n]> T else delete inum T) lk.
Proof.
  intros I Hl Hn. pose proof Hl as [Hip Hr Hi]. destruct (itb_ent _ _ _ _ _ I ip Hip Hr) as [Hd _].
  apply (itable_insert sb V s T lk I ip); cbn; rewrite ?Hi; try done.
  - intros m Hm. destruct (0 <? n); [by rewrite lookup_insert_ne|by rewrite lookup_delete_ne].
  - lia.
  - destruct (0 <? n); [by rewrite lookup_insert_eq|by rewrite lookup_delete_eq].
  - by apply (itb_free _ _ _ _ _ I).
  - intros _ Hv. pose proof (itb_fresh _ _ _ _ _ I ip Hip Hr Hv) as E. rewrite Hi in E. change (dinode ?v ?b ?m (i_set_ref n ?x)) with (i_set_ref n (dinode v b m x)). by rewrite E.
Qed.

Lemma iget_spec s T lk inum : running p s -> itable sb V s T lk -> (size T < NINODE)%nat \/ is_Some (T !! inum) -> refs T inum + 1 < 2 ^ 31 ->
  exists ip i', iget ROOTDEV inum s = Ok ip (k_set_inodes (<[ip := i']> (k_inodes s)) s) /\
    let s' := k_set_inodes (<[ip := i']> (k_inodes s)) s in live s' ip inum /\ itable sb V s' (add_ref T inum) lk /\
    forall k, (k < NINODE)%nat -> 0 < i_ref (ent s k) -> kept s s' k.
Proof.
  intros Hr I Hroom Hmax. pose proof (itb_len _ _ _ _ _ I) as Hlen. unfold iget. mrun (acquire_eq LK_itable s (running_free _ _ _ Hr)).
  assert (Hgo : forall x g, (x < NINODE)%nat -> release LK_itable (k_set_inodes (alter g x (k_inodes (locked LK_itable s))) (locked LK_itable s))
    = Ok tt (k_set_inodes (<[x := g (ent s x)]> (k_inodes s)) s)).
  { intros x g Hx. rewrite <- alter_entry by lia. leave LK_itable; [apply Hr|apply (running_free _ _ _ Hr)]. }
  destruct (T !! inum) as [n|] eqn:En.
  - destruct (itb_has _ _ _ _ _ I _ _ En) as (Hn & k & Hk & Er & Ei).
    destruct (iget_loop_hit (locked LK_itable s) inum (seq 0 NINODE) None) as (ip & E & Hin%elem_of_seq & Hm).
    { exists k. split; [apply elem_of_seq; lia|]. change (matches s inum k). destruct (itb_ent _ _ _ _ _ I k Hk ltac:(lia)) as [? _]. split; [lia|done]. }
    mrun E. unfold upd_inode. mred. mrun (Hgo ip (fun i => i_set_ref (s32 (i_ref i + 1)) i) ltac:(lia)). 
    assert (Hl : live s ip inum) by (destruct Hm as (Hr' & Hd & Hi); split; [lia|exact Hr'|exact Hi]). pose proof (lv_ref _ _ _ Hl). destruct (live_refs _ _ _ _ _ I Hl) as [E1 E2].
    rewrite E2 in Hmax. rewrite s32_small by lia. eexists ip, _. split; [done|]. cbv zeta. split.
    + apply (live_insert s T lk _ _ _ I); [lia|change (0 < i_ref (ent s ip) + 1); lia|apply Hl].
    + split; [|intros j Hj Hrj; apply kept_insert; [lia|done|intros ->; eexists; split; [|reflexivity]; lia]].
      assert (Hn1 : 0 <= i_ref (ent s ip) + 1) by lia. pose proof (itable_set_ref s T lk ip inum _ I Hl Hn1) as I'.
      rewrite (proj2 (Z.ltb_lt 0 _)) in I' by lia. unfold add_ref. by rewrite E2.
  - destruct Hroom as [Hsz|[? ?]]; [|congruence]. destruct (free_entry _ _ _ _ _ I Hsz) as (k & Hk & Ez).
    destruct (iget_loop_miss (locked LK_itable s) inum (seq 0 NINODE) None) as (ip & E & [?|[Hin%elem_of_seq Hz]]); [| |done|]; [| |change (i_ref (ent s ip) = 0) in Hz].
    { intros ip Hin%elem_of_seq (Hp & _ & Hi). change (0 < i_ref (ent s ip)) in Hp. change (i_inum (ent s ip) = inum) in Hi. destruct (itb_ent _ _ _ _ _ I ip ltac:(lia) Hp) as [_ ET]. congruence. }
    { right. exists k. split; [apply elem_of_seq; lia|done]. }
    mrun E. unfold upd_inode. mred. mrun (Hgo ip (fun i => i_set_valid 0 (i_set_ref 1 (i_set_inum inum (i_set_dev ROOTDEV i)))) ltac:(lia)).
    eexists ip, _. split; [done|]. cbv zeta. unfold add_ref. rewrite refs_none by done. split.
    + apply (live_insert s T lk _ _ _ I); [lia|reflexivity|reflexivity].
    + split; [|intros j Hj Hrj; apply kept_insert; [lia|done|intros ->; lia]]. apply (itable_insert sb V s T lk I ip); cbn; try done; try lia.
      * intros m Hm. by rewrite lookup_insert_ne.
      * by rewrite lookup_insert_eq.
      * by apply (itb_free _ _ _ _ _ I); lia.
Qed.

Lemma idup_spec s T lk ip inum : running p s -> itable sb V s T lk -> live s ip inum -> refs T inum + 1 < 2 ^ 31 ->
  let s' := k_set_inodes (<[ip := i_set_ref (refs T inum + 1) (ent s ip)]> (k_inodes s)) s in
  idup ip s = Ok ip s' /\ live s' ip inum /\ itable sb V s' (add_ref T inum) lk.
Proof.
  intros Hr I Hl Hmax s'. pose proof (itb_len _ _ _ _ _ I) as Hlen. pose proof Hl as [Hip Hp Hi]. destruct (live_refs _ _ _ _ _ I Hl) as [E1 E2]. split; [|split].
  - unfold idup. mrun (acquire_eq LK_itable s (running_free _ _ _ Hr)). unfold upd_inode. mred.
    assert (E : release LK_itable (k_set_inodes (alter (fun i => i_set_ref (s32 (i_ref i + 1)) i) ip (k_inodes (locked LK_itable s))) (locked LK_itable s)) = Ok tt s').
    { unfold s'. rewrite E2. replace (i_ref (ent s ip) + 1) with (s32 (i_ref (ent s ip) + 1)) by (apply s32_small; lia).
      rewrite <- (alter_entry (fun i => i_set_ref (s32 (i_ref i + 1)) i)) by lia. leave LK_itable; [apply Hr|apply (running_free _ _ _ Hr)]. }
    by mrun E.
  - apply (live_insert s T lk _ _ _ I); [lia|change (0 < refs T inum + 1); lia|done].
  - pose proof (itable_set_ref s T lk ip inum (refs T inum + 1) I Hl ltac:(lia)) as I'.
    by rewrite (proj2 (Z.ltb_lt 0 _)) in I' by lia.
Qed.

(** iput() of an inode that stays on the disk. *)
Lemma iput_spec s T lk ip inum : running p s -> itable sb V s T lk -> live s ip inum -> refs T inum < 2 ^ 31 ->
  i_nlink (disk_inode sb V inum) <> 0 ->
  let s' := k_set_inodes (<[ip := i_set_ref (refs T inum - 1) (ent s ip)]> (k_inodes s)) s in
  iput ip s = Ok tt s' /\ itable sb V s' (drop_ref T inum) lk.
Proof.
  intros Hr I Hl Hmax Hnl s'. pose proof (itb_len _ _ _ _ _ I) as Hlen. pose proof Hl as [Hip Hp Hi]. destruct (live_refs _ _ _ _ _ I Hl) as [E1 E2]. split.
  - unfold iput, inode_at. mrun (acquire_eq LK_itable s (running_free _ _ _ Hr)). cbn [k_inodes locked]. change (k_inodes (locked LK_itable s)) with (k_inodes s).
    assert (Hno : (i_ref (ent s ip) =? 1) && c_true (i_valid (ent s ip)) && (i_nlink (ent s ip) =? 0) = false).
    { unfold c_true. destruct (Z.eqb_spec (i_valid (ent s ip)) 0) as [|Hv]; [by rewrite andb_false_r|].
      assert (Enl : i_nlink (ent s ip) = i_nlink (disk_inode sb V inum)).
      { pose proof (f_equal i_nlink (itb_fresh _ _ _ _ _ I ip Hip Hp Hv)) as E. rewrite Hi in E. exact (eq_sym E). }
      by rewrite Enl, (proj2 (Z.eqb_neq _ _) Hnl), andb_false_r. }
    rewrite Hno. mred. unfold upd_inode. mred. unfold s'. rewrite E2.
    replace (i_ref (ent s ip) - 1) with (s32 (i_ref (ent s ip) - 1)) by (apply s32_small; lia).
    rewrite <- (alter_entry (fun i => i_set_ref (s32 (i_ref i - 1)) i)) by lia. leave LK_itable; [apply Hr|apply (running_free _ _ _ Hr)].
  - pose proof (itable_set_ref s T lk ip inum (refs T inum - 1) I Hl ltac:(lia)) as I'.
    unfold drop_ref. destruct (Z.eqb_spec (refs T inum) 1) as [E|E].
    + rewrite (proj2 (Z.ltb_ge 0 _)) in I' by lia. done.
    + rewrite (proj2 (Z.ltb_lt 0 _)) in I' by lia. done.
Qed.

(** ** Locking an inode *)

Lemma ilock_cached s ip i : running p s -> (ip < length (k_inodes s))%nat -> k_inodes s !!! ip = i ->
  1 <= i_ref i -> sl_locked (i_lock i) = 0 -> i_valid i <> 0 ->
  ilock (Some ip) s = Ok tt (k_set_inodes (<[ip := i_set_lock (mkSl 1 (p_pid (k_procs s !!! p))) i]> (k_inodes s)) s).
Proof.
  intros Hr Hip Hi Href Hfree Hval. unfold ilock, inode_at. mred. rewrite Hi, (proj2 (Z.ltb_ge _ _)) by lia.
  assert (Hl : sl_locked (sl_get (SL_inode ip) s) = 0) by (cbn; by rewrite Hi). mrun (acquiresleep_eq p (SL_inode ip) s Hr Hip Hl).
  cbn [sl_put k_inodes k_set_inodes]. rewrite lookup_total_alter, Hi by done. change (i_valid (i_set_lock _ i)) with (i_valid i).
  rewrite (proj2 (Z.eqb_neq _ _) Hval). unfold ret. do 2 f_equal. rewrite <- Hi. by apply alter_as_insert.
Qed.

Lemma iunlock_held s ip i : running p s -> (ip < length (k_inodes s))%nat -> k_inodes s !!! ip = i ->
  1 <= i_ref i -> i_lock i = mkSl 1 (p_pid (k_procs s !!! p)) ->
  iunlock (Some ip) s = Ok tt (k_set_procs (woken_by p (CH_sleeplock (SL_inode ip)) (k_procs s))
                                (k_set_inodes (<[ip := i_set_lock (mkSl 0 0) i]> (k_inodes s)) s)).
Proof.
  intros Hr Hip Hi Href Hl. unfold iunlock, inode_at. mrun (holdingsleep_eq p (SL_inode ip) s Hr).
  cbn [sl_get]. rewrite Hi, Hl. cbn [sl_locked sl_pid]. change (c_true 1) with true. rewrite Z.eqb_refl. cbn [andb negb orb].
  rewrite (proj2 (Z.ltb_ge _ _)) by lia. rewrite (releasesleep_eq p (SL_inode ip) s Hr Hip). cbn [sl_put].
  rewrite <- Hi. by rewrite (alter_as_insert _ _ _ Hip).
Qed.

Lemma rd_procs s R ps : rd p s R V -> procs_rel p (k_procs s) ps -> rd p (k_set_procs ps s) R V.
Proof. intros [C ? ? ?] Hps. split; try done. by apply cache_procs. Qed.

Lemma procs_rd_step s ps : procs_rel p (k_procs s) ps -> rd_step p s (k_set_procs ps s).
Proof. intros Hps. split; [|done]. split; [by destruct s|done|reflexivity]. Qed.

(** ilock() of a live entry: it is loaded from the disk unless it is valid. *)
Record locked_entry (s : kstate) (ip : nat) (inum : Z) : Prop := {
  le_dev : i_dev (ent s ip) = ROOTDEV;
  le_valid : i_valid (ent s ip) <> 0;
  le_lock : i_lock (ent s ip) = mkSl 1 (p_pid (k_procs s !!! p));
  le_disk : dinode V sb inum (ent s ip) = ent s ip
}.

Lemma ilock_table s R T ip inum : rd p s R V -> k_sb s = sb -> fs_ok LS sb V -> 0 <= inum < sb_ninodes sb ->
  itable sb V s T None -> live s ip inum -> i_type (disk_inode sb V inum) <> 0 ->
  exists s', ilock (Some ip) s = Ok tt s' /\ rd p s' R V /\ rd_step p (k_set_inodes (k_inodes s') s) s' /\
    itable sb V s' T (Some ip) /\ live s' ip inum /\ locked_entry s' ip inum.
Proof.
  intros Hrd Hsb HV Hn I Hl Hty. pose proof (itb_len _ _ _ _ _ I) as Hlen. pose proof Hl as [Hip Hr Hi].
  pose proof (rd_running _ _ _ _ Hrd) as Hrun. destruct (itb_ent _ _ _ _ _ I ip Hip Hr) as [Hd HT].
  pose proof (itb_free _ _ _ _ _ I ip Hip ltac:(done)) as Hfree. set (lk := mkSl 1 (p_pid (k_procs s !!! p))).
  assert (Hgo : exists s' i, ilock (Some ip) s = Ok tt s' /\ rd p s' R V /\ rd_step p (k_set_inodes (<[ip := i]> (k_inodes s)) s) s' /\
    i_ref i = i_ref (ent s ip) /\ i_dev i = ROOTDEV /\ i_inum i = inum /\ i_lock i = lk /\ i_valid i <> 0 /\ dinode V sb inum i = i).
  { destruct (decide (i_valid (ent s ip) = 0)) as [Hv|Hv].
    - destruct (ilock_spec p LS sb s ip R V inum Hrd Hsb HV Hn) as (s' & E & Hrd' & S'); [split; (done || lia)|exact Hty|].
      eexists s', _. split; [exact E|]. split; [done|]. split; [exact S'|]. by split_and!.
    - pose proof (itb_fresh _ _ _ _ _ I ip Hip Hr Hv) as Hdk. rewrite Hi in Hdk. eexists _, (i_set_lock lk (ent s ip)).
      split; [apply (ilock_cached s ip (ent s ip)); (done || lia)|]. split; [rewrite set_other_inodes; by apply rd_other|]. split; [reflexivity|].
      split_and!; try done. change (dinode V sb inum (i_set_lock lk ?x)) with (i_set_lock lk (dinode V sb inum x)). by rewrite Hdk. }
  destruct Hgo as (s' & i & E & Hrd' & S' & Er & Ed & En & El & Ev & Edk).
  pose proof (ts_inodes _ _ _ (rs_tx _ _ _ S')) as Ein. cbn in Ein.
  assert (Ei : ent s' ip = i) by (rewrite Ein; apply list_lookup_total_insert_eq; lia).
  assert (I' : itable sb V (k_set_inodes (<[ip := i]> (k_inodes s)) s) T (Some ip)).
  { apply (itable_insert sb V s T None I ip); rewrite ?En; try done; try lia.
    - rewrite Er, (proj2 (Z.ltb_lt _ _) Hr), <- HT. by rewrite Hi. }
  exists s'. split; [done|]. split; [done|]. split; [by rewrite Ein|]. split; [by apply (itable_same sb V _ s' T _ (Ein : k_inodes s' = k_inodes (k_set_inodes _ s)) I')|].
  split; [split; rewrite ?Ei; (done || lia)|]. split; rewrite ?Ei; try done. by rewrite El, (ts_proc _ _ _ (rs_tx _ _ _ S')).
Qed.

Lemma iunlock_table s R T ip inum : rd p s R V -> itable sb V s T (Some ip) -> live s ip inum -> locked_entry s ip inum ->
  exists s', iunlock (Some ip) s = Ok tt s' /\ rd p s' R V /\ rd_step p (k_set_inodes (k_inodes s') s) s' /\
    itable sb V s' T None /\ live s' ip inum /\ forall k, k <> ip -> ent s' k = ent s k.
Proof.
  intros Hrd I Hl [Hd Hv Hlk Hdk]. pose proof (itb_len _ _ _ _ _ I) as Hlen. pose proof Hl as [Hip Hr Hi].
  pose proof (rd_running _ _ _ _ Hrd) as Hrun. destruct (itb_ent _ _ _ _ _ I ip Hip Hr) as [_ HT]. set (i' := i_set_lock (mkSl 0 0) (ent s ip)).
  eexists. split; [apply (iunlock_held s ip (ent s ip)); (done || lia)|]. fold i'. split.
  { apply rd_procs; [rewrite set_other_inodes; by apply rd_other|apply woken_by_rel]. }
  split; [apply (procs_rd_step (k_set_inodes _ s)), woken_by_rel|]. split.
  - apply (itable_same _ _ (k_set_inodes (<[ip := i']> (k_inodes s)) s)); [done|].
    apply (itable_insert sb V s T (Some ip) I ip); try done; try lia.
    + change (i_ref i') with (i_ref (ent s ip)). change (i_inum i') with (i_inum (ent s ip)). rewrite HT. by rewrite (proj2 (Z.ltb_lt _ _) Hr).
    + change (0 <= i_ref (ent s ip)). lia.
    + intros k Hk _ [= ->]. done.
    + intros _ _. change (i_inum i') with (i_inum (ent s ip)). rewrite Hi.
      change (dinode V sb inum i') with (i_set_lock (mkSl 0 0) (dinode V sb inum (ent s ip))). by rewrite Hdk.
  - split; [apply (live_ext (k_set_inodes (<[ip := i']> (k_inodes s)) s)); [done|]; by apply (live_insert s T (Some ip))|].
    intros k Hk. by apply list_lookup_total_insert_ne.
Qed.

End Ops.
