(* ===== verification/FsPath.v ===== *)
(** Path names: skipelem() of fs.c against the components of a path.

    The reference splits the path at its slashes; walking a path with
    skipelem(), as namex() does, visits the non-empty components in order,
    each cut to the DIRSIZ characters of a directory entry. *)

From S2P Require Import Prelude Riscv StringC State Spinlock Kalloc Vm Sched Sleeplock Printf Bio Log Fs.

Fixpoint split_on (sep : Z) (l : list Z) : list (list Z) :=
  match l with
  | [] => [[]]
  | c :: l =>
      if c =? sep then [] :: split_on sep l
      else match split_on sep l with [] => [[c]] | x :: xs => (c :: x) :: xs end
  end.

(** The components of the path up to its terminator. *)
Definition components (path : list Z) : list (list Z) :=
  filter (fun e => e <> []) (split_on SLASH (cstr path)).

(** The names skipelem() leaves in the array, one call after the other, each
    from the path the last one returned; [n] bounds the calls. *)
Fixpoint elements (n : nat) (path name : list Z) : list (list Z) :=
  match skipelem path name with
  | None => []
  | Some (path, name) =>
      match n with
      | O => []
      | S n => cstr (take DIRSIZ name) :: elements n path name
      end
  end.

Lemma components_slash p : components (SLASH :: p) = components p.
Proof.
  unfold components. change (cstr (SLASH :: p)) with (SLASH :: cstr p). cbn [split_on].
  by rewrite Z.eqb_refl, filter_cons_False by (intros H; by apply H).
Qed.

Lemma components_skip p : components (skip_slashes p) = components p.
Proof.
  induction p as [|c p IH]; [done|]. cbn [skip_slashes]. destruct (Z.eqb_spec c SLASH) as [->|]; [|done].
  by rewrite components_slash.
Qed.

Lemma skip_slashes_head p : hd 0 (skip_slashes p) <> SLASH.
Proof. induction p as [|c p IH]; cbn [skip_slashes]; [done|]. destruct (Z.eqb_spec c SLASH); done. Qed.

Lemma skip_slashes_length p : (length (skip_slashes p) <= length p)%nat.
Proof. induction p as [|c p IH]; cbn [skip_slashes]; [done|]. destruct (c =? SLASH); cbn; lia. Qed.

(** A component: no slash and no terminator inside, one of them behind. *)
Lemma span_elem_spec p : let '(s, rest) := span_elem p in
  p = s ++ rest /\ Forall (fun c => c <> SLASH /\ c <> 0) s /\ (hd 0 rest = SLASH \/ hd 0 rest = 0).
Proof.
  induction p as [|c p IH]; cbn [span_elem]; [split_and!; auto|].
  destruct (Z.eqb_spec c SLASH) as [->|Hs]; cbn [orb]; [split_and!; auto|].
  destruct (Z.eqb_spec c 0) as [->|H0]; [split_and!; auto|].
  destruct (span_elem p) as [s rest]. destruct IH as (-> & Hf & Hr). split_and!; auto.
Qed.

Lemma cstr_prefix s rest : Forall (fun c => c <> SLASH /\ c <> 0) s -> cstr (s ++ rest) = s ++ cstr rest.
Proof.
  induction 1 as [|c s [_ Hc] _ IH]; [done|]. cbn. by rewrite (proj2 (Z.eqb_neq c 0) Hc), IH.
Qed.

Lemma split_on_prefix s l : Forall (fun c => c <> SLASH /\ c <> 0) s ->
  exists x xs, split_on SLASH l = x :: xs /\ split_on SLASH (s ++ l) = (s ++ x) :: xs.
Proof.
  induction 1 as [|c s [Hc _] _ IH]; cbn.
  - destruct l as [|d l]; cbn; [eauto|]. destruct (d =? SLASH); [eauto|]. destruct (split_on SLASH l); eauto.
  - destruct IH as (x & xs & E1 & E2). exists x, xs. rewrite E2, (proj2 (Z.eqb_neq c SLASH) Hc). done.
Qed.

Lemma components_elem s rest : s <> [] -> Forall (fun c => c <> SLASH /\ c <> 0) s ->
  hd 0 rest = SLASH \/ hd 0 rest = 0 -> components (s ++ rest) = s :: components rest.
Proof.
  intros Hne Hs Hr. unfold components. rewrite cstr_prefix by done.
  destruct (split_on_prefix s (cstr rest) Hs) as (x & xs & E1 & E2).
  assert (x = []) as ->.
  { destruct rest as [|d rest]; cbn in E1, Hr; [congruence|]. destruct (Z.eqb_spec d 0); cbn in E1; [congruence|].
    destruct (Z.eqb_spec d SLASH); [congruence|]. destruct Hr; done. }
  rewrite E2, E1, app_nil_r, filter_cons_True by done. by rewrite filter_cons_False by (intros H; by apply H).
Qed.

(** The name skipelem() leaves. *)
Lemma skipelem_name name s : length name = DIRSIZ -> Forall (fun c => c <> SLASH /\ c <> 0) s ->
  let name' := if (DIRSIZ <=? length s)%nat then put_bytes name 0 (take DIRSIZ s) else put_bytes name 0 (s ++ [0]) in
  length name' = DIRSIZ /\ cstr (take DIRSIZ name') = take DIRSIZ s.
Proof.
  intros Hl Hs. destruct (Nat.leb_spec DIRSIZ (length s)) as [Hle|Hlt]; cbn zeta.
  - assert (length (take DIRSIZ s) = DIRSIZ) as Ht by (rewrite length_take; lia).
    rewrite length_put_bytes by lia. split; [done|]. unfold put_bytes. rewrite take_0. cbn [app].
    rewrite take_app_length' by lia. rewrite <- (app_nil_r (take DIRSIZ s)) at 1. rewrite cstr_prefix by (by apply Forall_take).
    by rewrite app_nil_r.
  - rewrite length_put_bytes by (rewrite length_app; cbn; lia). split; [done|]. unfold put_bytes. rewrite take_0. cbn [app].
    rewrite <- app_assoc, take_app_ge by lia. rewrite cstr_prefix, (take_ge s) by (done || lia).
    destruct (DIRSIZ - length s)%nat eqn:E; [lia|]. cbn. by rewrite app_nil_r.
Qed.

(** One call of skipelem(): the first component, and the path of the others. *)
Lemma skipelem_step path name : length name = DIRSIZ ->
  match components path with
  | [] => skipelem path name = None
  | c :: cs => exists path' name', skipelem path name = Some (path', name') /\ components path' = cs /\
      (length path' < length path)%nat /\ length name' = DIRSIZ /\ cstr (take DIRSIZ name') = take DIRSIZ c /\ cstr c = c /\
      (hd 0 path' = 0 <-> cs = [])
  end.
Proof.
  intros Hl. unfold skipelem. rewrite <- (components_skip path). pose proof (skip_slashes_length path) as Hlen.
  pose proof (skip_slashes_head path) as Hhd. set (p := skip_slashes path) in *.
  destruct (Z.eqb_spec (hd 0 p) 0) as [E0|Hne]; [destruct p as [|c p']; [done|]; cbn in E0; subst c; done|].
  pose proof (span_elem_spec p) as Hspan. destruct (span_elem p) as [s rest] eqn:Es. destruct Hspan as (Ep & Hf & Hr).
  assert (s <> []) as Hs by (intros ->; cbn in Ep; subst rest; destruct Hr; done).
  destruct (skipelem_name name s Hl Hf) as [Hl' Hc]. cbn zeta in Hl', Hc. rewrite Ep, components_elem by done.
  eexists _, _. split; [reflexivity|]. split; [apply components_skip|]. pose proof (skip_slashes_length rest).
  apply (f_equal length) in Ep. rewrite length_app in Ep. split; [destruct s; [done|]; cbn in Ep; lia|].
  split; [exact Hl'|]. split; [exact Hc|]. split; [rewrite <- (app_nil_r s) at 1; rewrite cstr_prefix by done; apply app_nil_r|].
  rewrite <- (components_skip rest). pose proof (skip_slashes_head rest) as Hh. destruct (skip_slashes rest) as [|c q]; [done|].
  change (hd 0 (c :: q)) with c in *. split; [intros ->; done|]. intros E. destruct (decide (c = 0)) as [|Hc0]; [done|exfalso].
  pose proof (span_elem_spec (c :: q)) as Hsp. destruct (span_elem (c :: q)) as [s2 r2] eqn:E2. destruct Hsp as (Ep2 & Hf2 & Hr2).
  assert (s2 <> []) by (intros ->; cbn in Ep2; subst r2; cbn in Hr2; destruct Hr2; done). rewrite Ep2, components_elem in E; done.
Qed.

Lemma elements_spec n : forall path name, (length path <= n)%nat -> length name = DIRSIZ ->
  elements n path name = map (take DIRSIZ) (components path).
Proof.
  induction n as [|n IH]; intros path name Hn Hl; cbn [elements]; pose proof (skipelem_step path name Hl) as Hst;
    (destruct (components path) as [|c cs]; [by rewrite Hst|]); destruct Hst as (path' & name' & -> & Ecs & Hlt & Hl' & Hc & _ & _).
  - lia.
  - cbn [map]. rewrite Hc, <- Ecs. f_equal. apply IH; [lia|done].
Qed.

(** Walking a path with skipelem() visits exactly its components: the
    non-empty strings between the slashes of the path, in order, each cut to
    DIRSIZ characters, whatever the number of slashes between them and around
    them. One call for each character of the path is enough. *)
Theorem skipelem_components path name : length name = DIRSIZ ->
  elements (length path) path name = map (take DIRSIZ) (components path).
Proof. intros Hl. by apply elements_spec. Qed.

Lemma skipelem_components_witness :
  elements 25 (chars "///usr//a_very_long_name/") (replicate DIRSIZ 7) = [chars "usr"; chars "a_very_long_na"].
Proof. apply (skipelem_components (chars "///usr//a_very_long_name/") (replicate DIRSIZ 7)). reflexivity. Defined.
