(* ===== verification/FsNamei.v ===== *)
(** Path resolution: namex() of fs.c against the directory tree on the disk.

    [resolve] follows the components of a path through the directories of the
    disk. namex() does the same with the inode table, the locks and the
    references of the inodes on the way, and leaves one reference, on the inode
    it found. *)

From S2P Require Import Prelude Riscv StringC State Spinlock Kalloc Vm Sched Sleeplock Printf PrintfSpec Bio BioSpec Log LogSpec FsTx FsOp Fs FsBlock FsFile FsInode FsRw FsRead FsDir FsDisk FsExample FsTable FsPath.

(** ** The tree on the disk *)

Section Tree.
Context (LS : Z) (sb : superblock) (V : gmap Z (list Z)).

Definition dir_at (n : Z) : list (list Z) := entries (file_data sb V n).
Definition type_at (n : Z) : Z := i_type (disk_inode sb V n).

(** An inode that a directory may name. *)
Definition present (n : Z) : Prop := 0 <= n < sb_ninodes sb /\ type_at n <> 0 /\ i_nlink (disk_inode sb V n) <> 0.

Record tree_ok : Prop := {
  tr_ok : fs_ok LS sb V;
  tr_dir n : 0 <= n < sb_ninodes sb -> type_at n = T_DIR ->
    sound_file LS sb V n /\ exists k : nat, i_size (disk_inode sb V n) = 16 * Z.of_nat k;
  tr_entry n m name : 0 <= n < sb_ninodes sb -> type_at n = T_DIR -> dir_get (dir_at n) name = Some m -> present m
}.

(** The inode a path leads to from [cur], or the directory that should hold its
    last component. *)
Fixpoint resolve (parent : bool) (cur : Z) (cs : list (list Z)) : option Z :=
  match cs with
  | [] => if parent then None else Some cur
  | c :: cs =>
      if type_at cur =? T_DIR then
        if parent && bool_decide (cs = []) then Some cur else
        match dir_get (dir_at cur) c with
        | None => None
        | Some n => resolve parent n cs
        end
      else None
  end.

End Tree.

Lemma dir_find_dname es name name' : dname name = dname name' -> forall k, dir_find es name k = dir_find es name' k.
Proof.
  intros E. induction es as [|e es IH]; intros k; cbn [dir_find]; [done|]. unfold named. rewrite E. by destruct (_ && _).
Qed.

(** ** References come and go *)

Lemma refs_add T n m : refs (add_ref T n) m = refs T m + if bool_decide (m = n) then 1 else 0.
Proof.
  unfold add_ref. case_bool_decide as E; [subst; by rewrite refs_insert_eq|rewrite refs_insert_ne by done; lia].
Qed.

Lemma drop_add T n : (forall k, T !! n = Some k -> 0 < k) -> drop_ref (add_ref T n) n = T.
Proof. apply drop_ref_insert. Qed.

Lemma drop_add_add T a b : (forall n k, T !! n = Some k -> 0 < k) -> drop_ref (add_ref (add_ref T a) b) a = add_ref T b.
Proof.
  intros Hp. destruct (decide (a = b)) as [->|Hne].
  - apply drop_add. intros k. unfold add_ref. rewrite lookup_insert_eq. intros [= <-]. unfold refs.
    destruct (T !! b) as [j|] eqn:E; cbn; [pose proof (Hp _ _ E)|]; lia.
  - unfold add_ref at 1. rewrite refs_add, bool_decide_eq_false_2, Z.add_0_r by done.
    unfold drop_ref, add_ref. rewrite refs_insert_ne, refs_insert_eq by done. rewrite Z.add_simpl_r.
    destruct (Z.eqb_spec (refs T a + 1) 1) as [E|E].
    + rewrite delete_insert_ne by done. f_equal. rewrite delete_insert_id; [done|]. unfold refs in E.
      destruct (T !! a) as [j|] eqn:Ej; [|done]. cbn in E. pose proof (Hp _ _ Ej). lia.
    + rewrite insert_insert_ne by done. f_equal. rewrite insert_insert_eq. apply insert_id. unfold refs in *.
      destruct (T !! a) as [j|] eqn:Ej; cbn in *; [done|lia].
Qed.

Lemma size_add T n : (size (add_ref T n) <= S (size T))%nat.
Proof.
  unfold add_ref. destruct (T !! n) as [k|] eqn:E; [rewrite map_size_insert_Some by done; lia|by rewrite map_size_insert_None].
Qed.

(** ** namex() *)

Section Namei.
Context `{L : Linker} `{D : BlockDev}.
Context (p : nat) (LS : Z) (sb : superblock) (V : gmap Z (list Z)) (R : gmap Z Z) (HT : tree_ok LS sb V).

(** What path resolution may change. *)
Record nm_step (s s' : kstate) : Prop := {
  nm_rd : rd_step p (set_other (k_mem s') (k_inodes s') s) s';
  nm_scratch : scratch s s'
}.

#[local] Instance nm_step_refl : Reflexive nm_step.
Proof. intros s. split; [by destruct s|done]. Qed.

#[local] Instance nm_step_trans : Transitive nm_step.
Proof.
  intros s1 s2 s3 [R1 S1] [R2 S2]. split; [|intros a Ha; rewrite S2 by done; by apply S1].
  etrans; [|exact R2]. unfold set_other in *.
  pose proof (rd_step_mem _ _ _ (k_mem s3) (rd_step_inodes _ _ _ (k_inodes s3) R1)) as H. exact H.
Qed.

Lemma nm_inodes x s : nm_step s (k_set_inodes x s).
Proof. split; [|done]. split; [|done]. split; [by destruct s|reflexivity|reflexivity]. Qed.

Lemma nm_of_rd s s' : rd_step p (k_set_inodes (k_inodes s') s) s' -> nm_step s s'.
Proof.
  intros S. pose proof (ts_mem _ _ _ (rs_tx _ _ _ S)) as Em. cbn in Em. split; [|intros a _; by rewrite Em]. unfold set_other.
  rewrite Em. destruct s. exact S.
Qed.

(** The state between two steps: the locked entry [lk], the references [T]. *)
Record nst (s : kstate) (T : gmap Z Z) (lk : option nat) : Prop := {
  ns_rd : rd p s R V;
  ns_sb : k_sb s = sb;
  ns_tab : itable sb V s T lk
}.

Lemma nst_step s s' T T' lk lk' : nst s T lk -> nm_step s s' -> rd p s' R V -> itable sb V s' T' lk' -> nst s' T' lk'.
Proof. intros [_ Hsb _] [[S _] _] Hrd I. split; try done. by rewrite (ts_sb _ _ _ S). Qed.

Lemma nst_ilock s T ip n : nst s T None -> live s ip n -> present sb V n ->
  exists s', ilock (Some ip) s = Ok tt s' /\ nm_step s s' /\ nst s' T (Some ip) /\ live s' ip n /\ locked_entry p sb V s' ip n.
Proof.
  intros N Hl (Hn & Hty & _). pose proof N as [Hrd Hsb I].
  destruct (ilock_table p LS sb V s R T ip n Hrd Hsb (tr_ok _ _ _ HT) Hn I Hl Hty) as (s' & E & Hrd' & S & I' & Hl' & He).
  apply nm_of_rd in S. exists s'. split; [done|]. split; [done|]. split; [by apply (nst_step s _ T _ None)|done].
Qed.

(** iunlockput(): the lock and the reference go. *)
Lemma nst_put s T ip n : nst s T (Some ip) -> live s ip n -> locked_entry p sb V s ip n -> present sb V n -> refs T n < 2 ^ 31 ->
  exists s', iunlockput (Some ip) s = Ok tt s' /\ nm_step s s' /\ nst s' (drop_ref T n) None /\
    forall k m, live s k m -> (k = ip -> 1 < refs T n) -> live s' k m.
Proof.
  intros N Hl He (Hn & Hty & Hnl) Hmax. pose proof N as [Hrd Hsb I].
  destruct (iunlock_table p sb V s R T ip n Hrd I Hl He) as (s1 & E1 & Hrd1 & S1 & I1 & Hl1 & Ho).
  destruct (iput_spec p sb V s1 T None ip n (rd_running _ _ _ _ Hrd1) I1 Hl1 Hmax Hnl) as [E2 I2].
  unfold iunlockput. mrun E1. cbn [deref]. mred. mrun E2. eexists. split; [done|]. pose proof (nm_of_rd _ _ S1) as S1'.
  assert (S : nm_step s (k_set_inodes (<[ip := i_set_ref (refs T n - 1) (ent s1 ip)]> (k_inodes s1)) s1)) by (etrans; [done|apply nm_inodes]).
  split; [done|]. split.
  { apply (nst_step s _ T _ (Some ip)); [done|done|rewrite set_other_inodes; by apply rd_other|done]. }
  intros k m [Hk Hrk Hik] Hip. pose proof (itb_len _ _ _ _ _ I1) as Hlen. destruct (decide (k = ip)) as [->|Hne].
  - apply (live_insert sb V s1 T None); [done|done|cbn; specialize (Hip eq_refl); lia|]. change (i_inum (ent s1 ip) = m).
    rewrite (lv_inum _ _ _ Hl1). rewrite <- (lv_inum _ _ _ Hl). done.
  - split; [done|..]; change (ent (k_set_inodes ?x s1) k) with (x !!! k); rewrite list_lookup_total_insert_ne by done; by rewrite Ho.
Qed.

(** The entry [ip] as it is while it is locked. *)
Definition at_dir (s : kstate) (ip : nat) (n : Z) : Prop := live s ip n /\ locked_entry p sb V s ip n.

Lemma at_dir_kept s s' ip n : kept s s' ip -> k_procs s' !!! p = k_procs s !!! p -> at_dir s ip n -> at_dir s' ip n.
Proof.
  intros (c & Hc & E) Ep [[Hip Hr Hi] [Hd Hv Hl Hk]]. split; split; rewrite ?E, ?Ep; try done.
  change (dinode V sb n (i_set_ref c ?x)) with (i_set_ref c (dinode V sb n x)). by rewrite Hk.
Qed.

Lemma nst_readable s T ip n : nst s T (Some ip) -> at_dir s ip n -> 0 <= n < sb_ninodes sb -> type_at sb V n = T_DIR ->
  exists k, readable p LS sb R s ip V (ent s ip) /\ is_dir (ent s ip) k /\ dir_of V (ent s ip) = dir_at sb V n.
Proof.
  intros [Hrd Hsb I] [_ [Hd Hv Hlk Hdk]] Hn Hty. destruct (tr_dir _ _ _ HT n Hn Hty) as [[_ HV HF Hs Hb] [k Hk]].
  destruct (disk_inode_of _ _ _ _ Hdk) as [Ea Es]. rewrite Ea in HF, Hb. rewrite Es in Hs, Hb, Hk. exists k. split; [by split|]. split.
  - split; [|done]. rewrite <- Hdk. exact Hty.
  - unfold dir_of, dir_at. by rewrite (file_data_of _ _ _ _ Hdk).
Qed.

Lemma nst_lookup s T ip n name : nst s T (Some ip) -> at_dir s ip n -> 0 <= n < sb_ninodes sb -> type_at sb V n = T_DIR ->
  (size T < NINODE)%nat -> (forall m, refs T m + 1 < 2 ^ 31) ->
  exists s', nm_step s s' /\ at_dir s' ip n /\
    match dir_get (dir_at sb V n) name with
    | None => dirlookup ip name s = Ok None s' /\ nst s' T (Some ip)
    | Some m => exists next o, dirlookup ip name s = Ok (Some (next, o)) s' /\ nst s' (add_ref T m) (Some ip) /\ live s' next m
    end.
Proof.
  intros N Hat Hn Hty Hsz Hmax. destruct (nst_readable s T ip n N Hat Hn Hty) as (k & Hre & Hdir & Ed). pose proof N as [Hrd Hsb I].
  destruct (dirlookup_spec p LS sb R s ip V (ent s ip) k name Hre Hdir) as (s1 & S1 & Hrd1 & Hsc & E). rewrite Ed in E.
  pose proof (ts_inodes _ _ _ (rs_tx _ _ _ S1)) as Ein. cbn in Ein. pose proof (ts_proc _ _ _ (rs_tx _ _ _ S1)) as Ep. cbn in Ep.
  assert (N1 : nm_step s s1) by (split; [unfold set_other; rewrite Ein; by destruct s|done]).
  pose proof (itable_same sb V s s1 T _ Ein I) as I1.
  assert (Hat1 : at_dir s1 ip n).
  { apply (at_dir_kept s); [|done|done]. exists (i_ref (ent s ip)). split; [apply Hat|]. rewrite Ein. by destruct (ent s ip). }
  assert (Hst1 : nst s1 T (Some ip)) by by apply (nst_step s _ T _ (Some ip)).
  unfold dir_get. destruct (dir_find (dir_at sb V n) name 0) as [[j m]|]; cbn [fmap option_fmap option_map snd].
  - destruct (iget_spec p sb V s1 T (Some ip) m (rd_running _ _ _ _ Hrd1) I1 ltac:(by left) (Hmax m)) as (next & i' & Eg & Hl & I2 & Hk).
    set (s2 := k_set_inodes _ s1) in *. exists s2. split; [etrans; [done|apply nm_inodes]|]. split.
    { apply (at_dir_kept s1); [|done|done]. apply Hk; apply Hat1. }
    exists next, (16 * Z.of_nat j). rewrite E. mrun Eg. split; [done|]. split; [|done].
    apply (nst_step s1 _ T _ (Some ip)); [done|apply nm_inodes|unfold s2; rewrite set_other_inodes; by apply rd_other|done].
  - exists s1. split; [done|]. split; [done|]. split; [by rewrite E|done].
Qed.

(** What namex() returns and leaves: a reference on the inode the path leads to. *)
Record named_inode (T : gmap Z Z) (parent : bool) (cs : list (list Z)) (res : option Z) (r : option nat) (name : list Z) (s' : kstate) : Prop := {
  nx_found : match res with
             | None => r = None /\ nst s' T None
             | Some m => exists ip, r = Some ip /\ live s' ip m /\ nst s' (add_ref T m) None
             end;
  nx_name : parent = true -> is_Some res -> dname name = dname (default [] (last cs))
}.

Lemma nst_iput s T ip n : nst s (add_ref T n) None -> live s ip n -> present sb V n -> refs T n + 1 < 2 ^ 31 ->
  (forall m j, T !! m = Some j -> 0 < j) -> exists s', iput ip s = Ok tt s' /\ nm_step s s' /\ nst s' T None.
Proof.
  intros N Hl (Hn & Hty & Hnl) Hmax Hp. pose proof N as [Hrd Hsb I].
  destruct (iput_spec p sb V s (add_ref T n) None ip n (rd_running _ _ _ _ Hrd) I Hl) as [E I']; [|done|].
  { rewrite refs_add, bool_decide_eq_true_2 by done. lia. }
  rewrite drop_add in I' by (intros k; apply Hp). eexists. split; [exact E|]. split; [apply nm_inodes|].
  apply (nst_step s _ (add_ref T n) _ None); [done|apply nm_inodes|rewrite set_other_inodes; by apply rd_other|done].
Qed.

(** The directory is given back before the next step. *)
Lemma nst_leave s T ip n : nst s (add_ref T n) (Some ip) -> at_dir s ip n -> present sb V n -> refs T n + 1 < 2 ^ 31 ->
  (forall m j, T !! m = Some j -> 0 < j) -> exists s', iunlockput (Some ip) s = Ok tt s' /\ nm_step s s' /\ nst s' T None.
Proof.
  intros N [Hl He] Hpr Hmax Hp. destruct (nst_put s (add_ref T n) ip n N Hl He Hpr) as (s' & E & S & N' & _).
  { rewrite refs_add, bool_decide_eq_true_2 by done. lia. }
  rewrite drop_add in N' by (intros k; apply Hp). eauto.
Qed.

Lemma nst_go_on s T ip n next m : nst s (add_ref (add_ref T n) m) (Some ip) -> at_dir s ip n -> live s next m -> present sb V n -> refs T n + 2 < 2 ^ 31 ->
  (forall m j, T !! m = Some j -> 0 < j) ->
  exists s', iunlockput (Some ip) s = Ok tt s' /\ nm_step s s' /\ nst s' (add_ref T m) None /\ live s' next m.
Proof.
  intros N [Hl He] Hl2 Hpr Hmax Hp. assert (H0 : 0 <= refs T n).
  { unfold refs. destruct (T !! n) as [j|] eqn:E; cbn; [pose proof (Hp _ _ E)|]; lia. }
  destruct (nst_put s _ ip n N Hl He Hpr) as (s' & E & S & N' & Hkeep).
  { rewrite !refs_add, (bool_decide_eq_true_2 (n = n)) by done. case_bool_decide; lia. }
  rewrite drop_add_add in N' by done. exists s'. split; [done|]. split; [done|]. split; [done|]. apply Hkeep; [done|]. intros ->.
  assert (m = n) as -> by (rewrite <- (lv_inum _ _ _ Hl2); apply Hl).
  rewrite !refs_add, !bool_decide_eq_true_2 by done. lia.
Qed.

Lemma namex_loop_spec parent T : (forall m j, T !! m = Some j -> 0 < j) -> (size T + 2 <= NINODE)%nat -> (forall m, refs T m < 2 ^ 30) ->
  forall k path name s ip n, (length path <= k)%nat -> length name = DIRSIZ -> nst s (add_ref T n) None -> live s ip n -> present sb V n ->
  exists r name' s', namex_loop k ip path name parent s = Ok (r, name') s' /\ nm_step s s' /\
    named_inode T parent (components path) (resolve sb V parent n (components path)) r name' s'.
Proof.
  intros Hp Hsz Hmax. induction k as [|k IH]; intros path name s ip n Hk Hl N Hlv Hpr; cbn [namex_loop];
    pose proof (skipelem_step path name Hl) as Hst; (destruct (components path) as [|c cs]; [rewrite Hst|]).
  1,3: cbn [resolve]; destruct parent;
    [destruct (nst_iput s T ip n N Hlv Hpr ltac:(pose proof (Hmax n); lia) Hp) as (s' & E & S & N'); mrun E; eexists None, name, s';
       split; [done|]; split; [done|]; split; [done|by intros _ [? ?]]
    |exists (Some ip), name, s; split; [done|]; split; [done|]; split; [by exists ip|done]].
  { destruct Hst as (path' & name' & _ & _ & Hlt & _). lia. }
  destruct Hst as (path' & name' & -> & Ecs & Hlt & Hl' & Hc & Ecstr & Hend).
  assert (Hdn : dname name' = dname c).
  { unfold dname. rewrite (take_ge name') in Hc by lia. by rewrite Hc, Ecstr, take_take, Nat.min_id. }
  destruct (nst_ilock s _ ip n N Hlv Hpr) as (s1 & E1 & S1 & N1 & Hlv1 & He1). mrun E1. unfold inode_at. mred.
  assert (Hat1 : at_dir s1 ip n) by done. pose proof (Hmax n) as Hmn.
  assert (Ety : i_type (ent s1 ip) = type_at sb V n) by (rewrite <- (le_disk _ _ _ _ _ _ He1); done).
  cbn [resolve]. rewrite Ety. destruct (Z.eqb_spec (type_at sb V n) T_DIR) as [Hd|Hd]; cbn [negb].
  2: { destruct (nst_leave s1 T ip n N1 Hat1 Hpr ltac:(lia) Hp) as (s2 & E2 & S2 & N2). mrun E2. exists None, name', s2.
       split; [done|]. split; [by etrans|]. split; [done|by intros _ [? ?]]. }
  assert (Eb : (hd 0 path' =? 0) = bool_decide (cs = [])).
  { destruct (Z.eqb_spec (hd 0 path') 0) as [E0|E0]; [rewrite bool_decide_eq_true_2|rewrite bool_decide_eq_false_2]; tauto. }
  rewrite Eb. destruct (parent && bool_decide (cs = [])) eqn:Epar.
  { apply andb_true_iff in Epar as [-> Hcs%bool_decide_eq_true]. subst cs.
    destruct (iunlock_table p sb V s1 R _ ip n (ns_rd _ _ _ N1) (ns_tab _ _ _ N1) Hlv1 He1) as (s2 & E2 & Hrd2 & S2 & I2 & Hl2 & _). mrun E2.
    apply nm_of_rd in S2. exists (Some ip), name', s2. split; [done|]. split; [by etrans|]. rewrite Hcs. split; [|done]. exists ip. split; [done|]. split; [done|].
    by apply (nst_step s1 _ (add_ref T n) _ (Some ip)). }
  destruct (nst_lookup s1 (add_ref T n) ip n name' N1 Hat1 (proj1 Hpr) Hd) as (s2 & S2 & Hat2 & Hm).
  { pose proof (size_add T n). lia. } { intros m. rewrite refs_add. pose proof (Hmax m). destruct (bool_decide (m = n)); lia. }
  assert (Edn : dir_get (dir_at sb V n) name' = dir_get (dir_at sb V n) c) by (unfold dir_get; by rewrite (dir_find_dname _ _ c)).
  rewrite Edn in Hm. destruct (dir_get (dir_at sb V n) c) as [m|] eqn:Eg.
  - destruct Hm as (next & o & E2 & N2 & Hl2). mrun E2.
    destruct (nst_go_on s2 T ip n next m N2 Hat2 Hl2 Hpr ltac:(lia) Hp) as (s3 & E3 & S3 & N3 & Hl3). mrun E3.
    destruct (IH path' name' s3 next m) as (r & nm & s4 & E4 & S4 & [Hf Hnm]); try done; [lia|by apply (tr_entry _ _ _ HT n m c (proj1 Hpr) Hd)|].
    exists r, nm, s4. split; [done|]. split; [by repeat (etrans; [eassumption|])|]. rewrite <- Ecs. split; [done|]. intros Hpt His. rewrite Hnm by done.
    subst parent. cbn in Epar. rewrite bool_decide_eq_false in Epar. rewrite <- Ecs in Epar. destruct (components path'); [done|]. done.
  - destruct Hm as [E2 N2]. mrun E2. destruct (nst_leave s2 T ip n N2 Hat2 Hpr ltac:(lia) Hp) as (s3 & E3 & S3 & N3). mrun E3.
    exists None, name', s3. split; [done|]. split; [by repeat (etrans; [eassumption|])|]. split; [done|by intros _ [? ?]].
Qed.

End Namei.

(** ** The contract of namex() *)

Section Claims.
Context `{L : Linker} `{D : BlockDev}.

(** The inode a path starts from: the root, or the current directory. *)
Definition starts (p : nat) (s : kstate) (path : list Z) (start : Z) : Prop :=
  if hd 0 path =? SLASH then start = ROOTINO
  else exists cwd, p_cwd (k_procs s !!! p) = Some cwd /\ live s cwd start.

(** C6: namex(), the body of namei() and nameiparent(), on a disk whose
    directories are well formed, with room for two more inodes in the table. It
    returns the inode that the components of the path lead to from the root or
    the current directory (for nameiparent(), the directory that should hold
    the last component, whose name it leaves in [name]), with exactly one more
    reference; or 0, with every reference as before, when a component is
    missing or is not a directory. No lock is held afterwards, and nothing is
    written to the disk or to memory but the scratch directory entry. *)
Theorem namex_resolves p LS sb V R T s parent path name start :
  rd p s R V -> k_sb s = sb -> itable sb V s T None -> tree_ok LS sb V -> starts p s path start -> present sb V start ->
  (size T + 2 <= NINODE)%nat -> (forall m, refs T m < 2 ^ 30) -> length name = DIRSIZ ->
  exists r name' s', namex path parent name s = Ok (r, name') s' /\ nm_step p s s' /\
    named_inode p sb V R T parent (components path) (resolve sb V parent start (components path)) r name' s'.
Proof.
  intros Hrd Hsb I HT Hst Hpr Hsz Hmax Hl. pose proof (rd_running _ _ _ _ Hrd) as Hr. pose proof (Hmax start) as Hms.
  assert (Hp : forall m j, T !! m = Some j -> 0 < j) by (intros m j Hj; by destruct (itb_has _ _ _ _ _ I m j Hj)).
  assert (Hgo : exists ip s1, (if hd 0 path =? SLASH then iget ROOTDEV ROOTINO
      else me <- myproc;; q <- deref me;; pr <- proc_at q;; cwd <- deref (p_cwd pr);; idup cwd) s = Ok ip s1 /\
    nm_step p s s1 /\ nst p sb V R s1 (add_ref T start) None /\ live s1 ip start).
  { assert (Hnst : forall x, itable sb V (k_set_inodes x s) (add_ref T start) None -> nst p sb V R (k_set_inodes x s) (add_ref T start) None).
    { intros x Ix. split; [rewrite set_other_inodes; by apply rd_other|done|done]. }
    unfold starts in Hst. destruct (hd 0 path =? SLASH).
    - subst start. destruct (iget_spec p sb V s T None ROOTINO Hr I ltac:(left; lia) ltac:(lia)) as (ip & i' & E & Hlv & I' & _).
      eexists ip, _. split; [exact E|]. split; [apply nm_inodes|]. split; [by apply Hnst|done].
    - destruct Hst as (cwd & Ecwd & Hlv). destruct (idup_spec p sb V s T None cwd start Hr I Hlv ltac:(lia)) as (E & Hlv' & I').
      exists cwd. eexists. split; [|split; [apply nm_inodes|split; [by apply Hnst|exact Hlv']]].
      mrun (myproc_eq s (rn_settled _ _ Hr)). rewrite (rn_cur _ _ Hr). cbn [deref]. unfold proc_at. mred. rewrite Ecwd. cbn [deref]. by mred. }
  destruct Hgo as (ip & s1 & E1 & S1 & N1 & Hlv).
  destruct (namex_loop_spec p LS sb V R HT parent T Hp Hsz Hmax (S (length path)) path name s1 ip start) as (r & name' & s2 & E2 & S2 & H2); try done; [lia|].
  exists r, name', s2. split; [unfold namex; by mrun E1|]. split; [by apply (nm_step_trans p s s1)|done].
Qed.

End Claims.

Module NameiExample.
Import FsExample RamDisk.
#[local] Existing Instance VmTable.Example.linker.

Definition table0 : gmap Z Z := {[1 := 1; 2 := 1]}.

Lemma itable0 s : system s -> itable sb0 disk0 s table0 None.
Proof.
  intros Hs. pose proof (sy_inodes _ Hs) as Ei.
  assert (Hent : forall ip, (ip < NINODE)%nat -> ip = 0%nat /\ ent s ip = dir_inode \/ ip = 1%nat /\ ent s ip = file_inode \/ ent s ip = free_inode).
  { intros ip Hip. rewrite Ei. destruct ip as [|[|ip]]; [by left|by right; left|]. right. right.
    change (inodes0 !!! S (S ip)) with (replicate 48 free_inode !!! ip). apply lookup_total_replicate_2. unfold NINODE in Hip. lia. }
  split.
  - rewrite Ei. reflexivity.
  - intros ip Hip. destruct (Hent ip Hip) as [[_ ->]|[[_ ->]| ->]]; done.
  - intros ip Hip. destruct (Hent ip Hip) as [[_ ->]|[[_ ->]| ->]]; cbn; try lia; intros _; split; done.
  - intros n c Hc. unfold table0 in Hc. apply lookup_insert_Some in Hc as [[<- <-]|[_ Hc]].
    + split; [lia|]. exists 0%nat. rewrite Ei. split; [apply Nat.ltb_lt; reflexivity|done].
    + apply lookup_singleton_Some in Hc as [<- <-]. split; [lia|]. exists 1%nat. rewrite Ei. split; [apply Nat.ltb_lt; reflexivity|done].
  - intros ip ip' Hip Hip'. destruct (Hent ip Hip) as [[-> ->]|[[-> ->]| ->]], (Hent ip' Hip') as [[-> ->]|[[-> ->]| ->]]; cbn; done || lia.
  - intros ip Hip _. destruct (Hent ip Hip) as [[_ ->]|[[_ ->]| ->]]; done.
  - intros ip Hip Hr _. rewrite <- (sy_disk _ Hs). destruct (Hent ip Hip) as [[_ E]|[[_ E]|E]]; rewrite E in *;
      [apply (sy_dir _ Hs)|apply (sy_file _ Hs)|cbn in Hr; lia].
Qed.

Lemma types0 n : 0 <= n < 16 -> type_at sb0 disk0 n = if n =? 1 then T_DIR else if (n =? 2) || (n =? 3) then T_FILE else 0.
Proof.
  intros Hn. assert (Hall : forallb (fun n => type_at sb0 disk0 n =? (if n =? 1 then T_DIR else if (n =? 2) || (n =? 3) then T_FILE else 0)) (seqZ 0 16) = true) by by vm_compute.
  apply Z.eqb_eq. apply (proj1 (forallb_forall _ _) Hall). apply list_elem_of_In, elem_of_seqZ. lia.
Qed.

Lemma present0 n : n = 1 \/ n = 2 -> present sb0 disk0 n.
Proof. intros [-> | ->]; (split; [cbn; lia|]; split; vm_compute; congruence). Qed.

Lemma tree0 : tree_ok 2 sb0 disk0.
Proof.
  assert (H1 : forall n, 0 <= n < 16 -> type_at sb0 disk0 n = T_DIR -> n = 1).
  { intros n Hn. rewrite types0 by done. destruct (Z.eqb_spec n 1); [done|]. destruct (_ || _); done. }
  split; [apply fs_ok0| |].
  - intros n Hn ->%H1; [|done]. split; [apply sound_dir0|]. exists 2%nat. by vm_compute.
  - intros n m name Hn ->%H1; [|done]. assert (Ed : dir_at sb0 disk0 1 = [take 16 dir_block; take 16 (drop 16 dir_block)]) by by vm_compute.
    rewrite Ed. unfold dir_get. cbn [dir_find]. intros E. apply present0.
    destruct (named name (take 16 dir_block)); [left; cbn in E; by injection E as <-|].
    destruct (named name _); [right; cbn in E; by injection E as <-|done].
Qed.

(** "/a" is inode 2. *)
Lemma namex_resolves_witness : exists s ip name s', namex (chars "/a") false (replicate DIRSIZ 0) s = Ok (Some ip, name) s' /\
  live s' ip 2 /\ itable sb0 disk0 s' {[1 := 1; 2 := 2]} None.
Proof.
  destruct small_system as (s & Hs).
  destruct (namex_resolves (D := ram_disk) 3 2 sb0 disk0 ∅ table0 s false (chars "/a") (replicate DIRSIZ 0) 1)
    as (r & name & s' & E & _ & [Hf _]).
  - by apply system_rd.
  - apply (sy_rest _ Hs).
  - by apply itable0.
  - apply tree0.
  - reflexivity.
  - apply present0. by left.
  - apply Nat.leb_le. reflexivity.
  - intros m. unfold refs, table0. destruct (decide (m = 1)) as [->|]; [by vm_compute|]. rewrite lookup_insert_ne by done.
    destruct (decide (m = 2)) as [->|]; [by vm_compute|]. rewrite lookup_singleton_ne by done. done.
  - reflexivity.
  - assert (Er : resolve sb0 disk0 false 1 (components (chars "/a")) = Some 2) by by vm_compute. rewrite Er in Hf.
    destruct Hf as (ip & -> & Hl & [_ _ I]). exists s, ip, name, s'. split; [exact E|]. split; [exact Hl|].
    assert (Et : add_ref table0 2 = {[1 := 1; 2 := 2]}) by by vm_compute. rewrite Et in I. exact I.
Defined.

End NameiExample.
