(* ===== verification/Pipe.v ===== *)
(** pipe.c: pipes. A [struct pipe] lives in a kalloc()ed page and is read and
    written there at its C offsets; its lock is [LK_pipe] of the page's
    address. pipealloc() is with the file table in File.v. *)

From S2P Require Import Prelude Riscv State Spinlock Kalloc Vm Sched.

Definition PIPESIZE : Z := 512.

(** Offsets in struct pipe, after the 24 bytes of its spinlock. *)
Definition PI_data : Z := 24.
Definition PI_nread : Z := 536.
Definition PI_nwrite : Z := 540.
Definition PI_readopen : Z := 544.
Definition PI_writeopen : Z := 548.

Definition load32 (m : mem) (a : Z) : Z := load 4 m a.
Definition store32 (m : mem) (a v : Z) : mem := store 4 m a v.

Definition pi_get (pi fld : Z) : K Z := gets (fun s => load32 (k_mem s) (pi + fld)).
Definition pi_set (pi fld v : Z) : K unit :=
  modify (fun s => k_set_mem (store32 (k_mem s) (pi + fld) v) s).

(** [pi->data[i % PIPESIZE]] *)
Definition pi_data_get (pi i : Z) : K Z :=
  gets (fun s => k_mem s (pi + PI_data + i mod PIPESIZE)).
Definition pi_data_set (pi i c : Z) : K unit :=
  modify (fun s => k_set_mem (mem_write (k_mem s) (pi + PI_data + i mod PIPESIZE) [c]) s).

Section Pipe.
Context `{L : Linker}.

(** The assignments of pipealloc() to a new pipe. *)
Definition pipe_init (pi : Z) : K unit :=
  pi_set pi PI_readopen 1;;
  pi_set pi PI_writeopen 1;;
  pi_set pi PI_nwrite 0;;
  pi_set pi PI_nread 0;;
  initlock (LK_pipe pi).

Definition pipeclose (pi writable : Z) : K unit :=
  acquire (LK_pipe pi);;
  (if c_true writable then
     pi_set pi PI_writeopen 0;;
     wakeup (CH_pipe_nread pi)
   else
     pi_set pi PI_readopen 0;;
     wakeup (CH_pipe_nwrite pi));;
  ro <- pi_get pi PI_readopen;;
  wo <- pi_get pi PI_writeopen;;
  if (ro =? 0) && (wo =? 0) then
    release (LK_pipe pi);;
    kfree pi
  else release (LK_pipe pi).

(** The loop of pipewrite(): None for the early return of -1 (the lock
    released), else the final [i]. *)
Fixpoint pipewrite_loop (k : nat) (pr : nat) (pi addr n i : Z) : K (option Z) :=
  if i <? n then
    ro <- pi_get pi PI_readopen;;
    kd <- (if ro =? 0 then ret 1 else killed pr);;
    if c_true kd then
      release (LK_pipe pi);;
      ret None
    else
    match k with
    | O => diverge
    | S k =>
        nwrite <- pi_get pi PI_nwrite;;
        nread <- pi_get pi PI_nread;;
        if nwrite =? u32 (nread + PIPESIZE) then
          wakeup (CH_pipe_nread pi);;
          sleep (CH_pipe_nwrite pi) (LK_pipe pi);;
          pipewrite_loop k pr pi addr n i
        else
        p <- proc_at pr;;
        '(r, ch) <- copyin (p_pagetable p) (u64 (addr + i)) 1;;
        if r =? -1 then ret (Some i) else
        pi_set pi PI_nwrite (u32 (nwrite + 1));;
        pi_data_set pi nwrite (hd 0 ch);;
        pipewrite_loop k pr pi addr n (i + 1)
    end
  else ret (Some i).

Definition pipewrite (pi addr n : Z) : K Z :=
  me <- myproc;;
  pr <- deref me;;
  acquire (LK_pipe pi);;
  r <- pipewrite_loop (Z.to_nat n * S patience) pr pi addr n 0;;
  match r with
  | None => ret (-1)
  | Some i =>
      wakeup (CH_pipe_nread pi);;
      release (LK_pipe pi);;
      ret i
  end.

(** The wait loop of piperead(); false for the early return of -1. *)
Fixpoint piperead_wait (k : nat) (pr : nat) (pi : Z) : K bool :=
  nread <- pi_get pi PI_nread;;
  nwrite <- pi_get pi PI_nwrite;;
  wo <- pi_get pi PI_writeopen;;
  if (nread =? nwrite) && c_true wo then
    kd <- killed pr;;
    if c_true kd then
      release (LK_pipe pi);;
      ret false
    else
    match k with
    | O => diverge
    | S k =>
        sleep (CH_pipe_nread pi) (LK_pipe pi);;
        piperead_wait k pr pi
    end
  else ret true.

(** The copy loop of piperead(); the result is the final [i]. *)
Fixpoint piperead_loop (k : nat) (pr : nat) (pi addr n i : Z) : K Z :=
  if i <? n then
    match k with
    | O => diverge
    | S k =>
        nread <- pi_get pi PI_nread;;
        nwrite <- pi_get pi PI_nwrite;;
        if nread =? nwrite then ret i else
        ch <- pi_data_get pi nread;;
        pi_set pi PI_nread (u32 (nread + 1));;
        p <- proc_at pr;;
        r <- copyout (p_pagetable p) (u64 (addr + i)) [ch] 1;;
        if r =? -1 then ret i else
        piperead_loop k pr pi addr n (i + 1)
    end
  else ret i.

Definition piperead (pi addr n : Z) : K Z :=
  me <- myproc;;
  pr <- deref me;;
  acquire (LK_pipe pi);;
  ok <- piperead_wait patience pr pi;;
  if negb ok then ret (-1) else
  i <- piperead_loop (Z.to_nat n) pr pi addr n 0;;
  wakeup (CH_pipe_nwrite pi);;
  release (LK_pipe pi);;
  ret i.

End Pipe.
