(* ===== verification/PipeSpec.v ===== *)
(** A pipe is a bounded queue of bytes.

    [pipe_rep] relates the struct in memory, with its 32-bit counters and its
    512-byte ring, to the queue; pipewrite() appends and piperead() takes from
    the front, whatever the counters, also when they wrap around. *)

From S2P Require Import Prelude Riscv State Spinlock Kalloc Vm VmTable VmCopy Sched Sleeplock Pipe.

(** ** The queue in the page *)

Definition nread (m : mem) (pi : Z) : Z := load32 m (pi + PI_nread).
Definition nwrite (m : mem) (pi : Z) : Z := load32 m (pi + PI_nwrite).
Definition slot (pi i : Z) : Z := pi + PI_data + i mod PIPESIZE.

Record pipe_rep (m : mem) (pi : Z) (q : list Z) : Prop := {
  pr_read : 0 <= nread m pi < 2 ^ 32;
  pr_write : nwrite m pi = u32 (nread m pi + Z.of_nat (length q));
  pr_size : Z.of_nat (length q) <= PIPESIZE;
  pr_data i b : q !! i = Some b -> m (slot pi (nread m pi + Z.of_nat i)) = b
}.

Lemma u32_mod_pipe x : u32 x mod PIPESIZE = x mod PIPESIZE.
Proof.
  unfold u32, PIPESIZE. rewrite (Z.mod_mod_divide x (2 ^ 32) 512); [done|]. by exists (2 ^ 23).
Qed.

Lemma slot_range pi i : pi + PI_data <= slot pi i < pi + PI_nread.
Proof.
  unfold slot, PI_data, PI_nread, PIPESIZE. pose proof (Z.mod_pos_bound i 512). lia.
Qed.

Lemma slot_inj pi x i j : 0 <= i < PIPESIZE -> 0 <= j < PIPESIZE -> slot pi (x + i) = slot pi (x + j) -> i = j.
Proof.
  unfold slot, PIPESIZE. intros Hi Hj E. assert ((x + i) mod 512 = (x + j) mod 512) as E' by lia.
  Z.div_mod_to_equations. lia.
Qed.

(** The two tests of the code. *)
Lemma pipe_empty m pi q : pipe_rep m pi q -> (nread m pi =? nwrite m pi) = bool_decide (q = []).
Proof.
  intros [Hr Hw Hs _]. rewrite Hw. unfold u32, PIPESIZE in *. destruct q as [|c q]; cbn [length] in *.
  - rewrite Z.add_0_r, Z.mod_small by lia. by rewrite Z.eqb_refl.
  - rewrite bool_decide_eq_false_2 by done. apply Z.eqb_neq. Z.div_mod_to_equations. lia.
Qed.

Lemma pipe_full m pi q : pipe_rep m pi q ->
  (nwrite m pi =? u32 (nread m pi + PIPESIZE)) = (Z.of_nat (length q) =? PIPESIZE).
Proof.
  intros [Hr Hw Hs _]. rewrite Hw. unfold u32, PIPESIZE in *.
  destruct (Z.eqb_spec (Z.of_nat (length q)) 512) as [->|Hne]; [by rewrite Z.eqb_refl|].
  apply Z.eqb_neq. Z.div_mod_to_equations. lia.
Qed.

Definition put (m : mem) (pi c : Z) : mem :=
  mem_write (store32 m (pi + PI_nwrite) (u32 (nwrite m pi + 1))) (slot pi (nwrite m pi)) [c].
Definition drop_front (m : mem) (pi : Z) : mem := store32 m (pi + PI_nread) (u32 (nread m pi + 1)).

Lemma put_out m pi c a : a < pi + PI_data \/ pi + PI_nwrite + 4 <= a -> put m pi c a = m a.
Proof.
  intros H. pose proof (slot_range pi (nwrite m pi)). unfold put, PI_data, PI_nread, PI_nwrite in *.
  rewrite mem_write_out by (cbn; lia). apply store_out. lia.
Qed.

Lemma load_put m pi c fld : PI_readopen <= fld -> load32 (put m pi c) (pi + fld) = load32 m (pi + fld).
Proof.
  intros H. apply load_ext. intros x Hx. apply put_out. unfold PI_readopen, PI_nwrite in *. lia.
Qed.

Lemma nread_put m pi c : nread (put m pi c) pi = nread m pi.
Proof.
  apply load_ext. intros x Hx. pose proof (slot_range pi (nwrite m pi)). unfold put, PI_data, PI_nread, PI_nwrite in *.
  rewrite mem_write_out by (cbn; lia). apply store_out. lia.
Qed.

Lemma put_rep m pi q c :
  pipe_rep m pi q -> Z.of_nat (length q) < PIPESIZE -> pipe_rep (put m pi c) pi (q ++ [c]).
Proof.
  intros [Hr Hw Hs Hd] Hlt. split; rewrite ?nread_put, ?length_app; cbn [length].
  - done.
  - unfold nwrite at 1, put. pose proof (slot_range pi (nwrite m pi)) as Hsl.
    unfold load32 at 1. erewrite load_ext.
    2: { intros x Hx. unfold PI_nwrite, PI_nread in *. apply mem_write_out. cbn. lia. }
    unfold store32. rewrite load_store_same. change (256 ^ Z.of_nat 4) with (2 ^ 32). rewrite Z.mod_small by apply u32_range.
    rewrite Hw. unfold u32. rewrite Zplus_mod_idemp_l. f_equal. lia.
  - lia.
  - assert (Hsl : slot pi (nwrite m pi) = slot pi (nread m pi + Z.of_nat (length q))).
    { unfold slot. by rewrite Hw, u32_mod_pipe. }
    intros i b Hi. unfold put. rewrite Hsl. destruct (decide (i = length q)) as [->|Hne].
    + rewrite mem_write_in by (cbn; lia). rewrite Z.sub_diag.
      rewrite list_lookup_middle in Hi by done. by injection Hi.
    + pose proof (lookup_lt_Some _ _ _ Hi) as Hl. rewrite length_app in Hl. cbn in Hl.
      rewrite lookup_app_l in Hi by lia. pose proof (slot_range pi (nread m pi + Z.of_nat i)) as Hri.
      assert (slot pi (nread m pi + Z.of_nat i) <> slot pi (nread m pi + Z.of_nat (length q))).
      { intros E. apply slot_inj in E; lia. }
      rewrite mem_write_out by (cbn; lia). unfold store32.
      rewrite store_out by (unfold PI_nread, PI_nwrite in *; lia). by apply Hd.
Qed.

Lemma drop_front_rep m pi c q :
  pipe_rep m pi (c :: q) -> m (slot pi (nread m pi)) = c /\ pipe_rep (drop_front m pi) pi q.
Proof.
  intros [Hr Hw Hs Hd]. split; [rewrite <- (Z.add_0_r (nread m pi)); by apply (Hd 0%nat)|]. cbn [length] in *.
  assert (En : nread (drop_front m pi) pi = u32 (nread m pi + 1)).
  { unfold nread at 1, drop_front, load32, store32. rewrite load_store_same. change (256 ^ Z.of_nat 4) with (2 ^ 32).
    apply Z.mod_small, u32_range. }
  split; rewrite ?En.
  - apply u32_range.
  - replace (nwrite (drop_front m pi) pi) with (nwrite m pi).
    + rewrite Hw. unfold u32. rewrite Zplus_mod_idemp_l. f_equal. lia.
    + symmetry. apply load_store_out. unfold PI_nread, PI_nwrite. lia.
  - lia.
  - intros i b Hi. unfold slot. rewrite <- Zplus_mod_idemp_l, u32_mod_pipe, Zplus_mod_idemp_l.
    fold (slot pi (nread m pi + 1 + Z.of_nat i)). pose proof (slot_range pi (nread m pi + 1 + Z.of_nat i)).
    unfold drop_front, store32. rewrite store_out by (unfold PI_nread in *; lia).
    replace (nread m pi + 1 + Z.of_nat i) with (nread m pi + Z.of_nat (S i)) by lia. by apply (Hd (S i)).
Qed.

(** ** User memory apart from the pipe *)

(** The readable bytes of [va, va + n), up to the first that is not mapped. *)
Fixpoint uprefix (m : mem) (root : Z) (n : nat) (va : Z) : list Z :=
  match n with
  | O => []
  | S n => match ubyte m root va with
           | None => []
           | Some b => b :: uprefix m root n (va + 1)
           end
  end.

(** The page of the pipe holds no page table of [root] and none of the [n]
    user bytes at [addr]. *)
Record apart (m : mem) (root : Z) (G : gmap Z (nat * Z)) (pi addr n : Z) : Prop := {
  ap_inv : exists L : Linker, pt_inv m root G;
  ap_table p x : G !! p = Some x -> p + PGSIZE <= pi \/ pi + PGSIZE <= p;
  ap_user i : 0 <= i < n -> upage m root (addr + i) = 0 \/
    upage m root (addr + i) + PGSIZE <= pi \/ pi + PGSIZE <= upage m root (addr + i)
}.

Definition same_outside (pi : Z) (m m' : mem) : Prop := forall a, a < pi \/ pi + PGSIZE <= a -> m' a = m a.

Lemma apart_upage m m' root G pi addr n i :
  apart m root G pi addr n -> same_outside pi m m' -> 0 <= addr + i -> upage m' root (addr + i) = upage m root (addr + i).
Proof.
  intros [[L HI] Ht _] Hs Ha. unfold upage. destruct (MAXVA <=? addr + i) eqn:E; [done|]. apply Z.leb_gt in E.
  destruct (lookup_frame m m' root G HI) as (_ & _ & ->); [|done|done].
  intros p x a Hp Hpa. apply Hs. destruct (Ht p x Hp); lia.
Qed.

Lemma apart_ubyte m m' root G pi addr n i :
  apart m root G pi addr n -> same_outside pi m m' -> 0 <= i < n -> 0 <= addr ->
  ubyte m' root (addr + i) = ubyte m root (addr + i).
Proof.
  intros Ha Hs Hi Hp. unfold ubyte. rewrite (apart_upage _ _ _ _ _ _ _ _ Ha Hs) by lia.
  destruct (Z.eqb_spec (upage m root (addr + i)) 0) as [|Hne]; [done|]. f_equal. apply Hs.
  pose proof (Z.mod_pos_bound (addr + i) PGSIZE eq_refl). destruct (ap_user _ _ _ _ _ _ Ha i Hi) as [|[|]]; lia.
Qed.

Lemma apart_frame m m' root G pi addr n : 0 <= addr -> apart m root G pi addr n -> same_outside pi m m' -> apart m' root G pi addr n.
Proof.
  intros Hp Ha Hs. destruct Ha as [[L HI] Ht Hu] eqn:E. split.
  - exists L. apply (lookup_frame m m' root G HI). intros p x a Hpx Hpa. apply Hs. destruct (Ht p x Hpx); lia.
  - done.
  - intros i Hi. rewrite (apart_upage m m' root G pi addr n i) by (done || lia). by apply Hu.
Qed.

Lemma uprefix_frame m m' root G pi addr n :
  apart m root G pi addr n -> same_outside pi m m' -> 0 <= addr ->
  forall k i, 0 <= i -> i + Z.of_nat k <= n -> uprefix m' root k (addr + i) = uprefix m root k (addr + i).
Proof.
  intros Ha Hs Hp k. induction k as [|k IH]; intros i Hi Hk; [done|]. cbn [uprefix].
  rewrite (apart_ubyte _ _ _ _ _ _ _ _ Ha Hs) by lia. destruct (ubyte m root (addr + i)); [|done].
  f_equal. rewrite <- Z.add_assoc. apply IH; lia.
Qed.

Lemma same_outside_refl pi m : same_outside pi m m.
Proof. done. Qed.
Lemma same_outside_trans pi m1 m2 m3 : same_outside pi m1 m2 -> same_outside pi m2 m3 -> same_outside pi m1 m3.
Proof. intros H1 H2 a Ha. rewrite H2 by done. by apply H1. Qed.
Lemma same_outside_put m pi c : same_outside pi m (put m pi c).
Proof. intros a Ha. apply put_out. unfold PI_data, PI_nwrite, PGSIZE in *. lia. Qed.

(** ** pipewrite() *)

Section PipeSpec.
Context `{L : Linker}.

Lemma copyin_byte root va s : 0 <= va < 2 ^ 64 ->
  exists bs, copyin root va 1 s = match ubyte (k_mem s) root va with Some b => Ok (0, [b]) s | None => Ok (-1, bs) s end.
Proof.
  intros Hva. destruct (copyin_loop_ok root s (Z.to_nat (1 / PGSIZE + 2)) va 1) as [bs E]; [done|lia|by apply copy_fuel|].
  exists bs. unfold copyin. rewrite E. cbn [Z.to_nat Pos.to_nat Pos.iter_op Nat.add uread].
  change (Z.to_nat 1) with 1%nat. cbn [uread]. by destruct (ubyte (k_mem s) root va).
Qed.

(** The writer's side: in a critical section of the pipe. *)
Record writer (p : nat) (pi : Z) (s : kstate) : Prop := {
  wr_settled : settled s;
  wr_free : lock_free (LK_proc p) s;
  wr_alive : p_killed (k_procs s !!! p) = 0;
  wr_open : load32 (k_mem s) (pi + PI_readopen) <> 0
}.

Lemma pipewrite_loop_eq p pi root G addr n s q : forall j i k,
  writer p pi s -> p_pagetable (k_procs s !!! p) = root -> pipe_rep (k_mem s) pi q ->
  apart (k_mem s) root G pi addr n -> 0 <= addr -> addr + n <= 2 ^ 64 ->
  n - i = Z.of_nat j -> 0 <= i -> (j <= k)%nat -> Z.of_nat (length q) + Z.of_nat j <= PIPESIZE ->
  exists m', let bs := uprefix (k_mem s) root j (addr + i) in
    pipewrite_loop k p pi addr n i s = Ok (Some (i + Z.of_nat (length bs))) (k_set_mem m' s) /\
    pipe_rep m' pi (q ++ bs) /\ same_outside pi (k_mem s) m'.
Proof.
  intros j. revert s q. induction j as [|j IH]; intros s q i k Hw Hroot Hq Hap Haddr Hn Hj Hi Hk Hroom.
  - exists (k_mem s). cbn [uprefix length]. rewrite app_nil_r. split; [|done].
    unfold pipewrite_loop. destruct k; (replace (i <? n) with false by (symmetry; apply Z.ltb_ge; lia)); by rewrite Z.add_0_r.
  - destruct k as [|k]; [lia|]. cbn [pipewrite_loop]. replace (i <? n) with true by (symmetry; apply Z.ltb_lt; lia).
    unfold pi_get. mred. rewrite (proj2 (Z.eqb_neq _ _) (wr_open _ _ _ Hw)).
    mrun (killed_eq p s (wr_settled _ _ _ Hw) (wr_free _ _ _ Hw)). rewrite (wr_alive _ _ _ Hw). cbn [c_true Z.eqb negb]. mred.
    change (load32 (k_mem s) (pi + PI_nwrite)) with (nwrite (k_mem s) pi).
    change (load32 (k_mem s) (pi + PI_nread)) with (nread (k_mem s) pi). rewrite (pipe_full _ _ _ Hq).
    rewrite (proj2 (Z.eqb_neq _ _)) by lia. unfold proc_at. mred. rewrite Hroot.
    assert (Hu : u64 (addr + i) = addr + i) by (apply Z.mod_small; change (2 ^ 64) with 18446744073709551616 in *; lia). rewrite Hu.
    destruct (copyin_byte root (addr + i) s) as [bs E]; [lia|]. cbn [uprefix].
    destruct (ubyte (k_mem s) root (addr + i)) as [b|] eqn:Hb.
    2: { mrun E. exists (k_mem s). cbn [length Z.eqb Z.of_nat]. rewrite Z.add_0_r, app_nil_r. done. }
    mrun E. cbn [Z.eqb hd]. unfold pi_set, pi_data_set. mred.
    set (s1 := k_set_mem (put (k_mem s) pi b) s).
    match goal with |- context [pipewrite_loop k p pi addr n (i + 1) ?x] => change x with s1 end.
    destruct (IH s1 (q ++ [b]) (i + 1) k) as (m' & E' & Hq' & Hs'); try done; try lia.
    + destruct Hw. split; try done. unfold s1. cbn [k_mem k_set_mem]. by rewrite load_put.
    + by apply put_rep; [|lia].
    + apply (apart_frame (k_mem s)); [done|done|]. apply same_outside_put.
    + rewrite length_app. cbn. lia.
    + assert (Hbs : uprefix (k_mem s1) root j (addr + (i + 1)) = uprefix (k_mem s) root j (addr + i + 1)).
      { rewrite <- Z.add_assoc. apply (uprefix_frame _ _ _ G pi addr n); [done|apply same_outside_put|lia..]. }
      rewrite Hbs in *. exists m'. split_and!.
      * rewrite E'. cbn [length]. do 2 f_equal. lia.
      * by rewrite <- app_assoc in Hq'.
      * eapply same_outside_trans; [apply (same_outside_put _ _ b)|exact Hs'].
Qed.

Lemma pipewrite_eq p pi root G addr n s q :
  running p s -> p_killed (k_procs s !!! p) = 0 -> p_pagetable (k_procs s !!! p) = root ->
  load32 (k_mem s) (pi + PI_readopen) <> 0 -> pipe_rep (k_mem s) pi q ->
  apart (k_mem s) root G pi addr n -> 0 <= addr -> 0 <= n -> addr + n <= 2 ^ 64 ->
  Z.of_nat (length q) + n <= PIPESIZE ->
  exists m', let bs := uprefix (k_mem s) root (Z.to_nat n) addr in
    pipewrite pi addr n s = Ok (Z.of_nat (length bs))
      (k_set_procs (woken_by p (CH_pipe_nread pi) (k_procs s)) (k_set_mem m' s)) /\
    pipe_rep m' pi (q ++ bs) /\ same_outside pi (k_mem s) m'.
Proof.
  intros Hr Hk Hroot Ho Hq Hap Ha Hn Hmax Hroom. unfold pipewrite.
  mrun (myproc_eq s (rn_settled _ _ Hr)). rewrite (rn_cur _ _ Hr). cbn [deref]. mred.
  mrun (acquire_eq (LK_pipe pi) s (running_free _ _ _ Hr)).
  destruct (pipewrite_loop_eq p pi root G addr n (locked (LK_pipe pi) s) q (Z.to_nat n) 0 (Z.to_nat n * S patience)) as (m' & E & Hq' & Hs');
    try done; try lia.
  - split; try done.
    + apply settled_locked; [apply Hr|]. rewrite (rn_depth _ _ Hr). lia.
    + apply lock_free_locked; [done|]. by apply (running_free _ _ _ Hr).
  - rewrite Z.add_0_r in *. exists m'. split; [|done]. mrun E. rewrite Z.add_0_l.
    assert (Hr' : running p (k_set_mem m' s)) by by destruct Hr.
    change (k_set_mem m' (locked (LK_pipe pi) s)) with (locked (LK_pipe pi) (k_set_mem m' s)).
    mrun (wakeup_locked p (CH_pipe_nread pi) (LK_pipe pi) (k_set_mem m' s) Hr' ltac:(done)).
    set (s1 := k_set_procs _ (k_set_mem m' s)).
    by mrun (release_locked (LK_pipe pi) s1 (rn_settled _ _ Hr) (running_free _ _ (LK_pipe pi) Hr)).
Qed.

(** A full pipe: the writer wakes the readers and sleeps on [nwrite]. *)
Lemma pipewrite_full p pi addr n s q :
  running p s -> p_killed (k_procs s !!! p) = 0 -> load32 (k_mem s) (pi + PI_readopen) <> 0 ->
  pipe_rep (k_mem s) pi q -> Z.of_nat (length q) = PIPESIZE -> 0 < n ->
  exists k, pipewrite pi addr n s =
    Swtch (blocked p (CH_pipe_nwrite pi) (k_set_procs (woken_by p (CH_pipe_nread pi) (k_procs s)) s)) k.
Proof.
  intros Hr Hk Ho Hq Hfull Hn. unfold pipewrite.
  mrun (myproc_eq s (rn_settled _ _ Hr)). rewrite (rn_cur _ _ Hr). cbn [deref]. mred.
  mrun (acquire_eq (LK_pipe pi) s (running_free _ _ _ Hr)).
  destruct (Z.to_nat n * S patience)%nat as [|f] eqn:Ef; [unfold patience in Ef; lia|].
  set (s1 := k_set_procs (woken_by p (CH_pipe_nread pi) (k_procs s)) s).
  assert (Hr1 : running p s1) by (apply running_set_procs; [done|apply woken_by_rel]).
  destruct (sleep_eq (CH_pipe_nwrite pi) (LK_pipe pi) p s1) as (k & Ek & _); try apply Hr1; try done.
  { rewrite (rn_procs _ _ Hr1). apply Hr1. } { apply (running_free _ _ _ Hr1). } { apply (running_free _ _ _ Hr1). }
  unfold bind at 1. cbn [pipewrite_loop]. rewrite (proj2 (Z.ltb_lt _ _)) by lia. unfold pi_get. mred.
  change (k_mem (locked (LK_pipe pi) s)) with (k_mem s). rewrite (proj2 (Z.eqb_neq _ _) Ho).
  assert (Hsl : settled (locked (LK_pipe pi) s)) by (apply settled_locked; [apply Hr|rewrite (rn_depth _ _ Hr); lia]).
  mrun (killed_eq p _ Hsl (lock_free_locked (LK_proc p) (LK_pipe pi) s ltac:(done) (running_free _ _ _ Hr))).
  change (k_procs (locked (LK_pipe pi) s)) with (k_procs s). rewrite Hk. cbn [c_true Z.eqb negb]. mred.
  change (k_mem (locked (LK_pipe pi) s)) with (k_mem s).
  change (load32 (k_mem s) (pi + PI_nwrite)) with (nwrite (k_mem s) pi).
  change (load32 (k_mem s) (pi + PI_nread)) with (nread (k_mem s) pi). rewrite (pipe_full _ _ _ Hq), Hfull, Z.eqb_refl.
  mrun (wakeup_locked p (CH_pipe_nread pi) (LK_pipe pi) s Hr ltac:(done)). fold s1. unfold bind at 1. rewrite Ek. cbn [rbind].
  by eexists.
Qed.

(** ** piperead() *)

(** The [n] user bytes at [addr] can be written, each at an address of its
    own, away from the page tables and from the pipe. *)
Record writable (m : mem) (root : Z) (G : gmap Z (nat * Z)) (pi addr n : Z) : Prop := {
  wa_inv : pt_inv m root G;
  wa_table p x : G !! p = Some x -> p + PGSIZE <= pi \/ pi + PGSIZE <= p;
  wa_cell i : 0 <= i < n -> exists pa, ucell m root (addr + i) = Some pa /\ (pa < pi \/ pi + PGSIZE <= pa) /\
    forall p x, G !! p = Some x -> pa < p \/ p + PGSIZE <= pa;
  wa_inj i j pa : 0 <= i < n -> 0 <= j < n -> ucell m root (addr + i) = Some pa -> ucell m root (addr + j) = Some pa -> i = j
}.

(** Memory that agrees on the page tables. *)
Lemma writable_frame m m' root G pi addr n :
  0 <= addr -> writable m root G pi addr n ->
  (forall p x a, G !! p = Some x -> p <= a < p + PGSIZE -> m' a = m a) ->
  writable m' root G pi addr n /\ forall i, 0 <= i -> ucell m' root (addr + i) = ucell m root (addr + i).
Proof.
  intros Ha [HI Ht Hc Hj] Hs. destruct (lookup_frame m m' root G HI Hs) as (HI' & _ & Hl).
  assert (Hu : forall i, 0 <= i -> ucell m' root (addr + i) = ucell m root (addr + i)).
  { intros i Hi. unfold ucell. destruct (MAXVA <=? addr + i) eqn:E; [done|]. apply Z.leb_gt in E. by rewrite Hl by lia. }
  split; [|done]. split; try done.
  - intros i Hi. rewrite Hu by lia. by apply Hc.
  - intros i j pa Hi Hjj. rewrite !Hu by lia. by apply Hj.
Qed.

(** What a read of [bs] leaves: the bytes in user memory at [addr + i], and
    nothing else changed outside the pipe's page. *)
Record delivered (m m' : mem) (root pi addr i : Z) (bs : list Z) : Prop := {
  dl_bytes j b : bs !! j = Some b -> exists pa, ucell m root (addr + i + Z.of_nat j) = Some pa /\ m' pa = b;
  dl_frame a : a < pi \/ pi + PGSIZE <= a ->
    (forall j, (j < length bs)%nat -> ucell m root (addr + i + Z.of_nat j) <> Some a) -> m' a = m a
}.

(** One byte through copyout(). *)
Lemma copyout_byte root G va c s pa :
  0 <= va < 2 ^ 64 -> pt_inv (k_mem s) root G -> ucell (k_mem s) root va = Some pa ->
  (forall p x, G !! p = Some x -> pa < p \/ p + PGSIZE <= pa) ->
  exists m', copyout root va [c] 1 s = Ok 0 (k_set_mem m' s) /\ m' pa = c /\ forall a, a <> pa -> m' a = k_mem s a.
Proof.
  intros Hva HI Hc Hp.
  destruct (copyout_loop_ok root G (Z.to_nat (1 / PGSIZE + 2)) va [c] 1 s) as (r & m' & E & [Hf _ Hr]); try done.
  - by apply copy_fuel.
  - split.
    + intros i pa' p x Hi Hcell. assert (i = 0) as -> by lia. rewrite Z.add_0_r, Hc in Hcell. injection Hcell as <-. apply Hp.
    + lia.
  - destruct Hr as [[-> Hr]|[_ (i & Hi & Hnone)]].
    2: { assert (i = 0) as -> by lia. rewrite Z.add_0_r, Hc in Hnone. done. }
    exists m'. split; [exact E|]. split.
    + destruct (Hr 0) as (pa' & Hc' & Hx); [lia|]. rewrite Z.add_0_r, Hc in Hc'. injection Hc' as <-. by injection Hx.
    + intros a Hne. apply Hf. intros i Hi. assert (i = 0) as -> by lia. rewrite Z.add_0_r, Hc. congruence.
Qed.

Lemma pipe_rep_ext m m' pi q : (forall a, pi <= a < pi + 552 -> m' a = m a) -> pipe_rep m pi q -> pipe_rep m' pi q.
Proof.
  intros Hm [Hr Hw Hs Hd].
  assert (E1 : nread m' pi = nread m pi) by (apply load_ext; intros; apply Hm; unfold PI_nread in *; lia).
  assert (E2 : nwrite m' pi = nwrite m pi) by (apply load_ext; intros; apply Hm; unfold PI_nwrite in *; lia).
  split; rewrite ?E1, ?E2; try done. intros i b Hi. rewrite Hm; [by apply Hd|].
  pose proof (slot_range pi (nread m pi + Z.of_nat i)). unfold PI_data, PI_nread in *. lia.
Qed.

Lemma delivered_cons m m2 m' root pi addr i c bs pa :
  ucell m root (addr + i) = Some pa -> pa < pi \/ pi + PGSIZE <= pa -> m2 pa = c ->
  (forall a, a <> pa -> a < pi \/ pi + PGSIZE <= a -> m2 a = m a) ->
  (forall j, ucell m2 root (addr + (i + 1) + Z.of_nat j) = ucell m root (addr + i + Z.of_nat (S j))) ->
  (forall j, (j < length bs)%nat -> ucell m root (addr + i + Z.of_nat (S j)) <> Some pa) ->
  delivered m2 m' root pi addr (i + 1) bs -> delivered m m' root pi addr i (c :: bs).
Proof.
  intros Hpa Hoff Hc Hf Hu Hne [Hb Hfr]. split.
  - intros [|j] b Hj; cbn in Hj.
    + injection Hj as <-. exists pa. rewrite Z.add_0_r. split; [done|]. rewrite Hfr; [done|done|].
      intros j Hlt. rewrite Hu. by apply Hne.
    + destruct (Hb j b Hj) as (pa' & E & Hm). exists pa'. by rewrite <- Hu.
  - intros a Ha Hno. cbn [length] in Hno. rewrite Hfr; [apply Hf; [|done]|done|].
    + intros ->. apply (Hno 0%nat); [lia|]. by rewrite Z.add_0_r.
    + intros j Hlt. rewrite Hu. apply Hno. lia.
Qed.

Lemma piperead_loop_eq p pi root G addr n : forall j i k s q,
  p_pagetable (k_procs s !!! p) = root -> pipe_rep (k_mem s) pi q ->
  writable (k_mem s) root G pi addr n -> 0 <= addr -> addr + n <= 2 ^ 64 -> 0 <= i ->
  n - i <= Z.of_nat k -> Z.of_nat j <= n - i -> (j <= length q)%nat -> Z.of_nat j = n - i \/ j = length q ->
  exists m', piperead_loop k p pi addr n i s = Ok (i + Z.of_nat j) (k_set_mem m' s) /\
    pipe_rep m' pi (drop j q) /\ delivered (k_mem s) m' root pi addr i (take j q).
Proof.
  induction j as [|j IH]; intros i k s q Hroot Hq Hw Ha Hmax Hi Hk Hj Hjq Hend.
  - exists (k_mem s). rewrite Z.add_0_r. split; [|done]. destruct Hend as [Hend|Hend].
    + destruct k; cbn [piperead_loop]; by rewrite (proj2 (Z.ltb_ge _ _)) by lia.
    + destruct q; [|done]. destruct k; cbn [piperead_loop]; destruct (Z.ltb_spec i n); try done; [lia|].
      unfold pi_get. mred. change (load32 (k_mem s) (pi + PI_nwrite)) with (nwrite (k_mem s) pi).
      change (load32 (k_mem s) (pi + PI_nread)) with (nread (k_mem s) pi). by rewrite (pipe_empty _ _ _ Hq).
  - destruct q as [|c q]; [cbn in Hjq; lia|]. destruct k as [|k]; [lia|]. cbn [piperead_loop].
    rewrite (proj2 (Z.ltb_lt _ _)) by lia. unfold pi_get, pi_data_get. mred.
    change (load32 (k_mem s) (pi + PI_nwrite)) with (nwrite (k_mem s) pi).
    change (load32 (k_mem s) (pi + PI_nread)) with (nread (k_mem s) pi). rewrite (pipe_empty _ _ _ Hq), bool_decide_eq_false_2 by done. mred.
    change (pi + PI_data + nread (k_mem s) pi mod PIPESIZE) with (slot pi (nread (k_mem s) pi)).
    destruct (drop_front_rep _ _ _ _ Hq) as [-> Hq1]. unfold pi_set, proc_at. mred.
    set (s1 := k_set_mem (store32 _ _ _) s). change (k_procs s1) with (k_procs s). rewrite Hroot.
    assert (Hu : u64 (addr + i) = addr + i) by (apply Z.mod_small; change (2 ^ 64) with 18446744073709551616 in *; lia). rewrite Hu.
    assert (Hd1 : forall a, a < pi \/ pi + PGSIZE <= a -> drop_front (k_mem s) pi a = k_mem s a).
    { intros a Haa. apply store_out. unfold PI_nread, PGSIZE in *. lia. }
    destruct (writable_frame (k_mem s) (drop_front (k_mem s) pi) root G pi addr n Ha Hw) as [Hw1 Hu1].
    { intros p' x a Hp' Hpa. apply Hd1. destruct (wa_table _ _ _ _ _ _ Hw p' x Hp'); lia. }
    destruct (wa_cell _ _ _ _ _ _ Hw1 i) as (pa & Hpa & Hoff & HG); [lia|].
    destruct (copyout_byte root G (addr + i) c s1 pa) as (m2 & E2 & Hc2 & Hf2); [lia|apply Hw1|done|done|].
    mrun E2. cbn [Z.eqb]. set (s2 := k_set_mem m2 s1).
    destruct (writable_frame (drop_front (k_mem s) pi) m2 root G pi addr n Ha Hw1) as [Hw2 Hu2].
    { intros p' x a Hp' Hpa'. apply Hf2. intros ->. destruct (HG p' x Hp'); lia. }
    assert (Hq2 : pipe_rep m2 pi q).
    { apply (pipe_rep_ext (drop_front (k_mem s) pi)); [|done]. intros a Haa. apply Hf2. unfold PGSIZE in *. lia. }
    destruct (IH (i + 1) k s2 q) as (m' & E' & Hq' & Hdel); try done; try lia; [cbn in Hjq; lia|cbn in Hend; lia|].
    exists m'. split; [rewrite E'; replace (i + Z.of_nat (S j)) with (i + 1 + Z.of_nat j) by lia; done|]. split; [done|].
    apply (delivered_cons (k_mem s) m2 m' root pi addr i c (take j q) pa); [by rewrite <- Hu1 by lia|done|done| | | |exact Hdel].
    + intros a Hne Ho. rewrite Hf2, Hd1 by done. done.
    + intros j'. replace (addr + i + Z.of_nat (S j')) with (addr + (i + 1 + Z.of_nat j')) by lia.
      rewrite <- Hu1, <- Hu2 by lia. f_equal. lia.
    + intros j' Hj' E. rewrite length_take in Hj'. rewrite <- Z.add_assoc, <- Hu1 in E by lia.
      assert (i + Z.of_nat (S j') = i); [|lia]. apply (wa_inj _ _ _ _ _ _ Hw1 _ _ pa); try done; lia.
Qed.

Lemma piperead_eq p pi root G addr n s q :
  running p s -> p_pagetable (k_procs s !!! p) = root -> pipe_rep (k_mem s) pi q ->
  q <> [] \/ load32 (k_mem s) (pi + PI_writeopen) = 0 ->
  writable (k_mem s) root G pi addr n -> 0 <= addr -> 0 <= n -> addr + n <= 2 ^ 64 ->
  let j := Nat.min (Z.to_nat n) (length q) in
  exists m', piperead pi addr n s = Ok (Z.of_nat j)
      (k_set_procs (woken_by p (CH_pipe_nwrite pi) (k_procs s)) (k_set_mem m' s)) /\
    pipe_rep m' pi (drop j q) /\ delivered (k_mem s) m' root pi addr 0 (take j q).
Proof.
  intros Hr Hroot Hq Hor Hw Ha Hn Hmax j. unfold piperead.
  mrun (myproc_eq s (rn_settled _ _ Hr)). rewrite (rn_cur _ _ Hr). cbn [deref]. mred.
  mrun (acquire_eq (LK_pipe pi) s (running_free _ _ _ Hr)).
  assert (Hwait : piperead_wait patience p pi (locked (LK_pipe pi) s) = Ok true (locked (LK_pipe pi) s)).
  { unfold patience, piperead_wait, pi_get. mred. change (k_mem (locked (LK_pipe pi) s)) with (k_mem s).
    change (load32 (k_mem s) (pi + PI_nwrite)) with (nwrite (k_mem s) pi).
    change (load32 (k_mem s) (pi + PI_nread)) with (nread (k_mem s) pi). rewrite (pipe_empty _ _ _ Hq).
    destruct Hor as [Hne| ->]; [by rewrite bool_decide_eq_false_2|by rewrite andb_false_r]. }
  mrun Hwait. cbn [negb].
  destruct (piperead_loop_eq p pi root G addr n j 0 (Z.to_nat n) (locked (LK_pipe pi) s) q) as (m' & E & Hq' & Hd); try done; try lia.
  exists m'. split; [|done]. mrun E. rewrite Z.add_0_l.
  assert (Hr' : running p (k_set_mem m' s)) by by destruct Hr.
  change (k_set_mem m' (locked (LK_pipe pi) s)) with (locked (LK_pipe pi) (k_set_mem m' s)).
  mrun (wakeup_locked p (CH_pipe_nwrite pi) (LK_pipe pi) (k_set_mem m' s) Hr' ltac:(done)).
  set (s1 := k_set_procs _ (k_set_mem m' s)).
  by mrun (release_locked (LK_pipe pi) s1 (rn_settled _ _ Hr) (running_free _ _ (LK_pipe pi) Hr)).
Qed.

(** C17: pipewrite() of [n] bytes that fit appends to the queue the user bytes
    up to the first unmapped one, returns how many, and wakes the readers; no
    memory outside the pipe's page changes. With the pipe full it wakes the
    readers and blocks on [nwrite] with the pipe unlocked. *)
Theorem pipewrite_appends p pi root G addr n s q :
  running p s -> p_killed (k_procs s !!! p) = 0 -> p_pagetable (k_procs s !!! p) = root ->
  load32 (k_mem s) (pi + PI_readopen) <> 0 -> pipe_rep (k_mem s) pi q ->
  apart (k_mem s) root G pi addr n -> 0 <= addr -> 0 < n -> addr + n <= 2 ^ 64 ->
  (Z.of_nat (length q) + n <= PIPESIZE ->
   exists m', let bs := uprefix (k_mem s) root (Z.to_nat n) addr in
     pipewrite pi addr n s = Ok (Z.of_nat (length bs))
       (k_set_procs (woken_by p (CH_pipe_nread pi) (k_procs s)) (k_set_mem m' s)) /\
     pipe_rep m' pi (q ++ bs) /\ same_outside pi (k_mem s) m') /\
  (Z.of_nat (length q) = PIPESIZE ->
   exists k, pipewrite pi addr n s =
     Swtch (blocked p (CH_pipe_nwrite pi) (k_set_procs (woken_by p (CH_pipe_nread pi) (k_procs s)) s)) k).
Proof.
  intros Hr Hk Hroot Ho Hq Hap Ha Hn Hmax. split.
  - apply pipewrite_eq with G; (done || lia).
  - intros Hfull. by apply pipewrite_full with q.
Qed.

(** C18: piperead() of [n] bytes from a pipe that holds some, or whose writers
    are gone, takes the first min(n, length) bytes off the queue, delivers
    them in order to the user buffer and changes no other memory outside the
    pipe's page, returns their number (0 at end of file) and wakes the
    writers. *)
Theorem piperead_takes p pi root G addr n s q :
  running p s -> p_pagetable (k_procs s !!! p) = root -> pipe_rep (k_mem s) pi q ->
  q <> [] \/ load32 (k_mem s) (pi + PI_writeopen) = 0 ->
  writable (k_mem s) root G pi addr n -> 0 <= addr -> 0 <= n -> addr + n <= 2 ^ 64 ->
  let j := Nat.min (Z.to_nat n) (length q) in
  exists m', piperead pi addr n s = Ok (Z.of_nat j)
      (k_set_procs (woken_by p (CH_pipe_nwrite pi) (k_procs s)) (k_set_mem m' s)) /\
    pipe_rep m' pi (drop j q) /\ delivered (k_mem s) m' root pi addr 0 (take j q).
Proof. apply piperead_eq. Qed.

End PipeSpec.

(** ** A pipe and a user page *)

Module PipeExample.
Import VmTable.Example.
#[local] Existing Instance linker.

Definition pipe : Z := KERNBASE.

(** The struct, with [w] bytes written and none read. *)
Definition pipe_mem (w : Z) (m : mem) : mem :=
  store32 (store32 (store32 (store32 (mem_write m (pipe + PI_data) [104; 105])
    (pipe + PI_readopen) 1) (pipe + PI_writeopen) 1) (pipe + PI_nread) 0) (pipe + PI_nwrite) w.

Lemma pipe_mem_out w m : same_outside pipe m (pipe_mem w m).
Proof.
  intros a Ha. unfold pipe_mem, store32, PI_readopen, PI_writeopen, PI_nread, PI_nwrite, PI_data, PGSIZE in *.
  rewrite !store_out by lia. apply mem_write_out. cbn. lia.
Qed.

Lemma pipe_mem_rep m : pipe_rep (pipe_mem 2 m) pipe [104; 105] /\ pipe_rep (pipe_mem 0 m) pipe [].
Proof.
  assert (Hn : forall w, nread (pipe_mem w m) pipe = 0).
  { intros w. unfold nread, pipe_mem, load32, store32, PI_nread, PI_nwrite. rewrite load_store_out by lia. by rewrite load_store_same. }
  split; split; rewrite ?Hn; try (unfold nwrite, pipe_mem, load32, store32; by rewrite load_store_same); try done.
  intros i b Hi. unfold pipe_mem, store32, slot.
    assert (Hs : (i < 2)%nat) by by apply lookup_lt_Some in Hi.
    replace ((0 + Z.of_nat i) mod PIPESIZE) with (Z.of_nat i) by (rewrite Z.mod_small; unfold PIPESIZE; lia).
    unfold PI_readopen, PI_writeopen, PI_nread, PI_nwrite, PI_data. rewrite !store_out by lia. by apply mem_write_lookup.
Qed.

Lemma pipe_mem_open w m : load32 (pipe_mem w m) (pipe + PI_readopen) <> 0.
Proof.
  unfold pipe_mem, load32, store32, PI_readopen, PI_writeopen, PI_nread, PI_nwrite.
  rewrite !load_store_out by lia. by rewrite load_store_same.
Qed.

(** Process 3 with the page table [root]. *)
Definition user (m : mem) : kstate :=
  let s := boot_state m ∅ in
  k_set_procs (alter (fun pr => p_set_pagetable root (p_set_state RUNNING pr)) 3%nat (k_procs s))
    (k_set_cpus (alter (c_set_proc (Some 3%nat)) 0%nat (k_cpus s)) s).

Lemma user_running m : running 3 (user m).
Proof.
  split; try reflexivity.
  - vm_compute. intuition congruence.
  - apply Nat.ltb_lt. reflexivity.
  - split; reflexivity.
Qed.

Lemma ucell_upage m va pa : ucell m root va = Some pa -> upage m root va = pa - va mod PGSIZE.
Proof.
  unfold ucell, upage. destruct (MAXVA <=? va); [done|].
  destruct (bit_set _ PTE_V), (bit_set _ PTE_U), (bit_set _ PTE_W); cbn [andb]; try done. intros [= <-]. lia.
Qed.

Lemma page_above p : page_ok p -> pipe + PGSIZE <= p.
Proof. intros [_ [H _]]. pose proof linker_etext. pose proof linker_end. unfold pipe, PGSIZE in *. lia. Qed.

Lemma user_memory : exists m G, pt_inv m root G /\
  (forall i, 0 <= i < PGSIZE -> ucell m root i = Some (data + i)) /\ safe_range m root G 0 PGSIZE.
Proof. destruct VmCopy.CopyExample.one_page_cells as (s & G & H). by exists (k_mem s), G. Qed.

Lemma data_above : pipe + PGSIZE <= data.
Proof. vm_compute. congruence. Qed.

Lemma pipewrite_appends_witness : exists s s', pipewrite pipe 10 3 s = Ok 3 s'.
Proof.
  destruct user_memory as (m & G & HI & Hc & _).
  assert (Hap : apart m root G pipe 10 3).
  { split; [by exists linker| |].
    - intros p x Hp. right. apply page_above. by apply (pt_pages _ _ _ HI p x).
    - intros i Hi. right. right. rewrite (ucell_upage m (10 + i) _ (Hc (10 + i) ltac:(unfold PGSIZE; lia))).
      rewrite Z.mod_small by (unfold PGSIZE; lia). pose proof data_above. lia. }
  pose proof (pipe_mem_out 0 m) as Hout.
  destruct (pipewrite_appends 3 pipe root G 10 3 (user (pipe_mem 0 m)) []) as [Hw _].
  - apply user_running.
  - reflexivity.
  - reflexivity.
  - apply pipe_mem_open.
  - apply pipe_mem_rep.
  - by apply (apart_frame m).
  - lia.
  - lia.
  - lia.
  - destruct (Hw ltac:(unfold PIPESIZE; cbn; lia)) as (m' & E & _).
    exists (user (pipe_mem 0 m)), (k_set_procs (woken_by 3 (CH_pipe_nread pipe) (k_procs (user (pipe_mem 0 m)))) (k_set_mem m' (user (pipe_mem 0 m)))).
    rewrite E. do 2 f_equal.
    change (k_mem (user (pipe_mem 0 m))) with (pipe_mem 0 m).
    rewrite <- (Z.add_0_r 10), (uprefix_frame m _ root G pipe 10 3 Hap Hout) by lia. rewrite Z.add_0_r.
    change (Z.to_nat 3) with 3%nat. cbn [uprefix].
    assert (Hb : forall va, 0 <= va < PGSIZE -> exists b, ubyte m root va = Some b).
    { intros va Hva. unfold ubyte. rewrite (ucell_upage m va _ (Hc va Hva)). rewrite Z.mod_small by done.
      rewrite (proj2 (Z.eqb_neq _ _)); [by eexists|]. pose proof data_above. unfold pipe, KERNBASE, PGSIZE in *. lia. }
    destruct (Hb 10 ltac:(unfold PGSIZE; lia)) as [b0 ->], (Hb (10 + 1) ltac:(unfold PGSIZE; lia)) as [b1 ->],
      (Hb (10 + 1 + 1) ltac:(unfold PGSIZE; lia)) as [b2 ->]. reflexivity.
Defined.

Lemma piperead_takes_witness : exists s m', piperead pipe 10 5 s =
    Ok 2 (k_set_procs (woken_by 3 (CH_pipe_nwrite pipe) (k_procs s)) (k_set_mem m' s)) /\
  pipe_rep m' pipe [] /\ delivered (k_mem s) m' root pipe 10 0 [104; 105].
Proof.
  destruct user_memory as (m & G & HI & Hc & [Hst _]).
  assert (Hw : writable m root G pipe 10 5).
  { split; [done| | |].
    - intros p x Hp. right. apply page_above. by apply (pt_pages _ _ _ HI p x).
    - intros i Hi. exists (data + (10 + i)). split; [apply Hc; unfold PGSIZE; lia|]. pose proof data_above. split; [lia|].
      intros p x. apply (Hst (10 + i)); [unfold PGSIZE; lia|]. rewrite Z.add_0_l. apply Hc. unfold PGSIZE. lia.
    - intros i j pa Hi Hj. rewrite !Hc by (unfold PGSIZE; lia). intros [= <-] [= ?]. lia. }
  pose proof (pipe_mem_out 2 m) as Hout.
  destruct (writable_frame m (pipe_mem 2 m) root G pipe 10 5 ltac:(lia) Hw) as [Hw' _].
  { intros p x a Hp Ha. apply Hout. pose proof (page_above p (pt_pages _ _ _ HI p x Hp)). lia. }
  destruct (piperead_takes 3 pipe root G 10 5 (user (pipe_mem 2 m)) [104; 105]) as (m' & E & Hq & Hd).
  - apply user_running.
  - reflexivity.
  - apply pipe_mem_rep.
  - by left.
  - done.
  - lia.
  - lia.
  - lia.
  - exists (user (pipe_mem 2 m)), m'. split; [exact E|]. split; [exact Hq|exact Hd].
Defined.

End PipeExample.
