(* ===== verification/File.v ===== *)
(** file.c: the open-file table, and pipe.c's pipealloc(). A [struct file *]
    is an index into [k_files]. *)

From S2P Require Import Prelude Riscv State Spinlock Kalloc Vm Sched Sleeplock Console Bio Log Fs Pipe.

Definition file_at (f : nat) : K file := gets (fun s => k_files s !!! f).
Definition upd_file (f : nat) (g : file -> file) : K unit :=
  modify (fun s => k_set_files (alter g f (k_files s)) s).

Definition fileinit : K unit := initlock LK_ftable.

Fixpoint filealloc_loop (fs : list nat) : K (option nat) :=
  match fs with
  | [] =>
      release LK_ftable;;
      ret None
  | f :: fs =>
      fl <- file_at f;;
      if f_ref fl =? 0 then
        upd_file f (f_set_ref 1);;
        release LK_ftable;;
        ret (Some f)
      else filealloc_loop fs
  end.

Definition filealloc : K (option nat) :=
  acquire LK_ftable;;
  filealloc_loop (seq 0 NFILE).

Definition filedup (f : nat) : K nat :=
  acquire LK_ftable;;
  fl <- file_at f;;
  if f_ref fl <? 1 then panic "filedup" else
  upd_file f (f_set_ref (s32 (f_ref fl + 1)));;
  release LK_ftable;;
  ret f.

Section File.
Context `{L : Linker} `{D : BlockDev}.

Definition fileclose (f : nat) : K unit :=
  acquire LK_ftable;;
  fl <- file_at f;;
  if f_ref fl <? 1 then panic "fileclose" else
  upd_file f (f_set_ref (f_ref fl - 1));;
  if 0 <? f_ref fl - 1 then release LK_ftable else
  ff <- file_at f;;
  upd_file f (f_set_ref 0);;
  upd_file f (f_set_type FD_NONE);;
  release LK_ftable;;
  match f_type ff with
  | FD_PIPE => pipeclose (f_pipe ff) (f_writable ff)
  | FD_INODE | FD_DEVICE =>
      begin_op;;
      ip <- deref (f_ip ff);;
      iput ip;;
      end_op
  | FD_NONE => ret tt
  end.

(** The result is (-1 or 0, f0, f1). *)
Definition pipealloc : K (Z * option nat * option nat) :=
  let bad (f0 f1 : option nat) : K (Z * option nat * option nat) :=
    match f0 with Some f => fileclose f | None => ret tt end;;
    match f1 with Some f => fileclose f | None => ret tt end;;
    ret (-1, f0, f1) in
  f0 <- filealloc;;
  match f0 with
  | None => bad None None
  | Some f0 =>
      f1 <- filealloc;;
      match f1 with
      | None => bad (Some f0) None
      | Some f1 =>
          pi <- kalloc;;
          if pi =? 0 then bad (Some f0) (Some f1) else
          pipe_init pi;;
          upd_file f0 (fun f => f_set_pipe pi (f_set_writable 0 (f_set_readable 1 (f_set_type FD_PIPE f))));;
          upd_file f1 (fun f => f_set_pipe pi (f_set_writable 1 (f_set_readable 0 (f_set_type FD_PIPE f))));;
          ret (0, Some f0, Some f1)
      end
  end.

Definition filestat (f : nat) (addr : Z) : K Z :=
  me <- myproc;;
  p <- deref me;;
  fl <- file_at f;;
  if bool_decide (f_type fl = FD_INODE) || bool_decide (f_type fl = FD_DEVICE) then
    ilock (f_ip fl);;
    ip <- deref (f_ip fl);;
    st <- stati ip;;
    iunlock (f_ip fl);;
    pr <- proc_at p;;
    r <- copyout (p_pagetable pr) addr st (Z.of_nat (length st));;
    if r <? 0 then ret (-1) else ret 0
  else ret (-1).

(** The functions the entries of devsw[] point to. *)
Definition dev_read (d : devfn) : Z -> Z -> Z -> K Z :=
  match d with DEV_console => consoleread end.
Definition dev_write (d : devfn) : Z -> Z -> Z -> K Z :=
  match d with DEV_console => consolewrite end.

Definition fileread (f : nat) (addr n : Z) : K Z :=
  fl <- file_at f;;
  if f_readable fl =? 0 then ret (-1) else
  match f_type fl with
  | FD_PIPE => piperead (f_pipe fl) addr n
  | FD_DEVICE =>
      if (f_major fl <? 0) || (NDEV <=? f_major fl) then ret (-1) else
      devs <- gets k_devsw;;
      match (devs !!! Z.to_nat (f_major fl)).1 with
      | None => ret (-1)
      | Some d => dev_read d 1 addr n
      end
  | FD_INODE =>
      ilock (f_ip fl);;
      ip <- deref (f_ip fl);;
      fl <- file_at f;;
      r <- readi ip 1 addr (f_off fl) (u32 n);;
      (when 0 <? r do upd_file f (fun fl => f_set_off (u32 (f_off fl + r)) fl));;
      iunlock (f_ip fl);;
      ret r
  | FD_NONE => panic "fileread"
  end.

(** A few blocks at a time, so that one transaction's writes fit the log. *)
Definition filewrite_max : Z := (MAXOPBLOCKS - 1 - 1 - 2) / 2 * BSIZE.

Fixpoint filewrite_loop (k : nat) (f : nat) (addr n i : Z) : K Z :=
  if i <? n then
    match k with
    | O => diverge
    | S k =>
        let n1 := Z.min (n - i) filewrite_max in
        begin_op;;
        fl <- file_at f;;
        ilock (f_ip fl);;
        ip <- deref (f_ip fl);;
        fl <- file_at f;;
        r <- writei ip 1 (u64 (addr + i)) (f_off fl) n1;;
        (when 0 <? r do upd_file f (fun fl => f_set_off (u32 (f_off fl + r)) fl));;
        iunlock (f_ip fl);;
        end_op;;
        if negb (r =? n1) then ret i else
        filewrite_loop k f addr n (i + r)
    end
  else ret i.

Definition filewrite (f : nat) (addr n : Z) : K Z :=
  fl <- file_at f;;
  if f_writable fl =? 0 then ret (-1) else
  match f_type fl with
  | FD_PIPE => pipewrite (f_pipe fl) addr n
  | FD_DEVICE =>
      if (f_major fl <? 0) || (NDEV <=? f_major fl) then ret (-1) else
      devs <- gets k_devsw;;
      match (devs !!! Z.to_nat (f_major fl)).2 with
      | None => ret (-1)
      | Some d => dev_write d 1 addr n
      end
  | FD_INODE =>
      i <- filewrite_loop (Z.to_nat n) f addr n 0;;
      ret (if i =? n then n else -1)
  | FD_NONE => panic "filewrite"
  end.

End File.
