(* ===== verification/FileSpec.v ===== *)
(** filewrite() to an inode, from the system call's file descriptor down to
    the disk, with a crash at any moment.

    filewrite() cuts the data into chunks of [filewrite_max] bytes and writes
    each in a transaction of its own. The theorem follows one chunk through
    begin_op(), ilock(), writei(), iunlock() and end_op(), then the chunks one
    after the other. *)

From S2P Require Import Prelude Riscv State Spinlock Kalloc Vm VmCopy Sched Sleeplock Printf PrintfSpec Console Virtio Bio BioSpec Log LogSpec FsTx FsOp Fs FsBlock FsFile FsInode FsRw FsDisk FsTable FsExample Pipe File.

Section FileWrite.
Context `{L : Linker} `{D : BlockDev}.
Context (p : nat) (LS : Z) (sb : superblock).

Lemma tx_procs s bl H V ps : tx p LS s bl H V -> procs_rel p (k_procs s) ps -> tx p LS (k_set_procs ps s) bl H V.
Proof. intros [(R & C & Hu) ? ? ? ? ? ? ? ?] Hps. split; try done. exists R. split; [by apply cache_procs|done]. Qed.

(** The file table and user memory do not concern a transaction. *)
Definition aside (fs : list file) (fl : Z) (m : mem) (s : kstate) : kstate := k_set_files fs (k_set_freelist fl (k_set_mem m s)).

Lemma tx_aside fs fl m s bl H V : tx p LS s bl H V -> tx p LS (aside fs fl m s) bl H V.
Proof.
  intros [(R & C & Hu) ? ? ? ? ? ? ? ?]. split; try done. exists R. split; [|done]. destruct C as [[]]. by split.
Qed.

Lemma running_aside fs fl m s : running p s -> running p (aside fs fl m s).
Proof. by intros []. Qed.

(** ** One transaction on a file *)

(** [w] was written at [off] of a locked inode; then the transaction, in state
    [u] at its end, was closed. A crash on the way leaves a disk that satisfies
    [P]. *)
Record closed (ip : nat) (P : gmap Z (list Z) -> Prop) (off : Z) (w : list Z) (s : kstate) (i : inode)
  (u s' : kstate) (i' : inode) (ws : list (Z * list Z)) : Prop := {
  cl_rest : at_rest p LS sb s';
  cl_cached : cached LS sb s' ip i';
  cl_inum : i_inum i' = i_inum i;
  cl_size : i_size i' = Z.max (i_size i) (off + Z.of_nat (length w));
  cl_files : k_files s' = k_files u;
  cl_inodes : k_inodes s' = <[ip := i']> (k_inodes s);
  cl_mem : k_mem s' = k_mem u;
  cl_freelist : k_freelist s' = k_freelist u;
  cl_proc : k_procs s' !!! p = k_procs s !!! p;
  cl_writes : k_writes s' = rev ws ++ k_writes s;
  cl_blocks : k_blocks s' = k_blocks s;
  cl_disk : rewritten sb (i_inum i) (Z.to_nat off) w (disk s) (disk s');
  cl_crash : recovers LS (disk s) ws P
}.

(** [w] was written at [off] of an open file. *)
Record wrote_file (f ip : nat) (P : gmap Z (list Z) -> Prop) (off : Z) (w : list Z) (s : kstate) (i : inode)
  (s' : kstate) (i' : inode) (ws : list (Z * list Z)) : Prop := {
  ck_rest : at_rest p LS sb s';
  ck_cached : cached LS sb s' ip i';
  ck_inum : i_inum i' = i_inum i;
  ck_size : i_size i' = Z.max (i_size i) (off + Z.of_nat (length w));
  ck_files : k_files s' = alter (f_set_off (off + Z.of_nat (length w))) f (k_files s);
  ck_inodes : k_inodes s' = <[ip := i']> (k_inodes s);
  ck_mem : k_mem s' = k_mem s;
  ck_proc : k_procs s' !!! p = k_procs s !!! p;
  ck_writes : k_writes s' = rev ws ++ k_writes s;
  ck_blocks : k_blocks s' = k_blocks s;
  ck_disk : rewritten sb (i_inum i) (Z.to_nat off) w (disk s) (disk s');
  ck_crash : recovers LS (disk s) ws P
}.

Definition all_or_nothing (inum off : Z) (w : list Z) (d d' : gmap Z (list Z)) : Prop :=
  rewritten sb inum (Z.to_nat off) [] d d' \/ rewritten sb inum (Z.to_nat off) w d d'.

Section Chunk.
Context (s : kstate) (ip : nat) (i : inode) (off : Z) (w : list Z) (i3 : inode) (s3 : kstate) (bl : list Z) (V : gmap Z (list Z)).
Context (fs : list file) (fl : Z) (m : mem) (Hrest : at_rest p LS sb s) (Hc : cached LS sb s ip i).
Let u := aside fs fl m s3.
Let pid := p_pid (k_procs s !!! p).
Let i2 := i_set_lock (mkSl 1 pid) i.
Context (W : written p LS sb (entered s ip i2) ip (disk s) i2 off w s3 bl V i3).

Lemma chunk_files : k_files s3 = k_files s.
Proof. apply (os_files _ _ _ (tx_op_step _ _ _ (wn_state _ _ _ _ _ _ _ _ _ _ _ _ _ W))). Qed.

Lemma chunk_proc : k_procs s3 !!! p = k_procs s !!! p.
Proof. apply (ts_proc _ _ _ (wn_state _ _ _ _ _ _ _ _ _ _ _ _ _ W)). Qed.

Lemma chunk_inode : i_ref i3 = i_ref i /\ i_lock i3 = mkSl 1 pid /\ i_inum i3 = i_inum i /\ i_dev i3 = i_dev i /\ i_valid i3 = i_valid i /\
  i_size i3 = Z.max (i_size i) (off + Z.of_nat (length w)).
Proof. pose proof (wn_inode _ _ _ _ _ _ _ _ _ _ _ _ _ W) as ->. done. Qed.

Definition unlocked : kstate :=
  k_set_procs (woken_by p (CH_sleeplock (SL_inode ip)) (k_procs s3))
    (k_set_inodes (<[ip := i_set_lock (mkSl 0 0) i3]> (k_inodes s3)) u).

Lemma chunk_unlock : iunlock (Some ip) u = Ok tt unlocked.
Proof.
  pose proof (wn_open _ _ _ _ _ _ _ _ _ _ _ _ _ W) as [Hat Hi3 _ _ _ _ _ _]. destruct chunk_inode as (Eref & Elk & _).
  pose proof (running_aside fs fl m _ (tx_running _ _ _ _ _ _ (af_tx _ _ _ _ _ _ _ _ Hat))) as Hr.
  rewrite (iunlock_held p u ip i3); try done; [apply Hat|rewrite Eref; apply Hc|].
  change (k_procs u) with (k_procs s3). by rewrite chunk_proc.
Qed.

Lemma unlocked_tx : tx p LS unlocked bl ∅ V.
Proof.
  apply tx_procs; [|apply woken_by_rel]. apply tx_inodes, tx_aside. apply (wn_open _ _ _ _ _ _ _ _ _ _ _ _ _ W).
Qed.

Lemma chunk_area : log_area V LS /\ lh_n (V !!! LS) = 0.
Proof.
  pose proof (fo_geo _ _ _ (so_ok _ _ _ _ (cd_sound _ _ _ _ _ Hc))) as G. pose proof (layout _ _ G) as Hlay.
  pose proof (wn_low _ _ _ _ _ _ _ _ _ _ _ _ _ W) as Hlow. pose proof (ar_idle _ _ _ _ Hrest) as Hid. split.
  - intros k Hk. rewrite Hlow by lia. by apply (id_area _ _ _ Hid).
  - rewrite lookup_total_alt, Hlow, <- lookup_total_alt by lia. apply Hid.
Qed.

(** end_op(). *)
Lemma chunk_commit : exists s' ws, end_op unlocked = Ok tt s' /\ agree LS (disk s') V /\
  closed ip (all_or_nothing (i_inum i) off w (disk s)) off w s i u s' (i_set_lock (mkSl 0 0) i3) ws.
Proof.
  pose proof W as [Ho Hst _ _ Hdk _ _ Hlog _ _ _ _]. destruct chunk_inode as (Eref & Elk & En & Edv & Evl & Esz). destruct chunk_area as [Ha H0]. set (i' := i_set_lock (mkSl 0 0) i3).
  pose proof (ts_log _ _ _ Hst) as [_ _ Ho3 Hc3].
  destruct (end_op_spec p LS unlocked bl V unlocked_tx) as (s' & ws & E & F & Hid & Hw & HA & Hcr); try done.
  { intros ->. by apply elem_of_nil in Hlog. }
  { rewrite <- (id_com _ _ _ (ar_idle _ _ _ _ Hrest)). exact Hc3. }
  assert (Ed2 : dinode (disk s) sb (i_inum i2) i2 = i2)
    by (change (dinode ?v ?b ?n i2) with (i_set_lock (mkSl 1 pid) (dinode v b (i_inum i) i)); by rewrite (cd_disk _ _ _ _ _ Hc)).
  pose proof (written_rewritten _ _ _ _ _ _ _ _ _ _ _ _ _ Ed2 W) as Hrw. change (i_inum i2) with (i_inum i) in *.
  pose proof (sound_of_open _ _ _ _ _ _ _ _ Ho) as Hso. rewrite En in Hso. specialize (Hso Hdk).
  assert (Ed : disk unlocked = disk s) by exact (ts_disk _ _ _ Hst). rewrite Ed in Hcr.
  assert (Hso' : sound_file LS sb (disk s') (i_inum i)) by (apply (agree_sound LS sb V); [done|apply Hid|apply (id_data _ _ _ Hid)|done]).
  assert (Ein : k_inodes s' = <[ip := i']> (k_inodes s)).
  { rewrite (os_inodes _ _ _ F). cbn. rewrite (ts_inodes _ _ _ Hst). cbn. by rewrite !list_insert_insert_eq. }
  exists s', ws. split; [done|]. split; [done|]. split; try done.
  - split; [done|]. rewrite (os_sb _ _ _ F). change (k_sb unlocked) with (k_sb s3). rewrite (ts_sb _ _ _ Hst). apply Hrest.
  - assert (Hip : (ip < length (k_inodes s))%nat) by apply Hc. split.
    + by rewrite Ein, length_insert.
    + rewrite Ein. by apply list_lookup_total_insert_eq.
    + change (i_dev i') with (i_dev i3). rewrite Edv. apply Hc.
    + change (i_ref i') with (i_ref i3). rewrite Eref. apply Hc.
    + done.
    + change (i_valid i') with (i_valid i3). rewrite Evl. apply Hc.
    + destruct (of_typed _ _ _ _ _ _ _ _ Ho). by split.
    + change (i_inum i') with (i_inum i3). rewrite En.
      rewrite (agree_dinode LS sb V) by (apply Hso || done). change (dinode ?v ?b ?n i') with (i_set_lock (mkSl 0 0) (dinode v b n i3)). by rewrite Hdk.
    + change (i_inum i') with (i_inum i3). by rewrite En.
  - exact (os_files _ _ _ F).
  - exact (os_mem _ _ _ F).
  - rewrite (os_eq _ _ _ F). done.
  - rewrite (os_proc _ _ _ F). cbn. destruct (woken_by_rel p (CH_sleeplock (SL_inode ip)) (k_procs s3)) as [_ Ep].
    by rewrite list_lookup_total_alt, Ep, <- list_lookup_total_alt, chunk_proc.
  - rewrite Hw. f_equal. exact (ts_writes _ _ _ Hst).
  - rewrite (os_blocks _ _ _ F). exact (os_blocks _ _ _ (tx_op_step _ _ _ Hst)).
  - by apply (rewritten_agree LS sb _ _ _ _ V).
  - revert Hcr. apply recovers_mono. intros d [Hd|Hd]; [left|right].
    + apply (rewritten_agree LS sb _ _ _ _ (disk s)); [apply Hc|done|apply rewritten_refl].
    + by apply (rewritten_agree LS sb _ _ _ _ V).
Qed.

End Chunk.

(** ** One chunk of filewrite() *)

Section Advance.
Context (s : kstate) (f ip : nat) (i : inode) (off : Z) (w : list Z) (i3 : inode) (s3 : kstate) (bl : list Z) (V : gmap Z (list Z)).
Context (Hoff : f_off (k_files s !!! f) = off) (Hmax : 0 <= off /\ off + Z.of_nat (length w) <= MAXFILE * BSIZE).
Let i2 := i_set_lock (mkSl 1 (p_pid (k_procs s !!! p))) i.
Context (W : written p LS sb (entered s ip i2) ip (disk s) i2 off w s3 bl V i3).

Definition advanced : kstate :=
  aside (alter (f_set_off (off + Z.of_nat (length w))) f (k_files s)) (k_freelist s3) (k_mem s3) s3.

Lemma chunk_advance :
  (when 0 <? Z.of_nat (length w) do upd_file f (fun fl => f_set_off (u32 (f_off fl + Z.of_nat (length w))) fl)) s3 = Ok tt advanced.
Proof.
  pose proof (chunk_files _ _ _ _ _ _ _ _ _ W) as Ef. assert (Hmf : MAXFILE * BSIZE = 274432) by reflexivity. unfold advanced.
  destruct (Z.ltb_spec 0 (Z.of_nat (length w))) as [Hp|Hz].
  - unfold upd_file, modify. unfold aside. transitivity (Ok tt (k_set_files (alter (f_set_off (off + Z.of_nat (length w))) f (k_files s)) s3)); [|by destruct s3].
    do 2 f_equal. rewrite Ef. apply alter_ext. intros x Hx%list_lookup_total_correct.
    rewrite Hx in Hoff. rewrite Hoff, u32_small by lia. done.
  - unfold ret. f_equal. replace (alter _ f (k_files s)) with (k_files s3); [by destruct s3|]. rewrite Ef.
    symmetry. rewrite (alter_ext _ (fun x => x)); [by apply list_alter_id|]. intros x Hx%list_lookup_total_correct.
    rewrite Hx in Hoff. replace (off + _) with (f_off x) by lia. by destruct x.
Qed.

Lemma closed_wrote s' i' ws (P : gmap Z (list Z) -> Prop) : closed ip P off w s i advanced s' i' ws -> wrote_file f ip P off w s i s' i' ws.
Proof.
  intros [? ? ? ? ? ? Hm ? ? ? ? ? ?]. split; try done. rewrite Hm.
  exact (ts_mem _ _ _ (wn_state _ _ _ _ _ _ _ _ _ _ _ _ _ W)).
Qed.

End Advance.

(** The disk has no free block. *)
Definition disk_full (d : gmap Z (list Z)) : Prop := forall x, 0 <= x < sb_size sb -> used d sb x = true.

Lemma source_same s s' us src W : k_mem s' = k_mem s -> k_procs s' !!! p = k_procs s !!! p -> source p s us src W -> source p s' us src W.
Proof. intros Em Ep. unfold source. by rewrite Em, Ep. Qed.

Lemma chunk_spec s f ip i off addr W (cont : Z -> K Z) :
  at_rest p LS sb s -> cached LS sb s ip i -> sb_size sb <= BPB -> (f < length (k_files s))%nat ->
  f_ip (k_files s !!! f) = Some ip -> f_off (k_files s !!! f) = off -> 0 <= off <= i_size i ->
  source p s 1 addr W -> Forall is_byte W -> Z.of_nat (length W) <= filewrite_max -> off + Z.of_nat (length W) <= MAXFILE * BSIZE ->
  exists r s' i' ws,
    (begin_op;; fl <- file_at f;; ilock (f_ip fl);; ip <- deref (f_ip fl);; fl <- file_at f;;
     r <- writei ip 1 addr (f_off fl) (Z.of_nat (length W));;
     (when 0 <? r do upd_file f (fun fl => f_set_off (u32 (f_off fl + r)) fl));;
     iunlock (f_ip fl);; end_op;; cont r) s = cont r s' /\
    0 <= r <= Z.of_nat (length W) /\ (r < Z.of_nat (length W) -> disk_full (disk s')) /\
    let w := take (Z.to_nat r) W in
    wrote_file f ip (all_or_nothing (i_inum i) off w (disk s)) off w s i s' i' ws.
Proof.
  intros Hrest Hc Hone Hf Hip Hoff Hrg Hsrc HW Hlen Hmax. pose proof Hrest as [Hid Hsb]. pose proof Hc as [Hipl Hi Hdev Href Hfree Hval _ _ _].
  destruct (begin_op_spec p LS s Hid) as [E1 T1]. mrun E1. set (s1 := k_set_log _ s) in *. unfold file_at. mred.
  change (k_files s1) with (k_files s). rewrite Hip.
  mrun (ilock_cached p s1 ip i (tx_running _ _ _ _ _ _ T1) Hipl Hi Href Hfree Hval). cbn [deref]. mred.
  change (k_procs s1) with (k_procs s). set (i2 := i_set_lock _ i). change (k_set_inodes _ s1) with (entered s ip i2). cbn [k_files entered k_set_inodes k_set_log].
  change (k_files s1) with (k_files s). rewrite Hoff, Hip.
  pose proof (entered_open p LS sb s ip i (mkSl 1 (p_pid (k_procs s !!! p))) Hrest Hc) as Ho. fold i2 in Ho.
  destruct (writei_spec p LS sb _ ip [] _ i2 1 addr W off Ho) as (r & s3 & bl & V & i3 & E3 & Hr & Hfull & W3); try done.
  { change (length []) with 0%nat. pose proof (Z.div_le_mono _ _ BSIZE ltac:(done) Hlen). change (filewrite_max / BSIZE) with 3 in *. lia. }
  mrun E3. set (w := take (Z.to_nat r) W) in *. assert (Hlw : Z.of_nat (length w) = r) by (unfold w; rewrite length_take; lia).
  assert (Hb : 0 <= off /\ off + Z.of_nat (length w) <= MAXFILE * BSIZE) by lia.
  pose proof (chunk_advance s f ip i off w i3 s3 bl V Hoff Hb W3) as E4. rewrite Hlw in E4. mrun E4.
  mrun (chunk_unlock s ip i off w i3 s3 bl V _ _ _ Hc W3 : iunlock (Some ip) (advanced s f off w s3) = _).
  destruct (chunk_commit s ip i off w i3 s3 bl V (alter (f_set_off (off + Z.of_nat (length w))) f (k_files s)) (k_freelist s3) (k_mem s3) Hrest Hc W3) as (s' & ws & E5 & HA & Hdone). mrun E5.
  apply (closed_wrote s f ip i off w i3 s3 bl V W3) in Hdone.
  exists r, s'. eexists _, ws. split; [done|]. split; [done|]. split; [|done].
  intros Hlt x Hx. destruct (Hfull Hlt) as (_ & _ & Hu).
  rewrite (agree_used LS sb V) by (apply (wn_open _ _ _ _ _ _ _ _ _ _ _ _ _ W3) || done). by apply Hu.
Qed.

(** ** The chunks one after the other *)

Lemma f_set_off_same s f off : f_off (k_files s !!! f) = off -> alter (f_set_off off) f (k_files s) = k_files s.
Proof.
  intros Ho. rewrite (alter_ext _ (fun x => x)); [by apply list_alter_id|]. intros x Hx%list_lookup_total_correct.
  rewrite Hx in Ho. rewrite <- Ho. by destruct x.
Qed.

Lemma wrote_file_nil f ip (P : gmap Z (list Z) -> Prop) off s i :
  at_rest p LS sb s -> cached LS sb s ip i -> f_off (k_files s !!! f) = off -> off <= i_size i ->
  (forall d, rewritten sb (i_inum i) (Z.to_nat off) [] (disk s) d -> P d) -> wrote_file f ip P off [] s i s i [].
Proof.
  intros Hrest Hc Hoff Hle HP. pose proof (ar_idle _ _ _ _ Hrest) as Hid.
  split; cbn [length]; rewrite ?Z.add_0_r; try done; [lia|by rewrite f_set_off_same| |apply rewritten_refl|].
  - rewrite list_insert_id; [done|]. rewrite <- (cd_inode _ _ _ _ _ Hc). apply list_lookup_lookup_total_lt, Hc.
  - apply recovers_nil; [apply (lo_range _ _ _ (id_log _ _ _ Hid))|apply Hid|apply Hid|]. intros d HA. apply HP.
    apply (rewritten_agree LS sb _ _ _ _ (disk s)); [apply Hc|done|apply rewritten_refl].
Qed.

Lemma wrote_file_app f ip (P1 P2 P : gmap Z (list Z) -> Prop) off w1 w2 s i s1 i1 ws1 s2 i2 ws2 :
  0 <= off <= i_size i -> cached LS sb s ip i -> (forall d, P1 d -> P d) -> (forall d, P2 d -> P d) ->
  wrote_file f ip P1 off w1 s i s1 i1 ws1 -> wrote_file f ip P2 (off + Z.of_nat (length w1)) w2 s1 i1 s2 i2 ws2 ->
  wrote_file f ip P off (w1 ++ w2) s i s2 i2 (ws1 ++ ws2).
Proof.
  intros Hoff Hc H1 H2 [R1 C1 N1 Z1 F1 I1 M1 Q1 W1 B1 D1 X1] [R2 C2 N2 Z2 F2 I2 M2 Q2 W2 B2 D2 X2].
  rewrite N1 in *. split; try done; try congruence.
  - rewrite Z2, Z1, length_app. lia.
  - rewrite F2, F1, alter_alter, length_app, Nat2Z.inj_add, Z.add_assoc. done.
  - rewrite I2, I1. apply list_insert_insert_eq.
  - rewrite W2, W1, rev_app_distr, app_assoc. done.
  - replace (Z.to_nat (off + Z.of_nat (length w1))) with (Z.to_nat off + length w1)%nat in D2 by lia.
    apply (rewritten_app sb _ _ _ _ _ (disk s1)); try done.
    rewrite length_file_data, (proj2 (disk_inode_of _ _ _ _ (cd_disk _ _ _ _ _ Hc))). lia.
  - apply recovers_app; [by apply (recovers_mono _ _ _ P1)|]. rewrite <- (disk_writes _ _ _ W1 B1). by apply (recovers_mono _ _ _ P2).
Qed.

(** A disk on which the first [j] bytes of [W] have arrived, in whole chunks
    counted from the byte [t] unless it is all [m] of them. *)
Definition chunks_in (inum off : Z) (W : list Z) (t m : Z) (d d' : gmap Z (list Z)) : Prop :=
  exists j, t <= j <= m /\ (j = m \/ (j - t) mod filewrite_max = 0) /\
    rewritten sb inum (Z.to_nat (off + t)) (get_bytes W (Z.to_nat t) (Z.to_nat (j - t))) d d'.

Lemma get_bytes_split (W : list Z) t a b : 0 <= t <= a -> a <= b <= Z.of_nat (length W) ->
  get_bytes W (Z.to_nat t) (Z.to_nat (b - t)) =
  get_bytes W (Z.to_nat t) (Z.to_nat (a - t)) ++ get_bytes W (Z.to_nat a) (Z.to_nat (b - a)).
Proof.
  intros Ht Hb. replace (Z.to_nat (b - t)) with (Z.to_nat (a - t) + Z.to_nat (b - a))%nat by lia.
  replace (Z.to_nat a) with (Z.to_nat t + Z.to_nat (a - t))%nat by lia. by rewrite get_bytes_app by lia.
Qed.

(** A whole chunk, or the last one, then the rest. *)
Lemma chunks_in_step inum off W t r m d d1 d' : 0 <= off -> 0 <= t -> 0 <= r -> t + r <= m <= Z.of_nat (length W) ->
  r = filewrite_max \/ t + r = m -> (Z.to_nat (off + t) <= length (file_data sb d inum))%nat ->
  rewritten sb inum (Z.to_nat (off + t)) (get_bytes W (Z.to_nat t) (Z.to_nat r)) d d1 ->
  chunks_in inum off W (t + r) m d1 d' -> chunks_in inum off W t m d d'.
Proof.
  intros Hoff Ht Hr Hm Hfull Hlen R1 (j & Hj & Hjm & R2). exists j. split; [lia|]. split.
  { destruct Hfull as [Hx|Hx]; [|left; lia]. destruct Hjm as [?|Hjm]; [by left|]. right.
    replace (j - t) with (j - (t + r) + 1 * filewrite_max) by lia. by rewrite Z.mod_add. }
  rewrite (get_bytes_split W t (t + r) j) by lia. replace (t + r - t) with r by lia.
  apply (rewritten_app sb _ _ _ _ _ d1); try done. rewrite length_get_bytes by lia.
  by replace (Z.to_nat (off + t) + Z.to_nat r)%nat with (Z.to_nat (off + (t + r))) by lia.
Qed.

Lemma chunks_in_one inum off W t r d d' : 0 <= r -> 
  all_or_nothing inum (off + t) (get_bytes W (Z.to_nat t) (Z.to_nat r)) d d' -> chunks_in inum off W t (t + r) d d'.
Proof.
  intros Hr [H|H].
  - exists t. rewrite Z.sub_diag. split; [lia|]. split; [by right|done].
  - exists (t + r). split; [lia|]. split; [by left|]. by replace (t + r - t) with r by lia.
Qed.

Lemma source_sub s addr W t m : source p s 1 addr W -> 0 <= t -> 0 < m -> t + m <= Z.of_nat (length W) ->
  source p s 1 (u64 (addr + t)) (get_bytes W (Z.to_nat t) (Z.to_nat m)).
Proof.
  intros [Ha Hu] Ht Hm Hle. change (c_true 1) with true in *. cbv iota in *. set (root := p_pagetable _) in *.
  pose proof (uread_sub _ _ _ _ (Z.to_nat t) (Z.to_nat m) Hu ltac:(lia)) as E. rewrite Z2Nat.id in E by lia.
  assert (Hmx : addr + t < 2 ^ 64).
  { replace (Z.to_nat m) with (S (Z.to_nat (m - 1))) in E at 1 by lia. pose proof (uread_max _ _ _ _ _ E). lia. }
  rewrite u64_small by lia. split; [lia|]. change (c_true 1) with true. cbv iota. fold root. by rewrite length_get_bytes by lia.
Qed.

Lemma filewrite_loop_spec f ip addr off W :
  0 <= off -> sb_size sb <= BPB -> Forall is_byte W -> off + Z.of_nat (length W) <= MAXFILE * BSIZE ->
  let n := Z.of_nat (length W) in
  forall k s i t, n - t <= Z.of_nat k -> 0 <= t <= n -> at_rest p LS sb s -> cached LS sb s ip i -> (f < length (k_files s))%nat ->
  f_ip (k_files s !!! f) = Some ip -> f_off (k_files s !!! f) = off + t -> off + t <= i_size i -> source p s 1 addr W ->
  exists c m s' i' ws, filewrite_loop k f addr n t s = Ok c s' /\ t <= m <= n /\ (c = n <-> m = n) /\
    (m < n -> disk_full (disk s')) /\
    wrote_file f ip (chunks_in (i_inum i) off W t m (disk s)) (off + t) (get_bytes W (Z.to_nat t) (Z.to_nat (m - t))) s i s' i' ws.
Proof.
  intros Hoff Hone HW Hmax n. induction k as [|k IH]; intros s i t Hk Ht Hrest Hc Hf Hip Hfo Hle Hsrc;
    (destruct (decide (t = n)) as [->|Hne];
     [exists n, n, s, i, []; cbn [filewrite_loop]; rewrite Z.ltb_irrefl, Z.sub_diag; split_and!; try done; try lia;
      apply wrote_file_nil; try done; intros d Hd; exists n; rewrite Z.sub_diag; split; [lia|]; by split; [left|]|]); [lia|].
  cbn [filewrite_loop]. rewrite (proj2 (Z.ltb_lt t n)) by lia. set (n1 := Z.min (n - t) filewrite_max).
  assert (Hmx : filewrite_max = 3072) by reflexivity. set (W1 := get_bytes W (Z.to_nat t) (Z.to_nat n1)).
  assert (Hn1 : Z.of_nat (length W1) = n1) by (unfold W1; rewrite length_get_bytes; lia).
  destruct (chunk_spec s f ip i (off + t) (u64 (addr + t)) W1
    (fun r => if negb (r =? n1) then ret t else filewrite_loop k f addr n (t + r))) as (r & s1 & i1 & ws1 & E1 & Hr & Hfull & D1);
    try done; try lia; [apply source_sub; try done; lia|by apply Forall_take, Forall_drop|].
  rewrite Hn1 in E1, Hr, Hfull. rewrite E1. clear E1.
  assert (Ew : take (Z.to_nat r) W1 = get_bytes W (Z.to_nat t) (Z.to_nat r)).
  { unfold W1, get_bytes. rewrite take_take. f_equal. lia. }
  cbv zeta in D1. rewrite Ew in D1. destruct (Z.eqb_spec r n1) as [->|Hshort]; cbn [negb].
  2: { exists t, (t + r), s1, i1, ws1. split; [done|]. split; [lia|]. split; [lia|]. split; [intros _; apply Hfull; lia|].
       replace (t + r - t) with r by lia. destruct D1 as [? ? ? ? ? ? ? ? ? ? ? Hcr]. split; try done. revert Hcr. apply recovers_mono.
       intros d Hd. apply chunks_in_one; [lia|done]. }
  pose proof D1 as [R1 C1 N1 Z1 F1 I1 M1 Q1 _ _ K1 _]. rewrite length_get_bytes, Z2Nat.id in Z1, F1 by lia.
  assert (Hf1 : k_files s1 !!! f = f_set_off (off + (t + n1)) (k_files s !!! f)).
  { rewrite F1, lookup_total_alter by done. f_equal. lia. }
  destruct (IH s1 i1 (t + n1)) as (c & m & s2 & i2 & ws2 & E2 & Hm & Hcm & Hfull2 & D2); try done; try lia.
  { by rewrite F1, length_alter. } { by rewrite Hf1. } { by rewrite Hf1. }
  { by apply (source_same s). }
  exists c, m, s2, i2, (ws1 ++ ws2). split; [done|]. split; [lia|]. split; [done|]. split; [done|].
  rewrite (get_bytes_split W t (t + n1) m) by lia. replace (t + n1 - t) with n1 by lia. rewrite N1 in D2.
  eapply wrote_file_app; [lia|done| | |exact D1|].
  - intros d [Hd|Hd]; [exists t|exists (t + n1)]; rewrite ?Z.sub_diag.
    + split; [lia|]. split; [by right|done].
    + replace (t + n1 - t) with n1 by lia. split; [lia|]. split; [|done].
      destruct (decide (n1 = filewrite_max)) as [->|]; [right; by apply Z.mod_same|left; lia].
  - intros d Hd. apply (chunks_in_step _ _ _ _ n1 _ _ (disk s1)); try done; try lia.
    rewrite length_file_data, (proj2 (disk_inode_of _ _ _ _ (cd_disk _ _ _ _ _ Hc))). lia.
  - rewrite length_get_bytes, Z2Nat.id by lia. replace (off + t + n1) with (off + (t + n1)) by lia. exact D2.
Qed.

End FileWrite.

(** ** The contract of filewrite() *)

Section Claims.
Context `{L : Linker} `{D : BlockDev}.

(** C1: filewrite() of the bytes [W] to an open inode file, at any offset
    within it, and whatever number of chunks they take. It returns n, or -1
    when the disk filled up after [m] bytes, with the offset moved by [m]. The
    file on the disk then has its bytes from the offset on replaced by the
    first [m] of [W]; every other inode and the blocks of every other file are
    as they were. If the machine stops after any number [k] of the disk writes
    this takes, the next boot's initlog() leaves the file with the first [j]
    bytes of [W] written, where [j] is [m] or a whole number of chunks: a chunk
    is on the disk with its blocks, its size and the free map, or not at all. *)
Theorem filewrite_atomic p sb s f ip i addr W :
  let fl := k_files s !!! f in let n := Z.of_nat (length W) in let LS := sb_logstart sb in
  at_rest p LS sb s -> cached LS sb s ip i -> sb_size sb <= BPB -> (f < length (k_files s))%nat ->
  f_type fl = FD_INODE -> f_writable fl <> 0 -> f_ip fl = Some ip -> 0 <= f_off fl <= i_size i ->
  f_off fl + n <= MAXFILE * BSIZE -> source p s 1 addr W -> Forall is_byte W ->
  exists m s' i' ws, filewrite f addr n s = Ok (if m =? n then n else -1) s' /\ 0 <= m <= n /\
    (m < n -> disk_full sb (disk s')) /\ at_rest p LS sb s' /\ cached LS sb s' ip i' /\
    k_files s' = alter (f_set_off (f_off fl + m)) f (k_files s) /\
    rewritten sb (i_inum i) (Z.to_nat (f_off fl)) (take (Z.to_nat m) W) (disk s) (disk s') /\
    k_writes s' = rev ws ++ k_writes s /\
    forall k q s0, booted q s0 (apply_writes (take k ws) (disk s)) ->
    exists s1 j, initlog ROOTDEV sb s0 = Ok tt s1 /\ 0 <= j <= m /\ (j = m \/ j mod filewrite_max = 0) /\
      rewritten sb (i_inum i) (Z.to_nat (f_off fl)) (take (Z.to_nat j) W) (disk s) (disk s1).
Proof.
  intros fl n LS Hrest Hc Hone Hf Hty Hwr Hip Hoff Hmax Hsrc HW.
  destruct (filewrite_loop_spec p LS sb f ip addr (f_off fl) W ltac:(lia) Hone HW Hmax (Z.to_nat n) s i 0)
    as (c & m & s' & i' & ws & E & Hm & Hcm & Hfull & Hdone); rewrite ?Z.add_0_r; try done; try lia.
  rewrite Z.add_0_r in Hdone. change (Z.to_nat 0) with 0%nat in Hdone. rewrite Z.sub_0_r in Hdone. unfold get_bytes in Hdone. rewrite drop_0 in Hdone.
  exists m, s', i', ws. split.
  { unfold filewrite, file_at. mred. fold fl. rewrite (proj2 (Z.eqb_neq _ _) Hwr), Hty. mrun E. unfold ret. f_equal.
    destruct (Z.eqb_spec c n), (Z.eqb_spec m n); tauto. }
  destruct Hdone as [R C N Zs F I M Q Wr B Dk X]. split; [lia|]. split; [done|]. split; [done|]. split; [done|].
  split; [rewrite F, length_take; f_equal; f_equal; lia|]. split; [done|]. split; [done|].
  intros k q s0 Hb. destruct (X k sb q s0 eq_refl Hb) as (s1 & E1 & _ & _ & j & Hj & Hjm & Hd). exists s1, j.
  rewrite Z.add_0_r, Z.sub_0_r in *. change (Z.to_nat 0) with 0%nat in Hd. unfold get_bytes in Hd. rewrite drop_0 in Hd. done.
Qed.

End Claims.

Module FileExample.
Import FsExample RamDisk.
#[local] Existing Instance VmTable.Example.linker.

(** "hi" written over the end of "hello". *)
Lemma filewrite_atomic_witness : exists s m s', filewrite 0 16 2 s = Ok (if m =? 2 then 2 else -1) s' /\
  file_data sb0 (disk s') 2 = overwrite [104; 101; 108; 108; 111] 3 (take (Z.to_nat m) [104; 105]) /\ 0 <= m <= 2.
Proof.
  destruct small_system as (s & Hs).
  assert (Hfl : k_files s !!! 0%nat = file0) by by rewrite (sy_files _ Hs).
  destruct (filewrite_atomic (D := ram_disk) 3 sb0 s 0 1 file_inode 16 [104; 105]) as (m & s' & i' & ws & E & Hm & _ & _ & _ & _ & Hrw & _);
    rewrite ?Hfl; try reflexivity; try done; try (cbn; lia).
  - apply Hs.
  - apply Hs.
  - rewrite (sy_files _ Hs). apply Nat.ltb_lt. reflexivity.
  - by apply hi_source.
  - repeat constructor; done.
  - exists s, m, s'. split; [exact E|]. split; [|exact Hm]. etrans; [exact (rw_data _ _ _ _ _ _ Hrw)|].
    rewrite (sy_disk _ Hs), Hfl. f_equal.
Defined.

End FileExample.
