(* ===== verification/Vma.v ===== *)
(** sysfile.c: releasing the pages of a memory mapping (write_back(),
    put_back(), clear_vm_area()), and access to the vm_area array and the
    trap frame of a process. *)

From S2P Require Import Prelude Riscv State Spinlock Kalloc Vm Sched Sleeplock Printf Bio Log Fs Pipe File.

(** [proc[p].vm_areas[i]] *)
Definition area_at (p i : nat) : K vm_area := gets (fun s => p_vm_areas (k_procs s !!! p) !!! i).
Definition upd_area (p i : nat) (f : vm_area -> vm_area) : K unit :=
  upd_proc p (fun pr => p_set_vm_areas (alter f i (p_vm_areas pr)) pr).

(** [p->trapframe->r], [r] given by its offset in struct trapframe. *)
Definition TF_kernel_satp : Z := 0.
Definition TF_kernel_sp : Z := 8.
Definition TF_kernel_trap : Z := 16.
Definition TF_epc : Z := 24.
Definition TF_kernel_hartid : Z := 32.
Definition TF_sp : Z := 48.
Definition TF_a0 : Z := 112.
Definition TF_a1 : Z := 120.
Definition TF_a2 : Z := 128.
Definition TF_a3 : Z := 136.
Definition TF_a4 : Z := 144.
Definition TF_a5 : Z := 152.
Definition TF_a7 : Z := 168.
Definition TF_SIZE : Z := 288.

Definition tf_get (p : nat) (r : Z) : K Z :=
  pr <- proc_at p;;
  if p_trapframe pr =? 0 then null_deref else kload64 (p_trapframe pr + r).
Definition tf_set (p : nat) (r v : Z) : K unit :=
  pr <- proc_at p;;
  if p_trapframe pr =? 0 then null_deref else kstore64 (p_trapframe pr + r) v.

Section Vma.
Context `{L : Linker} `{D : BlockDev}.

(** One page of write_back(); the result is the offset of the next one. *)
Definition write_back_page (pagetable : Z) (ip : nat) (pgaddr offset : Z) : K Z :=
  pa <- walkaddr pagetable pgaddr;;
  if negb (pa =? 0) then
    pte <- walk pagetable pgaddr false;;
    v <- kload64 pte;;
    i <- inode_at ip;;
    (when bit_set (PTE_FLAGS v) PTE_D && (offset <? i_size i) do
       (let nbyte := u32 (i_size i - offset) in
        r <- writei ip 0 (PTE2PA v) (u32 offset) nbyte;;
        when negb (u32 r =? nbyte) do panic "write_back: writei fail"));;
    uvmunmap pagetable pgaddr 1 true;;
    ret (u64 (offset + PGSIZE))
  else ret offset.

Fixpoint write_back_loop (k : nat) (pagetable : Z) (ip : nat) (pgaddr end_ offset : Z) : K unit :=
  if pgaddr <? end_ then
    match k with
    | O => diverge
    | S k =>
        offset <- write_back_page pagetable ip pgaddr offset;;
        write_back_loop k pagetable ip (u64 (pgaddr + PGSIZE)) end_ offset
    end
  else ret tt.

Definition write_back (pagetable : Z) (fptr : nat) (addr len offset : Z) : K unit :=
  fl <- file_at fptr;;
  begin_op;;
  ilock (f_ip fl);;
  ip <- deref (f_ip fl);;
  if negb (offset mod PGSIZE =? 0) then panic "write_back: pagsize not aligned" else
  write_back_loop (Z.to_nat (len / PGSIZE + 1)) pagetable ip addr (u64 (addr + len)) offset;;
  iunlock (f_ip fl);;
  end_op.

Fixpoint put_back_loop (k : nat) (pagetable pgaddr end_ : Z) : K unit :=
  if pgaddr <? end_ then
    match k with
    | O => diverge
    | S k =>
        pa <- walkaddr pagetable pgaddr;;
        (when negb (pa =? 0) do uvmunmap pagetable pgaddr 1 true);;
        put_back_loop k pagetable (u64 (pgaddr + PGSIZE)) end_
    end
  else ret tt.

Definition put_back (pagetable addr len : Z) : K unit :=
  put_back_loop (Z.to_nat (len / PGSIZE + 1)) pagetable addr (u64 (addr + len)).

(** [area] is [proc[p].vm_areas + i]. *)
Definition clear_vm_area (p i : nat) (pagetable : Z) : K unit :=
  a <- area_at p i;;
  (when va_valid_start a <? va_valid_end a do
     (let addr := va_valid_start a in
      let len := va_valid_end a - va_valid_start a in
      if bit_set (va_flags a) MAP_SHARED then
        let offset := u64 (addr - va_start_addr a) in
        fptr <- deref (va_fptr a);;
        write_back pagetable fptr addr len offset
      else put_back pagetable addr len));;
  fptr <- deref (va_fptr a);;
  fileclose fptr;;
  upd_area p i (fun _ => vma_zero).

(** proc.c: [areas] is [proc[p].vm_areas]. *)
Definition proc_free_vmareas (pagetable : Z) (p : nat) : K unit :=
  for_each (seq 0 NVMA) (fun i =>
    a <- area_at p i;;
    when 0 <? va_length a do clear_vm_area p i pagetable).

End Vma.
