(* ===== verification/Proc.v ===== *)
(** proc.c: the process table and the life of a process. *)

From S2P Require Import Prelude Riscv StringC State Spinlock Kalloc Vm Sched Sleeplock Printf Bio Log Fs Pipe File Vma.

(** The machine code of initcode.S. *)
Definition initcode : list Z :=
  [0x17; 0x05; 0x00; 0x00; 0x13; 0x05; 0x45; 0x02;
   0x97; 0x05; 0x00; 0x00; 0x93; 0x85; 0x35; 0x02;
   0x93; 0x08; 0x70; 0x00; 0x73; 0x00; 0x00; 0x00;
   0x93; 0x08; 0x20; 0x00; 0x73; 0x00; 0x00; 0x00;
   0xef; 0xf0; 0x9f; 0xff; 0x2f; 0x69; 0x6e; 0x69;
   0x74; 0x00; 0x00; 0x24; 0x00; 0x00; 0x00; 0x00;
   0x00; 0x00; 0x00; 0x00].

Definition procinit : K unit :=
  initlock LK_pid;;
  initlock LK_wait;;
  for_each (seq 0 NPROC) (fun p =>
    initlock (LK_proc p);;
    upd_proc p (p_set_state UNUSED);;
    upd_proc p (p_set_kstack (KSTACK (Z.of_nat p)))).

Definition allocpid : K Z :=
  acquire LK_pid;;
  pid <- gets k_nextpid;;
  modify (k_set_nextpid (s32 (pid + 1)));;
  release LK_pid;;
  ret pid.

(** safestrcpy(p->name, t, sizeof(p->name)) *)
Definition set_name (p : nat) (t : list Z) : K unit :=
  upd_proc p (fun pr => p_set_name (put_bytes (p_name pr) 0 (safestrcpy t 16)) pr).

(** The channel of a [struct proc *]. *)
Definition chan_of (p : option nat) : chan :=
  match p with Some p => CH_proc p | None => CH_null end.

Section Proc.
Context `{L : Linker} `{D : BlockDev}.

Definition proc_pagetable (p : nat) : K Z :=
  pagetable <- uvmcreate;;
  if pagetable =? 0 then ret 0 else
  r <- mappages pagetable TRAMPOLINE PGSIZE trampoline (Z.lor PTE_R PTE_X);;
  if r <? 0 then
    uvmfree pagetable 0;;
    ret 0
  else
  pr <- proc_at p;;
  r <- mappages pagetable TRAPFRAME PGSIZE (p_trapframe pr) (Z.lor PTE_R PTE_W);;
  if r <? 0 then
    uvmunmap pagetable TRAMPOLINE 1 false;;
    uvmfree pagetable 0;;
    ret 0
  else
  ret pagetable.

Definition proc_freepagetable (pagetable sz : Z) : K unit :=
  uvmunmap pagetable TRAMPOLINE 1 false;;
  uvmunmap pagetable TRAPFRAME 1 false;;
  uvmfree pagetable sz.

(** The closing loop looks at [proc->vm_areas], the areas of slot 0. *)
Definition freeproc (p : nat) : K unit :=
  pr <- proc_at p;;
  (when c_true (p_trapframe pr) do kfree (p_trapframe pr));;
  upd_proc p (p_set_trapframe 0);;
  (when c_true (p_pagetable pr) do
     (proc_free_vmareas (p_pagetable pr) p;;
      proc_freepagetable (p_pagetable pr) (p_sz pr)));;
  upd_proc p (fun pr =>
    p_set_state UNUSED (p_set_xstate 0 (p_set_killed 0 (p_set_chan CH_null
    (p_set_name (<[0%nat := 0]> (p_name pr)) (p_set_parent None (p_set_pid 0
    (p_set_sz 0 (p_set_pagetable 0 pr)))))))));;
  for_each (seq 0 NVMA) (fun i =>
    a <- area_at 0 i;;
    when negb (va_length a =? 0) do
      (upd_area 0 i (fun _ => vma_zero);;
       printf (chars "freeproc: vma not released when exit" ++ chars NL) [];;
       ret tt)).

(** The search loop: the slot found is left locked. *)
Fixpoint find_unused (ps : list nat) : K (option nat) :=
  match ps with
  | [] => ret None
  | p :: ps =>
      acquire (LK_proc p);;
      pr <- proc_at p;;
      if bool_decide (p_state pr = UNUSED) then ret (Some p) else
      release (LK_proc p);;
      find_unused ps
  end.

(** The check and the assignment after the page table is made are on
    [proc->], slot 0 of the table. *)
Definition allocproc : K (option nat) :=
  f <- find_unused (seq 0 NPROC);;
  match f with
  | None => ret None
  | Some p =>
      pid <- allocpid;;
      upd_proc p (p_set_pid pid);;
      upd_proc p (p_set_state USED);;
      tf <- kalloc;;
      upd_proc p (p_set_trapframe tf);;
      if tf =? 0 then
        freeproc p;;
        release (LK_proc p);;
        ret None
      else
      pagetable <- proc_pagetable p;;
      upd_proc p (p_set_pagetable pagetable);;
      if pagetable =? 0 then
        freeproc p;;
        release (LK_proc p);;
        ret None
      else
      for_each (seq 0 NVMA) (fun i =>
        a <- area_at 0 i;;
        when negb (va_length a =? 0) do panic "allocproc: vma contains data");;
      upd_proc 0 (p_set_next_start 0);;
      upd_proc p (fun pr =>
        p_set_context (mkContext forkret_addr (p_kstack pr + PGSIZE) (replicate 12 0)) pr);;
      ret (Some p)
  end.

Definition userinit : K unit :=
  f <- allocproc;;
  modify (k_set_initproc f);;
  p <- deref f;;
  pr <- proc_at p;;
  uvmfirst (p_pagetable pr) initcode (Z.of_nat (length initcode));;
  upd_proc p (p_set_sz PGSIZE);;
  tf_set p TF_epc 0;;
  tf_set p TF_sp PGSIZE;;
  set_name p (chars "initcode");;
  cwd <- namei (chars "/");;
  upd_proc p (p_set_cwd cwd);;
  upd_proc p (p_set_state RUNNABLE);;
  release (LK_proc p).

Definition growproc (n : Z) : K Z :=
  me <- myproc;;
  p <- deref me;;
  pr <- proc_at p;;
  let sz := p_sz pr in
  if 0 <? n then
    sz' <- uvmalloc (p_pagetable pr) sz (u64 (sz + n)) PTE_W;;
    if sz' =? 0 then ret (-1) else
    upd_proc p (p_set_sz sz');;
    ret 0
  else if n <? 0 then
    sz' <- uvmdealloc (p_pagetable pr) sz (u64 (sz + n));;
    upd_proc p (p_set_sz sz');;
    ret 0
  else
    upd_proc p (p_set_sz sz);;
    ret 0.

(** The loop of fork() that copies the mappings. *)
Definition fork_vmas (p np : nat) : K unit :=
  for_each (seq 0 NVMA) (fun i =>
    a <- area_at p i;;
    upd_area np i (fun _ => a);;
    when 0 <? va_length a do
      (f <- deref (va_fptr a);;
       filedup f;;
       ret tt)).

(** The loop of fork() that duplicates the open files. *)
Definition fork_files (p np : nat) : K unit :=
  for_each (seq 0 NOFILE) (fun fd =>
    pr <- proc_at p;;
    match p_ofile pr !!! fd with
    | Some f =>
        f <- filedup f;;
        upd_proc np (fun pr => p_set_ofile (<[fd := Some f]> (p_ofile pr)) pr)
    | None => ret tt
    end).

Definition fork : K Z :=
  me <- myproc;;
  p <- deref me;;
  a <- allocproc;;
  match a with
  | None => ret (-1)
  | Some np =>
      pr <- proc_at p;;
      npr <- proc_at np;;
      r <- uvmcopy (p_pagetable pr) (p_pagetable npr) (p_sz pr);;
      if r <? 0 then
        freeproc np;;
        release (LK_proc np);;
        ret (-1)
      else
      upd_proc np (p_set_sz (p_sz pr));;
      fork_vmas p np;;
      pr <- proc_at p;;
      upd_proc np (p_set_next_start (p_next_start pr));;
      memmove (p_trapframe npr) (p_trapframe pr) TF_SIZE;;
      tf_set np TF_a0 0;;
      fork_files p np;;
      cwd <- deref (p_cwd pr);;
      cwd <- idup cwd;;
      upd_proc np (p_set_cwd (Some cwd));;
      set_name np (p_name pr);;
      npr <- proc_at np;;
      let pid := p_pid npr in
      release (LK_proc np);;
      acquire LK_wait;;
      upd_proc np (p_set_parent (Some p));;
      release LK_wait;;
      acquire (LK_proc np);;
      upd_proc np (p_set_state RUNNABLE);;
      release (LK_proc np);;
      ret pid
  end.

Definition reparent (p : nat) : K unit :=
  for_each (seq 0 NPROC) (fun pp =>
    pr <- proc_at pp;;
    when bool_decide (p_parent pr = Some p) do
      (ip <- gets k_initproc;;
       upd_proc pp (p_set_parent ip);;
       wakeup (chan_of ip))).

(** The loop of exit() that closes the open files. *)
Definition exit_files (p : nat) : K unit :=
  for_each (seq 0 NOFILE) (fun fd =>
    pr <- proc_at p;;
    match p_ofile pr !!! fd with
    | Some f =>
        fileclose f;;
        upd_proc p (fun pr => p_set_ofile (<[fd := None]> (p_ofile pr)) pr)
    | None => ret tt
    end).

Definition exit {A} (status : Z) : K A :=
  me <- myproc;;
  ip <- gets k_initproc;;
  if bool_decide (me = ip) then panic "init exiting" else
  p <- deref me;;
  pr <- proc_at p;;
  proc_free_vmareas (p_pagetable pr) p;;
  exit_files p;;
  begin_op;;
  pr <- proc_at p;;
  cwd <- deref (p_cwd pr);;
  iput cwd;;
  end_op;;
  upd_proc p (p_set_cwd None);;
  acquire LK_wait;;
  reparent p;;
  pr <- proc_at p;;
  wakeup (chan_of (p_parent pr));;
  acquire (LK_proc p);;
  upd_proc p (p_set_xstate status);;
  upd_proc p (p_set_state ZOMBIE);;
  release LK_wait;;
  sched;;
  panic "zombie exit".

(** One pass of wait() over the table: [inl r] when it returns [r] (the locks
    released), else [inr havekids]. *)
Fixpoint wait_scan (ps : list nat) (p : nat) (addr : Z) (havekids : bool) : K (Z + bool) :=
  match ps with
  | [] => ret (inr havekids)
  | pp :: ps =>
      ppr <- proc_at pp;;
      if bool_decide (p_parent ppr = Some p) then
        acquire (LK_proc pp);;
        ppr <- proc_at pp;;
        if bool_decide (p_state ppr = ZOMBIE) then
          let pid := p_pid ppr in
          pr <- proc_at p;;
          r <- (if addr =? 0 then ret 0
                else copyout (p_pagetable pr) addr (le_bytes 4 (p_xstate ppr)) 4);;
          if r <? 0 then
            release (LK_proc pp);;
            release LK_wait;;
            ret (inl (-1))
          else
          freeproc pp;;
          release (LK_proc pp);;
          release LK_wait;;
          ret (inl pid)
        else
        release (LK_proc pp);;
        wait_scan ps p addr true
      else wait_scan ps p addr havekids
  end.

Fixpoint wait_loop (k : nat) (p : nat) (addr : Z) : K Z :=
  r <- wait_scan (seq 0 NPROC) p addr false;;
  match r with
  | inl r => ret r
  | inr havekids =>
      kd <- (if (havekids : bool) then killed p else ret 1);;
      if c_true kd then
        release LK_wait;;
        ret (-1)
      else
      match k with
      | O => diverge
      | S k =>
          sleep (CH_proc p) LK_wait;;
          wait_loop k p addr
      end
  end.

Definition wait (addr : Z) : K Z :=
  me <- myproc;;
  p <- deref me;;
  acquire LK_wait;;
  wait_loop patience p addr.

End Proc.
