(* ===== verification/Syscall.v ===== *)
(** syscall.c: fetching system-call arguments from the trap frame and user
    memory. The dispatch is in Trap.v, after the calls it dispatches to. *)

From S2P Require Import Prelude Riscv StringC State Spinlock Kalloc Vm Sched Sleeplock Printf Bio Log Fs Pipe File Vma Proc.

Section Args.
Context `{L : Linker}.

(** The current process, which every system call has. *)
Definition curproc : K nat :=
  me <- myproc;;
  deref me.

Definition fetchaddr (addr : Z) : K (Z * Z) :=
  p <- curproc;;
  pr <- proc_at p;;
  if (p_sz pr <=? addr) || (p_sz pr <? u64 (addr + 8)) then ret (-1, 0) else
  '(r, bytes) <- copyin (p_pagetable pr) addr 8;;
  if negb (r =? 0) then ret (-1, 0) else ret (0, le_value bytes).

(** The result is the length (or -1) and the bytes put in the buffer. *)
Definition fetchstr (addr max : Z) : K (Z * list Z) :=
  p <- curproc;;
  pr <- proc_at p;;
  '(r, buf) <- copyinstr (p_pagetable pr) addr max;;
  if r <? 0 then ret (-1, buf) else ret (strlen buf, buf).

Definition argraw (n : nat) : K Z :=
  p <- curproc;;
  match n with
  | 0%nat => tf_get p TF_a0
  | 1%nat => tf_get p TF_a1
  | 2%nat => tf_get p TF_a2
  | 3%nat => tf_get p TF_a3
  | 4%nat => tf_get p TF_a4
  | 5%nat => tf_get p TF_a5
  | _ => panic "argraw"
  end.

Definition argint (n : nat) : K Z :=
  v <- argraw n;;
  ret (s32 v).

Definition argaddr (n : nat) : K Z := argraw n.

Definition argstr (n : nat) (max : Z) : K (Z * list Z) :=
  addr <- argaddr n;;
  fetchstr addr max.

End Args.
