(* ===== verification/Exec.v ===== *)
(** exec.c: replacing a process's memory by a program. The locals [elf] and
    [ph] live at [ELF_ADDR] and [PH_ADDR], beside [DE_ADDR]; [argv] is the
    array of addresses of the argument strings, ended by 0. *)

From S2P Require Import Prelude Riscv StringC State Spinlock Kalloc Vm Sched Sleeplock Printf Bio Log Fs Pipe File Vma Proc.

Definition ELF_MAGIC : Z := 0x464C457F.
Definition ELF_PROG_LOAD : Z := 1.
Definition ELF_ADDR : Z := DE_ADDR + 64.
Definition ELF_SIZE : Z := 64.
Definition PH_ADDR : Z := DE_ADDR + 128.
Definition PH_SIZE : Z := 56.

(** Fields of struct elfhdr and struct proghdr. *)
Definition elf_magic (d : list Z) : Z := get_le 4 d 0.
Definition elf_entry (d : list Z) : Z := get_le 8 d 24.
Definition elf_phoff (d : list Z) : Z := get_le 8 d 32.
Definition elf_phnum (d : list Z) : Z := get_le 2 d 56.
Definition ph_type (d : list Z) : Z := get_le 4 d 0.
Definition ph_flags (d : list Z) : Z := get_le 4 d 4.
Definition ph_off (d : list Z) : Z := get_le 8 d 8.
Definition ph_vaddr (d : list Z) : Z := get_le 8 d 16.
Definition ph_filesz (d : list Z) : Z := get_le 8 d 32.
Definition ph_memsz (d : list Z) : Z := get_le 8 d 40.

Definition flags2perm (flags : Z) : Z :=
  let perm := if bit_set flags 1 then PTE_X else 0 in
  if bit_set flags 2 then Z.lor perm PTE_W else perm.

(** The string at a kernel address, without its nul; exec()'s strings lie in
    one page. *)
Definition kstr (a : Z) : K (list Z) :=
  gets (fun s => cstr (mem_read (k_mem s) a (Z.to_nat PGSIZE))).

(** The part of a path after its last slash. *)
Fixpoint last_elem (path last : list Z) : list Z :=
  match path with
  | [] => last
  | c :: p => if c =? 0 then last else last_elem p (if c =? SLASH then p else last)
  end.

Section Exec.
Context `{L : Linker} `{D : BlockDev}.

Fixpoint loadseg_loop (k : nat) (pagetable va : Z) (ip : nat) (offset sz i : Z) : K Z :=
  if i <? sz then
    match k with
    | O => diverge
    | S k =>
        pa <- walkaddr pagetable (u64 (va + i));;
        if pa =? 0 then panic "loadseg: address should exist" else
        let n := if sz - i <? PGSIZE then sz - i else PGSIZE in
        r <- readi ip 0 pa (u32 (offset + i)) n;;
        if negb (u32 r =? n) then ret (-1) else
        loadseg_loop k pagetable va ip offset sz (u32 (i + PGSIZE))
    end
  else ret 0.

Definition loadseg (pagetable va : Z) (ip : nat) (offset sz : Z) : K Z :=
  loadseg_loop (Z.to_nat (sz / PGSIZE + 1)) pagetable va ip offset sz 0.

Definition read_struct (ip : nat) (a off size : Z) : K (Z * list Z) :=
  r <- readi ip 0 a off size;;
  d <- gets (fun s => mem_read (k_mem s) a (Z.to_nat size));;
  ret (r, d).

(** The loop over the program headers, [k] of which are left: the new size,
    and whether the loop got to its end. *)
Fixpoint exec_load (k : nat) (pagetable : Z) (ip : nat) (off sz : Z) : K (bool * Z) :=
  match k with
  | O => ret (true, sz)
  | S k =>
      '(r, ph) <- read_struct ip PH_ADDR (u32 off) PH_SIZE;;
      if negb (r =? PH_SIZE) then ret (false, sz) else
      if negb (ph_type ph =? ELF_PROG_LOAD) then exec_load k pagetable ip (s32 (off + PH_SIZE)) sz else
      if ph_memsz ph <? ph_filesz ph then ret (false, sz) else
      if u64 (ph_vaddr ph + ph_memsz ph) <? ph_vaddr ph then ret (false, sz) else
      if negb (ph_vaddr ph mod PGSIZE =? 0) then ret (false, sz) else
      sz1 <- uvmalloc pagetable sz (u64 (ph_vaddr ph + ph_memsz ph)) (flags2perm (ph_flags ph));;
      if sz1 =? 0 then ret (false, sz) else
      r <- loadseg pagetable (ph_vaddr ph) ip (u32 (ph_off ph)) (u32 (ph_filesz ph));;
      if r <? 0 then ret (false, sz1) else
      exec_load k pagetable ip (s32 (off + PH_SIZE)) sz1
  end.

(** Pushing the argument strings from [argc] on: None on the way to [bad],
    else the stack pointer and the pointers pushed. *)
Fixpoint exec_push (argv : list Z) (pagetable stackbase : Z) (argc : nat) (sp : Z) (ustack : list Z)
    : K (option (Z * list Z)) :=
  match argv with
  | [] => undefined
  | a :: argv =>
      if a =? 0 then ret (Some (sp, ustack)) else
      if (MAXARG <=? argc)%nat then ret None else
      str <- kstr a;;
      let sp := u64 (sp - (strlen str + 1)) in
      let sp := sp - sp mod 16 in
      if sp <? stackbase then ret None else
      r <- copyout pagetable sp (str ++ [0]) (strlen str + 1);;
      if r <? 0 then ret None else
      exec_push argv pagetable stackbase (S argc) sp (ustack ++ [sp])
  end.

(** [bad]: the inode is still locked, and the transaction open, when [ip] is
    given. *)
Definition exec_bad (pagetable sz : Z) (ip : option nat) : K Z :=
  (when c_true pagetable do proc_freepagetable pagetable sz);;
  match ip with
  | Some ip =>
      iunlockput (Some ip);;
      end_op
  | None => ret tt
  end;;
  ret (-1).

(** From the end of the loop over the segments on. *)
Definition exec_stack (p : nat) (path argv elf : list Z) (pagetable sz : Z) : K Z :=
  pr <- proc_at p;;
  let oldsz := p_sz pr in
  let sz := PGROUNDUP sz in
  sz1 <- uvmalloc pagetable sz (u64 (sz + (USERSTACK + 1) * PGSIZE)) PTE_W;;
  if sz1 =? 0 then exec_bad pagetable sz None else
  let sz := sz1 in
  uvmclear pagetable (u64 (sz - (USERSTACK + 1) * PGSIZE));;
  let sp := sz in
  let stackbase := u64 (sp - USERSTACK * PGSIZE) in
  r <- exec_push argv pagetable stackbase 0 sp [];;
  match r with
  | None => exec_bad pagetable sz None
  | Some (sp, ustack) =>
      let argc := Z.of_nat (length ustack) in
      let sp := u64 (sp - (argc + 1) * 8) in
      let sp := sp - sp mod 16 in
      if sp <? stackbase then exec_bad pagetable sz None else
      r <- copyout pagetable sp (mjoin (le_bytes 8 <$> (ustack ++ [0]))) ((argc + 1) * 8);;
      if r <? 0 then exec_bad pagetable sz None else
      tf_set p TF_a1 sp;;
      set_name p (last_elem path path);;
      pr <- proc_at p;;
      let oldpagetable := p_pagetable pr in
      upd_proc p (p_set_pagetable pagetable);;
      upd_proc p (p_set_sz sz);;
      tf_set p TF_epc (elf_entry elf);;
      tf_set p TF_sp sp;;
      proc_free_vmareas oldpagetable p;;
      proc_freepagetable oldpagetable oldsz;;
      ret argc
  end.

Definition exec (path argv : list Z) : K Z :=
  me <- myproc;;
  p <- deref me;;
  begin_op;;
  ip <- namei path;;
  match ip with
  | None =>
      end_op;;
      ret (-1)
  | Some ip =>
      ilock (Some ip);;
      '(r, elf) <- read_struct ip ELF_ADDR 0 ELF_SIZE;;
      if negb (r =? ELF_SIZE) then exec_bad 0 0 (Some ip) else
      if negb (elf_magic elf =? ELF_MAGIC) then exec_bad 0 0 (Some ip) else
      pagetable <- proc_pagetable p;;
      if pagetable =? 0 then exec_bad 0 0 (Some ip) else
      '(ok, sz) <- exec_load (Z.to_nat (elf_phnum elf)) pagetable ip (s32 (elf_phoff elf)) 0;;
      if negb ok then exec_bad pagetable sz (Some ip) else
      iunlockput (Some ip);;
      end_op;;
      exec_stack p path argv elf pagetable sz
  end.

End Exec.
