(* ===== verification/Sysfile.v ===== *)
(** sysfile.c: the file-system calls. A call returns its value as a signed
    number; [syscall] of Trap.v stores it in a0 as 64 bits. *)

From S2P Require Import Prelude Riscv StringC State Spinlock Kalloc Vm Sched Sleeplock Printf Bio Log Fs Pipe File Vma Proc Syscall Exec.

(** A [char name[DIRSIZ]] before skipelem() fills it. *)
Definition name_buf : list Z := replicate DIRSIZ 0.

Section Sysfile.
Context `{L : Linker} `{D : BlockDev}.

(** None for -1, else the descriptor and its file. *)
Definition argfd (n : nat) : K (option (nat * nat)) :=
  fd <- argint n;;
  if (fd <? 0) || (Z.of_nat NOFILE <=? fd) then ret None else
  p <- curproc;;
  pr <- proc_at p;;
  match p_ofile pr !!! Z.to_nat fd with
  | None => ret None
  | Some f => ret (Some (Z.to_nat fd, f))
  end.

Fixpoint fdalloc_loop (fds : list nat) (p f : nat) : K Z :=
  match fds with
  | [] => ret (-1)
  | fd :: fds =>
      pr <- proc_at p;;
      match p_ofile pr !!! fd with
      | None =>
          upd_proc p (fun pr => p_set_ofile (<[fd := Some f]> (p_ofile pr)) pr);;
          ret (Z.of_nat fd)
      | Some _ => fdalloc_loop fds p f
      end
  end.

Definition fdalloc (f : nat) : K Z :=
  p <- curproc;;
  fdalloc_loop (seq 0 NOFILE) p f.

(** [p->ofile[fd] = 0] *)
Definition clear_fd (p fd : nat) : K unit :=
  upd_proc p (fun pr => p_set_ofile (<[fd := None]> (p_ofile pr)) pr).

Definition sys_dup : K Z :=
  a <- argfd 0;;
  match a with
  | None => ret (-1)
  | Some (_, f) =>
      fd <- fdalloc f;;
      if fd <? 0 then ret (-1) else
      filedup f;;
      ret fd
  end.

Definition sys_read : K Z :=
  p <- argaddr 1;;
  n <- argint 2;;
  a <- argfd 0;;
  match a with
  | None => ret (-1)
  | Some (_, f) => fileread f p n
  end.

Definition sys_write : K Z :=
  p <- argaddr 1;;
  n <- argint 2;;
  a <- argfd 0;;
  match a with
  | None => ret (-1)
  | Some (_, f) => filewrite f p n
  end.

Definition sys_close : K Z :=
  a <- argfd 0;;
  match a with
  | None => ret (-1)
  | Some (fd, f) =>
      p <- curproc;;
      clear_fd p fd;;
      fileclose f;;
      ret 0
  end.

Definition sys_fstat : K Z :=
  st <- argaddr 1;;
  a <- argfd 0;;
  match a with
  | None => ret (-1)
  | Some (_, f) => filestat f st
  end.

(** [ip->nlink += d; iupdate(ip)] *)
Definition add_nlink (ip : nat) (d : Z) : K unit :=
  upd_inode ip (fun i => i_set_nlink (s16 (i_nlink i + d)) i);;
  iupdate ip.

Definition sys_link_bad (ip : nat) : K Z :=
  ilock (Some ip);;
  add_nlink ip (-1);;
  iunlockput (Some ip);;
  end_op;;
  ret (-1).

Definition sys_link : K Z :=
  '(r, old) <- argstr 0 MAXPATH;;
  if r <? 0 then ret (-1) else
  '(r, new) <- argstr 1 MAXPATH;;
  if r <? 0 then ret (-1) else
  begin_op;;
  ip <- namei old;;
  match ip with
  | None =>
      end_op;;
      ret (-1)
  | Some ip =>
      ilock (Some ip);;
      i <- inode_at ip;;
      if i_type i =? T_DIR then
        iunlockput (Some ip);;
        end_op;;
        ret (-1)
      else
      add_nlink ip 1;;
      iunlock (Some ip);;
      '(dp, name) <- nameiparent new name_buf;;
      match dp with
      | None => sys_link_bad ip
      | Some dp =>
          ilock (Some dp);;
          d <- inode_at dp;;
          i <- inode_at ip;;
          r <- (if negb (i_dev d =? i_dev i) then ret (-1) else dirlink dp name (i_inum i));;
          if r <? 0 then
            iunlockput (Some dp);;
            sys_link_bad ip
          else
          iunlockput (Some dp);;
          iput ip;;
          end_op;;
          ret 0
      end
  end.

Fixpoint isdirempty_loop (k : nat) (dp : nat) (off : Z) : K bool :=
  d <- inode_at dp;;
  if off <? i_size d then
    match k with
    | O => diverge
    | S k =>
        '(r, de) <- read_dirent dp off;;
        if negb (r =? DIRENT_SIZE) then panic "isdirempty: readi" else
        if negb (de_inum de =? 0) then ret false else
        isdirempty_loop k dp (off + DIRENT_SIZE)
    end
  else ret true.

Definition isdirempty (dp : nat) : K bool :=
  d <- inode_at dp;;
  isdirempty_loop (Z.to_nat (i_size d / DIRENT_SIZE + 1)) dp (2 * DIRENT_SIZE).

Definition sys_unlink : K Z :=
  '(r, path) <- argstr 0 MAXPATH;;
  if r <? 0 then ret (-1) else
  begin_op;;
  '(dp, name) <- nameiparent path name_buf;;
  match dp with
  | None =>
      end_op;;
      ret (-1)
  | Some dp =>
      let bad : K Z := iunlockput (Some dp);; end_op;; ret (-1) in
      ilock (Some dp);;
      if (namecmp name (chars ".") =? 0) || (namecmp name (chars "..") =? 0) then bad else
      r <- dirlookup dp name;;
      match r with
      | None => bad
      | Some (ip, off) =>
          ilock (Some ip);;
          i <- inode_at ip;;
          if i_nlink i <? 1 then panic "unlink: nlink < 1" else
          e <- (if i_type i =? T_DIR then isdirempty ip else ret true);;
          if negb e then
            iunlockput (Some ip);;
            bad
          else
          modify (fun s => k_set_mem (mem_write (k_mem s) DE_ADDR (replicate 16 0)) s);;
          r <- writei dp 0 DE_ADDR off DIRENT_SIZE;;
          if negb (r =? DIRENT_SIZE) then panic "unlink: writei" else
          i <- inode_at ip;;
          (when i_type i =? T_DIR do add_nlink dp (-1));;
          iunlockput (Some dp);;
          add_nlink ip (-1);;
          iunlockput (Some ip);;
          end_op;;
          ret 0
      end
  end.

(** [fail] of create(): de-allocate the new inode. *)
Definition create_fail (ip dp : nat) : K (option nat) :=
  upd_inode ip (i_set_nlink 0);;
  iupdate ip;;
  iunlockput (Some ip);;
  iunlockput (Some dp);;
  ret None.

Definition create (path : list Z) (type major minor : Z) : K (option nat) :=
  '(dp, name) <- nameiparent path name_buf;;
  match dp with
  | None => ret None
  | Some dp =>
      ilock (Some dp);;
      r <- dirlookup dp name;;
      match r with
      | Some (ip, _) =>
          iunlockput (Some dp);;
          ilock (Some ip);;
          i <- inode_at ip;;
          if (type =? T_FILE) && ((i_type i =? T_FILE) || (i_type i =? T_DEVICE)) then ret (Some ip) else
          iunlockput (Some ip);;
          ret None
      | None =>
          d <- inode_at dp;;
          a <- ialloc (i_dev d) type;;
          match a with
          | None =>
              iunlockput (Some dp);;
              ret None
          | Some ip =>
              ilock (Some ip);;
              upd_inode ip (fun i => i_set_nlink 1 (i_set_minor minor (i_set_major major i)));;
              iupdate ip;;
              i <- inode_at ip;;
              ok <- (if type =? T_DIR then
                       r <- dirlink ip (chars ".") (i_inum i);;
                       if r <? 0 then ret false else
                       d <- inode_at dp;;
                       r <- dirlink ip (chars "..") (i_inum d);;
                       ret (negb (r <? 0))
                     else ret true);;
              if negb ok then create_fail ip dp else
              r <- dirlink dp name (i_inum i);;
              if r <? 0 then create_fail ip dp else
              (when type =? T_DIR do add_nlink dp 1);;
              iunlockput (Some dp);;
              ret (Some ip)
          end
      end
  end.

(** The inode sys_open() works on, locked; None after end_op(). *)
Definition open_inode (path : list Z) (omode : Z) : K (option nat) :=
  if bit_set omode O_CREATE then
    ip <- create path T_FILE 0 0;;
    match ip with
    | None =>
        end_op;;
        ret None
    | Some ip => ret (Some ip)
    end
  else
    ip <- namei path;;
    match ip with
    | None =>
        end_op;;
        ret None
    | Some ip =>
        ilock (Some ip);;
        i <- inode_at ip;;
        if (i_type i =? T_DIR) && negb (omode =? O_RDONLY) then
          iunlockput (Some ip);;
          end_op;;
          ret None
        else ret (Some ip)
    end.

(** The fields sys_open() sets in the new file. *)
Definition open_file (ip : nat) (i : inode) (omode : Z) (f : file) : file :=
  let f := if i_type i =? T_DEVICE then f_set_major (i_major i) (f_set_type FD_DEVICE f)
           else f_set_off 0 (f_set_type FD_INODE f) in
  f_set_writable (if bit_set omode O_WRONLY || bit_set omode O_RDWR then 1 else 0)
    (f_set_readable (if bit_set omode O_WRONLY then 0 else 1) (f_set_ip (Some ip) f)).

Definition sys_open : K Z :=
  omode <- argint 1;;
  '(n, path) <- argstr 0 MAXPATH;;
  if n <? 0 then ret (-1) else
  begin_op;;
  ip <- open_inode path omode;;
  match ip with
  | None => ret (-1)
  | Some ip =>
      let bad : K Z := iunlockput (Some ip);; end_op;; ret (-1) in
      i <- inode_at ip;;
      if (i_type i =? T_DEVICE) && ((i_major i <? 0) || (NDEV <=? i_major i)) then bad else
      f <- filealloc;;
      match f with
      | None => bad
      | Some f =>
          fd <- fdalloc f;;
          if fd <? 0 then
            fileclose f;;
            bad
          else
          i <- inode_at ip;;
          upd_file f (open_file ip i omode);;
          (when bit_set omode O_TRUNC && (i_type i =? T_FILE) do itrunc ip);;
          iunlock (Some ip);;
          end_op;;
          ret fd
      end
  end.

(** sys_mkdir() and sys_mknod() after their arguments. *)
Definition create_call (r : Z) (path : list Z) (type major minor : Z) : K Z :=
  ip <- (if r <? 0 then ret None else create path type major minor);;
  match ip with
  | None =>
      end_op;;
      ret (-1)
  | Some ip =>
      iunlockput (Some ip);;
      end_op;;
      ret 0
  end.

Definition sys_mkdir : K Z :=
  begin_op;;
  '(r, path) <- argstr 0 MAXPATH;;
  create_call r path T_DIR 0 0.

Definition sys_mknod : K Z :=
  begin_op;;
  major <- argint 1;;
  minor <- argint 2;;
  '(r, path) <- argstr 0 MAXPATH;;
  create_call r path T_DEVICE (s16 major) (s16 minor).

Definition sys_chdir : K Z :=
  p <- curproc;;
  begin_op;;
  '(r, path) <- argstr 0 MAXPATH;;
  ip <- (if r <? 0 then ret None else namei path);;
  match ip with
  | None =>
      end_op;;
      ret (-1)
  | Some ip =>
      ilock (Some ip);;
      i <- inode_at ip;;
      if negb (i_type i =? T_DIR) then
        iunlockput (Some ip);;
        end_op;;
        ret (-1)
      else
      iunlock (Some ip);;
      pr <- proc_at p;;
      cwd <- deref (p_cwd pr);;
      iput cwd;;
      end_op;;
      upd_proc p (p_set_cwd (Some ip));;
      ret 0
  end.

(** The loop of sys_exec(): whether it got to the null pointer, and the pages
    in [argv]. [k] entries of the array are left. *)
Fixpoint exec_args (k : nat) (uargv : Z) (argv : list Z) : K (bool * list Z) :=
  match k with
  | O => ret (false, argv)
  | S k =>
      '(r, uarg) <- fetchaddr (u64 (uargv + 8 * Z.of_nat (length argv)));;
      if r <? 0 then ret (false, argv) else
      if uarg =? 0 then ret (true, argv) else
      page <- kalloc;;
      if page =? 0 then ret (false, argv) else
      '(r, str) <- fetchstr uarg PGSIZE;;
      modify (fun s => k_set_mem (mem_write (k_mem s) page str) s);;
      if r <? 0 then ret (false, argv ++ [page]) else
      exec_args k uargv (argv ++ [page])
  end.

Definition sys_exec : K Z :=
  uargv <- argaddr 1;;
  '(r, path) <- argstr 0 MAXPATH;;
  if r <? 0 then ret (-1) else
  '(ok, argv) <- exec_args MAXARG uargv [];;
  r <- (if (ok : bool) then exec path (argv ++ [0]) else ret (-1));;
  for_each argv kfree;;
  ret r.

Definition sys_pipe : K Z :=
  p <- curproc;;
  fdarray <- argaddr 0;;
  '(r, rf, wf) <- pipealloc;;
  if r <? 0 then ret (-1) else
  rf <- deref rf;;
  wf <- deref wf;;
  let close_both : K Z := fileclose rf;; fileclose wf;; ret (-1) in
  fd0 <- fdalloc rf;;
  if fd0 <? 0 then close_both else
  fd1 <- fdalloc wf;;
  if fd1 <? 0 then
    clear_fd p (Z.to_nat fd0);;
    close_both
  else
  pr <- proc_at p;;
  r <- copyout (p_pagetable pr) fdarray (le_bytes 4 fd0) 4;;
  r <- (if r <? 0 then ret r else copyout (p_pagetable pr) (u64 (fdarray + 4)) (le_bytes 4 fd1) 4);;
  if r <? 0 then
    clear_fd p (Z.to_nat fd0);;
    clear_fd p (Z.to_nat fd1);;
    close_both
  else ret 0.

End Sysfile.
