(* ===== verification/Mmap.v ===== *)
(** sysfile.c: mmap(), munmap() and the page-fault handler. *)

From S2P Require Import Prelude Riscv StringC State Spinlock Kalloc Vm Sched Sleeplock Printf Bio Log Fs Pipe File Vma Proc Syscall.

Section Mmap.
Context `{L : Linker} `{D : BlockDev}.

(** printf() and return -1. *)
Definition complain (msg : string) (ap : list parg) : K Z :=
  printf (chars msg ++ chars NL) ap;;
  ret (-1).

(** The first slot in [is_] whose area satisfies [f]. *)
Fixpoint find_area (f : vm_area -> bool) (is_ : list nat) (areas : list vm_area) : option nat :=
  match is_ with
  | [] => None
  | i :: is_ => if f (areas !!! i) then Some i else find_area f is_ areas
  end.

(** The second half of sys_mmap(): the area is [slot], the file [fptr]. *)
Definition mmap_area (p slot fptr : nat) (len prot flags : Z) : K Z :=
  filedup fptr;;
  upd_area p slot (va_set_fptr (Some fptr));;
  pr <- proc_at p;;
  (when p_next_start pr =? 0 do upd_proc p (p_set_next_start (PGROUNDUP (p_sz pr))));;
  pr <- proc_at p;;
  if p_next_start pr <? p_sz pr then panic "sys_mmap: memory crash" else
  let start := p_next_start pr in
  let end_ := u64 (start + len) in
  if end_ <=? start then
    printf (chars "sys_mmap: address overflow" ++ chars NL) [];;
    upd_area p slot (va_set_fptr None);;
    fileclose fptr;;
    ret (-1)
  else
  upd_proc p (p_set_next_start end_);;
  upd_area p slot (fun a =>
    va_set_valid_end (u64 (start + len)) (va_set_valid_start start (va_set_prot prot
    (va_set_flags flags (va_set_length len (va_set_start_addr start a))))));;
  printf (chars "sys_mmap size of proc: %lx, start_addr: %lx, end_addr: %lx" ++ chars NL)
    [PInt (p_sz pr); PInt start; PInt (u64 (start + len))];;
  ret start.

Definition sys_mmap : K Z :=
  len <- argaddr 1;;
  prot <- argint 2;;
  flags <- argint 3;;
  fd <- argint 4;;
  p <- curproc;;
  if (len <=? 0) || negb (len mod PGSIZE =? 0) then
    complain "sys_mmap: len = %ld is not a valid number" [PInt len] else
  if (fd <? 0) || (Z.of_nat NOFILE <=? fd) then
    complain "sys_mmap: fd = %d is not a valid number" [PInt fd] else
  pr <- proc_at p;;
  match p_ofile pr !!! Z.to_nat fd with
  | None => complain "sys_mmap: fd = %d is bind to null" [PInt fd]
  | Some fptr =>
      fl <- file_at fptr;;
      if negb (bool_decide (f_type fl = FD_INODE)) then
        complain "sys_mmap: fd = %d is not bind to a file" [PInt fd] else
      if bit_set prot PROT_WRITE && bit_set flags MAP_SHARED && (f_writable fl =? 0) then
        complain "sys_mmap: fd = %d is not writable" [PInt fd] else
      match find_area (fun a => va_length a =? 0) (seq 0 NVMA) (p_vm_areas pr) with
      | None => complain "sys_mmap: vm_areas are full" []
      | Some slot => mmap_area p slot fptr len prot flags
      end
  end.

(** sys_munmap() once the area is found and its valid range shrunk. *)
Definition munmap_pages (p slot : nat) (addr len : Z) : K Z :=
  a <- area_at p slot;;
  pr <- proc_at p;;
  (if bit_set (va_flags a) MAP_SHARED then
     let offset := u64 (addr - va_start_addr a) in
     fptr <- deref (va_fptr a);;
     write_back (p_pagetable pr) fptr addr len offset
   else put_back (p_pagetable pr) addr len);;
  (when va_valid_end a <=? va_valid_start a do clear_vm_area p slot (p_pagetable pr));;
  ret 0.

Definition sys_munmap : K Z :=
  addr <- argaddr 0;;
  len <- argaddr 1;;
  if negb (addr mod PGSIZE =? 0) || negb (len mod PGSIZE =? 0) then
    complain "sys_munmap: addr or len not page aligned " [] else
  p <- curproc;;
  pr <- proc_at p;;
  match find_area (fun a => negb (va_length a =? 0) && (va_valid_start a <=? addr)
                            && (u64 (addr + len) <=? va_valid_end a))
          (seq 0 NVMA) (p_vm_areas pr) with
  | None => complain "sys_munmap: range not in vm area" []
  | Some slot =>
      a <- area_at p slot;;
      if va_valid_start a =? addr then
        upd_area p slot (va_set_valid_start (u64 (addr + len)));;
        munmap_pages p slot addr len
      else if u64 (addr + len) =? va_valid_end a then
        upd_area p slot (va_set_valid_end (u64 (va_valid_end a - len)));;
        munmap_pages p slot addr len
      else complain "sys_munmap: cannot make a whole in vm area" []
  end.

(** mmap_load_instr() after its checks: back [pgaddr] by a page filled from
    the file. *)
Definition load_page (p : nat) (a : vm_area) (pagetable pgaddr : Z) : K Z :=
  let perm := PTE_U in
  let perm := if bit_set (va_prot a) PROT_READ then Z.lor perm PTE_R else perm in
  let perm := if bit_set (va_prot a) PROT_WRITE then Z.lor perm PTE_W else perm in
  newpage <- kalloc;;
  if newpage =? 0 then complain "mmap_load_instr: memory full" [] else
  memset newpage 0 PGSIZE;;
  printf (chars "map page addr: %lx" ++ chars NL) [PInt pgaddr];;
  r <- mappages pagetable pgaddr PGSIZE newpage perm;;
  if r =? -1 then
    kfree newpage;;
    complain "mmap_load_instr: map page not success" []
  else
  printf (chars "mappages done" ++ chars NL) [];;
  let offset := u64 (pgaddr - va_start_addr a) in
  fptr <- deref (va_fptr a);;
  fl <- file_at fptr;;
  ilock (f_ip fl);;
  ip <- deref (f_ip fl);;
  i <- inode_at ip;;
  read_bytes <- (if offset <? i_size i then readi ip 0 newpage (u32 offset) PGSIZE else ret 1);;
  if read_bytes =? 0 then
    iunlock (f_ip fl);;
    printf (chars "mmap_load_instr: read fail from the inode") [];;
    uvmunmap pagetable pgaddr 1 true;;
    ret (-1)
  else
  iunlock (f_ip fl);;
  ret 0.

Definition mmap_load_instr : K Z :=
  csr <- gets k_csr;;
  let scause := r_scause csr in
  if negb (scause =? 0xd) && negb (scause =? 0xf) then ret (-1) else
  let va := r_stval csr in
  p <- curproc;;
  pr <- proc_at p;;
  let pgaddr := PGROUNDDOWN va in
  match find_area (fun a => negb (va_length a =? 0) && (va_start_addr a <=? pgaddr)
                            && (pgaddr <? u64 (va_start_addr a + va_length a)))
          (seq 0 NVMA) (p_vm_areas pr) with
  | None => complain "mmap_load_instr: va %lx not in any vm area" [PInt va]
  | Some slot =>
      a <- area_at p slot;;
      if (va <? va_valid_start a) || (va_valid_end a <=? va) then
        printf (chars "mmap_load_instr: visit invalid memory" ++ chars NL) [];;
        exit (-1)
      else
      if negb (bit_set (va_prot a) PROT_WRITE) && (scause =? 0xf) then
        printf (chars "try to write a readable page" ++ chars NL) [];;
        exit (-1)
      else
      load_page p a (p_pagetable pr) pgaddr
  end.

End Mmap.
