(* ===== verification/MmapSpec.v ===== *)
(** mmap(): where a mapping goes, and what the argument checks do.

    [areas_ok] is the invariant of a process's vm_areas: the regions in use
    are page-aligned, disjoint, and below next_start, the bump pointer mmap()
    allocates from. *)

From S2P Require Import Prelude Riscv State Spinlock Kalloc Vm Sched Sleeplock Printf PrintfSpec Bio BioSpec Log Fs Pipe File Vma Proc Syscall Mmap.

(** ** Formats whose numerals always fit *)

Definition fits (d : directive) : bool :=
  match d with
  | Num false base sg => ((base =? 10) && (sg =? 1)) || ((base =? 16) && (sg =? 0))
  | Num true base sg => (base =? 16) && (sg =? 0)
  | _ => true
  end.

Lemma numeral_text_fits v base sg :
  - 2 ^ 63 <= v < 2 ^ 63 -> (base = 16 /\ sg = 0) \/ (base = 10 /\ sg = 1 /\ - 10 ^ 15 < v < 10 ^ 16) ->
  numeral_text v base sg = Some (printint_chars v base sg).
Proof.
  intros Hv Hc. unfold numeral_text. rewrite (proj2 (Nat.ltb_ge _ _)); [done|].
  destruct (printint_chars_spec v base sg) as (ds & -> & _ & _ & Hl); [lia|done|].
  rewrite length_app, length_fmap. destruct Hc as [[-> ->]|(-> & -> & Hr)]; cbn [c_true Z.eqb negb andb] in *.
  - pose proof (u64_range v). apply Hl; [lia|]. change (16 ^ Z.of_nat 16) with (2 ^ 64). lia.
  - destruct (Z.ltb_spec v 0); cbn [length] in *.
    + specialize (Hl 15%nat ltac:(lia)). change (10 ^ Z.of_nat 15) with (10 ^ 15) in Hl. lia.
    + specialize (Hl 16%nat ltac:(lia)). change (10 ^ Z.of_nat 16) with (10 ^ 16) in Hl. rewrite u64_small in Hl by lia. lia.
Qed.

Lemma numeral_text_long v : - 2 ^ 63 <= v < 2 ^ 63 -> 10 ^ 16 <= v \/ v <= - 10 ^ 15 -> numeral_text v 10 1 = None.
Proof.
  intros Hv Hl. unfold numeral_text. rewrite (proj2 (Nat.ltb_lt _ _)); [done|].
  destruct (printint_chars_spec v 10 1 ltac:(lia) Hv) as (ds & -> & _ & _ & Hd). rewrite length_app, length_fmap.
  cbn [c_true Z.eqb negb andb] in *. destruct (Z.ltb_spec v 0); cbn [length] in *.
  - specialize (Hd 15%nat ltac:(lia)). change (10 ^ Z.of_nat 15) with (10 ^ 15) in Hd. lia.
  - specialize (Hd 16%nat ltac:(lia)). change (10 ^ Z.of_nat 16) with (10 ^ 16) in Hd. rewrite u64_small in Hd by lia. lia.
Qed.

Lemma render_all_fits ds : forall ap, forallb fits ds = true -> exists cs, render_all ds ap = (cs, true).
Proof.
  induction ds as [|d ds IH]; intros ap H; [by exists []|]. cbn in H. apply andb_prop in H as [Hd H]. cbn [render_all].
  assert (exists cs ap', render d ap = (Some cs, ap')) as (cs & ap' & ->).
  { destruct d as [c|[] base sg| | | |c]; cbn [render]; try (by eexists _, _).
    - destruct (va_uint64 ap) as [v ap']. cbn in Hd. apply andb_prop in Hd as [->%Z.eqb_eq ->%Z.eqb_eq].
      rewrite numeral_text_fits; [by eexists _, _|apply s64_range|by left].
    - unfold va_int. destruct (va_uint64 ap) as [v ap']. pose proof (s32_range v). cbn in Hd.
      rewrite numeral_text_fits; [by eexists _, _|lia|]. apply orb_prop in Hd as [Hd|Hd];
        apply andb_prop in Hd as [->%Z.eqb_eq ->%Z.eqb_eq]; [right; lia|by left].
    - destruct (va_uint64 ap). by eexists _, _.
    - destruct (va_str ap). by eexists _, _. }
  destruct (IH ap' H) as (cs' & ->). by eexists.
Qed.

(** ** Arguments *)

Definition tf_arg (s : kstate) (p : nat) (r : Z) : Z := load64 (k_mem s) (p_trapframe (k_procs s !!! p) + r).

(** A process in a system call, the console working. *)
Record calling (p : nat) (s : kstate) : Prop := {
  cg_run : running p s;
  cg_tf : p_trapframe (k_procs s !!! p) <> 0;
  cg_console : k_panicked s = 0
}.

Section MmapSpec.
Context `{L : Linker} `{D : BlockDev}.

Lemma curproc_eq p s : running p s -> curproc s = Ok p s.
Proof. intros Hr. unfold curproc. mrun (myproc_eq s (rn_settled _ _ Hr)). by rewrite (rn_cur _ _ Hr). Qed.

Lemma tf_get_eq p s r : calling p s -> tf_get p r s = Ok (tf_arg s p r) s.
Proof.
  intros Hc. unfold tf_get, proc_at. mred. rewrite (proj2 (Z.eqb_neq _ _) (cg_tf _ _ Hc)). done.
Qed.

Lemma argraw_eq p s n r : calling p s -> [TF_a0; TF_a1; TF_a2; TF_a3; TF_a4; TF_a5] !! n = Some r ->
  argraw n s = Ok (tf_arg s p r) s.
Proof.
  intros Hc Hn. unfold argraw. mrun (curproc_eq p s (cg_run _ _ Hc)).
  do 6 (destruct n as [|n]; [injection Hn as <-; by apply tf_get_eq|]). done.
Qed.

Lemma argint_eq p s n r : calling p s -> [TF_a0; TF_a1; TF_a2; TF_a3; TF_a4; TF_a5] !! n = Some r ->
  argint n s = Ok (s32 (tf_arg s p r)) s.
Proof. intros Hc Hn. unfold argint. by mrun (argraw_eq p s n r Hc Hn). Qed.

Lemma printf_literal msg ap p s :
  running p s -> k_panicked s = 0 -> Forall is_byte msg -> Forall arg_ok ap -> forallb fits (parse (S (length msg)) msg) = true ->
  exists cs, printf msg ap s = Ok 0 (emit cs s).
Proof.
  intros Hr Hp Hb Ha Hf. destruct (render_all_fits _ ap Hf) as (cs & E). exists cs.
  apply printf_eq; [done|done|apply Hr|rewrite (rn_depth _ _ Hr); lia|done|by apply (running_free _ _ _ Hr)|exact E].
Qed.

Lemma complain_eq msg ap p s :
  running p s -> k_panicked s = 0 -> Forall is_byte (chars msg ++ chars NL) -> Forall arg_ok ap ->
  forallb fits (parse (S (length (chars msg ++ chars NL))) (chars msg ++ chars NL)) = true ->
  exists cs, complain msg ap s = Ok (-1) (emit cs s).
Proof.
  intros Hr Hp Hb Ha Hf. destruct (printf_literal _ ap p s Hr Hp Hb Ha Hf) as (cs & E). exists cs.
  unfold complain. by mrun E.
Qed.

(** ** The arguments of sys_mmap() *)

Record mmap_args (s : kstate) (p : nat) (len prot flags fd : Z) : Prop := {
  ma_call : calling p s;
  ma_len : tf_arg s p TF_a1 = len;
  ma_prot : s32 (tf_arg s p TF_a2) = prot;
  ma_flags : s32 (tf_arg s p TF_a3) = flags;
  ma_fd : s32 (tf_arg s p TF_a4) = fd
}.

Definition free_slot (pr : proc) : option nat := find_area (fun a => va_length a =? 0) (seq 0 NVMA) (p_vm_areas pr).

Definition not_writable (f : file) (prot flags : Z) : Prop :=
  bit_set prot PROT_WRITE = true /\ bit_set flags MAP_SHARED = true /\ f_writable f = 0.

(** A request that passes the checks on everything but the address range. *)
Record mmap_valid (s : kstate) (p : nat) (len prot flags fd : Z) (fptr slot : nat) : Prop := {
  mv_len : 0 < len /\ len mod PGSIZE = 0;
  mv_fd : 0 <= fd < Z.of_nat NOFILE;
  mv_file : p_ofile (k_procs s !!! p) !!! Z.to_nat fd = Some fptr;
  mv_inode : f_type (k_files s !!! fptr) = FD_INODE;
  mv_writable : ~ not_writable (k_files s !!! fptr) prot flags;
  mv_slot : free_slot (k_procs s !!! p) = Some slot
}.

Ltac fetch Ha :=
  let Hc := constr:(ma_call _ _ _ _ _ _ Ha) in
  unfold sys_mmap; match type of Ha with mmap_args ?s ?p _ _ _ _ =>
    mrun (argraw_eq p s 1 TF_a1 Hc eq_refl); mrun (argint_eq p s 2 TF_a2 Hc eq_refl);
    mrun (argint_eq p s 3 TF_a3 Hc eq_refl); mrun (argint_eq p s 4 TF_a4 Hc eq_refl);
    mrun (curproc_eq p s (cg_run _ _ Hc));
    rewrite (ma_len _ _ _ _ _ _ Ha), ?(ma_prot _ _ _ _ _ _ Ha), ?(ma_flags _ _ _ _ _ _ Ha), ?(ma_fd _ _ _ _ _ _ Ha)
  end.

Lemma not_writable_dec f prot flags :
  bit_set prot PROT_WRITE && bit_set flags MAP_SHARED && (f_writable f =? 0) = true <-> not_writable f prot flags.
Proof. unfold not_writable. rewrite !andb_true_iff, Z.eqb_eq. tauto. Qed.

Lemma sys_mmap_valid s p len prot flags fd fptr slot :
  mmap_args s p len prot flags fd -> mmap_valid s p len prot flags fd fptr slot ->
  sys_mmap s = mmap_area p slot fptr len prot flags s.
Proof.
  intros Ha [[Hl Hm] Hfd Hf Hi Hw Hs]. fetch Ha.
  rewrite (proj2 (Z.leb_gt len 0)) by lia. rewrite (proj2 (Z.eqb_eq _ _) Hm). cbn [orb negb].
  rewrite (proj2 (Z.ltb_ge fd 0)), (proj2 (Z.leb_gt (Z.of_nat NOFILE) fd)) by lia. cbn [orb]. unfold proc_at. mred. rewrite Hf.
  unfold file_at. mred. rewrite Hi. cbn [negb bool_decide decide].
  rewrite bool_decide_eq_true_2 by done. cbn [negb].
  destruct (_ && _ && _) eqn:E; [by apply not_writable_dec in E|]. fold (free_slot (k_procs s !!! p)). by rewrite Hs.
Qed.

Lemma literal_ok msg : forallb (fun c => (0 <=? c) && (c <? 256)) msg = true -> Forall is_byte msg.
Proof.
  intros H. rewrite forallb_forall in H. apply Forall_forall. intros c Hc%list_elem_of_In. specialize (H c Hc). unfold is_byte. lia.
Qed.

Ltac complains p s Hc :=
  match goal with |- exists cs, complain ?m ?ap s = _ =>
    apply (complain_eq m ap p s (cg_run _ _ Hc) (cg_console _ _ Hc)); [by apply literal_ok|by repeat constructor|reflexivity]
  end.

Lemma complain_len len p s : calling p s -> 0 <= len < 2 ^ 64 -> - 10 ^ 15 < s64 len < 10 ^ 16 ->
  exists cs, complain "sys_mmap: len = %ld is not a valid number" [PInt len] s = Ok (-1) (emit cs s).
Proof.
  intros Hc Hl Hr. pose proof (cg_run _ _ Hc) as Hrun. unfold complain.
  set (msg := chars "sys_mmap: len = %ld is not a valid number" ++ chars NL).
  assert (exists cs, format msg [PInt len] = (cs, true)) as (cs & E).
  { unfold format. match goal with |- context [parse ?n msg] => let ds := eval vm_compute in (parse n msg) in change (parse n msg) with ds end.
    cbn [render_all render va_uint64]. rewrite (u64_small len), (numeral_text_fits (s64 len) 10 1) by (done || apply s64_range || (right; lia)).
    by eexists. }
  exists cs. assert (Ep : printf msg [PInt len] s = Ok 0 (emit cs s)); [|by mrun Ep].
  apply printf_eq; [by apply literal_ok|by repeat constructor|apply Hrun|rewrite (rn_depth _ _ Hrun); lia|apply Hc|by apply (running_free _ _ _ Hrun)|exact E].
Qed.

Lemma sys_mmap_invalid s p len prot flags fd :
  mmap_args s p len prot flags fd -> 0 <= len < 2 ^ 64 -> len mod PGSIZE = 0 \/ - 10 ^ 15 < s64 len < 10 ^ 16 ->
  (forall fptr slot, ~ mmap_valid s p len prot flags fd fptr slot) ->
  exists cs, sys_mmap s = Ok (-1) (emit cs s).
Proof.
  intros Ha Hl Hlr Hno. pose proof (ma_call _ _ _ _ _ _ Ha) as Hc. fetch Ha.
  destruct ((len <=? 0) || negb (len mod PGSIZE =? 0)) eqn:E1.
  { apply (complain_len len p); [done|done|]. destruct Hlr as [Hm|Hlr]; [|done]. rewrite Hm, orb_false_r in E1.
    apply Z.leb_le in E1. by replace len with 0 by lia. }
  apply orb_false_iff in E1 as [E1%Z.leb_gt E1']. apply negb_false_iff, Z.eqb_eq in E1'.
  destruct ((fd <? 0) || (Z.of_nat NOFILE <=? fd)) eqn:E2; [complains p s Hc|].
  apply orb_false_iff in E2 as [E2%Z.ltb_ge E2'%Z.leb_gt]. unfold proc_at. mred.
  destruct (p_ofile (k_procs s !!! p) !!! Z.to_nat fd) as [fptr|] eqn:E3; [|complains p s Hc].
  unfold file_at. mred. destruct (bool_decide (f_type (k_files s !!! fptr) = FD_INODE)) eqn:E4; cbn [negb]; [|complains p s Hc].
  apply bool_decide_eq_true_1 in E4. destruct (_ && _ && _) eqn:E5; [complains p s Hc|].
  fold (free_slot (k_procs s !!! p)). destruct (free_slot (k_procs s !!! p)) as [slot|] eqn:E6; [|complains p s Hc].
  destruct (Hno fptr slot). split; try done. intros Hnw%not_writable_dec. congruence.
Qed.

(** ** Placing the area *)

Lemma filedup_eq p s f :
  running p s -> (f < length (k_files s))%nat -> 1 <= f_ref (k_files s !!! f) < 2 ^ 31 - 1 ->
  filedup f s = Ok f (k_set_files (alter (f_set_ref (f_ref (k_files s !!! f) + 1)) f (k_files s)) s).
Proof.
  intros Hr Hf Href. unfold filedup, file_at, upd_file. mrun (acquire_eq LK_ftable s (running_free _ _ _ Hr)).
  change (k_files (locked LK_ftable s)) with (k_files s). rewrite (proj2 (Z.ltb_ge _ _)), s32_small by lia. mred.
  set (s1 := k_set_files (alter (f_set_ref (f_ref (k_files s !!! f) + 1)) f (k_files s)) s).
  by mrun (release_locked LK_ftable s1 (rn_settled _ _ Hr) (running_free _ _ LK_ftable Hr)).
Qed.

(** Where the next mapping starts. *)
Definition mmap_start (pr : proc) : Z := if p_next_start pr =? 0 then PGROUNDUP (p_sz pr) else p_next_start pr.

Definition new_area (fptr : nat) (start len prot flags : Z) : vm_area :=
  mkVma start len prot flags (Some fptr) start (start + len).

Definition placed (slot fptr : nat) (start len prot flags : Z) (pr : proc) : proc :=
  p_set_next_start (start + len)
    (p_set_vm_areas (alter (fun _ => new_area fptr start len prot flags) slot (p_vm_areas pr)) pr).

Definition file_ref_up (fptr : nat) (s : kstate) : kstate :=
  k_set_files (alter (f_set_ref (f_ref (k_files s !!! fptr) + 1)) fptr (k_files s)) s.

(** The process with the file recorded and next_start set. *)
Definition reserved (slot fptr : nat) (pr : proc) : proc :=
  p_set_next_start (mmap_start pr) (p_set_vm_areas (alter (va_set_fptr (Some fptr)) slot (p_vm_areas pr)) pr).

Lemma mmap_area_start p s slot fptr len prot flags :
  running p s -> (fptr < length (k_files s))%nat -> 1 <= f_ref (k_files s !!! fptr) < 2 ^ 31 - 1 ->
  mmap_area p slot fptr len prot flags s =
    (pr <- proc_at p;;
     if p_next_start pr <? p_sz pr then panic "sys_mmap: memory crash" else
     let start := p_next_start pr in
     let end_ := u64 (start + len) in
     if end_ <=? start then
       printf (chars "sys_mmap: address overflow" ++ chars NL) [];;
       upd_area p slot (va_set_fptr None);;
       fileclose fptr;;
       ret (-1)
     else
     upd_proc p (p_set_next_start end_);;
     upd_area p slot (fun a =>
       va_set_valid_end (u64 (start + len)) (va_set_valid_start start (va_set_prot prot
       (va_set_flags flags (va_set_length len (va_set_start_addr start a))))));;
     printf (chars "sys_mmap size of proc: %lx, start_addr: %lx, end_addr: %lx" ++ chars NL)
       [PInt (p_sz pr); PInt start; PInt (u64 (start + len))];;
     ret start)
    (k_set_procs (alter (reserved slot fptr) p (k_procs s)) (file_ref_up fptr s)).
Proof.
  intros Hr Hf Href. unfold mmap_area. mrun (filedup_eq p s fptr Hr Hf Href). fold (file_ref_up fptr s).
  unfold upd_area, upd_proc, proc_at at 1. mred.
  assert (Hp : (p < length (k_procs s))%nat) by (rewrite (rn_procs _ _ Hr); apply Hr).
  cbn [k_procs k_set_procs file_ref_up k_set_files]. rewrite lookup_total_alter by done.
  cbn [p_next_start p_set_vm_areas p_sz]. set (s1 := file_ref_up fptr s).
  destruct (p_next_start (k_procs s !!! p) =? 0) eqn:E; mred.
  - match goal with |- (_ (k_set_procs ?q (k_set_procs ?q1 s1))) = _ =>
      change (k_set_procs q (k_set_procs q1 s1)) with (k_set_procs q s1);
      replace q with (alter (reserved slot fptr) p (k_procs s)); [done|] end.
    cbn [k_procs k_set_procs s1 file_ref_up k_set_files]. rewrite alter_alter. apply alter_ext.
    intros pr Hpr. apply list_lookup_total_correct in Hpr. subst pr. unfold reserved, mmap_start. by rewrite E.
  - f_equal. f_equal. apply alter_ext. intros pr Hpr. apply list_lookup_total_correct in Hpr. subst pr.
    unfold reserved, mmap_start. by rewrite E.
Qed.

Lemma running_alter p f s :
  running p s -> (forall pr, p_state (f pr) = p_state pr) -> (forall pr, p_chan (f pr) = p_chan pr) ->
  running p (k_set_procs (alter f p (k_procs s)) s).
Proof.
  intros Hr Hst Hch. assert (Hp : (p < length (k_procs s))%nat) by (rewrite (rn_procs _ _ Hr); apply Hr).
  destruct Hr as [? ? ? Hl ? ? Hs]. split; try done; cbn.
  - by rewrite length_alter.
  - by rewrite lookup_total_alter, Hst, Hch by done.
Qed.

Lemma mmap_area_placed p s slot fptr len prot flags :
  calling p s -> (fptr < length (k_files s))%nat -> 1 <= f_ref (k_files s !!! fptr) < 2 ^ 31 - 1 ->
  let start := mmap_start (k_procs s !!! p) in
  p_sz (k_procs s !!! p) <= start -> 0 <= start -> 0 < len -> start + len < 2 ^ 64 ->
  exists cs, mmap_area p slot fptr len prot flags s =
    Ok start (emit cs (k_set_procs (alter (placed slot fptr start len prot flags) p (k_procs s)) (file_ref_up fptr s))).
Proof.
  intros Hc Hf Href start Hsz H0 Hlen Hend. pose proof (cg_run _ _ Hc) as Hr.
  assert (Hp : (p < length (k_procs s))%nat) by (rewrite (rn_procs _ _ Hr); apply Hr).
  rewrite (mmap_area_start p s slot fptr len prot flags Hr Hf Href). unfold proc_at. mred.
  cbn [k_procs k_set_procs]. rewrite lookup_total_alter by done. cbn [p_next_start p_sz reserved p_set_next_start p_set_vm_areas].
  fold start. rewrite (proj2 (Z.ltb_ge _ _)), u64_small by lia. cbv zeta. rewrite (proj2 (Z.leb_gt _ _)) by lia.
  unfold upd_area, upd_proc. mred. set (s1 := file_ref_up fptr s).
  match goal with |- exists cs, bind (printf _ _) _ ?x = _ =>
    assert (Ex : x = k_set_procs (alter (placed slot fptr start len prot flags) p (k_procs s)) s1) end.
  { cbn [k_procs k_set_procs]. rewrite !alter_alter. apply (f_equal (fun q => k_set_procs q s1)). apply alter_ext.
    intros pr Hpr. apply list_lookup_total_correct in Hpr. subst pr. unfold placed, reserved, p_set_next_start, p_set_vm_areas. cbn.
    rewrite alter_alter. do 2 f_equal. }
  rewrite Ex. set (s2 := k_set_procs _ s1).
  assert (Hr2 : running p s2).
  { apply (running_alter p _ s1); [by destruct Hr|done|done]. }
  destruct (printf_literal (chars "sys_mmap size of proc: %lx, start_addr: %lx, end_addr: %lx" ++ chars NL)
    [PInt (p_sz (k_procs s !!! p)); PInt start; PInt (start + len)] p s2 Hr2) as (cs & E);
    [apply Hc|by apply literal_ok|by repeat constructor|reflexivity|].
  exists cs. by mrun E.
Qed.

(** ** The invariant of the areas *)

Record areas_ok (pr : proc) : Prop := {
  ao_len : length (p_vm_areas pr) = NVMA;
  ao_next : 0 <= p_next_start pr /\ p_next_start pr mod PGSIZE = 0;
  ao_used i a : p_vm_areas pr !! i = Some a -> va_length a <> 0 ->
    0 < va_length a /\ va_length a mod PGSIZE = 0 /\ 0 <= va_start_addr a /\ va_start_addr a mod PGSIZE = 0 /\
    va_start_addr a + va_length a <= p_next_start pr /\
    va_start_addr a <= va_valid_start a /\ va_valid_end a <= va_start_addr a + va_length a /\ is_Some (va_fptr a);
  ao_disjoint i j a b : i <> j -> p_vm_areas pr !! i = Some a -> p_vm_areas pr !! j = Some b ->
    va_length a <> 0 -> va_length b <> 0 ->
    va_start_addr a + va_length a <= va_start_addr b \/ va_start_addr b + va_length b <= va_start_addr a
}.

Lemma find_area_some f areas is_ : forall i, find_area f is_ areas = Some i -> i ∈ is_ /\ f (areas !!! i) = true.
Proof.
  induction is_ as [|j is_ IH]; intros i; [done|]. cbn. destruct (f (areas !!! j)) eqn:E.
  - intros [= <-]. split; [left|done].
  - intros H. destruct (IH i H). split; [by right|done].
Qed.

Lemma mmap_start_ok pr : areas_ok pr -> 0 <= p_sz pr <= 2 ^ 64 - PGSIZE ->
  0 <= mmap_start pr /\ mmap_start pr mod PGSIZE = 0 /\ p_next_start pr <= mmap_start pr.
Proof.
  intros Hok Hsz. unfold mmap_start. destruct (Z.eqb_spec (p_next_start pr) 0) as [->|].
  - pose proof (PGROUNDUP_range (p_sz pr) Hsz). lia.
  - destruct (ao_next _ Hok). lia.
Qed.

Lemma areas_ok_placed pr slot fptr len prot flags :
  areas_ok pr -> 0 <= p_sz pr <= 2 ^ 64 - PGSIZE -> free_slot pr = Some slot -> 0 < len -> len mod PGSIZE = 0 ->
  let start := mmap_start pr in areas_ok (placed slot fptr start len prot flags pr).
Proof.
  intros Hok Hsz Hslot Hlen Hmod start. destruct (mmap_start_ok pr Hok Hsz) as (Hs0 & Hsm & Hsn). fold start in Hs0, Hsm, Hsn.
  apply find_area_some in Hslot as [Hin%elem_of_seq Hfree%Z.eqb_eq]. pose proof (ao_len _ Hok) as Hl.
  assert (Hlook : forall i a, p_vm_areas (placed slot fptr start len prot flags pr) !! i = Some a ->
    (i = slot /\ a = new_area fptr start len prot flags) \/ (i <> slot /\ p_vm_areas pr !! i = Some a)).
  { intros i a. cbn. destruct (decide (i = slot)) as [->|Hne].
    - rewrite list_lookup_alter_eq. destruct (p_vm_areas pr !! slot); [|done]. intros [= <-]. by left.
    - rewrite list_lookup_alter_ne by done. by right. }
  split; cbn [placed p_next_start p_set_next_start].
  - cbn. by rewrite length_alter.
  - split; [lia|]. rewrite Z.add_mod, Hsm, Hmod by done. done.
  - intros i a Ha Hne. destruct (Hlook i a Ha) as [[-> ->]|[Hi Ha']]; cbn.
    + split_and!; try done; lia.
    + destruct (ao_used _ Hok i a Ha' Hne) as (? & ? & ? & ? & ? & ? & ? & ?). split_and!; (done || lia).
  - intros i j a b Hij Ha Hb Hna Hnb.
    destruct (Hlook i a Ha) as [[-> ->]|[Hi Ha']], (Hlook j b Hb) as [[-> ->]|[Hj Hb']]; cbn; try done.
    + destruct (ao_used _ Hok j b Hb' Hnb) as (_ & _ & _ & _ & ? & _). lia.
    + destruct (ao_used _ Hok i a Ha' Hna) as (_ & _ & _ & _ & ? & _). lia.
    + by apply (ao_disjoint _ Hok i j).
Qed.

(** ** What mmap() promises *)

(** C12: a valid mmap() request returns the first free page-aligned address of
    the mapping region, at or above the process's memory and disjoint from
    every area in use, takes a reference on the file, and records the area;
    the invariant of the areas (aligned, disjoint, below next_start) is
    preserved. Nothing is read or mapped yet. *)
Theorem sys_mmap_places s p len prot flags fd fptr slot :
  mmap_args s p len prot flags fd -> mmap_valid s p len prot flags fd fptr slot ->
  let pr := k_procs s !!! p in let start := mmap_start pr in
  areas_ok pr -> 0 <= p_sz pr <= 2 ^ 64 - PGSIZE -> p_sz pr <= start -> start + len < 2 ^ 64 ->
  (fptr < length (k_files s))%nat -> 1 <= f_ref (k_files s !!! fptr) < 2 ^ 31 - 1 ->
  (exists cs, sys_mmap s =
    Ok start (emit cs (k_set_procs (alter (placed slot fptr start len prot flags) p (k_procs s)) (file_ref_up fptr s)))) /\
  areas_ok (placed slot fptr start len prot flags pr) /\ start mod PGSIZE = 0 /\
  (forall i a, p_vm_areas pr !! i = Some a -> va_length a <> 0 -> va_start_addr a + va_length a <= start).
Proof.
  intros Ha Hv pr start Hok Hsz Hlow Hhigh Hf Href. destruct (mv_len _ _ _ _ _ _ _ _ Hv) as [Hlen Hmod].
  destruct (mmap_start_ok pr Hok Hsz) as (Hs0 & Hsm & Hsn). split_and!.
  - rewrite (sys_mmap_valid s p len prot flags fd fptr slot Ha Hv).
    apply mmap_area_placed; try done. apply (ma_call _ _ _ _ _ _ Ha).
  - apply areas_ok_placed; try done. apply (mv_slot _ _ _ _ _ _ _ _ Hv).
  - done.
  - intros i a Hi Hne. destruct (ao_used _ Hok i a Hi Hne) as (_ & _ & _ & _ & ? & _). unfold start. lia.
Qed.

(** C36: an mmap() request that fails a check - a length that is zero or not a
    multiple of the page size, a bad descriptor, a file that is not an inode,
    a writable shared mapping of a file not open for writing, no free slot -
    prints a message, returns -1 and changes nothing else. The message about a
    length that is not a multiple of the page size shows it as a signed number,
    which must have at most 16 characters; sys_mmap_overruns is about the rest. *)
Theorem sys_mmap_rejects s p len prot flags fd :
  mmap_args s p len prot flags fd -> 0 <= len < 2 ^ 64 -> len mod PGSIZE = 0 \/ - 10 ^ 15 < s64 len < 10 ^ 16 ->
  (forall fptr slot, ~ mmap_valid s p len prot flags fd fptr slot) ->
  exists cs, sys_mmap s = Ok (-1) (emit cs s).
Proof. apply sys_mmap_invalid. Qed.

(** C32: a user program can overrun the kernel's stack: mmap() with a length that
    is not a multiple of the page size and that, as a signed 64-bit number, has 17
    characters or more (10^16 and above, or -10^15 and below) makes printf() write
    past the 16-byte buffer of printint(). *)
Theorem sys_mmap_overruns s p len prot flags fd :
  mmap_args s p len prot flags fd -> 0 <= len < 2 ^ 64 -> 10 ^ 16 <= s64 len \/ s64 len <= - 10 ^ 15 ->
  len mod PGSIZE <> 0 ->
  exists s', sys_mmap s = Panic "undefined" s'.
Proof.
  intros Ha Hl Hlr Hm. pose proof (ma_call _ _ _ _ _ _ Ha) as Hc. pose proof (cg_run _ _ Hc) as Hrun. fetch Ha.
  rewrite (proj2 (Z.eqb_neq _ _) Hm), orb_true_r. unfold complain.
  set (msg := chars "sys_mmap: len = %ld is not a valid number" ++ chars NL).
  assert (exists cs, format msg [PInt len] = (cs, false)) as (cs & E).
  { unfold format. match goal with |- context [parse ?n msg] => let ds := eval vm_compute in (parse n msg) in change (parse n msg) with ds end.
    cbn [render_all render va_uint64]. rewrite (u64_small len), (numeral_text_long (s64 len) (s64_range len) Hlr) by done. by eexists. }
  destruct (printf_overruns msg [PInt len] s cs) as (s' & Ep);
    [by apply literal_ok|by repeat constructor|apply Hrun|rewrite (rn_depth _ _ Hrun); lia|apply Hc|by apply (running_free _ _ _ Hrun)|exact E|].
  exists s'. unfold bind. by rewrite Ep.
Qed.

(** C34: a user program can panic the kernel: once next_start is set, growing
    the process beyond it (sbrk() after the mappings are gone) makes the next
    valid mmap() panic. *)
Theorem sys_mmap_panics s p len prot flags fd fptr slot :
  mmap_args s p len prot flags fd -> mmap_valid s p len prot flags fd fptr slot ->
  (fptr < length (k_files s))%nat -> 1 <= f_ref (k_files s !!! fptr) < 2 ^ 31 - 1 ->
  0 < p_next_start (k_procs s !!! p) < p_sz (k_procs s !!! p) ->
  exists s', sys_mmap s = Panic "sys_mmap: memory crash" s'.
Proof.
  intros Ha Hv Hf Href Hlt. pose proof (cg_run _ _ (ma_call _ _ _ _ _ _ Ha)) as Hr.
  assert (Hp : (p < length (k_procs s))%nat) by (rewrite (rn_procs _ _ Hr); apply Hr).
  rewrite (sys_mmap_valid s p len prot flags fd fptr slot Ha Hv), (mmap_area_start p s slot fptr len prot flags Hr Hf Href).
  unfold proc_at. mred. cbn [k_procs k_set_procs]. rewrite lookup_total_alter by done.
  cbn [p_next_start p_sz reserved p_set_next_start p_set_vm_areas]. unfold mmap_start.
  rewrite (proj2 (Z.eqb_neq _ _)), (proj2 (Z.ltb_lt _ _)) by lia. by eexists.
Qed.

End MmapSpec.

(** ** A process with a file open on descriptor 3 *)

Module MmapExample.
#[local] Existing Instance Kalloc.Trace.example_linker.
Import RamDisk.

Definition TF : Z := 4096.

Definition call_mem (len prot flags fd : Z) : mem :=
  store64 (store64 (store64 (store64 (fun _ => 0) (TF + TF_a1) len) (TF + TF_a2) prot) (TF + TF_a3) flags) (TF + TF_a4) fd.

Definition caller (sz next len prot flags fd : Z) : kstate :=
  let s := machine ∅ in
  k_set_mem (call_mem len prot flags fd)
  (k_set_files (alter (fun _ => mkFile FD_INODE 1 1 1 0 (Some 0%nat) 0 0) 0%nat (k_files s))
  (k_set_procs (alter (fun pr => p_set_ofile (<[3%nat := Some 0%nat]> (p_ofile pr)) (p_set_trapframe TF
     (p_set_sz sz (p_set_next_start next pr)))) 3%nat (k_procs s)) s)).

Lemma caller_calling sz next len prot flags fd : calling 3 (caller sz next len prot flags fd).
Proof.
  split; [|done|reflexivity]. destruct (machine_running ∅). split; try done.
Qed.

Lemma caller_args sz next len prot flags fd :
  0 <= len < 2 ^ 64 -> 0 <= prot < 2 ^ 31 -> 0 <= flags < 2 ^ 31 -> 0 <= fd < 2 ^ 31 ->
  mmap_args (caller sz next len prot flags fd) 3 len prot flags fd.
Proof.
  intros Hl Hp Hfl Hfd. split; [apply caller_calling|..];
    unfold tf_arg, caller; change (p_trapframe _) with TF; change (k_mem _) with (call_mem len prot flags fd); unfold call_mem, TF, TF_a1, TF_a2, TF_a3, TF_a4.
  - rewrite !load_store_out, load_store_same by lia. apply Z.mod_small. exact Hl.
  - rewrite !load_store_out, load_store_same by lia. rewrite Z.mod_small by (change (256 ^ Z.of_nat 8) with (2 ^ 64); lia). apply s32_small. lia.
  - rewrite !load_store_out, load_store_same by lia. rewrite Z.mod_small by (change (256 ^ Z.of_nat 8) with (2 ^ 64); lia). apply s32_small. lia.
  - rewrite load_store_same. rewrite Z.mod_small by (change (256 ^ Z.of_nat 8) with (2 ^ 64); lia). apply s32_small. lia.
Qed.

Lemma caller_valid sz next len prot flags : 0 < len -> len mod PGSIZE = 0 ->
  mmap_valid (caller sz next len prot flags 3) 3 len prot flags 3 0 0.
Proof.
  intros Hl Hm. split; try done.
  intros (_ & _ & H). change (f_writable _) with 1 in H. lia.
Qed.

Lemma caller_areas sz next len prot flags fd : 0 <= next -> next mod PGSIZE = 0 ->
  areas_ok (k_procs (caller sz next len prot flags fd) !!! 3%nat).
Proof.
  intros Hn Hm. change (k_procs (caller sz next len prot flags fd) !!! 3%nat) with
    (p_set_ofile (<[3%nat := Some 0%nat]> (replicate NOFILE None)) (p_set_trapframe TF (p_set_sz sz (p_set_next_start next
       (p_set_state RUNNING (k_procs (boot_state (fun _ => 0) ∅) !!! 3%nat)))))).
  assert (Hz : forall i a, replicate NVMA vma_zero !! i = Some a -> va_length a = 0) by (intros i a [-> _]%lookup_replicate; done).
  split; cbn; try done.
  - intros i a Ha Hne. by rewrite (Hz i a Ha) in Hne.
  - intros i j a b _ Ha _ Hne. by rewrite (Hz i a Ha) in Hne.
Qed.

Lemma sys_mmap_places_witness : exists cs, sys_mmap (caller 12288 0 8192 3 1 3) =
  Ok 12288 (emit cs (k_set_procs (alter (placed 0 0 12288 8192 3 1) 3%nat (k_procs (caller 12288 0 8192 3 1 3)))
    (file_ref_up 0 (caller 12288 0 8192 3 1 3)))).
Proof.
  destruct (sys_mmap_places (D := ram_disk) (caller 12288 0 8192 3 1 3) 3 8192 3 1 3 0 0) as [H _].
  - by apply caller_args.
  - by apply caller_valid.
  - by apply caller_areas.
  - change (0 <= 12288 <= 2 ^ 64 - PGSIZE). unfold PGSIZE. lia.
  - change (12288 <= PGROUNDUP 12288). vm_compute. congruence.
  - change (PGROUNDUP 12288 + 8192 < 2 ^ 64). vm_compute. reflexivity.
  - apply Nat.ltb_lt. reflexivity.
  - change (1 <= 1 < 2 ^ 31 - 1). lia.
  - exact H.
Defined.

Lemma sys_mmap_rejects_witness : exists cs, sys_mmap (caller 12288 0 100 3 1 3) = Ok (-1) (emit cs (caller 12288 0 100 3 1 3)).
Proof.
  apply (sys_mmap_rejects (D := ram_disk) (caller 12288 0 100 3 1 3) 3 100 3 1 3).
  - by apply caller_args.
  - lia.
  - right. vm_compute. split; reflexivity.
  - intros fptr slot [[_ H] _ _ _ _ _]. discriminate H.
Defined.

Lemma sys_mmap_overruns_witness : exists s', sys_mmap (caller 12288 0 12345678901234567 3 1 3) = Panic "undefined" s'.
Proof.
  apply (sys_mmap_overruns (D := ram_disk) (caller 12288 0 12345678901234567 3 1 3) 3 12345678901234567 3 1 3).
  - by apply caller_args.
  - lia.
  - left. vm_compute. discriminate.
  - vm_compute. congruence.
Defined.

Lemma sys_mmap_panics_witness : exists s', sys_mmap (caller 40960 20480 8192 3 1 3) = Panic "sys_mmap: memory crash" s'.
Proof.
  apply (sys_mmap_panics (D := ram_disk) (caller 40960 20480 8192 3 1 3) 3 8192 3 1 3 0 0).
  - by apply caller_args.
  - by apply caller_valid.
  - apply Nat.ltb_lt. reflexivity.
  - change (1 <= 1 < 2 ^ 31 - 1). lia.
  - change (0 < 20480 < 40960). lia.
Defined.

End MmapExample.
