(* ===== verification/MmapFault.v ===== *)
(** The page fault on a mapped file: mmap_load_instr() of sysfile.c.

    The handler takes a page from the allocator, maps it, and reads the file's
    bytes into it. The theorem composes the allocator, the page table, the
    console, the inode locks and readi(): the process then sees the file in its
    memory. *)

From S2P Require Import Prelude Riscv StringC State Spinlock Kalloc Vm VmTable VmCopy VmFork Sched Sleeplock Printf PrintfSpec Bio BioSpec Log LogSpec FsTx FsOp Fs FsBlock FsFile FsInode FsRw FsRead FsDisk FsExample FsTable Pipe File Vma Proc Syscall Mmap MmapSpec.

(** The permissions of the page. *)
Definition area_perm (a : vm_area) : Z :=
  let perm := if bit_set (va_prot a) PROT_READ then Z.lor PTE_U PTE_R else PTE_U in
  if bit_set (va_prot a) PROT_WRITE then Z.lor perm PTE_W else perm.

Lemma area_perm_range a : 0 <= area_perm a < 1024.
Proof. unfold area_perm. destruct (bit_set _ PROT_READ), (bit_set _ PROT_WRITE); by vm_compute. Qed.

(** Byte [j] of the page: the file's, or zero past its end. *)
Definition page_byte (c : list Z) (off j : Z) : Z := default 0 (c !! Z.to_nat (off + j)).

Section Fault.
Context `{L : Linker} `{D : BlockDev}.

(** ** Memory and console do not concern the file system *)

Definition quiet (s s' : kstate) : Prop := s' = k_set_uart (k_uart s') (k_set_freelist (k_freelist s') (k_set_mem (k_mem s') s)).

#[local] Instance quiet_trans : Transitive quiet.
Proof. unfold quiet. intros s1 s2 s3 H1 H2. rewrite H2 at 1. by rewrite H1. Qed.

Lemma quiet_mem_only s s' : mem_only s s' -> quiet s s'.
Proof. unfold quiet. intros E. rewrite E. by destruct s. Qed.

Lemma quiet_emit s cs : quiet s (emit cs s).
Proof. unfold quiet. by destruct s. Qed.

Lemma rd_quiet p s s' R V : quiet s s' -> rd p s R V -> rd p s' R V.
Proof. intros -> [C ? ? ?]. split; try done. destruct C as [[]]. by split. Qed.

Lemma running_quiet p s s' : quiet s s' -> running p s -> running p s'.
Proof. intros ->. by intros []. Qed.

Lemma panicked_quiet s s' : quiet s s' -> k_panicked s = 0 -> k_panicked s' = 0.
Proof. by intros ->. Qed.

Lemma running_kmem p s : running p s -> settled s /\ lock_free LK_kmem s.
Proof. intros Hr. split; [apply Hr|by apply (running_free p)]. Qed.

(** ** Backing the page *)

(** What load_page() does once the page is mapped. *)
Definition fill (a : vm_area) (root pgaddr q : Z) : K Z :=
  fptr <- deref (va_fptr a);;
  fl <- file_at fptr;;
  ilock (f_ip fl);;
  ip <- deref (f_ip fl);;
  i <- inode_at ip;;
  read_bytes <- (if u64 (pgaddr - va_start_addr a) <? i_size i then readi ip 0 q (u32 (u64 (pgaddr - va_start_addr a))) PGSIZE else ret 1);;
  if read_bytes =? 0 then
    iunlock (f_ip fl);;
    printf (chars "mmap_load_instr: read fail from the inode") [];;
    uvmunmap root pgaddr 1 true;;
    ret (-1)
  else
  iunlock (f_ip fl);;
  ret 0.

(** The page could not be had: the mappings are the old ones. *)
Record refused (root : Z) (s : kstate) (l : list Z) (G : gmap Z (nat * Z)) (s' : kstate) : Prop := {
  rf_quiet : quiet s s';
  rf_table : exists l' G', table root s' l' G';
  rf_lookup va : 0 <= va < MAXVA -> lookup_pte (k_mem s') root va = lookup_pte (k_mem s) root va;
  rf_frame x : elsewhere l G x -> k_mem s' x = k_mem s x
}.

Record backed (root : Z) (s : kstate) (l : list Z) (G : gmap Z (nat * Z)) (pgaddr perm q : Z) (s' : kstate)
    (l' : list Z) (G' : gmap Z (nat * Z)) : Prop := {
  bk_table : table root s' l' G';
  bk_page : page_ok q /\ q ∈ l /\ q ∉ l' /\ G' !! q = None;
  bk_lookup va : 0 <= va < MAXVA -> lookup_pte (k_mem s') root va =
    if va / PGSIZE =? pgaddr / PGSIZE then leaf_pte q perm else lookup_pte (k_mem s) root va;
  bk_frame x : elsewhere l G x -> k_mem s' x = k_mem s x
}.

(** The page to be backed. *)
Record faulting (p : nat) (root : Z) (s : kstate) (l : list Z) (G : gmap Z (nat * Z)) (pgaddr : Z) : Prop := {
  ft_run : running p s;
  ft_console : k_panicked s = 0;
  ft_table : table root s l G;
  ft_page : pgaddr mod PGSIZE = 0 /\ 0 <= pgaddr /\ pgaddr + PGSIZE <= MAXVA;
  ft_unmapped va : pgaddr <= va < pgaddr + PGSIZE -> bit_set (lookup_pte (k_mem s) root va) PTE_V = false
}.

(** After kalloc(), memset() and the message. *)
Lemma zeroed_faulting p root s q l G pgaddr cs : faulting p root s (q :: l) G pgaddr ->
  quiet s (emit cs (zeroed q s)) /\ faulting p root (emit cs (zeroed q s)) l G pgaddr.
Proof.
  intros [Hr Hc Ht Hpg Hun]. destruct (zeroed_table root s q l G Ht) as (Ht1 & Hlk).
  assert (Hq : quiet s (emit cs (zeroed q s))) by (etrans; [|apply quiet_emit]; by apply quiet_mem_only).
  split; [done|]. pose proof (running_quiet p _ _ Hq Hr) as Hr1. destruct (running_kmem p _ Hr1) as (Hs & Hl). split; try done.
  - by apply (table_ext root (zeroed q s)).
  - intros va Hva. change (k_mem (emit _ ?s)) with (k_mem s). rewrite Hlk by lia. by apply Hun.
Qed.

Lemma zeroed_frame root s q l G cs x : table root s (q :: l) G -> elsewhere (q :: l) G x ->
  elsewhere l G x /\ k_mem (emit cs (zeroed q s)) x = k_mem s x.
Proof.
  intros Ht Hx. split; [intros pg [Hpg|Hpg]; apply Hx; [left; by right|by right]|].
  change (k_mem (emit _ ?s)) with (k_mem s). apply zeroed_out. apply Hx. left. left.
Qed.

(** mappages() failed: the page goes back. *)
Lemma load_refused p root s q l G G1 s1 : running p s -> k_panicked s = 0 -> page_ok q -> q ∉ l -> G !! q = None ->
  grown root s l G s1 [] G1 -> (forall va, 0 <= va < MAXVA -> lookup_pte (k_mem s1) root va = lookup_pte (k_mem s) root va) ->
  exists s', (kfree q;; complain "mmap_load_instr: map page not success" []) s1 = Ok (-1) s' /\ refused root s (q :: l) G s'.
Proof.
  intros Hr Hc Hq Hl HG Hg Hlk. pose proof (quiet_mem_only _ _ (gr_only _ _ _ _ _ _ _ Hg)) as Hq1.
  pose proof (running_quiet p _ _ Hq1 Hr) as Hr1. destruct (running_kmem p _ Hr1) as (Hs1 & Hf1).
  destruct (grown_keeps _ _ _ _ _ _ _ q Hg Hq Hl HG) as (HG1 & Hl1 & _).
  destruct (table_kfree root s1 [] G1 q (gr_table _ _ _ _ _ _ _ Hg) Hq Hl1 HG1) as (Ht2 & _ & Hlk2).
  mrun (kfree_eq q s1 Hs1 Hf1 Hq). assert (Hq2 : quiet s (kfree_state q s1)) by (etrans; [exact Hq1|]; by apply quiet_mem_only).
  destruct (complain_eq "mmap_load_instr: map page not success" [] p (kfree_state q s1)) as (cs & E);
    [by apply (running_quiet p s)|by apply (panicked_quiet s)|by apply literal_ok|done|reflexivity|].
  exists (emit cs (kfree_state q s1)). split; [exact E|]. assert (Hq3 : quiet s (emit cs (kfree_state q s1))) by (etrans; [exact Hq2|apply quiet_emit]).
  destruct (running_kmem p _ (running_quiet p _ _ Hq3 Hr)) as (Hs3 & Hf3).
  split; [done|eexists _, _; by apply (table_ext root (kfree_state q s1))| |].
  - intros va Hva. change (k_mem (emit _ ?s)) with (k_mem s). by rewrite Hlk2, Hlk.
  - intros x Hx. change (k_mem (emit _ ?s)) with (k_mem s). rewrite kfree_state_out by (apply Hx; left; left).
    apply (grown_frame _ _ _ _ _ _ _ _ Hg). intros pg [Hpg|Hpg]; apply Hx; [left; by right|by right].
Qed.

(** mappages() succeeded. *)
Lemma load_mapped p root s l G pgaddr perm q s1 l1 G1 cs : running p s -> page_ok q -> q ∉ l -> G !! q = None ->
  grown root s l G s1 l1 G1 -> pgaddr mod PGSIZE = 0 ->
  (forall va, 0 <= va < MAXVA -> lookup_pte (k_mem s1) root va = VmTable.mapped (lookup_pte (k_mem s) root) pgaddr q perm 1 va) ->
  backed root s (q :: l) G pgaddr perm q (emit cs s1) l1 G1 /\ forall x, q <= x < q + PGSIZE -> k_mem (emit cs s1) x = k_mem s x.
Proof.
  intros Hr Hq Hl HG Hg Hal Hlk. destruct (grown_keeps _ _ _ _ _ _ _ q Hg Hq Hl HG) as (HG1 & Hl1 & Hz). split; [|done].
  assert (Hr1 : running p (emit cs s1)).
  { apply (running_quiet p s); [|done]. etrans; [apply quiet_mem_only, Hg|apply quiet_emit]. }
  destruct (running_kmem p _ Hr1) as (Hs1 & Hf1). split.
  - by apply (table_ext root s1); [| | | |apply Hg].
  - split; [done|]. split; [left|done].
  - intros va Hva. change (k_mem (emit _ ?s)) with (k_mem s). rewrite Hlk by done. by apply VmTable.mapped_1.
  - intros x Hx. apply (grown_frame _ _ _ _ _ _ _ _ Hg). intros pg [Hpg|Hpg]; apply Hx; [left; by right|by right].
Qed.

(** The first half of load_page(). *)
Lemma load_backed p root s l G a pgaddr : faulting p root s l G pgaddr ->
  (exists s', load_page p a root pgaddr s = Ok (-1) s' /\ refused root s l G s' /\ (length l < 3)%nat) \/
  (exists q s' l' G', load_page p a root pgaddr s = fill a root pgaddr q s' /\ quiet s s' /\
     backed root s l G pgaddr (area_perm a) q s' l' G' /\ forall x, q <= x < q + PGSIZE -> k_mem s' x = 0).
Proof.
  intros Hf. pose proof Hf as [Hr Hc Ht Hpg Hun]. pose proof (tb_vm _ _ _ _ Ht) as [Hs Hu Hk].
  unfold load_page. destruct l as [|q l].
  { mrun (kalloc_empty s Hs Hu Hk). left.
    destruct (complain_eq "mmap_load_instr: memory full" [] p s) as (cs & E); [done|done|by apply literal_ok|done|reflexivity|].
    exists (emit cs s). split; [exact E|]. pose proof (quiet_emit s cs) as Hq. destruct (running_kmem p _ (running_quiet p _ _ Hq Hr)) as (Hs3 & Hf3).
    split; [|cbn; lia]. split; [done|eexists _, _; by apply (table_ext root s)|done|done]. }
  destruct (kalloc_new root s q l G Ht) as (Ek & Hq0). mrun Ek. rewrite (proj2 (Z.eqb_neq _ _) Hq0).
  destruct (new_page_ok root s q l G Ht) as (Hq & Hql & HqG).
  unfold memset. mred. fold (zeroed q s).
  destruct (printf_literal (chars "map page addr: %lx" ++ chars NL) [PInt pgaddr] p (zeroed q s)) as (cs & E);
    [by destruct Hr|done|by apply literal_ok|by repeat constructor|reflexivity|].
  mrun E. destruct (zeroed_faulting p root s q l G pgaddr cs Hf) as (Hqs & [Hr1 Hc1 Ht1 _ Hun1]). fold (area_perm a).
  set (s1 := emit cs (zeroed q s)) in *. destruct Hpg as (Hal & H0 & Hmax). pose proof (page_ok_nonzero q Hq) as Hqr.
  assert (Hlk1 : forall va, 0 <= va < MAXVA -> lookup_pte (k_mem s1) root va = lookup_pte (k_mem s) root va) by apply (zeroed_table root s q l G Ht).
  destruct (mappages_ok root pgaddr PGSIZE q (area_perm a) s1 l G Ht1 (area_perm_range a) Hal eq_refl ltac:(reflexivity) H0 Hmax)
    as (r & s2 & l2 & G2 & j & Em & Hg & Hr' & Hlk); [destruct Hq as [_ Hq]; unfold PHYSTOP, KERNBASE, PGSIZE in *; lia..|done|].
  mrun Em. change (PGSIZE / PGSIZE) with 1 in Hr'. destruct Hr' as [(-> & Hj & _)|(-> & -> & Hj & Hn)].
  - right. assert (j = 1%nat) as -> by lia. change (0 =? -1) with false. cbn match.
    pose proof (quiet_mem_only _ _ (gr_only _ _ _ _ _ _ _ Hg)) as Hq2. assert (Hq02 : quiet s s2) by (by etrans).
    destruct (printf_literal (chars "mappages done" ++ chars NL) [] p s2) as (cs2 & E2);
      [by apply (running_quiet p s)|by apply (panicked_quiet s)|by apply literal_ok|done|reflexivity|].
    mrun E2. exists q, (emit cs2 s2), l2, G2. split; [done|]. split; [etrans; [exact Hq02|apply quiet_emit]|].
    destruct (load_mapped p root s1 l G pgaddr (area_perm a) q s2 l2 G2 cs2) as ([Hb1 Hb2 Hb3 Hb4] & Hz); try done.
    split; [split; [done| | |]|].
    + split; [done|]. split; [left|tauto].
    + intros va Hva. rewrite Hb3 by done. destruct (_ =? _); [done|by apply Hlk1].
    + intros x Hx. destruct (zeroed_frame root s q l G cs x Ht Hx) as [Hx' <-]. by apply Hb4.
    + intros x Hx. rewrite Hz by done. by apply zeroed_in.
  - left. assert (j = 0%nat) as -> by lia. destruct (load_refused p root s1 q l G G2 s2) as (s' & E' & Hrf); try done.
    { intros va Hva. rewrite Hlk by done. apply VmTable.mapped_0. }
    exists s'. split; [exact E'|]. split; [|cbn; lia]. destruct Hrf as [Hqq Htt Hll Hff]. split; [by etrans|done| |].
    + intros va Hva. by rewrite Hll, Hlk1.
    + intros x Hx. rewrite Hff by done. by apply (zeroed_frame root s q l G).
Qed.

(** ** Reading the file into the page *)

(** The file behind the area: its inode is in the table, unlocked and loaded. *)
Record file_behind (p : nat) (LS : Z) (sb : superblock) (R : gmap Z Z) (V : gmap Z (list Z)) (s : kstate) (a : vm_area) (ip : nat) (i : inode) : Prop := {
  fb_area : exists f, va_fptr a = Some f /\ f_ip (k_files s !!! f) = Some ip;
  fb_read : readable p LS sb R s ip V i;
  fb_ip : (ip < length (k_inodes s))%nat;
  fb_ref : 1 <= i_ref i;
  fb_free : sl_locked (i_lock i) = 0;
  fb_valid : i_valid i <> 0
}.

Definition file_of (V : gmap Z (list Z)) (i : inode) : list Z := content V (i_addrs i) (i_size i).

Lemma page_byte_in c off j : (Z.to_nat (off + j) < length c)%nat -> page_byte c off j = c !!! Z.to_nat (off + j).
Proof. intros H. unfold page_byte. by rewrite (list_lookup_lookup_total_lt _ _ H). Qed.

Lemma page_byte_out c off j : (length c <= Z.to_nat (off + j))%nat -> page_byte c off j = 0.
Proof. intros H. unfold page_byte. by rewrite lookup_ge_None_2. Qed.

Lemma load_read p LS sb R V s a ip i q off :
  file_behind p LS sb R V s a ip i -> page_ok q -> 0 <= off < i_size i -> (forall x, q <= x < q + PGSIZE -> k_mem s x = 0) ->
  exists n s1, readi ip 0 q off PGSIZE (k_set_inodes (<[ip := i_set_lock (mkSl 1 (p_pid (k_procs s !!! p))) i]> (k_inodes s)) s) = Ok n s1 /\ 0 < n /\
    rd p s1 R V /\ rd_step p (k_set_mem (k_mem s1) (k_set_inodes (<[ip := i_set_lock (mkSl 1 (p_pid (k_procs s !!! p))) i]> (k_inodes s)) s)) s1 /\
    (forall j, 0 <= j < PGSIZE -> k_mem s1 (q + j) = page_byte (file_of V i) off j) /\
    forall x, x < q \/ q + PGSIZE <= x -> k_mem s1 x = k_mem s x.
Proof.
  intros [_ Hre Hip _ _ _] Hq Hoff Hz. pose proof Hre as [Hrd Hi Hd HV HF Hs Hb]. set (i2 := i_set_lock _ i). set (s0 := k_set_inodes _ s).
  assert (Hre0 : readable p LS sb R s0 ip V i2).
  { split; try done; [unfold s0; rewrite set_other_inodes; by apply rd_other|]. apply list_lookup_total_insert_eq. done. }
  assert (Hmf : MAXFILE * BSIZE = 274432) by reflexivity. pose proof (page_ok_nonzero q Hq). destruct Hq as [_ Hqr]. unfold PHYSTOP, KERNBASE, PGSIZE in *.
  destruct (readi_spec p LS sb R s0 ip 0 q off 4096 V i2 Hre0) as (s1 & E & S & Hrd1 & Hdv); try lia.
  { change (i_size i2) with (i_size i). lia. }
  { split; [split; [lia|]; unfold asked; change (i_size i2) with (i_size i); lia|intros j _; by eexists|done]. }
  set (n := asked i2 off 4096) in *. assert (Hn : n = Z.min 4096 (i_size i - off)) by reflexivity. change (content V (i_addrs i2) (i_size i2)) with (file_of V i) in Hdv.
  assert (Hlen : length (file_of V i) = Z.to_nat (i_size i)) by apply length_content.
  assert (Hlw : length (take (Z.to_nat 4096) (drop (Z.to_nat off) (file_of V i))) = Z.to_nat n) by (rewrite length_take, length_drop, Hlen; lia).
  exists n, s1. split; [done|]. split; [lia|]. split; [done|]. split; [done|]. split.
  - intros j Hj. destruct (decide (j < n)) as [Hlt|Hge].
    + rewrite (dv_in _ _ _ _ _ _ _ _ Hdv j (q + j)) by (done || lia). rewrite page_byte_in by lia. rewrite !list_lookup_total_alt. f_equal.
      rewrite lookup_take_lt, lookup_drop by lia. f_equal. lia.
    + rewrite (dv_frame _ _ _ _ _ _ _ _ Hdv) by (intros k Hk; cbn; intros [=]; lia). rewrite page_byte_out by lia. apply Hz. lia.
  - intros x Hx. apply (dv_frame _ _ _ _ _ _ _ _ Hdv). intros k Hk. cbn. intros [=]. lia.
Qed.

(** The second half of load_page(). *)
Definition locked_ip (p ip : nat) (i : inode) (s : kstate) : kstate :=
  k_set_inodes (<[ip := i_set_lock (mkSl 1 (p_pid (k_procs s !!! p))) i]> (k_inodes s)) s.

Lemma load_chunk p LS sb R V s a ip i q off :
  file_behind p LS sb R V s a ip i -> page_ok q -> 0 <= off -> (forall x, q <= x < q + PGSIZE -> k_mem s x = 0) ->
  exists n s1, (if off <? i_size i then readi ip 0 q (u32 off) PGSIZE else ret 1) (locked_ip p ip i s) = Ok n s1 /\ n <> 0 /\
    rd p s1 R V /\ rd_step p (k_set_mem (k_mem s1) (locked_ip p ip i s)) s1 /\
    (forall j, 0 <= j < PGSIZE -> k_mem s1 (q + j) = page_byte (file_of V i) off j) /\
    forall x, x < q \/ q + PGSIZE <= x -> k_mem s1 x = k_mem s x.
Proof.
  intros Hfb Hq H0 Hz. pose proof (re_size _ _ _ _ _ _ _ _ (fb_read _ _ _ _ _ _ _ _ _ Hfb)) as Hs.
  assert (Hmf : MAXFILE * BSIZE = 274432) by reflexivity. destruct (Z.ltb_spec off (i_size i)) as [Hlt|Hge].
  - rewrite u32_small by lia. destruct (load_read p LS sb R V s a ip i q off) as (n & s1 & E & Hn & H); try done.
    exists n, s1. split; [exact E|]. split; [lia|exact H].
  - exists 1, (locked_ip p ip i s). split; [done|]. split; [done|].
    split; [unfold locked_ip; rewrite set_other_inodes; apply rd_other, Hfb|]. split; [by destruct s|]. split; [|done].
    intros j Hj. change (k_mem (locked_ip _ _ _ ?s)) with (k_mem s). rewrite Hz by lia. symmetry. apply page_byte_out.
    unfold file_of. rewrite length_content. lia.
Qed.

Lemma fill_spec p LS sb R V s a ip i root pgaddr q :
  file_behind p LS sb R V s a ip i -> page_ok q -> (forall x, q <= x < q + PGSIZE -> k_mem s x = 0) ->
  exists s', fill a root pgaddr q s = Ok 0 s' /\ rd p s' R V /\
    k_inodes s' = <[ip := i_set_lock (mkSl 0 0) i]> (k_inodes s) /\ k_freelist s' = k_freelist s /\
    (forall j, 0 <= j < PGSIZE -> k_mem s' (q + j) = page_byte (file_of V i) (u64 (pgaddr - va_start_addr a)) j) /\
    forall x, x < q \/ q + PGSIZE <= x -> k_mem s' x = k_mem s x.
Proof.
  intros Hfb Hq Hz. pose proof Hfb as [(f & Ef & Eip) [Hrd Hi _ _ _ _ _] Hip Href Hfree Hval].
  unfold fill. rewrite Ef. unfold deref, file_at, inode_at. mred. rewrite Eip.
  mrun (ilock_cached p s ip i (rd_running _ _ _ _ Hrd) Hip Hi Href Hfree Hval). fold (locked_ip p ip i s).
  change (k_inodes (locked_ip p ip i s)) with (<[ip := i_set_lock (mkSl 1 (p_pid (k_procs s !!! p))) i]> (k_inodes s)).
  rewrite list_lookup_total_insert_eq by done. change (i_size (i_set_lock _ i)) with (i_size i).
  destruct (load_chunk p LS sb R V s a ip i q (u64 (pgaddr - va_start_addr a)) Hfb Hq) as (n & s1 & E & Hn & Hrd1 & [S _] & Hb & Hfr); [apply u64_range|done|].
  mrun E. rewrite (proj2 (Z.eqb_neq _ _) Hn).
  assert (Ei : k_inodes s1 = <[ip := i_set_lock (mkSl 1 (p_pid (k_procs s !!! p))) i]> (k_inodes s)) by apply (ts_inodes _ _ _ S).
  assert (Ep : k_procs s1 !!! p = k_procs s !!! p) by (rewrite !list_lookup_total_alt; f_equal; apply S).
  set (i2 := i_set_lock (mkSl 1 (p_pid (k_procs s !!! p))) i) in *.
  mrun (iunlock_held p s1 ip i2 (rd_running _ _ _ _ Hrd1) ltac:(by rewrite Ei, length_insert) ltac:(rewrite Ei; by apply list_lookup_total_insert_eq) Href
    ltac:(by rewrite Ep)).
  eexists. split; [reflexivity|]. split; [|split; [|split; [|done]]].
  - apply rd_procs; [rewrite set_other_inodes; by apply rd_other|apply woken_by_rel].
  - cbn [k_inodes k_set_procs k_set_inodes]. rewrite Ei, list_insert_insert_eq. done.
  - destruct S as [-> _ _]. done.
Qed.

(** ** The handler *)

(** The search of mmap_load_instr() for the area of a page. *)
Definition covers (pgaddr : Z) (a : vm_area) : bool :=
  negb (va_length a =? 0) && (va_start_addr a <=? pgaddr) && (pgaddr <? u64 (va_start_addr a + va_length a)).

(** A load or store fault at [va], inside the valid part of area [a], that the
    area's protection allows. *)
Record file_fault (p : nat) (s : kstate) (va : Z) (slot : nat) (a : vm_area) : Prop := {
  ff_cause : r_scause (k_csr s) = 0xd \/ (r_scause (k_csr s) = 0xf /\ bit_set (va_prot a) PROT_WRITE = true);
  ff_va : r_stval (k_csr s) = va;
  ff_slot : find_area (covers (PGROUNDDOWN va)) (seq 0 NVMA) (p_vm_areas (k_procs s !!! p)) = Some slot;
  ff_area : p_vm_areas (k_procs s !!! p) !!! slot = a;
  ff_start : 0 <= va_start_addr a;
  ff_valid : va_valid_start a <= va < va_valid_end a
}.

(** After the checks the handler is load_page(). *)
Lemma fault_checks p s va slot a : running p s -> file_fault p s va slot a ->
  mmap_load_instr s = load_page p a (p_pagetable (k_procs s !!! p)) (PGROUNDDOWN va) s.
Proof.
  intros Hr [Hc Hva Hsl Ha _ [Hv1 Hv2]]. unfold mmap_load_instr, proc_at, area_at. change (gets k_csr) with (gets (fun s : kstate => k_csr s)). mred.
  assert (negb (r_scause (k_csr s) =? 0xd) && negb (r_scause (k_csr s) =? 0xf) = false) as -> by lia.
  mrun (curproc_eq p s Hr). rewrite Hva. fold (covers (PGROUNDDOWN va)). rewrite Hsl. mred. rewrite Ha.
  rewrite (proj2 (Z.ltb_ge _ _)), (proj2 (Z.leb_gt _ _)) by lia. cbn [orb].
  destruct Hc as [->|(-> & ->)]; [|done]. rewrite andb_false_r. done.
Qed.

Lemma file_behind_quiet p LS sb R V s s' a ip i : quiet s s' -> file_behind p LS sb R V s a ip i -> file_behind p LS sb R V s' a ip i.
Proof.
  intros Hq [Ha [Hrd Hi Hd Hf Hfi Hs Hb] Hip Href Hfr Hv]. pose proof (rd_quiet p s s' R V Hq Hrd). rewrite Hq in *. by split.
Qed.

Lemma user_leaf q a : page_ok q ->
  PTE2PA (leaf_pte q (area_perm a)) = q /\ bit_set (leaf_pte q (area_perm a)) PTE_V = true /\ bit_set (leaf_pte q (area_perm a)) PTE_U = true.
Proof.
  intros Hq. unfold leaf_pte. rewrite <- Z.lor_assoc. destruct (pte_page q (Z.lor (area_perm a) PTE_V) Hq) as (E1 & E2 & E3).
  { unfold area_perm. destruct (bit_set _ PROT_READ), (bit_set _ PROT_WRITE); by vm_compute. }
  split; [done|]. rewrite E3. split.
  - unfold area_perm. destruct (bit_set _ PROT_READ), (bit_set _ PROT_WRITE); reflexivity.
  - unfold bit_set. change (Z.land ?x PTE_U) with (Z.land x (Z.land 1023 PTE_U)). rewrite Z.land_assoc. fold (PTE_FLAGS (Z.lor (PA2PTE q) (Z.lor (area_perm a) PTE_V))). rewrite E2.
    unfold area_perm. destruct (bit_set _ PROT_READ), (bit_set _ PROT_WRITE); reflexivity.
Qed.

(** The process' view of a page that was mapped and filled. *)
Lemma backed_byte root s l G pgaddr a q s' l' G' j : backed root s l G pgaddr (area_perm a) q s' l' G' ->
  pgaddr mod PGSIZE = 0 -> 0 <= pgaddr -> pgaddr + PGSIZE <= MAXVA -> 0 <= j < PGSIZE ->
  ubyte (k_mem s') root (pgaddr + j) = Some (k_mem s' (q + j)).
Proof.
  intros [_ (Hq & _) Hlk _] Hal H0 Hmax Hj. destruct (user_leaf q a Hq) as (E1 & E2 & E3). pose proof (page_ok_nonzero q Hq).
  unfold ubyte, upage. rewrite (proj2 (Z.leb_gt _ _)), Hlk by lia.
  assert ((pgaddr + j) / PGSIZE = pgaddr / PGSIZE /\ (pgaddr + j) mod PGSIZE = j) as (-> & ->) by (unfold PGSIZE in *; Z.div_mod_to_equations; lia).
  rewrite Z.eqb_refl, E2, E3, E1. cbn [andb]. rewrite (proj2 (Z.eqb_neq _ _)) by lia. done.
Qed.

(** The handler's success: the page shows the file. *)
Record shown (p : nat) (R : gmap Z Z) (V : gmap Z (list Z)) (root : Z) (s : kstate) (l : list Z) (G : gmap Z (nat * Z)) (pgaddr : Z)
    (a : vm_area) (ip : nat) (i : inode) (s' : kstate) : Prop := {
  sh_backed : exists q l' G', backed root s l G pgaddr (area_perm a) q s' l' G';
  sh_bytes j : 0 <= j < PGSIZE -> ubyte (k_mem s') root (pgaddr + j) = Some (page_byte (file_of V i) (pgaddr - va_start_addr a) j);
  sh_inodes : k_inodes s' = <[ip := i_set_lock (mkSl 0 0) i]> (k_inodes s);
  sh_rd : rd p s' R V
}.

Lemma page_byte_ok p s R V i off j : rd p s R V -> is_byte (page_byte (file_of V i) off j).
Proof.
  intros [_ _ _ Hd]. assert (H0 : is_byte 0) by (unfold is_byte; lia). unfold page_byte, file_of, content.
  destruct (_ !! _) as [b|] eqn:E; [cbn|done]. apply list_lookup_fmap_Some in E as (k & -> & _).
  unfold fbyte. rewrite lookup_total_gmap_alt || rewrite lookup_total_alt. destruct (V !! _) as [d|] eqn:Ed; cbn; [|done].
  destruct (Hd _ _ Ed) as [_ Hb]. rewrite list_lookup_total_alt. destruct (d !! _) as [b|] eqn:Eb; [|done]. by apply (Forall_lookup_1 _ _ _ _ Hb Eb).
Qed.

(** load_page() *)
Lemma load_page_spec p LS sb R V s l G root a ip i pgaddr :
  faulting p root s l G pgaddr -> file_behind p LS sb R V s a ip i -> 0 <= va_start_addr a <= pgaddr ->
  exists r s', load_page p a root pgaddr s = Ok r s' /\
    ((r = -1 /\ refused root s l G s' /\ (length l < 3)%nat) \/ (r = 0 /\ shown p R V root s l G pgaddr a ip i s')).
Proof.
  intros Hf Hb H0. pose proof Hf as [_ _ _ (Hal & Hp0 & Hmax) _].
  destruct (load_backed p root s l G a pgaddr Hf) as [(s' & E & H)|(q & s1 & l1 & G1 & E & Hq & Hbk & Hz)].
  { exists (-1), s'. split; [done|]. left. tauto. }
  pose proof Hbk as [Ht1 (Hqo & Hql & Hq1 & HqG) Hlk Hfr].
  destruct (fill_spec p LS sb R V s1 a ip i root pgaddr q (file_behind_quiet p _ _ _ _ _ _ _ _ _ Hq Hb) Hqo Hz) as (s' & E' & Hrd & Hi & Hfl & Hin & Hout).
  exists 0, s'. split; [by rewrite E|]. right. split; [done|].
  rewrite u64_small in Hin by (rewrite MAXVA_val in Hmax; unfold PGSIZE in *; lia).
  destruct (running_kmem p s' (rd_running _ _ _ _ Hrd)) as (Hs' & Hf').
  destruct (table_outside root s1 s' q l1 G1) as (Ht' & Hlk'); try done.
  { intros x Hx. replace x with (q + (x - q)) by lia. rewrite Hin by lia. by apply (page_byte_ok p s' R). }
  assert (Hbk' : backed root s l G pgaddr (area_perm a) q s' l1 G1).
  { split; [done|done|intros va Hva; by rewrite Hlk', Hlk|]. intros x Hx. rewrite Hout by (apply Hx; by left). by apply Hfr. }
  split; [by exists q, l1, G1| |rewrite Hi, Hq; done|done].
  intros j Hj. rewrite (backed_byte _ _ _ _ _ _ _ _ _ _ j Hbk') by done. by rewrite Hin.
Qed.

(** C3: mmap_load_instr() on a fault inside a mapped file, with the area's inode
    loaded and the page not yet mapped. It returns 0, and the process sees at
    every address of the page the byte of the file at that distance from the
    start of the area, or zero past the end of the file; the page has the
    permissions of the area, every other page of the address space maps as
    before, no memory outside the table's pages and one free page is written,
    and the inode is unlocked again. Otherwise it returns -1 with all mappings
    unchanged, and only when fewer than three pages are free. *)
Theorem mmap_fault_loads p LS sb R V s l G slot a ip i va :
  file_fault p s va slot a -> faulting p (p_pagetable (k_procs s !!! p)) s l G (PGROUNDDOWN va) -> file_behind p LS sb R V s a ip i ->
  exists r s', mmap_load_instr s = Ok r s' /\
    ((r = -1 /\ refused (p_pagetable (k_procs s !!! p)) s l G s' /\ (length l < 3)%nat) \/
     (r = 0 /\ shown p R V (p_pagetable (k_procs s !!! p)) s l G (PGROUNDDOWN va) a ip i s')).
Proof.
  intros Hff Hf Hb. rewrite (fault_checks p s va slot a (ft_run _ _ _ _ _ _ Hf) Hff).
  apply (load_page_spec p LS sb R V); [done|done|]. destruct Hff as [_ _ Hsl <- Hst _]. split; [done|].
  apply find_area_some in Hsl as [_ Hc]. unfold covers in Hc. lia.
Qed.

End Fault.

(** ** A process that maps the file "a" at 0x2000 *)

Module FaultExample.
Import FsExample RamDisk.
#[local] Existing Instance VmTable.Example.linker.

Definition area0 : vm_area := mkVma 0x2000 PGSIZE PROT_READ 0 (Some 0%nat) 0x2000 0x3000.

Definition mapping (pr : proc) : proc :=
  p_set_vm_areas (area0 :: replicate 15 vma_zero) (p_set_pagetable VmTable.Example.root pr).

(** The load at 0x2001 faults; the process has an empty page table. *)
Definition staged (s : kstate) : kstate :=
  let s := k_set_freelist (k_freelist VmTable.Example.empty) (k_set_mem (k_mem VmTable.Example.empty) s) in
  let s := k_set_panicked 0 (k_set_csr (r_set_stval 0x2001 (r_set_scause 0xd (k_csr s))) s) in
  k_set_procs (alter mapping 3%nat (k_procs s)) s.

Lemma staged_proc s : system s -> k_procs (staged s) !!! 3%nat = mapping (k_procs s !!! 3%nat).
Proof.
  intros Hs. pose proof (rd_running _ _ _ _ (system_rd s Hs)) as Hr. apply (lookup_total_alter mapping). rewrite (rn_procs _ _ Hr). apply Hr.
Qed.

Lemma staged_rd s : system s -> rd 3 (staged s) ∅ disk0.
Proof.
  intros Hs. destruct (system_rd s Hs) as [C ? ? ?]. split; try done. pose proof (staged_proc s Hs) as Ep.
  assert (Hr : running 3 (staged s)).
  { pose proof (ca_run _ _ _ _ _ C) as Hr. apply (running_alter 3 mapping (k_set_panicked 0 _)); [by destruct Hr|done..]. }
  destruct C as [_ ? ? ? ? ? ? ? Hl ? ? ?]. split; try done.
Qed.

Lemma staged_faulting s : system s -> faulting 3 VmTable.Example.root (staged s) (tail VmTable.Example.pages)
  {[VmTable.Example.root := (2%nat, 0)]} 0x2000.
Proof.
  intros Hs. pose proof (rd_running _ _ _ _ (staged_rd s Hs)) as Hr. destruct VmTable.Example.empty_table as [Ht H0].
  destruct (running_kmem 3 _ Hr) as (Hse & Hf). split; [done|done| |by vm_compute|].
  - by apply (table_ext _ VmTable.Example.empty).
  - intros va _. change (k_mem (staged s)) with (k_mem VmTable.Example.empty). by rewrite H0.
Qed.

Lemma staged_file s : system s -> file_behind 3 2 sb0 ∅ disk0 (staged s) area0 1 file_inode.
Proof.
  intros Hs. pose proof sound_file0 as [_ HV Hf Hsz Hb].
  assert (E : i_addrs (disk_inode sb0 disk0 2) = i_addrs file_inode /\ i_size (disk_inode sb0 disk0 2) = i_size file_inode) by by vm_compute.
  destruct E as [Ea Es]. rewrite Ea, ?Es in *.
  assert (Hi : k_inodes (staged s) = inodes0) by apply (sy_inodes _ Hs).
  split; [|split; [by apply staged_rd|by rewrite Hi|done|exact HV|exact Hf|exact Hsz|exact Hb]|rewrite Hi; apply Nat.ltb_lt; reflexivity|cbn; lia|done|done].
  exists 0%nat. split; [done|]. change (k_files (staged s)) with (k_files s). by rewrite (sy_files _ Hs).
Qed.

(** The program reads "ello" and zeros after it. *)
Lemma mmap_fault_loads_witness : exists s s', mmap_load_instr s = Ok 0 s' /\
  ubyte (k_mem s') VmTable.Example.root 0x2001 = Some 101 /\ ubyte (k_mem s') VmTable.Example.root 0x2005 = Some 0.
Proof.
  destruct small_system as (s & Hs). pose proof (staged_proc s Hs) as Ep.
  destruct (mmap_fault_loads (D := ram_disk) 3 2 sb0 ∅ disk0 (staged s) (tail VmTable.Example.pages) {[VmTable.Example.root := (2%nat, 0)]}
    0 area0 1 file_inode 0x2001) as (r & s' & E & H).
  - split; rewrite ?Ep; try reflexivity; [by left|done|done].
  - rewrite Ep. by apply staged_faulting.
  - by apply staged_file.
  - rewrite Ep in H. destruct H as [(_ & _ & Hl)|(-> & Hsh)]; [apply Nat.ltb_lt in Hl; vm_compute in Hl; done|].
    exists (staged s), s'. split; [exact E|]. pose proof (sh_bytes _ _ _ _ _ _ _ _ _ _ _ _ Hsh) as Hb. split.
    + etrans; [exact (Hb 1 ltac:(done))|]. by vm_compute.
    + etrans; [exact (Hb 5 ltac:(done))|]. by vm_compute.
Defined.

End FaultExample.
