(* ===== verification/MmapBack.v ===== *)
(** munmap() of a page of a shared mapping: sys_munmap() and write_back() of
    sysfile.c.

    The page goes back to the file: in one transaction write_back() finds the
    frame through the page table, writes it at the page's offset when it is
    dirty, and gives it to the allocator. The theorems compose the page table,
    the allocator, the inode lock, writei() and the log. *)

From S2P Require Import Prelude Riscv StringC State Spinlock Kalloc Vm VmTable VmCopy VmFork Sched Sleeplock Printf PrintfSpec Bio BioSpec Log LogSpec FsTx FsOp Fs FsBlock FsFile FsInode FsRw FsDisk FsExample FsTable Pipe File FileSpec Vma Proc Syscall Mmap MmapSpec MmapFault.

Section Back.
Context `{L : Linker} `{D : BlockDev}.

(** ** The page *)

(** [pgaddr] is mapped for the user by the entry [v], to a frame of its own. *)
Record user_page (root : Z) (s : kstate) (l : list Z) (G : gmap Z (nat * Z)) (pgaddr v : Z) : Prop := {
  up_table : table root s l G;
  up_addr : pgaddr mod PGSIZE = 0 /\ 0 <= pgaddr /\ pgaddr + PGSIZE <= MAXVA;
  up_entry : lookup_pte (k_mem s) root pgaddr = v;
  up_valid : bit_set v PTE_V = true;
  up_user : bit_set v PTE_U = true;
  up_frame : page_ok (PTE2PA v) /\ G !! PTE2PA v = None /\ PTE2PA v ∉ l
}.

(** The page was unmapped and its frame freed. *)
Record dropped (root : Z) (s : kstate) (l : list Z) (G : gmap Z (nat * Z)) (pgaddr v : Z) (s' : kstate) : Prop := {
  dr_table : table root s' (PTE2PA v :: l) G;
  dr_lookup va : 0 <= va < MAXVA -> lookup_pte (k_mem s') root va =
    if va / PGSIZE =? pgaddr / PGSIZE then 0 else lookup_pte (k_mem s) root va;
  dr_frame x : elsewhere [PTE2PA v] G x -> k_mem s' x = k_mem s x
}.

Lemma user_flags v : bit_set v PTE_U = true -> PTE_FLAGS v <> PTE_V.
Proof.
  unfold bit_set, PTE_FLAGS. intros H E. change PTE_U with (Z.land 0x3ff PTE_U) in H. by rewrite Z.land_assoc, E in H.
Qed.

Lemma one_page_range pgaddr va : pgaddr mod PGSIZE = 0 -> in_range pgaddr (Z.of_nat 1 * PGSIZE) va = (va / PGSIZE =? pgaddr / PGSIZE).
Proof.
  intros H. apply eq_true_iff_eq. rewrite in_range_true, Z.eqb_eq. unfold PGSIZE in *. Z.div_mod_to_equations. lia.
Qed.

Lemma drop_page root s l G pgaddr v : user_page root s l G pgaddr v ->
  exists s', uvmunmap root pgaddr 1 true s = Ok tt s' /\ mem_only s s' /\ dropped root s l G pgaddr v s'.
Proof.
  intros [Ht (Hal & H0 & Hmax) Ev Hv Hu Hf].
  assert (E0 : forall k, (k < 1)%nat -> lookup_pte (k_mem s) root (pgaddr + Z.of_nat k * PGSIZE) = v).
  { intros k Hk. assert (k = 0%nat) as -> by lia. by rewrite Z.add_0_r. }
  destruct (uvmunmap_ok root pgaddr 1 true s l G Ht Hal H0 ltac:(done) ltac:(lia)) as (s' & E & Ho & Ht' & Hlk & Hfr).
  { split; [intros k Hk|intros _ k Hk|lia]; cbv zeta; rewrite E0 by done; [split; [done|by apply user_flags]|done]. }
  assert (Epg : unmapped_pages root s pgaddr 1 = [PTE2PA v]).
  { unfold unmapped_pages. cbn [seq fmap list_fmap]. by rewrite E0 by lia. }
  change (Z.to_nat 1) with 1%nat in *. unfold freed in Ht'. rewrite Epg in *.
  exists s'. split; [done|]. split; [done|]. split; [exact Ht'| |].
  - intros va Hva. rewrite Hlk by done. unfold unmapped. by rewrite one_page_range.
  - intros x Hx. apply Hfr; [intros pg y Hy; apply Hx; right; by eexists|]. intros _ pg Hpg. apply Hx. by left.
Qed.

(** walkaddr() and walk() of write_back(). *)
Lemma user_page_walk root s l G pgaddr v : user_page root s l G pgaddr v ->
  walkaddr root pgaddr s = Ok (PTE2PA v) s /\ PTE2PA v <> 0 /\
  exists a, walk root pgaddr false s = Ok a s /\ load64 (k_mem s) a = v.
Proof.
  intros [_ (_ & _ & Hmax) Ev Hv Hu (Hq & _)]. assert (Hlt : pgaddr < MAXVA) by (unfold PGSIZE in *; lia). split; [|split].
  - rewrite walkaddr_eq. unfold upage. by rewrite (proj2 (Z.leb_gt _ _)), Ev, Hv, Hu.
  - apply (page_ok_nonzero _ Hq).
  - eexists. split; [by apply walk_lookup|]. unfold lookup_pte in Ev. destruct (_ =? 0); [|done]. by rewrite <- Ev, bit_set_0 in Hv.
Qed.

Lemma user_page_same root s s' l G pgaddr v : k_mem s' = k_mem s -> k_freelist s' = k_freelist s -> settled s' -> lock_free LK_kmem s' ->
  user_page root s l G pgaddr v -> user_page root s' l G pgaddr v.
Proof. intros Em Ef Hs Hl [Ht ? ? ? ? ?]. split; try done; [by apply (table_ext root s)|by rewrite Em]. Qed.

(** ** What is written *)

(** The bytes write_back() gives writei(): from the frame to the end of the
    file, when the page is dirty and the file reaches it. *)
Definition saved (m : mem) (v off size : Z) : list Z :=
  if bit_set (PTE_FLAGS v) PTE_D && (off <? size) then mem_read m (PTE2PA v) (Z.to_nat (size - off)) else [].

(** The loop of write_back() over one page. *)
Lemma write_back_one root ip pgaddr off s o s' : 0 <= pgaddr -> pgaddr + PGSIZE <= MAXVA ->
  write_back_page root ip pgaddr off s = Ok o s' -> write_back_loop 2 root ip pgaddr (u64 (pgaddr + PGSIZE)) off s = Ok tt s'.
Proof.
  intros H0 Hmax E. rewrite MAXVA_val in Hmax. rewrite u64_small by (unfold PGSIZE in *; lia).
  cbn [write_back_loop]. rewrite (proj2 (Z.ltb_lt _ _)) by (unfold PGSIZE; lia). mrun E.
  rewrite u64_small by (unfold PGSIZE in *; lia). by rewrite Z.ltb_irrefl.
Qed.

(** write_back() begins its transaction and locks the inode. *)
Lemma write_back_enter p LS sb root s f ip i addr len off :
  at_rest p LS sb s -> cached LS sb s ip i -> f_ip (k_files s !!! f) = Some ip -> off mod PGSIZE = 0 ->
  write_back root f addr len off s =
    (write_back_loop (Z.to_nat (len / PGSIZE + 1)) root ip addr (u64 (addr + len)) off;; iunlock (Some ip);; end_op)
      (entered s ip (i_set_lock (mkSl 1 (p_pid (k_procs s !!! p))) i)).
Proof.
  intros [Hid _] [Hip Hi _ Href Hfree Hval _ _ _] Hf Hoff. unfold write_back, file_at. mred.
  destruct (begin_op_spec p LS s Hid) as [E1 T1]. mrun E1. rewrite Hf. set (s0 := k_set_log _ s) in *.
  mrun (ilock_cached p s0 ip i (tx_running _ _ _ _ _ _ T1) Hip Hi Href Hfree Hval). cbn [deref]. mred. by rewrite Hoff.
Qed.

Lemma write_back_eq p LS sb root s f ip i pgaddr off o s1 s2 s' :
  at_rest p LS sb s -> cached LS sb s ip i -> f_ip (k_files s !!! f) = Some ip -> off mod PGSIZE = 0 ->
  0 <= pgaddr -> pgaddr + PGSIZE <= MAXVA ->
  write_back_page root ip pgaddr off (entered s ip (i_set_lock (mkSl 1 (p_pid (k_procs s !!! p))) i)) = Ok o s1 ->
  iunlock (Some ip) s1 = Ok tt s2 -> end_op s2 = Ok tt s' -> write_back root f pgaddr PGSIZE off s = Ok tt s'.
Proof.
  intros Hrest Hc Hf Hoff H0 Hmax E Eu Ee. rewrite (write_back_enter p LS sb root s f ip i pgaddr PGSIZE off Hrest Hc Hf Hoff).
  change (Z.to_nat (PGSIZE / PGSIZE + 1)) with 2%nat. mrun (write_back_one root ip pgaddr off _ o s1 H0 Hmax E). mrun Eu. exact Ee.
Qed.

(** write_back_page() of a mapped page, once writei() is done. *)
Lemma write_back_page_eq root s l G pgaddr v ip i off s1 s2 :
  user_page root s l G pgaddr v -> k_inodes s !!! ip = i ->
  (when bit_set (PTE_FLAGS v) PTE_D && (off <? i_size i) do
     (let nbyte := u32 (i_size i - off) in
      r <- writei ip 0 (PTE2PA v) (u32 off) nbyte;;
      when negb (u32 r =? nbyte) do panic "write_back: writei fail")) s = Ok tt s1 ->
  uvmunmap root pgaddr 1 true s1 = Ok tt s2 -> write_back_page root ip pgaddr off s = Ok (u64 (off + PGSIZE)) s2.
Proof.
  intros Hp Hi E Eu. destruct (user_page_walk _ _ _ _ _ _ Hp) as (Ew & Hn & a & Ea & El).
  unfold write_back_page, kload64, inode_at. mrun Ew. rewrite (proj2 (Z.eqb_neq _ _) Hn). cbn [negb]. mrun Ea. mred.
  rewrite El, Hi. mrun E. by mrun Eu.
Qed.

(** ** The transaction *)

(** write_back() of the page is done: [w] is in the file at [off], on the disk,
    and the page is gone. *)
Record synced (p : nat) (LS : Z) (sb : superblock) (root : Z) (s : kstate) (l : list Z) (G : gmap Z (nat * Z)) (pgaddr v : Z)
    (ip : nat) (i : inode) (off : Z) (w : list Z) (s' : kstate) (i' : inode) (ws : list (Z * list Z)) : Prop := {
  sn_rest : at_rest p LS sb s';
  sn_cached : cached LS sb s' ip i';
  sn_inum : i_inum i' = i_inum i;
  sn_size : i_size i' = i_size i;
  sn_inodes : k_inodes s' = <[ip := i']> (k_inodes s);
  sn_files : k_files s' = k_files s;
  sn_proc : k_procs s' !!! p = k_procs s !!! p;
  sn_dropped : dropped root s l G pgaddr v s';
  sn_writes : k_writes s' = rev ws ++ k_writes s;
  sn_disk : rewritten sb (i_inum i) (Z.to_nat off) w (disk s) (disk s');
  sn_crash : recovers LS (disk s) ws (all_or_nothing sb (i_inum i) off w (disk s))
}.

(** A transaction on a file that writes nothing: iunlock() and end_op(). *)
Lemma clean_close p LS sb s ip i fs fl m :
  at_rest p LS sb s -> cached LS sb s ip i ->
  let u := aside fs fl m (entered s ip (i_set_lock (mkSl 1 (p_pid (k_procs s !!! p))) i)) in
  exists s2 s' i', iunlock (Some ip) u = Ok tt s2 /\ end_op s2 = Ok tt s' /\
    closed p LS sb ip (rewritten sb (i_inum i) 0 [] (disk s)) 0 [] s i u s' i' [].
Proof.
  intros Hrest Hc u. pose proof Hc as [Hip Hi Hdev Href Hfree Hval Hty Hdk Hso]. pose proof (ar_idle _ _ _ _ Hrest) as Hid.
  set (lk := mkSl 1 (p_pid (k_procs s !!! p))) in *. pose proof (entered_open p LS sb s ip i lk Hrest Hc) as [Hat _ _ _ _ _ _ _].
  pose proof (tx_aside p LS fs fl m _ _ _ _ (af_tx _ _ _ _ _ _ _ _ Hat)) as Tu. fold u in Tu.
  pose proof (iunlock_held p u ip (i_set_lock lk i) (tx_running _ _ _ _ _ _ Tu) ltac:(cbn; by rewrite length_insert)
    ltac:(by apply list_lookup_total_insert_eq) Href ltac:(done)) as El.
  set (i' := i_set_lock (mkSl 0 0) (i_set_lock lk i)) in *. set (s2 := k_set_procs _ _) in El.
  destruct (end_op_empty p LS s2 (disk s)) as (s' & E & F & Hid' & Hw & Hd);
    [apply tx_procs; [by apply tx_inodes|apply woken_by_rel]|done|apply Hid..|]. change (disk s2) with (disk s) in Hd.
  assert (Ein : k_inodes s' = <[ip := i']> (k_inodes s)).
  { rewrite (os_inodes _ _ _ F). cbn. by rewrite list_insert_insert_eq. }
  exists s2, s', i'. split; [exact El|]. split; [done|]. split; try done.
  - split; [done|]. rewrite (os_sb _ _ _ F). apply Hrest.
  - split; rewrite ?Ein, ?Hd; try done; [by rewrite length_insert|by apply list_lookup_total_insert_eq|by destruct Hty|].
    change (dinode ?d ?b ?n i') with (i_set_lock (mkSl 0 0) (i_set_lock lk (dinode d b n i))).
    change (i_inum i') with (i_inum i). by rewrite Hdk.
  - cbn. destruct Hty. lia.
  - exact (os_files _ _ _ F).
  - exact (os_mem _ _ _ F).
  - by rewrite (os_eq _ _ _ F).
  - rewrite (os_proc _ _ _ F). unfold s2. cbn [k_procs k_set_procs]. destruct (woken_by_rel p (CH_sleeplock (SL_inode ip)) (k_procs u)) as [_ Ew].
    by rewrite list_lookup_total_alt, Ew, <- list_lookup_total_alt.
  - exact (os_blocks _ _ _ F).
  - rewrite Hd. apply rewritten_refl.
  - apply recovers_nil; [apply (lo_range _ _ _ (id_log _ _ _ Hid))|apply Hid|apply Hid|]. intros d HA.
    apply (rewritten_agree LS sb _ _ _ _ (disk s)); [apply Hc|done|apply rewritten_refl].
Qed.

Lemma rewritten_none sb inum o o' d d' : rewritten sb inum o [] d d' -> rewritten sb inum o' [] d d'.
Proof. intros [Hd ? ?]. split; try done. by rewrite overwrite_nil in *. Qed.

Section Transaction.
Context (p : nat) (LS : Z) (sb : superblock) (root : Z) (s : kstate) (l : list Z) (G : gmap Z (nat * Z)) (pgaddr v : Z).
Context (f ip : nat) (i : inode) (off : Z).
Context (Hrest : at_rest p LS sb s) (Hc : cached LS sb s ip i) (Hf : f_ip (k_files s !!! f) = Some ip).
Context (Hp : user_page root s l G pgaddr v) (Hal : off mod PGSIZE = 0) (H0 : 0 <= off).
Let i2 := i_set_lock (mkSl 1 (p_pid (k_procs s !!! p))) i.

Lemma entered_page : user_page root (entered s ip i2) l G pgaddr v.
Proof.
  pose proof (tb_vm _ _ _ _ (up_table _ _ _ _ _ _ Hp)) as [Hs Hl _]. by apply (user_page_same root s).
Qed.

(** The page dropped in state [s3] of the transaction, and the transaction closed. *)
Lemma closed_synced s3 u P o w s' i' ws : k_mem s3 = k_mem s -> k_files u = k_files s -> dropped root s3 l G pgaddr v u ->
  closed p LS sb ip P o w s i u s' i' ws -> o + Z.of_nat (length w) <= i_size i ->
  rewritten sb (i_inum i) (Z.to_nat off) w (disk s) (disk s') -> (forall d, P d -> all_or_nothing sb (i_inum i) off w (disk s) d) ->
  synced p LS sb root s l G pgaddr v ip i off w s' i' ws.
Proof.
  intros E3 Ef [Ht Hlk Hfr] [R C N Sz F I M FL Q W B Dk X] Hle Hrw HP.
  destruct (running_kmem p s' (ca_run _ _ _ _ _ (id_cache _ _ _ (ar_idle _ _ _ _ R)))). split; try done.
  - lia.
  - by rewrite F.
  - split; [by apply (table_ext root u)|intros va Hva; rewrite M, <- E3; by apply Hlk|intros x Hx; rewrite M, <- E3; by apply Hfr].
  - by apply (recovers_mono _ _ _ P).
Qed.

(** A clean page, or one past the end of the file. *)
Lemma sync_clean : bit_set (PTE_FLAGS v) PTE_D && (off <? i_size i) = false ->
  exists s' i', write_back root f pgaddr PGSIZE off s = Ok tt s' /\ synced p LS sb root s l G pgaddr v ip i off [] s' i' [].
Proof.
  intros Hno. pose proof (up_addr _ _ _ _ _ _ Hp) as (_ & Ha0 & Hmax).
  destruct (drop_page _ _ _ _ _ _ entered_page) as (u & Eu & Ho & Hdr).
  assert (Eb : write_back_page root ip pgaddr off (entered s ip i2) = Ok (u64 (off + PGSIZE)) u).
  { apply (write_back_page_eq root _ l G pgaddr v ip i2 off (entered s ip i2)); [apply entered_page| | |done].
    - apply list_lookup_total_insert_eq, Hc.
    - change (i_size i2) with (i_size i). by rewrite Hno. }
  assert (Eas : u = aside (k_files s) (k_freelist u) (k_mem u) (entered s ip i2)) by (rewrite Ho; by destruct s).
  destruct (clean_close p LS sb s ip i (k_files s) (k_freelist u) (k_mem u) Hrest Hc) as (s2 & s' & i' & El & E & Hcl).
  fold i2 in El, Hcl. rewrite <- Eas in El, Hcl. exists s', i'. split; [by apply (write_back_eq p LS sb root s f ip i pgaddr off (u64 (off + PGSIZE)) u s2 s')|].
  apply (closed_synced (entered s ip i2) u (rewritten sb (i_inum i) 0 [] (disk s)) 0); try done.
  - by rewrite Eas.
  - cbn. apply (it_size _ (cd_typed _ _ _ _ _ Hc)).
  - apply (rewritten_none sb _ 0), Hcl.
  - intros d Hd. left. by apply (rewritten_none sb _ 0).
Qed.

(** A dirty page: writei() writes it. *)
Lemma sync_dirty : bit_set (PTE_FLAGS v) PTE_D && (off <? i_size i) = true -> sb_size sb <= BPB -> (i_size i - off) / BSIZE <= 19 ->
  exists s' i' ws, write_back root f pgaddr PGSIZE off s = Ok tt s' /\
    synced p LS sb root s l G pgaddr v ip i off (mem_read (k_mem s) (PTE2PA v) (Z.to_nat (i_size i - off))) s' i' ws.
Proof.
  intros Hd Hone Hroom. pose proof (up_addr _ _ _ _ _ _ Hp) as (_ & Ha0 & Hmax). pose proof Hd as [_ Hlt%Z.ltb_lt]%andb_prop.
  pose proof (so_size _ _ _ _ (cd_sound _ _ _ _ _ Hc)) as Hsz. rewrite (proj2 (disk_inode_of _ _ _ _ (cd_disk _ _ _ _ _ Hc))) in Hsz.
  assert (Hmf : MAXFILE * BSIZE = 274432) by reflexivity.
  set (W := mem_read (k_mem s) (PTE2PA v) (Z.to_nat (i_size i - off))).
  assert (HlW : Z.of_nat (length W) = i_size i - off) by (unfold W, mem_read; rewrite length_map, length_seq; lia).
  destruct (page_ok_nonzero _ (proj1 (up_frame _ _ _ _ _ _ Hp))) as (_ & Hq0 & Hq).
  destruct (writei_spec p LS sb (entered s ip i2) ip [] (disk s) i2 0 (PTE2PA v) W off) as (n & s3 & bl & V & i3 & E3 & Hn & Hfull & W3).
  { by apply entered_open. } { done. }
  { split; [lia|]. change (c_true 0) with false. cbv iota. unfold W at 2. rewrite HlW. split; [|lia].
    change (k_mem (entered s ip i2)) with (k_mem s). f_equal. unfold W, mem_read. by rewrite length_map, length_seq. }
  { apply Forall_forall. intros b Hb. unfold W, mem_read in Hb. apply list_elem_of_fmap in Hb as (k & -> & _).
    apply (kmem_bytes _ _ (vm_kmem _ _ (tb_vm _ _ _ _ (up_table _ _ _ _ _ _ Hp)))). }
  { change (i_size i2) with (i_size i). lia. } { lia. } { rewrite HlW. exact Hroom. }
  rewrite HlW in *. assert (n = i_size i - off) as ->.
  { destruct (decide (n = i_size i - off)); [done|]. destruct (Hfull ltac:(lia)) as [Hx _]. change (i_size i2) with (i_size i) in Hx. lia. }
  rewrite take_ge in W3 by lia. pose proof (wn_state _ _ _ _ _ _ _ _ _ _ _ _ _ W3) as S3.
  destruct (running_kmem p s3 (tx_running _ _ _ _ _ _ (af_tx _ _ _ _ _ _ _ _ (of_at _ _ _ _ _ _ _ _ (wn_open _ _ _ _ _ _ _ _ _ _ _ _ _ W3))))) as [Hs3 Hl3].
  assert (Hp3 : user_page root s3 l G pgaddr v).
  { apply (user_page_same root s); try done; [exact (ts_mem _ _ _ S3)|]. destruct S3 as [-> _ _]. done. }
  destruct (drop_page _ _ _ _ _ _ Hp3) as (u & Eu & Ho & Hdr).
  assert (Ef : k_files s3 = k_files s) by by destruct S3 as [-> _ _].
  assert (Eb : write_back_page root ip pgaddr off (entered s ip i2) = Ok (u64 (off + PGSIZE)) u).
  { apply (write_back_page_eq root _ l G pgaddr v ip i2 off s3); [apply entered_page|apply list_lookup_total_insert_eq, Hc| |done].
    change (i_size i2) with (i_size i). rewrite Hd. cbv zeta. rewrite !u32_small by lia. mrun E3.
    rewrite u32_small, Z.eqb_refl by lia. done. }
  assert (Eas : u = aside (k_files s) (k_freelist u) (k_mem u) s3) by (rewrite <- Ef; rewrite Ho; by destruct s3).
  pose proof (chunk_unlock p LS sb s ip i off W i3 s3 bl V (k_files s) (k_freelist u) (k_mem u) Hc W3) as El.
  destruct (chunk_commit p LS sb s ip i off W i3 s3 bl V (k_files s) (k_freelist u) (k_mem u) Hrest Hc W3) as (s' & ws & E & _ & Hcl).
  rewrite <- Eas in El, Hcl. eexists s', _, ws. split; [by eapply (write_back_eq p LS sb root s f ip i pgaddr off (u64 (off + PGSIZE)) u _ s')|].
  apply (closed_synced s3 u _ off W s' _ ws (ts_mem _ _ _ S3)) in Hcl; try done.
  - by rewrite Eas.
  - lia.
  - apply Hcl.
Qed.

Lemma write_back_syncs : sb_size sb <= BPB -> (i_size i - off) / BSIZE <= 19 ->
  exists s' i' ws, write_back root f pgaddr PGSIZE off s = Ok tt s' /\
    synced p LS sb root s l G pgaddr v ip i off (saved (k_mem s) v off (i_size i)) s' i' ws.
Proof.
  intros Hone Hroom. unfold saved. destruct (_ && _) eqn:Hd; [by apply sync_dirty|].
  destruct (sync_clean Hd) as (s' & i' & H). by exists s', i', [].
Qed.

End Transaction.

(** ** The area of the page *)

Definition set_area (p slot : nat) (a : vm_area) (s : kstate) : kstate :=
  k_set_procs (alter (fun pr => p_set_vm_areas (<[slot := a]> (p_vm_areas pr)) pr) p (k_procs s)) s.

Lemma upd_area_eq p slot g s : (slot < length (p_vm_areas (k_procs s !!! p)))%nat ->
  upd_area p slot g s = Ok tt (set_area p slot (g (p_vm_areas (k_procs s !!! p) !!! slot)) s).
Proof.
  intros Hs. unfold upd_area, upd_proc, modify, set_area. do 2 f_equal. apply alter_ext. intros pr Hpr%list_lookup_total_correct.
  subst pr. by rewrite alter_as_insert.
Qed.

Lemma set_area_proc p slot a s : running p s ->
  k_procs (set_area p slot a s) !!! p = p_set_vm_areas (<[slot := a]> (p_vm_areas (k_procs s !!! p))) (k_procs s !!! p).
Proof.
  intros Hr. unfold set_area. cbn [k_procs k_set_procs]. apply (lookup_total_alter (fun pr => p_set_vm_areas _ pr)).
  rewrite (rn_procs _ _ Hr). apply Hr.
Qed.

Lemma at_rest_running p LS sb s : at_rest p LS sb s -> running p s.
Proof. intros Hr. apply (ca_run _ _ _ _ _ (id_cache _ _ _ (ar_idle _ _ _ _ Hr))). Qed.

Lemma set_area_rest p LS sb slot a s : at_rest p LS sb s -> at_rest p LS sb (set_area p slot a s).
Proof.
  intros Hrest. pose proof (at_rest_running _ _ _ _ Hrest) as Hr. destruct Hrest as [[C ? ? ? ? ? ? ? ? ?] ?]. split; [|done]. split; try done.
  destruct C as [_ ? ? ? ? ? ? ? Hlk ? ? ?]. split; rewrite ?(set_area_proc p slot a s Hr); try done.
  by apply (running_alter p _ s).
Qed.

Lemma set_files_rest p LS sb s fs : at_rest p LS sb s -> at_rest p LS sb (k_set_files fs s).
Proof.
  intros [[C ? ? ? ? ? ? ? ? ?] ?]. split; [|done]. split; try done. destruct C as [[]]. by split.
Qed.

(** A file that is still open elsewhere is only counted down. *)
Lemma fileclose_shared p s f :
  running p s -> 1 < f_ref (k_files s !!! f) ->
  fileclose f s = Ok tt (k_set_files (alter (f_set_ref (f_ref (k_files s !!! f) - 1)) f (k_files s)) s).
Proof.
  intros Hr Href. unfold fileclose, file_at, upd_file. mrun (acquire_eq LK_ftable s (running_free _ _ _ Hr)).
  change (k_files (locked LK_ftable s)) with (k_files s). rewrite (proj2 (Z.ltb_ge _ _)) by lia. mred.
  rewrite (proj2 (Z.ltb_lt 0 _)) by lia. set (s1 := k_set_files (alter (f_set_ref (f_ref (k_files s !!! f) - 1)) f (k_files s)) s).
  exact (release_locked LK_ftable s1 (rn_settled _ _ Hr) (running_free _ _ LK_ftable Hr)).
Qed.

(** ** sys_munmap() *)

(** The search of sys_munmap() for the area of a range. *)
Definition holds (addr len : Z) (a : vm_area) : bool :=
  negb (va_length a =? 0) && (va_valid_start a <=? addr) && (u64 (addr + len) <=? va_valid_end a).

(** munmap(addr, PGSIZE) of the page at one end of a shared area whose file is
    open elsewhere. *)
Record munmap_call (p : nat) (s : kstate) (addr : Z) (slot : nat) (a : vm_area) (f : nat) : Prop := {
  mc_call : calling p s;
  mc_addr : tf_arg s p TF_a0 = addr;
  mc_len : tf_arg s p TF_a1 = PGSIZE;
  mc_areas : length (p_vm_areas (k_procs s !!! p)) = NVMA;
  mc_slot : find_area (holds addr PGSIZE) (seq 0 NVMA) (p_vm_areas (k_procs s !!! p)) = Some slot;
  mc_area : p_vm_areas (k_procs s !!! p) !!! slot = a;
  mc_edge : addr = va_valid_start a \/ addr + PGSIZE = va_valid_end a;
  mc_start : va_start_addr a mod PGSIZE = 0 /\ 0 <= va_start_addr a <= addr;
  mc_shared : bit_set (va_flags a) MAP_SHARED = true;
  mc_file : va_fptr a = Some f;
  mc_open : 1 < f_ref (k_files s !!! f)
}.

(** The area without the page. *)
Definition shrunk (addr : Z) (a : vm_area) : vm_area :=
  if va_valid_start a =? addr then va_set_valid_start (addr + PGSIZE) a else va_set_valid_end (va_valid_end a - PGSIZE) a.

Definition used_up (addr : Z) (a : vm_area) : bool := va_valid_end (shrunk addr a) <=? va_valid_start (shrunk addr a).

Lemma munmap_checks p s addr slot a f : munmap_call p s addr slot a f -> addr mod PGSIZE = 0 -> addr + PGSIZE <= MAXVA ->
  sys_munmap s = munmap_pages p slot addr PGSIZE (set_area p slot (shrunk addr a) s).
Proof.
  intros [Hc Ha Hl Hn Hsl Har He [_ Hst] _ _ _] Hal Hmax. pose proof (cg_run _ _ Hc) as Hr. rewrite MAXVA_val in Hmax. unfold PGSIZE in Hmax.
  pose proof Hsl as [Hin%elem_of_seq _]%find_area_some. assert (Hs : (slot < length (p_vm_areas (k_procs s !!! p)))%nat) by lia.
  unfold sys_munmap, proc_at, area_at, argaddr. mrun (argraw_eq p s 0 TF_a0 Hc eq_refl). mrun (argraw_eq p s 1 TF_a1 Hc eq_refl).
  rewrite Ha, Hl, Hal. change (negb (0 =? 0) || negb (PGSIZE mod PGSIZE =? 0)) with false. cbv iota.
  mrun (curproc_eq p s Hr). fold (holds addr PGSIZE). rewrite Hsl. mred. rewrite Har. unfold shrunk.
  destruct (Z.eqb_spec (va_valid_start a) addr) as [E|E].
  - mrun (upd_area_eq p slot (va_set_valid_start (u64 (addr + PGSIZE))) s Hs). rewrite Har, u64_small by (unfold PGSIZE; lia). done.
  - assert (addr + PGSIZE = va_valid_end a) as E2 by (destruct He; congruence). rewrite u64_small by (unfold PGSIZE; lia).
    rewrite (proj2 (Z.eqb_eq _ _) E2). mrun (upd_area_eq p slot (va_set_valid_end (u64 (va_valid_end a - PGSIZE))) s Hs).
    rewrite Har, u64_small by (unfold PGSIZE in *; lia). done.
Qed.

(** The area is empty: clear_vm_area() gives the file back. *)
Lemma clear_empty p s slot root a f : running p s -> (slot < length (p_vm_areas (k_procs s !!! p)))%nat ->
  p_vm_areas (k_procs s !!! p) !!! slot = a -> va_valid_end a <= va_valid_start a -> va_fptr a = Some f -> 1 < f_ref (k_files s !!! f) ->
  clear_vm_area p slot root s =
    Ok tt (set_area p slot vma_zero (k_set_files (alter (f_set_ref (f_ref (k_files s !!! f) - 1)) f (k_files s)) s)).
Proof.
  intros Hr Hs Ha He Hf Href. unfold clear_vm_area, area_at. mred. rewrite Ha, (proj2 (Z.ltb_ge _ _)), Hf by lia. cbn [deref]. mred.
  mrun (fileclose_shared p s f Hr Href). by apply upd_area_eq.
Qed.

(** munmap() of the page is done: [w] is in the file at [off]. *)
Record munmapped (p : nat) (LS : Z) (sb : superblock) (s : kstate) (l : list Z) (G : gmap Z (nat * Z)) (addr v : Z) (slot : nat) (a : vm_area)
    (f ip : nat) (i : inode) (w : list Z) (s' : kstate) (i' : inode) (ws : list (Z * list Z)) : Prop := {
  mu_rest : at_rest p LS sb s';
  mu_cached : cached LS sb s' ip i';
  mu_inode : i_inum i' = i_inum i /\ i_size i' = i_size i;
  mu_areas : p_vm_areas (k_procs s' !!! p) =
    <[slot := if used_up addr a then vma_zero else shrunk addr a]> (p_vm_areas (k_procs s !!! p));
  mu_files : k_files s' = if used_up addr a then alter (f_set_ref (f_ref (k_files s !!! f) - 1)) f (k_files s) else k_files s;
  mu_dropped : dropped (p_pagetable (k_procs s !!! p)) s l G addr v s';
  mu_writes : k_writes s' = rev ws ++ k_writes s;
  mu_disk : rewritten sb (i_inum i) (Z.to_nat (addr - va_start_addr a)) w (disk s) (disk s');
  mu_crash : recovers LS (disk s) ws (all_or_nothing sb (i_inum i) (addr - va_start_addr a) w (disk s))
}.

Lemma shrunk_same addr a : va_flags (shrunk addr a) = va_flags a /\ va_start_addr (shrunk addr a) = va_start_addr a /\
  va_fptr (shrunk addr a) = va_fptr a.
Proof. unfold shrunk. by destruct (_ =? _). Qed.

Lemma cached_set_area LS sb s ip i p slot a : cached LS sb s ip i -> cached LS sb (set_area p slot a s) ip i.
Proof. intros []. by split. Qed.

Lemma cached_set_files LS sb s ip i fs : cached LS sb s ip i -> cached LS sb (k_set_files fs s) ip i.
Proof. intros []. by split. Qed.

Lemma dropped_procs root s l G pgaddr v s' p slot a fs : dropped root s l G pgaddr v s' ->
  dropped root s l G pgaddr v (set_area p slot a (k_set_files fs s')).
Proof.
  intros [Ht Hlk Hfr]. pose proof (tb_vm _ _ _ _ Ht) as [Hs Hl _]. split; [by apply (table_ext root s')|done|done].
Qed.

(** The rest of sys_munmap() after write_back(). *)
Lemma munmap_spec p LS sb s l G addr v slot a f ip i :
  munmap_call p s addr slot a f -> at_rest p LS sb s -> cached LS sb s ip i -> f_ip (k_files s !!! f) = Some ip ->
  sb_size sb <= BPB -> user_page (p_pagetable (k_procs s !!! p)) s l G addr v ->
  let off := addr - va_start_addr a in (i_size i - off) / BSIZE <= 19 ->
  exists s' i' ws, sys_munmap s = Ok 0 s' /\
    munmapped p LS sb s l G addr v slot a f ip i (saved (k_mem s) v off (i_size i)) s' i' ws.
Proof.
  intros Hm Hrest Hc Hf Hone Hp off Hroom. pose proof (up_addr _ _ _ _ _ _ Hp) as (Hal & H0 & Hmax).
  rewrite (munmap_checks p s addr slot a f Hm Hal Hmax). pose proof Hm as [_ _ _ Hn Hsl Har _ [Hst0 Hst] Hsh Hfp Href].
  pose proof (at_rest_running _ _ _ _ Hrest) as Hr. pose proof Hsl as [Hin%elem_of_seq _]%find_area_some.
  set (a1 := shrunk addr a). set (s1 := set_area p slot a1 s). destruct (shrunk_same addr a) as (Efl & Est & Efp). fold a1 in Efl, Est, Efp.
  assert (Ep1 : k_procs s1 !!! p = p_set_vm_areas (<[slot := a1]> (p_vm_areas (k_procs s !!! p))) (k_procs s !!! p)) by by apply set_area_proc.
  assert (Ea1 : p_vm_areas (k_procs s1 !!! p) !!! slot = a1) by (rewrite Ep1; apply list_lookup_total_insert_eq; lia).
  set (root := p_pagetable (k_procs s !!! p)) in *.
  assert (Hp1 : user_page root s1 l G addr v).
  { pose proof (tb_vm _ _ _ _ (up_table _ _ _ _ _ _ Hp)) as [Hs Hl _]. by apply (user_page_same root s). }
  assert (Hoff : off mod PGSIZE = 0) by (unfold off, PGSIZE in *; Z.div_mod_to_equations; lia).
  destruct (write_back_syncs p LS sb root s1 l G addr v f ip i off (set_area_rest _ _ _ _ _ _ Hrest) (cached_set_area _ _ _ _ _ _ _ _ Hc) Hf Hp1
    Hoff ltac:(lia) Hone Hroom) as (s2 & i' & ws & E & [R C N Sz I F Q Dr W Dk X]).
  unfold munmap_pages, area_at, proc_at. mred. rewrite Ea1, Efl, Hsh, Est, Efp, Hfp, Ep1. cbn [deref p_pagetable p_set_vm_areas]. mred. fold root.
  fold off. rewrite u64_small by (rewrite MAXVA_val in Hmax; unfold off, PGSIZE in *; lia). mrun E. fold (used_up addr a).
  assert (Er : k_procs s2 !!! p = p_set_vm_areas (<[slot := a1]> (p_vm_areas (k_procs s !!! p))) (k_procs s !!! p)) by by rewrite Q.
  pose proof (at_rest_running _ _ _ _ R) as Hr2. assert (Dr' : dropped root s l G addr v s2) by by destruct Dr. unfold a1. fold (used_up addr a). destruct (used_up addr a) eqn:Eu.
  - assert (Ea2 : p_vm_areas (k_procs s2 !!! p) !!! slot = a1) by (rewrite Er; apply list_lookup_total_insert_eq; lia).
    mrun (clear_empty p s2 slot root a1 f Hr2 ltac:(rewrite Er; cbn; rewrite length_insert; lia) Ea2 (proj1 (Z.leb_le _ _) Eu)
      ltac:(by rewrite Efp) ltac:(by rewrite F)).
    eexists _, i', ws. split; [reflexivity|]. split; try done.
    + by apply set_area_rest, set_files_rest.
    + by apply cached_set_area, cached_set_files.
    + rewrite set_area_proc by by destruct Hr2. cbn [k_procs k_set_files]. rewrite Er. cbn. by rewrite Eu, list_insert_insert_eq.
    + rewrite Eu. cbn. by rewrite F.
    + by apply dropped_procs.
  - exists s2, i', ws. split; [done|]. split; try done.
    + by rewrite Er, Eu.
    + by rewrite Eu, F.
Qed.

(** C4: munmap() of one page at either end of a shared mapping, the page loaded
    and the file ending on it or before it. sys_munmap() returns 0. When the
    page is dirty, the bytes [w] the process saw at it, up to the end of the
    file, are in the file on the disk; otherwise the file keeps its bytes. The
    size of the file, every other inode and the blocks of every other file are
    unchanged. A machine that stops after any number of the disk writes and
    boots again has all of [w] in the file or nothing. The page is no longer
    mapped, its frame is free, every other page maps as before; the area is
    shorter by the page and, when that was the last one, cleared with its
    reference to the file given back. *)
Theorem munmap_syncs p LS sb s l G addr v slot a f ip i :
  munmap_call p s addr slot a f -> at_rest p LS sb s -> cached LS sb s ip i -> f_ip (k_files s !!! f) = Some ip ->
  sb_size sb <= BPB -> user_page (p_pagetable (k_procs s !!! p)) s l G addr v ->
  let off := addr - va_start_addr a in i_size i - off <= PGSIZE ->
  exists w s' i' ws, sys_munmap s = Ok 0 s' /\
    (if bit_set (PTE_FLAGS v) PTE_D && (off <? i_size i)
     then uread (k_mem s) (p_pagetable (k_procs s !!! p)) (Z.to_nat (i_size i - off)) addr = Some w else w = []) /\
    munmapped p LS sb s l G addr v slot a f ip i w s' i' ws.
Proof.
  intros Hm Hrest Hc Hf Hone Hp off Hle.
  destruct (munmap_spec p LS sb s l G addr v slot a f ip i Hm Hrest Hc Hf Hone Hp) as (s' & i' & ws & E & H).
  { fold off. unfold PGSIZE, BSIZE in *. Z.div_mod_to_equations. lia. }
  eexists _, s', i', ws. split; [exact E|]. split; [|exact H]. fold off. unfold saved.
  destruct (_ && _) eqn:Hd; [|done]. apply andb_prop in Hd as [_ Hd%Z.ltb_lt]. destruct Hp as [_ (Hal & H0 & Hmax) Ev Hv Hu (Hq & _)].
  pose proof (page_ok_nonzero _ Hq) as [Hqn _]. rewrite uread_in_page by lia.
  assert (Eu : upage (k_mem s) (p_pagetable (k_procs s !!! p)) addr = PTE2PA v).
  { unfold upage. by rewrite (proj2 (Z.leb_gt _ _)), Ev, Hv, Hu by (unfold PGSIZE in *; lia). }
  by rewrite Eu, (proj2 (Z.eqb_neq _ _) Hqn), Hal, Z.add_0_r.
Qed.

(** C33: munmap() of a dirty page that the file goes on after. write_back()
    writes up to the end of the file from the frame of this one page: every
    byte of the file past the page, up to its end, is replaced by the byte of
    physical memory at that distance after the frame, whoever owns it. *)
Theorem munmap_overreads p LS sb s l G addr v slot a f ip i :
  munmap_call p s addr slot a f -> at_rest p LS sb s -> cached LS sb s ip i -> f_ip (k_files s !!! f) = Some ip ->
  sb_size sb <= BPB -> user_page (p_pagetable (k_procs s !!! p)) s l G addr v ->
  let off := addr - va_start_addr a in (i_size i - off) / BSIZE <= 19 -> bit_set (PTE_FLAGS v) PTE_D = true ->
  exists s', sys_munmap s = Ok 0 s' /\ forall j, PGSIZE <= j < i_size i - off ->
    file_data sb (disk s') (i_inum i) !! Z.to_nat (off + j) = Some (k_mem s (PTE2PA v + j)).
Proof.
  intros Hm Hrest Hc Hf Hone Hp off Hroom Hd.
  destruct (munmap_spec p LS sb s l G addr v slot a f ip i Hm Hrest Hc Hf Hone Hp Hroom) as (s' & i' & ws & E & H).
  exists s'. split; [exact E|]. intros j Hj. rewrite (rw_data _ _ _ _ _ _ (mu_disk _ _ _ _ _ _ _ _ _ _ _ _ _ _ _ _ _ H)). fold off.
  pose proof (mc_start _ _ _ _ _ _ Hm) as [_ Hst]. assert (Ho : 0 <= off) by (unfold off; lia). unfold PGSIZE in Hj.
  unfold saved. rewrite Hd, (proj2 (Z.ltb_lt _ _)) by lia. cbn [andb].
  rewrite lookup_overwrite by (rewrite length_file_data, (proj2 (disk_inode_of _ _ _ _ (cd_disk _ _ _ _ _ Hc))); lia).
  unfold mem_read. rewrite decide_True by (rewrite length_map, length_seq; lia).
  rewrite list_lookup_fmap, lookup_seq_lt by lia. cbn. do 2 f_equal. lia.
Qed.

(** write_back() of two pages of which the first was never touched: the second
    is written at the first one's offset. *)
Theorem write_back_misplaces p LS sb root s f ip i pgaddr off :
  at_rest p LS sb s -> cached LS sb s ip i -> f_ip (k_files s !!! f) = Some ip -> off mod PGSIZE = 0 ->
  0 <= pgaddr -> pgaddr + 2 * PGSIZE <= MAXVA -> upage (k_mem s) root pgaddr = 0 ->
  write_back root f pgaddr (2 * PGSIZE) off s = write_back root f (pgaddr + PGSIZE) PGSIZE off s.
Proof.
  intros Hrest Hc Hf Hoff H0 Hmax Hun. rewrite MAXVA_val in Hmax. unfold PGSIZE in Hmax.
  rewrite !(write_back_enter p LS sb root s f ip i _ _ off Hrest Hc Hf Hoff). set (s1 := entered s ip _).
  replace (pgaddr + PGSIZE + PGSIZE) with (pgaddr + 2 * PGSIZE) by (unfold PGSIZE; lia). rewrite u64_small by (unfold PGSIZE; lia).
  change (Z.to_nat (2 * PGSIZE / PGSIZE + 1)) with 3%nat. change (Z.to_nat (PGSIZE / PGSIZE + 1)) with 2%nat.
  assert (Ep : write_back_page root ip pgaddr off s1 = Ok off s1).
  { unfold write_back_page. mrun (walkaddr_eq root pgaddr s1). change (k_mem s1) with (k_mem s). by rewrite Hun. }
  assert (E : write_back_loop 3 root ip pgaddr (pgaddr + 2 * PGSIZE) off s1 =
              write_back_loop 2 root ip (pgaddr + PGSIZE) (pgaddr + 2 * PGSIZE) off s1); [|unfold bind; by rewrite E].
  set (k := 2%nat). cbn [write_back_loop]. rewrite (proj2 (Z.ltb_lt _ _)) by (unfold PGSIZE; lia).
  mrun Ep. by rewrite u64_small by (unfold PGSIZE; lia).
Qed.

End Back.

(** ** A process that unmaps a page it wrote *)

Module BackExample.
Import FsExample RamDisk.
#[local] Existing Instance VmTable.Example.linker.

Abbreviation uroot := VmTable.Example.root.

(** The frame of the page is the first free one. *)
Definition frame : Z := PHYSTOP - 7 * PGSIZE.
Definition next_frame : Z := frame + PGSIZE.
Definition dirty_rw : Z := Z.lor VmTable.Example.user_rw PTE_D.
Definition written_page : Z := leaf_pte frame dirty_rw.

Lemma written_frame : PTE2PA written_page = frame.
Proof. by vm_compute. Qed.

(** The page is mapped, full of "x". *)
Lemma x_page : exists s l G, table uroot s l G /\ page_ok frame /\ frame ∉ l /\ G !! frame = None /\ (1 <= length l)%nat /\
  lookup_pte (k_mem s) uroot 0 = written_page /\ forall x, frame <= x < frame + PGSIZE -> k_mem s x = 120.
Proof.
  destruct VmTable.Example.empty_table as [Ht H0]. change (tail VmTable.Example.pages) with (frame :: tail (tail VmTable.Example.pages)) in Ht.
  set (l0 := tail (tail VmTable.Example.pages)) in *. set (s := VmTable.Example.empty) in *.
  set (m := fun x => if in_range frame PGSIZE x then 120 else k_mem s x).
  destruct (new_page_ok uroot s frame l0 _ Ht) as (Hq & Hql & HqG).
  destruct (taken_table uroot s frame l0 _ m Ht) as (Ht1 & Hlk1).
  { intros x. unfold m. destruct (in_range _ _ _); [unfold is_byte; lia|]. apply (kmem_bytes _ _ (vm_kmem _ _ (tb_vm _ _ _ _ Ht))). }
  { intros x Hx. unfold m. by rewrite (proj2 (in_range_false _ _ _) Hx). }
  set (s1 := k_set_mem m (kalloc_state frame s)) in *.
  destruct (mappages_ok uroot 0 PGSIZE frame dirty_rw s1 l0 _ Ht1 ltac:(done) ltac:(done) ltac:(done) ltac:(done) ltac:(done) ltac:(done) ltac:(done) ltac:(done))
    as (r & s2 & l2 & G2 & j & _ & Hg & Hr & Hlk).
  { intros a Ha. change (k_mem s1) with m. rewrite Hlk1, H0 by (rewrite MAXVA_val; unfold PGSIZE in *; lia). done. }
  change (PGSIZE / PGSIZE) with 1 in Hr. change (length l0) with 5%nat in Hr.
  destruct Hr as [(_ & Hj & Hn)|(_ & _ & _ & ?)]; [|lia]. assert (j = 1%nat) as -> by lia.
  destruct (grown_keeps _ _ _ _ _ _ _ frame Hg Hq Hql HqG) as (HG2 & Hl2 & Hz).
  exists s2, l2, G2. split; [apply Hg|]. split; [done|]. split; [done|]. split; [done|]. split; [lia|]. split.
  - rewrite Hlk by done. by rewrite VmTable.mapped_1.
  - intros x Hx. rewrite Hz by done. change (k_mem s1) with m. unfold m. by rewrite (proj2 (in_range_true _ _ _) Hx).
Qed.

(** The process wrote "x" all over the page at 0, and calls munmap(0, 4096). *)
Record call_ready (t : kstate) (l : list Z) (G : gmap Z (nat * Z)) (q : Z) : Prop := {
  cr_page : user_page uroot t l G 0 written_page;
  cr_bytes x : frame <= x < frame + PGSIZE -> k_mem t x = 120;
  cr_tf : q <> 0 /\ load64 (k_mem t) (q + TF_a0) = 0 /\ load64 (k_mem t) (q + TF_a1) = PGSIZE
}.

Lemma call_ready_exists : exists t l G q, call_ready t l G q.
Proof.
  destruct x_page as (s & l & G & Ht & Hfr & Hl & HG & Hlen & Hlk & Hx). destruct l as [|q l]; [cbn in Hlen; lia|].
  destruct (new_page_ok uroot s q l G Ht) as (Hq & Hql & HqG). pose proof Hq as [Hqa _]. pose proof Hfr as [Hfa _].
  apply not_elem_of_cons in Hl as [Hfq Hfl]. pose proof (page_ok_nonzero q Hq) as [Hq0 _].
  set (m := store64 (store64 (k_mem s) (q + TF_a0) 0) (q + TF_a1) PGSIZE).
  assert (Hout : forall x, x < q \/ q + PGSIZE <= x -> m x = k_mem s x).
  { intros x Hxq. unfold m, TF_a0, TF_a1. rewrite !store_out by (unfold PGSIZE in *; lia). done. }
  destruct (taken_table uroot s q l G m Ht) as (Ht1 & Hlk1); [|done|].
  { do 2 apply store_ok. apply (kmem_bytes _ _ (vm_kmem _ _ (tb_vm _ _ _ _ Ht))). }
  exists (k_set_mem m (kalloc_state q s)), l, G, q. split; [split| |].
  - done.
  - done.
  - change (k_mem (k_set_mem m _)) with m. by rewrite Hlk1.
  - by vm_compute.
  - by vm_compute.
  - by rewrite written_frame.
  - intros x Hxf. change (k_mem (k_set_mem m _)) with m. rewrite Hout; [by apply Hx|].
    destruct (pages_disjoint frame q Hfa Hqa Hfq); lia.
  - change (k_mem (k_set_mem m _)) with m. split; [done|]. unfold m. split.
    + rewrite load_store_out by (unfold TF_a0, TF_a1; lia). by rewrite load_store_same.
    + by rewrite load_store_same.
Qed.

Definition area0 : vm_area := mkVma 0 PGSIZE (Z.lor PROT_READ PROT_WRITE) MAP_SHARED (Some 0%nat) 0 PGSIZE.

Definition mapping (q : Z) (pr : proc) : proc :=
  p_set_trapframe q (p_set_vm_areas (area0 :: replicate 15 vma_zero) (p_set_pagetable uroot pr)).

(** The process with the inode [i] behind its descriptor. *)
Definition staged (i : inode) (t : kstate) (q : Z) (s : kstate) : kstate :=
  let s := k_set_freelist (k_freelist t) (k_set_mem (k_mem t) s) in
  let s := k_set_files [f_set_ref 2 file0] (k_set_inodes (<[1%nat := i]> (k_inodes s)) s) in
  k_set_procs (alter (mapping q) 3%nat (k_procs s)) s.

Section Staged.
Context (i : inode) (t s : kstate) (l : list Z) (G : gmap Z (nat * Z)) (q : Z) (Hs : system s) (Ht : call_ready t l G q).

Lemma ready_proc : k_procs (staged i t q s) !!! 3%nat = mapping q (k_procs s !!! 3%nat).
Proof.
  pose proof (rd_running _ _ _ _ (system_rd s Hs)) as Hr. apply (lookup_total_alter (mapping q)). rewrite (rn_procs _ _ Hr). apply Hr.
Qed.

Lemma ready_rest : at_rest 3 2 sb0 (staged i t q s).
Proof.
  pose proof (sy_rest _ Hs) as Hrest. pose proof (at_rest_running _ _ _ _ Hrest) as Hr. destruct Hrest as [[C ? ? ? ? ? ? ? ? ?] ?]. split; [|done]. split; try done.
  destruct C as [_ ? ? ? ? ? ? ? Hlk ? ? ?]. split; rewrite ?ready_proc; try done.
  apply (running_alter 3 (mapping q) (k_set_files _ _)); [by destruct Hr|done|done].
Qed.

Lemma ready_page : user_page (p_pagetable (k_procs (staged i t q s) !!! 3%nat)) (staged i t q s) l G 0 written_page.
Proof.
  rewrite ready_proc. destruct (running_kmem 3 _ (at_rest_running _ _ _ _ ready_rest)) as (? & ?). by apply (user_page_same uroot t), Ht.
Qed.

Lemma ready_call : munmap_call 3 (staged i t q s) 0 0 area0 0.
Proof.
  destruct (cr_tf _ _ _ _ Ht) as (Hq & E0 & E1). split; rewrite ?ready_proc; try done.
  - split; [apply (at_rest_running _ _ _ _ ready_rest)|by rewrite ready_proc|]. apply (id_quiet _ _ _ (ar_idle _ _ _ _ ready_rest)).
  - unfold tf_arg. by rewrite ready_proc.
  - unfold tf_arg. by rewrite ready_proc.
  - by left.
Qed.

End Staged.

(** "hello" becomes "xxxxx". *)
Lemma munmap_syncs_witness : exists s s', sys_munmap s = Ok 0 s' /\ file_data sb0 (disk s') 2 = [120; 120; 120; 120; 120].
Proof.
  destruct small_system as (s & Hs). destruct call_ready_exists as (t & l & G & q & Ht). pose proof written_frame as Epa.
  destruct (munmap_syncs (D := ram_disk) 3 2 sb0 (staged file_inode t q s) l G 0 written_page 0 area0 0 1 file_inode) as (w & s' & i' & ws & E & Hw & H).
  - by apply (ready_call _ _ _ l G).
  - by apply ready_rest.
  - destruct (sy_file _ Hs) as [? Hi ? ? ? ? ? ? ?]. split; try done; cbn; [by rewrite length_insert|by apply list_lookup_total_insert_eq].
  - done.
  - done.
  - by apply ready_page.
  - done.
  - exists (staged file_inode t q s), s'. split; [exact E|]. etrans; [exact (rw_data _ _ _ _ _ _ (mu_disk _ _ _ _ _ _ _ _ _ _ _ _ _ _ _ _ _ H))|].
    change (disk (staged file_inode t q s)) with (disk s). rewrite (sy_disk _ Hs).
    assert (Ew : w = [120; 120; 120; 120; 120]); [|rewrite Ew; by vm_compute].
    replace (bit_set (PTE_FLAGS written_page) PTE_D && _) with true in Hw by (symmetry; vm_compute; reflexivity).
    change (Z.to_nat (i_size file_inode - (0 - va_start_addr area0))) with 5%nat in Hw.
    rewrite uread_in_page in Hw by (lia || by vm_compute). rewrite ready_proc in Hw by done. cbn [p_pagetable mapping p_set_trapframe p_set_vm_areas p_set_pagetable] in Hw.
    pose proof (cr_page _ _ _ _ Ht) as [_ _ Ev _ _ _]. unfold upage in Hw.
    change (k_mem (staged file_inode t q s)) with (k_mem t) in Hw. rewrite Ev, Epa in Hw.
    change (MAXVA <=? 0) with false in Hw. change (bit_set written_page PTE_V && bit_set written_page PTE_U) with true in Hw. cbv iota in Hw.
    change (frame =? 0) with false in Hw. injection Hw as <-. change (0 mod PGSIZE) with 0. unfold mem_read. cbn [seq map].
    by rewrite !(cr_bytes _ _ _ _ Ht) by (unfold PGSIZE; lia).
Defined.

(** Byte 4096 of the file is now the first byte of the frame after the page's. *)
Lemma munmap_overreads_witness : exists s s', sys_munmap s = Ok 0 s' /\ file_data sb0 (disk s') 3 !! 4096%nat = Some (k_mem s next_frame).
Proof.
  destruct small_system as (s & Hs). destruct call_ready_exists as (t & l & G & q & Ht). pose proof written_frame as Epa.
  destruct (munmap_overreads (D := ram_disk) 3 2 sb0 (staged big_inode t q s) l G 0 written_page 0 area0 0 1 big_inode) as (s' & E & H).
  - by apply (ready_call _ _ _ l G).
  - by apply ready_rest.
  - assert (Ed : disk (staged big_inode t q s) = disk0) by apply (sy_disk _ Hs).
    apply (cached0 _ 1%nat); [cbn; rewrite length_insert; apply (sy_file _ Hs)|rewrite Ed; by vm_compute|rewrite Ed; apply sound_big0| |reflexivity..].
    apply list_lookup_total_insert_eq, (sy_file _ Hs).
  - done.
  - done.
  - by apply ready_page.
  - by vm_compute.
  - by vm_compute.
  - exists (staged big_inode t q s), s'. split; [exact E|]. unfold next_frame. rewrite <- Epa. apply (H PGSIZE). by vm_compute.
Defined.

End BackExample.
