(* ===== verification/Trap.v ===== *)
(** sysproc.c, syscall.c's dispatch, plic.c, trap.c, proc.c's forkret() and
    main.c. The interrupt controller's registers are a parameter. A function
    that leaves for user space returns where trampoline.S is entered. *)

From S2P Require Import Prelude Riscv StringC State Spinlock Kalloc Vm Sched Sleeplock Printf Console Virtio Bio Log Fs Pipe File Vma Proc Syscall Exec Sysfile Mmap.

(** ** sysproc.c *)

Section Sysproc.
Context `{L : Linker} `{D : BlockDev}.

Definition sys_exit : K Z :=
  n <- argint 0;;
  exit n.

Definition sys_getpid : K Z :=
  p <- curproc;;
  pr <- proc_at p;;
  ret (p_pid pr).

Definition sys_fork : K Z := fork.

Definition sys_wait : K Z :=
  p <- argaddr 0;;
  wait p.

Definition sys_sbrk : K Z :=
  n <- argint 0;;
  p <- curproc;;
  pr <- proc_at p;;
  let addr := p_sz pr in
  r <- growproc n;;
  if r <? 0 then ret (-1) else ret addr.

Fixpoint sys_sleep_loop (k : nat) (ticks0 n : Z) : K Z :=
  ticks <- gets k_ticks;;
  if u32 (ticks - ticks0) <? u32 n then
    p <- curproc;;
    kd <- killed p;;
    if c_true kd then
      release LK_ticks;;
      ret (-1)
    else
    match k with
    | O => diverge
    | S k =>
        sleep CH_ticks LK_ticks;;
        sys_sleep_loop k ticks0 n
    end
  else
    release LK_ticks;;
    ret 0.

Definition sys_sleep : K Z :=
  n <- argint 0;;
  let n := if n <? 0 then 0 else n in
  acquire LK_ticks;;
  ticks0 <- gets k_ticks;;
  sys_sleep_loop (Z.to_nat n * S patience) ticks0 n.

Definition sys_kill : K Z :=
  pid <- argint 0;;
  kill pid.

Definition sys_uptime : K Z :=
  acquire LK_ticks;;
  xticks <- gets k_ticks;;
  release LK_ticks;;
  ret xticks.

(** ** The dispatch of syscall.c *)

Definition syscalls : list (option (K Z)) :=
  [None; Some sys_fork; Some sys_exit; Some sys_wait; Some sys_pipe; Some sys_read; Some sys_kill;
   Some sys_exec; Some sys_fstat; Some sys_chdir; Some sys_dup; Some sys_getpid; Some sys_sbrk;
   Some sys_sleep; Some sys_uptime; Some sys_open; Some sys_write; Some sys_mknod; Some sys_unlink;
   Some sys_link; Some sys_mkdir; Some sys_close; Some sys_mmap; Some sys_munmap].

Definition syscall : K unit :=
  p <- curproc;;
  a7 <- tf_get p TF_a7;;
  let num := s32 a7 in
  match (if 0 <? num then syscalls !! Z.to_nat num else None) with
  | Some (Some f) =>
      r <- f;;
      tf_set p TF_a0 (u64 r)
  | _ =>
      pr <- proc_at p;;
      printf (chars "%d %s: unknown sys call %d" ++ chars NL)
        [PInt (p_pid pr); PStr (Some (p_name pr)); PInt num];;
      tf_set p TF_a0 (u64 (-1))
  end.

End Sysproc.

(** ** plic.c *)

(** The interrupt controller: reading a register may change its state. *)
Class PlicDev := {
  plic_load : Z -> K Z;
  plic_store : Z -> Z -> K unit
}.

Definition PLIC_SENABLE (hart : Z) : Z := PLIC + 0x2080 + hart * 0x100.
Definition PLIC_SPRIORITY (hart : Z) : Z := PLIC + 0x201000 + hart * 0x2000.
Definition PLIC_SCLAIM (hart : Z) : Z := PLIC + 0x201004 + hart * 0x2000.

Section Trap.
Context `{L : Linker} `{D : BlockDev} `{P : PlicDev}.

Definition plicinit : K unit :=
  plic_store (PLIC + UART0_IRQ * 4) 1;;
  plic_store (PLIC + VIRTIO0_IRQ * 4) 1.

Definition plicinithart : K unit :=
  hart <- cpuid;;
  plic_store (PLIC_SENABLE hart) (Z.lor (Z.shiftl 1 UART0_IRQ) (Z.shiftl 1 VIRTIO0_IRQ));;
  plic_store (PLIC_SPRIORITY hart) 0.

Definition plic_claim : K Z :=
  hart <- cpuid;;
  irq <- plic_load (PLIC_SCLAIM hart);;
  ret (s32 irq).

Definition plic_complete (irq : Z) : K unit :=
  hart <- cpuid;;
  plic_store (PLIC_SCLAIM hart) irq.

(** ** trap.c *)

Definition upd_csr (f : csrs -> csrs) : K unit := modify (fun s => k_set_csr (f (k_csr s)) s).

Definition trapinit : K unit := initlock LK_ticks.

Definition trapinithart : K unit := upd_csr (r_set_stvec kernelvec).

Definition clockintr : K unit :=
  hart <- cpuid;;
  (when hart =? 0 do
     (acquire LK_ticks;;
      modify (fun s => k_set_ticks (u32 (k_ticks s + 1)) s);;
      wakeup CH_ticks;;
      release LK_ticks));;
  upd_csr (fun r => r_set_stimecmp (u64 (r_time r + 1000000)) r).

Definition devintr : K Z :=
  csr <- gets k_csr;;
  let scause := r_scause csr in
  if scause =? 0x8000000000000009 then
    irq <- plic_claim;;
    (if irq =? UART0_IRQ then uartintr
     else if irq =? VIRTIO0_IRQ then virtio_disk_intr
     else if c_true irq then
       printf (chars "unexpected interrupt irq=%d" ++ chars NL) [PInt irq];; ret tt
     else ret tt);;
    (when c_true irq do plic_complete irq);;
    ret 1
  else if scause =? 0x8000000000000005 then
    clockintr;;
    ret 2
  else ret 0.

(** The entry point in the trampoline page and the satp value passed to it. *)
Definition usertrapret : K (Z * Z) :=
  p <- curproc;;
  intr_off;;
  upd_csr (r_set_stvec (u64 (TRAMPOLINE + (uservec - trampoline))));;
  csr <- gets k_csr;;
  tf_set p TF_kernel_satp (r_satp csr);;
  pr <- proc_at p;;
  tf_set p TF_kernel_sp (u64 (p_kstack pr + PGSIZE));;
  tf_set p TF_kernel_trap usertrap_addr;;
  tf_set p TF_kernel_hartid (r_tp csr);;
  upd_csr (fun r =>
    r_set_sstatus (Z.lor (Z.land (r_sstatus r) (u64 (Z.lnot SSTATUS_SPP))) SSTATUS_SPIE) r);;
  epc <- tf_get p TF_epc;;
  upd_csr (r_set_sepc epc);;
  let satp := MAKE_SATP (p_pagetable pr) in
  ret (u64 (TRAMPOLINE + (userret - trampoline)), satp).

Definition usertrap : K (Z * Z) :=
  csr <- gets k_csr;;
  if bit_set (r_sstatus csr) SSTATUS_SPP then panic "usertrap: not from user mode" else
  upd_csr (r_set_stvec kernelvec);;
  p <- curproc;;
  tf_set p TF_epc (r_sepc csr);;
  which_dev <-
    (if r_scause csr =? 8 then
       kd <- killed p;;
       (when c_true kd do exit (-1));;
       epc <- tf_get p TF_epc;;
       tf_set p TF_epc (u64 (epc + 4));;
       intr_on;;
       syscall;;
       ret 0
     else
     d <- devintr;;
     if c_true d then ret d else
     r <- mmap_load_instr;;
     if r =? 0 then ret 0 else
     csr <- gets k_csr;;
     pr <- proc_at p;;
     printf (chars "usertrap(): unexpected scause 0x%lx pid=%d" ++ chars NL)
       [PInt (r_scause csr); PInt (p_pid pr)];;
     printf (chars "            sepc=0x%lx stval=0x%lx" ++ chars NL)
       [PInt (r_sepc csr); PInt (r_stval csr)];;
     setkilled p;;
     ret 0);;
  kd <- killed p;;
  (when c_true kd do exit (-1));;
  (when which_dev =? 2 do yield);;
  usertrapret.

Definition kerneltrap : K unit :=
  csr <- gets k_csr;;
  let sepc := r_sepc csr in
  let sstatus := r_sstatus csr in
  let scause := r_scause csr in
  if negb (bit_set sstatus SSTATUS_SPP) then panic "kerneltrap: not from supervisor mode" else
  i <- intr_get;;
  if c_true i then panic "kerneltrap: interrupts enabled" else
  which_dev <- devintr;;
  if which_dev =? 0 then
    csr <- gets k_csr;;
    printf (chars "scause=0x%lx sepc=0x%lx stval=0x%lx" ++ chars NL)
      [PInt scause; PInt (r_sepc csr); PInt (r_stval csr)];;
    panic "kerneltrap"
  else
  me <- (if which_dev =? 2 then myproc else ret None);;
  (when negb (bool_decide (me = None)) do yield);;
  upd_csr (r_set_sepc sepc);;
  upd_csr (r_set_sstatus sstatus).

(** proc.c: where a new process starts, with its p->lock held. *)
Definition forkret : K (Z * Z) :=
  p <- curproc;;
  release (LK_proc p);;
  first <- gets k_first;;
  (when c_true first do
     (fsinit ROOTDEV;;
      modify (k_set_first 0)));;
  usertrapret.

(** ** main.c

    What hart 0 does before scheduler(); [reg] are the disk's identification
    registers. *)
Definition main_boot (reg : reg_file) : K unit :=
  consoleinit;;
  printfinit;;
  printf (chars NL) [];;
  printf (chars "xv6 kernel is booting" ++ chars NL) [];;
  printf (chars NL) [];;
  kinit;;
  kvminit;;
  kvminithart;;
  procinit;;
  trapinit;;
  trapinithart;;
  plicinit;;
  plicinithart;;
  binit;;
  iinit;;
  fileinit;;
  virtio_disk_init reg;;
  userinit.

(** The other harts, once [started] is set. *)
Definition main_hart : K unit :=
  hart <- cpuid;;
  printf (chars "hart %d starting" ++ chars NL) [PInt hart];;
  kvminithart;;
  trapinithart;;
  plicinithart.

(** main() on the hart that runs it, with [n] rounds of the scheduler. *)
Definition main (reg : reg_file) (n : nat) : K unit :=
  hart <- cpuid;;
  (if hart =? 0 then main_boot reg else main_hart);;
  scheduler n.

End Trap.
