(* ===== verification/Trampoline.v ===== *)
(** trampoline.S, swtch.S and kernelvec.S: the assembly that saves and
    restores registers, as instruction lists with an interpreter.

    A [hart] has the integer registers (by number), memory, and the control
    registers the code touches. Loads and stores go through [tr], the address
    translation for the current satp, which is the hardware's. *)

From S2P Require Import Prelude Riscv.

(** ** Registers and instructions *)

Definition ra : nat := 1.
Definition sp : nat := 2.
Definition gp : nat := 3.
Definition tp : nat := 4.
Definition t0 : nat := 5.
Definition t1 : nat := 6.
Definition t2 : nat := 7.
Definition s0 : nat := 8.
Definition s1 : nat := 9.
Definition a0 : nat := 10.
Definition a1 : nat := 11.
Definition a2 : nat := 12.
Definition a3 : nat := 13.
Definition a4 : nat := 14.
Definition a5 : nat := 15.
Definition a6 : nat := 16.
Definition a7 : nat := 17.
Definition s2 : nat := 18.
Definition s3 : nat := 19.
Definition s4 : nat := 20.
Definition s5 : nat := 21.
Definition s6 : nat := 22.
Definition s7 : nat := 23.
Definition s8 : nat := 24.
Definition s9 : nat := 25.
Definition s10 : nat := 26.
Definition s11 : nat := 27.
Definition t3 : nat := 28.
Definition t4 : nat := 29.
Definition t5 : nat := 30.
Definition t6 : nat := 31.

Record hart := mkHart {
  h_reg : nat -> Z;
  h_mem : mem;
  h_satp : Z;
  h_sscratch : Z;
  h_sepc : Z;
  h_pc : Z
}.

Definition h_set_reg (r : nat) (v : Z) (h : hart) : hart :=
  mkHart (fun r' => if (r' =? r)%nat then v else h_reg h r')
    (h_mem h) (h_satp h) (h_sscratch h) (h_sepc h) (h_pc h).
Definition h_set_mem (m : mem) (h : hart) : hart :=
  mkHart (h_reg h) m (h_satp h) (h_sscratch h) (h_sepc h) (h_pc h).
Definition h_set_satp (v : Z) (h : hart) : hart :=
  mkHart (h_reg h) (h_mem h) v (h_sscratch h) (h_sepc h) (h_pc h).
Definition h_set_sscratch (v : Z) (h : hart) : hart :=
  mkHart (h_reg h) (h_mem h) (h_satp h) v (h_sepc h) (h_pc h).
Definition h_set_pc (v : Z) (h : hart) : hart :=
  mkHart (h_reg h) (h_mem h) (h_satp h) (h_sscratch h) (h_sepc h) v.

Inductive instr : Type :=
| Sd (rs : nat) (off : Z) (base : nat)
| Ld (rd : nat) (off : Z) (base : nat)
| Li (rd : nat) (v : Z)
| Addi (rd rs : nat) (imm : Z)
| CsrwSscratch (rs : nat)
| CsrrSscratch (rd : nat)
| CsrwSatp (rs : nat)
| SfenceVma
| Jr (rs : nat)
| Sret.

Section Asm.
Variable tr : Z -> Z -> Z.

Definition ea (h : hart) (base : nat) (off : Z) : Z := tr (h_satp h) (u64 (h_reg h base + off)).

Definition exec1 (i : instr) (h : hart) : hart :=
  match i with
  | Sd rs off base => h_set_mem (store64 (h_mem h) (ea h base off) (h_reg h rs)) h
  | Ld rd off base => h_set_reg rd (load64 (h_mem h) (ea h base off)) h
  | Li rd v => h_set_reg rd v h
  | Addi rd rs imm => h_set_reg rd (u64 (h_reg h rs + imm)) h
  | CsrwSscratch rs => h_set_sscratch (h_reg h rs) h
  | CsrrSscratch rd => h_set_reg rd (h_sscratch h) h
  | CsrwSatp rs => h_set_satp (h_reg h rs) h
  | SfenceVma => h
  | Jr rs => h_set_pc (h_reg h rs) h
  | Sret => h_set_pc (h_sepc h) h
  end.

Definition run (is_ : list instr) (h : hart) : hart := foldl (fun h i => exec1 i h) h is_.

(** A block of stores, or of loads, of registers at offsets from [base]. *)
Definition saves (l : list (nat * Z)) (base : nat) : list instr :=
  (fun '(r, o) => Sd r o base) <$> l.
Definition loads (l : list (nat * Z)) (base : nat) : list instr :=
  (fun '(r, o) => Ld r o base) <$> l.

(** ** trampoline.S *)

(** Where the trap frame keeps each user register but a0. *)
Definition user_slots : list (nat * Z) :=
  [(ra, 40); (sp, 48); (gp, 56); (tp, 64); (t0, 72); (t1, 80); (t2, 88); (s0, 96); (s1, 104);
   (a1, 120); (a2, 128); (a3, 136); (a4, 144); (a5, 152); (a6, 160); (a7, 168);
   (s2, 176); (s3, 184); (s4, 192); (s5, 200); (s6, 208); (s7, 216); (s8, 224); (s9, 232);
   (s10, 240); (s11, 248); (t3, 256); (t4, 264); (t5, 272); (t6, 280)].

Definition uservec_code : list instr :=
  [CsrwSscratch a0; Li a0 TRAPFRAME] ++ saves user_slots a0 ++
  [CsrrSscratch t0; Sd t0 112 a0;
   Ld sp 8 a0; Ld tp 32 a0; Ld t0 16 a0; Ld t1 0 a0;
   SfenceVma; CsrwSatp t1; SfenceVma; Jr t0].

Definition userret_code : list instr :=
  [SfenceVma; CsrwSatp a0; SfenceVma; Li a0 TRAPFRAME] ++ loads user_slots a0 ++
  [Ld a0 112 a0; Sret].

(** ** swtch.S *)

Definition context_slots : list (nat * Z) :=
  [(ra, 0); (sp, 8); (s0, 16); (s1, 24); (s2, 32); (s3, 40); (s4, 48); (s5, 56); (s6, 64);
   (s7, 72); (s8, 80); (s9, 88); (s10, 96); (s11, 104)].

Definition swtch_code : list instr := saves context_slots a0 ++ loads context_slots a1 ++ [Jr ra].

(** ** kernelvec.S *)

Definition kernelvec_slots : list (nat * Z) :=
  [(gp, 16); (t0, 32); (t1, 40); (t2, 48); (a0, 72); (a1, 80); (a2, 88); (a3, 96); (a4, 104);
   (a5, 112); (a6, 120); (a7, 128); (t3, 216); (t4, 224); (t5, 232); (t6, 240)].

Definition kernelvec_save : list instr :=
  Addi sp sp (-256) ::
  saves [(ra, 0); (sp, 8); (gp, 16); (tp, 24); (t0, 32); (t1, 40); (t2, 48); (a0, 72); (a1, 80);
         (a2, 88); (a3, 96); (a4, 104); (a5, 112); (a6, 120); (a7, 128); (t3, 216); (t4, 224);
         (t5, 232); (t6, 240)] sp.

Definition kernelvec_restore : list instr :=
  [Ld ra 0 sp; Ld sp 8 sp] ++ loads kernelvec_slots sp ++ [Addi sp sp 256; Sret].

(** ** Blocks of stores and loads *)

Lemma run_app l1 l2 h : run (l1 ++ l2) h = run l2 (run l1 h).
Proof. apply foldl_app. Qed.

(** [pa] is where the [n] bytes at [va] are under translation [satp]. *)
Definition mapped (satp va pa n : Z) : Prop :=
  forall o, 0 <= o < n -> tr satp (u64 (va + o)) = pa + o.

Definition slots_in (n : Z) (l : list (nat * Z)) : Prop := Forall (fun p => 0 <= p.2 < n) l.

Definition save_mem (R : nat -> Z) (pa : Z) (m : mem) (l : list (nat * Z)) : mem :=
  foldl (fun m '(r, o) => store64 m (pa + o) (R r)) m l.

Lemma run_saves l base h pa n :
  mapped (h_satp h) (h_reg h base) pa n -> slots_in n l ->
  run (saves l base) h = h_set_mem (save_mem (h_reg h) pa (h_mem h) l) h.
Proof.
  intros Hm. revert h Hm. induction l as [|[r o] l IH]; intros h Hm Hl; [by destruct h|].
  apply Forall_cons in Hl as [Ho Hl]. cbn [saves fmap list_fmap run foldl exec1].
  unfold ea. rewrite (Hm o Ho).
  by apply (IH (h_set_mem (store64 (h_mem h) (pa + o) (h_reg h r)) h)).
Qed.

Definition apart (o : Z) (l : list (nat * Z)) : Prop :=
  Forall (fun p => p.2 + 8 <= o \/ o + 8 <= p.2) l.

Fixpoint slots_apart (l : list (nat * Z)) : Prop :=
  match l with
  | [] => True
  | p :: l => apart p.2 l /\ slots_apart l
  end.

#[export] Instance apart_dec o l : Decision (apart o l).
Proof. unfold apart. apply _. Defined.
#[export] Instance slots_apart_dec l : Decision (slots_apart l).
Proof. induction l; cbn; apply _. Defined.
#[export] Instance slots_in_dec n l : Decision (slots_in n l).
Proof. unfold slots_in. apply _. Defined.

Lemma save_mem_out R pa l m a :
  Forall (fun '(_, o) => a < pa + o \/ pa + o + 8 <= a) l -> save_mem R pa m l a = m a.
Proof.
  revert m. induction l as [|[r o] l IH]; intros m Hl; [done|].
  apply Forall_cons in Hl as [Ho Hl]. cbn [save_mem foldl]. fold (save_mem R pa (store64 m (pa + o) (R r)) l).
  rewrite IH by done. apply store_out. lia.
Qed.

Lemma save_mem_apart R pa l m o :
  apart o l -> load64 (save_mem R pa m l) (pa + o) = load64 m (pa + o).
Proof.
  intros Ha. apply load_ext. intros x Hx. apply save_mem_out.
  eapply Forall_impl; [exact Ha|]. intros [r o'] Hx'. cbn in Hx'. lia.
Qed.

Lemma save_mem_slot R pa l m r o :
  slots_apart l -> (r, o) ∈ l -> 0 <= R r < 2 ^ 64 -> load64 (save_mem R pa m l) (pa + o) = R r.
Proof.
  intros Ha Hin Hr. revert m. induction l as [|[r' o'] l IH]; intros m; [by apply not_elem_of_nil in Hin|].
  destruct Ha as [Ho Ha]. cbn [save_mem foldl]. fold (save_mem R pa (store64 m (pa + o') (R r')) l).
  apply elem_of_cons in Hin as [[= -> ->]|Hin].
  - rewrite save_mem_apart by done. rewrite load_store_same. by apply Z.mod_small.
  - by apply IH.
Qed.

Definition load_regs (m : mem) (pa : Z) (R : nat -> Z) (l : list (nat * Z)) : nat -> Z :=
  foldl (fun R '(r, o) r' => if (r' =? r)%nat then load64 m (pa + o) else R r') R l.

Lemma run_loads l base h pa n :
  mapped (h_satp h) (h_reg h base) pa n -> slots_in n l -> base ∉ l.*1 ->
  run (loads l base) h =
    mkHart (load_regs (h_mem h) pa (h_reg h) l) (h_mem h) (h_satp h) (h_sscratch h) (h_sepc h) (h_pc h).
Proof.
  intros Hm. revert h Hm. induction l as [|[r o] l IH]; intros h Hm Hl Hb; [by destruct h|].
  apply Forall_cons in Hl as [Ho Hl]. rewrite fmap_cons, not_elem_of_cons in Hb. destruct Hb as [Hb Hb'].
  cbn [loads fmap list_fmap run foldl exec1]. unfold ea. rewrite (Hm o Ho).
  pose proof (IH (h_set_reg r (load64 (h_mem h) (pa + o)) h)) as IH'. cbn in IH'.
  rewrite (proj2 (Nat.eqb_neq base r)) in IH' by done. apply IH'; done.
Qed.

Lemma load_regs_out m pa l R r : r ∉ l.*1 -> load_regs m pa R l r = R r.
Proof.
  revert R. induction l as [|[r' o] l IH]; intros R Hr; [done|].
  rewrite fmap_cons, not_elem_of_cons in Hr. cbn [load_regs foldl].
  match goal with |- foldl _ ?R' _ _ = _ => fold (load_regs m pa R' l) end.
  rewrite IH by tauto. cbn. by rewrite (proj2 (Nat.eqb_neq r r')) by tauto.
Qed.

Lemma load_regs_slot m pa l R r o :
  NoDup l.*1 -> (r, o) ∈ l -> load_regs m pa R l r = load64 m (pa + o).
Proof.
  revert R. induction l as [|[r' o'] l IH]; intros R Hd Hin; [by apply not_elem_of_nil in Hin|].
  rewrite fmap_cons, NoDup_cons in Hd. destruct Hd as [Hd Hd']. cbn [load_regs foldl].
  match goal with |- foldl _ ?R' _ _ = _ => fold (load_regs m pa R' l) end.
  apply elem_of_cons in Hin as [[= -> ->]|Hin].
  - rewrite load_regs_out by done. by rewrite Nat.eqb_refl.
  - by apply IH.
Qed.

(** ** User registers across a trap *)

Definition trap_slots : list (nat * Z) := (a0, 112) :: user_slots.

Definition regs_ok (h : hart) : Prop := forall r, 0 <= h_reg h r < 2 ^ 64.

Lemma user_slots_facts : slots_in 288 user_slots /\ slots_apart user_slots /\ NoDup user_slots.*1
  /\ a0 ∉ user_slots.*1 /\ apart 112 user_slots.
Proof.
  split_and!; apply (bool_decide_unpack _); by vm_compute.
Qed.

(** struct trapframe has the registers x1 to x31 in order after five words. *)
Lemma trap_slot r : (1 <= r <= 31)%nat -> (r, 32 + 8 * Z.of_nat r) ∈ trap_slots.
Proof.
  intros Hr. assert (Hall : Forall (fun r => (r, 32 + 8 * Z.of_nat r) ∈ trap_slots) (seq 1 31)) by (apply (bool_decide_unpack _); by vm_compute).
  apply (proj1 (Forall_forall _ _) Hall), elem_of_seq. lia.
Qed.

Lemma uservec_run h tf :
  regs_ok h -> mapped (h_satp h) TRAPFRAME tf 288 ->
  let h' := run uservec_code h in
  (forall r o, (r, o) ∈ trap_slots -> load64 (h_mem h') (tf + o) = h_reg h r) /\
  (forall x, x < tf + 40 \/ tf + 288 <= x -> h_mem h' x = h_mem h x) /\
  h_pc h' = load64 (h_mem h) (tf + 16) /\ h_satp h' = load64 (h_mem h) tf /\
  h_reg h' sp = load64 (h_mem h) (tf + 8) /\ h_reg h' tp = load64 (h_mem h) (tf + 32).
Proof.
  intros Hr Hm h'. destruct user_slots_facts as (Hin & Hap & _ & Ha0 & H112).
  set (h0 := h_set_reg a0 TRAPFRAME (h_set_sscratch (h_reg h a0) h)).
  set (m1 := save_mem (h_reg h0) tf (h_mem h) user_slots).
  set (m2 := store64 m1 (tf + 112) (h_reg h a0)).
  assert (Hm2 : forall x, x < tf + 40 \/ tf + 288 <= x -> m2 x = h_mem h x).
  { intros x Hx. subst m2 m1. rewrite store_out by lia. apply save_mem_out.
    unfold user_slots. rewrite !Forall_cons. split_and!; (lia || done). }
  assert (Hl : forall o, 0 <= o <= 32 -> load64 m2 (tf + o) = load64 (h_mem h) (tf + o)).
  { intros o Ho. apply load_ext. intros x Hx. apply Hm2. lia. }
  assert (Hrun : h' = run [CsrrSscratch t0; Sd t0 112 a0; Ld sp 8 a0; Ld tp 32 a0; Ld t0 16 a0; Ld t1 0 a0;
                           SfenceVma; CsrwSatp t1; SfenceVma; Jr t0] (h_set_mem m1 h0)).
  { subst h'. unfold uservec_code. rewrite !run_app. cbn [run foldl exec1]. fold h0.
    by rewrite (run_saves user_slots a0 h0 tf 288). }
  assert (Hsl : forall r o, (r, o) ∈ trap_slots -> load64 m2 (tf + o) = h_reg h r).
  { intros r o Hro. subst m2. apply elem_of_cons in Hro as [[= -> ->]|Hro].
    - rewrite load_store_same. apply Z.mod_small, Hr.
    - assert (Hne : r <> a0) by (intros ->; apply Ha0; by apply (list_elem_of_fmap_2 fst _ (a0, o))).
      pose proof (proj1 (Forall_forall _ _) H112 _ Hro) as Hx. cbn in Hx.
      assert (HR : h_reg h0 r = h_reg h r) by (subst h0; cbn -[a0]; by rewrite (proj2 (Nat.eqb_neq r a0))).
      rewrite load_store_out by lia. subst m1. rewrite save_mem_slot with (r := r); try done.
      rewrite HR. apply Hr. }
  clearbody m1. assert (Hea : forall o, 0 <= o < 288 -> tr (h_satp h) (u64 (TRAPFRAME + o)) = tf + o) by exact Hm.
  rewrite Hrun. cbn [run foldl exec1]. unfold ea. cbn -[TRAPFRAME load store u64]. rewrite !Hea by lia.
  fold m2. rewrite !Hl by lia. rewrite Z.add_0_r.
  split; [exact Hsl|split; [exact Hm2|]]. by split_and!.
Qed.

Lemma userret_run h tf :
  mapped (h_reg h a0) TRAPFRAME tf 288 ->
  let h' := run userret_code h in
  (forall r o, (r, o) ∈ trap_slots -> h_reg h' r = load64 (h_mem h) (tf + o)) /\
  h_mem h' = h_mem h /\ h_satp h' = h_reg h a0 /\ h_pc h' = h_sepc h.
Proof.
  intros Hm h'. destruct user_slots_facts as (Hin & _ & Hnd & Ha0 & _).
  set (h0 := h_set_reg a0 TRAPFRAME (h_set_satp (h_reg h a0) h)).
  assert (Hrun : h' = run [Ld a0 112 a0; Sret]
    (mkHart (load_regs (h_mem h0) tf (h_reg h0) user_slots) (h_mem h0) (h_satp h0) (h_sscratch h0) (h_sepc h0) (h_pc h0))).
  { subst h'. unfold userret_code. rewrite !run_app. cbn [run foldl exec1]. fold h0.
    by rewrite (run_loads user_slots a0 h0 tf 288). }
  rewrite Hrun. cbn [run foldl exec1]. unfold ea. cbn -[TRAPFRAME load load_regs u64].
  rewrite load_regs_out by done. subst h0. cbn -[TRAPFRAME load load_regs u64]. rewrite (Hm 112) by lia.
  split_and!; try done. intros r o Hro. apply elem_of_cons in Hro as [[= -> ->]|Hro].
  - done.
  - assert (Hne : r <> a0) by (intros ->; apply Ha0; by apply (list_elem_of_fmap_2 fst _ (a0, o))).
    rewrite (proj2 (Nat.eqb_neq r a0)) by done. by apply load_regs_slot.
Qed.

(** C24: A trap through the trampoline is transparent. uservec enters usertrap()
    (the address in the trap frame) on the kernel stack and page table of the
    trap frame, having stored each of the registers x1 to x31 in its word of
    struct trapframe, which has them in order after five words of the kernel's,
    and nothing outside those words. When userret later runs on any machine
    state, every register of x1 to x31 whose word the kernel left alone comes
    back with its user value, the user page table is installed and control goes
    to sepc. *)
Theorem trampoline_roundtrip h tf h2 :
  regs_ok h -> mapped (h_satp h) TRAPFRAME tf 288 -> mapped (h_reg h2 a0) TRAPFRAME tf 288 ->
  let h1 := run uservec_code h in
  let h3 := run userret_code h2 in
  (h_pc h1 = load64 (h_mem h) (tf + 16) /\ h_satp h1 = load64 (h_mem h) tf /\
   h_reg h1 sp = load64 (h_mem h) (tf + 8) /\ h_reg h1 tp = load64 (h_mem h) (tf + 32) /\
   (forall r, (1 <= r <= 31)%nat -> load64 (h_mem h1) (tf + 32 + 8 * Z.of_nat r) = h_reg h r) /\
   forall x, x < tf + 40 \/ tf + 288 <= x -> h_mem h1 x = h_mem h x) /\
  (forall r, (1 <= r <= 31)%nat ->
     load64 (h_mem h2) (tf + 32 + 8 * Z.of_nat r) = h_reg h r -> h_reg h3 r = h_reg h r) /\
  h_satp h3 = h_reg h2 a0 /\ h_pc h3 = h_sepc h2 /\ h_mem h3 = h_mem h2.
Proof.
  intros Hr Hm Hm2 h1 h3.
  destruct (uservec_run h tf Hr Hm) as (Hs & Ho & Hpc & Hsa & Hsp & Htp).
  destruct (userret_run h2 tf Hm2) as (Hl & Hmm & Hs3 & Hp3).
  split_and!; try done.
  - intros r Hro. rewrite <- Z.add_assoc. by apply Hs, trap_slot.
  - intros r Hro He. subst h3. by rewrite (Hl r _ (trap_slot r Hro)), Z.add_assoc.
Qed.

(** ** Kernel threads across swtch() *)

(** The registers that the C calling convention makes the callee keep. *)
Definition callee_saved : list nat := [s0; s1; s2; s3; s4; s5; s6; s7; s8; s9; s10; s11].

Lemma context_kept r : r ∈ ra :: sp :: callee_saved -> r ∈ context_slots.*1.
Proof.
  assert (Hall : Forall (fun r => r ∈ context_slots.*1) (ra :: sp :: callee_saved)) by (apply (bool_decide_unpack _); by vm_compute).
  exact (proj1 (Forall_forall _ _) Hall r).
Qed.

Lemma context_slots_facts : slots_in 112 context_slots /\ slots_apart context_slots
  /\ NoDup context_slots.*1 /\ a1 ∉ context_slots.*1 /\ slots_in 105 context_slots.
Proof.
  split_and!; apply (bool_decide_unpack _); by vm_compute.
Qed.

Lemma swtch_run h old new :
  regs_ok h -> mapped (h_satp h) (h_reg h a0) old 112 -> mapped (h_satp h) (h_reg h a1) new 112 ->
  old + 112 <= new \/ new + 112 <= old ->
  let h' := run swtch_code h in
  (forall r o, (r, o) ∈ context_slots ->
     load64 (h_mem h') (old + o) = h_reg h r /\ h_reg h' r = load64 (h_mem h) (new + o)) /\
  (forall x, x < old \/ old + 112 <= x -> h_mem h' x = h_mem h x) /\
  h_satp h' = h_satp h /\ h_pc h' = load64 (h_mem h) new.
Proof.
  intros Hr Ho Hn Hd h'. destruct context_slots_facts as (Hin & Hap & Hnd & Ha1 & Hin').
  set (m1 := save_mem (h_reg h) old (h_mem h) context_slots).
  assert (Hm1 : forall x, x < old \/ old + 112 <= x -> m1 x = h_mem h x).
  { intros x Hx. apply save_mem_out. eapply Forall_impl; [exact Hin'|].
    intros [r o] Ho'. cbn in Ho'. lia. }
  assert (Hrun : h' = run [Jr ra] (mkHart (load_regs m1 new (h_reg h) context_slots) m1 (h_satp h)
                          (h_sscratch h) (h_sepc h) (h_pc h))).
  { subst h'. unfold swtch_code. rewrite !run_app. rewrite (run_saves context_slots a0 h old 112) by done.
    by rewrite (run_loads context_slots a1 _ new 112). }
  assert (Hnew : forall o, 0 <= o <= 104 -> load64 m1 (new + o) = load64 (h_mem h) (new + o)).
  { intros o Hx. apply load_ext. intros x Hx'. apply Hm1. lia. }
  clearbody h'. subst h'. cbn -[load load_regs m1]. split_and!; try done.
  - intros r o Hro. split.
    + by apply save_mem_slot.
    + rewrite (load_regs_slot _ _ _ _ r o) by done. apply Hnew.
      pose proof (proj1 (Forall_forall _ _) Hin' _ Hro) as Hx. cbn in Hx. lia.
  - rewrite (load_regs_slot _ _ _ _ ra 0); [|done|by left]. rewrite Hnew, Z.add_0_r by lia. done.
Qed.

(** C25: A kernel thread that swtch()es away continues where it was. The call
    writes its context and nothing else, and jumps to the ra of the other
    context. When any hart later switches to that context, unchanged, ra, sp and
    the registers s0 to s11, which C code expects a call to keep, have their old
    values and control returns after the first call. *)
Theorem swtch_resumes h old new h2 old2 :
  regs_ok h -> mapped (h_satp h) (h_reg h a0) old 112 -> mapped (h_satp h) (h_reg h a1) new 112 ->
  old + 112 <= new \/ new + 112 <= old ->
  regs_ok h2 -> mapped (h_satp h2) (h_reg h2 a0) old2 112 -> mapped (h_satp h2) (h_reg h2 a1) old 112 ->
  old2 + 112 <= old \/ old + 112 <= old2 ->
  let h1 := run swtch_code h in
  let h3 := run swtch_code h2 in
  (forall x, old <= x < old + 112 -> h_mem h2 x = h_mem h1 x) ->
  (forall x, x < old \/ old + 112 <= x -> h_mem h1 x = h_mem h x) /\
  h_pc h1 = load64 (h_mem h) new /\
  (forall r, r ∈ ra :: sp :: callee_saved -> h_reg h3 r = h_reg h r) /\ h_pc h3 = h_reg h ra.
Proof.
  intros Hr Ho Hn Hd Hr2 Ho2 Hn2 Hd2 h1 h3 Hmem.
  destruct (swtch_run h old new Hr Ho Hn Hd) as (Hs & Hout & _ & Hpc).
  destruct (swtch_run h2 old2 old Hr2 Ho2 Hn2 Hd2) as (Hs2 & _ & _ & Hpc2).
  destruct context_slots_facts as (_ & _ & _ & _ & Hin).
  assert (Hback : forall r o, (r, o) ∈ context_slots -> load64 (h_mem h2) (old + o) = h_reg h r).
  { intros r o Hro. rewrite <- (proj1 (Hs r o Hro)). apply load_ext. intros x Hx. apply Hmem.
    pose proof (proj1 (Forall_forall _ _) Hin _ Hro) as Hx'. cbn in Hx'. lia. }
  split_and!; [exact Hout|exact Hpc| |].
  - intros r Hin'%context_kept. apply list_elem_of_fmap in Hin' as ([r' o] & -> & Hro). cbn [fst].
    subst h3. rewrite (proj2 (Hs2 r' o Hro)). by apply Hback.
  - subst h3. rewrite Hpc2, <- (Hback ra 0) by (by left). by rewrite Z.add_0_r.
Qed.

(** ** Kernel code across an interrupt *)

Definition kernelvec_saved : list (nat * Z) :=
  [(ra, 0); (sp, 8); (gp, 16); (tp, 24); (t0, 32); (t1, 40); (t2, 48); (a0, 72); (a1, 80);
   (a2, 88); (a3, 96); (a4, 104); (a5, 112); (a6, 120); (a7, 128); (t3, 216); (t4, 224);
   (t5, 232); (t6, 240)].

Lemma kernelvec_facts : slots_in 249 kernelvec_saved /\ slots_apart kernelvec_saved
  /\ NoDup kernelvec_slots.*1 /\ sp ∉ kernelvec_slots.*1 /\ ra ∉ kernelvec_slots.*1
  /\ kernelvec_slots ⊆ kernelvec_saved.
Proof. split_and!; apply (bool_decide_unpack _); by vm_compute. Qed.

Lemma kernelvec_save_run h pa :
  let frame := h_reg h sp - 256 in
  regs_ok h -> 256 <= h_reg h sp -> mapped (h_satp h) frame pa 256 ->
  let h' := run kernelvec_save h in
  h_reg h' sp = frame /\ load64 (h_mem h') (pa + 8) = frame /\
  (forall r o, (r, o) ∈ kernelvec_saved -> r <> sp -> load64 (h_mem h') (pa + o) = h_reg h r) /\
  (forall x, x < pa \/ pa + 256 <= x -> h_mem h' x = h_mem h x) /\ h_satp h' = h_satp h.
Proof.
  intros frame Hr Hsp Hm h'. destruct kernelvec_facts as (Hin & Hap & _).
  set (h0 := h_set_reg sp (u64 (h_reg h sp + -256)) h).
  assert (Hf : h_reg h0 sp = frame).
  { subst h0 frame. cbn -[u64]. pose proof (Hr sp). rewrite u64_small; unfold sp in *; lia. }
  assert (Hr0 : forall r, 0 <= h_reg h0 r < 2 ^ 64).
  { intros r. subst h0. cbn -[u64]. destruct (r =? sp)%nat; [apply Z.mod_pos_bound; lia|apply Hr]. }
  assert (Hrun : h' = h_set_mem (save_mem (h_reg h0) pa (h_mem h0) kernelvec_saved) h0).
  { subst h'. unfold kernelvec_save. change (run (_ :: ?l) h) with (run l h0).
    apply run_saves with (n := 256); [by rewrite Hf|]. eapply Forall_impl; [exact Hin|]. cbn. lia. }
  clearbody h'. subst h'. cbn [h_mem h_reg h_set_mem h_satp].
  split_and!; [done| | | |done].
  - rewrite <- Hf. apply save_mem_slot; [done|right; left|apply Hr0].
  - intros r o Hro Hne. rewrite (save_mem_slot _ _ _ _ r o) by done. subst h0. cbn -[sp u64].
    by rewrite (proj2 (Nat.eqb_neq r sp)).
  - intros x Hx. apply save_mem_out. eapply Forall_impl; [exact Hin|]. intros [r o]. cbn. lia.
Qed.

Lemma kernelvec_restore_run h pa frame :
  0 <= frame < 2 ^ 64 - 256 -> mapped (h_satp h) frame pa 256 -> h_reg h sp = frame ->
  load64 (h_mem h) (pa + 8) = frame ->
  let h' := run kernelvec_restore h in
  h_reg h' sp = frame + 256 /\ h_reg h' ra = load64 (h_mem h) (pa + 0) /\
  (forall r o, (r, o) ∈ kernelvec_slots -> h_reg h' r = load64 (h_mem h) (pa + o)) /\
  (forall r, r ∉ [ra; sp] -> r ∉ kernelvec_slots.*1 -> h_reg h' r = h_reg h r) /\
  h_pc h' = h_sepc h.
Proof.
  intros Hb Hm Hsp Hfr h'. destruct kernelvec_facts as (Hin & _ & Hnd & Hnsp & Hnra & Hsub).
  set (h0 := h_set_reg sp frame (h_set_reg ra (load64 (h_mem h) (pa + 0)) h)).
  assert (Hpre : run [Ld ra 0 sp; Ld sp 8 sp] h = h0).
  { cbn [run foldl exec1]. unfold ea. cbn -[load u64]. by rewrite Hsp, (Hm 0), (Hm 8), Hfr by lia. }
  assert (Hrun : h' = run [Addi sp sp 256; Sret]
     (mkHart (load_regs (h_mem h0) pa (h_reg h0) kernelvec_slots) (h_mem h0) (h_satp h0) (h_sscratch h0) (h_sepc h0) (h_pc h0))).
  { subst h'. unfold kernelvec_restore. rewrite !run_app, Hpre.
    rewrite (run_loads kernelvec_slots sp h0 pa 256); try done.
    apply (bool_decide_unpack _). by vm_compute. }
  clearbody h'. subst h'. cbn [run foldl exec1 h_set_reg h_set_pc h_reg h_pc h_sepc].
  rewrite load_regs_out by done. split_and!; [| | | |done].
  - rewrite Nat.eqb_refl. subst h0. cbn -[u64]. rewrite u64_small by lia. done.
  - change (ra =? sp)%nat with false. cbn iota. by rewrite load_regs_out.
  - intros r o Hro. assert (Hne : r <> sp) by (intros ->; apply Hnsp; by apply (list_elem_of_fmap_2 fst _ (sp, o))).
    rewrite (proj2 (Nat.eqb_neq r sp)) by done. by apply load_regs_slot.
  - intros r Hr Hr'. rewrite !not_elem_of_cons in Hr. destruct Hr as (Hra & Hrs & _).
    rewrite (proj2 (Nat.eqb_neq r sp)), load_regs_out by done. subst h0. cbn -[sp ra].
    by rewrite (proj2 (Nat.eqb_neq r sp)), (proj2 (Nat.eqb_neq r ra)) by done.
Qed.

Lemma kernel_reg_cases r :
  (1 <= r <= 31)%nat -> r = ra \/ r = sp \/ r = tp \/ r ∈ callee_saved \/ r ∈ kernelvec_slots.*1.
Proof.
  intros Hr. assert (Hall : Forall (fun r => r = ra \/ r = sp \/ r = tp \/ r ∈ callee_saved \/ r ∈ kernelvec_slots.*1)
                        (seq 1 31)) by (apply (bool_decide_unpack _); by vm_compute).
  apply (proj1 (Forall_forall _ _) Hall), elem_of_seq. lia.
Qed.

Lemma kept_regs r : r ∈ tp :: callee_saved -> r ∉ [ra; sp] /\ r ∉ kernelvec_slots.*1.
Proof.
  assert (Hall : Forall (fun r => r ∉ [ra; sp] /\ r ∉ kernelvec_slots.*1) (tp :: callee_saved))
    by (apply (bool_decide_unpack _); by vm_compute).
  exact (proj1 (Forall_forall _ _) Hall r).
Qed.

(** An interrupt in the kernel is transparent. kernelvec stores the
    caller-saved registers in the 256 bytes below sp and nothing else. Given a
    handler that keeps sp, the callee-saved registers and that frame, the code
    after the call brings every register of the interrupted code back except
    tp, which stays the hart id of the CPU it returns on, and returns to sepc. *)
Theorem kernelvec_transparent h pa h2 :
  let frame := h_reg h sp - 256 in
  let h1 := run kernelvec_save h in
  let h3 := run kernelvec_restore h2 in
  regs_ok h -> 256 <= h_reg h sp -> mapped (h_satp h) frame pa 256 -> mapped (h_satp h2) frame pa 256 ->
  h_reg h2 sp = frame -> (forall r, r ∈ callee_saved -> h_reg h2 r = h_reg h r) ->
  (forall x, pa <= x < pa + 256 -> h_mem h2 x = h_mem h1 x) ->
  (forall x, x < pa \/ pa + 256 <= x -> h_mem h1 x = h_mem h x) /\
  (forall r, (1 <= r <= 31)%nat -> r <> tp -> h_reg h3 r = h_reg h r) /\
  h_reg h3 tp = h_reg h2 tp /\ h_pc h3 = h_sepc h2.
Proof.
  intros frame h1 h3 Hr Hsp Hm Hm2 Hsp2 Hcs Hmem.
  destruct (kernelvec_save_run h pa Hr Hsp Hm) as (_ & Hfr & Hsl & Hout & _). fold h1 in Hfr, Hsl, Hout.
  destruct kernelvec_facts as (Hin & _ & _ & _ & _ & Hsub).
  assert (Hback : forall r o, (r, o) ∈ kernelvec_saved -> load64 (h_mem h2) (pa + o) = load64 (h_mem h1) (pa + o)).
  { intros r o Hro. apply load_ext. intros x Hx. apply Hmem.
    pose proof (proj1 (Forall_forall _ _) Hin _ Hro) as Hx'. cbn [snd] in Hx'. lia. }
  assert (Hra : (ra, 0) ∈ kernelvec_saved) by left. assert (Hs8 : (sp, 8) ∈ kernelvec_saved) by (right; left).
  destruct (kernelvec_restore_run h2 pa frame) as (H3s & H3r & H3l & H3k & H3p); try done.
  { pose proof (Hr sp). subst frame. lia. }
  { by rewrite (Hback sp 8). }
  fold h3 in H3s, H3r, H3l, H3k, H3p. split_and!; [exact Hout| | |exact H3p].
  - intros r Hrange Htp. destruct (kernel_reg_cases r Hrange) as [-> | [-> | [-> | [Hc | Hc]]]].
    + rewrite H3r, (Hback ra 0 Hra). by apply Hsl.
    + rewrite H3s. subst frame. lia.
    + done.
    + destruct (kept_regs r) as [? ?]; [by right|]. rewrite H3k by done. by apply Hcs.
    + apply list_elem_of_fmap in Hc as ([r' o] & -> & Hro). cbn [fst] in *.
      rewrite (H3l r' o Hro), (Hback r' o) by (by apply Hsub). apply Hsl; [by apply Hsub|].
      intros ->. destruct kernelvec_facts as (_ & _ & _ & Hn & _).
      apply Hn. by apply (list_elem_of_fmap_2 fst _ (sp, o)).
  - destruct (kept_regs tp) as [? ?]; [left|]. by apply H3k.
Qed.

End Asm.

(** ** An example machine: translation is the identity, register [r] holds
    1000 [r]. *)
Module AsmExample.

Definition idtr (_ a : Z) : Z := a.
Definition example_hart (v : Z) : hart :=
  mkHart (fun r => if (r <? 32)%nat then 1000 * Z.of_nat r + v else 0) (fun _ => 0) 0 0 0x80001234 0.

Lemma example_regs v : 0 <= v < 1000 -> regs_ok (example_hart v).
Proof. intros Hv r. cbn [example_hart h_reg]. destruct (Nat.ltb_spec r 32); lia. Qed.

Lemma id_mapped satp va n : 0 <= va -> va + n <= 2 ^ 64 -> mapped idtr satp va va n.
Proof. intros Hva Hn o Ho. unfold idtr. apply u64_small. lia. Qed.

Lemma trampoline_roundtrip_witness :
  h_reg (run idtr userret_code (run idtr uservec_code (example_hart 0))) a7 = 17000.
Proof.
  refine (proj1 (proj2 (trampoline_roundtrip idtr (example_hart 0) TRAPFRAME
            (run idtr uservec_code (example_hart 0)) _ _ _)) a7 _ eq_refl).
  - apply example_regs. lia.
  - apply id_mapped; unfold TRAPFRAME; by vm_compute.
  - apply id_mapped; unfold TRAPFRAME; by vm_compute.
  - unfold a7. lia.
Defined.

(** A second thread that switches to the first one's context, at 10000. *)
Definition example_back : hart :=
  mkHart (fun r => if (r =? a0)%nat then 20000 else if (r =? a1)%nat then 10000 else 0)
    (h_mem (run idtr swtch_code (example_hart 0))) 0 0 0 0.

Lemma h_mem_mk R m a b c d : h_mem (mkHart R m a b c d) = m.
Proof. reflexivity. Qed.

Lemma example_back_mem : h_mem example_back = h_mem (run idtr swtch_code (example_hart 0)).
Proof. unfold example_back. apply h_mem_mk. Qed.

Lemma swtch_resumes_witness :
  h_reg (run idtr swtch_code example_back) s3 = 19000 /\
  h_pc (run idtr swtch_code example_back) = 1000.
Proof.
  destruct (swtch_resumes idtr (example_hart 0) 10000 11000 example_back 20000) as (_ & _ & Hr & Hpc).
  - apply example_regs. lia.
  - apply id_mapped; by vm_compute.
  - apply id_mapped; by vm_compute.
  - by left.
  - intros r. cbn [example_back h_reg]. destruct (r =? a0)%nat, (r =? a1)%nat; lia.
  - apply id_mapped; by vm_compute.
  - apply id_mapped; by vm_compute.
  - by right.
  - intros x _. by rewrite example_back_mem.
  - split; [|exact Hpc]. apply (Hr s3). apply (bool_decide_unpack _). by vm_compute.
Defined.

(** The handler returns on hart 3. *)
Definition example_handled : hart := h_set_reg tp 3 (run idtr kernelvec_save (example_hart 0)).

Lemma example_handled_mem : h_mem example_handled = h_mem (run idtr kernelvec_save (example_hart 0)).
Proof. unfold example_handled, h_set_reg. apply h_mem_mk. Qed.

Lemma kernelvec_transparent_witness :
  h_reg (run idtr kernelvec_restore example_handled) a5 = 15000 /\
  h_reg (run idtr kernelvec_restore example_handled) tp = 3.
Proof.
  destruct (kernelvec_transparent idtr (example_hart 0) 1744 example_handled) as (_ & Hr & Htp & _).
  - apply example_regs. lia.
  - by vm_compute.
  - apply id_mapped; by vm_compute.
  - apply id_mapped; by vm_compute.
  - done.
  - intros r Hr. unfold callee_saved in Hr. rewrite !elem_of_cons in Hr.
    destruct_or! Hr; try (subst r; reflexivity). by apply not_elem_of_nil in Hr.
  - intros x _. by rewrite example_handled_mem.
  - split; [apply (Hr a5); [unfold a5; lia|done]|exact Htp].
Defined.

End AsmExample.
