(* ===== verification/User.v ===== *)
(** user/user.h, user/usys.pl, user/ulib.c and user/printf.c: how a user
    program is modelled, and the C library it is linked with.

    A user program is a [prog]: it computes on its own memory and now and
    then makes a system call, whose result and whose bytes stored in user
    memory the kernel chooses. [run] executes a program against any kernel
    given as a function on a state. A [char*] is the list of bytes from the
    pointer on, and a read past the end of the list gives 0, as in [StringC];
    char is unsigned on RISC-V. *)

From S2P Require Import Prelude Riscv StringC.

(** ** Programs

    The system calls of user.h with the arguments the kernel reads from user
    memory in place of the pointers to them. [SYS_raw] is a call whose argument
    is not a pointer to something the program has there, given by its number in
    syscall.h. [Load] and [Store] are accesses to memory whose pages the kernel
    may have to provide or refuse: an access can enter the kernel with a page
    fault. The answer holds the byte, or no byte when the kernel kills the
    process. *)
Inductive rarg :=
| RInt (v : Z)
| RStr (s : list Z)
| RArr (l : list rarg).

Inductive sysc :=
| SYS_fork
| SYS_wait
| SYS_pipe
| SYS_write (fd : Z) (bytes : list Z)
| SYS_read (fd n : Z)
| SYS_close (fd : Z)
| SYS_kill (pid : Z)
| SYS_exec (path : list Z) (argv : list (list Z))
| SYS_open (path : list Z) (omode : Z)
| SYS_mknod (path : list Z) (major minor : Z)
| SYS_unlink (path : list Z)
| SYS_fstat (fd : Z)
| SYS_link (old new : list Z)
| SYS_mkdir (path : list Z)
| SYS_chdir (path : list Z)
| SYS_dup (fd : Z)
| SYS_getpid
| SYS_sbrk (n : Z)
| SYS_sleep (n : Z)
| SYS_uptime
| SYS_mmap (addr len prot flags fd offset : Z)
| SYS_munmap (addr len : Z)
| SYS_raw (num : Z) (args : list rarg)
| Load (addr : Z)
| Store (addr b : Z).

(** The value in a0 and the bytes the kernel stored for the caller. *)
Record answer := mkAnswer { a_val : Z; a_out : list Z }.

(** [Exit] is the call of exit(), which does not return; [Fuel] is a loop
    that used up the bound the definition was given. *)
Inductive prog (A : Type) : Type :=
| Ret (a : A)
| Sys (c : sysc) (k : answer -> prog A)
| Exit (st : Z)
| Fuel.
Arguments Ret {A} a.
Arguments Sys {A} c k.
Arguments Exit {A} st.
Arguments Fuel {A}.

Fixpoint pbind {A B} (p : prog A) (f : A -> prog B) : prog B :=
  match p with
  | Ret a => f a
  | Sys c k => Sys c (fun r => pbind (k r) f)
  | Exit st => Exit st
  | Fuel => Fuel
  end.

(** The stub usys.pl generates for a call: [ecall], and the value of a0. *)
Definition ecall (c : sysc) : prog answer := Sys c Ret.
Definition call (c : sysc) : prog Z := Sys c (fun r => Ret (a_val r)).

Declare Scope prog_scope.
Delimit Scope prog_scope with prog.
Notation "x <- m ;; k" := (pbind m (fun x => k))
  (at level 100, m at next level, k at level 200, right associativity) : prog_scope.
Notation "' p <- m ;; k" := (pbind m (fun x => match x with p => k end))
  (at level 20, p pattern, m at level 99, k at level 200) : prog_scope.
Notation "m ;; k" := (pbind m (fun _ => k))
  (at level 100, k at level 200, right associativity) : prog_scope.
Notation "'when' b 'do' m" := (if b then m else Ret tt)
  (at level 100, b at level 200, m at level 200) : prog_scope.
Local Open Scope prog_scope.

(** A [for] loop over known values, without early exit. *)
Fixpoint ploop {A} (l : list A) (f : A -> prog unit) : prog unit :=
  match l with
  | [] => Ret tt
  | x :: l => f x;; ploop l f
  end.

Inductive outcome (W A : Type) : Type :=
| Returned (a : A) (w : W)
| Exited (st : Z) (w : W)
| OutOfFuel.
Arguments Returned {W A} a w.
Arguments Exited {W A} st w.
Arguments OutOfFuel {W A}.

Fixpoint run {W A} (os : sysc -> W -> answer * W) (p : prog A) (w : W) : outcome W A :=
  match p with
  | Ret a => Returned a w
  | Sys c k => let '(r, w) := os c w in run os (k r) w
  | Exit st => Exited st w
  | Fuel => OutOfFuel
  end.

Lemma run_bind {W A B} os (p : prog A) (f : A -> prog B) : forall w : W,
  run os (pbind p f) w =
    match run os p w with
    | Returned a w => run os (f a) w
    | Exited st w => Exited st w
    | OutOfFuel => OutOfFuel
    end.
Proof.
  induction p as [a|c k IH|st|]; intros w; cbn; try done. destruct (os c w) as [r w']. apply IH.
Qed.

Lemma run_bind_ret {W A B} os (p : prog A) (f : A -> prog B) (w : W) a w' :
  run os p w = Returned a w' -> run os (pbind p f) w = run os (f a) w'.
Proof. intros H. by rewrite run_bind, H. Qed.

Lemma run_call {W A} os c (f : Z -> prog A) (w : W) :
  run os (pbind (call c) f) w = run os (f (a_val (fst (os c w)))) (snd (os c w)).
Proof. cbn. by destruct (os c w). Qed.

Lemma run_ecall {W A} os c (f : answer -> prog A) (w : W) :
  run os (pbind (ecall c) f) w = run os (f (fst (os c w))) (snd (os c w)).
Proof. cbn. by destruct (os c w). Qed.

(** ** ulib.c *)

Module Ulib.

(** The bytes stored at [s]. *)
Fixpoint strcpy (t : list Z) : list Z :=
  match t with
  | [] => [0]
  | c :: t => if c_true c then c :: strcpy t else [0]
  end.

Fixpoint strcmp (p q : list Z) : Z :=
  match p with
  | [] => 0 - hd 0 q
  | c :: p => if c_true c && (c =? hd 0 q) then strcmp p (tail q) else c - hd 0 q
  end.

Fixpoint strlen (s : list Z) : Z :=
  match s with
  | [] => 0
  | c :: s => if c_true c then 1 + strlen s else 0
  end.

Definition memset (m : mem) (dst c n : Z) : mem := memset_loop (Z.to_nat n) m dst 0 c.

(** The offset of the character from [s], or the null pointer. *)
Fixpoint strchr (s : list Z) (c : Z) : option nat :=
  match s with
  | [] => None
  | x :: s => if c_true x then if x =? c then Some O else S <$> strchr s c else None
  end.

(** The body of the loop, [i] characters already stored; [fuel] bounds the
    iterations left, and [max] of them are enough. *)
Fixpoint gets_loop (fuel : nat) (max i : Z) (buf : list Z) : prog (list Z) :=
  if i + 1 <? max then
    match fuel with
    | O => Fuel
    | S fuel =>
        r <- ecall (SYS_read 0 1);;
        if a_val r <? 1 then Ret buf else
        let c := hd 0 (a_out r) in
        let buf := buf ++ [c] in
        if (c =? 10) || (c =? 13) then Ret buf else gets_loop fuel max (i + 1) buf
    end
  else Ret buf.

(** The bytes stored at [buf], up to and including the terminator. *)
Definition gets (max : Z) : prog (list Z) :=
  buf <- gets_loop (Z.to_nat max) max 0 [];;
  Ret (buf ++ [0]).

(** The return value and the bytes of [*st] (the kernel's answer to fstat). *)
Definition stat (n : list Z) : prog (Z * list Z) :=
  fd <- call (SYS_open n O_RDONLY);;
  if fd <? 0 then Ret (-1, []) else
  r <- ecall (SYS_fstat fd);;
  call (SYS_close fd);;
  Ret (a_val r, a_out r).

Fixpoint atoi_loop (s : list Z) (n : Z) : Z :=
  match s with
  | [] => n
  | c :: s => if (48 <=? c) && (c <=? 57) then atoi_loop s (s32 (n * 10 + c - 48)) else n
  end.

Definition atoi (s : list Z) : Z := atoi_loop s 0.

Definition memmove (m : mem) (dst src n : Z) : mem :=
  if dst <? src then copy_up (Z.to_nat n) m dst src
  else copy_down (Z.to_nat n) m (dst + n) (src + n).

Fixpoint memcmp (n : nat) (m : mem) (s1 s2 : Z) : Z :=
  match n with
  | O => 0
  | S n => if m s1 =? m s2 then memcmp n m (s1 + 1) (s2 + 1) else m s1 - m s2
  end.

Definition memcpy (m : mem) (dst src n : Z) : mem := memmove m dst src n.

(** start(): main() and then exit(). *)
Definition start (main : prog Z) : prog Z := main;; Exit 0.

End Ulib.

(** ** printf.c *)

Module Uprintf.

Definition digits : list Z := chars "0123456789ABCDEF".

Definition putc (fd c : Z) : prog unit := call (SYS_write fd [u8 c]);; Ret tt.

(** [do buf[i++] = digits[x % base]; while((x /= base) != 0)], where 32
    iterations are enough for a 32-bit [x]. *)
Fixpoint printint_loop (fuel : nat) (x base : Z) (buf : list Z) : list Z :=
  match fuel with
  | O => buf
  | S fuel =>
      let buf := buf ++ [nth (Z.to_nat (x mod base)) digits 0] in
      let x := x / base in
      if x =? 0 then buf else printint_loop fuel x base buf
  end.

(** [xx] is an int: a 64-bit argument is converted at the call. *)
Definition printint (fd xx base : Z) (sgn : bool) : prog unit :=
  let neg := sgn && (xx <? 0) in
  let x := if neg then u32 (- xx) else u32 xx in
  let buf := printint_loop 32 x base [] in
  let buf := if neg then buf ++ [45] else buf in
  ploop (reverse buf) (putc fd).

Fixpoint printptr_loop (n : nat) (fd x : Z) : prog unit :=
  match n with
  | O => Ret tt
  | S n => putc fd (nth (Z.to_nat (Z.shiftr x 60)) digits 0);; printptr_loop n fd (u64 (Z.shiftl x 4))
  end.

Definition printptr (fd x : Z) : prog unit :=
  putc fd 48;; putc fd 120;; printptr_loop 16 fd x.

(** The arguments of a call: a 64-bit register value, or a string (the null
    pointer is [VStr None]). An argument that is missing reads as 0. *)
Inductive varg := VInt (v : Z) | VStr (s : option (list Z)).

Definition va_word (ap : list varg) : Z * list varg :=
  match ap with
  | VInt v :: ap => (v, ap)
  | _ :: ap => (0, ap)
  | [] => (0, [])
  end.

Definition va_string (ap : list varg) : list Z * list varg :=
  match ap with
  | VStr (Some s) :: ap => (cstr s, ap)
  | _ :: ap => (chars "(null)", ap)
  | [] => (chars "(null)", [])
  end.

(** The directive after a % sign: what it prints, the arguments left and the
    number of characters it takes. *)
Definition vprintf_conv (fd : Z) (fmt : list Z) (ap : list varg) : (prog unit * list varg) * nat :=
  let c0 := hd 0 fmt in
  let c1 := if c_true c0 then hd 0 (tail fmt) else 0 in
  let c2 := if c_true c1 then hd 0 (tail (tail fmt)) else 0 in
  let int base sgn := let '(v, ap) := va_word ap in (printint fd (s32 v) base sgn, ap) in
  if c0 =? 100 then (int 10 true, 1%nat)
  else if (c0 =? 108) && (c1 =? 100) then (int 10 true, 2%nat)
  else if (c0 =? 108) && (c1 =? 108) && (c2 =? 100) then (int 10 true, 3%nat)
  else if c0 =? 117 then (int 10 false, 1%nat)
  else if (c0 =? 108) && (c1 =? 117) then (int 10 false, 2%nat)
  else if (c0 =? 108) && (c1 =? 108) && (c2 =? 117) then (int 10 false, 3%nat)
  else if c0 =? 120 then (int 16 false, 1%nat)
  else if (c0 =? 108) && (c1 =? 120) then (int 16 false, 2%nat)
  else if (c0 =? 108) && (c1 =? 108) && (c2 =? 120) then (int 16 false, 3%nat)
  else if c0 =? 112 then (let '(v, ap) := va_word ap in (printptr fd v, ap), 1%nat)
  else if c0 =? 115 then (let '(s, ap) := va_string ap in (ploop s (putc fd), ap), 1%nat)
  else if c0 =? 37 then ((putc fd 37, ap), 1%nat)
  else ((putc fd 37;; putc fd c0, ap), 1%nat).

(** One iteration per character of the format; [fuel] is its length. A % that
    ends the format leaves the state at % and prints nothing. *)
Fixpoint vprintf_loop (fuel : nat) (fd : Z) (fmt : list Z) (ap : list varg) : prog unit :=
  match fuel with
  | O => Ret tt
  | S fuel =>
      match fmt with
      | [] => Ret tt
      | c :: fmt =>
          if c =? 0 then Ret tt else
          if negb (c =? 37) then putc fd c;; vprintf_loop fuel fd fmt ap else
          if hd 0 fmt =? 0 then Ret tt else
          let '((out, ap), n) := vprintf_conv fd fmt ap in
          out;; vprintf_loop fuel fd (drop n fmt) ap
      end
  end.

Definition vprintf (fd : Z) (fmt : list Z) (ap : list varg) : prog unit :=
  vprintf_loop (length fmt) fd fmt ap.

Definition fprintf (fd : Z) (fmt : list Z) (ap : list varg) : prog unit := vprintf fd fmt ap.
Definition printf (fmt : list Z) (ap : list varg) : prog unit := vprintf 1 fmt ap.

End Uprintf.

(** A literal that ends in a newline. *)
Definition line (s : string) : list Z := chars s ++ [10].

(** ** Idioms of the programs *)

Definition O_CREATE_RDWR : Z := Z.lor O_CREATE O_RDWR.

(** [wait(&st)], where [st] held [old]. *)
Definition wait_status (old : Z) : prog Z :=
  r <- ecall SYS_wait;;
  Ret (if a_out r is [] then old else s32 (get_le 4 (a_out r) 0)).

(** What [read(fd, buf, n)] leaves in [buf]. *)
Definition read_into (fd n : Z) (buf : list Z) : prog (list Z) :=
  r <- ecall (SYS_read fd n);;
  Ret (a_out r ++ drop (length (a_out r)) buf).

(** A fatal access ends the process as the kernel does, with status -1. *)
Definition load (a : Z) : prog Z :=
  r <- ecall (Load a);;
  match a_out r with
  | [] => Exit (-1)
  | b :: _ => Ret b
  end.

Definition store (a b : Z) : prog unit :=
  r <- ecall (Store a b);;
  match a_out r with
  | [] => Exit (-1)
  | _ => Ret tt
  end.

(** ** Traces *)

(** The calls of a run with the answers to them. *)
Fixpoint trace {W A} (os : sysc -> W -> answer * W) (p : prog A) (w : W) : list (sysc * answer) :=
  match p with
  | Sys c k => let '(r, w) := os c w in (c, r) :: trace os (k r) w
  | _ => []
  end.

Lemma trace_bind {W A B} os (p : prog A) (f : A -> prog B) : forall w : W,
  trace os (pbind p f) w = trace os p w ++ match run os p w with Returned a w => trace os (f a) w | _ => [] end.
Proof. induction p as [a|c k IH|st|]; intros w; cbn; try done. destruct (os c w) as [r w']. cbn. by rewrite IH. Qed.

Lemma trace_call {W A} os c (f : Z -> prog A) (w : W) :
  trace os (pbind (call c) f) w = (c, (os c w).1) :: trace os (f (a_val (os c w).1)) (os c w).2.
Proof. cbn. by destruct (os c w). Qed.

(** Programs that only write, such as printf(): they return. *)
Fixpoint writes_only {A} (p : prog A) : Prop :=
  match p with
  | Ret _ => True
  | Sys (SYS_write _ _) k => forall r, writes_only (k r)
  | _ => False
  end.

Lemma writes_bind {A B} (p : prog A) (f : A -> prog B) : writes_only p -> (forall a, writes_only (f a)) -> writes_only (pbind p f).
Proof. intros Hp Hf. induction p as [a|c k IH|st|]; try done; [apply Hf|]. destruct c; try done. intros r. by apply IH. Qed.

Create HintDb prog.
#[export] Hint Resolve writes_bind : prog.

Lemma writes_ploop {A} (l : list A) f : (forall x, writes_only (f x)) -> writes_only (ploop l f).
Proof. intros Hf. induction l as [|x l IH]; cbn; auto with prog. Qed.
#[export] Hint Resolve writes_ploop : prog.

Lemma writes_putc fd c : writes_only (Uprintf.putc fd c).
Proof. done. Qed.
#[export] Hint Resolve writes_putc : prog.

Lemma writes_printptr n fd : forall x, writes_only (Uprintf.printptr_loop n fd x).
Proof. induction n as [|n IH]; intros x; cbn -[Uprintf.putc]; auto with prog. Qed.

Lemma writes_printint fd x base sgn : writes_only (Uprintf.printint fd x base sgn).
Proof. apply writes_ploop, writes_putc. Qed.

Lemma writes_conv fd fmt ap : writes_only (Uprintf.vprintf_conv fd fmt ap).1.1.
Proof.
  unfold Uprintf.vprintf_conv, Uprintf.printptr. destruct (Uprintf.va_word ap), (Uprintf.va_string ap). cbv zeta.
  repeat match goal with |- writes_only (if ?b then _ else _).1.1 => destruct b end; cbn [fst];
    repeat (apply writes_printint || apply writes_printptr || apply writes_ploop || apply writes_putc || apply writes_bind || intros); done.
Qed.

Lemma writes_vprintf n fd : forall fmt ap, writes_only (Uprintf.vprintf_loop n fd fmt ap).
Proof.
  induction n as [|n IH]; intros fmt ap; [done|]. cbn -[Uprintf.vprintf_conv Uprintf.putc]. destruct fmt as [|c fmt]; [done|].
  destruct (c =? 0); [done|]. destruct (negb _); [auto with prog|]. destruct (_ =? 0); [done|].
  pose proof (writes_conv fd fmt ap) as H. destruct (Uprintf.vprintf_conv fd fmt ap) as [[out ap'] k]. auto with prog.
Qed.

Lemma writes_printf fmt ap : writes_only (Uprintf.printf fmt ap).
Proof. apply writes_vprintf. Qed.
#[export] Hint Resolve writes_printf : prog.

(** The exit statuses that wait() delivered. *)
Definition status_of (old : Z) (r : answer) : Z := if a_out r is [] then old else s32 (get_le 4 (a_out r) 0).
Definition statuses (tr : list (sysc * answer)) : list Z :=
  omap (fun '(c, r) => match c with SYS_wait => Some (status_of 0 r) | _ => None end) tr.

Lemma writes_run {W A} os (p : prog A) : writes_only p -> forall w : W,
  exists a w', run os p w = Returned a w' /\ statuses (trace os p w) = [].
Proof.
  induction p as [a|c k IH|st|]; intros H w; try done; [by eexists _, _|]. destruct c; try done.
  cbn. destruct (os (SYS_write fd bytes) w) as [r w1]. by apply IH.
Qed.
