(* ===== verification/Grep.v ===== *)
(** user/grep.c: the regular-expression matcher and the program around it.

    [match_re] translates match(), [matchhere] and [matchstar] the two
    functions under it. The reference below parses a pattern into a list of
    items and gives each its set of words; the matcher is proved to decide
    that set. [grep] reads its input in pieces of whatever size read()
    returns and is proved to write exactly the lines that match. *)

From S2P Require Import Prelude Riscv User.
Import Ulib Uprintf.
Local Open Scope prog_scope.

(** ** The matcher *)

Definition c_hat : Z := 94.
Definition c_dollar : Z := 36.
Definition c_star : Z := 42.
Definition c_dot : Z := 46.

(** [here] is [matchhere] of the pattern after the star. *)
Fixpoint matchstar (here : list Z -> bool) (c : Z) (text : list Z) : bool :=
  if here text then true else
  match text with
  | [] => false
  | x :: text =>
      if negb (x =? 0) && ((x =? c) || (c =? c_dot)) then matchstar here c text else false
  end.

Fixpoint matchhere (re text : list Z) : bool :=
  match re with
  | [] => true
  | r0 :: re1 =>
      if r0 =? 0 then true else
      let rest :=
        if (r0 =? c_dollar) && (hd 0 re1 =? 0) then hd 0 text =? 0 else
        if negb (hd 0 text =? 0) && ((r0 =? c_dot) || (r0 =? hd 0 text))
        then matchhere re1 (tail text) else false in
      match re1 with
      | r1 :: re2 => if r1 =? c_star then matchstar (matchhere re2) r0 text else rest
      | [] => rest
      end
  end.

(** The loop of match(): [here] is [matchhere] of the whole pattern. *)
Fixpoint match_any (here : list Z -> bool) (text : list Z) : bool :=
  if here text then true else
  match text with
  | [] => false
  | x :: text => if x =? 0 then false else match_any here text
  end.

Definition match_re (re text : list Z) : bool :=
  if hd 0 re =? c_hat then matchhere (tail re) text else match_any (matchhere re) text.

(** ** grep() *)

Definition BUFSZ : Z := 1024.

(** The loop over the lines of the buffer from index [p] on; each round moves
    [p] behind a newline, so the buffer's length bounds the rounds. *)
Fixpoint grep_lines (fuel : nat) (pattern buf : list Z) (p : nat) : prog (list Z * nat) :=
  match strchr (drop p buf) 10 with
  | None => Ret (buf, p)
  | Some d =>
      match fuel with
      | O => Fuel
      | S fuel =>
          let q := (p + d)%nat in
          let buf := <[q := 0]> buf in
          if match_re pattern (drop p buf) then
            let buf := <[q := 10]> buf in
            call (SYS_write 1 (take (q + 1 - p) (drop p buf)));;
            grep_lines fuel pattern buf (q + 1)
          else grep_lines fuel pattern buf (q + 1)
      end
  end.

(** [fuel] bounds the calls of read(). *)
Fixpoint grep_loop (fuel : nat) (pattern : list Z) (fd : Z) (buf : list Z) (m : nat) : prog (list Z) :=
  match fuel with
  | O => Fuel
  | S fuel =>
      r <- ecall (SYS_read fd (BUFSZ - Z.of_nat m - 1));;
      if a_val r <=? 0 then Ret buf else
      let buf := put_bytes buf m (a_out r) in
      let m := (m + Z.to_nat (a_val r))%nat in
      let buf := <[m := 0]> buf in
      '(buf, p) <- grep_lines (length buf) pattern buf 0;;
      if (0 <? m)%nat then
        let m := (m - p)%nat in
        let buf := put_bytes buf 0 (take m (drop p buf)) in
        grep_loop fuel pattern fd buf m
      else grep_loop fuel pattern fd buf m
  end.

(** The global [buf] is passed on, as one call leaves it to the next. *)
Definition grep (fuel : nat) (pattern : list Z) (fd : Z) (buf : list Z) : prog (list Z) :=
  grep_loop fuel pattern fd buf 0.

Fixpoint grep_files (fuel : nat) (pattern : list Z) (files : list (list Z)) (buf : list Z) : prog unit :=
  match files with
  | [] => Ret tt
  | f :: files =>
      fd <- call (SYS_open f O_RDONLY);;
      if fd <? 0 then printf (line "grep: cannot open %s") [VStr (Some f)];; Exit 1 else
      buf <- grep fuel pattern fd buf;;
      call (SYS_close fd);;
      grep_files fuel pattern files buf
  end.

Definition grep_main (fuel : nat) (argv : list (list Z)) : prog unit :=
  let buf := replicate (Z.to_nat BUFSZ) 0 in
  match argv with
  | _ :: pattern :: files =>
      match files with
      | [] => grep fuel pattern 0 buf;; Exit 0
      | _ => grep_files fuel pattern files buf;; Exit 0
      end
  | _ => fprintf 2 (line "usage: grep pattern [file ...]") [];; Exit 1
  end.

(** ** The reference: patterns as lists of items *)

Inductive atom := Any | Chr (c : Z).
Inductive item := One (a : atom) | Star (a : atom).

Definition atom_of (c : Z) : atom := if c =? c_dot then Any else Chr c.

Definition accepts (a : atom) (x : Z) : Prop :=
  match a with Any => True | Chr c => x = c end.

(** The items of a pattern without its leading ^, and whether a final $
    anchors it at the end of the line. *)
Fixpoint parse_items (re : list Z) : list item * bool :=
  match re with
  | [] => ([], false)
  | c :: re1 =>
      match re1 with
      | d :: re2 =>
          if d =? c_star then let '(its, eol) := parse_items re2 in (Star (atom_of c) :: its, eol)
          else let '(its, eol) := parse_items re1 in (One (atom_of c) :: its, eol)
      | [] => if c =? c_dollar then ([], true) else ([One (atom_of c)], false)
      end
  end.

(** The words of a list of items: the usual meaning of concatenation and of
    the star of a single character. *)
Inductive word : list item -> list Z -> Prop :=
| word_nil : word [] []
| word_one a its x w : accepts a x -> word its w -> word (One a :: its) (x :: w)
| word_star a its u w : Forall (accepts a) u -> word its w -> word (Star a :: its) (u ++ w).

(** [pattern] occurs in [text]. *)
Definition occurs (pattern text : list Z) : Prop :=
  let bol := hd 0 pattern =? c_hat in
  let '(its, eol) := parse_items (if bol then tail pattern else pattern) in
  exists pre w suf, text = pre ++ w ++ suf /\ word its w /\
    (bol = true -> pre = []) /\ (eol = true -> suf = []).

(** ** The matcher decides the reference *)

(** Matching at the beginning of the text. *)
Definition begins (re text : list Z) : Prop :=
  let '(its, eol) := parse_items re in
  exists w suf, text = w ++ suf /\ word its w /\ (eol = true -> suf = []).

Notation no_nul := (Forall (fun c : Z => c <> 0)).

Lemma cstr_no_nul l : no_nul (cstr l).
Proof. induction l as [|c l IH]; cbn; [done|]. destruct (Z.eqb_spec c 0); auto. Qed.

Lemma cstr_id l : no_nul l -> cstr l = l.
Proof. induction 1 as [|c l Hc _ IH]; cbn; [done|]. destruct (Z.eqb_spec c 0); by f_equal. Qed.

Lemma hd_cstr l : hd 0 (cstr l) = hd 0 l.
Proof. destruct l as [|c l]; cbn; [done|]. by destruct (Z.eqb_spec c 0). Qed.

(** The terminator bounds what the matcher looks at. *)
Lemma matchstar_cstr here here' c text :
  (forall t, here t = here' (cstr t)) -> matchstar here c text = matchstar here' c (cstr text).
Proof.
  intros H. induction text as [|x text IH]; cbn; rewrite H; cbn; [done|].
  destruct (Z.eqb_spec x 0) as [->|Hx]; cbn; [by destruct (here' [])|].
  destruct (Z.eqb_spec x 0); [done|]. cbn. by rewrite IH.
Qed.

Lemma matchhere_cstr re : forall text, matchhere re text = matchhere (cstr re) (cstr text).
Proof.
  induction re as [re IH] using (induction_ltof1 _ (@length Z)). unfold ltof in IH.
  intros text. destruct re as [|r0 re1]; [done|]. cbn [matchhere cstr].
  destruct (Z.eqb_spec r0 0) as [->|H0]; [done|]. cbn [matchhere].
  destruct (Z.eqb_spec r0 0); [done|].
  assert (matchhere re1 (tail text) = matchhere (cstr re1) (tail (cstr text)) \/ hd 0 text = 0) as Ht.
  { destruct text as [|x text]; cbn; [auto|]. destruct (Z.eqb_spec x 0); [auto|].
    left. apply IH. cbn. lia. }
  assert ((if (r0 =? c_dollar) && (hd 0 re1 =? 0) then hd 0 text =? 0 else
        if negb (hd 0 text =? 0) && ((r0 =? c_dot) || (r0 =? hd 0 text))
        then matchhere re1 (tail text) else false)
     = (if (r0 =? c_dollar) && (hd 0 (cstr re1) =? 0) then hd 0 (cstr text) =? 0 else
        if negb (hd 0 (cstr text) =? 0) && ((r0 =? c_dot) || (r0 =? hd 0 (cstr text)))
        then matchhere (cstr re1) (tail (cstr text)) else false)) as Hrest.
  { rewrite !hd_cstr. destruct Ht as [->|Ht]; [done|]. by rewrite Ht. }
  destruct re1 as [|r1 re2]; [exact Hrest|].
  destruct (Z.eqb_spec r1 0) as [->|H1].
  - cbn [cstr Z.eqb] in Hrest |- *. exact Hrest.
  - cbn [cstr] in Hrest |- *. rewrite (proj2 (Z.eqb_neq r1 0) H1) in Hrest |- *.
    destruct (r1 =? c_star); [|exact Hrest].
    apply matchstar_cstr. intros t. apply IH. cbn. lia.
Qed.

Lemma match_any_cstr here here' text :
  (forall t, here t = here' (cstr t)) -> match_any here text = match_any here' (cstr text).
Proof.
  intros H. induction text as [|x text IH]; cbn; rewrite H; cbn; [done|].
  destruct (Z.eqb_spec x 0) as [->|Hx]; cbn; [by destruct (here' [])|].
  destruct (Z.eqb_spec x 0); [done|]. by rewrite IH.
Qed.

Lemma match_re_cstr re text : match_re re text = match_re (cstr re) (cstr text).
Proof.
  unfold match_re. rewrite hd_cstr. destruct re as [|c re]; [by apply match_any_cstr|].
  cbn [hd cstr tail]. destruct (Z.eqb_spec c c_hat) as [->|Hc].
  - cbn. apply matchhere_cstr.
  - change (if c =? 0 then [] else c :: cstr re) with (cstr (c :: re)).
    apply match_any_cstr, matchhere_cstr.
Qed.

Lemma accepts_spec c x : x <> 0 -> accepts (atom_of c) x <-> (x =? c) || (c =? c_dot) = true.
Proof.
  intros Hx. unfold atom_of. destruct (Z.eqb_spec c c_dot) as [->|]; cbn.
  - by rewrite orb_true_r.
  - rewrite orb_false_r. split; [intros ->; apply Z.eqb_refl | apply Z.eqb_eq].
Qed.

Lemma matchstar_spec here c text : no_nul text ->
  matchstar here c text = true <->
    exists u t, text = u ++ t /\ Forall (accepts (atom_of c)) u /\ here t = true.
Proof.
  induction 1 as [|x text Hx _ IH]; cbn.
  - split.
    + destruct (here []) eqn:E; [|done]. intros _. by exists [], [].
    + intros ([|y u] & t & E & _ & H); [|done]. cbn in E. subst t. by rewrite H.
  - destruct (here (x :: text)) eqn:E.
    + split; [intros _; by exists [], (x :: text) | done].
    + rewrite (proj2 (Z.eqb_neq x 0) Hx). cbn [negb andb]. split.
      * destruct ((x =? c) || (c =? c_dot)) eqn:Ec; [|done]. intros (u & t & -> & Hu & Ht)%IH.
        exists (x :: u), t. split_and!; [done| |done]. constructor; [|done]. by apply accepts_spec.
      * intros ([|y u] & t & Et & Hu & Ht); cbn in Et; [subst t; congruence|].
        injection Et as -> ->. inversion_clear Hu as [|? ? Hy Hu'].
        apply accepts_spec in Hy; [|done]. rewrite Hy. apply IH. eauto.
Qed.

Lemma begins_star c re2 text :
  begins (c :: c_star :: re2) text <->
    exists u t, text = u ++ t /\ Forall (accepts (atom_of c)) u /\ begins re2 t.
Proof.
  unfold begins. cbn [parse_items]. rewrite Z.eqb_refl. destruct (parse_items re2) as [its eol]. split.
  - intros (w & suf & -> & Hw & He). inversion Hw as [| |? ? u w' Hu Hw']; subst.
    exists u, (w' ++ suf). split_and!; [by rewrite app_assoc | done | eauto].
  - intros (u & t & -> & Hu & w & suf & -> & Hw & He).
    exists (u ++ w), suf. split_and!; [by rewrite app_assoc | by constructor | done].
Qed.

Lemma begins_dollar text : begins [c_dollar] text <-> text = [].
Proof.
  unfold begins. cbn. split.
  - intros (w & suf & -> & Hw & He). inversion Hw. by rewrite He.
  - intros ->. exists [], []. split_and!; [done | constructor | done].
Qed.

(** A pattern whose first character is matched by itself. *)
Lemma begins_one c re1 text :
  hd 0 re1 <> c_star -> ~ (c = c_dollar /\ re1 = []) -> no_nul text ->
  begins (c :: re1) text <->
    exists x t, text = x :: t /\ accepts (atom_of c) x /\ begins re1 t.
Proof.
  intros Hs Hd Hn.
  assert (parse_items (c :: re1) = (One (atom_of c) :: fst (parse_items re1), snd (parse_items re1))) as E.
  { destruct re1 as [|d re2]; cbn.
    - destruct (Z.eqb_spec c c_dollar); [|done]. by destruct Hd.
    - cbn in Hs. destruct (Z.eqb_spec d c_star); [done|]. by destruct (match re2 with [] => _ | _ => _ end). }
  unfold begins. rewrite E. destruct (parse_items re1) as [its eol]. cbn [fst snd]. split.
  - intros (w & suf & -> & Hw & He). inversion Hw as [|? ? x w' Hx Hw'|]; subst. cbn. eauto 10.
  - intros (x & t & -> & Hx & w & suf & -> & Hw & He).
    exists (x :: w), suf. split_and!; [done | by constructor | done].
Qed.

Lemma matchhere_spec re : no_nul re -> forall text, no_nul text ->
  matchhere re text = true <-> begins re text.
Proof.
  induction re as [re IH] using (induction_ltof1 _ (@length Z)). unfold ltof in IH.
  intros Hre text Ht. destruct re as [|r0 re1].
  { split; [|done]. intros _. exists [], text. split_and!; [done | constructor | done]. }
  inversion_clear Hre as [|? ? H0 Hre1].
  destruct (decide (hd 0 re1 = c_star)) as [Hst|Hst].
  - destruct re1 as [|r1 re2]; [done|]. cbn in Hst. subst r1.
    inversion_clear Hre1 as [|? ? _ Hre2]. rewrite begins_star.
    cbn [matchhere]. rewrite (proj2 (Z.eqb_neq r0 0) H0), Z.eqb_refl, matchstar_spec by done.
    split; intros (u & t & -> & Hu & Hb); exists u, t; (split_and!; [done..|]);
      apply Forall_app in Ht as [_ Ht]; apply IH in Hb; auto; cbn; lia.
  - assert (matchhere (r0 :: re1) text =
        if (r0 =? c_dollar) && (hd 0 re1 =? 0) then hd 0 text =? 0 else
        if negb (hd 0 text =? 0) && ((r0 =? c_dot) || (r0 =? hd 0 text))
        then matchhere re1 (tail text) else false) as ->.
    { cbn [matchhere]. rewrite (proj2 (Z.eqb_neq r0 0) H0).
      destruct re1 as [|r1 re2]; [done|]. cbn in Hst. by destruct (Z.eqb_spec r1 c_star). }
    assert (hd 0 re1 = 0 <-> re1 = []) as Hnil.
    { destruct re1; [done|]. cbn. inversion_clear Hre1. by split. }
    assert (hd 0 text = 0 <-> text = []) as Htnil.
    { destruct text; [done|]. cbn. inversion_clear Ht. by split. }
    destruct (Z.eqb_spec r0 c_dollar) as [->|Hd], (Z.eqb_spec (hd 0 re1) 0) as [E1|E1]; cbn [andb].
    { rewrite (proj1 Hnil E1), begins_dollar, Z.eqb_eq. done. }
    all: rewrite begins_one; [|done|rewrite <- Hnil; tauto|done].
    all: destruct text as [|x text]; cbn [hd tail]; [cbn; split; [done|]; by intros (? & ? & ? & _)|].
    all: inversion_clear Ht as [|? ? Hx Ht']; rewrite (proj2 (Z.eqb_neq x 0) Hx); cbn [negb andb].
    all: rewrite (orb_comm (_ =? c_dot)), (Z.eqb_sym _ x); split.
    all: try (destruct ((x =? _) || (_ =? c_dot)) eqn:Ea; [|done]; intros Hm; exists x, text;
      split_and!; [done | by apply accepts_spec | apply IH; auto; cbn; lia]).
    all: intros (y & t & [= -> ->] & Ha & Hb); apply accepts_spec in Ha; [|done]; rewrite Ha;
      apply IH; auto; cbn; lia.
Qed.

Lemma match_any_spec here text : no_nul text ->
  match_any here text = true <-> exists pre t, text = pre ++ t /\ here t = true.
Proof.
  induction 1 as [|x text Hx _ IH]; cbn.
  - split.
    + destruct (here []) eqn:E; [|done]. intros _. by exists [], [].
    + intros ([|] & t & E & H); [|done]. cbn in E. subst t. by rewrite H.
  - destruct (here (x :: text)) eqn:E; [split; [intros _; by exists [], (x :: text)|done]|].
    rewrite (proj2 (Z.eqb_neq x 0) Hx), IH. split.
    + intros (pre & t & -> & Ht). by exists (x :: pre), t.
    + intros ([|y pre] & t & Et & Ht); cbn in Et; [subst t; congruence|]. injection Et as -> ->. eauto.
Qed.

(** C20: The matcher of grep is a regular-expression matcher: match() accepts a
    line exactly when the pattern, read as items with the usual meaning of
    [.], [*], [^] and [$], has a word that occurs in the line where the anchors
    allow it. Both arguments are read up to their terminator. *)
Theorem match_decides re text :
  match_re re text = true <-> occurs (cstr re) (cstr text).
Proof.
  rewrite match_re_cstr. pose proof (cstr_no_nul re) as Hre. pose proof (cstr_no_nul text) as Ht.
  revert Hre Ht. generalize (cstr re) (cstr text). clear re text. intros re text Hre Ht.
  unfold match_re, occurs. destruct (hd 0 re =? c_hat) eqn:Eb.
  - assert (no_nul (tail re)) as Hre' by (destruct Hre; by cbn).
    rewrite matchhere_spec by done. unfold begins. destruct (parse_items (tail re)) as [its eol]. split.
    + intros (w & suf & -> & Hw & He). by exists [], w, suf.
    + intros (pre & w & suf & -> & Hw & Hb & He). rewrite Hb by done. by exists w, suf.
  - rewrite match_any_spec by done. unfold begins.
    assert (forall t, no_nul t -> matchhere re t = true <-> begins re t) as Hm by auto using matchhere_spec.
    unfold begins in Hm. destruct (parse_items re) as [its eol]. split.
    + intros (pre & t & -> & H). apply Forall_app in Ht as [_ Ht].
      apply Hm in H as (w & suf & -> & Hw & He); [|done]. by exists pre, w, suf.
    + intros (pre & w & suf & -> & Hw & _ & He). apply Forall_app in Ht as [_ Ht].
      exists pre, (w ++ suf). split; [done|]. apply Hm; [done|]. by exists w, suf.
Qed.

(** ** What grep writes *)

(** The lines of a text, without their newlines, and what follows the last
    newline. *)
Fixpoint split_lines (l : list Z) : list (list Z) * list Z :=
  match l with
  | [] => ([], [])
  | c :: l =>
      let '(ls, r) := split_lines l in
      if c =? 10 then ([] :: ls, r) else
      match ls with [] => ([], c :: r) | x :: ls => ((c :: x) :: ls, r) end
  end.

(** The lines that match, each with its newline. *)
Definition matching (pattern text : list Z) : list Z :=
  concat (map (fun l => l ++ [10]) (filter (fun l => match_re pattern l = true) (fst (split_lines text)))).

(** A kernel with one input, which read() returns in pieces cut as [chunks]
    says, and one output. *)
Record stream := mkStream { chunks : list (list Z); out : list Z }.

Definition stream_os (fd : Z) (c : sysc) (w : stream) : answer * stream :=
  match c with
  | SYS_read f n =>
      if f =? fd then
        match chunks w with
        | [] => (mkAnswer 0 [], w)
        | c :: cs =>
            if Z.of_nat (length c) <=? n
            then (mkAnswer (Z.of_nat (length c)) c, mkStream cs (out w))
            else (mkAnswer n (take (Z.to_nat n) c), mkStream (drop (Z.to_nat n) c :: cs) (out w))
        end
      else (mkAnswer (-1) [], w)
  | SYS_write f bytes =>
      if f =? 1 then (mkAnswer (Z.of_nat (length bytes)) [], mkStream (chunks w) (out w ++ bytes))
      else (mkAnswer (-1) [], w)
  | _ => (mkAnswer (-1) [], w)
  end.

Lemma split_lines_cases txt :
  (split_lines txt = ([], txt) /\ 10 ∉ txt) \/
  exists l txt', txt = l ++ 10 :: txt' /\ 10 ∉ l /\
    split_lines txt = (l :: fst (split_lines txt'), snd (split_lines txt')).
Proof.
  induction txt as [|c txt IH]; [left; split; [done | apply not_elem_of_nil]|].
  destruct (decide (c = 10)) as [->|Hc].
  - right. exists [], txt. cbn. split_and!; [done | apply not_elem_of_nil|].
    by destruct (split_lines txt).
  - destruct IH as [[E Hn]|(l & txt' & -> & Hn & E)]; cbn [split_lines]; rewrite E;
      rewrite (proj2 (Z.eqb_neq c 10) Hc).
    + left. split; [done|]. rewrite elem_of_cons. naive_solver.
    + right. exists (c :: l), txt'. split_and!; [done | rewrite elem_of_cons; naive_solver | done].
Qed.

Lemma split_lines_cons l txt : 10 ∉ l ->
  split_lines (l ++ 10 :: txt) = (l :: fst (split_lines txt), snd (split_lines txt)).
Proof.
  induction l as [|c l IH]; intros Hl; cbn [app split_lines].
  - cbn. by destruct (split_lines txt).
  - rewrite elem_of_cons in Hl. rewrite IH by naive_solver.
    by rewrite (proj2 (Z.eqb_neq c 10)) by naive_solver.
Qed.

Lemma split_lines_rest txt : 10 ∉ snd (split_lines txt).
Proof.
  induction txt as [|c txt IH]; cbn; [apply not_elem_of_nil|].
  destruct (split_lines txt) as [[|x ls] r]; cbn in *; destruct (Z.eqb_spec c 10); cbn; [done| |done..].
  rewrite elem_of_cons. naive_solver.
Qed.

Lemma split_lines_no_nul t : no_nul t -> no_nul (snd (split_lines t)).
Proof.
  induction 1 as [|c t Hc _ IH]; cbn; [done|].
  destruct (split_lines t) as [[|x ls] r]; destruct (c =? 10); cbn in *; auto.
Qed.

Lemma split_lines_app t1 t2 :
  split_lines (t1 ++ t2) =
    (fst (split_lines t1) ++ fst (split_lines (snd (split_lines t1) ++ t2)),
     snd (split_lines (snd (split_lines t1) ++ t2))).
Proof.
  induction t1 as [t1 IH] using (induction_ltof1 _ (@length Z)). unfold ltof in IH.
  destruct (split_lines_cases t1) as [[E _]|(l & t & -> & Hl & E)]; rewrite E; cbn [fst snd app].
  - by destruct (split_lines (t1 ++ t2)).
  - rewrite <- app_assoc. cbn [app]. rewrite split_lines_cons by done.
    rewrite IH by (rewrite length_app; cbn; lia). done.
Qed.

Lemma matching_app pattern t1 t2 :
  matching pattern (t1 ++ t2) = matching pattern t1 ++ matching pattern (snd (split_lines t1) ++ t2).
Proof. unfold matching. rewrite split_lines_app. cbn [fst]. by rewrite filter_app, map_app, concat_app. Qed.

Lemma strchr_found l rest : no_nul l -> 10 ∉ l -> strchr (l ++ 10 :: rest) 10 = Some (length l).
Proof.
  induction 1 as [|c l Hc _ IH]; intros Hl; [done|]. rewrite elem_of_cons in Hl. cbn.
  unfold c_true. rewrite (proj2 (Z.eqb_neq c 0) Hc). cbn.
  rewrite (proj2 (Z.eqb_neq c 10)) by naive_solver. by rewrite IH by naive_solver.
Qed.

Lemma strchr_absent l rest : no_nul l -> 10 ∉ l -> strchr (l ++ 0 :: rest) 10 = None.
Proof.
  induction 1 as [|c l Hc _ IH]; intros Hl; [done|]. rewrite elem_of_cons in Hl. cbn.
  unfold c_true. rewrite (proj2 (Z.eqb_neq c 0) Hc). cbn.
  rewrite (proj2 (Z.eqb_neq c 10)) by naive_solver. by rewrite IH by naive_solver.
Qed.

Lemma cstr_app_nul l rest : no_nul l -> cstr (l ++ 0 :: rest) = l.
Proof. induction 1 as [|c l Hc _ IH]; cbn; [done|]. rewrite (proj2 (Z.eqb_neq c 0) Hc). by f_equal. Qed.

Lemma match_re_nul pattern l rest : no_nul l -> match_re pattern (l ++ 0 :: rest) = match_re pattern l.
Proof. intros H. rewrite match_re_cstr, (match_re_cstr pattern l). by rewrite cstr_app_nul, (cstr_id l) by done. Qed.

Lemma drop_insert_at {A} (buf l : list A) p x y rest :
  drop p buf = l ++ x :: rest -> drop p (<[(p + length l)%nat := y]> buf) = l ++ y :: rest.
Proof.
  intros E. rewrite drop_insert_ge, E by lia. replace (p + length l - p)%nat with (length l + 0)%nat by lia.
  by rewrite insert_app_r.
Qed.

Lemma drop_past {A} (buf l : list A) p x rest :
  drop p buf = l ++ x :: rest -> drop (p + length l + 1) buf = rest.
Proof.
  intros E. replace (p + length l + 1)%nat with (p + (length l + 1))%nat by lia.
  rewrite <- drop_drop, E, <- drop_drop, drop_app_length. done.
Qed.

Lemma grep_lines_spec fd fuel : forall pattern buf p w txt rest,
  drop p buf = txt ++ 0 :: rest -> no_nul txt -> (length txt <= fuel)%nat ->
  exists buf' p',
    run (stream_os fd) (grep_lines fuel pattern buf p) w =
      Returned (buf', p') (mkStream (chunks w) (out w ++ matching pattern txt)) /\
    length buf' = length buf /\ drop p' buf' = snd (split_lines txt) ++ 0 :: rest /\
    (p' + length (snd (split_lines txt)) = p + length txt)%nat.
Proof.
  induction fuel as [|fuel IH]; intros pattern buf p w txt rest Ed Hn Hf;
    destruct (split_lines_cases txt) as [[E Hnl]|(l & txt' & -> & Hnl & E)].
  1, 3: exists buf, p; unfold matching; rewrite E; cbn [grep_lines]; rewrite Ed, strchr_absent by done;
    cbn; rewrite app_nil_r; by destruct w.
  { rewrite length_app in Hf. cbn in Hf. lia. }
  apply Forall_app in Hn as [Hl Hn']. inversion_clear Hn' as [|? ? _ Hn].
  rewrite <- app_assoc in Ed. cbn [app] in Ed.
  assert (drop p (<[(p + length l)%nat := 0]> buf) = l ++ 0 :: txt' ++ 0 :: rest) as E0
    by (by eapply drop_insert_at).
  assert (drop p (<[(p + length l)%nat := 10]> (<[(p + length l)%nat := 0]> buf))
    = l ++ 10 :: txt' ++ 0 :: rest) as E1 by (by eapply drop_insert_at).
  cbn [grep_lines]. rewrite Ed, strchr_found by done. rewrite E0, match_re_nul by done.
  assert (matching pattern (l ++ 10 :: txt') =
    (if match_re pattern l then l ++ [10] else []) ++ matching pattern txt') as Em.
  { unfold matching. rewrite E. cbn [fst]. rewrite filter_cons. by destruct (match_re pattern l). }
  rewrite E, Em. cbn [snd]. rewrite length_app in Hf. cbn [length] in Hf.
  destruct (match_re pattern l).
  - rewrite run_call. cbn [stream_os]. rewrite Z.eqb_refl. cbn [fst snd].
    rewrite E1. replace (p + length l + 1 - p)%nat with (length l + 1)%nat by lia.
    change (10 :: txt' ++ 0 :: rest) with ([10] ++ txt' ++ 0 :: rest). rewrite app_assoc, take_app_length'
      by (rewrite length_app; cbn; lia).
    destruct (IH pattern (<[(p + length l)%nat := 10]> (<[(p + length l)%nat := 0]> buf)) (p + length l + 1)%nat
      (mkStream (chunks w) (out w ++ l ++ [10])) txt' rest) as (buf' & p' & Hr & Hlen & Hd & Hp);
      [by eapply drop_past | done | lia |].
    exists buf', p'. cbn [snd]. rewrite Hr. cbn [chunks out]. rewrite !length_insert in Hlen.
    split_and!; [by rewrite <- !app_assoc | done | done | rewrite length_app; cbn; lia].
  - destruct (IH pattern (<[(p + length l)%nat := 0]> buf) (p + length l + 1)%nat w txt' rest)
      as (buf' & p' & Hr & Hlen & Hd & Hp); [by eapply drop_past | done | lia |].
    exists buf', p'. rewrite Hr. rewrite !length_insert in Hlen.
    split_and!; [done | done | done | rewrite length_app; cbn; lia].
Qed.

(** A read of a stream that still has input: a piece of it, at least one byte
    and at most the bytes asked for. *)
Lemma stream_read fd n w :
  0 < n -> Forall (fun c => c <> []) (chunks w) -> concat (chunks w) <> [] ->
  exists c cs, stream_os fd (SYS_read fd n) w = (mkAnswer (Z.of_nat (length c)) c, mkStream cs (out w)) /\
    c <> [] /\ Z.of_nat (length c) <= n /\ Forall (fun c => c <> []) cs /\
    concat (chunks w) = c ++ concat cs.
Proof.
  intros Hn Hne Hc. destruct w as [[|c cs] o]; [done|]. cbn in *. rewrite Z.eqb_refl.
  inversion_clear Hne as [|? ? Hc1 Hcs].
  destruct (Z.leb_spec (Z.of_nat (length c)) n) as [Hle|Hgt]; [by exists c, cs|].
  exists (take (Z.to_nat n) c), (drop (Z.to_nat n) c :: cs). rewrite length_take.
  split_and!.
  - by rewrite Nat.min_l, Z2Nat.id by lia.
  - intros E%(f_equal length). rewrite length_take in E. cbn in E. lia.
  - lia.
  - constructor; [|done]. intros E%(f_equal length). rewrite length_drop in E. cbn in E. lia.
  - cbn. by rewrite app_assoc, take_drop.
Qed.

Lemma stream_eof fd n w : Forall (fun c => c <> []) (chunks w) -> concat (chunks w) = [] ->
  stream_os fd (SYS_read fd n) w = (mkAnswer 0 [], w).
Proof.
  intros Hne Hc. destruct w as [[|[|x c] cs] o]; cbn in *; rewrite Z.eqb_refl; try done.
  by inversion_clear Hne.
Qed.

(** The buffer after a read: the rest of the last line, the new bytes, and
    the terminator. *)
Lemma fill_buffer buf r c :
  take (length r) buf = r -> (length r + length c < length buf)%nat ->
  exists rest, <[(length r + length c)%nat := 0]> (put_bytes buf (length r) c) = (r ++ c) ++ 0 :: rest.
Proof.
  intros Hr Hl. unfold put_bytes. rewrite Hr.
  destruct (drop (length r + length c) buf) as [|x rest] eqn:E.
  { apply (f_equal length) in E. rewrite length_drop in E. cbn in E. lia. }
  exists rest. rewrite app_assoc. replace (length r + length c)%nat with (length (r ++ c) + 0)%nat
    by (rewrite length_app; lia). by rewrite insert_app_r.
Qed.

Definition short (text : list Z) : Prop :=
  Forall (fun l => (length l < 1023)%nat) (fst (split_lines text)) /\
  (length (snd (split_lines text)) < 1023)%nat.

Lemma short_suffix t1 t2 : short (t1 ++ t2) -> short (snd (split_lines t1) ++ t2).
Proof. unfold short. rewrite split_lines_app. cbn [fst snd]. rewrite Forall_app. tauto. Qed.

(** The start of a line of a text of short lines is short. *)
Lemma short_start r t : 10 ∉ r -> short (r ++ t) -> (length r < 1023)%nat.
Proof.
  intros Hr [Hs Hl]. rewrite split_lines_app in Hs, Hl.
  destruct (split_lines_cases r) as [[E _]|(l & r' & -> & _)];
    [|rewrite elem_of_app, elem_of_cons in Hr; naive_solver].
  rewrite E in Hs, Hl. cbn [fst snd app] in Hs, Hl.
  destruct (split_lines_cases (r ++ t)) as [[E' _]|(l & t' & E' & Hn & E2)].
  - rewrite E' in Hl. cbn in Hl. rewrite length_app in Hl. lia.
  - rewrite E2 in Hs. cbn in Hs. inversion_clear Hs as [|? ? Hl0 _].
    apply app_eq_inv in E' as [(k & -> & Ek)|(k & -> & _)]; [|rewrite length_app in Hl0; lia].
    destruct k as [|y k]; [rewrite length_app; cbn; lia|]. injection Ek as <- _.
    rewrite elem_of_app, elem_of_cons in Hr. naive_solver.
Qed.

Lemma grep_loop_spec fd fuel : forall pattern buf r w,
  length buf = 1024%nat -> take (length r) buf = r -> no_nul r -> 10 ∉ r ->
  Forall (fun c => c <> []) (chunks w) -> no_nul (concat (chunks w)) ->
  short (r ++ concat (chunks w)) -> (length (concat (chunks w)) < fuel)%nat ->
  exists buf', run (stream_os fd) (grep_loop fuel pattern fd buf (length r)) w =
    Returned buf' (mkStream [] (out w ++ matching pattern (r ++ concat (chunks w)))) /\
    length buf' = 1024%nat.
Proof.
  induction fuel as [|fuel IH]; intros pattern buf r w Hbuf Hr Hrn Hrl Hne Hn Hs Hf; [lia|].
  pose proof (short_start _ _ Hrl Hs) as Hlen.
  cbn [grep_loop]. rewrite run_ecall. set (n := BUFSZ - Z.of_nat (length r) - 1).
  assert (0 < n) as Hpos by (unfold n, BUFSZ; lia).
  destruct (decide (concat (chunks w) = [])) as [Hc|Hc].
  - rewrite stream_eof by done. cbn. exists buf. split; [|done]. rewrite Hc, app_nil_r.
    unfold matching. destruct (split_lines_cases r) as [[-> _]|(l & r' & -> & _)];
      [|rewrite elem_of_app, elem_of_cons in Hrl; naive_solver].
    cbn. rewrite app_nil_r. destruct w as [[|[|x c] cs] o]; try done. by inversion_clear Hne.
  - destruct (stream_read fd n w Hpos Hne Hc) as (c & cs & -> & Hc0 & Hcn & Hcs & Ec).
    rewrite Ec in *. clear Hc Hne. cbn [fst snd a_val a_out].
    assert (0 < length c)%nat by (destruct c; [done | cbn; lia]).
    rewrite (proj2 (Z.leb_gt _ 0)) by lia. rewrite Nat2Z.id.
    apply Forall_app in Hn as [Hcnul Hn]. rewrite length_app in Hf.
    assert (length r + length c < length buf)%nat as Hroom by (unfold n, BUFSZ in Hcn; lia).
    destruct (fill_buffer buf r c Hr Hroom) as (rest & Eb).
    assert (length (<[(length r + length c)%nat:=0]> (put_bytes buf (length r) c)) = 1024%nat) as Hlb.
    { rewrite length_insert, length_put_bytes; [done|lia]. }
    destruct (grep_lines_spec fd 1024 pattern
      (<[(length r + length c)%nat:=0]> (put_bytes buf (length r) c)) 0 (mkStream cs (out w)) (r ++ c) rest)
      as (buf' & p' & Hrun & Hl' & Hd & Hp).
    { by rewrite drop_0. }
    { by apply Forall_app. }
    { rewrite length_app. lia. }
    rewrite Hlb in Hl' |- *. rewrite (run_bind_ret _ _ _ _ _ _ Hrun). cbn [chunks out].
    set (r' := snd (split_lines (r ++ c))) in *. rewrite length_app in Hp.
    rewrite (proj2 (Nat.ltb_lt 0 _)) by lia.
    replace (length r + length c - p')%nat with (length r') by lia.
    rewrite Hd, take_app_length.
    destruct (IH pattern (put_bytes buf' 0 r') r' (mkStream cs (out w ++ matching pattern (r ++ c))))
      as (buf2 & Hrun2 & Hl2).
    { rewrite length_put_bytes; lia. }
    { unfold put_bytes. rewrite take_0. cbn [app]. by rewrite take_app_length. }
    { apply split_lines_no_nul. by apply Forall_app. }
    { apply split_lines_rest. }
    { done. } { done. }
    { cbn. apply short_suffix. by rewrite <- app_assoc. }
    { cbn. lia. }
    exists buf2. split; [|done]. rewrite Hrun2. cbn [chunks out].
    by rewrite (app_assoc r c), (matching_app _ (r ++ c)), <- app_assoc.
Qed.

(** However read() cuts the input into pieces, grep writes exactly the
    lines of the input that match, in order and each with its newline, and
    nothing else, as long as no line fills its buffer (1023 characters or
    more) and the input has no NUL byte. A last line without newline is not
    written. One round of fuel per byte of input is enough. *)
Theorem grep_filters pattern fd cs o :
  Forall (fun c => c <> []) cs -> no_nul (concat cs) -> short (concat cs) ->
  exists buf, run (stream_os fd)
      (grep (S (length (concat cs))) pattern fd (replicate (Z.to_nat BUFSZ) 0)) (mkStream cs o) =
    Returned buf (mkStream [] (o ++ matching pattern (concat cs))).
Proof.
  intros Hne Hn Hs. unfold grep.
  destruct (grep_loop_spec fd (S (length (concat cs))) pattern (replicate (Z.to_nat BUFSZ) 0) [] (mkStream cs o))
    as (buf & H & _); try done; cbn; [apply not_elem_of_nil | lia |]. eauto.
Qed.

Lemma grep_filters_witness :
  exists buf, run (stream_os 0) (grep 15 (chars "^a.*c$") 0 (replicate (Z.to_nat BUFSZ) 0))
    (mkStream [chars "ab"; chars "bc" ++ [10]; chars "xabc" ++ [10]; chars "ac" ++ [10]; [97]] []) =
  Returned buf (mkStream [] (chars "abbc" ++ [10] ++ chars "ac" ++ [10])).
Proof.
  apply (grep_filters (chars "^a.*c$") 0
    [chars "ab"; chars "bc" ++ [10]; chars "xabc" ++ [10]; chars "ac" ++ [10]; [97]] []).
  - by repeat constructor.
  - by repeat constructor.
  - split; [apply (bool_decide_unpack _); by vm_compute | apply (bool_decide_unpack _); by vm_compute].
Defined.
