(* ===== verification/Sh.v ===== *)
(** user/sh.c: the shell.

    A [char*] into the line buffer is an index; a counted string of the
    parser is the pair of its two pointers. The parser builds a [cmd] over
    such pairs, nulterminate() writes the terminators into the buffer, and
    [cmd_map] reads the strings back, as runcmd() does. malloc() is taken to
    succeed, as the constructors of the source do. *)

From S2P Require Import Prelude Riscv User.
Import Ulib Uprintf.
Local Open Scope prog_scope.

(** ** Parsed command representation *)

Definition MAXARGS : nat := 10.

(** The five structs, over the representation [T] of a string: the argv of a
    command is the list before its null pointer. *)
Inductive cmd (T : Type) : Type :=
| EXEC (argv : list T)
| REDIR (c : cmd T) (file : T) (mode fd : Z)
| PIPE (l r : cmd T)
| LIST (l r : cmd T)
| BACK (c : cmd T).
Arguments EXEC {T} argv.
Arguments REDIR {T} c file mode fd.
Arguments PIPE {T} l r.
Arguments LIST {T} l r.
Arguments BACK {T} c.

Fixpoint cmd_map {T U} (f : T -> U) (c : cmd T) : cmd U :=
  match c with
  | EXEC argv => EXEC (map f argv)
  | REDIR c file mode fd => REDIR (cmd_map f c) (f file) mode fd
  | PIPE l r => PIPE (cmd_map f l) (cmd_map f r)
  | LIST l r => LIST (cmd_map f l) (cmd_map f r)
  | BACK c => BACK (cmd_map f c)
  end.

(** The strings of a command, in the order nulterminate() visits them. *)
Fixpoint cmd_strings {T} (c : cmd T) : list T :=
  match c with
  | EXEC argv => argv
  | REDIR c file _ _ => cmd_strings c ++ [file]
  | PIPE l r | LIST l r => cmd_strings l ++ cmd_strings r
  | BACK c => cmd_strings c
  end.

(** A string of the parser: [argv[i]] and [eargv[i]], or [file] and [efile]. *)
Definition span : Type := nat * nat.

(** ** Tokens *)

Definition whitespace : list Z := [32; 9; 13; 10; 11].
Definition symbols : list Z := chars "<|>&;()".

Definition in_set (l : list Z) (c : Z) : bool :=
  match strchr l c with Some _ => true | None => false end.

(** [*s], where the string goes up to its terminator. *)
Definition char_at (buf : list Z) (s : nat) : Z := nth s buf 0.

(** [while(s < es && f( *s)) s++], with [n] the distance to [es]. *)
Fixpoint skip (n : nat) (f : Z -> bool) (buf : list Z) (s : nat) : nat :=
  match n with
  | O => s
  | S n => if f (char_at buf s) then skip n f buf (S s) else s
  end.

Definition skip_ws (buf : list Z) (es s : nat) : nat := skip (es - s) (in_set whitespace) buf s.

Definition word_char (c : Z) : bool := negb (in_set whitespace c) && negb (in_set symbols c).

(** The token's code, its two pointers, and the new [*ps]. *)
Definition gettoken (buf : list Z) (es s : nat) : Z * nat * nat * nat :=
  let s := skip_ws buf es s in
  let q := s in
  let c := char_at buf s in
  let '(r, s) :=
    if c =? 0 then (c, s)
    else if (c =? 124) || (c =? 40) || (c =? 41) || (c =? 59) || (c =? 38) || (c =? 60) then (c, S s)
    else if c =? 62 then
      let s := S s in
      if char_at buf s =? 62 then (43, S s) else (c, s)
    else (97, skip (es - s) word_char buf s) in
  let eq := s in
  (r, q, eq, skip_ws buf es s).

(** The answer and the new [*ps]. *)
Definition peek (buf : list Z) (es s : nat) (toks : string) : bool * nat :=
  let s := skip_ws buf es s in
  (negb (char_at buf s =? 0) && in_set (chars toks) (char_at buf s), s).

(** ** The parser

    A parsing function returns its value and the new [*ps], or ends in
    panic(). *)
Inductive presult (A : Type) : Type :=
| POk (a : A) (s : nat)
| PPanic (msg : string)
| PFuel.
Arguments POk {A} a s.
Arguments PPanic {A} msg.
Arguments PFuel {A}.

Definition presult_bind {A B} (r : presult A) (f : A -> nat -> presult B) : presult B :=
  match r with POk a s => f a s | PPanic msg => PPanic msg | PFuel => PFuel end.

(** A redirection read by parseredirs(): file, mode and descriptor. *)
Record redir (T : Type) := mkRedir { rd_file : T; rd_mode : Z; rd_fd : Z }.
Arguments mkRedir {T} rd_file rd_mode rd_fd.
Arguments rd_file {T} r.
Arguments rd_mode {T} r.
Arguments rd_fd {T} r.

(** parseexec() goes on filling the command that parseredirs() has already
    wrapped, so the wrappers are kept apart, innermost first. *)
Definition wrap {T} (c : cmd T) (rs : list (redir T)) : cmd T :=
  fold_left (fun c r => REDIR c (rd_file r) (rd_mode r) (rd_fd r)) rs c.

Section Parser.
Variables (buf : list Z) (es : nat).

(** [tok] is one of the codes < > + here. *)
Definition redir_of {T} (tok : Z) (file : T) : redir T :=
  if tok =? 60 then mkRedir file O_RDONLY 0
  else if tok =? 62 then mkRedir file (Z.lor (Z.lor O_WRONLY O_CREATE) O_TRUNC) 1
  else mkRedir file (Z.lor O_WRONLY O_CREATE) 1.

Fixpoint parseredirs (n : nat) (rs : list (redir span)) (s : nat) : presult (list (redir span)) :=
  let '(b, s) := peek buf es s "<>" in
  if b then
    match n with
    | O => PFuel
    | S n =>
        let '(tok, _, _, s) := gettoken buf es s in
        let '(t, q, eq, s) := gettoken buf es s in
        if negb (t =? 97) then PPanic "missing file for redirection" else
        parseredirs n (rs ++ [redir_of tok (q, eq)]) s
    end
  else POk rs s.

(** The loop of parseexec(), with the arguments and redirections so far. *)
Fixpoint parseargs (n : nat) (argv : list span) (rs : list (redir span)) (s : nat)
    : presult (list span * list (redir span)) :=
  let '(b, s) := peek buf es s "|)&;" in
  if b then POk (argv, rs) s else
  match n with
  | O => PFuel
  | S n =>
      let '(tok, q, eq, s) := gettoken buf es s in
      if tok =? 0 then POk (argv, rs) s else
      if negb (tok =? 97) then PPanic "syntax" else
      let argv := argv ++ [(q, eq)] in
      if (MAXARGS <=? length argv)%nat then PPanic "too many args" else
      presult_bind (parseredirs n rs s) (fun rs s => parseargs n argv rs s)
  end.

Fixpoint parsebacks (n : nat) (c : cmd span) (s : nat) : presult (cmd span) :=
  let '(b, s) := peek buf es s "&" in
  if b then
    match n with
    | O => PFuel
    | S n => let '(_, _, _, s) := gettoken buf es s in parsebacks n (BACK c) s
    end
  else POk c s.

(** [n] bounds the depth of the recursion; the loops above run at most once
    for every character of the line. *)
Fixpoint parseline (n : nat) (s : nat) : presult (cmd span) :=
  match n with
  | O => PFuel
  | S n =>
      presult_bind (parsepipe n s) (fun c s =>
      presult_bind (parsebacks (S es) c s) (fun c s =>
      let '(b, s) := peek buf es s ";" in
      if b then
        let '(_, _, _, s) := gettoken buf es s in
        presult_bind (parseline n s) (fun r s => POk (LIST c r) s)
      else POk c s))
  end
with parsepipe (n : nat) (s : nat) : presult (cmd span) :=
  match n with
  | O => PFuel
  | S n =>
      presult_bind (parseexec n s) (fun c s =>
      let '(b, s) := peek buf es s "|" in
      if b then
        let '(_, _, _, s) := gettoken buf es s in
        presult_bind (parsepipe n s) (fun r s => POk (PIPE c r) s)
      else POk c s)
  end
with parseexec (n : nat) (s : nat) : presult (cmd span) :=
  match n with
  | O => PFuel
  | S n =>
      let '(b, s) := peek buf es s "(" in
      if b then parseblock n s else
      presult_bind (parseredirs (S es) [] s) (fun rs s =>
      presult_bind (parseargs (S es) [] rs s) (fun '(argv, rs) s =>
      POk (wrap (EXEC argv) rs) s))
  end
with parseblock (n : nat) (s : nat) : presult (cmd span) :=
  match n with
  | O => PFuel
  | S n =>
      let '(b, s) := peek buf es s "(" in
      if negb b then PPanic "parseblock" else
      let '(_, _, _, s) := gettoken buf es s in
      presult_bind (parseline n s) (fun c s =>
      let '(b, s) := peek buf es s ")" in
      if negb b then PPanic "syntax - missing )" else
      let '(_, _, _, s) := gettoken buf es s in
      presult_bind (parseredirs (S es) [] s) (fun rs s =>
      POk (wrap c rs) s))
  end.

End Parser.

(** NUL-terminate all the counted strings. *)
Definition nulterminate (c : cmd span) (buf : list Z) : list Z :=
  fold_left (fun buf w => <[snd w := 0]> buf) (cmd_strings c) buf.

(** The part of parsecmd() before nulterminate(). *)
Definition parse_whole (buf : list Z) : presult (cmd span) :=
  let es := Z.to_nat (strlen buf) in
  presult_bind (parseline buf es (4 * S es) 0) (fun c s =>
  let '(_, s) := peek buf es s "" in
  POk c s).

(** The string at a pointer. *)
Definition string_at (buf : list Z) (w : span) : list Z := cstr (drop (fst w) buf).

(** ** Running commands *)

Definition sh_panic {A} (s : string) : prog A := fprintf 2 (line "%s") [VStr (Some (chars s))];; Exit 1.

Definition fork1 : prog Z :=
  pid <- call SYS_fork;;
  if pid =? -1 then sh_panic "fork" else Ret pid.

(** The command, its strings read from the buffer after nulterminate(). *)
Definition parsecmd (buf : list Z) : prog (cmd (list Z)) :=
  match parse_whole buf with
  | PFuel => Fuel
  | PPanic msg => sh_panic msg
  | POk c s =>
      if negb (s =? Z.to_nat (strlen buf))%nat then
        fprintf 2 (line "leftovers: %s") [VStr (Some (drop s buf))];; sh_panic "syntax"
      else Ret (cmd_map (string_at (nulterminate c buf)) c)
  end.

(** The two descriptors pipe() stores. *)
Definition pipe_fds (out : list Z) : Z * Z := (s32 (get_le 4 out 0), s32 (get_le 4 out 4)).

(** Never returns: every path ends in exit(). A successful exec() does not
    answer, so the answer to it is the failure the next line reports. *)
Fixpoint runcmd (c : cmd (list Z)) : prog unit :=
  match c with
  | EXEC argv =>
      match argv with
      | [] => Exit 1
      | path :: _ =>
          call (SYS_exec path argv);;
          fprintf 2 (line "exec %s failed") [VStr (Some path)];;
          Exit 0
      end
  | REDIR c file mode fd =>
      call (SYS_close fd);;
      r <- call (SYS_open file mode);;
      if r <? 0 then fprintf 2 (line "open %s failed") [VStr (Some file)];; Exit 1 else
      runcmd c
  | LIST l r =>
      pid <- fork1;;
      if pid =? 0 then runcmd l else
      call SYS_wait;;
      runcmd r
  | PIPE l r =>
      fds <- ecall SYS_pipe;;
      if a_val fds <? 0 then sh_panic "pipe" else
      let '(p0, p1) := pipe_fds (a_out fds) in
      pid <- fork1;;
      if pid =? 0 then
        call (SYS_close 1);; call (SYS_dup p1);; call (SYS_close p0);; call (SYS_close p1);;
        runcmd l
      else
      pid <- fork1;;
      if pid =? 0 then
        call (SYS_close 0);; call (SYS_dup p0);; call (SYS_close p0);; call (SYS_close p1);;
        runcmd r
      else
      call (SYS_close p0);;
      call (SYS_close p1);;
      call SYS_wait;;
      call SYS_wait;;
      Exit 0
  | BACK c =>
      pid <- fork1;;
      if pid =? 0 then runcmd c else Exit 0
  end.

(** The line and whether there was one. The memset() of the buffer makes every
    byte behind the line 0, which is what a read past the list gives. *)
Definition getcmd (nbuf : Z) : prog (list Z * Z) :=
  call (SYS_write 2 [36; 32]);;
  buf <- gets nbuf;;
  Ret (buf, if hd 0 buf =? 0 then -1 else 0).

(** [while((fd = open("console", O_RDWR)) >= 0)]; [n] bounds the opens. *)
Fixpoint open_console (n : nat) : prog unit :=
  match n with
  | O => Fuel
  | S n =>
      fd <- call (SYS_open (chars "console") O_RDWR);;
      if fd <? 0 then Ret tt else
      if 3 <=? fd then call (SYS_close fd);; Ret tt else open_console n
  end.

(** One line after another; [n] bounds the number of lines. *)
Fixpoint sh_loop (n : nat) : prog unit :=
  match n with
  | O => Fuel
  | S n =>
      '(buf, r) <- getcmd 100;;
      if r <? 0 then Exit 0 else
      if (char_at buf 0 =? 99) && (char_at buf 1 =? 100) && (char_at buf 2 =? 32) then
        let buf := <[Z.to_nat (strlen buf - 1) := 0]> buf in
        r <- call (SYS_chdir (cstr (drop 3 buf)));;
        (when r <? 0 do fprintf 2 (line "cannot cd %s") [VStr (Some (drop 3 buf))]);;
        sh_loop n
      else
      pid <- fork1;;
      if pid =? 0 then c <- parsecmd buf;; runcmd c else
      call SYS_wait;;
      sh_loop n
  end.

Definition sh_main (n : nat) : prog unit := open_console n;; sh_loop n.
