(* ===== verification/ShSpec.v ===== *)
(** The shell's parser: it stops on every line, every string it passes on is
    a word of the line, and it reads back the commands of a grammar written
    out as text with any spacing. *)

From S2P Require Import Prelude Riscv User Sh.
Import Ulib Uprintf.

(** ** The line buffer *)

Lemma char_at_0 buf : char_at buf 0 = hd 0 buf.
Proof. by destruct buf. Qed.

Lemma user_strlen_spec buf :
  (forall i, (i < Z.to_nat (strlen buf))%nat -> char_at buf i <> 0) /\
  char_at buf (Z.to_nat (strlen buf)) = 0 /\ 0 <= strlen buf.
Proof.
  induction buf as [|c buf (IH1 & IH2 & IH3)]; [split_and!; [cbn; lia | done | done]|].
  cbn [strlen]. unfold c_true. destruct (Z.eqb_spec c 0) as [->|Hc]; cbn [negb].
  { split_and!; [cbn; lia | done | done]. }
  rewrite Z2Nat.inj_add by lia. change (Z.to_nat 1) with 1%nat. split_and!; [|done|lia].
  intros [|i] Hi; [done|]. apply IH1. lia.
Qed.

Lemma strlen_text text rest : Forall (fun c => c <> 0) text ->
  Z.to_nat (strlen (text ++ 0 :: rest)) = length text.
Proof.
  intros H. assert (strlen (text ++ 0 :: rest) = Z.of_nat (length text)) as ->; [|lia].
  induction H as [|c text Hc _ IH]; [done|]. cbn [app strlen length].
  unfold c_true. rewrite (proj2 (Z.eqb_neq c 0) Hc). cbn [negb]. rewrite IH. lia.
Qed.

Definition sub (buf : list Z) (w : span) : list Z := take (snd w - fst w) (drop (fst w) buf).

Lemma skip_range n f buf : forall s, (s <= skip n f buf s <= s + n)%nat.
Proof.
  induction n as [|n IH]; intros s; cbn; [lia|]. destruct (f (char_at buf s)); [|lia].
  specialize (IH (S s)). lia.
Qed.

Lemma skip_inside n f buf : forall s i, (s <= i < skip n f buf s)%nat -> f (char_at buf i) = true.
Proof.
  induction n as [|n IH]; intros s i; cbn; [lia|]. destruct (f (char_at buf s)) eqn:E; [|lia].
  intros Hi. destruct (decide (i = s)) as [->|]; [done|]. apply (IH (S s)). lia.
Qed.

Lemma skip_stops n f buf : forall s,
  (skip n f buf s < s + n)%nat -> f (char_at buf (skip n f buf s)) = false.
Proof.
  induction n as [|n IH]; intros s; cbn; [lia|]. destruct (f (char_at buf s)) eqn:E; [|done].
  intros H. apply IH. lia.
Qed.

(** A run of characters that satisfy [f] is skipped exactly when something
    that does not follows, or the end. *)
Lemma skip_exact n f buf s e :
  (s <= e <= s + n)%nat -> (forall i, (s <= i < e)%nat -> f (char_at buf i) = true) ->
  e = (s + n)%nat \/ f (char_at buf e) = false -> skip n f buf s = e.
Proof.
  intros He Hin Hout. pose proof (skip_range n f buf s) as Hr.
  destruct (Nat.lt_trichotomy (skip n f buf s) e) as [Hlt|[|Hgt]]; [|done|].
  - pose proof (skip_stops n f buf s ltac:(lia)) as H. rewrite Hin in H by lia. done.
  - destruct Hout as [->|Hout]; [lia|].
    rewrite (skip_inside n f buf s e) in Hout by lia. done.
Qed.

Lemma in_set_spec l c : Forall (fun x => x <> 0) l -> in_set l c = true <-> c ∈ l.
Proof.
  unfold in_set. induction 1 as [|x l Hx _ IH]; cbn; [by rewrite elem_of_nil|].
  unfold c_true. rewrite (proj2 (Z.eqb_neq x 0) Hx), elem_of_cons, <- IH. cbn [negb].
  destruct (Z.eqb_spec x c) as [->|Hne]; [naive_solver|]. destruct (strchr l c); naive_solver.
Qed.

Lemma in_symbols c : in_set symbols c = true <-> c ∈ [60; 124; 62; 38; 59; 40; 41].
Proof. apply in_set_spec. by repeat constructor. Qed.

Section Line.
Variables (buf : list Z) (es : nat).
Hypothesis Hnz : forall i, (i < es)%nat -> char_at buf i <> 0.
Hypothesis Hend : char_at buf es = 0.

Lemma skip_ws_range s : (s <= es)%nat -> (s <= skip_ws buf es s <= es)%nat.
Proof. intros. unfold skip_ws. pose proof (skip_range (es - s) (in_set whitespace) buf s). lia. Qed.

Lemma skip_ws_stops s : (s <= es)%nat -> in_set whitespace (char_at buf (skip_ws buf es s)) = false.
Proof.
  intros Hs. destruct (decide (skip_ws buf es s = es)) as [->|Hne]; [by rewrite Hend|].
  apply skip_stops. pose proof (skip_ws_range s Hs). unfold skip_ws in *. lia.
Qed.

Lemma skip_ws_fix s : (s <= es)%nat -> in_set whitespace (char_at buf s) = false -> skip_ws buf es s = s.
Proof. intros Hs Hw. apply skip_exact; [lia | lia | by right]. Qed.

Lemma skip_ws_idem s : (s <= es)%nat -> skip_ws buf es (skip_ws buf es s) = skip_ws buf es s.
Proof. intros Hs. pose proof (skip_ws_range s Hs). apply skip_ws_fix; [lia | by apply skip_ws_stops]. Qed.

Lemma gettoken_skip s : (s <= es)%nat -> gettoken buf es (skip_ws buf es s) = gettoken buf es s.
Proof. intros Hs. unfold gettoken. by rewrite skip_ws_idem. Qed.

(** A counted string is a maximal run of word characters. *)
Definition is_word (w : span) : Prop :=
  (fst w < snd w <= es)%nat /\
  (forall i, (fst w <= i < snd w)%nat -> word_char (char_at buf i) = true) /\
  (snd w = es \/ word_char (char_at buf (snd w)) = false).

Lemma gettoken_spec s : (s <= es)%nat ->
  exists r q eq s', gettoken buf es s = (r, q, eq, s') /\ q = skip_ws buf es s /\
    s' = skip_ws buf es eq /\ (s <= q <= eq)%nat /\ (eq <= s' <= es)%nat /\
    (r = 0 -> q = es) /\ (r <> 0 -> (q < eq)%nat) /\ (r = 97 -> is_word (q, eq)).
Proof.
  intros Hs. unfold gettoken. pose proof (skip_ws_range s Hs) as Hq. pose proof (skip_ws_stops s Hs) as Hw.
  set (q := skip_ws buf es s) in *. set (c := char_at buf q) in *.
  assert (c <> 0 -> (q < es)%nat) as Hlt.
  { intros Hc. destruct (decide (q = es)) as [E|]; [|lia]. unfold c in Hc. by rewrite E in Hc. }
  assert (forall r eq, (q <= eq <= es)%nat -> (r = 0 -> q = es) -> (r <> 0 -> (q < eq)%nat) ->
    (r = 97 -> is_word (q, eq)) ->
    exists r' q' eq' s', (r, q, eq, skip_ws buf es eq) = (r', q', eq', s') /\ q' = q /\
      s' = skip_ws buf es eq' /\ (s <= q' <= eq')%nat /\ (eq' <= s' <= es)%nat /\
      (r' = 0 -> q' = es) /\ (r' <> 0 -> (q' < eq')%nat) /\ (r' = 97 -> is_word (q', eq'))) as Hfin.
  { intros r eq Heq H1 H2 H3. exists r, q, eq, (skip_ws buf es eq).
    pose proof (skip_ws_range eq ltac:(lia)). split_and!; auto; lia. }
  destruct (Z.eqb_spec c 0) as [E|Hc].
  { apply Hfin; [lia| |done|].
    - intros _. destruct (decide (q = es)); [done|]. destruct (Hnz q); [lia | exact E].
    - rewrite E. done. }
  specialize (Hlt Hc).
  destruct ((c =? 124) || (c =? 40) || (c =? 41) || (c =? 59) || (c =? 38) || (c =? 60)) eqn:Esym.
  { apply Hfin; [lia | done | lia |]. intros E. rewrite E in Esym. done. }
  destruct (Z.eqb_spec c 62) as [E|Hgt].
  { destruct (Z.eqb_spec (char_at buf (S q)) 62) as [E2|].
    - apply Hfin; [|done|lia|done]. destruct (decide (S q = es)) as [E3|]; [|lia].
      rewrite E3, Hend in E2. done.
    - apply Hfin; [lia | lia | lia | by rewrite E]. }
  assert (word_char c = true) as Hwc.
  { unfold word_char. rewrite Hw. cbn [negb andb]. apply negb_true_iff, not_true_iff_false.
    rewrite in_symbols, !elem_of_cons, elem_of_nil. rewrite !orb_false_iff, !Z.eqb_neq in Esym. lia. }
  pose proof (skip_range (es - q) word_char buf q) as Hr.
  assert (q < skip (es - q) word_char buf q)%nat as Hadv.
  { destruct (es - q)%nat as [|n] eqn:En; [lia|]. cbn. fold c. rewrite Hwc.
    pose proof (skip_range n word_char buf (S q)). lia. }
  apply Hfin; [lia | done | lia |]. intros _. split_and!; cbn [fst snd]; [lia..| |].
  - intros i Hi. by eapply skip_inside.
  - destruct (decide (skip (es - q) word_char buf q = es)) as [->|]; [by left|].
    right. apply skip_stops. lia.
Qed.

(** peek() only moves over white space, and says yes only before a token. *)
Lemma peek_spec s toks : (s <= es)%nat ->
  exists b, peek buf es s toks = (b, skip_ws buf es s) /\
    (b = true -> (skip_ws buf es s < es)%nat).
Proof.
  intros Hs. unfold peek. eexists. split; [done|]. rewrite andb_true_iff, negb_true_iff, Z.eqb_neq.
  intros [Hc _]. pose proof (skip_ws_range s Hs).
  destruct (decide (skip_ws buf es s = es)) as [E|]; [|lia]. by rewrite E in Hc.
Qed.

(** ** Every line is parsed or refused *)

(** The function has not run out of fuel; what it returns satisfies [P], and
    it has not moved backwards. *)
Definition returns {A} (P : A -> Prop) (s : nat) (r : presult A) : Prop :=
  match r with
  | POk a s' => P a /\ (s <= s' <= es)%nat
  | PPanic _ => True
  | PFuel => False
  end.

Lemma returns_bind {A B} (P : A -> Prop) (Q : B -> Prop) s (r : presult A) (f : A -> nat -> presult B) :
  returns P s r -> (forall a s', P a -> (s <= s' <= es)%nat -> returns Q s' (f a s')) ->
  returns Q s (presult_bind r f).
Proof.
  destruct r as [a s'| |]; cbn; try done. intros [Ha Hs] Hf. specialize (Hf a s' Ha Hs).
  destruct (f a s'); cbn in *; try done. destruct Hf. split; [done|lia].
Qed.

Lemma returns_later {A} (P : A -> Prop) s s' r : (s <= s')%nat -> returns P s' r -> returns P s r.
Proof. intros Hs. destruct r; cbn; try done. intros [? ?]. split; [done|lia]. Qed.

Definition redirs_ok (rs : list (redir span)) : Prop := Forall (fun r => is_word (rd_file r)) rs.
Definition cmd_ok (c : cmd span) : Prop := Forall is_word (cmd_strings c).

Lemma redir_of_file {T} tok (f : T) : rd_file (redir_of tok f) = f.
Proof. unfold redir_of. by repeat destruct (_ =? _). Qed.

Lemma wrap_ok c rs : cmd_ok c -> redirs_ok rs -> cmd_ok (wrap c rs).
Proof.
  intros Hc Hrs. revert c Hc. induction Hrs as [|r rs Hr _ IH]; intros c Hc; [done|].
  cbn. apply IH. unfold cmd_ok in *. cbn. apply Forall_app. auto.
Qed.

Lemma parseredirs_returns n : forall rs s, redirs_ok rs -> (s <= es)%nat -> (es - s <= n)%nat ->
  returns redirs_ok s (parseredirs buf es n rs s).
Proof.
  induction n as [|n IH]; intros rs s Hrs Hs Hn; cbn [parseredirs];
    destruct (peek_spec s "<>" Hs) as (b & -> & Hb); pose proof (skip_ws_range s Hs) as Hw;
    destruct b; try (split; [done|lia]).
  { specialize (Hb eq_refl). cbn. lia. }
  specialize (Hb eq_refl).
  destruct (gettoken_spec (skip_ws buf es s)) as (r & q & eq & s1 & -> & -> & -> & Hr1 & Hr2 & H0 & Hadv & _); [lia|].
  rewrite skip_ws_idem in * by lia.
  assert (skip_ws buf es s < eq)%nat as Hlt by (destruct (decide (r = 0)); [specialize (H0 ltac:(done)); lia | auto]).
  destruct (gettoken_spec (skip_ws buf es eq)) as (r2 & q2 & eq2 & s2 & -> & _ & _ & Hs2 & Hs2' & _ & _ & Hwd); [lia|].
  destruct (Z.eqb_spec r2 97) as [->|]; cbn [negb]; [|done].
  apply (returns_later _ _ s2); [lia|]. apply IH; [|lia|lia].
  unfold redirs_ok. apply Forall_app. split; [done|]. constructor; [|done]. rewrite redir_of_file. auto.
Qed.

Definition args_ok (a : list span * list (redir span)) : Prop := Forall is_word (fst a) /\ redirs_ok (snd a).

Lemma parseargs_returns n : forall argv rs s, Forall is_word argv -> redirs_ok rs ->
  (s <= es)%nat -> (es - s < n)%nat -> returns args_ok s (parseargs buf es n argv rs s).
Proof.
  induction n as [|n IH]; intros argv rs s Ha Hrs Hs Hn; [lia|]. cbn [parseargs].
  destruct (peek_spec s "|)&;" Hs) as (b & -> & Hb). pose proof (skip_ws_range s Hs) as Hw.
  destruct b; [split; [done|lia]|].
  destruct (gettoken_spec (skip_ws buf es s)) as (r & q & eq & s1 & -> & _ & _ & Hr1 & Hr2 & H0 & Hadv & Hwd); [lia|].
  destruct (Z.eqb_spec r 0) as [->|H0']; [split; [done|lia]|]. specialize (Hadv H0').
  destruct (Z.eqb_spec r 97) as [->|]; cbn [negb]; [|done].
  destruct (MAXARGS <=? _)%nat; [done|].
  apply (returns_later _ _ s1); [lia|].
  eapply returns_bind; [apply parseredirs_returns; [done|lia|lia]|].
  intros rs' s' Hrs' Hs'. apply IH; [|done|lia|lia]. apply Forall_app. auto.
Qed.

Lemma parsebacks_returns n : forall c s, cmd_ok c -> (s <= es)%nat -> (es - s <= n)%nat ->
  returns cmd_ok s (parsebacks buf es n c s).
Proof.
  induction n as [|n IH]; intros c s Hc Hs Hn; cbn [parsebacks];
    destruct (peek_spec s "&" Hs) as (b & -> & Hb); pose proof (skip_ws_range s Hs) as Hw;
    destruct b; try (split; [done|lia]).
  { specialize (Hb eq_refl). cbn. lia. }
  specialize (Hb eq_refl).
  destruct (gettoken_spec (skip_ws buf es s)) as (r & q & eq & s1 & -> & Eq & _ & Hr1 & Hr2 & H0 & Hadv & _); [lia|].
  rewrite skip_ws_idem in Eq by lia.
  assert (q < eq)%nat by (destruct (decide (r = 0)); [specialize (H0 ltac:(done)); lia | auto]).
  apply (returns_later _ _ s1); [lia|]. apply IH; [done|lia|lia].
Qed.

(** After peek() has said yes, gettoken() moves forward. *)
Lemma peek_gettoken {A} (P : A -> Prop) s toks (f : nat -> presult A) (g : nat -> presult A) :
  (s <= es)%nat ->
  (forall s', (s < s' <= es)%nat -> returns P s' (f s')) ->
  (forall s', (s <= s' <= es)%nat -> returns P s' (g s')) ->
  returns P s (let '(b, s) := peek buf es s toks in
    if b then let '(_, _, _, s) := gettoken buf es s in f s else g s).
Proof.
  intros Hs Hf Hg. destruct (peek_spec s toks Hs) as (b & -> & Hb). pose proof (skip_ws_range s Hs) as Hw.
  destruct b; [|apply (returns_later _ _ (skip_ws buf es s)); [lia | apply Hg; lia]].
  specialize (Hb eq_refl).
  destruct (gettoken_spec (skip_ws buf es s)) as (r & q & eq & s1 & -> & Eq & _ & Hr1 & Hr2 & H0 & Hadv & _); [lia|].
  rewrite skip_ws_idem in Eq by lia.
  assert (q < eq)%nat by (destruct (decide (r = 0)); [specialize (H0 ltac:(done)); lia | auto]).
  apply (returns_later _ _ s1); [lia|]. apply Hf. lia.
Qed.

Lemma peek_gettoken' {A} (P : A -> Prop) s toks msg (f : nat -> presult A) :
  (s <= es)%nat -> (forall s', (s < s' <= es)%nat -> returns P s' (f s')) ->
  returns P s (let '(b, s) := peek buf es s toks in
    if negb b then PPanic msg else let '(_, _, _, s) := gettoken buf es s in f s).
Proof.
  intros Hs Hf. pose proof (peek_gettoken P s toks f (fun _ => PPanic msg) Hs Hf ltac:(done)) as H.
  destruct (peek buf es s toks) as [[|] s1]; exact H.
Qed.

Lemma parse_returns n : forall s, (s <= es)%nat ->
  ((4 * (es - s) + 4 <= n)%nat -> returns cmd_ok s (parseline buf es n s)) /\
  ((4 * (es - s) + 3 <= n)%nat -> returns cmd_ok s (parsepipe buf es n s)) /\
  ((4 * (es - s) + 2 <= n)%nat -> returns cmd_ok s (parseexec buf es n s)) /\
  ((4 * (es - s) + 1 <= n)%nat -> returns cmd_ok s (parseblock buf es n s)).
Proof.
  induction n as [|n IH]; intros s Hs; [split_and!; lia|].
  split_and!; intros Hn; cbn [parseline parsepipe parseexec parseblock].
  - eapply returns_bind; [apply IH; lia|]. intros c s1 Hc Hs1.
    eapply returns_bind; [apply parsebacks_returns; [done|lia|lia]|]. intros c2 s2 Hc2 Hs2.
    apply peek_gettoken; [lia| |intros; split; [done|lia]].
    intros s3 Hs3. eapply returns_bind; [apply IH; lia|]. intros r s4 Hr Hs4.
    split; [by apply Forall_app|lia].
  - eapply returns_bind; [apply IH; lia|]. intros c s1 Hc Hs1.
    apply peek_gettoken; [lia| |intros; split; [done|lia]].
    intros s3 Hs3. eapply returns_bind; [apply IH; lia|]. intros r s4 Hr Hs4.
    split; [by apply Forall_app|lia].
  - destruct (peek_spec s "(" Hs) as (b & -> & _). pose proof (skip_ws_range s Hs) as Hw.
    apply (returns_later _ _ (skip_ws buf es s)); [lia|]. destruct b; [apply IH; lia|].
    eapply returns_bind; [apply parseredirs_returns; [constructor|lia|lia]|]. intros rs s1 Hrs Hs1.
    eapply returns_bind; [apply parseargs_returns; [constructor|done|lia|lia]|]. intros [argv rs'] s2 [Ha Hrs'] Hs2.
    split; [by apply wrap_ok|lia].
  - apply (peek_gettoken' cmd_ok s "("); [lia|]. intros s1 Hs1.
    eapply returns_bind; [apply IH; lia|]. intros c s2 Hc Hs2.
    apply (peek_gettoken' cmd_ok s2 ")"); [lia|]. intros s3 Hs3.
    eapply returns_bind; [apply parseredirs_returns; [constructor|lia|lia]|]. intros rs s4 Hrs Hs4.
    split; [by apply wrap_ok|lia].
Qed.

(** ** Strings after nulterminate() *)

Definition terminated (ws : list span) (buf : list Z) : list Z :=
  fold_left (fun buf w => <[snd w := 0]> buf) ws buf.

Lemma char_at_insert l i j v : char_at (<[i := v]> l) j = if decide (i = j /\ (j < length l)%nat) then v else char_at l j.
Proof.
  unfold char_at. rewrite !nth_lookup. destruct (decide (i = j /\ (j < length l)%nat)) as [[-> Hj]|Hn].
  - by rewrite list_lookup_insert_eq.
  - destruct (decide (i = j)) as [->|]; [|by rewrite list_lookup_insert_ne].
    rewrite list_insert_ge by lia. done.
Qed.

Lemma length_terminated ws : forall l, length (terminated ws l) = length l.
Proof. induction ws as [|w ws IH]; intros l; [done|]. cbn. unfold terminated in IH. by rewrite IH, length_insert. Qed.

Lemma char_at_terminated ws : forall l j,
  char_at (terminated ws l) j = if decide (j ∈ map snd ws) then 0 else char_at l j.
Proof.
  induction ws as [|w ws IH]; intros l j; [done|]. unfold terminated in *. cbn [fold_left map]. rewrite IH.
  rewrite char_at_insert. destruct (decide (j ∈ map snd ws)), (decide (j ∈ snd w :: map snd ws)) as [H|H];
    try done; try (rewrite elem_of_cons in H; naive_solver).
  - rewrite elem_of_cons in H. destruct H as [->|H]; [|done].
    destruct (decide _) as [|Hd]; [done|]. unfold char_at. rewrite nth_overflow; [done|lia].
  - destruct (decide _) as [[<- _]|]; [|done]. rewrite elem_of_cons in H. naive_solver.
Qed.

(** A C string whose terminator is the first zero from [q] on. *)
Lemma cstr_span l q eq : (q <= eq)%nat ->
  (forall i, (q <= i < eq)%nat -> char_at l i <> 0) -> char_at l eq = 0 ->
  cstr (drop q l) = take (eq - q) (drop q l).
Proof.
  intros Hq. remember (eq - q)%nat as n eqn:En. revert q Hq En.
  induction n as [|n IH]; intros q Hq En Hin He.
  - replace eq with q in He by lia. unfold char_at in He. rewrite nth_lookup, <- lookup_drop, Nat.add_0_r in He || idtac.
    destruct (drop q l) as [|c l'] eqn:E; [done|]. cbn.
    assert (c = 0) as ->; [|done]. rewrite <- He. rewrite nth_lookup.
    replace q with (q + 0)%nat by lia. rewrite <- lookup_drop, E. done.
  - destruct (drop q l) as [|c l'] eqn:E; [done|].
    assert (char_at l q = c) as Ec.
    { unfold char_at. rewrite nth_lookup. replace q with (q + 0)%nat by lia. by rewrite <- lookup_drop, E. }
    cbn. rewrite (proj2 (Z.eqb_neq c 0)) by (rewrite <- Ec; apply Hin; lia). f_equal.
    assert (l' = drop (S q) l) as ->.
    { replace (S q) with (q + 1)%nat by lia. by rewrite <- drop_drop, E. }
    apply IH; [lia | lia | intros; apply Hin; lia | done].
Qed.

Lemma string_at_word ws w : Forall is_word ws -> w ∈ ws ->
  string_at (terminated ws buf) w = sub buf w.
Proof.
  intros Hws Hw. rewrite Forall_forall in Hws. destruct w as [q eq].
  destruct (Hws (q, eq) Hw) as (Hr & Hin & Hout). cbn [fst snd] in *.
  assert (forall i, (q <= i < eq)%nat -> i ∉ map snd ws) as Hfree.
  { intros i Hi ([q' eq'] & -> & Hw')%list_elem_of_fmap. cbn in Hi.
    destruct (Hws _ Hw') as (Hr' & _ & Hout'). cbn [fst snd] in *.
    rewrite Hin in Hout' by done. destruct Hout'; [lia|done]. }
  unfold string_at, sub. cbn [fst snd]. rewrite (cstr_span _ q eq); [| lia | |].
  - apply list_eq. intros i. destruct (decide (i < eq - q)%nat) as [Hi|Hi].
    + rewrite !lookup_take_lt, !lookup_drop by done.
      pose proof (char_at_terminated ws buf (q + i)) as H. rewrite decide_False in H by (apply Hfree; lia).
      unfold char_at in H. rewrite !nth_lookup in H.
      destruct (terminated ws buf !! (q + i)%nat) as [x|] eqn:E1, (buf !! (q + i)%nat) as [y|] eqn:E2;
        cbn in H; try done; [by subst|..].
      * apply lookup_ge_None in E2. apply lookup_lt_Some in E1. rewrite length_terminated in E1. lia.
      * apply lookup_ge_None in E1. apply lookup_lt_Some in E2. rewrite length_terminated in E1. lia.
    + rewrite !lookup_take_ge by lia. done.
  - intros i Hi. rewrite char_at_terminated, decide_False by (by apply Hfree). apply Hnz. lia.
  - rewrite char_at_terminated, decide_True; [done|]. apply list_elem_of_fmap. by exists (q, eq).
Qed.

End Line.

Lemma cmd_map_ext {T U} (f g : T -> U) c :
  (forall w, w ∈ cmd_strings c -> f w = g w) -> cmd_map f c = cmd_map g c.
Proof.
  induction c as [argv|c IH file mode fd|l IHl r IHr|l IHl r IHr|c IH]; cbn; intros H.
  - f_equal. by apply map_ext_Forall, Forall_forall.
  - rewrite IH, H; [done|..]; intros; try apply H; rewrite elem_of_app, ?elem_of_cons; auto.
  - rewrite IHl, IHr; [done|..]; intros; apply H; rewrite elem_of_app; auto.
  - rewrite IHl, IHr; [done|..]; intros; apply H; rewrite elem_of_app; auto.
  - by rewrite IH.
Qed.

Lemma parse_whole_returns buf :
  returns (Z.to_nat (strlen buf)) (cmd_ok buf (Z.to_nat (strlen buf))) 0 (parse_whole buf).
Proof.
  destruct (user_strlen_spec buf) as (Hnz & Hend & _). unfold parse_whole.
  eapply returns_bind; [apply parse_returns; [done|done|lia|lia]|].
  intros c s Hc Hs. destruct (peek_spec buf _ Hend s "" ltac:(lia)) as (b & -> & _).
  pose proof (skip_ws_range buf _ s ltac:(apply Hs)). split; [done|lia].
Qed.

(** C30: The recursive-descent parser of the shell stops on every line, whatever
    its characters: it returns a command or panics, with four levels of
    recursion for every character of the line as fuel. When it returns, every
    string of the command, read in the buffer after nulterminate(), is the run
    of characters between its two pointers: no terminator falls inside
    another string. *)
Theorem parser_terminates buf :
  (exists msg, parse_whole buf = PPanic msg) \/
  (exists c s, parse_whole buf = POk c s /\ (s <= Z.to_nat (strlen buf))%nat /\
    Forall (fun w => (fst w < snd w)%nat /\ string_at (nulterminate c buf) w = sub buf w) (cmd_strings c)).
Proof.
  destruct (user_strlen_spec buf) as (Hnz & Hend & _). pose proof (parse_whole_returns buf) as H.
  destruct (parse_whole buf) as [c s|msg|]; [|eauto|done]. destruct H as [Hc Hs].
  right. exists c, s. split_and!; [done|lia|]. apply Forall_forall. intros w Hw. split.
  - apply (proj1 (Forall_forall _ _) Hc) in Hw. destruct Hw. lia.
  - by apply (string_at_word _ (Z.to_nat (strlen buf))).
Qed.

(** ** A grammar of command lines

    A line is a pipeline, started in the background any number of times,
    and perhaps another line after a semicolon; a pipeline is a list of
    simple commands and blocks. A redirection is the code of its token (less,
    greater, or 43 for the doubled greater) and its file. *)

Definition sredir : Type := Z * list Z.

Inductive sline :=
| SLine (p : spipe) (bg : nat)
| SSeq (p : spipe) (bg : nat) (l : sline)
with spipe :=
| SPipe (e : sexec)
| SPipes (e : sexec) (p : spipe)
with sexec :=
| SSimple (rs : list sredir) (args : list (list Z * list sredir))
| SBlock (l : sline) (rs : list sredir).

(** The command a line means. *)
Definition sredirs (rs : list sredir) : list (redir (list Z)) := map (fun r => redir_of (fst r) (snd r)) rs.

Fixpoint line_cmd (l : sline) : cmd (list Z) :=
  match l with
  | SLine p bg => Nat.iter bg BACK (pipe_cmd p)
  | SSeq p bg l => LIST (Nat.iter bg BACK (pipe_cmd p)) (line_cmd l)
  end
with pipe_cmd (p : spipe) : cmd (list Z) :=
  match p with
  | SPipe e => exec_cmd e
  | SPipes e p => PIPE (exec_cmd e) (pipe_cmd p)
  end
with exec_cmd (e : sexec) : cmd (list Z) :=
  match e with
  | SSimple rs args => wrap (EXEC (map fst args)) (sredirs (rs ++ concat (map snd args)))
  | SBlock l rs => wrap (line_cmd l) (sredirs rs)
  end.

(** Its tokens. *)
Inductive token := Sym (c : Z) | Word (w : list Z).

Definition redir_toks (rs : list sredir) : list token := concat (map (fun r => [Sym (fst r); Word (snd r)]) rs).

Fixpoint line_toks (l : sline) : list token :=
  match l with
  | SLine p bg => pipe_toks p ++ replicate bg (Sym 38)
  | SSeq p bg l => pipe_toks p ++ replicate bg (Sym 38) ++ Sym 59 :: line_toks l
  end
with pipe_toks (p : spipe) : list token :=
  match p with
  | SPipe e => exec_toks e
  | SPipes e p => exec_toks e ++ Sym 124 :: pipe_toks p
  end
with exec_toks (e : sexec) : list token :=
  match e with
  | SSimple rs args => redir_toks rs ++ concat (map (fun a => Word (fst a) :: redir_toks (snd a)) args)
  | SBlock l rs => Sym 40 :: line_toks l ++ Sym 41 :: redir_toks rs
  end.

Definition redir_wf (rs : list sredir) : Prop := Forall (fun r => fst r ∈ [60; 62; 43]) rs.

(** Fewer than MAXARGS arguments, and known redirections. *)
Fixpoint line_wf (l : sline) : Prop :=
  match l with
  | SLine p _ => pipe_wf p
  | SSeq p _ l => pipe_wf p /\ line_wf l
  end
with pipe_wf (p : spipe) : Prop :=
  match p with
  | SPipe e => exec_wf e
  | SPipes e p => exec_wf e /\ pipe_wf p
  end
with exec_wf (e : sexec) : Prop :=
  match e with
  | SSimple rs args => redir_wf rs /\ Forall (fun a => redir_wf (snd a)) args /\ (length args < MAXARGS)%nat
  | SBlock l rs => line_wf l /\ redir_wf rs
  end.

(** The character a token starts with, as far as the sets of the parser can
    tell. *)
Definition starts (toks : string) (ts : list token) : bool :=
  match ts with
  | Sym c :: _ => in_set (chars toks) (if c =? 43 then 62 else c)
  | _ => false
  end.

(** ** Sets of symbols *)

Definition subset (a b : string) : bool := forallb (in_set (chars b)) (chars a).
Definition disjoint_syms (a b : string) : bool := forallb (fun c => negb (in_set (chars b) c)) (chars a).

Lemma in_set_mem l c : in_set l c = true -> c ∈ l.
Proof.
  unfold in_set. induction l as [|x l IH]; cbn; [done|]. rewrite elem_of_cons.
  destruct (c_true x); [|done]. destruct (Z.eqb_spec x c) as [->|]; [auto|].
  destruct (strchr l c); [auto|done].
Qed.

Lemma subset_in a b c : subset a b = true -> in_set (chars a) c = true -> in_set (chars b) c = true.
Proof.
  unfold subset. rewrite forallb_forall. intros H Hc%in_set_mem. by apply H, list_elem_of_In.
Qed.

Lemma disjoint_in a b c : disjoint_syms a b = true -> in_set (chars a) c = true -> in_set (chars b) c = false.
Proof.
  unfold disjoint_syms. rewrite forallb_forall. intros H Hc%in_set_mem. apply negb_true_iff.
  by apply H, list_elem_of_In.
Qed.

(** What may come after a construct: the end, or one of [toks]. *)
Definition follow (toks : string) (ts : list token) : Prop := ts = [] \/ starts toks ts = true.

Lemma follow_weaken a b ts : subset a b = true -> follow a ts -> follow b ts.
Proof.
  intros H [->|Hs]; [by left|]. right. destruct ts as [|[c|w] ts]; try done. by apply (subset_in a).
Qed.

Lemma follow_not a b ts : disjoint_syms a b = true -> follow a ts -> starts b ts = false.
Proof.
  intros H [->|Hs]; [done|]. destruct ts as [|[c|w] ts]; try done. by apply (disjoint_in a).
Qed.

Definition redir_map {T U} (f : T -> U) (r : redir T) : redir U := mkRedir (f (rd_file r)) (rd_mode r) (rd_fd r).

Lemma redir_map_of {T U} (f : T -> U) tok x : redir_map f (redir_of tok x) = redir_of tok (f x).
Proof. unfold redir_of. by repeat destruct (_ =? _). Qed.

Lemma cmd_map_wrap {T U} (f : T -> U) rs : forall c,
  cmd_map f (wrap c rs) = wrap (cmd_map f c) (map (redir_map f) rs).
Proof. induction rs as [|r rs IH]; intros c; [done|]. cbn. unfold wrap in IH. by rewrite IH. Qed.

(** ** Parsing tokens *)

Section Tokens.
Variables (buf : list Z) (es : nat).
Hypothesis Hnz : forall i, (i < es)%nat -> char_at buf i <> 0.
Hypothesis Hend : char_at buf es = 0.

(** What gettoken() reads, one token after the other. *)
Inductive lex : nat -> list token -> Prop :=
| lex_nil s : (s <= es)%nat -> skip_ws buf es s = es -> lex s []
| lex_sym s c q eq s' ts : (s <= es)%nat -> gettoken buf es s = (c, q, eq, s') ->
    c <> 0 -> c <> 97 -> lex s' ts -> lex s (Sym c :: ts)
| lex_word s w q eq s' ts : (s <= es)%nat -> gettoken buf es s = (97, q, eq, s') ->
    sub buf (q, eq) = w -> lex s' ts -> lex s (Word w :: ts).

Lemma lex_bound s ts : lex s ts -> (s <= es)%nat.
Proof. by destruct 1. Qed.

Lemma lex_skip s ts : (s <= es)%nat -> lex s ts <-> lex (skip_ws buf es s) ts.
Proof.
  intros Hs. pose proof (skip_ws_range buf es s Hs) as Hr.
  split; intros H; inversion H as [? ? H1|? ? ? ? ? ? ? H1|? ? ? ? ? ? ? H1]; subst;
    rewrite ?skip_ws_idem, ?gettoken_skip in H1 by done.
  1, 4: constructor; rewrite ?skip_ws_idem by done; done || lia.
  all: (eapply lex_sym || eapply lex_word); rewrite ?gettoken_skip by done; done || lia.
Qed.

Lemma gettoken_char s r q eq s' : (s <= es)%nat -> gettoken buf es s = (r, q, eq, s') ->
  (r = 97 /\ in_set symbols (char_at buf q) = false) \/
  (r <> 97 /\ char_at buf q = if r =? 43 then 62 else r).
Proof.
  intros Hs. unfold gettoken. pose proof (skip_ws_stops buf es Hend s Hs) as Hw.
  set (p := skip_ws buf es s) in *. set (c := char_at buf p) in *.
  destruct (Z.eqb_spec c 0) as [E|Hc]; [intros [= <- <- _ _]; right; fold c; rewrite E; done|].
  destruct ((c =? 124) || (c =? 40) || (c =? 41) || (c =? 59) || (c =? 38) || (c =? 60)) eqn:Esym.
  { intros [= <- <- _ _]. right. fold c. rewrite !orb_true_iff, !Z.eqb_eq in Esym.
    destruct (Z.eqb_spec c 43); lia. }
  destruct (Z.eqb_spec c 62) as [E|Hgt].
  { destruct (char_at buf (S p) =? 62); intros [= <- <- _ _]; right; fold c; rewrite E; done. }
  intros [= <- <- _ _]. left. split; [done|]. fold c. apply not_true_iff_false.
  rewrite in_symbols, !elem_of_cons, elem_of_nil. rewrite !orb_false_iff, !Z.eqb_neq in Esym. lia.
Qed.

Lemma peek_lex s ts toks : lex s ts ->
  (forall c, in_set (chars toks) c = true -> in_set symbols c = true) ->
  exists s', peek buf es s toks = (starts toks ts, s') /\ lex s' ts /\ (s <= s')%nat.
Proof.
  intros Hl Hsub. pose proof (lex_bound _ _ Hl) as Hs. pose proof (skip_ws_range buf es s Hs) as Hr.
  exists (skip_ws buf es s). rewrite <- lex_skip by done. split_and!; [|done|lia].
  unfold peek. f_equal. inversion Hl as [? _ E|? c q eq s' ? _ E Hc Hc97 _|? w q eq s' ? _ E Ew _]; subst.
  - by rewrite E, Hend.
  - destruct (gettoken_char _ _ _ _ _ Hs E) as [[? _]|[_ E2]]; [done|].
    assert (q = skip_ws buf es s) as ->.
    { destruct (gettoken_spec buf es Hnz Hend s Hs) as (? & ? & ? & ? & E3 & -> & _). congruence. }
    rewrite E2. cbn. destruct (Z.eqb_spec c 43); [done|]. by rewrite (proj2 (Z.eqb_neq c 0) Hc).
  - destruct (gettoken_char _ _ _ _ _ Hs E) as [[_ E2]|[? _]]; [|done].
    assert (q = skip_ws buf es s) as ->.
    { destruct (gettoken_spec buf es Hnz Hend s Hs) as (? & ? & ? & ? & E3 & -> & _). congruence. }
    cbn. apply andb_false_iff. right. apply not_true_iff_false. intros H%Hsub. congruence.
Qed.

Lemma gettoken_lex s t ts : lex s (t :: ts) ->
  exists r q eq s', gettoken buf es s = (r, q, eq, s') /\ lex s' ts /\ (s < s')%nat /\
    match t with Sym c => r = c /\ c <> 0 /\ c <> 97 | Word w => r = 97 /\ sub buf (q, eq) = w end.
Proof.
  intros Hl. pose proof (lex_bound _ _ Hl) as Hs.
  destruct (gettoken_spec buf es Hnz Hend s Hs) as (r & q & eq & s' & E & _ & _ & H1 & H2 & _ & Hadv & _).
  inversion Hl as [|? c q1 eq1 s1 ? _ E2|? w q1 eq1 s1 ? _ E2]; subst; rewrite E2 in E; injection E as <- <- <- <-.
  - exists c, q1, eq1, s1. specialize (Hadv ltac:(done)). split_and!; auto; lia.
  - exists 97, q1, eq1, s1. specialize (Hadv ltac:(done)). split_and!; auto; lia.
Qed.

Lemma gettoken_end s : lex s [] -> exists q eq, gettoken buf es s = (0, q, eq, es).
Proof.
  intros Hl. inversion Hl as [? Hs E| |]; subst. unfold gettoken. rewrite E, Hend. cbn.
  rewrite skip_ws_fix; [eauto|lia|by rewrite Hend].
Qed.

(** peek() then gettoken() at a known token, and peek() at another one. *)
Lemma peek_yes s ts toks : lex s ts -> subset toks "<|>&;()" = true -> starts toks ts = true ->
  exists s', peek buf es s toks = (true, s') /\ lex s' ts /\ (s <= s')%nat.
Proof.
  intros Hl Hsub Hst. destruct (peek_lex s ts toks Hl) as (s' & -> & ? & ?); [intros c; by apply subset_in|].
  rewrite Hst. eauto.
Qed.

Lemma peek_no s ts toks : lex s ts -> subset toks "<|>&;()" = true -> starts toks ts = false ->
  exists s', peek buf es s toks = (false, s') /\ lex s' ts /\ (s <= s')%nat.
Proof.
  intros Hl Hsub Hst. destruct (peek_lex s ts toks Hl) as (s' & -> & ? & ?); [intros c; by apply subset_in|].
  rewrite Hst. eauto.
Qed.

Lemma parseredirs_lex rs : forall n acc s rest, redir_wf rs -> lex s (redir_toks rs ++ rest) ->
  starts "<>" rest = false -> (es - s <= n)%nat ->
  exists rs' s', parseredirs buf es n acc s = POk (acc ++ rs') s' /\
    map (redir_map (sub buf)) rs' = sredirs rs /\ lex s' rest /\ (s <= s')%nat.
Proof.
  induction rs as [|[tok f] rs IH]; intros n acc s rest Hwf Hl Hrest Hn.
  - destruct (peek_no s rest "<>" Hl eq_refl Hrest) as (s' & Ep & Hl' & Hs').
    exists [], s'. rewrite app_nil_r. split_and!; [|done|done|lia]. destruct n; cbn [parseredirs]; by rewrite Ep.
  - inversion_clear Hwf as [|? ? Htok Hwf']. cbn [fst] in Htok.
    assert (starts "<>" (redir_toks ((tok, f) :: rs) ++ rest) = true) as Hst.
    { rewrite !elem_of_cons, elem_of_nil in Htok. cbn [redir_toks starts app map concat fst snd].
      by destruct Htok as [->|[->|[->|[]]]]. }
    destruct (peek_yes s _ "<>" Hl eq_refl Hst) as (s1 & Ep & Hl1 & Hs1).
    destruct (gettoken_lex s1 (Sym tok) (Word f :: redir_toks rs ++ rest) Hl1)
      as (r & q & eq & s2 & Eg & Hl2 & Hs2 & -> & _ & _).
    destruct (gettoken_lex s2 _ _ Hl2) as (r2 & q2 & eq2 & s3 & Eg2 & Hl3 & Hs3 & -> & Esub).
    pose proof (lex_bound _ _ Hl3).
    destruct n as [|n]; [lia|]. cbn [parseredirs]. rewrite Ep, Eg, Eg2. cbn [negb Z.eqb Pos.eqb].
    destruct (IH n (acc ++ [redir_of tok (q2, eq2)]) s3 rest Hwf' Hl3 Hrest ltac:(lia)) as (rs' & s' & -> & Em & Hl' & Hs').
    exists (redir_of tok (q2, eq2) :: rs'), s'. rewrite <- app_assoc. split_and!; [done| |done|lia].
    cbn. by rewrite redir_map_of, Esub, Em.
Qed.

Lemma parseargs_lex args : forall n argv rs s rest,
  Forall (fun a => redir_wf (snd a)) args ->
  lex s (concat (map (fun a => Word (fst a) :: redir_toks (snd a)) args) ++ rest) ->
  follow "|)&;" rest -> (length argv + length args < MAXARGS)%nat -> (es - s < n)%nat ->
  exists argv' rs' s', parseargs buf es n argv rs s = POk (argv ++ argv', rs ++ rs') s' /\
    map (sub buf) argv' = map fst args /\
    map (redir_map (sub buf)) rs' = sredirs (concat (map snd args)) /\ lex s' rest /\ (s <= s')%nat.
Proof.
  induction args as [|[a ars] args IH]; intros n argv rs s rest Hwf Hl Hrest Hlen Hn; (destruct n as [|n]; [lia|]).
  - cbn [map concat app] in Hl. destruct Hrest as [->|Hst].
    + destruct (peek_no s [] "|)&;" Hl eq_refl eq_refl) as (s1 & Ep & Hl1 & Hs1).
      destruct (gettoken_end s1 Hl1) as (q & eq & Eg). pose proof (lex_bound _ _ Hl1).
      exists [], [], es. rewrite !app_nil_r. cbn [parseargs]. rewrite Ep, Eg. split_and!; try done; [|lia].
      constructor; [lia|]. apply skip_ws_fix; [lia|by rewrite Hend].
    + destruct (peek_yes s rest "|)&;" Hl eq_refl Hst) as (s1 & Ep & Hl1 & Hs1).
      exists [], [], s1. rewrite !app_nil_r. cbn [parseargs]. by rewrite Ep.
  - inversion_clear Hwf as [|? ? Ha Hwf']. cbn [snd] in Ha. cbn [map concat app fst snd] in Hl.
    rewrite <- app_assoc in Hl. set (more := concat _ ++ rest) in Hl.
    destruct (peek_no s (Word a :: redir_toks ars ++ more) "|)&;" Hl eq_refl eq_refl) as (s1 & Ep & Hl1 & Hs1).
    destruct (gettoken_lex s1 _ _ Hl1) as (r & q & eq & s2 & Eg & Hl2 & Hs2 & -> & Esub).
    assert (starts "<>" more = false) as Hmore.
    { unfold more. destruct args as [|a2 args]; [|done]. by apply (follow_not "|)&;"). }
    pose proof (lex_bound _ _ Hl2).
    destruct (parseredirs_lex ars n rs s2 more Ha Hl2 Hmore ltac:(lia)) as (rs1 & s3 & Er & Em1 & Hl3 & Hs3).
    destruct (IH n (argv ++ [(q, eq)]) (rs ++ rs1) s3 rest Hwf' Hl3 Hrest) as (argv' & rs' & s' & Ea & Em2 & Em3 & Hl' & Hs').
    { rewrite length_app. cbn in *. lia. } { lia. }
    exists ((q, eq) :: argv'), (rs1 ++ rs'), s'. cbn [parseargs]. rewrite Ep, Eg. cbn [negb Z.eqb Pos.eqb].
    rewrite (proj2 (Nat.leb_gt _ _)) by (rewrite length_app; cbn in *; lia).
    rewrite Er. cbn [presult_bind]. rewrite Ea, <- !app_assoc. split_and!; [done| | |done|lia].
    + cbn [map fst]. by rewrite Esub, Em2.
    + rewrite map_app, Em1, Em3. unfold sredirs. cbn. by rewrite map_app.
Qed.

Lemma parsebacks_lex bg : forall n c s rest, lex s (replicate bg (Sym 38) ++ rest) ->
  starts "&" rest = false -> (es - s <= n)%nat ->
  exists s', parsebacks buf es n c s = POk (Nat.iter bg BACK c) s' /\ lex s' rest /\ (s <= s')%nat.
Proof.
  induction bg as [|bg IH]; intros n c s rest Hl Hrest Hn.
  - destruct (peek_no s rest "&" Hl eq_refl Hrest) as (s1 & Ep & Hl1 & Hs1).
    exists s1. split_and!; [|done|lia]. destruct n; cbn [parsebacks]; by rewrite Ep.
  - destruct (peek_yes s _ "&" Hl eq_refl eq_refl) as (s1 & Ep & Hl1 & Hs1).
    destruct (gettoken_lex s1 _ _ Hl1) as (r & q & eq & s2 & Eg & Hl2 & Hs2 & _). pose proof (lex_bound _ _ Hl2).
    destruct n as [|n]; [lia|]. cbn [parsebacks]. rewrite Ep, Eg.
    destruct (IH n (BACK c) s2 rest Hl2 Hrest ltac:(lia)) as (s' & -> & Hl' & Hs').
    exists s'. rewrite Nat.iter_succ_r. split_and!; [done|done|lia].
Qed.

(** One level of each parsing function. *)
Lemma parseline_S n s : parseline buf es (S n) s =
  presult_bind (parsepipe buf es n s) (fun c s =>
  presult_bind (parsebacks buf es (S es) c s) (fun c s =>
  let '(b, s) := peek buf es s ";" in
  if b then
    let '(_, _, _, s) := gettoken buf es s in
    presult_bind (parseline buf es n s) (fun r s => POk (LIST c r) s)
  else POk c s)).
Proof. done. Qed.

Lemma parsepipe_S n s : parsepipe buf es (S n) s =
  presult_bind (parseexec buf es n s) (fun c s =>
  let '(b, s) := peek buf es s "|" in
  if b then
    let '(_, _, _, s) := gettoken buf es s in
    presult_bind (parsepipe buf es n s) (fun r s => POk (PIPE c r) s)
  else POk c s).
Proof. done. Qed.

Lemma parseexec_S n s : parseexec buf es (S n) s =
  let '(b, s) := peek buf es s "(" in
  if b then parseblock buf es n s else
  presult_bind (parseredirs buf es (S es) [] s) (fun rs s =>
  presult_bind (parseargs buf es (S es) [] rs s) (fun '(argv, rs) s =>
  POk (wrap (EXEC argv) rs) s)).
Proof. done. Qed.

Lemma parseblock_S n s : parseblock buf es (S n) s =
  let '(b, s) := peek buf es s "(" in
  if negb b then PPanic "parseblock" else
  let '(_, _, _, s) := gettoken buf es s in
  presult_bind (parseline buf es n s) (fun c s =>
  let '(b, s) := peek buf es s ")" in
  if negb b then PPanic "syntax - missing )" else
  let '(_, _, _, s) := gettoken buf es s in
  presult_bind (parseredirs buf es (S es) [] s) (fun rs s =>
  POk (wrap c rs) s)).
Proof. done. Qed.

(** The outcome of parsing a construct that means [m] before [rest]. *)
Definition parsed (r : presult (cmd span)) (m : cmd (list Z)) (s : nat) (rest : list token) : Prop :=
  exists c s', r = POk c s' /\ cmd_map (sub buf) c = m /\ lex s' rest /\ (s <= s')%nat.

Definition line_parsed n s : Prop := forall l rest, line_wf l -> lex s (line_toks l ++ rest) ->
  follow ")" rest -> parsed (parseline buf es n s) (line_cmd l) s rest.
Definition pipe_parsed n s : Prop := forall p rest, pipe_wf p -> lex s (pipe_toks p ++ rest) ->
  follow ")&;" rest -> parsed (parsepipe buf es n s) (pipe_cmd p) s rest.
Definition exec_parsed n s : Prop := forall e rest, exec_wf e -> lex s (exec_toks e ++ rest) ->
  follow "|)&;" rest -> parsed (parseexec buf es n s) (exec_cmd e) s rest.
Definition block_parsed n s : Prop := forall l rs rest, exec_wf (SBlock l rs) ->
  lex s (exec_toks (SBlock l rs) ++ rest) ->
  follow "|)&;" rest -> parsed (parseblock buf es n s) (exec_cmd (SBlock l rs)) s rest.

Lemma iter_cmd_map {T U} (f : T -> U) bg c : cmd_map f (Nat.iter bg BACK c) = Nat.iter bg BACK (cmd_map f c).
Proof. induction bg as [|bg IH]; [done|]. rewrite !Nat.iter_succ. cbn [cmd_map]. by rewrite IH. Qed.

Lemma starts_backs toks bg rest : in_set (chars toks) 38 = true -> follow toks rest ->
  follow toks (replicate bg (Sym 38) ++ rest).
Proof. intros H Hr. destruct bg; [done|]. by right. Qed.

Lemma line_step n s :
  (forall s', (s < s' <= es)%nat -> line_parsed n s') -> pipe_parsed n s -> line_parsed (S n) s.
Proof.
  intros IHl IHp l rest Hwf Hl Hrest. rewrite parseline_S.
  assert (exists p bg more, pipe_wf p /\ lex s (pipe_toks p ++ replicate bg (Sym 38) ++ more) /\
    follow ");" more /\
    ((l = SLine p bg /\ more = rest) \/
     exists l', l = SSeq p bg l' /\ line_wf l' /\ more = Sym 59 :: line_toks l' ++ rest)) as
    (p & bg & more & Hp & Hlp & Hm & Hcase).
  { destruct l as [p bg|p bg l']; cbn [line_toks line_wf] in *.
    - exists p, bg, rest. rewrite <- app_assoc in Hl. split_and!; auto. by apply (follow_weaken ")").
    - destruct Hwf as [Hp Hl']. exists p, bg, (Sym 59 :: line_toks l' ++ rest).
      rewrite <- !app_assoc in Hl. split_and!; [done|done|by right|eauto]. }
  destruct (IHp p _ Hp Hlp) as (c & s1 & -> & Ec & Hl1 & Hs1).
  { apply starts_backs; [done|]. by apply (follow_weaken ");"). }
  cbn [presult_bind]. pose proof (lex_bound _ _ Hl1).
  destruct (parsebacks_lex bg (S es) c s1 more Hl1) as (s2 & -> & Hl2 & Hs2); [by apply (follow_not ");")|lia|].
  cbn [presult_bind]. destruct Hcase as [[-> ->]|(l' & -> & Hl' & ->)].
  - destruct (peek_no s2 rest ";" Hl2 eq_refl) as (s3 & -> & Hl3 & Hs3); [by apply (follow_not ")")|].
    exists (Nat.iter bg BACK c), s3. rewrite iter_cmd_map, Ec. split_and!; [done|done|done|lia].
  - destruct (peek_yes s2 _ ";" Hl2 eq_refl eq_refl) as (s3 & -> & Hl3 & Hs3).
    destruct (gettoken_lex s3 _ _ Hl3) as (r & q & eq & s4 & -> & Hl4 & Hs4 & _).
    pose proof (lex_bound _ _ Hl4).
    destruct (IHl s4 ltac:(lia) l' rest Hl' Hl4 Hrest) as (c2 & s5 & -> & Ec2 & Hl5 & Hs5).
    exists (LIST (Nat.iter bg BACK c) c2), s5. cbn [presult_bind cmd_map line_cmd].
    rewrite iter_cmd_map, Ec, Ec2. split_and!; [done|done|done|lia].
Qed.

Lemma pipe_step n s :
  (forall s', (s < s' <= es)%nat -> pipe_parsed n s') -> exec_parsed n s -> pipe_parsed (S n) s.
Proof.
  intros IHp IHe p rest Hwf Hl Hrest. rewrite parsepipe_S. destruct p as [e|e p]; cbn [pipe_toks pipe_wf] in *.
  - destruct (IHe e rest Hwf Hl) as (c & s1 & -> & Ec & Hl1 & Hs1); [by apply (follow_weaken ")&;")|].
    cbn [presult_bind]. destruct (peek_no s1 rest "|" Hl1 eq_refl) as (s2 & -> & Hl2 & Hs2); [by apply (follow_not ")&;")|].
    exists c, s2. split_and!; [done|done|done|lia].
  - destruct Hwf as [He Hp]. rewrite <- app_assoc in Hl. cbn [app] in Hl.
    destruct (IHe e _ He Hl) as (c & s1 & -> & Ec & Hl1 & Hs1); [by right|].
    cbn [presult_bind]. destruct (peek_yes s1 _ "|" Hl1 eq_refl eq_refl) as (s2 & -> & Hl2 & Hs2).
    destruct (gettoken_lex s2 _ _ Hl2) as (r & q & eq & s3 & -> & Hl3 & Hs3 & _). pose proof (lex_bound _ _ Hl3).
    destruct (IHp s3 ltac:(lia) p rest Hp Hl3 Hrest) as (c2 & s4 & -> & Ec2 & Hl4 & Hs4).
    exists (PIPE c c2), s4. cbn [presult_bind cmd_map pipe_cmd]. rewrite Ec, Ec2. split_and!; [done|done|done|lia].
Qed.

Lemma exec_step n s :
  (forall s', (s <= s' <= es)%nat -> block_parsed n s') -> exec_parsed (S n) s.
Proof.
  intros IHb e rest Hwf Hl Hrest. rewrite parseexec_S. destruct e as [rs args|l rs].
  - destruct Hwf as (Hrs & Hargs & Hlen). cbn [exec_toks] in Hl. rewrite <- app_assoc in Hl.
    set (more := concat _ ++ rest) in Hl.
    assert (starts "<>" more = false) as Hmore.
    { unfold more. destruct args; [by apply (follow_not "|)&;")|done]. }
    assert (starts "(" (redir_toks rs ++ more) = false) as Hblk.
    { destruct rs as [|[tok f] rs].
      - unfold more. destruct args; [by apply (follow_not "|)&;")|done].
      - inversion_clear Hrs as [|? ? Htok _]. cbn [fst] in Htok. rewrite !elem_of_cons, elem_of_nil in Htok.
        cbn [redir_toks starts app map concat fst snd]. by destruct Htok as [->|[->|[->|[]]]]. }
    destruct (peek_no s _ "(" Hl eq_refl Hblk) as (s1 & -> & Hl1 & Hs1). pose proof (lex_bound _ _ Hl1).
    destruct (parseredirs_lex rs (S es) [] s1 more Hrs Hl1 Hmore ltac:(lia)) as (rs1 & s2 & -> & Em1 & Hl2 & Hs2).
    cbn [presult_bind app]. pose proof (lex_bound _ _ Hl2).
    destruct (parseargs_lex args (S es) [] rs1 s2 rest Hargs Hl2 Hrest) as (argv & rs2 & s3 & -> & Em2 & Em3 & Hl3 & Hs3);
      [cbn; lia|lia|].
    cbn [presult_bind app exec_cmd]. eexists _, s3. split_and!; [done| |done|lia].
    rewrite cmd_map_wrap. cbn [cmd_map]. rewrite map_app, Em1, Em2, Em3. unfold sredirs. by rewrite map_app.
  - destruct (peek_yes s _ "(" Hl eq_refl eq_refl) as (s1 & -> & Hl1 & Hs1). pose proof (lex_bound _ _ Hl1).
    destruct (IHb s1 ltac:(lia) l rs rest Hwf Hl1 Hrest) as (c & s2 & -> & Ec & Hl2 & Hs2).
    exists c, s2. split_and!; [done|done|done|lia].
Qed.

Lemma block_step n s :
  (forall s', (s < s' <= es)%nat -> line_parsed n s') -> block_parsed (S n) s.
Proof.
  intros IHl l rs rest [Hl Hrs] Hlex Hrest. cbn [exec_toks app] in Hlex. rewrite <- app_assoc in Hlex. cbn [app] in Hlex.
  rewrite parseblock_S.
  destruct (peek_yes s _ "(" Hlex eq_refl eq_refl) as (s1 & -> & Hl1 & Hs1). cbn [negb].
  destruct (gettoken_lex s1 _ _ Hl1) as (r & q & eq & s2 & -> & Hl2 & Hs2 & _). pose proof (lex_bound _ _ Hl2).
  destruct (IHl s2 ltac:(lia) l _ Hl Hl2) as (c & s3 & -> & Ec & Hl3 & Hs3); [by right|].
  cbn [presult_bind].
  destruct (peek_yes s3 _ ")" Hl3 eq_refl eq_refl) as (s4 & -> & Hl4 & Hs4). cbn [negb].
  destruct (gettoken_lex s4 _ _ Hl4) as (r5 & q5 & eq5 & s5 & -> & Hl5 & Hs5 & _). pose proof (lex_bound _ _ Hl5).
  destruct (parseredirs_lex rs (S es) [] s5 rest Hrs Hl5) as (rs' & s6 & -> & Em & Hl6 & Hs6);
    [by apply (follow_not "|)&;")|lia|].
  cbn [presult_bind app exec_cmd]. exists (wrap c rs'), s6. rewrite cmd_map_wrap, Ec, Em.
  split_and!; [done|done|done|lia].
Qed.

Lemma parse_lex n : forall s, (s <= es)%nat ->
  ((4 * (es - s) + 4 <= n)%nat -> line_parsed n s) /\ ((4 * (es - s) + 3 <= n)%nat -> pipe_parsed n s) /\
  ((4 * (es - s) + 2 <= n)%nat -> exec_parsed n s) /\ ((4 * (es - s) + 1 <= n)%nat -> block_parsed n s).
Proof.
  induction n as [|n IH]; intros s Hs; [split_and!; lia|]. split_and!; intros Hn.
  - apply line_step; [intros s' Hs'|]; apply IH; lia.
  - apply pipe_step; [intros s' Hs'|]; apply IH; lia.
  - apply exec_step. intros s' Hs'. apply IH; lia.
  - apply block_step. intros s' Hs'. apply IH; lia.
Qed.

End Tokens.

(** ** Writing tokens as text *)

Definition tok_text (t : token) : list Z :=
  match t with Sym c => if c =? 43 then [62; 62] else [c] | Word w => w end.

Definition tok_wf (t : token) : Prop :=
  match t with
  | Sym c => c ∈ [60; 62; 43; 124; 38; 59; 40; 41]
  | Word w => w <> [] /\ Forall (fun c => c <> 0 /\ word_char c = true) w
  end.

(** Whether two tokens may stand next to each other without white space. *)
Definition glue (prev : option token) (t : token) : bool :=
  match prev, t with
  | Some (Word _), Word _ => false
  | Some (Sym c), Sym d => negb ((c =? 62) && ((d =? 62) || (d =? 43)))
  | _, _ => true
  end.

Definition blank (ws : list Z) : Prop := Forall (fun c => in_set whitespace c = true) ws.

(** [text] writes the tokens with any white space around them. *)
Inductive renders : option token -> list token -> list Z -> Prop :=
| R_end prev ws : blank ws -> renders prev [] ws
| R_cons prev t ts ws text : blank ws -> (ws = [] -> glue prev t = true) -> tok_wf t ->
    renders (Some t) ts text -> renders prev (t :: ts) (ws ++ tok_text t ++ text).

Lemma in_whitespace c : in_set whitespace c = true <-> c ∈ [32; 9; 13; 10; 11].
Proof. apply in_set_spec. by repeat constructor. Qed.

Lemma blank_not_nul c : in_set whitespace c = true -> c <> 0.
Proof. rewrite in_whitespace, !elem_of_cons, elem_of_nil. lia. Qed.

Lemma tok_text_cons t : tok_wf t ->
  exists c l, tok_text t = c :: l /\ c <> 0 /\ in_set whitespace c = false /\
    match t with Sym d => c = (if d =? 43 then 62 else d) | Word w => word_char c = true end.
Proof.
  destruct t as [d|w]; cbn.
  - rewrite !elem_of_cons, elem_of_nil. intros H.
    repeat (destruct H as [->|H]; [eexists _, _; split_and!; done|]). done.
  - intros [Hne Hw]. destruct Hw as [|c l [Hc Hwc]]; [done|]. exists c, l. split_and!; try done.
    unfold word_char in Hwc. by destruct (in_set whitespace c).
Qed.

Lemma tok_text_no_nul t : tok_wf t -> Forall (fun c => c <> 0) (tok_text t).
Proof.
  destruct t as [d|w]; cbn.
  - rewrite !elem_of_cons, elem_of_nil. intros H.
    repeat (destruct H as [->|H]; [by repeat constructor|]). done.
  - intros [_ H]. eapply Forall_impl; [exact H|]. naive_solver.
Qed.

Lemma renders_no_nul prev ts text : renders prev ts text -> Forall (fun c => c <> 0) text.
Proof.
  assert (forall ws, blank ws -> Forall (fun c => c <> 0) ws) as Hb.
  { intros ws H. eapply Forall_impl; [exact H|]. apply blank_not_nul. }
  induction 1 as [prev ws Hws|prev t ts ws text Hws _ Ht _ IH]; [auto|].
  rewrite !Forall_app. auto using tok_text_no_nul.
Qed.

(** What follows a token in a text cannot be taken for a part of it. *)
Lemma renders_next t ts text rest : renders (Some t) ts text ->
  match t with
  | Sym c => c = 62 -> hd 0 (text ++ 0 :: rest) <> 62
  | Word _ => text = [] \/ word_char (hd 0 (text ++ 0 :: rest)) = false
  end.
Proof.
  intros H. inversion H as [? ws Hws|? t' ts' ws text' Hws Hg Ht Hr]; subst.
  - destruct Hws as [|c ws Hc _]; [destruct t; [done|by left]|].
    destruct t; cbn; [|right; unfold word_char; by rewrite Hc].
    intros _ ->. done.
  - destruct Hws as [|c ws Hc _].
    + destruct (tok_text_cons t' Ht) as (c & l & -> & Hc0 & _ & Hm). specialize (Hg eq_refl).
      destruct t as [d|w], t' as [d'|w']; cbn in Hg |- *; [| |right|done].
      * intros ->. cbn in Hg. subst c. destruct (Z.eqb_spec d' 62), (Z.eqb_spec d' 43); done.
      * intros _ ->. done.
      * unfold word_char. apply andb_false_iff. right. apply negb_false_iff, in_symbols. subst c.
        cbn in Ht. rewrite !elem_of_cons, elem_of_nil in *.
        destruct (Z.eqb_spec d' 43) as [->|]; naive_solver.
    + destruct t; cbn; [|right; unfold word_char; by rewrite Hc].
      intros _ ->. done.
Qed.

Lemma char_at_drop buf s i : char_at buf (s + i) = nth i (drop s buf) 0.
Proof. unfold char_at. by rewrite !nth_lookup, lookup_drop. Qed.

Section Lexing.
Variables (buf : list Z) (es : nat).
Hypothesis Hnz : forall i, (i < es)%nat -> char_at buf i <> 0.
Hypothesis Hend : char_at buf es = 0.

Lemma skip_ws_text s ws l : blank ws -> drop s buf = ws ++ l -> (s + length ws <= es)%nat ->
  (s + length ws)%nat = es \/ in_set whitespace (hd 0 l) = false -> skip_ws buf es s = (s + length ws)%nat.
Proof.
  intros Hws Hd Hle Hnext. apply skip_exact; [lia| |].
  - intros i Hi. replace i with (s + (i - s))%nat by lia.
    rewrite char_at_drop, Hd, app_nth1 by lia. apply (proj1 (Forall_forall _ _) Hws).
    rewrite nth_lookup. destruct (lookup_lt_is_Some_2 ws (i - s)) as [x Hx]; [lia|].
    rewrite Hx. by eapply list_elem_of_lookup_2.
  - destruct Hnext as [|Hn]; [left; lia|]. right. rewrite char_at_drop, Hd, app_nth2, Nat.sub_diag by lia.
    by destruct l.
Qed.

Lemma gettoken_text s ws t ts text rest :
  blank ws -> tok_wf t -> drop s buf = ws ++ tok_text t ++ text ++ 0 :: rest ->
  es = (s + length ws + length (tok_text t) + length text)%nat -> renders (Some t) ts text ->
  let q := (s + length ws)%nat in let eq := (q + length (tok_text t))%nat in
  gettoken buf es s = (match t with Sym c => c | Word _ => 97 end, q, eq, skip_ws buf es eq).
Proof.
  intros Hws Ht Hd Hes Hr q eq.
  destruct (tok_text_cons t Ht) as (c & l & Etxt & Hc0 & Hcw & Hm).
  assert (skip_ws buf es s = q) as Hq.
  { apply (skip_ws_text s ws (tok_text t ++ text ++ 0 :: rest) Hws Hd); [lia|]. right. by rewrite Etxt. }
  assert (drop q buf = tok_text t ++ text ++ 0 :: rest) as Hdq.
  { unfold q. rewrite <- drop_drop, Hd. apply drop_app_length. }
  assert (char_at buf q = c) as Hcq.
  { replace q with (q + 0)%nat by lia. rewrite char_at_drop, Hdq, Etxt. done. }
  pose proof (renders_next t ts text rest Hr) as Hnext.
  unfold gettoken. rewrite Hq, Hcq, (proj2 (Z.eqb_neq c 0) Hc0).
  destruct t as [d|w]; cbn [tok_text] in *.
  - subst c. cbn in Ht. rewrite !elem_of_cons, elem_of_nil in Ht.
    destruct (decide (d = 62)) as [->|H62]; [|destruct (decide (d = 43)) as [->|H43]].
    + cbn [Z.eqb Pos.eqb orb length] in *. specialize (Hnext eq_refl).
      assert (char_at buf (S q) <> 62) as Hn.
      { replace (S q) with (q + 1)%nat by lia. rewrite char_at_drop, Hdq. cbn [app nth].
        by destruct text. }
      rewrite (proj2 (Z.eqb_neq _ 62) Hn). unfold eq. by replace (q + 1)%nat with (S q) by lia.
    + cbn [Z.eqb Pos.eqb orb length] in *.
      assert (char_at buf (S q) = 62) as ->.
      { replace (S q) with (q + 1)%nat by lia. by rewrite char_at_drop, Hdq. }
      rewrite Z.eqb_refl. unfold eq. by replace (q + 2)%nat with (S (S q)) by lia.
    + unfold eq. rewrite (proj2 (Z.eqb_neq d 43) H43) in *. cbn [length].
      replace (q + 1)%nat with (S q) by lia.
      destruct Ht as [->|[->|[->|[->|[->|[->|[->|[->|[]]]]]]]]]; try done.
  - assert (forall i, (q <= i < eq)%nat -> word_char (char_at buf i) = true) as Hin.
    { intros i Hi. replace i with (q + (i - q))%nat by lia. unfold eq in Hi.
      rewrite char_at_drop, Hdq, app_nth1 by lia. destruct Ht as [_ Hw].
      rewrite nth_lookup. destruct (lookup_lt_is_Some_2 w (i - q)) as [x Hx]; [lia|]. rewrite Hx.
      apply (proj1 (Forall_forall _ _) Hw x). by eapply list_elem_of_lookup_2. }
    assert (in_set symbols c = false) as Hsym.
    { unfold word_char in Hm. rewrite Hcw in Hm. by apply negb_true_iff. }
    apply not_true_iff_false in Hsym. rewrite in_symbols, !elem_of_cons, elem_of_nil in Hsym.
    assert ((c =? 124) || (c =? 40) || (c =? 41) || (c =? 59) || (c =? 38) || (c =? 60) = false) as ->
      by (rewrite !orb_false_iff, !Z.eqb_neq; lia).
    rewrite (proj2 (Z.eqb_neq c 62)) by lia.
    rewrite (skip_exact _ _ _ q eq); [done|unfold eq; lia|done|].
    destruct Hnext as [->|Hn]; [left; cbn in Hes; unfold eq; lia|]. right. unfold eq.
    rewrite char_at_drop, Hdq, app_nth2, Nat.sub_diag by lia. by destruct text.
Qed.

Lemma renders_lex prev ts text : renders prev ts text -> forall s rest,
  drop s buf = text ++ 0 :: rest -> es = (s + length text)%nat -> lex buf es s ts.
Proof.
  induction 1 as [prev ws Hws|prev t ts ws text Hws Hg Ht Hr IH]; intros s rest Hd Hes.
  - constructor; [lia|]. rewrite (skip_ws_text s ws (0 :: rest)); [lia|done|done|lia|by left].
  - rewrite <- !app_assoc in Hd. rewrite !length_app in Hes.
    pose proof (gettoken_text s ws t ts text rest Hws Ht Hd ltac:(lia) Hr) as Hg'. cbn zeta in Hg'.
    set (q := (s + length ws)%nat) in *. set (eq := (q + length (tok_text t))%nat) in *.
    assert (drop q buf = tok_text t ++ text ++ 0 :: rest) as Hdq.
    { unfold q. rewrite <- drop_drop, Hd. apply drop_app_length. }
    assert (lex buf es (skip_ws buf es eq) ts) as Hlex.
    { rewrite <- lex_skip; [|done|unfold eq, q; lia]. apply (IH eq rest); [|unfold eq, q; lia].
      unfold eq. rewrite <- drop_drop, Hdq. apply drop_app_length. }
    destruct t as [c|w].
    + cbn in Ht. rewrite !elem_of_cons, elem_of_nil in Ht.
      eapply lex_sym; [lia|exact Hg'| | |exact Hlex]; lia.
    + eapply lex_word; [lia|exact Hg'| |exact Hlex]. unfold sub, eq. cbn [fst snd tok_text].
      rewrite Hdq. replace (q + length w - q)%nat with (length w) by lia. apply take_app_length.
Qed.
End Lexing.

(** C21: Reading back what was written: for every command line of the grammar
    (pipelines, lists, background commands, blocks, redirections, fewer than
    MAXARGS arguments), written as text with any white space between its
    tokens and followed in the buffer by its terminator and anything else,
    parsecmd() returns the command the line means, its strings the words of
    the line. *)
Theorem parsecmd_reads l text rest :
  line_wf l -> renders None (line_toks l) text -> parsecmd (text ++ 0 :: rest) = Ret (line_cmd l).
Proof.
  intros Hwf Hr. set (buf := text ++ 0 :: rest).
  destruct (user_strlen_spec buf) as (Hnz & Hend & _). pose proof (parse_whole_returns buf) as Hret.
  assert (Z.to_nat (strlen buf) = length text) as Hlen by (apply strlen_text; eauto using renders_no_nul).
  unfold parsecmd. unfold parse_whole in *. rewrite Hlen in *.
  assert (lex buf (length text) 0 (line_toks l ++ [])) as Hlex.
  { rewrite app_nil_r. by apply (renders_lex buf _ Hend None _ text Hr 0 rest). }
  destruct (parse_lex buf _ Hnz Hend (4 * S (length text)) 0) as (Hline & _); [lia|].
  destruct (Hline ltac:(lia) l [] Hwf Hlex) as (c & s1 & E & Ec & Hl1 & _); [by left|].
  rewrite E in Hret |- *. cbn [presult_bind] in *.
  assert (peek buf (length text) s1 "" = (false, length text)) as Ep.
  { inversion Hl1 as [? _ E1| |]. unfold peek. by rewrite E1, Hend. }
  rewrite Ep in Hret |- *. rewrite Nat.eqb_refl. cbn [negb]. f_equal. rewrite <- Ec.
  destruct Hret as [Hc _]. apply cmd_map_ext. intros w Hw. by apply (string_at_word _ (length text)).
Qed.

(** One token of a text, as a step. *)
Lemma R_next prev t ts ws full :
  take (length (ws ++ tok_text t)) full = ws ++ tok_text t -> blank ws ->
  (ws = [] -> glue prev t = true) -> tok_wf t ->
  renders (Some t) ts (drop (length (ws ++ tok_text t)) full) -> renders prev (t :: ts) full.
Proof.
  intros E Hws Hg Ht Hr. rewrite <- (take_drop (length (ws ++ tok_text t)) full), E, <- app_assoc.
  by constructor.
Qed.

Ltac example_tok := cbn; first [set_solver | split; [done | by repeat constructor]].

(** [ls -l < in | (grep x; wc) > out &]. *)
Definition example_line : sline :=
  SLine (SPipes (SSimple [] [(chars "ls", []); (chars "-l", [(60, chars "in")])])
    (SPipe (SBlock (SSeq (SPipe (SSimple [] [(chars "grep", []); (chars "x", [])])) 0
      (SLine (SPipe (SSimple [] [(chars "wc", [])])) 0)) [(62, chars "out")]))) 1.

Lemma parsecmd_reads_witness :
  parsecmd (chars "ls -l<in |(grep x;wc)>out &" ++ [10] ++ [0; 7; 7]) = Ret (line_cmd example_line).
Proof.
  apply (parsecmd_reads example_line (chars "ls -l<in |(grep x;wc)>out &" ++ [10]) [7; 7]).
  - cbn -[MAXARGS]. unfold MAXARGS, redir_wf. repeat (split || constructor); set_solver || lia.
  - cbn.
    repeat first
      [ apply R_end; by repeat constructor
      | eapply (R_next _ _ _ []); [reflexivity|constructor|reflexivity|example_tok|cbn]
      | eapply (R_next _ _ _ [32]); [reflexivity|by repeat constructor|done|example_tok|cbn] ].
Defined.
