(* ===== verification/Umalloc.v ===== *)
(** user/umalloc.c: the memory allocator of user programs.

    [Header*] is a byte address and [p + n] moves it by [n] headers of 16
    bytes. The heap is the two fields of the header at each address, and
    [freep]; the bytes between headers belong to the program. sbrk() is the
    only system call. The theorems show, over any sequence of malloc() and
    free(), that the blocks in use are disjoint, and that every block returned
    has the size asked for. *)

From stdpp Require Import sorting.
From S2P Require Import Prelude User.
Local Open Scope prog_scope.

(** [base] is the address of the static header; [freep] is 0 before the first
    call. *)
Record heap := mkHeap { h_ptr : Z -> Z; h_size : Z -> Z; h_freep : Z }.

Definition fset (f : Z -> Z) (a v : Z) : Z -> Z := fun x => if x =? a then v else f x.
Definition set_ptr (a v : Z) (h : heap) : heap := mkHeap (fset (h_ptr h) a v) (h_size h) (h_freep h).
Definition set_size (a v : Z) (h : heap) : heap := mkHeap (h_ptr h) (fset (h_size h) a v) (h_freep h).
Definition set_freep (v : Z) (h : heap) : heap := mkHeap (h_ptr h) (h_size h) v.

(** The search of free(): [n] bounds the steps around the list. *)
Fixpoint free_find (n : nat) (h : heap) (bp p : Z) : option Z :=
  if (p <? bp) && (bp <? h_ptr h p) then Some p else
  if (h_ptr h p <=? p) && ((p <? bp) || (bp <? h_ptr h p)) then Some p else
  match n with
  | O => None
  | S n => free_find n h bp (h_ptr h p)
  end.

(** The block [bp] joins the list after [p], with its neighbours when they
    touch. *)
Definition free_join (h : heap) (bp p : Z) : heap :=
  let h :=
    if bp + 16 * h_size h bp =? h_ptr h p then
      let q := h_ptr h p in
      let h := set_size bp (u32 (h_size h bp + h_size h q)) h in
      set_ptr bp (h_ptr h q) h
    else set_ptr bp (h_ptr h p) h in
  let h :=
    if p + 16 * h_size h p =? bp then
      let h := set_size p (u32 (h_size h p + h_size h bp)) h in
      set_ptr p (h_ptr h bp) h
    else set_ptr p bp h in
  set_freep p h.

Definition free (n : nat) (h : heap) (ap : Z) : prog heap :=
  let bp := ap - 16 in
  match free_find n h bp (h_freep h) with
  | None => Fuel
  | Some p => Ret (free_join h bp p)
  end.

(** sbrk() takes an int; the product is 64 bits wide. *)
Definition morecore (n : nat) (h : heap) (nu : Z) : prog (heap * Z) :=
  let nu := if nu <? 4096 then 4096 else nu in
  p <- call (SYS_sbrk (s32 (nu * 16)));;
  if p =? -1 then Ret (h, 0) else
  let h := set_size p nu h in
  h <- free n h (p + 16);;
  Ret (h, h_freep h).

(** The block [p] is large enough: all of it, or its tail end. *)
Definition malloc_take (h : heap) (nunits prevp p : Z) : heap * Z :=
  let '(h, p) :=
    if h_size h p =? nunits then (set_ptr prevp (h_ptr h p) h, p)
    else
      let h := set_size p (h_size h p - nunits) h in
      let p := p + 16 * h_size h p in
      (set_size p nunits h, p) in
  (set_freep prevp h, p + 16).

(** [n] bounds the blocks visited, [m] the search of the free() of a new
    block. *)
Fixpoint malloc_loop (n : nat) (m : nat) (h : heap) (nunits prevp p : Z) : prog (heap * Z) :=
  if nunits <=? h_size h p then Ret (malloc_take h nunits prevp p) else
  match n with
  | O => Fuel
  | S n =>
      if p =? h_freep h then
        '(h, p) <- morecore m h nunits;;
        if p =? 0 then Ret (h, 0) else malloc_loop n m h nunits p (h_ptr h p)
      else malloc_loop n m h nunits p (h_ptr h p)
  end.

Definition malloc (base : Z) (n : nat) (h : heap) (nbytes : Z) : prog (heap * Z) :=
  let nunits := u32 ((nbytes + 16 - 1) / 16 + 1) in
  let '(h, prevp) :=
    if h_freep h =? 0 then (set_size base 0 (set_freep base (set_ptr base base h)), base)
    else (h, h_freep h) in
  malloc_loop n n h nunits prevp (h_ptr h prevp).

(** ** The free list

    [lseg h p l q]: following the links from [p] visits the blocks [l] and
    then arrives at [q]. A block is its address and its size in headers. *)
Fixpoint lseg (h : heap) (p : Z) (l : list (Z * Z)) (q : Z) : Prop :=
  match l with
  | [] => p = q
  | (a, n) :: l => p = a /\ h_size h a = n /\ lseg h (h_ptr h a) l q
  end.

Lemma lseg_app h l1 : forall p l2 q, lseg h p (l1 ++ l2) q <-> exists r, lseg h p l1 r /\ lseg h r l2 q.
Proof.
  induction l1 as [|[a n] l1 IH]; intros p l2 q; cbn.
  - split; [eauto|]. by intros (r & -> & ?).
  - split.
    + intros (-> & Hn & (r & H1 & H2)%IH). eauto.
    + intros (r & (-> & Hn & H1) & H2). split_and!; [done..|]. apply IH. eauto.
Qed.

(** The walk depends only on the headers it visits. *)
Lemma lseg_frame h h' l : forall p q, lseg h p l q ->
  (forall a n, (a, n) ∈ l -> h_ptr h' a = h_ptr h a /\ h_size h' a = h_size h a) -> lseg h' p l q.
Proof.
  induction l as [|[a n] l IH]; intros p q; cbn; [done|]. intros (-> & Hn & Hl) Hf.
  destruct (Hf a n) as [Hp Hs]; [by left|]. split_and!; [done|congruence|]. rewrite Hp.
  apply IH; [done|]. intros b m Hb. apply (Hf b m). by right.
Qed.

Lemma fset_eq f a v : fset f a v a = v.
Proof. unfold fset. by rewrite Z.eqb_refl. Qed.
Lemma fset_ne f a v x : x <> a -> fset f a v x = f x.
Proof. intros H. unfold fset. by rewrite (proj2 (Z.eqb_neq x a) H). Qed.

(** Blocks in address order, without overlap. *)
Definition before (x y : Z * Z) : Prop := fst x < fst y /\ fst x + 16 * snd x <= fst y.
Definition disj (x y : Z * Z) : Prop := fst x + 16 * snd x <= fst y \/ fst y + 16 * snd y <= fst x.

(** The ring of free blocks: [base] and then the blocks in address order,
    linked into a circle, the last one back to [base]. *)
Record ring_ok (base : Z) (h : heap) (fl : list (Z * Z)) : Prop := {
  rg_circle : lseg h base ((base, 0) :: fl) base;
  rg_freep : h_freep h ∈ ((base, 0) :: fl).*1;
  rg_sorted : StronglySorted before ((base, 0) :: fl);
  rg_size : forall x, x ∈ fl -> 1 <= snd x;
}.

(** The heap while the blocks [live] are in use: everything lies between
    [base] and [top], and no block overlaps another. *)
Record heap_ok (base top : Z) (h : heap) (fl live : list (Z * Z)) : Prop := {
  hp_base : 0 < base < top;
  hp_top : top <= 2 ^ 32;
  hp_ring : ring_ok base h fl;
  hp_end : forall x, x ∈ fl -> fst x + 16 * snd x <= top;
  hp_live : forall x, x ∈ live -> base < fst x /\ 1 <= snd x /\ fst x + 16 * snd x <= top /\
    h_size h (fst x) = snd x;
  hp_apart : forall x y, x ∈ fl -> y ∈ live -> disj x y;
  hp_disj : ForallOrdPairs disj live;
}.

(** ** The search of free() *)

Lemma lseg_next h l1 : forall x a m l2 q, lseg h x (l1 ++ (a, m) :: l2) q ->
  h_ptr h a = hd q l2.*1 /\ h_size h a = m.
Proof.
  induction l1 as [|[b k] l1 IH]; intros x a m l2 q; cbn.
  - intros (-> & Hm & Hl). split; [|done]. destruct l2 as [|[c j] l2]; cbn in *; [done|]. by destruct Hl as (-> & _).
  - intros (-> & _ & Hl). by eapply IH.
Qed.

(** Whether the search stops at [p]. *)
Definition stops (h : heap) (bp p : Z) : bool :=
  (p <? bp) && (bp <? h_ptr h p) || (h_ptr h p <=? p) && ((p <? bp) || (bp <? h_ptr h p)).

Lemma free_find_walk h bp q l : forall p n, lseg h p l q ->
  (forall a m, (a, m) ∈ l -> stops h bp a = false) -> stops h bp q = true -> (length l <= n)%nat ->
  free_find n h bp p = Some q.
Proof.
  assert (forall n p, free_find n h bp p =
    if stops h bp p then Some p else match n with O => None | S n => free_find n h bp (h_ptr h p) end) as Hstep.
  { intros n p. unfold stops. destruct n; cbn [free_find];
      destruct ((p <? bp) && (bp <? h_ptr h p)); cbn [orb]; try done. }
  induction l as [|[a m] l IH]; intros p n Hl Hc Hq Hn; rewrite Hstep; cbn in Hl.
  - subst p. by rewrite Hq.
  - destruct Hl as (-> & _ & Hl). rewrite (Hc a m) by (by left). cbn in Hn. destruct n as [|n]; [lia|].
    apply IH; [done| |done|lia]. intros b k Hb. apply (Hc b k). by right.
Qed.

(** The place of a block outside the ring. *)
Lemma ring_split (bp n : Z) fl : forall a0 n0, StronglySorted before ((a0, n0) :: fl) -> 1 <= n ->
  before (a0, n0) (bp, n) -> (forall x, x ∈ fl -> disj x (bp, n) /\ 1 <= snd x) ->
  exists l1 p np l2, (a0, n0) :: fl = l1 ++ (p, np) :: l2 /\
    Forall (fun x => before x (bp, n)) (l1 ++ [(p, np)]) /\ Forall (before (bp, n)) l2.
Proof.
  induction fl as [|[a1 n1] fl IH]; intros a0 n0 Hs Hn H0 Hd.
  { exists [], a0, n0, []. split_and!; [done | by apply Forall_singleton | constructor]. }
  apply StronglySorted_cons in Hs as [Ha0 Hs].
  destruct (Hd (a1, n1)) as [[Hlt|Hgt] Hsz]; [by left| |]; unfold before in *; cbn [fst snd] in *.
  - destruct (IH a1 n1 Hs Hn) as (l1 & p & np & l2 & E & Hl1 & Hl2).
    { split; cbn; lia. } { intros x Hx. apply Hd. by right. }
    exists ((a0, n0) :: l1), p, np, l2. rewrite E. split_and!; [done| |done]. constructor; [done|exact Hl1].
  - exists [], a0, n0, ((a1, n1) :: fl). split_and!; [done | by apply Forall_singleton |].
    apply StronglySorted_cons in Hs as [Ha1 _]. constructor; [cbn; lia|].
    eapply Forall_impl; [exact Ha1|]. intros [b m]. unfold before. cbn. lia.
Qed.

Section Ring.
Variables (base : Z) (h : heap) (fl : list (Z * Z)).
Hypothesis Hring : ring_ok base h fl.

Lemma ring_before l1 x l2 y l3 : (base, 0) :: fl = l1 ++ x :: l2 ++ y :: l3 -> before x y.
Proof.
  intros E. pose proof (rg_sorted _ _ _ Hring) as Hs. rewrite E in Hs.
  apply StronglySorted_app_1_r, StronglySorted_cons in Hs as [Hx _].
  apply (proj1 (Forall_forall _ _) Hx). set_solver.
Qed.

Lemma ring_next l1 a m l2 : (base, 0) :: fl = l1 ++ (a, m) :: l2 -> h_ptr h a = hd base l2.*1 /\ h_size h a = m.
Proof. intros E. pose proof (rg_circle _ _ _ Hring) as H. rewrite E in H. by apply lseg_next in H. Qed.

Lemma base_first a m : (a, m) ∈ fl -> base < a.
Proof.
  intros Ha. pose proof (rg_sorted _ _ _ Hring) as Hs. apply StronglySorted_cons in Hs as [Hb _].
  apply (proj1 (Forall_forall _ _) Hb) in Ha. unfold before in Ha. cbn in Ha. lia.
Qed.

Lemma stops_spec bp n l1 p np l2 : (base, 0) :: fl = l1 ++ (p, np) :: l2 -> base < bp -> 1 <= n ->
  Forall (fun x => before x (bp, n)) (l1 ++ [(p, np)]) -> Forall (before (bp, n)) l2 ->
  stops h bp p = true /\ forall a m, (a, m) ∈ l1 ++ l2 -> stops h bp a = false.
Proof.
  intros E Hbp Hn Hl1 Hl2. rewrite Forall_forall in Hl1, Hl2. unfold before in Hl1, Hl2. cbn [fst snd] in Hl1, Hl2.
  assert (p < bp) as Hp by (destruct (Hl1 (p, np)); [set_solver|done]).
  unfold stops. split.
  - destruct (ring_next _ _ _ _ E) as [-> _]. destruct l2 as [|[q nq] l2]; cbn [hd fmap list_fmap fst].
    + assert (base <= p) as Hb.
      { destruct l1 as [|x l1]; injection E; [intros; lia|]. intros E2 _. apply Z.lt_le_incl, (base_first p np). set_solver. }
      apply orb_true_iff. right. rewrite (proj2 (Z.leb_le _ _)), (proj2 (Z.ltb_lt _ _)) by lia. done.
    + destruct (Hl2 (q, nq)); [set_solver|]. cbn in *.
      rewrite (proj2 (Z.ltb_lt p bp)), (proj2 (Z.ltb_lt bp q)) by lia. done.
  - intros a m [Ha|Ha]%elem_of_app; apply list_elem_of_split in Ha as (k1 & k2 & ->).
    + rewrite <- app_assoc in E. cbn [app] in E. destruct (ring_next _ _ _ _ E) as [-> _].
      destruct (k2 ++ (p, np) :: l2) as [|[b j] r] eqn:Eb; [by destruct k2|]. cbn [hd fmap list_fmap fst].
      pose proof (ring_before k1 (a, m) [] (b, j) r) as Hab. cbn [app] in Hab.
      specialize (Hab E). unfold before in Hab. cbn in Hab.
      assert (b < bp).
      { destruct (Hl1 (b, j)) as [Hb _]; [|exact Hb].
        clear -Eb. destruct k2 as [|y k2]; cbn in Eb; [injection Eb as -> -> _|injection Eb as -> _]; set_solver. }
      rewrite (proj2 (Z.ltb_ge bp b)), (proj2 (Z.leb_gt b a)) by lia. by rewrite andb_false_r.
    + destruct (Hl2 (a, m)) as [Hba _]; [set_solver|]. cbn in Hba.
      rewrite app_comm_cons, app_assoc in E. destruct (ring_next _ _ _ _ E) as [-> _].
      rewrite (proj2 (Z.ltb_ge a bp)) by lia. cbn [andb orb].
      destruct k2 as [|[b j] k2]; cbn [hd fmap list_fmap fst].
      * rewrite (proj2 (Z.ltb_ge bp base)) by lia. apply andb_false_r.
      * pose proof (ring_before _ _ [] _ _ E) as Hab. unfold before in Hab. cbn in Hab.
        by rewrite (proj2 (Z.leb_gt b a)) by lia.
Qed.

(** From any block of the ring the links lead to any other. *)
Lemma ring_walk l1 p np l2 s : (base, 0) :: fl = l1 ++ (p, np) :: l2 -> s ∈ ((base, 0) :: fl).*1 ->
  exists l, lseg h s l p /\ (forall x, x ∈ l -> x ∈ l1 ++ l2) /\ (length l <= length fl)%nat.
Proof.
  intros E Hs. pose proof (rg_circle _ _ _ Hring) as Hc. rewrite E in Hc, Hs.
  assert (length fl = length l1 + length l2)%nat as Hlen.
  { apply (f_equal length) in E. rewrite length_app in E. cbn in E. lia. }
  apply lseg_app in Hc as (r & H1 & H2). cbn [lseg] in H2. destruct H2 as (-> & Hnp & H2).
  rewrite fmap_app, elem_of_app in Hs. cbn [fmap list_fmap fst] in Hs. rewrite elem_of_cons in Hs.
  destruct Hs as [Hs|[->|Hs]].
  - apply list_elem_of_fmap in Hs as ([s' m] & -> & Hs). apply list_elem_of_split in Hs as (k1 & k2 & ->).
    apply lseg_app in H1 as (r & _ & H1). exists ((s', m) :: k2). cbn [lseg] in H1.
    assert (r = s') as -> by tauto. split_and!; [exact H1|set_solver|rewrite length_app in *; cbn in *; lia].
  - exists []. split_and!; [done|set_solver|cbn; lia].
  - apply list_elem_of_fmap in Hs as ([s' m] & -> & Hs). apply list_elem_of_split in Hs as (k1 & k2 & ->).
    apply lseg_app in H2 as (r & _ & H2). exists (((s', m) :: k2) ++ l1). cbn [lseg] in H2.
    assert (r = s') as -> by tauto. split_and!.
    + apply lseg_app. exists base. split; [exact H2|exact H1].
    + set_solver.
    + rewrite !length_app in *. cbn in *. lia.
Qed.
End Ring.

(** ** Joining a block with the ring *)

(** The two headers that free() changes. *)
Lemma free_join_fields h bp p : p <> bp ->
  let q := h_ptr h p in
  let mr := bp + 16 * h_size h bp =? q in
  let nb := if mr then u32 (h_size h bp + h_size h q) else h_size h bp in
  let nx := if mr then h_ptr h q else q in
  let ml := p + 16 * h_size h p =? bp in
  let h' := free_join h bp p in
  h_freep h' = p /\ h_ptr h' p = (if ml then nx else bp) /\
  h_size h' p = (if ml then u32 (h_size h p + nb) else h_size h p) /\
  (ml = false -> h_ptr h' bp = nx /\ h_size h' bp = nb) /\
  forall x, x <> p -> x <> bp -> h_ptr h' x = h_ptr h x /\ h_size h' x = h_size h x.
Proof.
  intros Hne q mr nb nx ml h'.
  unfold h', free_join. fold q. fold mr.
  destruct mr; cbn [h_size h_ptr set_size set_ptr]; rewrite ?fset_ne by done; fold ml;
    destruct ml; cbn [h_freep h_size h_ptr set_size set_ptr set_freep];
    rewrite ?fset_eq, ?(fset_ne _ p _ bp), ?fset_eq, ?(fset_ne _ bp _ p) by done;
    (split_and!; try done; intros x Hp Hb; by rewrite ?fset_ne).
Qed.

Lemma u32_sum a b : 1 <= a -> 0 <= b -> 16 * (a + b) <= 2 ^ 32 -> u32 (a + b) = a + b.
Proof. intros. apply u32_small. lia. Qed.

(** What [free_join] makes of the ring, as far as the rest of the heap is
    concerned: the new blocks are made of the freed block and free ones. *)
Record joined (base : Z) (h' : heap) (fl fl' : list (Z * Z)) (bp n : Z) : Prop := {
  jn_ring : ring_ok base h' fl';
  jn_length : (length fl' <= S (length fl))%nat;
  jn_big : exists x, x ∈ fl' /\ fst x <= bp /\ bp + 16 * n <= fst x + 16 * snd x;
  jn_disj : forall x y, x ∈ fl' -> 1 <= snd y -> disj (bp, n) y -> (forall z, z ∈ fl -> disj z y) -> disj x y;
  jn_end : forall x top, x ∈ fl' -> bp + 16 * n <= top -> (forall z, z ∈ fl -> fst z + 16 * snd z <= top) ->
    fst x + 16 * snd x <= top;
}.

(** The block with the free block behind it, when they touch. *)
Lemma join_right base h fl bp n l1 p np l2 :
  ring_ok base h fl -> (base, 0) :: fl = l1 ++ (p, np) :: l2 -> 0 < base < bp -> 1 <= n -> h_size h bp = n ->
  Forall (before (bp, n)) l2 -> (forall z, z ∈ fl -> fst z + 16 * snd z <= 2 ^ 32) ->
  let q := h_ptr h p in
  let mr := bp + 16 * h_size h bp =? q in
  let nb := if mr then u32 (h_size h bp + h_size h q) else h_size h bp in
  let nx := if mr then h_ptr h q else q in
  exists l2', nx = hd base l2'.*1 /\ (length l2' <= length l2)%nat /\ n <= nb /\
    (forall x, x ∈ l2' -> x ∈ l2 /\ bp + 16 * nb <= fst x) /\ lseg h nx l2' base /\ StronglySorted before l2' /\
    (nb = n \/ exists qn, (q, qn) ∈ l2 /\ q = bp + 16 * n /\ nb = n + qn).
Proof.
  intros Hr E Hb Hn Hsz Hl2 Htop q mr nb nx.
  destruct (ring_next _ _ _ Hr _ _ _ _ E) as [Hq _]. fold q in Hq.
  pose proof (rg_circle _ _ _ Hr) as Hc. rewrite E in Hc. apply lseg_app in Hc as (r & _ & Hc).
  cbn [lseg] in Hc. destruct Hc as (_ & _ & Hc). fold q in Hc.
  pose proof (rg_sorted _ _ _ Hr) as Hs. rewrite E in Hs. apply StronglySorted_app_1_r, StronglySorted_cons in Hs as [_ Hs].
  unfold nb, nx, mr. rewrite Hsz in *. destruct (Z.eqb_spec (bp + 16 * n) q) as [Eq|Hne].
  - destruct l2 as [|[q' nq] l2]; cbn in Hq; [lia|]. subst q'. cbn [lseg] in Hc. destruct Hc as (_ & Hnq & Hc).
    assert ((q, nq) ∈ fl) as Hin.
    { destruct l1 as [|y l1]; injection E; intros E2; [set_solver|]. intros _. set_solver. }
    pose proof (rg_size _ _ _ Hr _ Hin) as H1. pose proof (Htop _ Hin) as H2. cbn in H1, H2.
    rewrite Hnq, u32_sum by lia. apply StronglySorted_cons in Hs as [Hqs Hs].
    exists l2. split_and!; [| cbn; lia | lia | | done | done | ].
    + destruct l2 as [|[b m] l2]; cbn in *; [done|]. by destruct Hc as (-> & _).
    + intros x Hx. split; [by right|]. apply (proj1 (Forall_forall _ _) Hqs) in Hx. unfold before in Hx. cbn in Hx. lia.
    + right. exists nq. split_and!; [by left|done|done].
  - exists l2. split_and!; [done|lia|lia| |done|done|by left]. intros x Hx. split; [done|].
    apply (proj1 (Forall_forall _ _) Hl2) in Hx. unfold before in Hx. cbn in Hx. lia.
Qed.

(** The middle of the new ring. *)
Definition join_mid (ml : bool) (p np bp nb : Z) : list (Z * Z) :=
  if ml then [(p, np + nb)] else [(p, np); (bp, nb)].

Section Join.
Variables (base : Z) (h : heap) (fl l1 l2 : list (Z * Z)) (bp n p np : Z).
Hypotheses (Hring : ring_ok base h fl) (E : (base, 0) :: fl = l1 ++ (p, np) :: l2)
  (Hbase : 0 < base < bp) (Hn : 1 <= n) (Hsz : h_size h bp = n)
  (Hl1 : Forall (fun x => before x (bp, n)) (l1 ++ [(p, np)])) (Hl2 : Forall (before (bp, n)) l2)
  (Htop : forall z, z ∈ fl -> fst z + 16 * snd z <= 2 ^ 32) (Hbtop : bp + 16 * n <= 2 ^ 32).

Lemma join_p_before : p < bp /\ p + 16 * np <= bp.
Proof. apply (proj1 (Forall_forall _ _) Hl1 (p, np)). set_solver. Qed.

Lemma join_l1 x : x ∈ l1 -> before x (p, np) /\ before x (bp, n).
Proof.
  intros Hx. split; [|apply (proj1 (Forall_forall _ _) Hl1 x); set_solver].
  pose proof (rg_sorted _ _ _ Hring) as Hs. rewrite E in Hs.
  apply (StronglySorted_app_1_elem_of _ _ _ _ _ Hs Hx). by left.
Qed.

Lemma join_np : 0 <= np /\ (np = 0 -> p = base) /\ ((p, np) ∈ fl \/ l1 = []).
Proof.
  destruct l1 as [|x l1']; injection E; [intros; subst; split_and!; [lia|done|by right]|]. intros E2 _.
  assert ((p, np) ∈ fl) as Hin by set_solver. pose proof (rg_size _ _ _ Hring _ Hin). cbn in *.
  split_and!; [lia|lia|by left].
Qed.

Lemma join_sorted ml nb l2' : n <= nb -> (forall x, x ∈ l2' -> x ∈ l2 /\ bp + 16 * nb <= fst x) ->
  StronglySorted before l2' -> ml = (p + 16 * np =? bp) ->
  StronglySorted before (l1 ++ join_mid ml p np bp nb ++ l2').
Proof.
  intros Hnb Hsub Hs2 Hml. pose proof join_p_before as Hp. destruct join_np as (Hnp & _ & _).
  pose proof (rg_sorted _ _ _ Hring) as Hs. rewrite E in Hs.
  assert (forall x y, x ∈ join_mid ml p np bp nb -> y ∈ l2' -> before x y) as Hmid.
  { intros x y Hx Hy. destruct (Hsub y Hy) as [Hy2 Hy3].
    apply (proj1 (Forall_forall _ _) Hl2) in Hy2. unfold before in *. cbn in Hy2.
    unfold join_mid in Hx. destruct ml; symmetry in Hml; [apply Z.eqb_eq in Hml|apply Z.eqb_neq in Hml];
      rewrite ?elem_of_cons, elem_of_nil in Hx; destruct_or?; subst; cbn; try done; lia. }
  apply StronglySorted_app. split_and!.
  - intros x y Hx [Hy|Hy]%elem_of_app; destruct (join_l1 x Hx) as [H1 H2].
    + unfold join_mid in Hy. unfold before in *. cbn in H1, H2.
      destruct ml; rewrite ?elem_of_cons, elem_of_nil in Hy; destruct_or?; subst; cbn; try done.
    + destruct (Hsub y Hy) as [Hy2 _]. apply (proj1 (Forall_forall _ _) Hl2) in Hy2.
      unfold before in *. cbn in *. lia.
  - by apply StronglySorted_app_1_l in Hs.
  - apply StronglySorted_app. split_and!; [done| |done]. unfold join_mid. destruct ml; repeat constructor; cbn; lia.
Qed.

Lemma join_circle nb nx ml l2' h' :
  lseg h nx l2' base -> (forall x, x ∈ l2' -> x ∈ l2) -> ml = (p + 16 * np =? bp) ->
  h_ptr h' p = (if ml then nx else bp) -> h_size h' p = (if ml then np + nb else np) ->
  (ml = false -> h_ptr h' bp = nx /\ h_size h' bp = nb) ->
  (forall x, x <> p -> x <> bp -> h_ptr h' x = h_ptr h x /\ h_size h' x = h_size h x) ->
  lseg h' base (l1 ++ join_mid ml p np bp nb ++ l2') base.
Proof.
  intros Hc2 Hsub Hml Hpp Hps Hbp Hfr. pose proof join_p_before as Hp.
  pose proof (rg_circle _ _ _ Hring) as Hc. rewrite E in Hc. apply lseg_app in Hc as (r & Hc1 & Hc).
  cbn [lseg] in Hc. destruct Hc as (-> & _ & _).
  assert (lseg h' nx l2' base) as Hc2'.
  { eapply lseg_frame; [exact Hc2|]. intros a m Ha%Hsub. apply (proj1 (Forall_forall _ _) Hl2) in Ha.
    unfold before in Ha. cbn in Ha. apply Hfr; lia. }
  apply lseg_app. exists p. split.
  - eapply lseg_frame; [exact Hc1|]. intros a m Ha. destruct (join_l1 _ Ha) as [H1 H2].
    unfold before in *. cbn in *. apply Hfr; lia.
  - apply lseg_app. unfold join_mid. destruct ml; cbn [lseg].
    + exists nx. rewrite Hpp. done.
    + destruct (Hbp eq_refl) as [H1 H2]. exists nx. rewrite Hpp, H1. done.
Qed.

Lemma join_l2 z : z ∈ l2 -> z ∈ fl.
Proof. intros Hz. destruct l1; injection E; intros; subst; set_solver. Qed.

Lemma join_base_p : base <= p.
Proof.
  destruct join_np as (_ & _ & [Hin|Hnil]).
  - apply Z.lt_le_incl, (base_first _ _ _ Hring _ _ Hin).
  - rewrite Hnil in E. injection E; intros; lia.
Qed.

(** The new ring and the size of the block before it meets [p]. *)
Lemma join_shape : exists fl' nb l2',
  let ml := p + 16 * np =? bp in
  (base, 0) :: fl' = l1 ++ join_mid ml p np bp nb ++ l2' /\ n <= nb /\
  (forall x, x ∈ l2' -> x ∈ l2 /\ bp + 16 * nb <= fst x) /\ (length l2' <= length l2)%nat /\
  (nb = n \/ exists q qn, (q, qn) ∈ l2 /\ q = bp + 16 * n /\ nb = n + qn) /\
  lseg (free_join h bp p) base ((base, 0) :: fl') base /\ StronglySorted before ((base, 0) :: fl') /\
  h_freep (free_join h bp p) = p.
Proof.
  pose proof join_p_before as Hp. pose proof join_base_p as Hbp. destruct join_np as (Hnp & _ & _).
  pose proof (ring_next _ _ _ Hring _ _ _ _ E) as [_ Hps].
  pose proof (free_join_fields h bp p ltac:(lia)) as Hf. cbn zeta in Hf.
  destruct (join_right base h fl bp n l1 p np l2 Hring E Hbase Hn Hsz Hl2 Htop)
    as (l2' & _ & Hlen & Hnb & Hsub & Hc2 & Hs2 & Hform). cbn zeta in *.
  set (nb := if bp + 16 * h_size h bp =? h_ptr h p then u32 (h_size h bp + h_size h (h_ptr h p)) else h_size h bp) in *.
  rewrite Hps in Hf. destruct Hf as (Hfreep & Hfp & Hfs & Hfb & Hfr). set (ml := p + 16 * np =? bp) in *.
  assert (nb = n \/ exists q qn, (q, qn) ∈ l2 /\ q = bp + 16 * n /\ nb = n + qn) as Hform' by naive_solver.
  assert (bp + 16 * nb <= 2 ^ 32) as Hnbtop.
  { destruct Hform' as [->|(q & qn & Hqn & Hq & ->)]; [lia|]. pose proof (Htop _ (join_l2 _ Hqn)). cbn in *. lia. }
  assert (h_size (free_join h bp p) p = if ml then np + nb else np) as Hfs'.
  { rewrite Hfs. unfold ml. destruct (Z.eqb_spec (p + 16 * np) bp); [|done]. apply u32_small. lia. }
  pose proof (join_sorted ml nb l2' Hnb Hsub Hs2 eq_refl) as Hsorted.
  pose proof (join_circle nb _ ml l2' _ Hc2 (fun x Hx => proj1 (Hsub x Hx)) eq_refl Hfp Hfs' Hfb Hfr) as Hcircle.
  assert (exists fl', (base, 0) :: fl' = l1 ++ join_mid ml p np bp nb ++ l2') as [fl' E'].
  { destruct l1 as [|x l1'].
    - injection E as <- <- _. unfold ml, join_mid. rewrite (proj2 (Z.eqb_neq _ _)) by lia. cbn. eauto.
    - injection E as <- _. cbn. eauto. }
  exists fl', nb, l2'. rewrite <- E' in Hsorted, Hcircle. split_and!; auto.
Qed.

Lemma join_ring : exists fl', joined base (free_join h bp p) fl fl' bp n.
Proof.
  pose proof join_p_before as Hp. pose proof join_base_p as Hbp. destruct join_np as (Hnp & Hnp0 & Hpin).
  destruct join_shape as (fl' & nb & l2' & E' & Hnb & Hsub & Hlen & Hform & Hcircle & Hsorted & Hfreep).
  set (ml := p + 16 * np =? bp) in *. set (h' := free_join h bp p) in *.
  assert (forall x, x ∈ fl' -> x ∈ fl \/ (x = (bp, nb) /\ ml = false) \/ (x = (p, np + nb) /\ ml = true)) as Hmem.
  { intros x Hx. pose proof Hsorted as [Hgt _]%StronglySorted_cons.
    apply (proj1 (Forall_forall _ _) Hgt) in Hx as Hlt. unfold before in Hlt. cbn in Hlt.
    assert (x ∈ (base, 0) :: fl \/ (x = (bp, nb) /\ ml = false) \/ (x = (p, np + nb) /\ ml = true)) as H.
    { assert (x ∈ (base, 0) :: fl') as Hx' by by right. rewrite E', !elem_of_app in Hx'. rewrite E.
      destruct Hx' as [Hx'|[Hx'|Hx']]; [left; set_solver| |apply Hsub in Hx' as [? _]; left; set_solver].
      unfold join_mid in Hx'. destruct ml; rewrite ?elem_of_cons, elem_of_nil in Hx'; set_solver. }
    rewrite elem_of_cons in H. destruct H as [[->|]|]; [cbn in Hlt; lia|by left|by right]. }
  assert (ml = true -> p + 16 * np = bp) as Hmt by apply Z.eqb_eq.
  assert (ml = true -> (p, np) ∈ fl) as Hpfl.
  { intros H. destruct Hpin as [|Hnil]; [done|]. rewrite Hnil in E. injection E; intros. specialize (Hmt H). lia. }
  exists fl'. split.
  - split; [done| |done|].
    + rewrite Hfreep, E', !fmap_app. unfold join_mid. destruct ml; set_solver.
    + intros x [Hx|[[-> _]|[-> _]]]%Hmem; [by apply (rg_size _ _ _ Hring)|cbn; lia..].
  - apply (f_equal length) in E, E'. rewrite !length_app in *. cbn in *. unfold join_mid in E'. destruct ml; cbn in E'; lia.
  - destruct ml eqn:Eml.
    + exists (p, np + nb). specialize (Hmt eq_refl). split; [|cbn; lia].
      assert ((p, np + nb) ∈ (base, 0) :: fl') as [[= <- _]|]%elem_of_cons; [rewrite E'; set_solver| |done].
      specialize (Hpfl eq_refl). apply (base_first _ _ _ Hring) in Hpfl. lia.
    + exists (bp, nb). split; [|cbn; lia].
      assert ((bp, nb) ∈ (base, 0) :: fl') as [[= <- _]|]%elem_of_cons; [rewrite E'; set_solver|lia|done].
  - intros x y Hx Hy Hd Hall.
    assert (disj (bp, nb) y) as Hd'.
    { destruct Hform as [->|(q & qn & Hqn & -> & ->)]; [done|].
      specialize (Hall _ (join_l2 _ Hqn)). pose proof (rg_size _ _ _ Hring _ (join_l2 _ Hqn)).
      unfold disj in *. cbn in *. lia. }
    destruct (Hmem x Hx) as [H|[[-> _]|[-> H]]]; [auto|done|].
    specialize (Hall _ (Hpfl H)). specialize (Hmt H). unfold disj in *. cbn in *. lia.
  - intros x top Hx Ht Hall.
    assert (bp + 16 * nb <= top) as Ht'.
    { destruct Hform as [->|(q & qn & Hqn & -> & ->)]; [done|]. specialize (Hall _ (join_l2 _ Hqn)). cbn in *. lia. }
    destruct (Hmem x Hx) as [H|[[-> _]|[-> H]]]; [auto|done|]. specialize (Hmt H). cbn. lia.
Qed.
End Join.

(** ** free() and malloc() keep the heap *)

Lemma disj_sym x y : disj x y -> disj y x.
Proof. unfold disj. tauto. Qed.

Lemma ord_pairs_perm l l' : l ≡ₚ l' -> ForallOrdPairs disj l -> ForallOrdPairs disj l'.
Proof.
  induction 1 as [|x l l' Hp IH|x y l|l l' l'' _ IH1 _ IH2]; intros H; auto.
  - inversion_clear H as [|? ? Hx Hl]. constructor; [by rewrite <- Hp|auto].
  - inversion_clear H as [|? ? Hx Hl]. inversion_clear Hl as [|? ? Hy Hl']. inversion_clear Hx as [|? ? Hxy Hx'].
    constructor; [constructor; auto using disj_sym|]. by constructor.
Qed.

Lemma heap_ok_perm base top h fl live live' : live ≡ₚ live' -> heap_ok base top h fl live -> heap_ok base top h fl live'.
Proof.
  intros Hp [H1 H2 H3 H4 H5 H6 H7]. split; auto.
  - intros x Hx. apply H5. by rewrite Hp.
  - intros x y Hx Hy. apply H6; [done|]. by rewrite Hp.
  - by eapply ord_pairs_perm.
Qed.

Lemma free_ok base top h fl bp n live :
  heap_ok base top h fl ((bp, n) :: live) ->
  exists p fl', (forall N, (length fl <= N)%nat -> free_find N h bp (h_freep h) = Some p) /\
    heap_ok base top (free_join h bp p) fl' live /\ joined base (free_join h bp p) fl fl' bp n.
Proof.
  intros Hok. destruct Hok as [Hb Ht Hr He Hl Ha Hd].
  destruct (Hl (bp, n)) as (H1 & H2 & H3 & H4); [by left|]. cbn in H1, H2, H3, H4.
  destruct (ring_split bp n fl base 0) as (l1 & p & np & l2 & E & Hl1 & Hl2).
  { apply Hr. } { done. } { unfold before. cbn. lia. }
  { intros x Hx. split; [apply Ha; [done|by left]|by apply (rg_size _ _ _ Hr)]. }
  destruct (stops_spec base h fl Hr bp n l1 p np l2 E H1 H2 Hl1 Hl2) as [Hstop Hgo].
  destruct (ring_walk base h fl Hr l1 p np l2 (h_freep h) E) as (l & Hw & Hsub & Hlen); [apply Hr|].
  exists p. destruct (join_ring base h fl l1 l2 bp n p np Hr E) as (fl' & Hj); auto; try lia.
  { intros z Hz. apply He in Hz. lia. }
  exists fl'. split_and!; [|split|done].
  - intros N HN. eapply free_find_walk; [exact Hw| |done|lia]. intros a m Ham. by eapply Hgo, Hsub.
  - done.
  - done.
  - apply Hj.
  - intros x Hx. by apply (jn_end _ _ _ _ _ _ Hj).
  - intros x Hx. destruct (Hl x) as (G1 & G2 & G3 & G4); [by right|]. split_and!; try done.
    assert (disj (bp, n) x) as Hdx.
    { inversion_clear Hd as [|? ? Hd1 _]. by apply (proj1 (Forall_forall _ _) Hd1). }
    destruct (free_join_fields h bp p) as (_ & _ & _ & _ & Hfr).
    { pose proof (proj1 (Forall_forall _ _) Hl1 (p, np) ltac:(set_solver)) as [H _]. cbn in H. lia. }
    destruct (Hfr (fst x)) as [_ ->]; [| |done].
    + intros <-. assert (fst x ∈ ((base, 0) :: fl).*1) as Hin
        by (rewrite E, fmap_app; apply elem_of_app; right; by left).
      cbn in Hin. apply elem_of_cons in Hin as [|Hin]; [lia|].
      apply list_elem_of_fmap in Hin as (y & Ey & Hy). pose proof (rg_size _ _ _ Hr _ Hy).
      pose proof (Ha y x Hy ltac:(by right)) as Hdy. unfold disj in Hdy. lia.
    + intros Ex. unfold disj in Hdx. cbn in Hdx. lia.
  - intros x y Hx Hy. apply (jn_disj _ _ _ _ _ _ Hj x y Hx).
    + apply Hl. by right.
    + inversion_clear Hd as [|? ? Hd1 _]. by apply (proj1 (Forall_forall _ _) Hd1).
    + intros z Hz. apply Ha; [done|by right].
  - by inversion_clear Hd.
Qed.

(** Between two neighbours of the ring there is no other block. *)
Lemma ring_gap base h fl l1 b nb a n l2 x : ring_ok base h fl ->
  (base, 0) :: fl = l1 ++ (b, nb) :: (a, n) :: l2 -> x ∈ ((base, 0) :: fl).*1 -> x <= b \/ a <= x.
Proof.
  intros Hr E Hx. pose proof (rg_sorted _ _ _ Hr) as Hs. rewrite E in Hs, Hx.
  apply list_elem_of_fmap in Hx as ([x' m] & -> & Hx). cbn [fst].
  apply elem_of_app in Hx as [Hx|Hx]; [|rewrite !elem_of_cons in Hx; destruct Hx as [[= -> _]|[[= -> _]|Hx]]; [lia|lia|]].
  - pose proof (StronglySorted_app_1_elem_of _ _ _ _ _ Hs Hx (list_elem_of_here _ _)) as [H _]. cbn in H. lia.
  - apply StronglySorted_app_1_r, StronglySorted_cons in Hs as [_ Hs]. apply StronglySorted_cons in Hs as [Ha _].
    apply (proj1 (Forall_forall _ _) Ha) in Hx as [H _]. cbn in H. lia.
Qed.

Lemma ring_pair base h fl l1 b nb a n l2 : ring_ok base h fl ->
  (base, 0) :: fl = l1 ++ (b, nb) :: (a, n) :: l2 -> before (b, nb) (a, n).
Proof. intros Hr E. exact (ring_before _ _ _ Hr l1 (b, nb) [] (a, n) l2 E). Qed.

Lemma ring_mem base (fl : list (Z * Z)) l1 b nb l2 : (base, 0) :: fl = l1 ++ (b, nb) :: l2 -> b ∈ ((base, 0) :: fl).*1.
Proof. intros ->. rewrite fmap_app. apply elem_of_app. right. by left. Qed.

(** The block before [a] on the ring is the only one that points to it. *)
Lemma ring_pred base h fl l1 b nb a n l2 prevp : ring_ok base h fl ->
  (base, 0) :: fl = l1 ++ (b, nb) :: (a, n) :: l2 -> base < a ->
  prevp ∈ ((base, 0) :: fl).*1 -> h_ptr h prevp = a -> prevp = b.
Proof.
  intros Hr E Ha Hin Hp.
  pose proof Hin as ([p' m] & Ep & (k1 & k2 & Ek)%list_elem_of_split)%list_elem_of_fmap.
  cbn in Ep. subst p'. destruct (ring_next _ _ _ Hr _ _ _ _ Ek) as [Hn _].
  destruct k2 as [|[a' n'] k2]; cbn in Hn; [lia|]. assert (a' = a) as -> by congruence.
  pose proof (ring_gap _ _ _ _ _ _ _ _ _ _ Hr E Hin) as H1.
  pose proof (ring_gap _ _ _ _ _ _ _ _ _ _ Hr Ek (ring_mem _ _ _ _ _ _ E)) as H2.
  pose proof (ring_pair _ _ _ _ _ _ _ _ _ Hr E) as [H3 _]. pose proof (ring_pair _ _ _ _ _ _ _ _ _ Hr Ek) as [H4 _].
  cbn in *. lia.
Qed.

(** Taking a block from the ring, all of it or its tail. *)
Section Take.
Variables (base top : Z) (h : heap) (fl live l1 l2 : list (Z * Z)) (b nb a n k : Z).
Hypotheses (Hok : heap_ok base top h fl live) (E : (base, 0) :: fl = l1 ++ (b, nb) :: (a, n) :: l2)
  (Hk : 1 <= k <= n).

Lemma take_in : (a, n) ∈ fl.
Proof. clear Hok Hk. destruct l1 as [|x l1']; injection E; intros E2; [intros; rewrite E2; by left|intros _; rewrite E2; set_solver]. Qed.

Lemma take_l1 x : x ∈ l1 -> fst x < b /\ fst x + 16 * snd x <= b.
Proof.
  intros Hx. pose proof (rg_sorted _ _ _ (hp_ring _ _ _ _ _ Hok)) as Hs. rewrite E in Hs.
  exact (StronglySorted_app_1_elem_of _ _ _ _ _ Hs Hx (list_elem_of_here _ _)).
Qed.

Lemma take_l2 x : x ∈ l2 -> b < fst x /\ b + 16 * nb <= fst x /\ a < fst x /\ a + 16 * n <= fst x.
Proof.
  intros Hx. pose proof (rg_sorted _ _ _ (hp_ring _ _ _ _ _ Hok)) as Hs. rewrite E in Hs.
  apply StronglySorted_app_1_r, StronglySorted_cons in Hs as [Hb Hs]. apply StronglySorted_cons in Hs as [Ha _].
  inversion_clear Hb as [|? ? _ Hb2]. pose proof (proj1 (Forall_forall _ _) Ha x Hx) as [H1 H2].
  pose proof (proj1 (Forall_forall _ _) Hb2 x Hx) as [H3 H4]. cbn in *. lia.
Qed.

Lemma take_ba : b < a /\ b + 16 * nb <= a.
Proof. exact (ring_pair _ _ _ _ _ _ _ _ _ (hp_ring _ _ _ _ _ Hok) E). Qed.

(** What is left of the block, and the address of the part that is taken. *)
Definition take_mid : list (Z * Z) := if n =? k then [] else [(a, n - k)].
Definition take_at : Z := a + 16 * (n - k).

Lemma take_mid_spec x : x ∈ take_mid -> x = (a, n - k) /\ k < n.
Proof. unfold take_mid. destruct (Z.eqb_spec n k); set_solver by lia. Qed.

Lemma take_fields : h_size h a = n ->
  let '(h', r) := malloc_take h k b a in
  r = take_at + 16 /\ h_freep h' = b /\
  (forall x, h_ptr h' x = if (n =? k) && (x =? b) then h_ptr h a else h_ptr h x) /\
  (forall x, h_size h' x = if x =? take_at then k else if x =? a then n - k else h_size h x).
Proof.
  intros Ha. unfold malloc_take, take_at. rewrite Ha. destruct (Z.eqb_spec n k) as [->|Hne].
  - rewrite Z.sub_diag, Z.mul_0_r, Z.add_0_r. cbn. split_and!; [done|done| |].
    + intros x. unfold fset. done.
    + intros x. destruct (Z.eqb_spec x a) as [->|]; done.
  - cbn. rewrite fset_eq. by split_and!.
Qed.

Lemma take_sorted : StronglySorted before (l1 ++ (b, nb) :: take_mid ++ l2).
Proof.
  pose proof take_ba as Hba. pose proof (rg_sorted _ _ _ (hp_ring _ _ _ _ _ Hok)) as Hs. rewrite E in Hs.
  apply StronglySorted_app in Hs as (_ & H1 & H2).
  apply StronglySorted_cons in H2 as [_ H2]. apply StronglySorted_cons in H2 as [_ H2].
  apply StronglySorted_app. split_and!; [|done|].
  - intros x y Hx%take_l1 Hy. rewrite elem_of_cons, elem_of_app in Hy. unfold before.
    destruct Hy as [->|[[-> _]%take_mid_spec|Hy%take_l2]]; cbn; lia.
  - constructor; [|].
    + apply StronglySorted_app. split_and!; [|unfold take_mid; destruct (n =? k); repeat constructor|done].
      intros x y [-> _]%take_mid_spec Hy%take_l2. unfold before. cbn. lia.
    + apply Forall_forall. intros x. rewrite elem_of_app. unfold before.
      intros [[-> _]%take_mid_spec|Hx%take_l2]; cbn; lia.
Qed.

Lemma take_circle h' : 
  (forall x, h_ptr h' x = if (n =? k) && (x =? b) then h_ptr h a else h_ptr h x) ->
  (forall x, h_size h' x = if x =? take_at then k else if x =? a then n - k else h_size h x) ->
  lseg h' base (l1 ++ (b, nb) :: take_mid ++ l2) base.
Proof.
  intros Hp Hz. pose proof take_ba as Hba. pose proof (rg_circle _ _ _ (hp_ring _ _ _ _ _ Hok)) as Hc. rewrite E in Hc.
  apply lseg_app in Hc as (r & Hc1 & Hc2). cbn [lseg] in Hc2. destruct Hc2 as (-> & Hbs & Hbp & Has & Hc2).
  assert (forall x, x < a \/ a + 16 * n <= x -> h_size h' x = h_size h x) as Hz'.
  { intros x Hx. rewrite Hz. unfold take_at. rewrite !(proj2 (Z.eqb_neq _ _)) by lia. done. }
  assert (forall x, x <> b -> h_ptr h' x = h_ptr h x) as Hp'.
  { intros x Hx. rewrite Hp, (proj2 (Z.eqb_neq x b) Hx). by rewrite andb_false_r. }
  assert (lseg h' (h_ptr h a) l2 base) as Hc2'.
  { eapply lseg_frame; [exact Hc2|]. intros c m Hc%take_l2. cbn in Hc. rewrite Hp', Hz' by lia. done. }
  apply lseg_app. exists b. split.
  { eapply lseg_frame; [exact Hc1|]. intros c m Hc%take_l1. cbn in Hc. rewrite Hp', Hz' by lia. done. }
  cbn [lseg]. split_and!; [done|rewrite Hz'; [done|lia]|]. rewrite Hp, Z.eqb_refl, andb_true_r.
  unfold take_mid. destruct (Z.eqb_spec n k) as [En|Hne]; [exact Hc2'|]. rewrite Hbp. cbn [app lseg].
  rewrite Hz. unfold take_at. rewrite (proj2 (Z.eqb_neq a _)), Z.eqb_refl, Hp' by lia. done.
Qed.

Lemma take_ok : let '(h', r) := malloc_take h k b a in
  r = take_at + 16 /\ exists fl', heap_ok base top h' fl' ((take_at, k) :: live).
Proof.
  pose proof (hp_ring _ _ _ _ _ Hok) as Hr. pose proof take_ba as Hba. pose proof take_in as Hin.
  assert (h_size h a = n) as Ha.
  { assert ((base, 0) :: fl = (l1 ++ [(b, nb)]) ++ (a, n) :: l2) as E2 by (by rewrite <- app_assoc).
    exact (proj2 (ring_next _ _ _ Hr _ _ _ _ E2)). }
  pose proof (take_fields Ha) as Hf. destruct (malloc_take h k b a) as [h' r].
  destruct Hf as (Hr' & Hfreep & Hp & Hz). split; [done|].
  pose proof (base_first _ _ _ Hr _ _ Hin) as Hbase.
  assert (exists fl', (base, 0) :: fl' = l1 ++ (b, nb) :: take_mid ++ l2) as [fl' E'].
  { destruct l1 as [|x l1']; [injection E as <- <- _|injection E as <- _]; cbn; eauto. }
  pose proof take_sorted as Hs'. pose proof (take_circle h' Hp Hz) as Hc'. rewrite <- E' in Hs', Hc'.
  assert (forall x, x ∈ fl' -> 1 <= snd x /\ fst x + 16 * snd x <= top /\ disj x (take_at, k) /\
    forall y, y ∈ live -> disj x y) as Hmem.
  { intros x Hx. apply StronglySorted_cons in Hs' as [Hb _].
    destruct (proj1 (Forall_forall _ _) Hb x Hx) as [Hbx _]. cbn in Hbx.
    assert (x ∈ (base, 0) :: fl') as Hx' by by right. rewrite E', elem_of_app, elem_of_cons, elem_of_app in Hx'.
    assert (x ∈ take_mid \/ (x ∈ fl /\ disj x (a, n))) as [Hm|[Hm Hd]].
    { assert (x ∈ l1 ++ (b, nb) :: (a, n) :: l2 -> x ∈ fl) as Hfl.
      { rewrite <- E. intros [->|]%elem_of_cons; [cbn in Hbx; lia|done]. }
      unfold disj. destruct Hx' as [H|[->|[H|H]]]; [right|right|by left|right]; (split; [apply Hfl; set_solver|]); cbn;
        [apply take_l1 in H|..|apply take_l2 in H]; lia. }
    - apply take_mid_spec in Hm as [-> Hkn]. pose proof (hp_end _ _ _ _ _ Hok _ Hin) as He. cbn in *.
      unfold disj, take_at. cbn. split_and!; try lia. intros y Hy. pose proof (hp_apart _ _ _ _ _ Hok _ _ Hin Hy) as Hd.
      destruct (hp_live _ _ _ _ _ Hok _ Hy) as (_ & H1 & _). unfold disj in Hd. cbn in Hd. lia.
    - pose proof (hp_end _ _ _ _ _ Hok _ Hm) as He. pose proof (rg_size _ _ _ Hr _ Hm).
      unfold disj, take_at in *. cbn in *. split_and!; try lia. intros y Hy. by apply (hp_apart _ _ _ _ _ Hok). }
  pose proof (hp_end _ _ _ _ _ Hok _ Hin) as He. cbn in He.
  assert (forall y, y ∈ live -> disj (take_at, k) y /\ fst y <> a /\ fst y <> take_at) as Hlv.
  { intros y Hy. pose proof (hp_apart _ _ _ _ _ Hok _ _ Hin Hy) as Hd.
    destruct (hp_live _ _ _ _ _ Hok _ Hy) as (_ & H1 & _). unfold disj, take_at in *. cbn in *. lia. }
  exists fl'. split; [apply Hok|apply Hok| | | | |].
  - split; [done| |done|]; [rewrite Hfreep, E', fmap_app; apply elem_of_app; right; by left|]. intros x Hx. by apply Hmem.
  - intros x Hx. by apply Hmem.
  - intros x [->|Hx]%elem_of_cons.
    + cbn. rewrite Hz, Z.eqb_refl. unfold take_at. lia.
    + destruct (hp_live _ _ _ _ _ Hok _ Hx) as (H1 & H2 & H3 & H4). destruct (Hlv x Hx) as (_ & Hx1 & Hx2).
      rewrite Hz, !(proj2 (Z.eqb_neq _ _)) by done. done.
  - intros x y Hx Hy. destruct (Hmem x Hx) as (_ & _ & H1 & H2). apply elem_of_cons in Hy as [->|Hy]; auto.
  - constructor; [|apply Hok]. apply Forall_forall. intros y Hy. by apply Hlv.
Qed.
End Take.

(** ** malloc() *)

(** The tour of the ring from a block back to it. *)
Lemma ring_tour base h fl l1 p np l2 : ring_ok base h fl -> (base, 0) :: fl = l1 ++ (p, np) :: l2 ->
  lseg h (h_ptr h p) (l2 ++ l1) p /\ forall x, x ∈ l2 ++ l1 -> fst x <> p.
Proof.
  intros Hr E. pose proof (rg_circle _ _ _ Hr) as Hc. pose proof (rg_sorted _ _ _ Hr) as Hs. rewrite E in Hc, Hs.
  apply lseg_app in Hc as (r & H1 & H2). cbn [lseg] in H2. destruct H2 as (-> & _ & H2). split.
  - apply lseg_app. eauto.
  - apply StronglySorted_app in Hs as (Hs1 & _ & Hs2). apply StronglySorted_cons in Hs2 as [Hs2 _].
    intros x [Hx|Hx]%elem_of_app.
    + apply (proj1 (Forall_forall _ _) Hs2) in Hx as [Hx _]. cbn in Hx. lia.
    + destruct (Hs1 x (p, np) Hx (list_elem_of_here _ _)) as [H _]. cbn in H. lia.
Qed.

Lemma ring_elem base (fl : list (Z * Z)) a : a ∈ ((base, 0) :: fl).*1 ->
  exists l1 n l2, (base, 0) :: fl = l1 ++ (a, n) :: l2.
Proof. intros ([a' n] & -> & (l1 & l2 & E)%list_elem_of_split)%list_elem_of_fmap. eauto. Qed.

(** A block of the ring that is large enough, reached from the block before. *)
Lemma found_ok base top h fl live a prevp k : heap_ok base top h fl live -> 1 <= k <= h_size h a ->
  a ∈ ((base, 0) :: fl).*1 -> prevp ∈ ((base, 0) :: fl).*1 -> h_ptr h prevp = a ->
  exists h' r fl', malloc_take h k prevp a = (h', r) /\ r <> 0 /\ heap_ok base top h' fl' ((r - 16, k) :: live).
Proof.
  intros Hok Hk Ha Hp Hpa. pose proof (hp_ring _ _ _ _ _ Hok) as Hr.
  destruct (ring_elem _ _ _ Ha) as (l1 & n & l2 & E). destruct (ring_next _ _ _ Hr _ _ _ _ E) as [_ Hn].
  destruct l1 as [|x l1 _] using rev_ind; [injection E as <- <- _; lia|].
  rewrite <- app_assoc in E. cbn [app] in E. destruct x as [b nb].
  assert (base < a) as Hlt.
  { apply (base_first _ _ _ Hr a n). exact (take_in base fl l1 l2 b nb a n E). }
  pose proof (ring_pred _ _ _ _ _ _ _ _ _ _ Hr E Hlt Hp Hpa) as ->. rewrite Hn in Hk.
  pose proof (take_ok base top h fl live l1 l2 b nb a n k Hok E Hk) as Ht.
  destruct (malloc_take h k b a) as [h' r]. destruct Ht as [-> [fl' Hok']].
  exists h', (take_at a n k + 16), fl'. replace (take_at a n k + 16 - 16) with (take_at a n k) by lia.
  split_and!; [done| |done]. pose proof (hp_base _ _ _ _ _ Hok). unfold take_at. lia.
Qed.

(** One tour of the loop of malloc(): it takes a block, or there is none and
    it asks for memory. *)
Lemma malloc_walk base top h fl live k l : heap_ok base top h fl live -> 1 <= k ->
  forall p prevp, lseg h p l (h_freep h) ->
  (forall x, x ∈ l -> fst x <> h_freep h /\ fst x ∈ ((base, 0) :: fl).*1) ->
  prevp ∈ ((base, 0) :: fl).*1 -> h_ptr h prevp = p ->
  (exists h' r fl', (forall N m, malloc_loop (length l + S N) m h k prevp p = Ret (h', r)) /\ r <> 0 /\
     heap_ok base top h' fl' ((r - 16, k) :: live)) \/
  ((forall x, x ∈ l -> snd x < k) /\ h_size h (h_freep h) < k /\
   forall N m, malloc_loop (length l + S N) m h k prevp p =
     ('(h, p) <- morecore m h k;; if p =? 0 then Ret (h, 0) else malloc_loop N m h k p (h_ptr h p))).
Proof.
  intros Hok Hk. pose proof (hp_ring _ _ _ _ _ Hok) as Hr.
  assert (forall p prevp, p ∈ ((base, 0) :: fl).*1 -> prevp ∈ ((base, 0) :: fl).*1 -> h_ptr h prevp = p ->
    k <= h_size h p -> exists h' r fl', (forall F m, malloc_loop F m h k prevp p = Ret (h', r)) /\ r <> 0 /\
      heap_ok base top h' fl' ((r - 16, k) :: live)) as Hfound.
  { intros p prevp Hp Hpr Hpp Hkp.
    destruct (found_ok base top h fl live p prevp k Hok ltac:(lia) Hp Hpr Hpp) as (h' & r & fl' & Et & H0 & Hok').
    exists h', r, fl'. split_and!; [|done|done]. intros F m. destruct F; cbn [malloc_loop];
      rewrite (proj2 (Z.leb_le k _)) by lia; by rewrite Et. }
  induction l as [|[a n] l IH]; intros p prevp Hl Hin Hpr Hpp; cbn [length Nat.add].
  - cbn in Hl. rewrite Hl in Hpp |- *. destruct (Z.leb_spec k (h_size h (h_freep h))) as [Hle|Hgt].
    + left. destruct (Hfound (h_freep h) prevp) as (h' & r & fl' & Hrun & ?); auto; [apply Hr|].
      exists h', r, fl'. auto.
    + right. split_and!; [set_solver|done|]. intros N m. cbn [malloc_loop].
      by rewrite (proj2 (Z.leb_gt k _)), Z.eqb_refl by lia.
  - cbn in Hl. destruct Hl as (Hp & Hn & Hl). rewrite Hp in Hpp |- *. destruct (Hin (a, n)) as [Hne Hmem]; [by left|]. cbn in Hne, Hmem.
    destruct (Z.leb_spec k (h_size h a)) as [Hle|Hgt].
    { left. destruct (Hfound a prevp Hmem Hpr Hpp Hle) as (h' & r & fl' & Hrun & ?). exists h', r, fl'. auto. }
    assert (forall F m, malloc_loop (S F) m h k prevp a = malloc_loop F m h k a (h_ptr h a)) as Hstep.
    { intros F m. cbn [malloc_loop]. by rewrite (proj2 (Z.leb_gt k _)), (proj2 (Z.eqb_neq a _) Hne) by lia. }
    destruct (IH (h_ptr h a) a Hl) as [(h' & r & fl' & Hrun & ?)|(H1 & H2 & H3)]; [|done|done| |].
    + intros x Hx. apply Hin. by right.
    + left. exists h', r, fl'. split; [|done]. intros N m. rewrite Hstep. apply Hrun.
    + right. split_and!; [|done|intros N m; rewrite Hstep; apply H3].
      intros x [->|Hx]%elem_of_cons; [cbn; lia|auto].
Qed.

(** ** Programs that allocate and free *)

(** What the allocator relies on: sbrk() fails, or returns the start of new
    memory above everything handed out before. *)
Class SbrkOS {W : Type} (os : sysc -> W -> answer * W) (top : W -> Z) := {
  sbrk_spec : forall w n, 0 <= n ->
    let '(r, w') := os (SYS_sbrk n) w in
    (a_val r = -1 /\ top w' = top w) \/
    (top w <= a_val r /\ top w' = a_val r + n /\ top w' <= 2 ^ 32);
}.

(** The size of a block for [nbytes] bytes, in headers. *)
Definition units (nbytes : Z) : Z := (nbytes + 16 - 1) / 16 + 1.

Section Programs.
Context {W : Type} (os : sysc -> W -> answer * W) (top : W -> Z) `{!SbrkOS os top}.
Variable base : Z.

Lemma grow_ok h fl live w w' p nu : heap_ok base (top w) h fl live -> 1 <= nu ->
  top w <= p -> top w' = p + 16 * nu -> top w' <= 2 ^ 32 ->
  heap_ok base (top w') (set_size p nu h) fl ((p, nu) :: live).
Proof.
  intros Hok Hnu Hp Ht Hlim. pose proof (hp_base _ _ _ _ _ Hok) as Hb. pose proof (hp_ring _ _ _ _ _ Hok) as Hr.
  assert (forall x, x ∈ fl -> fst x <> p) as Hne.
  { intros x Hx. pose proof (hp_end _ _ _ _ _ Hok _ Hx). pose proof (rg_size _ _ _ Hr _ Hx). lia. }
  split; [lia|done| | | | |].
  - split; [|apply Hr|apply Hr|apply Hr]. eapply lseg_frame; [apply Hr|].
    intros a n Ha. cbn. split; [done|]. apply fset_ne. apply elem_of_cons in Ha as [[= -> _]|Ha]; [lia|].
    by apply (Hne (a, n)).
  - intros x Hx. pose proof (hp_end _ _ _ _ _ Hok _ Hx). lia.
  - intros x [->|Hx]%elem_of_cons; cbn.
    + rewrite fset_eq. lia.
    + destruct (hp_live _ _ _ _ _ Hok _ Hx) as (H1 & H2 & H3 & H4). rewrite fset_ne by lia. lia.
  - intros x y Hx [->|Hy]%elem_of_cons; [|by apply (hp_apart _ _ _ _ _ Hok)].
    pose proof (hp_end _ _ _ _ _ Hok _ Hx). unfold disj. cbn. lia.
  - constructor; [|apply Hok]. apply Forall_forall. intros y Hy.
    destruct (hp_live _ _ _ _ _ Hok _ Hy) as (_ & _ & H & _). unfold disj. cbn. lia.
Qed.

Lemma freep_nonzero t h fl live : heap_ok base t h fl live -> h_freep h <> 0.
Proof.
  intros Hok. pose proof (hp_base _ _ _ _ _ Hok) as Hb. pose proof (hp_ring _ _ _ _ _ Hok) as Hr.
  pose proof (rg_freep _ _ _ Hr) as [->|Hin]%elem_of_cons; [cbn; lia|].
  apply list_elem_of_fmap in Hin as ([a n] & -> & Hin). apply (base_first _ _ _ Hr) in Hin. cbn. lia.
Qed.

(** morecore() fails and changes nothing, or adds a block of at least [k]
    headers to the ring. *)
Lemma morecore_ok h fl live w k : heap_ok base (top w) h fl live -> 1 <= k -> 16 * k < 2 ^ 31 ->
  exists w', ((forall m, run os (morecore m h k) w = Returned (h, 0) w') /\ top w' = top w) \/
    exists h' fl', (forall m, (length fl <= m)%nat -> run os (morecore m h k) w = Returned (h', h_freep h') w') /\
      h_freep h' <> 0 /\
      heap_ok base (top w') h' fl' live /\ (length fl' <= S (length fl))%nat /\
      exists x, x ∈ fl' /\ k <= snd x.
Proof.
  intros Hok Hk Hlim. unfold morecore. set (nu := if k <? 4096 then 4096 else k).
  assert (k <= nu /\ 16 * nu < 2 ^ 31) as [Hnu1 Hnu2] by (unfold nu; destruct (Z.ltb_spec k 4096); lia).
  rewrite s32_small by lia. pose proof (sbrk_spec w (nu * 16) ltac:(lia)) as Hs.
  assert (forall m, run os (p <- call (SYS_sbrk (nu * 16));;
    if p =? -1 then Ret (h, 0) else
    let h := set_size p nu h in h <- free m h (p + 16);; Ret (h, h_freep h)) w =
    run os (let p := a_val (fst (os (SYS_sbrk (nu * 16)) w)) in
    if p =? -1 then Ret (h, 0) else
    let h := set_size p nu h in h <- free m h (p + 16);; Ret (h, h_freep h)) (snd (os (SYS_sbrk (nu * 16)) w))) as Hrun
    by (intros; by rewrite run_call).
  destruct (os (SYS_sbrk (nu * 16)) w) as [r w']. cbn [fst snd] in Hrun. exists w'.
  destruct Hs as [[Hr Ht]|(Ha & Ht & Htl)].
  { left. split; [|done]. intros m. rewrite Hrun, Hr. done. }
  right. pose proof (hp_base _ _ _ _ _ Hok) as Hb.
  pose proof (grow_ok h fl live w w' (a_val r) nu Hok ltac:(lia) Ha ltac:(lia) Htl) as Hok1.
  destruct (free_ok _ _ _ _ _ _ _ Hok1) as (p & fl' & Hf & Hok2 & Hj).
  exists (free_join (set_size (a_val r) nu h) (a_val r) p), fl'. split_and!; [| |done|apply Hj|].
  - intros m Hm. rewrite Hrun. cbn zeta. rewrite (proj2 (Z.eqb_neq (a_val r) (-1))) by lia.
    unfold free. replace (a_val r + 16 - 16) with (a_val r) by lia. by rewrite Hf.
  - by eapply freep_nonzero.
  - destruct (jn_big _ _ _ _ _ _ Hj) as (x & Hx & H1 & H2). exists x. split; [done|]. lia.
Qed.

(** The tour that malloc() makes from [freep]. *)
Lemma freep_tour t h fl live : heap_ok base t h fl live ->
  exists l, lseg h (h_ptr h (h_freep h)) l (h_freep h) /\
    (forall x, x ∈ l -> fst x <> h_freep h /\ fst x ∈ ((base, 0) :: fl).*1) /\ length l = length fl /\
    forall x, x ∈ fl -> x ∈ l \/ snd x = h_size h (h_freep h).
Proof.
  intros Hok. pose proof (hp_ring _ _ _ _ _ Hok) as Hr.
  destruct (ring_elem _ _ _ (rg_freep _ _ _ Hr)) as (l1 & np & l2 & E).
  destruct (ring_tour _ _ _ _ _ _ _ Hr E) as [Hl Hne]. exists (l2 ++ l1). split_and!; [done| | |].
  - intros x Hx. split; [auto|]. rewrite E. apply list_elem_of_fmap. exists x. split; [done|]. set_solver.
  - apply (f_equal length) in E. rewrite !length_app in *. cbn in E. lia.
  - intros x Hx. assert (x ∈ (base, 0) :: fl) as Hx' by by right. rewrite E, elem_of_app, elem_of_cons in Hx'.
    destruct (ring_next _ _ _ Hr _ _ _ _ E) as [_ Hsz].
    destruct Hx' as [|[->|]]; [left|right|left]; [set_solver|done|set_solver].
Qed.

Lemma malloc_loop_ok h fl live w k : heap_ok base (top w) h fl live -> 1 <= k -> 16 * k < 2 ^ 31 ->
  exists h' r w' fl',
    (forall n m, (2 * length fl + 3 <= n)%nat -> (length fl <= m)%nat ->
      run os (malloc_loop n m h k (h_freep h) (h_ptr h (h_freep h))) w = Returned (h', r) w') /\
    heap_ok base (top w') h' fl' (if r =? 0 then live else (r - 16, k) :: live).
Proof.
  intros Hok Hk Hlim. destruct (freep_tour _ _ _ _ Hok) as (l & Hl & Hin & Hlen & _).
  destruct (malloc_walk base (top w) h fl live k l Hok Hk _ _ Hl Hin (rg_freep _ _ _ (hp_ring _ _ _ _ _ Hok)) eq_refl)
    as [(h' & r & fl' & Hrun & Hr0 & Hok')|(_ & _ & Hgo)].
  { exists h', r, w, fl'. rewrite (proj2 (Z.eqb_neq r 0) Hr0). split; [|done]. intros n m Hn Hm.
    replace n with (length l + S (n - length l - 1))%nat by lia. by rewrite Hrun. }
  destruct (morecore_ok h fl live w k Hok Hk Hlim) as (w' & [[Hrun Ht]|(h2 & fl2 & Hrun & H0 & Hok2 & Hlen2 & x & Hx & Hxk)]).
  { exists h, 0, w', fl. rewrite Ht. split; [|done]. intros n m Hn Hm.
    replace n with (length l + S (n - length l - 1))%nat by lia. by rewrite Hgo, (run_bind_ret _ _ _ _ _ _ (Hrun m)). }
  destruct (freep_tour _ _ _ _ Hok2) as (l' & Hl' & Hin' & Hlen' & Hcov).
  destruct (malloc_walk base (top w') h2 fl2 live k l' Hok2 Hk _ _ Hl' Hin'
    (rg_freep _ _ _ (hp_ring _ _ _ _ _ Hok2)) eq_refl) as [(h' & r & fl' & Hrun2 & Hr0 & Hok')|(Hno & Hno2 & _)].
  - exists h', r, w', fl'. rewrite (proj2 (Z.eqb_neq r 0) Hr0). split; [|done]. intros n m Hn Hm.
    replace n with (length l + S (n - length l - 1))%nat by lia.
    rewrite Hgo, (run_bind_ret _ _ _ _ _ _ (Hrun m Hm)), (proj2 (Z.eqb_neq _ 0) H0).
    replace (n - length l - 1)%nat with (length l' + S (n - length l - 1 - length l' - 1))%nat by lia.
    by rewrite Hrun2.
  - exfalso. destruct (Hcov x Hx) as [Hxl|Hxs]; [apply Hno in Hxl|]; lia.
Qed.

(** A program's heap: not set up yet, or as [heap_ok] says. *)
Definition heap_inv (t : Z) (h : heap) (live : list (Z * Z)) : Prop :=
  (h_freep h = 0 /\ live = [] /\ 0 < base < t /\ t <= 2 ^ 32) \/ exists fl, heap_ok base t h fl live.

Lemma units_spec nbytes : 0 <= nbytes <= 2 ^ 31 - 64 ->
  u32 (units nbytes) = units nbytes /\ 1 <= units nbytes /\ 16 * units nbytes < 2 ^ 31 /\
  nbytes <= 16 * (units nbytes - 1).
Proof. intros H. unfold units. split; [apply u32_small|]; dlia. Qed.

Lemma malloc_ok h live w nbytes : heap_inv (top w) h live -> 0 <= nbytes <= 2 ^ 31 - 64 ->
  exists N h' r w', (forall n, (N <= n)%nat -> run os (malloc base n h nbytes) w = Returned (h', r) w') /\
    heap_inv (top w') h' (if r =? 0 then live else (r - 16, units nbytes) :: live).
Proof.
  intros Hinv Hnb. destruct (units_spec nbytes Hnb) as (Hu & Hu1 & Hu2 & _).
  assert (exists h0 fl, heap_ok base (top w) h0 fl live /\
    forall n, malloc base n h nbytes = malloc_loop n n h0 (units nbytes) (h_freep h0) (h_ptr h0 (h_freep h0)))
    as (h0 & fl & Hok & Heq).
  { destruct Hinv as [(Hf & -> & Hb & Ht)|[fl Hok]].
    - exists (set_size base 0 (set_freep base (set_ptr base base h))), []. split.
      + split; [done|done| |set_solver..|constructor]. split; cbn.
        * rewrite !fset_eq. done.
        * by left.
        * repeat constructor.
        * set_solver.
      + intros n. unfold malloc. fold (units nbytes). rewrite Hu, Hf. done.
    - exists h, fl. split; [done|]. intros n. unfold malloc. fold (units nbytes).
      rewrite Hu, (proj2 (Z.eqb_neq _ 0)); [done|]. by eapply freep_nonzero. }
  destruct (malloc_loop_ok h0 fl live w (units nbytes) Hok Hu1 Hu2) as (h' & r & w' & fl' & Hrun & Hok').
  exists (2 * length fl + 3)%nat, h', r, w'. split.
  - intros n Hn. rewrite Heq. apply Hrun; lia.
  - right. eauto.
Qed.

Lemma free_inv h live live' w a k : heap_inv (top w) h live -> live ≡ₚ (a, k) :: live' ->
  exists N h', (forall n, (N <= n)%nat -> run os (free n h (a + 16)) w = Returned h' w) /\
    heap_inv (top w) h' live'.
Proof.
  intros [(_ & -> & _)|[fl Hok]] Hp; [by apply Permutation_nil_cons in Hp|].
  apply (heap_ok_perm _ _ _ _ _ _ Hp) in Hok. destruct (free_ok _ _ _ _ _ _ _ Hok) as (p & fl' & Hf & Hok' & _).
  exists (length fl), (free_join h a p). split; [|right; eauto]. intros n Hn. unfold free.
  replace (a + 16 - 16) with a by lia. by rewrite Hf.
Qed.

(** The states a program can bring its heap to, with the blocks it holds:
    before the first call; after malloc() of less than 2 GB, whatever the
    outcome; and after free() of a block it holds. A call has its result with
    any fuel beyond some bound. *)
Inductive heap_run : heap -> list (Z * Z) -> W -> Prop :=
| HR_init h w : h_freep h = 0 -> 0 < base < top w -> top w <= 2 ^ 32 -> heap_run h [] w
| HR_malloc h live w nbytes h' r w' N : heap_run h live w -> 0 <= nbytes <= 2 ^ 31 - 64 ->
    (forall n, (N <= n)%nat -> run os (malloc base n h nbytes) w = Returned (h', r) w') ->
    heap_run h' (if r =? 0 then live else (r - 16, units nbytes) :: live) w'
| HR_free h live live' w a k h' w' N : heap_run h live w -> live ≡ₚ (a, k) :: live' ->
    (forall n, (N <= n)%nat -> run os (free n h (a + 16)) w = Returned h' w') -> heap_run h' live' w'.

Lemma heap_run_inv h live w : heap_run h live w -> heap_inv (top w) h live.
Proof.
  induction 1 as [h w Hf Hb Ht|h live w nbytes h' r w' N _ IH Hnb Hrun|h live live' w a k h' w' N _ IH Hp Hrun].
  - by left.
  - destruct (malloc_ok h live w nbytes IH Hnb) as (N2 & h2 & r2 & w2 & Hrun2 & Hinv).
    specialize (Hrun (max N N2) ltac:(lia)). rewrite (Hrun2 (max N N2)) in Hrun by lia. by injection Hrun as -> -> ->.
  - destruct (free_inv h live live' w a k IH Hp) as (N2 & h2 & Hrun2 & Hinv).
    specialize (Hrun (max N N2) ltac:(lia)). rewrite (Hrun2 (max N N2)) in Hrun by lia. by injection Hrun as -> ->.
Qed.

(** C19: The allocator of user programs is safe over every sequence of malloc()
    of at most 2^31 - 64 bytes and free(), whatever sbrk() answers: the blocks a program holds lie above
    the static header and below the break and never overlap; the block of
    [malloc(nbytes)] has room for [nbytes] bytes behind its header; and both
    functions return from every such state, so that the next state is one
    again. *)
Theorem heap_blocks_disjoint h live w : heap_run h live w ->
  ForallOrdPairs disj live /\
  (forall a k, (a, k) ∈ live -> base < a /\ 1 <= k /\ a + 16 * k <= top w) /\
  (forall nbytes, 0 <= nbytes <= 2 ^ 31 - 64 -> nbytes <= 16 * (units nbytes - 1) /\
    exists N h' r w', forall n, (N <= n)%nat -> run os (malloc base n h nbytes) w = Returned (h', r) w') /\
  (forall a k, (a, k) ∈ live ->
    exists N h', forall n, (N <= n)%nat -> run os (free n h (a + 16)) w = Returned h' w).
Proof.
  intros Hinv%heap_run_inv. split_and!.
  - destruct Hinv as [(_ & -> & _)|[fl Hok]]; [constructor|apply Hok].
  - intros a k Hin. destruct Hinv as [(_ & -> & _)|[fl Hok]]; [set_solver|].
    destruct (hp_live _ _ _ _ _ Hok _ Hin) as (H1 & H2 & H3 & _). done.
  - intros nbytes Hnb. destruct (units_spec nbytes Hnb) as (_ & _ & _ & Hu). split; [done|].
    destruct (malloc_ok h live w nbytes Hinv Hnb) as (N & h' & r & w' & H & _). eauto.
  - intros a k (l1 & l2 & ->)%list_elem_of_split.
    destruct (free_inv h _ (l1 ++ l2) w a k Hinv) as (N & h' & H & _); [|eauto].
    by rewrite Permutation_middle.
Qed.
End Programs.

(** The first call of malloc(), whatever sbrk() was asked for. *)
Lemma first_block {W} (os : sysc -> W -> answer * W) base n h w k q p w' :
  4096 <= k -> s32 (k * 16) = q -> 0 < base < p -> os (SYS_sbrk q) w = (mkAnswer p [], w') -> (2 <= n)%nat ->
  let h := set_size base 0 (set_freep base (set_ptr base base h)) in
  exists h', run os (malloc_loop n n h k base (h_ptr h base)) w = Returned (h', p + 16) w' /\ h_size h' p = k.
Proof.
  intros Hk Hq Hp Hs Hn h0. destruct n as [|[|n]]; [lia..|].
  assert (h_ptr h0 base = base /\ h_size h0 base = 0 /\ h_freep h0 = base) as (Hp0 & Hs0 & Hf0)
    by (cbn; by rewrite !fset_eq).
  set (h1 := set_size p k h0).
  assert (h_ptr h1 base = base /\ h_size h1 base = 0 /\ h_freep h1 = base /\ h_size h1 p = k) as (Hp1 & Hs1 & Hf1 & Hk1).
  { unfold h1. cbn. rewrite !fset_eq, !fset_ne, fset_eq by lia. done. }
  assert (run os (morecore (S (S n)) h0 k) w = Returned (free_join h1 p base, base) w') as Hm.
  { unfold morecore. rewrite (proj2 (Z.ltb_ge k 4096)), Hq, run_call, Hs by lia. cbn [fst snd a_val].
    rewrite (proj2 (Z.eqb_neq p (-1))) by lia. fold h1. unfold free. replace (p + 16 - 16) with p by lia.
    rewrite Hf1. cbn [free_find]. rewrite Hp1, (proj2 (Z.ltb_lt base p)), (proj2 (Z.ltb_ge p base)), Z.leb_refl by lia.
    cbn. done. }
  destruct (free_join_fields h1 p base ltac:(lia)) as (Hf2 & Hp2 & _ & Hb2 & _). cbn zeta in *.
  rewrite Hk1, Hp1, Hs1 in *. rewrite (proj2 (Z.eqb_neq (p + 16 * k) base)) in * by lia.
  rewrite (proj2 (Z.eqb_neq (base + 16 * 0) p)) in * by lia. destruct (Hb2 eq_refl) as [_ Hs2].
  set (h2 := free_join h1 p base) in *.
  cbn [malloc_loop]. rewrite Hp0, Hs0, (proj2 (Z.leb_gt k 0)), Hf0, Z.eqb_refl by lia.
  rewrite (run_bind_ret _ _ _ _ _ _ Hm), (proj2 (Z.eqb_neq base 0)) by lia.
  rewrite Hp2, Hs2, Z.leb_refl. unfold malloc_take. rewrite Hs2, Z.eqb_refl. cbn [run].
  eexists. split; [done|]. exact Hs2.
Qed.

(** C35: malloc() of the largest unsigned int in a fresh process: the size in
    bytes of the block is passed to sbrk() as an int, so the process grows by
    16 bytes only, and malloc() returns a block whose header claims 2^28 + 1
    headers (4 GB). *)
Theorem malloc_wraps {W} (os : sysc -> W -> answer * W) base n h w p w' :
  h_freep h = 0 -> 0 < base < p -> os (SYS_sbrk 16) w = (mkAnswer p [], w') -> (2 <= n)%nat ->
  exists h', run os (malloc base n h 0xffffffff) w = Returned (h', p + 16) w' /\ h_size h' p = 2 ^ 28 + 1.
Proof.
  intros Hf Hp Hs Hn. unfold malloc. rewrite Hf.
  change (u32 ((0xffffffff + 16 - 1) / 16 + 1)) with (2 ^ 28 + 1).
  apply (first_block os base n h w (2 ^ 28 + 1) 16); [lia|by vm_compute|done..].
Qed.

(** ** A process with a megabyte of memory *)

Module HeapExample.

Definition small_os (c : sysc) (brk : Z) : answer * Z :=
  match c with
  | SYS_sbrk n => if brk + n <=? 2 ^ 20 then (mkAnswer brk [], brk + n) else (mkAnswer (-1) [], brk)
  | _ => (mkAnswer (-1) [], brk)
  end.

#[export] Instance small_os_sbrk : SbrkOS small_os id.
Proof.
  split. intros w n Hn. unfold small_os, id. destruct (Z.leb_spec (w + n) (2 ^ 20)); cbn; [right; lia|by left].
Qed.

Definition fresh : heap := mkHeap (fun _ => 0) (fun _ => 0) 0.

Definition after_malloc : heap * Z :=
  match run small_os (malloc 4096 3 fresh 100) 8192 with Returned r _ => r | _ => (fresh, 0) end.

Lemma after_malloc_run : heap_run small_os id 4096 (fst after_malloc) [(73600, 8)] 73728.
Proof.
  apply (HR_malloc small_os id 4096 fresh [] 8192 100 (fst after_malloc) 73616 73728 3).
  - by apply HR_init.
  - lia.
  - intros n Hn. destruct n as [|[|[|n]]]; [lia..|]. reflexivity.
Qed.

Lemma heap_blocks_disjoint_witness :
  exists N h', forall n, (N <= n)%nat -> run small_os (free n (fst after_malloc) 73616) 73728 = Returned h' 73728.
Proof.
  destruct (heap_blocks_disjoint small_os id 4096 (fst after_malloc) [(73600, 8)] 73728 after_malloc_run)
    as (_ & _ & _ & Hfree).
  apply (Hfree 73600 8). by left.
Defined.

Lemma malloc_wraps_witness :
  exists h', run small_os (malloc 4096 2 fresh 0xffffffff) 8192 = Returned (h', 8208) 8208 /\
    h_size h' 8192 = 2 ^ 28 + 1.
Proof. apply (malloc_wraps small_os 4096 2 fresh 8192 8192 8208); [done|lia|done|lia]. Defined.
End HeapExample.
