(* ===== verification/Utils.v ===== *)
(** The small user programs: cat, wc, echo, kill, ln, mkdir, rm, ls, zombie,
    init, forktest and stressfs. A program is its main() on the list of its
    arguments, each a string without its terminator; [n] bounds the rounds of
    a loop that the kernel's answers control. *)

From S2P Require Import Prelude Riscv User.
Import Ulib Uprintf.
Local Open Scope prog_scope.

(** ** user/cat.c *)

(** [buf] is used only between a read() and the write() after it. *)
Fixpoint cat (n : nat) (fd : Z) : prog unit :=
  match n with
  | O => Fuel
  | S n =>
      r <- ecall (SYS_read fd 512);;
      if 0 <? a_val r then
        k <- call (SYS_write 1 (take (Z.to_nat (a_val r)) (a_out r)));;
        if negb (k =? a_val r) then fprintf 2 (line "cat: write error") [];; Exit 1 else
        cat n fd
      else if a_val r <? 0 then fprintf 2 (line "cat: read error") [];; Exit 1
      else Ret tt
  end.

Fixpoint cat_files (n : nat) (files : list (list Z)) : prog unit :=
  match files with
  | [] => Exit 0
  | f :: files =>
      fd <- call (SYS_open f O_RDONLY);;
      if fd <? 0 then fprintf 2 (line "cat: cannot open %s") [VStr (Some f)];; Exit 1 else
      cat n fd;;
      call (SYS_close fd);;
      cat_files n files
  end.

Definition cat_main (n : nat) (argv : list (list Z)) : prog unit :=
  if (length argv <=? 1)%nat then cat n 0;; Exit 0 else cat_files n (tail argv).

(** ** user/wc.c *)

(** Lines, words, characters, and whether the last character was in a word. *)
Record counts := mkCounts { wl : Z; ww : Z; wcs : Z; inword : bool }.

Definition wc_char (k : counts) (c : Z) : counts :=
  let k := mkCounts (wl k) (ww k) (wcs k + 1) (inword k) in
  let k := if c =? 10 then mkCounts (wl k + 1) (ww k) (wcs k) (inword k) else k in
  match strchr [32; 13; 9; 10; 11] c with
  | Some _ => mkCounts (wl k) (ww k) (wcs k) false
  | None => if negb (inword k) then mkCounts (wl k) (ww k + 1) (wcs k) true else k
  end.

Fixpoint wc_loop (n : nat) (fd : Z) (name : list Z) (k : counts) : prog unit :=
  match n with
  | O => Fuel
  | S n =>
      r <- ecall (SYS_read fd 512);;
      if 0 <? a_val r then wc_loop n fd name (fold_left wc_char (take (Z.to_nat (a_val r)) (a_out r)) k)
      else if a_val r <? 0 then printf (line "wc: read error") [];; Exit 1
      else printf (line "%d %d %d %s") [VInt (wl k); VInt (ww k); VInt (wcs k); VStr (Some name)]
  end.

Definition wc (n : nat) (fd : Z) (name : list Z) : prog unit := wc_loop n fd name (mkCounts 0 0 0 false).

Fixpoint wc_files (n : nat) (files : list (list Z)) : prog unit :=
  match files with
  | [] => Exit 0
  | f :: files =>
      fd <- call (SYS_open f O_RDONLY);;
      if fd <? 0 then printf (line "wc: cannot open %s") [VStr (Some f)];; Exit 1 else
      wc n fd f;;
      call (SYS_close fd);;
      wc_files n files
  end.

Definition wc_main (n : nat) (argv : list (list Z)) : prog unit :=
  if (length argv <=? 1)%nat then wc n 0 [];; Exit 0 else wc_files n (tail argv).

(** ** user/echo.c *)

Fixpoint echo_args (args : list (list Z)) : prog unit :=
  match args with
  | [] => Ret tt
  | a :: args =>
      call (SYS_write 1 (take (Z.to_nat (strlen a)) a));;
      (match args with
       | _ :: _ => call (SYS_write 1 [32]);; Ret tt
       | [] => call (SYS_write 1 [10]);; Ret tt
       end);;
      echo_args args
  end.

Definition echo_main (argv : list (list Z)) : prog unit := echo_args (tail argv);; Exit 0.

(** ** user/kill.c, ln.c, mkdir.c, rm.c *)

Definition kill_main (argv : list (list Z)) : prog unit :=
  if (length argv <? 2)%nat then fprintf 2 (line "usage: kill pid...") [];; Exit 1 else
  ploop (tail argv) (fun a => call (SYS_kill (atoi a));; Ret tt);;
  Exit 0.

Definition ln_main (argv : list (list Z)) : prog unit :=
  match argv with
  | [_; old; new] =>
      r <- call (SYS_link old new);;
      (when r <? 0 do fprintf 2 (line "link %s %s: failed") [VStr (Some old); VStr (Some new)]);;
      Exit 0
  | _ => fprintf 2 (line "Usage: ln old new") [];; Exit 1
  end.

(** The loop over the arguments stops at the first failure. *)
Fixpoint each_path (c : list Z -> sysc) (msg : string) (paths : list (list Z)) : prog unit :=
  match paths with
  | [] => Ret tt
  | p :: paths =>
      r <- call (c p);;
      if r <? 0 then fprintf 2 (line msg) [VStr (Some p)] else each_path c msg paths
  end.

Definition mkdir_main (argv : list (list Z)) : prog unit :=
  if (length argv <? 2)%nat then fprintf 2 (line "Usage: mkdir files...") [];; Exit 1 else
  each_path SYS_mkdir "mkdir: %s failed to create" (tail argv);;
  Exit 0.

Definition rm_main (argv : list (list Z)) : prog unit :=
  if (length argv <? 2)%nat then fprintf 2 (line "Usage: rm files...") [];; Exit 1 else
  each_path SYS_unlink "rm: %s failed to delete" (tail argv);;
  Exit 0.

(** ** user/ls.c *)

(** The fields of the struct stat that fstat() stores. *)
Definition st_ino (st : list Z) : Z := get_le 4 st 4.
Definition st_type (st : list Z) : Z := s16 (get_le 2 st 8).
Definition st_size (st : list Z) : Z := get_le 8 st 16.

(** [for(p = path + strlen(path); p >= path && *p != '/'; p--) ; p++]. *)
Fixpoint after_slash (path : list Z) : list Z :=
  match path with
  | [] => []
  | c :: path => if existsb (Z.eqb 47) path then after_slash path else if c =? 47 then path else c :: path
  end.

Definition fmtname (path : list Z) : list Z :=
  let p := after_slash (cstr path) in
  if 14 <=? strlen p then p else p ++ replicate (Z.to_nat (14 - strlen p)) 32.

Definition ls_line (path st : list Z) : prog unit :=
  printf (line "%s %d %d %d") [VStr (Some (fmtname path)); VInt (st_type st); VInt (st_ino st); VInt (s32 (st_size st))].

(** The loop over the entries of the directory open at [fd]. *)
Fixpoint ls_entries (n : nat) (fd : Z) (path : list Z) : prog unit :=
  match n with
  | O => Fuel
  | S n =>
      r <- ecall (SYS_read fd 16);;
      if negb (a_val r =? 16) then Ret tt else
      if get_le 2 (a_out r) 0 =? 0 then ls_entries n fd path else
      let buf := cstr path ++ 47 :: cstr (get_bytes (a_out r) 2 14) in
      '(k, st) <- stat buf;;
      if k <? 0 then printf (line "ls: cannot stat %s") [VStr (Some buf)];; ls_entries n fd path else
      ls_line buf st;;
      ls_entries n fd path
  end.

Definition ls (n : nat) (path : list Z) : prog unit :=
  fd <- call (SYS_open path O_RDONLY);;
  if fd <? 0 then fprintf 2 (line "ls: cannot open %s") [VStr (Some path)] else
  r <- ecall (SYS_fstat fd);;
  if a_val r <? 0 then
    fprintf 2 (line "ls: cannot stat %s") [VStr (Some path)];; call (SYS_close fd);; Ret tt
  else
  let st := a_out r in
  (if (st_type st =? 3) || (st_type st =? 2) then ls_line path st
   else if st_type st =? 1 then
     if 512 <? strlen path + 1 + 14 + 1 then printf (line "ls: path too long") []
     else ls_entries n fd path
   else Ret tt);;
  call (SYS_close fd);;
  Ret tt.

Definition ls_main (n : nat) (argv : list (list Z)) : prog unit :=
  if (length argv <? 2)%nat then ls n (chars ".");; Exit 0 else
  ploop (tail argv) (ls n);;
  Exit 0.

(** ** user/zombie.c, init.c *)

Definition zombie_main : prog unit :=
  pid <- call SYS_fork;;
  (when 0 <? pid do call (SYS_sleep 5);; Ret tt);;
  Exit 0.

(** Wait until the shell [pid] is gone. *)
Fixpoint init_wait (n : nat) (pid : Z) : prog unit :=
  match n with
  | O => Fuel
  | S n =>
      wpid <- call SYS_wait;;
      if wpid =? pid then Ret tt else
      if wpid <? 0 then printf (line "init: wait returned an error") [];; Exit 1 else
      init_wait n pid
  end.

Fixpoint init_loop (n : nat) : prog unit :=
  match n with
  | O => Fuel
  | S n =>
      printf (line "init: starting sh") [];;
      pid <- call SYS_fork;;
      if pid <? 0 then printf (line "init: fork failed") [];; Exit 1 else
      if pid =? 0 then
        call (SYS_exec (chars "sh") [chars "sh"]);;
        printf (line "init: exec sh failed") [];;
        Exit 1
      else
      init_wait n pid;;
      init_loop n
  end.

Definition CONSOLE : Z := 1.

Definition init_main (n : nat) : prog unit :=
  fd <- call (SYS_open (chars "console") O_RDWR);;
  (when fd <? 0 do
     (call (SYS_mknod (chars "console") CONSOLE 0);;
      call (SYS_open (chars "console") O_RDWR);; Ret tt));;
  call (SYS_dup 0);;
  call (SYS_dup 0);;
  init_loop n.

(** ** user/forktest.c, stressfs.c *)

Definition print (s : list Z) : prog unit := call (SYS_write 1 (take (Z.to_nat (strlen s)) s));; Ret tt.

(** The loop that forks: the number of children started. *)
Fixpoint fork_all (n : nat) (started : Z) : prog Z :=
  match n with
  | O => Ret started
  | S n =>
      pid <- call SYS_fork;;
      if pid <? 0 then Ret started else
      if pid =? 0 then Exit 0 else fork_all n (started + 1)
  end.

Definition forktest : prog unit :=
  print (line "fork test");;
  n <- fork_all 1000 0;;
  if n =? 1000 then print (line "fork claimed to work N times!");; Exit 1 else
  ploop (replicate (Z.to_nat n) tt) (fun _ =>
    r <- call SYS_wait;;
    if r <? 0 then print (line "wait stopped early");; Exit 1 else Ret tt);;
  r <- call SYS_wait;;
  if negb (r =? -1) then print (line "wait got too many");; Exit 1 else
  print (line "fork test OK").

Definition forktest_main : prog unit := forktest;; Exit 0.

(** The process that leaves the loop with [i]. *)
Fixpoint stress_fork (n : nat) (i : Z) : prog Z :=
  match n with
  | O => Ret i
  | S n => pid <- call SYS_fork;; if 0 <? pid then Ret i else stress_fork n (i + 1)
  end.

Definition stressfs_main : prog unit :=
  printf (line "stressfs starting") [];;
  i <- stress_fork 4 0;;
  printf (line "write %d") [VInt i];;
  let path := chars "stressfs" ++ [48 + i] in
  let data := replicate 512 97 in
  fd <- call (SYS_open path (Z.lor O_CREATE O_RDWR));;
  ploop (replicate 20 tt) (fun _ => call (SYS_write fd data);; Ret tt);;
  call (SYS_close fd);;
  printf (line "read") [];;
  fd <- call (SYS_open path O_RDONLY);;
  ploop (replicate 20 tt) (fun _ => call (SYS_read fd 512);; Ret tt);;
  call (SYS_close fd);;
  call SYS_wait;;
  Exit 0.
