(* ===== verification/Mkfs.v ===== *)
(** mkfs/mkfs.c: the program that writes the initial disk image.

    The image file is a number of blocks; the structures of fs.h are their bytes,
    little endian, which is what xshort() and xint() produce. A failed assert() is
    a panic, and so is die() on a read past the end of the image; the host's I/O
    does not fail otherwise. The host's files are given as the pieces in which
    read() returns them. The theorem shows that iappend() appends: the inode then
    lists blocks that hold the old bytes and the new ones. *)

From S2P Require Import Prelude Riscv StringC State Spinlock Kalloc Vm Sched Sleeplock Printf Bio Log Fs.

Definition NINODES : Z := 200.
Definition nbitmap : Z := FSSIZE / BPB + 1.
Definition ninodeblocks : Z := NINODES / IPB + 1.
Definition nlog : Z := LOGSIZE.
Definition nmeta : Z := 2 + nlog + ninodeblocks + nbitmap.
Definition nblocks : Z := FSSIZE - nmeta.

(** The bytes of the result, in the order of memory. *)
Definition xshort (x : Z) : list Z := [u8 x; u8 (Z.shiftr x 8)].
Definition xint (x : Z) : list Z := [u8 x; u8 (Z.shiftr x 8); u8 (Z.shiftr x 16); u8 (Z.shiftr x 24)].

(** The image file, its blocks and how many there are, and the globals
    [freeinode] and [freeblock]. *)
Record mkst := mkMk { m_img : Z -> list Z; m_len : Z; m_freeinode : Z; m_freeblock : Z }.

Abbreviation MK := (M mkst).
Local Open Scope xv6_scope.

Definition bset (img : Z -> list Z) (b : Z) (d : list Z) : Z -> list Z := fun x => if x =? b then d else img x.

Definition zero_block : list Z := replicate (Z.to_nat BSIZE) 0.

(** The block at which lseek() leaves the file: [sec * BSIZE] is a uint. *)
Definition seek (sec : Z) : Z := u32 (sec * BSIZE) / BSIZE.

(** A write behind the end leaves a hole, which reads as zeroes. *)
Definition wsect (sec : Z) (buf : list Z) : MK unit :=
  modify (fun s =>
    let b := seek sec in
    if b <? m_len s then mkMk (bset (m_img s) b buf) (m_len s) (m_freeinode s) (m_freeblock s) else
    let img := fun x => if (m_len s <=? x) && (x <? b) then zero_block else m_img s x in
    mkMk (bset img b buf) (b + 1) (m_freeinode s) (m_freeblock s)).

Definition rsect (sec : Z) : MK (list Z) :=
  len <- gets m_len;;
  if len <=? seek sec then panic "read" else
  gets (fun s => m_img s (seek sec)).

(** The superblock main() writes. *)
Definition mk_sb : superblock :=
  mkSb FSMAGIC FSSIZE nblocks NINODES nlog 2 (2 + nlog) (2 + nlog + ninodeblocks).

Definition sb_bytes : list Z :=
  xint FSMAGIC ++ xint FSSIZE ++ xint nblocks ++ xint NINODES ++ xint nlog ++ xint 2 ++ xint (2 + nlog) ++
  xint (2 + nlog + ninodeblocks).

(** A [struct dinode] is its 64 bytes. *)
Definition winode (inum : Z) (ip : list Z) : MK unit :=
  let bn := IBLOCK inum mk_sb in
  buf <- rsect bn;;
  wsect bn (put_bytes buf (dinode_off inum) ip).

Definition rinode (inum : Z) : MK (list Z) :=
  let bn := IBLOCK inum mk_sb in
  buf <- rsect bn;;
  ret (get_bytes buf (dinode_off inum) 64).

Definition mk_ialloc (type : Z) : MK Z :=
  inum <- gets m_freeinode;;
  modify (fun s => mkMk (m_img s) (m_len s) (u32 (m_freeinode s + 1)) (m_freeblock s));;
  let din := replicate 64 0 in
  let din := put_bytes din 0 (xshort type) in
  let din := put_bytes din 6 (xshort 1) in
  let din := put_bytes din 8 (xint 0) in
  winode inum din;;
  ret inum.

(** The bytes of the bitmap block with the first [used] bits set. *)
Fixpoint set_bits (i : nat) (buf : list Z) : list Z :=
  match i with
  | O => buf
  | S i => let buf := set_bits i buf in
           <[(i / 8)%nat := Z.lor (buf !!! (i / 8)%nat) (Z.shiftl 1 (Z.of_nat (i mod 8)))]> buf
  end.

Definition mk_balloc (used : Z) : MK unit :=
  if negb (used <? BPB) then panic "assert" else
  wsect (sb_bmapstart mk_sb) (set_bits (Z.to_nat used) (replicate (Z.to_nat BSIZE) 0)).

Definition take_block : MK Z :=
  b <- gets m_freeblock;;
  modify (fun s => mkMk (m_img s) (m_len s) (m_freeinode s) (u32 (m_freeblock s + 1)));;
  ret b.

Definition din_addr (din : list Z) (i : Z) : Z := get_le 4 din (Z.to_nat (12 + 4 * i)).
Definition set_din_addr (din : list Z) (i v : Z) : list Z := put_bytes din (Z.to_nat (12 + 4 * i)) (xint v).

(** The block of the file for [fbn], allocated when it has none. *)
Definition iappend_block (din : list Z) (fbn : Z) : MK (list Z * Z) :=
  if fbn <? NDIRECT then
    din <- (if din_addr din fbn =? 0 then
              b <- take_block;; ret (set_din_addr din fbn b)
            else ret din);;
    ret (din, din_addr din fbn)
  else
    din <- (if din_addr din NDIRECT =? 0 then
              b <- take_block;; ret (set_din_addr din NDIRECT b)
            else ret din);;
    indirect <- rsect (din_addr din NDIRECT);;
    let o := Z.to_nat (4 * (fbn - NDIRECT)) in
    indirect <- (if get_le 4 indirect o =? 0 then
                   b <- take_block;;
                   let indirect := put_bytes indirect o (xint b) in
                   wsect (din_addr din NDIRECT) indirect;;
                   ret indirect
                 else ret indirect);;
    ret (din, get_le 4 indirect o).

(** The loop with [p] the bytes left; each round writes at least one. *)
Fixpoint iappend_loop (fuel : nat) (din : list Z) (off : Z) (p : list Z) : MK (list Z * Z) :=
  if Z.of_nat (length p) <=? 0 then ret (din, off) else
  match fuel with
  | O => diverge
  | S fuel =>
      let fbn := off / BSIZE in
      if negb (fbn <? MAXFILE) then panic "assert" else
      '(din, x) <- iappend_block din fbn;;
      let n1 := Z.min (Z.of_nat (length p)) ((fbn + 1) * BSIZE - off) in
      buf <- rsect x;;
      wsect x (put_bytes buf (Z.to_nat (off - fbn * BSIZE)) (take (Z.to_nat n1) p));;
      iappend_loop fuel din (off + n1) (drop (Z.to_nat n1) p)
  end.

Definition iappend (inum : Z) (p : list Z) : MK unit :=
  din <- rinode inum;;
  '(din, off) <- iappend_loop (length p) din (get_le 4 din 8) p;;
  winode inum (put_bytes din 8 (xint off)).

Definition dirent_of (inum : Z) (name : list Z) : list Z := xshort inum ++ name.

(** [strcpy(de.name, s)] and [strncpy(de.name, s, DIRSIZ)] into zeroes. *)
Definition short_name (s : string) : list Z := take DIRSIZ (chars s ++ replicate DIRSIZ 0).

(** "user/" and a leading underscore are dropped from the name. *)
Definition mkfs_name (arg : list Z) : list Z :=
  let shortname := if strncmp 5 arg (chars "user/") =? 0 then drop 5 arg else arg in
  if hd 0 shortname =? 95 then tail shortname else shortname.

(** One file of the command line: its name and the pieces of its content. *)
Definition mkfs_file (rootino : Z) (f : list Z * list (list Z)) : MK unit :=
  let shortname := mkfs_name (fst f) in
  if existsb (Z.eqb 47) (if strncmp 5 (fst f) (chars "user/") =? 0 then drop 5 (fst f) else fst f)
  then panic "assert" else
  if negb (strlen shortname <=? 14) then panic "assert" else
  inum <- mk_ialloc T_FILE;;
  iappend rootino (dirent_of inum (strncpy DIRSIZ shortname));;
  for_each (snd f) (iappend inum).

Definition mkfs_main (files : list (list Z * list (list Z))) : MK unit :=
  modify (fun s => mkMk (m_img s) (m_len s) (m_freeinode s) nmeta);;
  for_each (seqZ 0 FSSIZE) (fun i => wsect i (replicate (Z.to_nat BSIZE) 0));;
  wsect 1 (put_bytes (replicate (Z.to_nat BSIZE) 0) 0 sb_bytes);;
  rootino <- mk_ialloc T_DIR;;
  if negb (rootino =? ROOTINO) then panic "assert" else
  iappend rootino (dirent_of rootino (short_name "."));;
  iappend rootino (dirent_of rootino (short_name ".."));;
  for_each files (mkfs_file rootino);;
  din <- rinode rootino;;
  let off := (get_le 4 din 8 / BSIZE + 1) * BSIZE in
  winode rootino (put_bytes din 8 (xint off));;
  used <- gets m_freeblock;;
  mk_balloc used.

(** ** The bytes of a file *)

(** The block that holds block [k] of the file with the inode [din]. *)
Definition file_block (img : Z -> list Z) (din : list Z) (k : Z) : Z :=
  if k <? NDIRECT then din_addr din k
  else if din_addr din NDIRECT =? 0 then 0
  else get_le 4 (img (din_addr din NDIRECT)) (Z.to_nat (4 * (k - NDIRECT))).

Definition file_byte (img : Z -> list Z) (din : list Z) (i : Z) : Z :=
  img (file_block img din (i / BSIZE)) !!! Z.to_nat (i mod BSIZE).

(** The blocks of a file are distinct and in use, its indirect block is none
    of them, and the blocks of the image from [fb] on are free and zero. *)
Record din_ok (img : Z -> list Z) (din : list Z) (fb : Z) : Prop := {
  dk_len : length din = 64%nat;
  dk_blk : forall b, length (img b) = Z.to_nat BSIZE;
  dk_fb : nmeta <= fb <= FSSIZE;
  dk_ind : din_addr din NDIRECT = 0 \/ nmeta <= din_addr din NDIRECT < fb;
  dk_addr : forall k, 0 <= k < MAXFILE -> file_block img din k = 0 \/ nmeta <= file_block img din k < fb;
  dk_inj : forall j k, 0 <= j < MAXFILE -> 0 <= k < MAXFILE ->
    file_block img din j = file_block img din k -> file_block img din j <> 0 -> j = k;
  dk_apart : forall k, 0 <= k < MAXFILE -> file_block img din k <> 0 -> file_block img din k <> din_addr din NDIRECT;
  dk_fresh : forall b, fb <= b < FSSIZE -> img b = zero_block;
}.

(** 1 when the file has no indirect block yet. *)
Definition no_indirect (din : list Z) : Z := if din_addr din NDIRECT =? 0 then 1 else 0.

Lemma xint_le x : xint x = le_bytes 4 x.
Proof.
  unfold xint, u8. cbn. rewrite !Z.shiftr_div_pow2, !Z.div_div by lia. done.
Qed.

Lemma length_xint x : length (xint x) = 4%nat.
Proof. done. Qed.

Lemma get_xint_same b o v : (o + 4 <= length b)%nat -> 0 <= v < 2 ^ 32 -> get_le 4 (put_bytes b o (xint v)) o = v.
Proof.
  intros Hl Hv. rewrite xint_le. change (put_bytes b o (le_bytes 4 v)) with (put_le 4 b o v).
  rewrite get_put_le_same by done. apply Z.mod_small. done.
Qed.

Lemma get_xint_out b o v o' : (o + 4 <= length b)%nat -> (o' + 4 <= o)%nat \/ (o + 4 <= o')%nat ->
  get_le 4 (put_bytes b o (xint v)) o' = get_le 4 b o'.
Proof. intros Hl Ho. by rewrite !get_le_bytes, get_put_bytes_out. Qed.

Lemma get_le_zero o n : (o + 4 <= n)%nat -> get_le 4 (replicate n 0) o = 0.
Proof.
  intros H. unfold get_le. rewrite drop_replicate, take_replicate.
  replace (min 4 (n - o)) with 4%nat by lia. done.
Qed.

Lemma bset_eq img b d : bset img b d b = d.
Proof. unfold bset. by rewrite Z.eqb_refl. Qed.
Lemma bset_ne img b d x : x <> b -> bset img b d x = img x.
Proof. intros H. unfold bset. by rewrite (proj2 (Z.eqb_neq x b) H). Qed.

Lemma set_din_addr_spec din i v j : length din = 64%nat -> 0 <= i <= NDIRECT -> 0 <= j <= NDIRECT -> 0 <= v < 2 ^ 32 ->
  length (set_din_addr din i v) = 64%nat /\
  din_addr (set_din_addr din i v) j = if j =? i then v else din_addr din j.
Proof.
  unfold NDIRECT, set_din_addr, din_addr. intros Hl Hi Hj Hv. split; [rewrite length_put_bytes; rewrite ?length_xint; lia|].
  destruct (Z.eqb_spec j i) as [->|Hne]; [apply get_xint_same; lia|]. apply get_xint_out; lia.
Qed.

(** ** Allocating the next block *)

(** What [iappend_block] does to the image: only the indirect block changes,
    and blocks at or after [fb]; block [k] of the file is [x], the others are
    as before. *)
Record extended (img : Z -> list Z) (din : list Z) (fb k : Z) (img' : Z -> list Z) (din' : list Z) (fb' x : Z) : Prop := {
  ex_ok : din_ok img' din' fb';
  ex_fb : fb <= fb';
  ex_cost : fb' + no_indirect din' <= fb + 1 + no_indirect din;
  ex_here : file_block img' din' k = x;
  ex_used : x <> 0;
  ex_same : file_block img din k <> 0 -> x = file_block img din k;
  ex_new : file_block img din k = 0 -> fb <= x;
  ex_other : forall j, 0 <= j < MAXFILE -> j <> k -> file_block img' din' j = file_block img din j;
  ex_img : forall b, b <> din_addr din' NDIRECT \/ b = 0 -> img' b = img b;
  ex_ind : din_addr din' NDIRECT = din_addr din NDIRECT \/ din_addr din' NDIRECT = fb;
  ex_head : get_bytes din' 0 12 = get_bytes din 0 12;
}.

Lemma extend_ok img din fb k img' din' fb' x :
  din_ok img din fb -> 0 <= k < MAXFILE -> length din' = 64%nat -> (forall b, length (img' b) = Z.to_nat BSIZE) ->
  fb <= fb' <= FSSIZE -> din_addr din' NDIRECT = 0 \/ nmeta <= din_addr din' NDIRECT < fb' ->
  din_addr din' NDIRECT = din_addr din NDIRECT \/ din_addr din' NDIRECT = fb ->
  file_block img' din' k = x -> fb <= x < fb' -> x <> din_addr din' NDIRECT ->
  (forall j, 0 <= j < MAXFILE -> j <> k -> file_block img' din' j = file_block img din j) ->
  (forall b, fb' <= b < FSSIZE -> img' b = img b) -> din_ok img' din' fb'.
Proof.
  intros Hok Hk Hlen Hblk Hfb Hind Hind2 Hx Hxr Hxi Hj Hfr. pose proof (dk_fb _ _ _ Hok) as Hf.
  split; try done.
  - lia.
  - intros j Hjr. destruct (decide (j = k)) as [->|Hne]; [rewrite Hx; lia|]. rewrite Hj by done.
    destruct (dk_addr _ _ _ Hok j Hjr); [by left|lia].
  - intros i j Hi Hjr. destruct (decide (i = k)) as [->|Hik], (decide (j = k)) as [->|Hjk]; [done|..]; rewrite ?Hx, ?Hj by done.
    + destruct (dk_addr _ _ _ Hok j Hjr); lia.
    + destruct (dk_addr _ _ _ Hok i Hi); lia.
    + by apply (dk_inj _ _ _ Hok).
  - intros j Hjr. destruct (decide (j = k)) as [->|Hne]; [by rewrite Hx|]. rewrite Hj by done. intros H0.
    destruct Hind2 as [->| ->]; [by apply (dk_apart _ _ _ Hok)|]. destruct (dk_addr _ _ _ Hok j Hjr); lia.
  - intros b Hb. rewrite Hfr by done. apply (dk_fresh _ _ _ Hok). lia.
Qed.

Lemma nmeta_pos : 0 < nmeta.
Proof. done. Qed.

Lemma maxfile_eq : MAXFILE = 268 /\ NDIRECT = 12 /\ BSIZE = 1024.
Proof. done. Qed.

Lemma fssize_eq : FSSIZE = 2000.
Proof. done. Qed.

(** A block of the image is read and written in place. *)
Lemma seek_id b : 0 <= b < FSSIZE -> seek b = b.
Proof.
  intros Hb. pose proof fssize_eq. destruct maxfile_eq as (_ & _ & E). unfold seek. rewrite E, u32_small by lia. by apply Z.div_mul.
Qed.

Lemma rsect_run s b : 0 <= b < FSSIZE -> m_len s = FSSIZE -> rsect b s = Ok (m_img s b) s.
Proof.
  intros Hb Hl. unfold rsect. change (gets m_len) with (gets (fun s => m_len s)). mred. rewrite seek_id, Hl, (proj2 (Z.leb_gt _ _)) by lia. done.
Qed.

Lemma wsect_run s b d : 0 <= b < FSSIZE -> m_len s = FSSIZE ->
  wsect b d s = Ok tt (mkMk (bset (m_img s) b d) FSSIZE (m_freeinode s) (m_freeblock s)).
Proof. intros Hb Hl. unfold wsect, modify. by rewrite seek_id, Hl, (proj2 (Z.ltb_lt _ _)) by lia. Qed.

(** A direct block. *)
Lemma extend_direct img din fb k : din_ok img din fb -> 0 <= k < NDIRECT -> fb + 1 <= FSSIZE -> din_addr din k = 0 ->
  extended img din fb k img (set_din_addr din k fb) (fb + 1) fb.
Proof.
  intros Hok Hk Hfb H0. pose proof (dk_fb _ _ _ Hok) as Hf. pose proof nmeta_pos. pose proof fssize_eq as Efs. destruct maxfile_eq as (Emf & End & _).
  assert (forall j, 0 <= j <= NDIRECT -> din_addr (set_din_addr din k fb) j = if j =? k then fb else din_addr din j) as Hset.
  { intros j Hj. apply set_din_addr_spec; [apply Hok|lia|lia|lia]. }
  assert (length (set_din_addr din k fb) = 64%nat) as Hlen by (apply (set_din_addr_spec din k fb 0); [apply Hok|lia|lia|lia]).
  assert (din_addr (set_din_addr din k fb) NDIRECT = din_addr din NDIRECT) as Hind.
  { rewrite Hset by lia. by rewrite (proj2 (Z.eqb_neq NDIRECT k)) by lia. }
  assert (file_block img (set_din_addr din k fb) k = fb) as Hhere.
  { unfold file_block. rewrite (proj2 (Z.ltb_lt k NDIRECT)), Hset, Z.eqb_refl by lia. done. }
  assert (forall j, 0 <= j < MAXFILE -> j <> k -> file_block img (set_din_addr din k fb) j = file_block img din j) as Hoth.
  { intros j Hj Hne. unfold file_block. rewrite Hind. destruct (Z.ltb_spec j NDIRECT); [|done].
    rewrite Hset by lia. by rewrite (proj2 (Z.eqb_neq j k) Hne). }
  pose proof (dk_ind _ _ _ Hok) as Hi.
  assert (file_block img din k = 0) as Hk0 by (unfold file_block; by rewrite (proj2 (Z.ltb_lt k NDIRECT)) by lia).
  split; try done; [|lia|unfold no_indirect; rewrite Hind; lia|lia|by left|].
  - eapply (extend_ok img din fb k); try done; [lia|apply Hok|lia|rewrite Hind; lia|by left|lia|rewrite Hind; lia].
  - unfold set_din_addr. apply get_put_bytes_out; rewrite ?length_xint, ?(dk_len _ _ _ Hok); lia.
Qed.

(** The indirect block itself: no block of the file changes. *)
Lemma extend_indirect img din fb : din_ok img din fb -> fb + 1 <= FSSIZE -> din_addr din NDIRECT = 0 ->
  let din' := set_din_addr din NDIRECT fb in
  din_ok img din' (fb + 1) /\ din_addr din' NDIRECT = fb /\
  (forall j, 0 <= j < MAXFILE -> file_block img din' j = file_block img din j) /\
  get_bytes din' 0 12 = get_bytes din 0 12.
Proof.
  intros Hok Hfb H0 din'. pose proof (dk_fb _ _ _ Hok) as Hf. pose proof nmeta_pos. pose proof fssize_eq as Efs. destruct maxfile_eq as (Emf & End & Ebs).
  assert (forall j, 0 <= j <= NDIRECT -> din_addr din' j = if j =? NDIRECT then fb else din_addr din j) as Hset.
  { intros j Hj. apply set_din_addr_spec; [apply Hok|lia|lia|lia]. }
  assert (length din' = 64%nat) as Hlen by (apply (set_din_addr_spec din NDIRECT fb 0); [apply Hok|lia|lia|lia]).
  assert (din_addr din' NDIRECT = fb) as Hind by (rewrite Hset, Z.eqb_refl by lia; done).
  assert (forall j, 0 <= j < MAXFILE -> file_block img din' j = file_block img din j) as Hoth.
  { intros j Hj. unfold file_block. rewrite Hind, H0. destruct (Z.ltb_spec j NDIRECT).
    - rewrite Hset by lia. by rewrite (proj2 (Z.eqb_neq j NDIRECT)) by lia.
    - rewrite (proj2 (Z.eqb_neq fb 0)), (dk_fresh _ _ _ Hok), Z.eqb_refl by lia. apply get_le_zero. lia. }
  split_and!; [|done|done|].
  - split; try done; [apply Hok|lia|lia| | | |].
    + intros j Hj. rewrite Hoth by done. destruct (dk_addr _ _ _ Hok j Hj); lia.
    + intros i j Hi Hj. rewrite !Hoth by done. by apply (dk_inj _ _ _ Hok).
    + intros j Hj. rewrite Hoth, Hind by done. destruct (dk_addr _ _ _ Hok j Hj); lia.
    + intros b Hb. apply (dk_fresh _ _ _ Hok). lia.
  - unfold din', set_din_addr. apply get_put_bytes_out; rewrite ?length_xint, ?(dk_len _ _ _ Hok); lia.
Qed.

(** An entry of the indirect block. *)
Lemma extend_entry img din fb k : din_ok img din fb -> NDIRECT <= k < MAXFILE -> fb + 1 <= FSSIZE ->
  din_addr din NDIRECT <> 0 -> file_block img din k = 0 ->
  let ind := din_addr din NDIRECT in
  extended img din fb k (bset img ind (put_bytes (img ind) (Z.to_nat (4 * (k - NDIRECT))) (xint fb))) din (fb + 1) fb.
Proof.
  intros Hok Hk Hfb Hi0 H0 ind. pose proof (dk_fb _ _ _ Hok) as Hf. pose proof nmeta_pos. pose proof fssize_eq as Efs. destruct maxfile_eq as (Emf & End & Ebs).
  set (o := Z.to_nat (4 * (k - NDIRECT))). set (img' := bset img ind (put_bytes (img ind) o (xint fb))).
  assert (length (img ind) = 1024%nat) as Hl by (rewrite (dk_blk _ _ _ Hok); lia).
  assert (img' ind = put_bytes (img ind) o (xint fb)) as Hii by apply bset_eq.
  assert (forall j, NDIRECT <= j < MAXFILE -> file_block img' din j = get_le 4 (put_bytes (img ind) o (xint fb)) (Z.to_nat (4 * (j - NDIRECT)))) as Hfb2.
  { intros j Hj. unfold file_block. fold ind. rewrite (proj2 (Z.ltb_ge j NDIRECT)), (proj2 (Z.eqb_neq ind 0) Hi0), Hii by lia. done. }
  assert (file_block img' din k = fb) as Hhere.
  { rewrite Hfb2 by lia. apply get_xint_same; [unfold o; lia|lia]. }
  assert (forall j, 0 <= j < MAXFILE -> j <> k -> file_block img' din j = file_block img din j) as Hoth.
  { intros j Hj Hne. destruct (Z.ltb_spec j NDIRECT) as [Hlt|Hge].
    - unfold file_block. by rewrite (proj2 (Z.ltb_lt j NDIRECT)).
    - rewrite Hfb2 by lia. rewrite get_xint_out by (unfold o; lia). unfold file_block. fold ind.
      by rewrite (proj2 (Z.ltb_ge j NDIRECT)), (proj2 (Z.eqb_neq ind 0) Hi0) by lia. }
  pose proof (dk_ind _ _ _ Hok) as Hi. fold ind in Hi.
  split; try done; try lia.
  - eapply (extend_ok img din fb k); try done; [lia|apply Hok| |lia|fold ind; lia|by left|lia|fold ind; lia|].
    + intros b. unfold img', bset. destruct (b =? ind); [|apply Hok]. rewrite length_put_bytes; [apply Hok|].
      rewrite length_xint. unfold o. lia.
    + intros b Hb. apply bset_ne. lia.
  - intros b Hb. apply bset_ne. fold ind in Hb, Hi0. lia.
Qed.

Lemma extend_none img din fb k : din_ok img din fb -> 0 <= k < MAXFILE -> file_block img din k <> 0 ->
  extended img din fb k img din fb (file_block img din k).
Proof. intros Hok Hk H0. split; try done; lia. Qed.

Lemma take_block_run s : m_freeblock s + 1 <= FSSIZE -> 0 <= m_freeblock s ->
  take_block s = Ok (m_freeblock s) (mkMk (m_img s) (m_len s) (m_freeinode s) (m_freeblock s + 1)).
Proof. intros. pose proof fssize_eq. unfold take_block. mred. unfold ret. rewrite u32_small by lia. done. Qed.

(** The entry of a block behind the direct ones, the indirect block given. *)
Lemma indirect_entry img din k : NDIRECT <= k -> din_addr din NDIRECT <> 0 ->
  file_block img din k = get_le 4 (img (din_addr din NDIRECT)) (Z.to_nat (4 * (k - NDIRECT))).
Proof.
  intros Hk Hi. unfold file_block. by rewrite (proj2 (Z.ltb_ge k NDIRECT)), (proj2 (Z.eqb_neq _ 0) Hi).
Qed.

Lemma iappend_block_spec s din k : din_ok (m_img s) din (m_freeblock s) -> 0 <= k < MAXFILE ->
  m_len s = FSSIZE -> m_freeblock s + 1 + no_indirect din <= FSSIZE ->
  exists din' x s', iappend_block din k s = Ok (din', x) s' /\ m_freeinode s' = m_freeinode s /\ m_len s' = FSSIZE /\
    extended (m_img s) din (m_freeblock s) k (m_img s') din' (m_freeblock s') x.
Proof.
  intros Hok Hk Hlen Hlim. pose proof (dk_fb _ _ _ Hok) as Hf. pose proof nmeta_pos. pose proof fssize_eq as Efs. unfold iappend_block.
  assert (0 <= no_indirect din) by (unfold no_indirect; destruct (_ =? 0); lia).
  destruct (Z.ltb_spec k NDIRECT) as [Hd|Hd].
  - assert (file_block (m_img s) din k = din_addr din k) as Eb by (unfold file_block; by rewrite (proj2 (Z.ltb_lt k NDIRECT))).
    destruct (Z.eqb_spec (din_addr din k) 0) as [E0|Hne].
    + exists (set_din_addr din k (m_freeblock s)), (m_freeblock s), (mkMk (m_img s) (m_len s) (m_freeinode s) (m_freeblock s + 1)).
      pose proof (extend_direct _ _ _ k Hok ltac:(lia) ltac:(lia) E0) as Hex.
      split_and!; [|done|done|done]. mrun (take_block_run s ltac:(lia) ltac:(lia)). unfold ret.
      pose proof (ex_here _ _ _ _ _ _ _ _ Hex) as Hh. unfold file_block in Hh.
      rewrite (proj2 (Z.ltb_lt k NDIRECT)) in Hh by done. by rewrite Hh.
    + exists din, (din_addr din k), s. split_and!; [done|done|done|]. rewrite <- Eb. apply extend_none; [done|done|congruence].
  - (* the indirect block, then its entry *)
    assert (exists din1 s1, (if din_addr din NDIRECT =? 0 then b <- take_block;; ret (set_din_addr din NDIRECT b) else ret din) s
        = Ok din1 s1 /\ m_freeinode s1 = m_freeinode s /\ m_len s1 = FSSIZE /\ m_img s1 = m_img s /\ din_ok (m_img s) din1 (m_freeblock s1) /\
        m_freeblock s <= m_freeblock s1 <= m_freeblock s + no_indirect din /\ din_addr din1 NDIRECT <> 0 /\
        (din_addr din1 NDIRECT = din_addr din NDIRECT \/ din_addr din1 NDIRECT = m_freeblock s) /\
        (forall j, 0 <= j < MAXFILE -> file_block (m_img s) din1 j = file_block (m_img s) din j) /\
        get_bytes din1 0 12 = get_bytes din 0 12) as (din1 & s1 & Hrun & Hfi & Hl1 & Himg & Hok1 & Hfb1 & Hi0 & Hi1 & Hsame & Hhd).
    { unfold no_indirect in *. destruct (Z.eqb_spec (din_addr din NDIRECT) 0) as [E0|Hne]; [|exists din, s; split_and!; auto; lia].
      destruct (extend_indirect _ _ _ Hok ltac:(lia) E0) as (G1 & G2 & G3 & G4).
      exists (set_din_addr din NDIRECT (m_freeblock s)), (mkMk (m_img s) (m_len s) (m_freeinode s) (m_freeblock s + 1)).
      split_and!; auto; try (cbn; lia). by mrun (take_block_run s ltac:(lia) ltac:(lia)). }
    pose proof (dk_ind _ _ _ Hok1) as Hir. pose proof (dk_fb _ _ _ Hok1). set (ind := din_addr din1 NDIRECT) in *.
    assert (0 <= ind < FSSIZE) as Hir' by lia.
    assert (Hni : no_indirect din1 = 0) by (unfold no_indirect; fold ind; by rewrite (proj2 (Z.eqb_neq _ _) Hi0)).
    mrun Hrun. mrun (rsect_run s1 ind Hir' Hl1). rewrite Himg.
    pose proof (indirect_entry (m_img s) din1 k Hd Hi0) as Ent. fold ind in Ent. rewrite <- Ent.
    destruct (Z.eqb_spec (file_block (m_img s) din1 k) 0) as [E0|Hne].
    + pose proof (extend_entry _ _ _ k Hok1 ltac:(lia) ltac:(lia) Hi0 E0) as Hex. cbn zeta in Hex. fold ind in Hex.
      mrun (take_block_run s1 ltac:(lia) ltac:(lia)). set (sw := mkMk (m_img s1) _ _ _). mrun (wsect_run sw ind
        (put_bytes (m_img s ind) (Z.to_nat (4 * (k - NDIRECT))) (xint (m_freeblock s1))) Hir' Hl1). unfold ret. cbn [m_img m_freeinode m_freeblock sw]. rewrite Himg.
      exists din1, (m_freeblock s1), (mkMk (bset (m_img s) ind (put_bytes (m_img s ind) (Z.to_nat (4 * (k - NDIRECT)))
        (xint (m_freeblock s1)))) FSSIZE (m_freeinode s1) (m_freeblock s1 + 1)). split_and!; [|exact Hfi|done|].
      { pose proof (ex_here _ _ _ _ _ _ _ _ Hex) as Hh. rewrite indirect_entry in Hh by done. fold ind in Hh.
        rewrite bset_eq in Hh. by rewrite Hh. }
      cbn [m_img m_freeblock]. destruct Hex as [X1 X2 X2' X3 X4 X5 X6 X7 X8 X9 X10].
      split; [exact X1|lia|lia|done|done|rewrite <- Hsame by lia; congruence|lia| |done|done|congruence].
      intros j Hj Hne. rewrite X7 by done. by apply Hsame.
    + mred. unfold ret. exists din1, (file_block (m_img s) din1 k), s1. rewrite <- Ent. split_and!; [done|done|done|].
      rewrite Himg. split; try done; [lia|lia|intros _; by apply Hsame|rewrite <- Hsame by lia; congruence|intros j Hj _; by apply Hsame].
Qed.

(** ** Appending *)

(** The blocks the file has hold [c]. *)
Definition holds (img : Z -> list Z) (din : list Z) (c : list Z) : Prop :=
  (forall i, 0 <= i < Z.of_nat (length c) -> file_byte img din i = c !!! Z.to_nat i) /\
  (forall k, 0 <= k < MAXFILE -> k * BSIZE < Z.of_nat (length c) -> file_block img din k <> 0).

(** A block the file uses. *)
Definition owned (img : Z -> list Z) (din : list Z) (b : Z) : Prop :=
  b <> 0 /\ (b = din_addr din NDIRECT \/ exists k, 0 <= k < MAXFILE /\ file_block img din k = b).

Lemma file_block_same img img' din k : img' (din_addr din NDIRECT) = img (din_addr din NDIRECT) ->
  file_block img' din k = file_block img din k.
Proof. intros H. unfold file_block. by rewrite H. Qed.

Lemma lookup_total_put_in b o l i : (o + length l <= length b)%nat -> (o <= i < o + length l)%nat ->
  put_bytes b o l !!! i = l !!! (i - o)%nat.
Proof.
  intros Hl Hi. unfold put_bytes. rewrite !list_lookup_total_alt.
  rewrite lookup_app_r, length_take, Nat.min_l, lookup_app_l by (rewrite ?length_take; lia). done.
Qed.

Lemma lookup_total_put_out b o l i : (o + length l <= length b)%nat -> (i < o)%nat \/ (o + length l <= i)%nat ->
  put_bytes b o l !!! i = b !!! i.
Proof. intros Hl Hi. rewrite !list_lookup_total_alt. by rewrite lookup_put_bytes_out. Qed.

Section Round.
Variables (img img' : Z -> list Z) (din din' c chunk : list Z) (fb fb' x : Z).
Let off : Z := Z.of_nat (length c).
Let fbn : Z := off / BSIZE.
Hypotheses (Hok : din_ok img din fb) (Hh : holds img din c) (Hfbn : fbn < MAXFILE)
  (Hex : extended img din fb fbn img' din' fb' x)
  (Hchunk : off + Z.of_nat (length chunk) <= (fbn + 1) * BSIZE).

Let img2 : Z -> list Z := bset img' x (put_bytes (img' x) (Z.to_nat (off - fbn * BSIZE)) chunk).

Lemma round_off : 0 <= fbn /\ fbn * BSIZE <= off < (fbn + 1) * BSIZE /\ 0 <= off.
Proof. unfold fbn. destruct maxfile_eq as (_ & _ & ->). dlia. Qed.

Lemma round_block k : file_block img2 din' k = file_block img' din' k.
Proof.
  apply file_block_same, bset_ne. rewrite <- (ex_here _ _ _ _ _ _ _ _ Hex). intros E. pose proof round_off.
  apply (dk_apart _ _ _ (ex_ok _ _ _ _ _ _ _ _ Hex) fbn); [lia| |done]. rewrite (ex_here _ _ _ _ _ _ _ _ Hex). apply Hex.
Qed.

Lemma round_room : (Z.to_nat (off - fbn * BSIZE) + length chunk <= length (img' x))%nat.
Proof.
  rewrite (dk_blk _ _ _ (ex_ok _ _ _ _ _ _ _ _ Hex)). pose proof round_off. destruct maxfile_eq as (_ & _ & E).
  rewrite E in *. lia.
Qed.

Lemma round_ok : din_ok img2 din' fb'.
Proof.
  pose proof (ex_ok _ _ _ _ _ _ _ _ Hex) as Hk. pose proof round_off.
  split; [apply Hk| |apply Hk|apply Hk|intros k; rewrite round_block; apply Hk| |intros k; rewrite round_block; apply Hk|].
  - intros b. unfold img2, bset. destruct (b =? x); [|apply Hk]. rewrite length_put_bytes by apply round_room. apply Hk.
  - intros j k Hj Hk'. rewrite !round_block. by apply Hk.
  - intros b Hb. unfold img2. rewrite bset_ne; [by apply Hk|].
    destruct (dk_addr _ _ _ Hk fbn); [lia|..]; rewrite (ex_here _ _ _ _ _ _ _ _ Hex) in *; [by destruct (ex_used _ _ _ _ _ _ _ _ Hex)|lia].
Qed.

Lemma round_holds : holds img2 din' (c ++ chunk).
Proof.
  pose proof round_off as Ho. pose proof (ex_ok _ _ _ _ _ _ _ _ Hex) as Hk. pose proof (ex_here _ _ _ _ _ _ _ _ Hex) as Hx.
  pose proof (ex_used _ _ _ _ _ _ _ _ Hex) as Hx0. destruct maxfile_eq as (Emf & End & Ebs). destruct Hh as [Hb Hu].
  assert (forall b, b <> x -> b <> din_addr din' NDIRECT -> img2 b = img b) as Hfr.
  { intros b Hb1 Hb2. unfold img2. rewrite bset_ne by done. apply (ex_img _ _ _ _ _ _ _ _ Hex). by left. }
  split.
  - intros i Hi. rewrite length_app in Hi. unfold file_byte. rewrite round_block.
    destruct (decide (i / BSIZE = fbn)) as [Ei|Ei].
    + rewrite Ei, Hx. unfold img2. rewrite bset_eq. destruct (Z.ltb_spec i off) as [Hlt|Hge].
      * rewrite lookup_total_put_out; [|apply round_room|left; rewrite Ebs in *; dlia].
        rewrite lookup_total_app_l by (unfold off in Hlt; lia). rewrite <- Hb by (unfold off in Hlt; lia).
        unfold file_byte. rewrite Ei. assert (file_block img din fbn <> 0) as Hn by (apply Hu; [lia|fold off; rewrite Ebs in *; dlia]).
        rewrite <- (ex_same _ _ _ _ _ _ _ _ Hex Hn). rewrite (ex_img _ _ _ _ _ _ _ _ Hex); [done|]. left.
        rewrite <- Hx. apply Hk; [lia|congruence].
      * rewrite lookup_total_put_in; [|apply round_room|rewrite Ebs in *; dlia].
        rewrite lookup_total_app_r by (unfold off in Hge; lia). f_equal. unfold off in *. rewrite Ebs in *. dlia.
    + assert (i < off) as Hlt by (rewrite Ebs in *; dlia). assert (i / BSIZE < fbn) as Hlt2 by (rewrite Ebs in *; dlia).
      assert (0 <= i / BSIZE) as Hge2 by (rewrite Ebs in *; dlia).
      rewrite lookup_total_app_l by (unfold off in Hlt; lia). rewrite <- Hb by (unfold off in Hlt; lia).
      rewrite (ex_other _ _ _ _ _ _ _ _ Hex) by (done || lia). unfold file_byte.
      assert (file_block img din (i / BSIZE) <> 0) as Hn by (apply Hu; [lia|fold off; rewrite Ebs in *; dlia]).
      pose proof (ex_other _ _ _ _ _ _ _ _ Hex (i / BSIZE) ltac:(lia) Ei) as Eo.
      rewrite Hfr; [done| |].
      * rewrite <- Eo, <- Hx. intros E. apply Ei. apply Hk; [lia|lia|done|congruence].
      * rewrite <- Eo. apply Hk; [lia|congruence].
  - intros k Hk1 Hk2. rewrite length_app in Hk2. rewrite round_block.
    destruct (decide (k = fbn)) as [->|Hne]; [by rewrite Hx|]. rewrite (ex_other _ _ _ _ _ _ _ _ Hex) by done.
    apply Hu; [done|]. fold off. rewrite Ebs in *. lia.
Qed.

Lemma round_frame b : b < fb -> ~ owned img din b -> img2 b = img b /\ ~ owned img2 din' b.
Proof.
  pose proof round_off as Ho. intros Hb Hno. pose proof (ex_ok _ _ _ _ _ _ _ _ Hex) as Hk.
  pose proof (ex_here _ _ _ _ _ _ _ _ Hex) as Hx. pose proof (ex_used _ _ _ _ _ _ _ _ Hex) as Hx0.
  assert (~ owned img2 din' b) as Hno2.
  { intros [H0 [Hi|(k & Hk1 & Hk2)]]; apply Hno; (split; [done|]).
    - destruct (ex_ind _ _ _ _ _ _ _ _ Hex) as [E|E]; [left; congruence|lia].
    - rewrite round_block in Hk2. right. exists k. split; [done|]. destruct (decide (k = fbn)) as [->|Hne].
      + destruct (decide (file_block img din fbn = 0)) as [E0|Hn];
          [|rewrite <- (ex_same _ _ _ _ _ _ _ _ Hex Hn); congruence].
        pose proof (ex_new _ _ _ _ _ _ _ _ Hex E0). lia.
      + rewrite <- Hk2. symmetry. by apply (ex_other _ _ _ _ _ _ _ _ Hex). }
  split; [|done]. unfold img2. destruct (decide (b = x)) as [->|Hne].
  - exfalso. apply Hno2. split; [done|]. right. exists fbn. rewrite round_block. split; [lia|done].
  - rewrite bset_ne by done. apply (ex_img _ _ _ _ _ _ _ _ Hex).
    destruct (decide (b = 0)) as [->|Hb0]; [by right|]. left. intros E. apply Hno2. split; [done|]. by left.
Qed.
End Round.

(** The blocks that [n] bytes at offset [off] touch. *)
Definition touched (off n : Z) : Z := if n =? 0 then 0 else (off + n - 1) / BSIZE - off / BSIZE + 1.

Lemma touched_next off n n1 : 0 <= off -> 0 < n -> n1 = Z.min n ((off / BSIZE + 1) * BSIZE - off) ->
  touched off n = 1 + touched (off + n1) (n - n1).
Proof.
  intros Ho Hn E. destruct maxfile_eq as (_ & _ & Ebs). unfold touched. rewrite Ebs in *.
  rewrite (proj2 (Z.eqb_neq n 0)) by lia. destruct (Z.eqb_spec (n - n1) 0) as [E0|E0]; dlia.
Qed.

Lemma touched_pos off n : 0 <= off -> 0 <= n -> 0 <= touched off n.
Proof.
  intros Ho Hn. unfold touched. destruct maxfile_eq as (_ & _ & ->). destruct (Z.eqb_spec n 0); [lia|]. dlia.
Qed.

Lemma iappend_loop_spec fuel : forall s din c p, din_ok (m_img s) din (m_freeblock s) -> holds (m_img s) din c ->
  (length p <= fuel)%nat -> Z.of_nat (length c + length p) <= MAXFILE * BSIZE ->
  m_len s = FSSIZE -> m_freeblock s + touched (Z.of_nat (length c)) (Z.of_nat (length p)) + no_indirect din <= FSSIZE ->
  exists din' s', iappend_loop fuel din (Z.of_nat (length c)) p s = Ok (din', Z.of_nat (length (c ++ p))) s' /\
    din_ok (m_img s') din' (m_freeblock s') /\ holds (m_img s') din' (c ++ p) /\
    m_freeinode s' = m_freeinode s /\ m_freeblock s <= m_freeblock s' /\ m_len s' = FSSIZE /\
    get_bytes din' 0 12 = get_bytes din 0 12 /\
    forall b, b < m_freeblock s -> ~ owned (m_img s) din b -> m_img s' b = m_img s b /\ ~ owned (m_img s') din' b.
Proof.
  induction fuel as [|fuel IH]; intros s din c p Hok Hh Hlen Hmax Hml Hfb; cbn [iappend_loop];
    (destruct (Z.leb_spec (Z.of_nat (length p)) 0) as [Hp|Hp];
      [destruct p; [|cbn in Hp; lia]; rewrite app_nil_r; exists din, s; split_and!; auto; lia|]); [lia|].
  destruct maxfile_eq as (Emf & End & Ebs). set (off := Z.of_nat (length c)). set (fbn := off / BSIZE).
  assert (0 <= fbn < MAXFILE /\ fbn * BSIZE <= off < (fbn + 1) * BSIZE) as [Hf1 Hf2].
  { unfold fbn, off in *. rewrite Emf, Ebs in *. dlia. }
  rewrite (proj2 (Z.ltb_lt fbn MAXFILE)) by lia. cbn [negb].
  pose proof (touched_next off (Z.of_nat (length p)) _ ltac:(lia) ltac:(lia) eq_refl) as Ht. fold fbn in Ht.
  pose proof (touched_pos (off + Z.min (Z.of_nat (length p)) ((fbn + 1) * BSIZE - off)) (Z.of_nat (length p) - Z.min (Z.of_nat (length p)) ((fbn + 1) * BSIZE - off))
    ltac:(lia) ltac:(lia)) as Ht0. fold off in Hfb.
  destruct (iappend_block_spec s din fbn Hok Hf1 Hml ltac:(lia)) as (din1 & x & s1 & Hrun & Hfi1 & Hml1 & Hex).
  set (n1 := Z.min (Z.of_nat (length p)) ((fbn + 1) * BSIZE - off)).
  set (chunk := take (Z.to_nat n1) p). assert (Z.of_nat (length chunk) = n1 /\ 1 <= n1) as [Hn1 Hn2].
  { unfold chunk. rewrite length_take. unfold n1. rewrite Ebs in *. lia. }
  assert (off + Z.of_nat (length chunk) <= (fbn + 1) * BSIZE) as Hchunk by lia.
  pose proof (round_ok _ _ _ _ c chunk _ _ _ (proj2 Hf1) Hex Hchunk) as Hok2.
  pose proof (round_holds _ _ _ _ c chunk _ _ _ Hh (proj2 Hf1) Hex Hchunk) as Hh2.
  pose proof (round_frame _ _ _ _ c chunk _ _ _ (proj2 Hf1) Hex) as Hfr2. fold off fbn in Hok2, Hh2, Hfr2.
  pose proof (ex_fb _ _ _ _ _ _ _ _ Hex) as Hfb1. pose proof (ex_cost _ _ _ _ _ _ _ _ Hex) as Hcost.
  set (s2 := mkMk (bset (m_img s1) x (put_bytes (m_img s1 x) (Z.to_nat (off - fbn * BSIZE)) chunk)) FSSIZE (m_freeinode s1) (m_freeblock s1)).
  assert (Hxr : 0 <= x < FSSIZE).
  { pose proof (dk_addr _ _ _ (ex_ok _ _ _ _ _ _ _ _ Hex) fbn Hf1) as Hx. rewrite (ex_here _ _ _ _ _ _ _ _ Hex) in Hx.
    pose proof (ex_used _ _ _ _ _ _ _ _ Hex). pose proof nmeta_pos. pose proof (dk_fb _ _ _ (ex_ok _ _ _ _ _ _ _ _ Hex)). lia. }
  assert (length p = length chunk + length (drop (Z.to_nat n1) p))%nat as Hsplit.
  { rewrite <- length_app. unfold chunk. by rewrite take_drop. }
  destruct (IH s2 din1 (c ++ chunk) (drop (Z.to_nat n1) p)) as (din' & s' & Hrun' & H1 & H2 & H3 & H4 & H4' & H5 & H6); auto.
  { lia. } { rewrite length_app. lia. }
  { rewrite length_app, Nat2Z.inj_add, Hn1. fold off n1 in Ht, Ht0 |- *.
    replace (Z.of_nat (length (drop (Z.to_nat n1) p))) with (Z.of_nat (length p) - n1) by lia. cbn [m_freeblock s2]. lia. }
  assert (c ++ p = (c ++ chunk) ++ drop (Z.to_nat n1) p) as Ecp by (unfold chunk; by rewrite <- app_assoc, take_drop).
  exists din', s'. rewrite Ecp. split_and!; [| done | done | by rewrite H3 | cbn in H4; lia | done | | ].
  - mrun Hrun. mrun (rsect_run s1 x Hxr Hml1). mrun (wsect_run s1 x (put_bytes (m_img s1 x) (Z.to_nat (off - fbn * BSIZE)) chunk) Hxr Hml1). fold n1 chunk s2. rewrite length_app, Nat2Z.inj_add, Hn1 in Hrun'. exact Hrun'.
  - rewrite H5. apply Hex.
  - intros b Hb Hno. destruct (Hfr2 b Hb Hno) as [E1 Hno1]. destruct (H6 b) as [E2 Hno2]; [cbn; lia|done|].
    split; [|done]. rewrite E2. exact E1.
Qed.

(** The inode [inum] of the image. *)
Definition inode_of (img : Z -> list Z) (inum : Z) : list Z :=
  get_bytes (img (IBLOCK inum mk_sb)) (dinode_off inum) 64.

(** The file [inum] of the image holds [c]. *)
Definition file_is (s : mkst) (inum : Z) (c : list Z) : Prop :=
  let din := inode_of (m_img s) inum in
  m_len s = FSSIZE /\ din_ok (m_img s) din (m_freeblock s) /\ holds (m_img s) din c /\ get_le 4 din 8 = Z.of_nat (length c).

Lemma iblock_range inum : 0 <= inum < NINODES -> 32 <= IBLOCK inum mk_sb < nmeta /\ (dinode_off inum + 64 <= 1024)%nat.
Proof.
  intros H. unfold IBLOCK, dinode_off. change (sb_inodestart mk_sb) with 32. change IPB with 16. change DINODE_SIZE with 64.
  change nmeta with 46. change NINODES with 200 in H. rewrite u32_small by dlia. dlia.
Qed.

(** Two inodes have different places. *)
Lemma inode_slots i j : 0 <= i < NINODES -> 0 <= j < NINODES -> i <> j -> IBLOCK i mk_sb = IBLOCK j mk_sb ->
  (dinode_off i + 64 <= dinode_off j)%nat \/ (dinode_off j + 64 <= dinode_off i)%nat.
Proof.
  unfold IBLOCK, dinode_off. change (sb_inodestart mk_sb) with 32. change IPB with 16. change DINODE_SIZE with 64.
  change NINODES with 200. intros Hi Hj Hne. rewrite !u32_small by dlia. intros E. dlia.
Qed.

(** Writing the size into the inode changes no block of the file. *)
Lemma set_size_addr din v i : length din = 64%nat -> 0 <= i <= NDIRECT ->
  din_addr (put_bytes din 8 (xint v)) i = din_addr din i.
Proof. intros Hl Hi. unfold din_addr. apply get_xint_out; unfold NDIRECT in *; lia. Qed.

(** An image and an inode that agree with others on the blocks of the file. *)
Lemma din_ok_transfer img din fb img' din' c :
  din_ok img din fb -> holds img din c -> length din' = 64%nat -> (forall b, length (img' b) = Z.to_nat BSIZE) ->
  (forall i, 0 <= i <= NDIRECT -> din_addr din' i = din_addr din i) ->
  (forall b, nmeta <= b -> img' b = img b) -> Z.of_nat (length c) <= MAXFILE * BSIZE ->
  din_ok img' din' fb /\ holds img' din' c /\ forall b, owned img' din' b <-> owned img din b.
Proof.
  intros Hok Hh Hlen Hblk Haddr Himg Hmax. destruct maxfile_eq as (Emf & End & Ebs). pose proof nmeta_pos. pose proof fssize_eq as Efs.
  pose proof (dk_fb _ _ _ Hok) as Hfb.
  assert (din_addr din' NDIRECT = din_addr din NDIRECT) as Hind by (apply Haddr; lia).
  assert (forall k, 0 <= k < MAXFILE -> file_block img' din' k = file_block img din k) as Hfbk.
  { intros k Hk. unfold file_block. rewrite Hind. destruct (Z.ltb_spec k NDIRECT); [apply Haddr; lia|].
    destruct (Z.eqb_spec (din_addr din NDIRECT) 0); [done|]. rewrite Himg; [done|]. destruct (dk_ind _ _ _ Hok); [done|lia]. }
  split_and!.
  - split; auto.
    + rewrite Hind. apply Hok.
    + intros k Hk. rewrite Hfbk by done. by apply Hok.
    + intros i j Hi Hj. rewrite !Hfbk by done. by apply Hok.
    + intros k Hk. rewrite Hfbk, Hind by done. by apply Hok.
    + intros b Hb. rewrite Himg by lia. by apply Hok.
  - destruct Hh as [H1 H2]. split.
    + intros i Hi. rewrite <- H1 by done. unfold file_byte.
      assert (0 <= i / BSIZE < MAXFILE) as Hk by (rewrite Emf, Ebs in *; dlia).
      rewrite Hfbk by done. rewrite Himg; [done|].
      destruct (dk_addr _ _ _ Hok (i / BSIZE) Hk) as [E|]; [|lia]. exfalso. apply (H2 (i / BSIZE)); [done| |done].
      rewrite Ebs in *. dlia.
    + intros k Hk Hkc. rewrite Hfbk by done. by apply H2.
  - intros b. unfold owned. rewrite Hind. split; intros [H0 [E|(k & Hk & E)]]; (split; [done|]); auto; right; exists k;
      (split; [done|]); rewrite <- E; [symmetry|]; by apply Hfbk.
Qed.

Lemma owned_range img din fb b : din_ok img din fb -> owned img din b -> nmeta <= b < fb.
Proof.
  intros Hok [H0 [->|(k & Hk & <-)]]; [destruct (dk_ind _ _ _ Hok)|destruct (dk_addr _ _ _ Hok k Hk)]; done.
Qed.

(** C22: iappend() appends: from an image of FSSIZE blocks whose file [inum]
    holds [c] (its blocks distinct and in use, the free blocks zero), with a free
    block left for each block of the file that the [p] bytes reach and for the
    indirect block when there is none yet, it ends with an image whose file holds
    [c ++ p] under the same conditions, through the direct and the indirect
    blocks; no read falls behind the end of the image. It changes no other inode
    and no block in use that is not the file's own. *)
Theorem iappend_appends s inum c p :
  0 <= inum < NINODES -> file_is s inum c -> Z.of_nat (length c + length p) <= MAXFILE * BSIZE ->
  m_freeblock s + touched (Z.of_nat (length c)) (Z.of_nat (length p)) + no_indirect (inode_of (m_img s) inum) <= FSSIZE ->
  exists s', iappend inum p s = Ok tt s' /\ file_is s' inum (c ++ p) /\
    (forall j, 0 <= j < NINODES -> j <> inum -> inode_of (m_img s') j = inode_of (m_img s) j) /\
    (forall b, b < m_freeblock s -> b <> IBLOCK inum mk_sb -> ~ owned (m_img s) (inode_of (m_img s) inum) b ->
      m_img s' b = m_img s b).
Proof.
  intros Hi (Hml & Hok & Hh & Hsz) Hmax Hfb. destruct (iblock_range inum Hi) as [Hib Hoff]. destruct maxfile_eq as (Emf & End & Ebs).
  set (ib := IBLOCK inum mk_sb) in *. set (din := inode_of (m_img s) inum) in *. pose proof (dk_fb _ _ _ Hok) as Hfbr.
  destruct (iappend_loop_spec (length p) s din c p Hok Hh) as (din1 & s1 & Hrun & Hok1 & Hh1 & Hfi & Hfb1 & Hml1 & Hhd & Hfr); [lia|done|done|done|].
  assert (forall b, b < nmeta -> m_img s1 b = m_img s b) as Hmeta.
  { intros b Hb. apply Hfr; [lia|]. intros Ho%(owned_range _ _ _ _ Hok). lia. }
  set (din2 := put_bytes din1 8 (xint (Z.of_nat (length (c ++ p))))).
  assert (length din2 = 64%nat) as Hl2 by (unfold din2; rewrite length_put_bytes; rewrite ?length_xint, (dk_len _ _ _ Hok1); lia).
  set (img2 := bset (m_img s1) ib (put_bytes (m_img s1 ib) (dinode_off inum) din2)).
  assert (length (m_img s1 ib) = 1024%nat) as Hlb by (rewrite (dk_blk _ _ _ Hok1); lia).
  assert (inode_of img2 inum = din2) as Hin.
  { unfold inode_of, img2. fold ib. rewrite bset_eq. rewrite <- Hl2 at 1. apply get_put_bytes_same. lia. }
  destruct (din_ok_transfer (m_img s1) din1 (m_freeblock s1) img2 din2 (c ++ p)) as (Hok2 & Hh2 & _); auto.
  { intros b. unfold img2, bset. destruct (b =? ib); [|apply Hok1]. rewrite length_put_bytes by lia. apply Hok1. }
  { intros i Hir. apply set_size_addr; [apply Hok1|done]. }
  { intros b Hb. apply bset_ne. lia. }
  { rewrite length_app. lia. }
  assert (Hibr : 0 <= ib < FSSIZE) by lia.
  exists (mkMk img2 FSSIZE (m_freeinode s1) (m_freeblock s1)). split_and!.
  - unfold iappend, rinode, winode. fold ib. mrun (rsect_run s ib Hibr Hml). mred.
    change (get_bytes (m_img s ib) (dinode_off inum) 64) with din.
    rewrite Hsz. mrun Hrun. mrun (rsect_run s1 ib Hibr Hml1). by apply wsect_run.
  - unfold file_is. cbn [m_img m_freeblock]. rewrite Hin. split_and!; [done|done|done|].
    unfold din2. apply get_xint_same; [rewrite (dk_len _ _ _ Hok1); lia|]. rewrite length_app, Emf, Ebs in *. lia.
  - intros j Hj Hne. cbn [m_img]. destruct (iblock_range j Hj) as [Hjb Hjoff]. unfold inode_of, img2, bset. fold ib.
    destruct (Z.eqb_spec (IBLOCK j mk_sb) ib) as [E|E]; [|rewrite Hmeta by lia; done].
    rewrite E. rewrite get_put_bytes_out; [by rewrite Hmeta by lia|lia|].
    destruct (inode_slots inum j Hi Hj) as [H|H]; [done|done|right; lia|left; lia].
  - intros b Hb Hne Hno. cbn [m_img]. unfold img2. rewrite bset_ne by done. by apply Hfr.
Qed.

(** ** The image as mkfs starts it *)

Module MkfsExample.

(** Every block zero but inode 2, which mk_ialloc(T_FILE) has made. *)
Definition empty_image : mkst := mkMk (fun _ => zero_block) FSSIZE 2 nmeta.
Definition with_file : mkst :=
  match mk_ialloc T_FILE empty_image with Ok _ s => s | _ => empty_image end.

Definition file_inode : list Z := put_bytes (put_bytes (replicate 64 0) 0 [2; 0]) 6 [1; 0].

Lemma with_file_img b : m_img with_file b = bset (fun _ => zero_block) 32 (put_bytes zero_block 128 file_inode) b.
Proof. reflexivity. Qed.

Lemma with_file_inode : inode_of (m_img with_file) 2 = file_inode.
Proof. vm_compute. reflexivity. Qed.

Lemma with_file_empty : file_is with_file 2 [].
Proof.
  unfold file_is. rewrite with_file_inode.
  assert (Forall (fun k => din_addr file_inode k = 0) (seqZ 0 13)) as Ha
    by (apply (bool_decide_unpack _); vm_compute; exact I).
  rewrite Forall_forall in Ha. setoid_rewrite elem_of_seqZ in Ha.
  assert (forall k, 0 <= k < MAXFILE -> file_block (m_img with_file) file_inode k = 0) as Hb.
  { intros k Hk. unfold file_block. destruct (Z.ltb_spec k NDIRECT); [apply Ha; unfold NDIRECT in *; lia|].
    rewrite (proj2 (Z.eqb_eq _ 0)); [done|]. apply Ha. unfold NDIRECT. lia. }
  split_and!; [reflexivity| |split; [cbn; lia|intros k Hk; cbn; unfold BSIZE; lia]|vm_compute; reflexivity].
  split; [vm_compute; reflexivity| | done |left; apply Ha; unfold NDIRECT; lia|intros k Hk; left; by apply Hb| | |].
  - intros b. rewrite with_file_img. unfold bset. destruct (b =? 32); vm_compute; reflexivity.
  - intros j k Hj _ _ H. by rewrite Hb in H.
  - intros k Hk H. by rewrite Hb in H.
  - intros b Hb1. rewrite with_file_img. apply bset_ne.
    assert (46 <= b) by exact (proj1 Hb1). lia.
Qed.

Lemma iappend_appends_witness :
  exists s', iappend 2 (chars "hello") with_file = Ok tt s' /\ file_is s' 2 (chars "hello").
Proof.
  destruct (iappend_appends with_file 2 [] (chars "hello")) as (s' & Hr & Hf & _).
  - done.
  - exact with_file_empty.
  - vm_compute. discriminate.
  - vm_compute. discriminate.
  - exists s'. split; [exact Hr|exact Hf].
Defined.
End MkfsExample.
