(* ===== verification/Grind.v ===== *)
(** user/grind.c: the program that runs random system calls in parallel.

    The random number generator is shown to be the minimal standard generator
    of Park and Miller, computed without overflow, and a permutation of its
    range. [n] bounds the rounds of the endless loops. *)

From S2P Require Import Prelude Riscv StringC User Sh Utils.
Import Ulib Uprintf.
Local Open Scope prog_scope.

(** ** The generator *)

(** The returned int and the new [*ctx]. *)
Definition do_rand (ctx : Z) : Z * Z :=
  let x := ctx mod 0x7ffffffe + 1 in
  let hi := Z.quot x 127773 in
  let lo := Z.rem x 127773 in
  let x := s64 (s64 (16807 * lo) - s64 (2836 * hi)) in
  let x := if x <? 0 then s64 (x + 0x7fffffff) else x in
  let x := s64 (x - 1) in
  (s32 x, u64 x).

Definition rand (rand_next : Z) : Z * Z := do_rand rand_next.

(** ** The calls *)

Definition touch (path : string) : prog unit :=
  fd <- call (SYS_open (chars path) O_CREATE_RDWR);;
  call (SYS_close fd);;
  Ret tt.

Definition fail (msg : string) (st : Z) : prog unit := printf (line msg) [];; Exit st.

(** fork() with [child] run in the child, which then exits. *)
Definition spawn (child : prog unit) : prog Z :=
  pid <- call SYS_fork;;
  if pid =? 0 then child;; Exit 0 else
  if pid <? 0 then fail "grind: fork failed" 1;; Ret pid else
  Ret pid.

(** Choices 1 to 12: names, and the file [fd]. *)
Definition go_files (what fd : Z) (buf : list Z) : prog (Z * list Z) :=
  match what with
  | 1 => touch "grindir/../a";; Ret (fd, buf)
  | 2 => touch "grindir/../grindir/../b";; Ret (fd, buf)
  | 3 => call (SYS_unlink (chars "grindir/../a"));; Ret (fd, buf)
  | 4 =>
      r <- call (SYS_chdir (chars "grindir"));;
      (when negb (r =? 0) do fail "grind: chdir grindir failed" 1);;
      call (SYS_unlink (chars "../b"));;
      call (SYS_chdir (chars "/"));;
      Ret (fd, buf)
  | 5 =>
      call (SYS_close fd);;
      fd <- call (SYS_open (chars "/grindir/../a") O_CREATE_RDWR);;
      Ret (fd, buf)
  | 6 =>
      call (SYS_close fd);;
      fd <- call (SYS_open (chars "/./grindir/./../b") O_CREATE_RDWR);;
      Ret (fd, buf)
  | 7 => call (SYS_write fd buf);; Ret (fd, buf)
  | 8 => buf <- read_into fd (Z.of_nat (length buf)) buf;; Ret (fd, buf)
  | 9 =>
      call (SYS_mkdir (chars "grindir/../a"));;
      touch "a/../a/./a";;
      call (SYS_unlink (chars "a/a"));;
      Ret (fd, buf)
  | 10 =>
      call (SYS_mkdir (chars "/../b"));;
      touch "grindir/../b/b";;
      call (SYS_unlink (chars "b/b"));;
      Ret (fd, buf)
  | 11 =>
      call (SYS_unlink (chars "b"));;
      call (SYS_link (chars "../grindir/./../a") (chars "../b"));;
      Ret (fd, buf)
  | 12 =>
      call (SYS_unlink (chars "../grindir/../a"));;
      call (SYS_link (chars ".././b") (chars "/grindir/../a"));;
      Ret (fd, buf)
  | _ => Ret (fd, buf)
  end.

(** Choices 13 to 20: processes, memory and a pipe. *)
Definition go_procs (what break0 : Z) : prog unit :=
  match what with
  | 13 => spawn (Ret tt);; call SYS_wait;; Ret tt
  | 14 => spawn (call SYS_fork;; call SYS_fork;; Ret tt);; call SYS_wait;; Ret tt
  | 15 => call (SYS_sbrk 6011);; Ret tt
  | 16 =>
      top <- call (SYS_sbrk 0);;
      when break0 <? u64 top do
        (top <- call (SYS_sbrk 0);; call (SYS_sbrk (s32 (- (u64 top - break0))));; Ret tt)
  | 17 =>
      pid <- spawn (touch "a");;
      r <- call (SYS_chdir (chars "../grindir/.."));;
      (when negb (r =? 0) do fail "grind: chdir failed" 1);;
      call (SYS_kill pid);;
      call SYS_wait;;
      Ret tt
  | 18 =>
      spawn (pid <- call SYS_getpid;; call (SYS_kill pid);; Ret tt);;
      call SYS_wait;;
      Ret tt
  | 19 =>
      fds <- ecall SYS_pipe;;
      (when a_val fds <? 0 do fail "grind: pipe failed" 1);;
      let '(fds0, fds1) := pipe_fds (a_out fds) in
      spawn (
        call SYS_fork;;
        call SYS_fork;;
        k <- call (SYS_write fds1 (chars "x"));;
        (when negb (k =? 1) do printf (line "grind: pipe write failed") []);;
        k <- call (SYS_read fds0 1);;
        when negb (k =? 1) do printf (line "grind: pipe read failed") []);;
      call (SYS_close fds0);;
      call (SYS_close fds1);;
      call SYS_wait;;
      Ret tt
  | 20 =>
      spawn (
        call (SYS_unlink (chars "a"));;
        call (SYS_mkdir (chars "a"));;
        call (SYS_chdir (chars "a"));;
        call (SYS_unlink (chars "../a"));;
        call (SYS_open (chars "x") O_CREATE_RDWR);;
        call (SYS_unlink (chars "x"));;
        Ret tt);;
      call SYS_wait;;
      Ret tt
  | _ => Ret tt
  end.

(** Choice 21: a new file has the size that was written. *)
Definition go_stat : prog unit :=
  call (SYS_unlink (chars "c"));;
  fd1 <- call (SYS_open (chars "c") O_CREATE_RDWR);;
  (when fd1 <? 0 do fail "grind: create c failed" 1);;
  k <- call (SYS_write fd1 (chars "x"));;
  (when negb (k =? 1) do fail "grind: write c failed" 1);;
  st <- ecall (SYS_fstat fd1);;
  (when negb (a_val st =? 0) do fail "grind: fstat failed" 1);;
  (when negb (st_size (a_out st) =? 1) do
    (printf (line "grind: fstat reports wrong size %d") [VInt (s32 (st_size (a_out st)))];; Exit 1));;
  (when 200 <? st_ino (a_out st) do
    (printf (line "grind: fstat reports crazy i-number %d") [VInt (st_ino (a_out st))];; Exit 1));;
  call (SYS_close fd1);;
  call (SYS_unlink (chars "c"));;
  Ret tt.

Definition failed2 (msg : string) (st : Z) : prog unit := fprintf 2 (line msg) [];; Exit st.

(** Choice 22: [echo hi | cat], with the statuses and the output checked. An
    unset status reads as 0. *)
Definition go_pipeline : prog unit :=
  aa <- ecall SYS_pipe;;
  (when a_val aa <? 0 do failed2 "grind: pipe failed" 1);;
  bb <- ecall SYS_pipe;;
  (when a_val bb <? 0 do failed2 "grind: pipe failed" 1);;
  let '(aa0, aa1) := pipe_fds (a_out aa) in
  let '(bb0, bb1) := pipe_fds (a_out bb) in
  pid1 <- call SYS_fork;;
  (if pid1 =? 0 then
     call (SYS_close bb0);;
     call (SYS_close bb1);;
     call (SYS_close aa0);;
     call (SYS_close 1);;
     r <- call (SYS_dup aa1);;
     (when negb (r =? 1) do failed2 "grind: dup failed" 1);;
     call (SYS_close aa1);;
     call (SYS_exec (chars "grindir/../echo") [chars "echo"; chars "hi"]);;
     failed2 "grind: echo: not found" 2
   else when pid1 <? 0 do failed2 "grind: fork failed" 3);;
  pid2 <- call SYS_fork;;
  (if pid2 =? 0 then
     call (SYS_close aa1);;
     call (SYS_close bb0);;
     call (SYS_close 0);;
     r <- call (SYS_dup aa0);;
     (when negb (r =? 0) do failed2 "grind: dup failed" 4);;
     call (SYS_close aa0);;
     call (SYS_close 1);;
     r <- call (SYS_dup bb1);;
     (when negb (r =? 1) do failed2 "grind: dup failed" 5);;
     call (SYS_close bb1);;
     call (SYS_exec (chars "/cat") [chars "cat"]);;
     failed2 "grind: cat: not found" 6
   else when pid2 <? 0 do failed2 "grind: fork failed" 7);;
  call (SYS_close aa0);;
  call (SYS_close aa1);;
  call (SYS_close bb1);;
  b0 <- read_into bb0 1 [0];;
  b1 <- read_into bb0 1 [0];;
  b2 <- read_into bb0 1 [0];;
  let buf := b0 ++ b1 ++ b2 ++ [0] in
  call (SYS_close bb0);;
  st1 <- wait_status 0;;
  st2 <- wait_status 0;;
  when negb (st1 =? 0) || negb (st2 =? 0) || negb (strcmp buf (line "hi") =? 0) do
    (printf (chars "grind: exec pipeline failed %d %d " ++ [34] ++ chars "%s" ++ [34; 10]) [VInt st1; VInt st2; VStr (Some (cstr buf))];;
     Exit 1).

(** ** The program *)

Definition go_call (what fd : Z) (buf : list Z) (break0 : Z) : prog (Z * list Z) :=
  if what <=? 12 then go_files what fd buf else
  (if what <=? 20 then go_procs what break0 else
   if what =? 21 then go_stat else if what =? 22 then go_pipeline else Ret tt);;
  Ret (fd, buf).

Fixpoint go_loop (n : nat) (which_child break0 iters rand_next fd : Z) (buf : list Z) : prog unit :=
  match n with
  | O => Fuel
  | S n =>
      let iters := u64 (iters + 1) in
      (when iters mod 500 =? 0 do
        (call (SYS_write 1 (chars (if c_true which_child then "B" else "A")));; Ret tt));;
      let '(r, rand_next) := rand rand_next in
      let what := Z.rem r 23 in
      '(fd, buf) <- go_call what fd buf break0;;
      go_loop n which_child break0 iters rand_next fd buf
  end.

Definition go (n : nat) (which_child rand_next : Z) : prog unit :=
  break0 <- call (SYS_sbrk 0);;
  call (SYS_mkdir (chars "grindir"));;
  r <- call (SYS_chdir (chars "grindir"));;
  (when negb (r =? 0) do fail "grind: chdir grindir failed" 1);;
  call (SYS_chdir (chars "/"));;
  go_loop n which_child (u64 break0) 0 rand_next (-1) (replicate 999 0).

Definition iter (n : nat) (rand_next : Z) : prog unit :=
  call (SYS_unlink (chars "a"));;
  call (SYS_unlink (chars "b"));;
  pid1 <- call SYS_fork;;
  (when pid1 <? 0 do fail "grind: fork failed" 1);;
  (when pid1 =? 0 do (go n 0 (Z.lxor rand_next 31);; Exit 0));;
  pid2 <- call SYS_fork;;
  (when pid2 <? 0 do fail "grind: fork failed" 1);;
  (when pid2 =? 0 do (go n 1 (Z.lxor rand_next 7177);; Exit 0));;
  st1 <- wait_status (-1);;
  (when negb (st1 =? 0) do (call (SYS_kill pid1);; call (SYS_kill pid2);; Ret tt));;
  wait_status (-1);;
  Exit 0.

Fixpoint grind_loop (n : nat) (rand_next : Z) : prog unit :=
  match n with
  | O => Fuel
  | S m =>
      pid <- call SYS_fork;;
      (when pid =? 0 do (iter n rand_next;; Exit 0));;
      (when 0 <? pid do (call SYS_wait;; Ret tt));;
      call (SYS_sleep 20);;
      grind_loop m (u64 (rand_next + 1))
  end.

Definition grind_main (n : nat) : prog unit := grind_loop n 1.

(** ** The generator is Park and Miller's *)

Definition park_miller (x : Z) : Z := (7 ^ 5 * x) mod (2 ^ 31 - 1).

Lemma s64_small z : - 2 ^ 63 <= z < 2 ^ 63 -> s64 z = z.
Proof. intros H. unfold s64. rewrite Z.mod_small by lia. lia. Qed.

(** Schrage's decomposition: the product without a 32-bit overflow. *)
Lemma schrage x : 0 < x < 2 ^ 31 - 1 -> let d := 16807 * (x mod 127773) - 2836 * (x / 127773) in
  - (2 ^ 31 - 1) < d < 2 ^ 31 - 1 /\ (if d <? 0 then d + 0x7fffffff else d) = park_miller x.
Proof.
  intros Hx d. assert (Hd : - (2 ^ 31 - 1) < d < 2 ^ 31 - 1) by (unfold d; Z.div_mod_to_equations; lia).
  split; [done|]. unfold park_miller. change (7 ^ 5) with 16807. change (2 ^ 31 - 1) with 2147483647 in *.
  assert (E : 16807 * x = d + 2147483647 * (x / 127773)) by (unfold d; Z.div_mod_to_equations; lia).
  destruct (Z.ltb_spec d 0).
  - apply Z.mod_unique_pos with (x / 127773 - 1); lia.
  - apply Z.mod_unique_pos with (x / 127773); lia.
Qed.

(** The multiplier has an inverse modulo [2 ^ 31 - 1], so no state is lost. *)
Lemma park_miller_inverse x : 0 <= x < 2 ^ 31 - 1 -> (1407677000 * park_miller x) mod (2 ^ 31 - 1) = x.
Proof.
  intros Hx. unfold park_miller. rewrite Z.mul_mod_idemp_r by done. rewrite Z.mul_assoc, Z.mul_mod by done.
  change ((1407677000 * 7 ^ 5) mod (2 ^ 31 - 1)) with 1. rewrite Z.mul_1_l, Z.mod_mod by done. by apply Z.mod_small.
Qed.

Lemma park_miller_nonzero x : 0 < x < 2 ^ 31 - 1 -> 0 < park_miller x < 2 ^ 31 - 1.
Proof.
  intros Hx. assert (Hr : 0 <= park_miller x < 2 ^ 31 - 1) by (apply Z.mod_pos_bound; lia).
  destruct (decide (park_miller x = 0)) as [E|]; [|lia].
  pose proof (park_miller_inverse x ltac:(lia)) as H. rewrite E in H. change ((1407677000 * 0) mod (2 ^ 31 - 1)) with 0 in H. lia.
Qed.

(** C37: do_rand() computes [7 ^ 5 * x mod (2 ^ 31 - 1)] for the state [x] moved
    to [1, 2 ^ 31 - 2], as its comment says, the product and
    the difference it computes needing no more than 31 bits and a sign; the result is in [0, 0x7ffffffd], is also the new
    context, and determines the state it came from, so on its range the
    generator is a permutation. *)
Theorem do_rand_park_miller ctx : let x := ctx mod 0x7ffffffe + 1 in let r := fst (do_rand ctx) in
  0 <= 16807 * (x mod 127773) < 2 ^ 31 /\ - 2 ^ 31 < 16807 * (x mod 127773) - 2836 * (x / 127773) < 2 ^ 31 /\
  do_rand ctx = (r, r) /\ r = park_miller x - 1 /\ 0 <= r <= 0x7ffffffd /\ (1407677000 * (r + 1)) mod (2 ^ 31 - 1) = x.
Proof.
  intros x r. assert (Hx : 0 < x < 2 ^ 31 - 1) by (unfold x; pose proof (Z.mod_pos_bound ctx 0x7ffffffe); lia).
  pose proof (park_miller_nonzero x Hx) as Hp. pose proof (schrage x Hx) as H. cbv zeta in H. destruct H as [Hd E].
  assert (Ed : do_rand ctx = (park_miller x - 1, park_miller x - 1)).
  { unfold do_rand. fold x. rewrite Z.quot_div_nonneg, Z.rem_mod_nonneg by lia.
    assert (0 <= x mod 127773 < 127773 /\ 0 <= x / 127773 <= 16807) by (Z.div_mod_to_equations; lia).
    rewrite (s64_small (16807 * _)), (s64_small (2836 * _)) by lia. set (d := 16807 * _ - 2836 * _) in *. rewrite (s64_small d) by lia.
    revert E. destruct (d <? 0); intros E; rewrite ?(s64_small (_ + 0x7fffffff)) by lia; rewrite E, s64_small, s32_small, u64_small by lia; done. }
  unfold r. rewrite Ed. cbn [fst]. replace (park_miller x - 1 + 1) with (park_miller x) by lia. rewrite park_miller_inverse by lia.
  split; [Z.div_mod_to_equations; lia|]. split; [lia|]. split; [done|]. split; [done|]. split; [lia|done].
Qed.
