(* ===== verification/UsertestsFs.v ===== *)
(** user/usertests.c, the tests of the file system.

    A test is a program of [User] that takes its own name. It returns when it
    found nothing wrong, and otherwise prints a message and exits with a status
    other than 0. Tests run in a child of the process that never wrote the
    global [buf], so a test starts with zeros there. [n] bounds the rounds of
    the loops that end when the kernel's answer says so; an uninitialised
    status reads as 0. *)

From S2P Require Import Prelude Riscv StringC Fs User Utils.
Import Ulib Uprintf.
Local Open Scope prog_scope.

(** ** What the tests share *)

Definition BUFSZ : Z := (MAXOPBLOCKS + 2) * BSIZE.
Definition buf0 : list Z := replicate (Z.to_nat BUFSZ) 0.

Definition str (s : list Z) : varg := VStr (Some s).

(** [if(b){ printf(fmt, ...); exit(1); }]. *)
Definition die_if (b : bool) (fmt : list Z) (ap : list varg) : prog unit :=
  when b do (printf fmt ap;; Exit 1).

(** The message of most checks: the name of the test and a text. *)
Definition fail_if (s : list Z) (b : bool) (msg : string) : prog unit := die_if b (line ("%s: " ++ msg)) [str s].

(** fork() with its failure reported and [child] run in the child. *)
Definition forked (fmt : list Z) (ap : list varg) (child : prog unit) : prog Z :=
  pid <- call SYS_fork;;
  die_if (pid <? 0) fmt ap;;
  (when pid =? 0 do (child;; Exit 0));;
  Ret pid.

Definition fork_or_fail (s : list Z) (child : prog unit) : prog Z := forked (line "%s: fork failed") [str s] child.

Definition open_ (path : string) (om : Z) : prog Z := call (SYS_open (chars path) om).
Definition unlink_ (path : string) : prog Z := call (SYS_unlink (chars path)).
Definition mkdir_ (path : string) : prog Z := call (SYS_mkdir (chars path)).
Definition chdir_ (path : string) : prog Z := call (SYS_chdir (chars path)).
Definition link_ (old new : string) : prog Z := call (SYS_link (chars old) (chars new)).
Definition write_ (fd : Z) (bs : string) : prog Z := call (SYS_write fd (chars bs)).
Definition close_ (fd : Z) : prog unit := call (SYS_close fd);; Ret tt.
Definition O_CREATE_WRONLY : Z := Z.lor O_CREATE O_WRONLY.

(** The count that read() returned and the buffer after it. *)
Definition read_ (fd n : Z) (buf : list Z) : prog (Z * list Z) :=
  r <- ecall (SYS_read fd n);;
  Ret (a_val r, a_out r ++ drop (length (a_out r)) buf).

Definition at_ (buf : list Z) (i : nat) : Z := buf !!! i.

(** ** Truncation *)

Definition truncate1 (s : list Z) : prog unit :=
  let buf := replicate 32 0 in
  unlink_ "truncfile";;
  fd1 <- open_ "truncfile" (Z.lor O_CREATE_WRONLY O_TRUNC);;
  write_ fd1 "abcd";;
  close_ fd1;;
  fd2 <- open_ "truncfile" O_RDONLY;;
  '(n, buf) <- read_ fd2 32 buf;;
  die_if (negb (n =? 4)) (line "%s: read %d bytes, wanted 4") [str s; VInt n];;
  fd1 <- open_ "truncfile" (Z.lor O_WRONLY O_TRUNC);;
  fd3 <- open_ "truncfile" O_RDONLY;;
  '(n, buf) <- read_ fd3 32 buf;;
  (when negb (n =? 0) do
    (printf (line "aaa fd3=%d") [VInt fd3];; printf (line "%s: read %d bytes, wanted 0") [str s; VInt n];; Exit 1));;
  '(n, buf) <- read_ fd2 32 buf;;
  (when negb (n =? 0) do
    (printf (line "bbb fd2=%d") [VInt fd2];; printf (line "%s: read %d bytes, wanted 0") [str s; VInt n];; Exit 1));;
  write_ fd1 "abcdef";;
  '(n, buf) <- read_ fd3 32 buf;;
  die_if (negb (n =? 6)) (line "%s: read %d bytes, wanted 6") [str s; VInt n];;
  '(n, buf) <- read_ fd2 32 buf;;
  die_if (negb (n =? 2)) (line "%s: read %d bytes, wanted 2") [str s; VInt n];;
  unlink_ "truncfile";;
  close_ fd1;;
  close_ fd2;;
  close_ fd3.

Definition truncate2 (s : list Z) : prog unit :=
  unlink_ "truncfile";;
  fd1 <- open_ "truncfile" (Z.lor (Z.lor O_CREATE O_TRUNC) O_WRONLY);;
  write_ fd1 "abcd";;
  fd2 <- open_ "truncfile" (Z.lor O_TRUNC O_WRONLY);;
  n <- write_ fd1 "x";;
  die_if (negb (n =? -1)) (line "%s: write returned %d, expected -1") [str s; VInt n];;
  unlink_ "truncfile";;
  close_ fd1;;
  close_ fd2.

Definition truncate3 (s : list Z) : prog unit :=
  fd <- open_ "truncfile" (Z.lor (Z.lor O_CREATE O_TRUNC) O_WRONLY);;
  close_ fd;;
  fork_or_fail s (
    ploop (seqZ 0 100) (fun _ =>
      fd <- open_ "truncfile" O_WRONLY;;
      fail_if s (fd <? 0) "open failed";;
      n <- write_ fd "1234567890";;
      die_if (negb (n =? 10)) (line "%s: write got %d, expected 10") [str s; VInt n];;
      close_ fd;;
      fd <- open_ "truncfile" O_RDONLY;;
      call (SYS_read fd 32);;
      close_ fd));;
  ploop (seqZ 0 150) (fun _ =>
    fd <- open_ "truncfile" (Z.lor O_CREATE_WRONLY O_TRUNC);;
    fail_if s (fd <? 0) "open failed";;
    n <- write_ fd "xxx";;
    die_if (negb (n =? 3)) (line "%s: write got %d, expected 3") [str s; VInt n];;
    close_ fd);;
  xstatus <- wait_status 0;;
  unlink_ "truncfile";;
  Exit xstatus.

(** ** Releasing inodes inside transactions *)

Definition iputtest (s : list Z) : prog unit :=
  r <- mkdir_ "iputdir";;
  fail_if s (r <? 0) "mkdir failed";;
  r <- chdir_ "iputdir";;
  fail_if s (r <? 0) "chdir iputdir failed";;
  r <- unlink_ "../iputdir";;
  fail_if s (r <? 0) "unlink ../iputdir failed";;
  r <- chdir_ "/";;
  fail_if s (r <? 0) "chdir / failed".

Definition exitiputtest (s : list Z) : prog unit :=
  fork_or_fail s (
    r <- mkdir_ "iputdir";;
    fail_if s (r <? 0) "mkdir failed";;
    r <- chdir_ "iputdir";;
    fail_if s (r <? 0) "child chdir failed";;
    r <- unlink_ "../iputdir";;
    fail_if s (r <? 0) "unlink ../iputdir failed");;
  xstatus <- wait_status 0;;
  Exit xstatus.

Definition openiputtest (s : list Z) : prog unit :=
  r <- mkdir_ "oidir";;
  fail_if s (r <? 0) "mkdir oidir failed";;
  fork_or_fail s (
    fd <- open_ "oidir" O_RDWR;;
    fail_if s (0 <=? fd) "open directory for write succeeded");;
  call (SYS_sleep 1);;
  r <- unlink_ "oidir";;
  fail_if s (negb (r =? 0)) "unlink failed";;
  xstatus <- wait_status 0;;
  Exit xstatus.

(** ** Simple tests *)

Definition opentest (s : list Z) : prog unit :=
  fd <- open_ "echo" 0;;
  fail_if s (fd <? 0) "open echo failed!";;
  close_ fd;;
  fd <- open_ "doesnotexist" 0;;
  fail_if s (0 <=? fd) "open doesnotexist succeeded!".

Definition writetest (s : list Z) : prog unit :=
  fd <- open_ "small" O_CREATE_RDWR;;
  fail_if s (fd <? 0) "error: creat small failed!";;
  ploop (seqZ 0 100) (fun i =>
    k <- write_ fd "aaaaaaaaaa";;
    die_if (negb (k =? 10)) (line "%s: error: write aa %d new file failed") [str s; VInt i];;
    k <- write_ fd "bbbbbbbbbb";;
    die_if (negb (k =? 10)) (line "%s: error: write bb %d new file failed") [str s; VInt i]);;
  close_ fd;;
  fd <- open_ "small" O_RDONLY;;
  fail_if s (fd <? 0) "error: open small failed!";;
  '(i, _) <- read_ fd 2000 buf0;;
  fail_if s (negb (i =? 2000)) "read failed";;
  close_ fd;;
  r <- unlink_ "small";;
  fail_if s (r <? 0) "unlink small failed".

(** The first int of a buffer. *)
Definition int0 (buf : list Z) : Z := s32 (get_le 4 buf 0).

(** The loop that reads "big" back, [k] blocks read so far. *)
Fixpoint writebig_read (n : nat) (s : list Z) (fd k : Z) (buf : list Z) : prog unit :=
  match n with
  | O => Fuel
  | S n =>
      '(i, buf) <- read_ fd BSIZE buf;;
      if i =? 0 then die_if (negb (k =? MAXFILE)) (chars "%s: read only %d blocks from big") [str s; VInt k] else
      die_if (negb (i =? BSIZE)) (line "%s: read failed %d") [str s; VInt i];;
      die_if (negb (int0 buf =? k)) (line "%s: read content of block %d is %d") [str s; VInt k; VInt (int0 buf)];;
      writebig_read n s fd (k + 1) buf
  end.

Definition writebig (n : nat) (s : list Z) : prog unit :=
  fd <- open_ "big" O_CREATE_RDWR;;
  fail_if s (fd <? 0) "error: creat big failed!";;
  ploop (seqZ 0 MAXFILE) (fun i =>
    k <- call (SYS_write fd (take (Z.to_nat BSIZE) (put_le 4 buf0 0 i)));;
    die_if (negb (k =? BSIZE)) (line "%s: error: write big file failed i=%d") [str s; VInt i]);;
  close_ fd;;
  fd <- open_ "big" O_RDONLY;;
  fail_if s (fd <? 0) "error: open big failed!";;
  writebig_read n s fd 0 (put_le 4 buf0 0 (MAXFILE - 1));;
  close_ fd;;
  r <- unlink_ "big";;
  fail_if s (r <? 0) "unlink big failed".

Definition createtest (s : list Z) : prog unit :=
  ploop (seqZ 0 52) (fun i => fd <- call (SYS_open [97; u8 (48 + i)] O_CREATE_RDWR);; close_ fd);;
  ploop (seqZ 0 52) (fun i => call (SYS_unlink [97; u8 (48 + i)]);; Ret tt).

Definition dirtest (s : list Z) : prog unit :=
  r <- mkdir_ "dir0";;
  fail_if s (r <? 0) "mkdir failed";;
  r <- chdir_ "dir0";;
  fail_if s (r <? 0) "chdir dir0 failed";;
  r <- chdir_ "..";;
  fail_if s (r <? 0) "chdir .. failed";;
  r <- unlink_ "dir0";;
  fail_if s (r <? 0) "unlink dir0 failed".

(** ** Files shared by processes *)

(** The rest of the loop that counts the two letters. *)
Fixpoint sharedfd_count (n : nat) (fd nc np : Z) (buf : list Z) : prog (Z * Z) :=
  match n with
  | O => Fuel
  | S n =>
      '(k, buf) <- read_ fd 10 buf;;
      if 0 <? k then
        let count c := Z.of_nat (length (filter (fun b => b =? c) (take 10 buf))) in
        sharedfd_count n fd (nc + count 99) (np + count 112) buf
      else Ret (nc, np)
  end.

Definition sharedfd (n : nat) (s : list Z) : prog unit :=
  unlink_ "sharedfd";;
  fd <- open_ "sharedfd" O_CREATE_RDWR;;
  die_if (fd <? 0) (chars "%s: cannot open sharedfd for writing") [str s];;
  pid <- call SYS_fork;;
  let buf := replicate 10 (if pid =? 0 then 99 else 112) in
  ploop (seqZ 0 1000) (fun _ =>
    k <- call (SYS_write fd buf);;
    fail_if s (negb (k =? 10)) "write sharedfd failed");;
  (if pid =? 0 then Exit 0 else
   xstatus <- wait_status 0;;
   when negb (xstatus =? 0) do Exit xstatus);;
  close_ fd;;
  fd <- open_ "sharedfd" 0;;
  fail_if s (fd <? 0) "cannot open sharedfd for reading";;
  '(nc, np) <- sharedfd_count n fd 0 0 buf;;
  close_ fd;;
  unlink_ "sharedfd";;
  if (nc =? 10000) && (np =? 10000) then Exit 0 else
  printf (line "%s: nc/np test fails") [str s];;
  Exit 1.

(** The loop that checks one of the four files. *)
Fixpoint fourfiles_read (n : nat) (s : list Z) (fd c total : Z) (buf : list Z) : prog Z :=
  match n with
  | O => Fuel
  | S n =>
      '(k, buf) <- read_ fd BUFSZ buf;;
      if 0 <? k then
        ploop (take (Z.to_nat k) buf) (fun b => fail_if s (negb (b =? c)) "wrong char");;
        fourfiles_read n s fd c (total + k) buf
      else Ret total
  end.

Definition fourfiles (n : nat) (s : list Z) : prog unit :=
  ploop (seqZ 0 4) (fun pi =>
    let fname := [102; 48 + pi] in
    call (SYS_unlink fname);;
    fork_or_fail s (
      fd <- call (SYS_open fname O_CREATE_RDWR);;
      fail_if s (fd <? 0) "create failed";;
      ploop (seqZ 0 12) (fun _ =>
        k <- call (SYS_write fd (replicate 500 (48 + pi)));;
        die_if (negb (k =? 500)) (line "write failed %d") [VInt k]));;
    Ret tt);;
  ploop (seqZ 0 4) (fun _ => xstatus <- wait_status 0;; when negb (xstatus =? 0) do Exit xstatus);;
  ploop (seqZ 0 4) (fun i =>
    let fname := [102; 48 + i] in
    fd <- call (SYS_open fname 0);;
    total <- fourfiles_read n s fd (48 + i) 0 buf0;;
    close_ fd;;
    die_if (negb (total =? 6000)) (line "wrong length %d") [VInt total];;
    call (SYS_unlink fname);;
    Ret tt).

(** The name of file [i] of child [pi]. *)
Definition cd_name (pi i : Z) : list Z := [112 + pi; 48 + i].

Definition createdelete (s : list Z) : prog unit :=
  ploop (seqZ 0 4) (fun pi =>
    fork_or_fail s (
      ploop (seqZ 0 20) (fun i =>
        fd <- call (SYS_open (cd_name pi i) O_CREATE_RDWR);;
        fail_if s (fd <? 0) "create failed";;
        close_ fd;;
        when (0 <? i) && (i mod 2 =? 0) do
          (r <- call (SYS_unlink (cd_name pi (i / 2)));;
           fail_if s (r <? 0) "unlink failed")));;
    Ret tt);;
  ploop (seqZ 0 4) (fun _ => xstatus <- wait_status 0;; when negb (xstatus =? 0) do Exit 1);;
  ploop (seqZ 0 20) (fun i => ploop (seqZ 0 4) (fun pi =>
    fd <- call (SYS_open (cd_name pi i) 0);;
    (if ((i =? 0) || (10 <=? i)) && (fd <? 0) then
       printf (line "%s: oops createdelete %s didn't exist") [str s; str (cd_name pi i)];; Exit 1
     else die_if ((1 <=? i) && (i <? 10) && (0 <=? fd)) (line "%s: oops createdelete %s did exist") [str s; str (cd_name pi i)]);;
    when 0 <=? fd do close_ fd));;
  ploop (seqZ 0 20) (fun i => ploop (seqZ 0 4) (fun pi => call (SYS_unlink (cd_name pi i));; Ret tt)).

(** ** Names *)

Definition unlinkread (s : list Z) : prog unit :=
  fd <- open_ "unlinkread" O_CREATE_RDWR;;
  fail_if s (fd <? 0) "create unlinkread failed";;
  write_ fd "hello";;
  close_ fd;;
  fd <- open_ "unlinkread" O_RDWR;;
  fail_if s (fd <? 0) "open unlinkread failed";;
  r <- unlink_ "unlinkread";;
  fail_if s (negb (r =? 0)) "unlink unlinkread failed";;
  fd1 <- open_ "unlinkread" O_CREATE_RDWR;;
  write_ fd1 "yyy";;
  close_ fd1;;
  '(k, buf) <- read_ fd BUFSZ buf0;;
  die_if (negb (k =? 5)) (chars "%s: unlinkread read failed") [str s];;
  fail_if s (negb (at_ buf 0 =? 104)) "unlinkread wrong data";;
  k <- call (SYS_write fd (take 10 buf));;
  fail_if s (negb (k =? 10)) "unlinkread write failed";;
  close_ fd;;
  unlink_ "unlinkread";;
  Ret tt.

Definition linktest (s : list Z) : prog unit :=
  unlink_ "lf1";;
  unlink_ "lf2";;
  fd <- open_ "lf1" O_CREATE_RDWR;;
  fail_if s (fd <? 0) "create lf1 failed";;
  k <- write_ fd "hello";;
  fail_if s (negb (k =? 5)) "write lf1 failed";;
  close_ fd;;
  r <- link_ "lf1" "lf2";;
  fail_if s (r <? 0) "link lf1 lf2 failed";;
  unlink_ "lf1";;
  r <- open_ "lf1" 0;;
  fail_if s (0 <=? r) "unlinked lf1 but it is still there!";;
  fd <- open_ "lf2" 0;;
  fail_if s (fd <? 0) "open lf2 failed";;
  '(k, _) <- read_ fd BUFSZ buf0;;
  fail_if s (negb (k =? 5)) "read lf2 failed";;
  close_ fd;;
  r <- link_ "lf2" "lf2";;
  fail_if s (0 <=? r) "link lf2 lf2 succeeded! oops";;
  unlink_ "lf2";;
  r <- link_ "lf2" "lf1";;
  fail_if s (0 <=? r) "link non-existent succeeded! oops";;
  r <- link_ "." "lf1";;
  fail_if s (0 <=? r) "link . lf1 succeeded! oops".

(** The scan of the directory: the entries seen and their number. *)
Fixpoint concreate_scan (n : nat) (s : list Z) (fd : Z) (fa : list bool) (k : Z) (de : list Z) : prog Z :=
  match n with
  | O => Fuel
  | S n =>
      '(r, de) <- read_ fd 16 de;;
      if negb (0 <? r) then Ret k else
      if get_le 2 de 0 =? 0 then concreate_scan n s fd fa k de else
      let name := drop 2 de in
      if (at_ name 0 =? 67) && (at_ name 2 =? 0) then
        let i := at_ name 1 - 48 in
        die_if ((i <? 0) || (40 <=? i)) (line "%s: concreate weird file %s") [str s; str name];;
        die_if (fa !!! Z.to_nat i) (line "%s: concreate duplicate file %s") [str s; str name];;
        concreate_scan n s fd (<[Z.to_nat i := true]> fa) (k + 1) de
      else concreate_scan n s fd fa k de
  end.

Definition concreate (n : nat) (s : list Z) : prog unit :=
  let file i := [67; 48 + i] in
  ploop (seqZ 0 40) (fun i =>
    call (SYS_unlink (file i));;
    pid <- call SYS_fork;;
    (if negb (pid =? 0) && (i mod 3 =? 1) then call (SYS_link (chars "C0") (file i));; Ret tt
     else if (pid =? 0) && (i mod 5 =? 1) then call (SYS_link (chars "C0") (file i));; Ret tt
     else
       fd <- call (SYS_open (file i) O_CREATE_RDWR);;
       die_if (fd <? 0) (line "concreate create %s failed") [str (file i)];;
       close_ fd);;
    if pid =? 0 then Exit 0 else
    xstatus <- wait_status 0;;
    when negb (xstatus =? 0) do Exit 1);;
  fd <- open_ "." 0;;
  k <- concreate_scan n s fd (replicate 40 false) 0 (replicate 16 0);;
  close_ fd;;
  fail_if s (negb (k =? 40)) "concreate not enough files in directory listing";;
  ploop (seqZ 0 40) (fun i =>
    pid <- call SYS_fork;;
    fail_if s (pid <? 0) "fork failed";;
    (if ((i mod 3 =? 0) && (pid =? 0)) || ((i mod 3 =? 1) && negb (pid =? 0)) then
       ploop (replicate 6 tt) (fun _ => fd <- call (SYS_open (file i) 0);; close_ fd)
     else ploop (replicate 6 tt) (fun _ => call (SYS_unlink (file i));; Ret tt));;
    if pid =? 0 then Exit 0 else call SYS_wait;; Ret tt).

(** The rounds of linkunlink() from the random number [x]. *)
Fixpoint linkunlink_rounds (n : nat) (x : Z) : prog unit :=
  match n with
  | O => Ret tt
  | S n =>
      let x := u32 (x * 1103515245 + 12345) in
      (if x mod 3 =? 0 then fd <- open_ "x" O_CREATE_RDWR;; close_ fd
       else if x mod 3 =? 1 then link_ "cat" "x";; Ret tt
       else unlink_ "x";; Ret tt);;
      linkunlink_rounds n x
  end.

Definition linkunlink (s : list Z) : prog unit :=
  unlink_ "x";;
  pid <- call SYS_fork;;
  fail_if s (pid <? 0) "fork failed";;
  linkunlink_rounds 100 (if pid =? 0 then 97 else 1);;
  if pid =? 0 then Exit 0 else call SYS_wait;; Ret tt.

(** ** Directories *)

(** The first half of subdir(): what has to work. *)
Definition subdir_works (s : list Z) : prog unit :=
  unlink_ "ff";;
  r <- mkdir_ "dd";;
  fail_if s (negb (r =? 0)) "mkdir dd failed";;
  fd <- open_ "dd/ff" O_CREATE_RDWR;;
  fail_if s (fd <? 0) "create dd/ff failed";;
  write_ fd "ff";;
  close_ fd;;
  r <- unlink_ "dd";;
  fail_if s (0 <=? r) "unlink dd (non-empty dir) succeeded!";;
  r <- mkdir_ "/dd/dd";;
  fail_if s (negb (r =? 0)) "subdir mkdir dd/dd failed";;
  fd <- open_ "dd/dd/ff" O_CREATE_RDWR;;
  fail_if s (fd <? 0) "create dd/dd/ff failed";;
  write_ fd "FF";;
  close_ fd;;
  fd <- open_ "dd/dd/../ff" 0;;
  fail_if s (fd <? 0) "open dd/dd/../ff failed";;
  '(cc, buf) <- read_ fd BUFSZ buf0;;
  fail_if s (negb (cc =? 2) || negb (at_ buf 0 =? 102)) "dd/dd/../ff wrong content";;
  close_ fd;;
  r <- link_ "dd/dd/ff" "dd/dd/ffff";;
  fail_if s (negb (r =? 0)) "link dd/dd/ff dd/dd/ffff failed";;
  r <- unlink_ "dd/dd/ff";;
  fail_if s (negb (r =? 0)) "unlink dd/dd/ff failed";;
  r <- open_ "dd/dd/ff" O_RDONLY;;
  fail_if s (0 <=? r) "open (unlinked) dd/dd/ff succeeded";;
  r <- chdir_ "dd";;
  fail_if s (negb (r =? 0)) "chdir dd failed";;
  r <- chdir_ "dd/../../dd";;
  fail_if s (negb (r =? 0)) "chdir dd/../../dd failed";;
  r <- chdir_ "dd/../../../dd";;
  fail_if s (negb (r =? 0)) "chdir dd/../../../dd failed";;
  r <- chdir_ "./..";;
  fail_if s (negb (r =? 0)) "chdir ./.. failed";;
  fd <- open_ "dd/dd/ffff" 0;;
  fail_if s (fd <? 0) "open dd/dd/ffff failed";;
  '(k, _) <- read_ fd BUFSZ buf;;
  fail_if s (negb (k =? 2)) "read dd/dd/ffff wrong len";;
  close_ fd.

(** The second half: what has to fail, and the removal of the directories. *)
Definition subdir_fails (s : list Z) : prog unit :=
  r <- open_ "dd/dd/ff" O_RDONLY;;
  fail_if s (0 <=? r) "open (unlinked) dd/dd/ff succeeded!";;
  r <- open_ "dd/ff/ff" O_CREATE_RDWR;;
  fail_if s (0 <=? r) "create dd/ff/ff succeeded!";;
  r <- open_ "dd/xx/ff" O_CREATE_RDWR;;
  fail_if s (0 <=? r) "create dd/xx/ff succeeded!";;
  r <- open_ "dd" O_CREATE;;
  fail_if s (0 <=? r) "create dd succeeded!";;
  r <- open_ "dd" O_RDWR;;
  fail_if s (0 <=? r) "open dd rdwr succeeded!";;
  r <- open_ "dd" O_WRONLY;;
  fail_if s (0 <=? r) "open dd wronly succeeded!";;
  r <- link_ "dd/ff/ff" "dd/dd/xx";;
  fail_if s (r =? 0) "link dd/ff/ff dd/dd/xx succeeded!";;
  r <- link_ "dd/xx/ff" "dd/dd/xx";;
  fail_if s (r =? 0) "link dd/xx/ff dd/dd/xx succeeded!";;
  r <- link_ "dd/ff" "dd/dd/ffff";;
  fail_if s (r =? 0) "link dd/ff dd/dd/ffff succeeded!";;
  r <- mkdir_ "dd/ff/ff";;
  fail_if s (r =? 0) "mkdir dd/ff/ff succeeded!";;
  r <- mkdir_ "dd/xx/ff";;
  fail_if s (r =? 0) "mkdir dd/xx/ff succeeded!";;
  r <- mkdir_ "dd/dd/ffff";;
  fail_if s (r =? 0) "mkdir dd/dd/ffff succeeded!";;
  r <- unlink_ "dd/xx/ff";;
  fail_if s (r =? 0) "unlink dd/xx/ff succeeded!";;
  r <- unlink_ "dd/ff/ff";;
  fail_if s (r =? 0) "unlink dd/ff/ff succeeded!";;
  r <- chdir_ "dd/ff";;
  fail_if s (r =? 0) "chdir dd/ff succeeded!";;
  r <- chdir_ "dd/xx";;
  fail_if s (r =? 0) "chdir dd/xx succeeded!";;
  r <- unlink_ "dd/dd/ffff";;
  fail_if s (negb (r =? 0)) "unlink dd/dd/ff failed";;
  r <- unlink_ "dd/ff";;
  fail_if s (negb (r =? 0)) "unlink dd/ff failed";;
  r <- unlink_ "dd";;
  fail_if s (r =? 0) "unlink non-empty dd succeeded!";;
  r <- unlink_ "dd/dd";;
  fail_if s (r <? 0) "unlink dd/dd failed";;
  r <- unlink_ "dd";;
  fail_if s (r <? 0) "unlink dd failed".

Definition subdir (s : list Z) : prog unit := subdir_works s;; subdir_fails s.

Definition fourteen (s : list Z) : prog unit :=
  r <- mkdir_ "12345678901234";;
  fail_if s (negb (r =? 0)) "mkdir 12345678901234 failed";;
  r <- mkdir_ "12345678901234/123456789012345";;
  fail_if s (negb (r =? 0)) "mkdir 12345678901234/123456789012345 failed";;
  fd <- open_ "123456789012345/123456789012345/123456789012345" O_CREATE;;
  fail_if s (fd <? 0) "create 123456789012345/123456789012345/123456789012345 failed";;
  close_ fd;;
  fd <- open_ "12345678901234/12345678901234/12345678901234" 0;;
  fail_if s (fd <? 0) "open 12345678901234/12345678901234/12345678901234 failed";;
  close_ fd;;
  r <- mkdir_ "12345678901234/12345678901234";;
  fail_if s (r =? 0) "mkdir 12345678901234/12345678901234 succeeded!";;
  r <- mkdir_ "123456789012345/12345678901234";;
  fail_if s (r =? 0) "mkdir 12345678901234/123456789012345 succeeded!";;
  unlink_ "123456789012345/12345678901234";;
  unlink_ "12345678901234/12345678901234";;
  unlink_ "12345678901234/12345678901234/12345678901234";;
  unlink_ "123456789012345/123456789012345/123456789012345";;
  unlink_ "12345678901234/123456789012345";;
  unlink_ "12345678901234";;
  Ret tt.

Definition rmdot (s : list Z) : prog unit :=
  r <- mkdir_ "dots";;
  fail_if s (negb (r =? 0)) "mkdir dots failed";;
  r <- chdir_ "dots";;
  fail_if s (negb (r =? 0)) "chdir dots failed";;
  r <- unlink_ ".";;
  fail_if s (r =? 0) "rm . worked!";;
  r <- unlink_ "..";;
  fail_if s (r =? 0) "rm .. worked!";;
  r <- chdir_ "/";;
  fail_if s (negb (r =? 0)) "chdir / failed";;
  r <- unlink_ "dots/.";;
  fail_if s (r =? 0) "unlink dots/. worked!";;
  r <- unlink_ "dots/..";;
  fail_if s (r =? 0) "unlink dots/.. worked!";;
  r <- unlink_ "dots";;
  fail_if s (negb (r =? 0)) "unlink dots failed!".

Definition dirfile (s : list Z) : prog unit :=
  fd <- open_ "dirfile" O_CREATE;;
  fail_if s (fd <? 0) "create dirfile failed";;
  close_ fd;;
  r <- chdir_ "dirfile";;
  fail_if s (r =? 0) "chdir dirfile succeeded!";;
  fd <- open_ "dirfile/xx" 0;;
  fail_if s (0 <=? fd) "create dirfile/xx succeeded!";;
  fd <- open_ "dirfile/xx" O_CREATE;;
  fail_if s (0 <=? fd) "create dirfile/xx succeeded!";;
  r <- mkdir_ "dirfile/xx";;
  fail_if s (r =? 0) "mkdir dirfile/xx succeeded!";;
  r <- unlink_ "dirfile/xx";;
  fail_if s (r =? 0) "unlink dirfile/xx succeeded!";;
  r <- link_ "README" "dirfile/xx";;
  fail_if s (r =? 0) "link to dirfile/xx succeeded!";;
  r <- unlink_ "dirfile";;
  fail_if s (negb (r =? 0)) "unlink dirfile failed!";;
  fd <- open_ "." O_RDWR;;
  fail_if s (0 <=? fd) "open . for writing succeeded!";;
  fd <- open_ "." 0;;
  r <- write_ fd "x";;
  fail_if s (0 <? r) "write . succeeded!";;
  close_ fd.

Definition iref (s : list Z) : prog unit :=
  ploop (replicate (NINODE + 1) tt) (fun _ =>
    r <- mkdir_ "irefd";;
    fail_if s (negb (r =? 0)) "mkdir irefd failed";;
    r <- chdir_ "irefd";;
    fail_if s (negb (r =? 0)) "chdir irefd failed";;
    mkdir_ "";;
    link_ "README" "";;
    fd <- open_ "" O_CREATE;;
    (when 0 <=? fd do close_ fd);;
    fd <- open_ "xx" O_CREATE;;
    (when 0 <=? fd do close_ fd);;
    unlink_ "xx";;
    Ret tt);;
  ploop (replicate (NINODE + 1) tt) (fun _ => chdir_ "..";; unlink_ "irefd";; Ret tt);;
  chdir_ "/";;
  Ret tt.

(** ** Large files *)

(** The sizes 499, 970, ... below BUFSZ. *)
Definition bigwrite_sizes : list Z := (fun k => 499 + 471 * k) <$> seqZ 0 ((BUFSZ - 499 + 470) / 471).

Definition bigwrite (s : list Z) : prog unit :=
  unlink_ "bigwrite";;
  ploop bigwrite_sizes (fun sz =>
    fd <- open_ "bigwrite" O_CREATE_RDWR;;
    fail_if s (fd <? 0) "cannot create bigwrite";;
    ploop (seqZ 0 2) (fun _ =>
      cc <- call (SYS_write fd (take (Z.to_nat sz) buf0));;
      die_if (negb (cc =? sz)) (line "%s: write(%d) ret %d") [str s; VInt sz; VInt cc]);;
    close_ fd;;
    unlink_ "bigwrite";;
    Ret tt).

(** The loop that reads the file back: the bytes read. *)
Fixpoint bigfile_read (n : nat) (s : list Z) (fd i total : Z) (buf : list Z) : prog Z :=
  match n with
  | O => Fuel
  | S n =>
      '(cc, buf) <- read_ fd 300 buf;;
      fail_if s (cc <? 0) "read bigfile failed";;
      if cc =? 0 then Ret total else
      fail_if s (negb (cc =? 300)) "short read bigfile";;
      fail_if s (negb (at_ buf 0 =? i / 2) || negb (at_ buf 299 =? i / 2)) "read bigfile wrong data";;
      bigfile_read n s fd (i + 1) (total + cc) buf
  end.

Definition bigfile (n : nat) (s : list Z) : prog unit :=
  unlink_ "bigfile.dat";;
  fd <- open_ "bigfile.dat" O_CREATE_RDWR;;
  die_if (fd <? 0) (chars "%s: cannot create bigfile") [str s];;
  ploop (seqZ 0 20) (fun i =>
    k <- call (SYS_write fd (replicate 600 i));;
    fail_if s (negb (k =? 600)) "write bigfile failed");;
  close_ fd;;
  fd <- open_ "bigfile.dat" 0;;
  fail_if s (fd <? 0) "cannot open bigfile";;
  total <- bigfile_read n s fd 0 0 (replicate 600 19 ++ drop 600 buf0);;
  close_ fd;;
  fail_if s (negb (total =? 12000)) "read bigfile wrong total";;
  unlink_ "bigfile.dat";;
  Ret tt.
