(* ===== verification/UsertestsProc.v ===== *)
(** user/usertests.c, the tests of pointers in system calls, of processes and of
    memory.

    [n] bounds the rounds of the loops that end when the kernel's answer says
    so; [for(;;);] is [Fuel]. Addresses are 64-bit numbers. *)

From S2P Require Import Prelude Riscv StringC Sh User Umalloc Utils UsertestsFs.
Import Ulib Uprintf.
Local Open Scope prog_scope.

(** The numbers of the calls made with arbitrary pointers (syscall.h). *)
Definition nr_pipe : Z := 4.
Definition nr_read : Z := 5.
Definition nr_exec : Z := 7.
Definition nr_open : Z := 15.
Definition nr_write : Z := 16.
Definition nr_unlink : Z := 18.
Definition nr_link : Z := 19.

Definition raw (num : Z) (args : list rarg) : prog Z := call (SYS_raw num args).
Definition write_at (fd addr n : Z) : prog Z := raw nr_write [RInt fd; RInt addr; RInt n].
Definition read_at (fd addr n : Z) : prog Z := raw nr_read [RInt fd; RInt addr; RInt n].

(** [(uint64) sbrk(k)]; the failure value is [2 ^ 64 - 1]. *)
Definition sbrk (k : Z) : prog Z := p <- call (SYS_sbrk (s32 k));; Ret (u64 p).
Definition SBRK_ERR : Z := 2 ^ 64 - 1.

(** The addresses [lo], [lo] + [step], ... below [hi]. *)
Definition steps (lo hi step : Z) : list Z := (fun k => lo + step * k) <$> seqZ 0 ((hi - lo + step - 1) / step).

(** ** Wild pointers *)

Definition bad_addrs : list Z := [0x80000000; 0x3fffffe000; 0x3ffffff000; 0x4000000000; 0xffffffffffffffff].

(** pipe() with its failure reported. *)
Definition pipe_or_die (b : Z -> bool) (fmt : list Z) (ap : list varg) : prog (Z * Z) :=
  r <- ecall SYS_pipe;;
  die_if (b (a_val r)) fmt ap;;
  Ret (pipe_fds (a_out r)).

Definition copyin_test (s : list Z) : prog unit :=
  ploop bad_addrs (fun addr =>
    fd <- open_ "copyin1" O_CREATE_WRONLY;;
    die_if (fd <? 0) (line "open(copyin1) failed") [];;
    n <- write_at fd addr 8192;;
    die_if (0 <=? n) (line "write(fd, %p, 8192) returned %d, not -1") [VInt addr; VInt n];;
    close_ fd;;
    unlink_ "copyin1";;
    n <- write_at 1 addr 8192;;
    die_if (0 <? n) (line "write(1, %p, 8192) returned %d, not -1 or 0") [VInt addr; VInt n];;
    '(fds0, fds1) <- pipe_or_die (fun r => r <? 0) (line "pipe() failed") [];;
    n <- write_at fds1 addr 8192;;
    die_if (0 <? n) (line "write(pipe, %p, 8192) returned %d, not -1 or 0") [VInt addr; VInt n];;
    close_ fds0;;
    close_ fds1).

Definition copyout_test (s : list Z) : prog unit :=
  ploop (0 :: bad_addrs) (fun addr =>
    fd <- open_ "README" 0;;
    die_if (fd <? 0) (line "open(README) failed") [];;
    n <- read_at fd addr 8192;;
    die_if (0 <? n) (line "read(fd, %p, 8192) returned %d, not -1 or 0") [VInt addr; VInt n];;
    close_ fd;;
    '(fds0, fds1) <- pipe_or_die (fun r => r <? 0) (line "pipe() failed") [];;
    n <- write_ fds1 "x";;
    die_if (negb (n =? 1)) (line "pipe write failed") [];;
    n <- read_at fds0 addr 8192;;
    die_if (0 <? n) (line "read(pipe, %p, 8192) returned %d, not -1 or 0") [VInt addr; VInt n];;
    close_ fds0;;
    close_ fds1).

Definition copyinstr1 (s : list Z) : prog unit :=
  ploop bad_addrs (fun addr =>
    fd <- raw nr_open [RInt addr; RInt O_CREATE_WRONLY];;
    die_if (0 <=? fd) (line "open(%p) returned %d, not -1") [VInt addr; VInt fd]).

Definition copyinstr2 (s : list Z) : prog unit :=
  let b := replicate (Z.to_nat MAXPATH) 120 in
  ret <- call (SYS_unlink b);;
  die_if (negb (ret =? -1)) (line "unlink(%s) returned %d, not -1") [str b; VInt ret];;
  fd <- call (SYS_open b O_CREATE_WRONLY);;
  die_if (negb (fd =? -1)) (line "open(%s) returned %d, not -1") [str b; VInt fd];;
  ret <- call (SYS_link b b);;
  die_if (negb (ret =? -1)) (line "link(%s, %s) returned %d, not -1") [str b; str b; VInt ret];;
  ret <- call (SYS_exec b [chars "xx"]);;
  die_if (negb (ret =? -1)) (line "exec(%s) returned %d, not -1") [str b; VInt fd];;
  pid <- call SYS_fork;;
  die_if (pid <? 0) (line "fork failed") [];;
  (when pid =? 0 do
    (let big := replicate (Z.to_nat PGSIZE) 120 in
     ret <- call (SYS_exec (chars "echo") [big; big; big]);;
     die_if (negb (ret =? -1)) (line "exec(echo, BIG) returned %d, not -1") [VInt fd];;
     Exit 747));;
  st <- wait_status 0;;
  die_if (negb (st =? 747)) (line "exec(echo, BIG) succeeded, should have failed") [].

(** The string at [a] as printf() reads it. *)
Fixpoint string_at (n : nat) (a : Z) : prog (list Z) :=
  match n with
  | O => Fuel
  | S n => c <- load a;; if c =? 0 then Ret [] else s <- string_at n (a + 1);; Ret (c :: s)
  end.

(** A failure whose message shows the string at [b], [k] times. *)
Definition die_at (n : nat) (c : bool) (b : Z) (k : nat) (fmt : list Z) (v : Z) : prog unit :=
  when c do (t <- string_at n b;; printf fmt (replicate k (str t) ++ [VInt v]);; Exit 1).

Definition copyinstr3 (n : nat) (s : list Z) : prog unit :=
  sbrk 8192;;
  top <- sbrk 0;;
  (when negb (top mod PGSIZE =? 0) do (sbrk (PGSIZE - top mod PGSIZE);; Ret tt));;
  top <- sbrk 0;;
  die_if (negb (top mod PGSIZE =? 0)) (line "oops") [];;
  let b := u64 (top - 1) in
  store b 120;;
  ret <- raw nr_unlink [RInt b];;
  die_at n (negb (ret =? -1)) b 1 (line "unlink(%s) returned %d, not -1") ret;;
  fd <- raw nr_open [RInt b; RInt O_CREATE_WRONLY];;
  die_at n (negb (fd =? -1)) b 1 (line "open(%s) returned %d, not -1") fd;;
  ret <- raw nr_link [RInt b; RInt b];;
  die_at n (negb (ret =? -1)) b 2 (line "link(%s, %s) returned %d, not -1") ret;;
  ret <- raw nr_exec [RInt b; RArr [RStr (chars "xx"); RInt 0]];;
  die_at n (negb (ret =? -1)) b 1 (line "exec(%s) returned %d, not -1") fd.

Definition rwsbrk (s : list Z) : prog unit :=
  a <- sbrk 8192;;
  die_if (a =? SBRK_ERR) (line "sbrk(rwsbrk) failed") [];;
  r <- sbrk (-8192);;
  die_if (r =? SBRK_ERR) (line "sbrk(rwsbrk) shrink failed") [];;
  fd <- open_ "rwsbrk" O_CREATE_WRONLY;;
  die_if (fd <? 0) (line "open(rwsbrk) failed") [];;
  n <- write_at fd (u64 (a + 4096)) 1024;;
  die_if (0 <=? n) (line "write(fd, %p, 1024) returned %d, not -1") [VInt (u64 (a + 4096)); VInt n];;
  close_ fd;;
  unlink_ "rwsbrk";;
  fd <- open_ "README" O_RDONLY;;
  die_if (fd <? 0) (line "open(rwsbrk) failed") [];;
  n <- read_at fd (u64 (a + 4096)) 10;;
  die_if (0 <=? n) (line "read(fd, %p, 10) returned %d, not -1") [VInt (u64 (a + 4096)); VInt n];;
  close_ fd;;
  Exit 0.

(** link() with every page of low memory as the new name. *)
Definition validatetest (s : list Z) : prog unit :=
  ploop (steps 0 (1100 * 1024 + 1) PGSIZE) (fun p =>
    r <- raw nr_link [RStr (chars "nosuchfile"); RInt p];;
    fail_if s (negb (r =? -1)) "link should not succeed").

Definition argptest (s : list Z) : prog unit :=
  fd <- open_ "init" O_RDONLY;;
  fail_if s (fd <? 0) "open failed";;
  top <- sbrk 0;;
  read_at fd (u64 (top - 1)) (-1);;
  close_ fd.

Definition big_addr : Z := 0xeaeb0b5b00002f5e.

Definition pgbug (s : list Z) : prog unit :=
  raw nr_exec [RInt big_addr; RArr [RInt 0]];;
  raw nr_pipe [RInt big_addr];;
  Exit 0.

Definition badarg (s : list Z) : prog unit :=
  ploop (seqZ 0 50000) (fun _ => raw nr_exec [RStr (chars "echo"); RArr [RInt 0xffffffff; RInt 0]];; Ret tt);;
  Exit 0.

(** ** Processes *)

Definition wait_any : prog unit := call SYS_wait;; Ret tt.

Definition exectest (s : list Z) : prog unit :=
  unlink_ "echo-ok";;
  pid <- call SYS_fork;;
  fail_if s (pid <? 0) "fork failed";;
  (when pid =? 0 do
    (call (SYS_close 1);;
     fd <- open_ "echo-ok" O_CREATE_WRONLY;;
     fail_if s (fd <? 0) "create failed";;
     fail_if s (negb (fd =? 1)) "wrong fd";;
     r <- call (SYS_exec (chars "echo") [chars "echo"; chars "OK"]);;
     fail_if s (r <? 0) "exec echo failed"));;
  r <- ecall SYS_wait;;
  (when negb (a_val r =? pid) do printf (line "%s: wait failed!") [str s]);;
  let xstatus := s32 (get_le 4 (a_out r) 0) in
  (when negb (xstatus =? 0) do Exit xstatus);;
  fd <- open_ "echo-ok" O_RDONLY;;
  fail_if s (fd <? 0) "open failed";;
  '(k, buf) <- read_ fd 2 (replicate 3 0);;
  fail_if s (negb (k =? 2)) "read failed";;
  unlink_ "echo-ok";;
  if (at_ buf 0 =? 79) && (at_ buf 1 =? 75) then Exit 0 else
  printf (line "%s: wrong output") [str s];;
  Exit 1.

(** The bytes seq, seq + 1, ... that pipe1() sends. *)
Definition seq_bytes (seq k : Z) : list Z := (fun i => u8 (seq + i)) <$> seqZ 0 k.

(** The reader's loop: [None] after a wrong byte, else the total. *)
Fixpoint pipe1_read (n : nat) (fd cc total seq : Z) (buf : list Z) : prog (option Z) :=
  match n with
  | O => Fuel
  | S n =>
      '(k, buf) <- read_ fd cc buf;;
      if 0 <? k then
        if negb (bool_decide (take (Z.to_nat k) buf = seq_bytes seq k)) then Ret None else
        let cc := cc * 2 in
        let cc := if BUFSZ <? cc then BUFSZ else cc in
        pipe1_read n fd cc (total + k) (seq + k) buf
      else Ret (Some total)
  end.

Definition pipe1 (n : nat) (s : list Z) : prog unit :=
  '(fds0, fds1) <- pipe_or_die (fun r => negb (r =? 0)) (line "%s: pipe() failed") [str s];;
  pid <- call SYS_fork;;
  if pid =? 0 then
    close_ fds0;;
    ploop (seqZ 0 5) (fun k =>
      r <- call (SYS_write fds1 (seq_bytes (1033 * k) 1033));;
      fail_if s (negb (r =? 1033)) "pipe1 oops 1");;
    Exit 0
  else if 0 <? pid then
    close_ fds1;;
    r <- pipe1_read n fds0 1 0 0 buf0;;
    match r with
    | None => printf (line "%s: pipe1 oops 2") [str s]
    | Some total =>
        die_if (negb (total =? 5 * 1033)) (line "%s: pipe1 oops 3 total %d") [str s; VInt total];;
        close_ fds0;;
        xstatus <- wait_status 0;;
        Exit xstatus
    end
  else die_if true (line "%s: fork() failed") [str s].

(** [while(1) getpid();]. *)
Fixpoint getpid_forever (n : nat) : prog unit :=
  match n with
  | O => Fuel
  | S n => call SYS_getpid;; getpid_forever n
  end.

Definition killstatus (n : nat) (s : list Z) : prog unit :=
  ploop (seqZ 0 100) (fun _ =>
    pid1 <- fork_or_fail s (getpid_forever n);;
    call (SYS_sleep 1);;
    call (SYS_kill pid1);;
    xst <- wait_status 0;;
    fail_if s (negb (xst =? -1)) "status should be -1");;
  Exit 0.

Definition preempt (s : list Z) : prog unit :=
  pid1 <- forked (chars "%s: fork failed") [str s] Fuel;;
  pid2 <- fork_or_fail s Fuel;;
  p <- ecall SYS_pipe;;
  let '(pfds0, pfds1) := pipe_fds (a_out p) in
  pid3 <- fork_or_fail s (
    close_ pfds0;;
    k <- write_ pfds1 "x";;
    (when negb (k =? 1) do printf (chars "%s: preempt write error") [str s]);;
    close_ pfds1;;
    Fuel);;
  close_ pfds1;;
  '(k, _) <- read_ pfds0 BUFSZ buf0;;
  if negb (k =? 1) then printf (chars "%s: preempt read error") [str s] else
  close_ pfds0;;
  printf (chars "kill... ") [];;
  call (SYS_kill pid1);;
  call (SYS_kill pid2);;
  call (SYS_kill pid3);;
  printf (chars "wait... ") [];;
  wait_any;; wait_any;; wait_any.

Definition exitwait (s : list Z) : prog unit :=
  ploop (seqZ 0 100) (fun i =>
    pid <- call SYS_fork;;
    fail_if s (pid <? 0) "fork failed";;
    if negb (pid =? 0) then
      r <- ecall SYS_wait;;
      fail_if s (negb (a_val r =? pid)) "wait wrong pid";;
      fail_if s (negb (i =? s32 (get_le 4 (a_out r) 0))) "wait wrong exit status"
    else Exit i).

Definition reparent_test (s : list Z) : prog unit :=
  master_pid <- call SYS_getpid;;
  ploop (seqZ 0 200) (fun _ =>
    pid <- call SYS_fork;;
    fail_if s (pid <? 0) "fork failed";;
    if negb (pid =? 0) then
      r <- call SYS_wait;;
      fail_if s (negb (r =? pid)) "wait wrong pid"
    else
      pid2 <- call SYS_fork;;
      (when pid2 <? 0 do (call (SYS_kill master_pid);; Exit 1));;
      Exit 0);;
  Exit 0.

Definition twochildren (s : list Z) : prog unit :=
  ploop (seqZ 0 1000) (fun _ =>
    fork_or_fail s (Ret tt);;
    fork_or_fail s (Ret tt);;
    wait_any;;
    wait_any).

Definition forkfork (s : list Z) : prog unit :=
  ploop (seqZ 0 2) (fun _ =>
    forked (chars "%s: fork failed") [str s] (
      ploop (seqZ 0 200) (fun _ =>
        pid1 <- call SYS_fork;;
        (when pid1 <? 0 do Exit 1);;
        (when pid1 =? 0 do Exit 0);;
        wait_any));;
    Ret tt);;
  ploop (seqZ 0 2) (fun _ =>
    xstatus <- wait_status 0;;
    die_if (negb (xstatus =? 0)) (chars "%s: fork in child failed") [str s]).

Definition touch_stop : prog unit := fd <- open_ "stopforking" O_CREATE_RDWR;; close_ fd.

(** The child of forkforkfork(), and all the children it forks. *)
Fixpoint fork_until_stopped (n : nat) : prog unit :=
  match n with
  | O => Fuel
  | S n =>
      fd <- open_ "stopforking" 0;;
      (when 0 <=? fd do Exit 0);;
      r <- call SYS_fork;;
      (when r <? 0 do touch_stop);;
      fork_until_stopped n
  end.

Definition forkforkfork (n : nat) (s : list Z) : prog unit :=
  unlink_ "stopforking";;
  forked (chars "%s: fork failed") [str s] (fork_until_stopped n);;
  call (SYS_sleep 20);;
  touch_stop;;
  wait_any;;
  call (SYS_sleep 10);;
  Ret tt.

Definition reparent2 (s : list Z) : prog unit :=
  ploop (seqZ 0 800) (fun _ =>
    forked (line "fork failed") [] (call SYS_fork;; call SYS_fork;; Ret tt);;
    wait_any);;
  Exit 0.

(** The loop that forks until it fails: the number of children. *)
Definition forktest_u (s : list Z) : prog unit :=
  k <- fork_all 1000 0;;
  fail_if s (k =? 0) "no fork at all!";;
  fail_if s (k =? 1000) "fork claimed to work 1000 times!";;
  ploop (replicate (Z.to_nat k) tt) (fun _ =>
    r <- call SYS_wait;;
    fail_if s (r <? 0) "wait stopped early");;
  r <- call SYS_wait;;
  fail_if s (negb (r =? -1)) "wait got too many".

Definition bigargtest (s : list Z) : prog unit :=
  unlink_ "bigarg-ok";;
  pid <- call SYS_fork;;
  (if pid =? 0 then
     let big := replicate 399 32 in
     call (SYS_exec (chars "echo") (replicate (MAXARG - 1) big));;
     fd <- open_ "bigarg-ok" O_CREATE;;
     close_ fd;;
     Exit 0
   else fail_if s (pid <? 0) "bigargtest: fork failed");;
  xstatus <- wait_status 0;;
  (when negb (xstatus =? 0) do Exit xstatus);;
  fd <- open_ "bigarg-ok" 0;;
  fail_if s (fd <? 0) "bigarg test failed!";;
  close_ fd.

(** ** Memory *)

(** The blocks that malloc(10001) gives until it fails, the last one first. The
    test links them through their first words; the list stands for the chain. *)
Fixpoint mem_alloc (n : nat) (base : Z) (h : heap) (chain : list Z) : prog (heap * list Z) :=
  match n with
  | O => Fuel
  | S m =>
      '(h, m2) <- malloc base n h 10001;;
      if m2 =? 0 then Ret (h, chain) else mem_alloc m base h (m2 :: chain)
  end.

Fixpoint mem_free (n : nat) (h : heap) (chain : list Z) : prog heap :=
  match chain with
  | [] => Ret h
  | m1 :: chain => h <- free n h m1;; mem_free n h chain
  end.

(** [base] is the address of umalloc.c's static header. *)
Definition mem_test (base : Z) (n : nat) (s : list Z) : prog unit :=
  pid <- call SYS_fork;;
  if pid =? 0 then
    '(h, chain) <- mem_alloc n base (mkHeap (fun _ => 0) (fun _ => 0) 0) [];;
    h <- mem_free n h chain;;
    '(h, m1) <- malloc base n h (1024 * 20);;
    fail_if s (m1 =? 0) "couldn't allocate mem?!!";;
    free n h m1;;
    Exit 0
  else
    xstatus <- wait_status 0;;
    (when xstatus =? -1 do Exit 0);;
    Exit xstatus.

Definition TOOMUCH : Z := 1024 * 1024 * 1024.
Definition BIG : Z := 100 * 1024 * 1024.

(** [i] bytes are left to ask for; [a] is where the next has to be. *)
Fixpoint sbrk_bytes (k : nat) (s : list Z) (i a : Z) : prog Z :=
  match k with
  | O => Ret a
  | S k =>
      b <- sbrk 1;;
      die_if (negb (b =? a)) (line "%s: sbrk test failed %d %p %p") [str s; VInt i; VInt a; VInt b];;
      store b 1;;
      sbrk_bytes k s (i + 1) (u64 (b + 1))
  end.

Definition sbrkbasic (s : list Z) : prog unit :=
  pid <- call SYS_fork;;
  die_if (pid <? 0) (line "fork failed in sbrkbasic") [];;
  (when pid =? 0 do
    (a <- sbrk TOOMUCH;;
     (when a =? SBRK_ERR do Exit 0);;
     ploop (steps a (a + TOOMUCH) 4096) (fun b => store b 99);;
     Exit 1));;
  xstatus <- wait_status 0;;
  fail_if s (xstatus =? 1) "too much memory allocated!";;
  a <- sbrk 0;;
  a <- sbrk_bytes 5000 s 0 a;;
  pid <- call SYS_fork;;
  fail_if s (pid <? 0) "sbrk test fork failed";;
  sbrk 1;;
  c <- sbrk 1;;
  fail_if s (negb (c =? u64 (a + 1))) "sbrk test failed post-fork";;
  (when pid =? 0 do Exit 0);;
  xstatus <- wait_status 0;;
  Exit xstatus.

Definition sbrkmuch (s : list Z) : prog unit :=
  oldbrk <- sbrk 0;;
  a <- sbrk 0;;
  p <- sbrk (BIG - a);;
  fail_if s (negb (p =? a)) "sbrk test failed to grow big address space; enough phys mem?";;
  eee <- sbrk 0;;
  ploop (steps a eee 4096) (fun pp => store pp 1);;
  let lastaddr := BIG - 1 in
  store lastaddr 99;;
  a <- sbrk 0;;
  c <- sbrk (- PGSIZE);;
  fail_if s (c =? SBRK_ERR) "sbrk could not deallocate";;
  c <- sbrk 0;;
  die_if (negb (c =? u64 (a - PGSIZE))) (line "%s: sbrk deallocation produced wrong address, a %p c %p") [str s; VInt a; VInt c];;
  a <- sbrk 0;;
  c <- sbrk PGSIZE;;
  bad <- (if negb (c =? a) then Ret true else top <- sbrk 0;; Ret (negb (top =? u64 (a + PGSIZE))));;
  die_if bad (line "%s: sbrk re-allocation failed, a %p c %p") [str s; VInt a; VInt c];;
  b <- load lastaddr;;
  fail_if s (b =? 99) "sbrk de-allocation didn't really deallocate";;
  a <- sbrk 0;;
  top <- sbrk 0;;
  c <- sbrk (- (top - oldbrk));;
  die_if (negb (c =? a)) (line "%s: sbrk downsize failed, a %p c %p") [str s; VInt a; VInt c].

(** A child that has to be killed. *)
Definition must_die (s : list Z) (child : prog unit) : prog unit :=
  pid <- call SYS_fork;;
  fail_if s (pid <? 0) "fork failed";;
  (when pid =? 0 do (child;; Exit 1));;
  xstatus <- wait_status 0;;
  when negb (xstatus =? -1) do Exit 1.

Definition kernmem (s : list Z) : prog unit :=
  ploop (steps KERNBASE (KERNBASE + 2000000) 50000) (fun a =>
    must_die s (b <- load a;; printf (line "%s: oops could read %p = %x") [str s; VInt a; VInt b])).

Definition MAXVAplus (s : list Z) : prog unit :=
  ploop ((fun k => Z.shiftl MAXVA k) <$> seqZ 0 26) (fun a =>
    must_die s (store a 99;; printf (line "%s: oops wrote %p") [str s; VInt a])).

(** [for(;;) sleep(1000);]. *)
Fixpoint sleep_forever (n : nat) : prog unit :=
  match n with
  | O => Fuel
  | S n => call (SYS_sleep 1000);; sleep_forever n
  end.

(** The loop that starts [k] processes: their ids in order. *)
Fixpoint sbrkfail_forks (k n : nat) (fds0 fds1 : Z) : prog (list Z) :=
  match k with
  | O => Ret []
  | S k =>
      pid <- call SYS_fork;;
      (when pid =? 0 do
        (top <- sbrk 0;; sbrk (BIG - top);; write_ fds1 "x";; sleep_forever n));;
      (when negb (pid =? -1) do (call (SYS_read fds0 1);; Ret tt));;
      pids <- sbrkfail_forks k n fds0 fds1;;
      Ret (pid :: pids)
  end.

(** The sum of the bytes at [l]. *)
Fixpoint sum_loads (l : list Z) (acc : Z) : prog Z :=
  match l with
  | [] => Ret acc
  | a :: l => b <- load a;; sum_loads l (s32 (acc + b))
  end.

Definition sbrkfail (n : nat) (s : list Z) : prog unit :=
  '(fds0, fds1) <- pipe_or_die (fun r => negb (r =? 0)) (line "%s: pipe() failed") [str s];;
  pids <- sbrkfail_forks 10 n fds0 fds1;;
  c <- sbrk PGSIZE;;
  ploop pids (fun pid => when negb (pid =? -1) do (call (SYS_kill pid);; wait_any));;
  fail_if s (c =? SBRK_ERR) "failed sbrk leaked memory";;
  pid <- call SYS_fork;;
  fail_if s (pid <? 0) "fork failed";;
  (when pid =? 0 do
    (a <- sbrk 0;;
     sbrk (10 * BIG);;
     k <- sum_loads (steps a (a + 10 * BIG) PGSIZE) 0;;
     printf (line "%s: allocate a lot of memory succeeded %d") [str s; VInt k];;
     Exit 1));;
  xstatus <- wait_status 0;;
  when negb (xstatus =? -1) && negb (xstatus =? 2) do Exit 1.

Definition sbrkarg (s : list Z) : prog unit :=
  a <- sbrk PGSIZE;;
  fd <- open_ "sbrk" O_CREATE_WRONLY;;
  unlink_ "sbrk";;
  fail_if s (fd <? 0) "open sbrk failed";;
  n <- write_at fd a PGSIZE;;
  fail_if s (n <? 0) "write sbrk failed";;
  close_ fd;;
  a <- sbrk PGSIZE;;
  r <- raw nr_pipe [RInt a];;
  fail_if s (negb (r =? 0)) "pipe() failed".

(** [uninit] is the address of the uninitialised array. *)
Definition bsstest (uninit : Z) (s : list Z) : prog unit :=
  ploop (seqZ 0 10000) (fun i => b <- load (uninit + i);; fail_if s (negb (b =? 0)) "bss test failed").

(** [sp] is the stack pointer in the child. *)
Definition stacktest (sp : Z) (s : list Z) : prog unit :=
  pid <- call SYS_fork;;
  (if pid =? 0 then
     b <- load (u64 (sp - USERSTACK * PGSIZE));;
     printf (line "%s: stacktest: read below stack %d") [str s; VInt b];;
     Exit 1
   else fail_if s (pid <? 0) "fork failed");;
  xstatus <- wait_status 0;;
  if xstatus =? -1 then Exit 0 else Exit xstatus.

(** An int is stored at each address; the first byte that is refused kills. *)
Definition nowrite (s : list Z) : prog unit :=
  ploop (0 :: bad_addrs) (fun addr =>
    pid <- call SYS_fork;;
    (if pid =? 0 then
       store addr 10;; store (u64 (addr + 1)) 0;; store (u64 (addr + 2)) 0;; store (u64 (addr + 3)) 0;;
       printf (line "%s: write to %p did not fail!") [str s; VInt addr];;
       Exit 0
     else fail_if s (pid <? 0) "fork failed");;
    xstatus <- wait_status 0;;
    when xstatus =? 0 do Exit 1);;
  Exit 0.

Definition sbrkbugs (s : list Z) : prog unit :=
  forked (line "fork failed") [] (sz <- sbrk 0;; sbrk (- s32 sz);; Ret tt);;
  wait_any;;
  forked (line "fork failed") [] (sz <- sbrk 0;; sbrk (- (s32 sz - 3500));; Ret tt);;
  wait_any;;
  forked (line "fork failed") [] (top <- sbrk 0;; sbrk (10 * 4096 + 2048 - top);; sbrk (-10);; Ret tt);;
  wait_any;;
  Exit 0.

Definition sbrklast (s : list Z) : prog unit :=
  top <- sbrk 0;;
  (when negb (top mod 4096 =? 0) do (sbrk (4096 - top mod 4096);; Ret tt));;
  sbrk 4096;;
  sbrk 10;;
  sbrk (-20);;
  top <- sbrk 0;;
  let p := u64 (top - 64) in
  store p 120;;
  store (u64 (p + 1)) 0;;
  fd <- raw nr_open [RInt p; RInt O_CREATE_RDWR];;
  write_at fd p 1;;
  close_ fd;;
  fd <- raw nr_open [RInt p; RInt O_RDWR];;
  store p 0;;
  read_at fd p 1;;
  b <- load p;;
  when negb (b =? 120) do Exit 1.

Definition sbrk8000 (s : list Z) : prog unit :=
  sbrk 0x80000004;;
  top <- sbrk 0;;
  b <- load (u64 (top - 1));;
  store (u64 (top - 1)) (u8 (b + 1)).
