(* ===== verification/Usertests.v ===== *)
(** user/usertests.c, the slow tests and the driver.

    The driver runs each test in a child and reports by the child's exit
    status. It is shown to run the selected tests in order, each in a child of
    its own, and to report as their exit statuses say. *)

From S2P Require Import Prelude Riscv StringC Fs Sh User Umalloc Utils UsertestsFs UsertestsProc.
Import Ulib Uprintf.
Local Open Scope prog_scope.

(** ** Slow tests *)

(** The name of link [i]. *)
Definition bd_name (i : Z) : list Z := [120; u8 (48 + i / 64); u8 (48 + i mod 64)].

Definition bigdir (s : list Z) : prog unit :=
  unlink_ "bd";;
  fd <- open_ "bd" O_CREATE;;
  fail_if s (fd <? 0) "bigdir create failed";;
  close_ fd;;
  ploop (seqZ 0 500) (fun i =>
    r <- call (SYS_link (chars "bd") (bd_name i));;
    die_if (negb (r =? 0)) (line "%s: bigdir i=%d link(bd, %s) failed") [str s; VInt i; str (bd_name i)]);;
  unlink_ "bd";;
  ploop (seqZ 0 500) (fun i =>
    r <- call (SYS_unlink (bd_name i));;
    die_if (negb (r =? 0)) (chars "%s: bigdir unlink failed") [str s]).

Definition manywrites (s : list Z) : prog unit :=
  ploop (seqZ 0 4) (fun ci =>
    forked (line "fork failed") [] (
      let name := [98; 97 + ci] in
      call (SYS_unlink name);;
      ploop (seqZ 0 30) (fun _ =>
        ploop (seqZ 0 (ci + 1)) (fun _ =>
          fd <- call (SYS_open name O_CREATE_RDWR);;
          die_if (fd <? 0) (line "%s: cannot create %s") [str s; str name];;
          cc <- call (SYS_write fd buf0);;
          die_if (negb (cc =? BUFSZ)) (line "%s: write(%d) ret %d") [str s; VInt BUFSZ; VInt cc];;
          close_ fd);;
        call (SYS_unlink name);;
        Ret tt);;
      call (SYS_unlink name);;
      Ret tt);;
    Ret tt);;
  ploop (seqZ 0 4) (fun _ => st <- wait_status 0;; when negb (st =? 0) do Exit st);;
  Exit 0.

Definition badwrite (s : list Z) : prog unit :=
  unlink_ "junk";;
  ploop (seqZ 0 600) (fun _ =>
    fd <- open_ "junk" O_CREATE_WRONLY;;
    die_if (fd <? 0) (line "open junk failed") [];;
    write_at fd 0xffffffffff 1;;
    close_ fd;;
    unlink_ "junk";;
    Ret tt);;
  fd <- open_ "junk" O_CREATE_WRONLY;;
  die_if (fd <? 0) (line "open junk failed") [];;
  k <- write_ fd "x";;
  die_if (negb (k =? 1)) (line "write failed") [];;
  close_ fd;;
  unlink_ "junk";;
  Exit 0.

(** Allocate all of memory, touching every page. *)
Fixpoint eat_memory (n : nat) : prog unit :=
  match n with
  | O => Fuel
  | S n =>
      a <- sbrk 4096;;
      if a =? SBRK_ERR then Ret tt else
      store (u64 (a + 4096 - 1)) 1;;
      eat_memory n
  end.

Definition execout (n : nat) (s : list Z) : prog unit :=
  ploop (seqZ 0 15) (fun avail =>
    forked (line "fork failed") [] (
      eat_memory n;;
      ploop (seqZ 0 avail) (fun _ => sbrk (-4096);; Ret tt);;
      call (SYS_close 1);;
      call (SYS_exec (chars "echo") [chars "echo"; chars "x"]);;
      Ret tt);;
    wait_any);;
  Exit 0.

Definition big_name (i : Z) : list Z := chars "big" ++ [48 + i].
Definition zz_name (i : Z) : list Z := chars "zz" ++ [48 + i / 32; 48 + i mod 32].
Definition O_CREATE_RDWR_TRUNC : Z := Z.lor O_CREATE_RDWR O_TRUNC.

(** The blocks of one file: whether the disk was full. The bytes written are
    those of an uninitialised local, [junk]. *)
Fixpoint diskfull_blocks (k : nat) (junk : list Z) (fd : Z) : prog bool :=
  match k with
  | O => Ret false
  | S k =>
      r <- call (SYS_write fd junk);;
      if negb (r =? BSIZE) then close_ fd;; Ret true else diskfull_blocks k junk fd
  end.

(** [for(fi = 0; done == 0 && '0' + fi < 0177; fi++)]. *)
Fixpoint diskfull_files (junk s : list Z) (fis : list Z) : prog unit :=
  match fis with
  | [] => Ret tt
  | fi :: fis =>
      call (SYS_unlink (big_name fi));;
      fd <- call (SYS_open (big_name fi) O_CREATE_RDWR_TRUNC);;
      if fd <? 0 then printf (line "%s: could not create file %s") [str s; str (big_name fi)] else
      done <- diskfull_blocks (Z.to_nat MAXFILE) junk fd;;
      close_ fd;;
      if done : bool then Ret tt else diskfull_files junk s fis
  end.

(** Create the files "zz00", ... until one fails. *)
Fixpoint create_zz (is_ : list Z) : prog unit :=
  match is_ with
  | [] => Ret tt
  | i :: is_ =>
      call (SYS_unlink (zz_name i));;
      fd <- call (SYS_open (zz_name i) O_CREATE_RDWR_TRUNC);;
      if fd <? 0 then Ret tt else close_ fd;; create_zz is_
  end.

Definition diskfull (junk s : list Z) : prog unit :=
  unlink_ "diskfulldir";;
  diskfull_files junk s (seqZ 0 (127 - 48));;
  create_zz (seqZ 0 128);;
  r <- mkdir_ "diskfulldir";;
  (when r =? 0 do printf (line "%s: mkdir(diskfulldir) unexpectedly succeeded!") [str s]);;
  unlink_ "diskfulldir";;
  ploop (seqZ 0 128) (fun i => call (SYS_unlink (zz_name i));; Ret tt);;
  ploop (seqZ 0 (127 - 48)) (fun i => call (SYS_unlink (big_name i));; Ret tt).

Definition outofinodes (s : list Z) : prog unit :=
  create_zz (seqZ 0 (32 * 32));;
  ploop (seqZ 0 (32 * 32)) (fun i => call (SYS_unlink (zz_name i));; Ret tt).

(** fsfull() is in the file but in no list of tests. *)
Definition ff_name (k : Z) : list Z :=
  [102; u8 (48 + k / 1000); u8 (48 + k mod 1000 / 100); u8 (48 + k mod 100 / 10); u8 (48 + k mod 10)].

Fixpoint fsfull_write (n : nat) (fd total : Z) : prog Z :=
  match n with
  | O => Fuel
  | S n =>
      cc <- call (SYS_write fd (take (Z.to_nat BSIZE) buf0));;
      if cc <? BSIZE then Ret total else fsfull_write n fd (total + cc)
  end.

(** The number of the file at which the loop stopped. *)
Fixpoint fsfull_files (n : nat) (nfiles : Z) : prog Z :=
  match n with
  | O => Fuel
  | S m =>
      printf (line "writing %s") [str (ff_name nfiles)];;
      fd <- call (SYS_open (ff_name nfiles) O_CREATE_RDWR);;
      if fd <? 0 then printf (line "open %s failed") [str (ff_name nfiles)];; Ret nfiles else
      total <- fsfull_write n fd 0;;
      printf (line "wrote %d bytes") [VInt total];;
      close_ fd;;
      if total =? 0 then Ret nfiles else fsfull_files m (nfiles + 1)
  end.

Definition fsfull (n : nat) : prog unit :=
  printf (line "fsfull test") [];;
  nfiles <- fsfull_files n 0;;
  ploop (rev (seqZ 0 (nfiles + 1))) (fun k => call (SYS_unlink (ff_name k));; Ret tt);;
  printf (line "fsfull test finished") [].

(** ** The lists of tests *)

Definition test : Type := (list Z -> prog unit) * list Z.
Definition named (f : list Z -> prog unit) (name : string) : test := (f, chars name).

Section Tests.

(** The bound on loops, the addresses the tests use (umalloc.c's header, the
    uninitialised array, the stack pointer) and the bytes of an uninitialised
    local. *)
Context (n : nat) (base uninit sp : Z) (junk : list Z).

Definition quicktests : list test :=
  [named copyin_test "copyin"; named copyout_test "copyout"; named copyinstr1 "copyinstr1"; named copyinstr2 "copyinstr2";
   named (copyinstr3 n) "copyinstr3"; named rwsbrk "rwsbrk"; named truncate1 "truncate1"; named truncate2 "truncate2";
   named truncate3 "truncate3"; named openiputtest "openiput"; named exitiputtest "exitiput"; named iputtest "iput";
   named opentest "opentest"; named writetest "writetest"; named (writebig n) "writebig"; named createtest "createtest";
   named dirtest "dirtest"; named exectest "exectest"; named (pipe1 n) "pipe1"; named (killstatus n) "killstatus";
   named preempt "preempt"; named exitwait "exitwait"; named reparent_test "reparent"; named twochildren "twochildren";
   named forkfork "forkfork"; named (forkforkfork n) "forkforkfork"; named reparent2 "reparent2";
   named (mem_test base n) "mem"; named (sharedfd n) "sharedfd"; named (fourfiles n) "fourfiles";
   named createdelete "createdelete"; named unlinkread "unlinkread"; named linktest "linktest";
   named (concreate n) "concreate"; named linkunlink "linkunlink"; named subdir "subdir"; named bigwrite "bigwrite";
   named (bigfile n) "bigfile"; named fourteen "fourteen"; named rmdot "rmdot"; named dirfile "dirfile"; named iref "iref";
   named forktest_u "forktest"; named sbrkbasic "sbrkbasic"; named sbrkmuch "sbrkmuch"; named kernmem "kernmem";
   named MAXVAplus "MAXVAplus"; named (sbrkfail n) "sbrkfail"; named sbrkarg "sbrkarg"; named validatetest "validatetest";
   named (bsstest uninit) "bsstest"; named bigargtest "bigargtest"; named argptest "argptest";
   named (stacktest sp) "stacktest"; named nowrite "nowrite"; named pgbug "pgbug"; named sbrkbugs "sbrkbugs";
   named sbrklast "sbrklast"; named sbrk8000 "sbrk8000"; named badarg "badarg"].

Definition slowtests : list test :=
  [named bigdir "bigdir"; named manywrites "manywrites"; named badwrite "badwrite"; named (execout n) "execout";
   named (diskfull junk) "diskfull"; named outofinodes "outofinodes"].

(** ** The driver *)

(** run(): whether the child's exit status was 0. *)
Definition run_test (t : test) : prog bool :=
  printf (chars "test %s: ") [str t.2];;
  pid <- call SYS_fork;;
  die_if (pid <? 0) (line "runtest: fork error") [];;
  (when pid =? 0 do (t.1 t.2;; Exit 0));;
  xstatus <- wait_status 0;;
  (if negb (xstatus =? 0) then printf (line "FAILED") [] else printf (line "OK") []);;
  Ret (xstatus =? 0).

(** Whether the test is to be run. *)
Definition selected (justone : option (list Z)) (t : test) : bool :=
  match justone with
  | None => true
  | Some name => strcmp t.2 name =? 0
  end.

Fixpoint runtests (tests : list test) (justone : option (list Z)) (continuous : Z) : prog Z :=
  match tests with
  | [] => Ret 0
  | t :: tests =>
      if selected justone t then
        passed <- run_test t;;
        if negb passed && negb (continuous =? 2) then printf (line "SOME TESTS FAILED") [];; Ret 1
        else runtests tests justone continuous
      else runtests tests justone continuous
  end.

(** The child of countfree() reports every page it gets. *)
Fixpoint report_pages (n : nat) (fds1 : Z) : prog unit :=
  match n with
  | O => Fuel
  | S n =>
      a <- sbrk 4096;;
      if a =? SBRK_ERR then Ret tt else
      store (u64 (a + 4096 - 1)) 1;;
      k <- write_ fds1 "x";;
      die_if (negb (k =? 1)) (line "write() failed in countfree()") [];;
      report_pages n fds1
  end.

Fixpoint count_reports (n : nat) (fds0 k : Z) : prog Z :=
  match n with
  | O => Fuel
  | S n =>
      cc <- call (SYS_read fds0 1);;
      die_if (cc <? 0) (line "read() failed in countfree()") [];;
      if cc =? 0 then Ret k else count_reports n fds0 (k + 1)
  end.

Definition countfree : prog Z :=
  '(fds0, fds1) <- pipe_or_die (fun r => r <? 0) (line "pipe() failed in countfree()") [];;
  forked (line "fork failed in countfree()") [] (close_ fds0;; report_pages n fds1);;
  close_ fds1;;
  k <- count_reports n fds0 0;;
  close_ fds0;;
  wait_any;;
  Ret k.

(** One round of drivetests(): [true] when it ends with status 1. *)
Definition drive_round (quick : bool) (continuous : Z) (justone : option (list Z)) : prog bool :=
  printf (line "usertests starting") [];;
  free0 <- countfree;;
  r <- runtests quicktests justone continuous;;
  if c_true r && negb (continuous =? 2) then Ret true else
  stop <- (if quick then Ret false else
    (when bool_decide (justone = None) do printf (line "usertests slow tests starting") []);;
    r <- runtests slowtests justone continuous;;
    Ret (c_true r && negb (continuous =? 2)));;
  if stop : bool then Ret true else
  free1 <- countfree;;
  if free1 <? free0 then
    printf (line "FAILED -- lost some free pages %d (out of %d)") [VInt free1; VInt free0];;
    Ret (negb (continuous =? 2))
  else Ret false.

(** [do ... while(continuous)]; [rounds] bounds the rounds. *)
Fixpoint drivetests (rounds : nat) (quick : bool) (continuous : Z) (justone : option (list Z)) : prog Z :=
  match rounds with
  | O => Fuel
  | S rounds =>
      stop <- drive_round quick continuous justone;;
      if stop : bool then Ret 1 else
      if c_true continuous then drivetests rounds quick continuous justone else Ret 0
  end.

Definition usertests_main (rounds : nat) (argv : list (list Z)) : prog unit :=
  let arg := nth 1 argv [] in
  let two := (length argv =? 2)%nat in
  '(quick, continuous, justone) <-
    (if two && (strcmp arg (chars "-q") =? 0) then Ret (true, 0, None)
     else if two && (strcmp arg (chars "-c") =? 0) then Ret (false, 1, None)
     else if two && (strcmp arg (chars "-C") =? 0) then Ret (false, 2, None)
     else if two && negb (hd 0 arg =? 45) then Ret (false, 0, Some arg)
     else if (1 <? length argv)%nat then printf (line "Usage: usertests [-c] [-C] [-q] [testname]") [];; Exit 1
     else Ret (false, 0, None));;
  r <- drivetests rounds quick continuous justone;;
  (when c_true r do Exit 1);;
  printf (line "ALL TESTS PASSED") [];;
  Exit 0.

End Tests.

(** ** What the driver reports *)

(** A program with the children it forks. When fork() succeeds, the child runs
    first, with the answer 0, until it ends; its exit status is kept for wait().
    The driver does nothing between fork() and wait(), so that no other order of
    the two would show. A child that returns from the program instead of exiting
    is not an outcome, nor is one out of fuel. *)
Inductive family (W A : Type) : Type :=
| FReturned (a : A) (w : W) (kids : list Z)
| FExited (st : Z) (w : W)
| FStuck.
Arguments FReturned {W A} a w kids.
Arguments FExited {W A} st w.
Arguments FStuck {W A}.

Section Family.
Context {W : Type} (os : sysc -> W -> answer * W).

Fixpoint run_family {A} (p : prog A) (w : W) (kids : list Z) : family W A :=
  match p with
  | Ret a => FReturned a w kids
  | Exit st => FExited st w
  | Fuel => FStuck
  | Sys SYS_fork k =>
      let '(r, w) := os SYS_fork w in
      if a_val r <? 0 then run_family (k r) w kids else
      match run_family (k (mkAnswer 0 [])) w [] with
      | FExited st w => run_family (k r) w (kids ++ [st])
      | _ => FStuck
      end
  | Sys SYS_wait k =>
      match kids with
      | [] => run_family (k (mkAnswer (-1) [])) w []
      | st :: kids => let '(r, w) := os SYS_wait w in run_family (k (mkAnswer (a_val r) (le_bytes 4 st))) w kids
      end
  | Sys c k => let '(r, w) := os c w in run_family (k r) w kids
  end.

Lemma family_assoc {A B C} (p : prog A) (f : A -> prog B) (g : B -> prog C) : forall w kids,
  run_family (pbind (pbind p f) g) w kids = run_family (pbind p (fun a => pbind (f a) g)) w kids.
Proof.
  induction p as [a|c k IH|st|]; intros w kids; try done. destruct c; cbn [pbind run_family];
    try (destruct (os _ w) as [r w1]; apply IH).
  - destruct (os SYS_fork w) as [r w1]. destruct (a_val r <? 0); [apply IH|]. rewrite IH.
    destruct (run_family (pbind (k (mkAnswer 0 [])) _) w1 []); [done|apply IH|done].
  - destruct kids as [|st kids]; [apply IH|]. destruct (os SYS_wait w) as [r w1]. apply IH.
Qed.

Lemma family_writes {A B} (p : prog A) (f : A -> prog B) : writes_only p -> forall w kids,
  exists a w', run os p w = Returned a w' /\ run_family (pbind p f) w kids = run_family (f a) w' kids.
Proof.
  induction p as [a|c k IH|st|]; intros H w kids; try done; [by exists a, w|]. destruct c; try done.
  cbn. destruct (os (SYS_write fd bytes) w) as [r w1]. by apply IH.
Qed.

(** What follows a program that ends in exit() is not reached. *)
Lemma family_exit {A B} (p : prog A) st0 (f : A -> prog B) : forall w kids,
  run_family (pbind (pbind p (fun _ => Exit st0)) f) w kids =
    match run_family (pbind p (fun _ => Exit (A := A) st0)) w kids with FExited st w => FExited st w | _ => FStuck end.
Proof.
  induction p as [a|c k IH|st|]; intros w kids; try done. destruct c; cbn [pbind run_family];
    try (destruct (os _ w) as [r w1]; apply IH).
  - destruct (os SYS_fork w) as [r w1]. destruct (a_val r <? 0); [apply IH|]. rewrite IH.
    destruct (run_family (pbind (k (mkAnswer 0 [])) (fun _ => Exit st0)) w1 []); [done|apply IH|done].
  - destruct kids as [|st kids]; [apply IH|]. destruct (os SYS_wait w) as [r w1]. apply IH.
Qed.

(** The program the child of a test runs: the test, then exit(0). *)
Definition test_child (t : test) : prog unit := t.1 t.2;; Exit 0.

(** printf() of the driver, from [w] to [w']. *)
Definition says (fmt : list Z) (ap : list varg) (w w' : W) : Prop := run os (printf fmt ap) w = Returned tt w'.

(** A session of the driver with the tests of a list: the result, the exit
    statuses of the tests that were run, and the world at the end. No result
    means that fork() failed and the driver exited. *)
Inductive session (stop : bool) : list test -> W -> option Z -> list Z -> W -> Prop :=
| S_end w : session stop [] w (Some 0) [] w
| S_nofork f name ts w w1 r w2 w3 :
    says (chars "test %s: ") [str name] w w1 -> os SYS_fork w1 = (r, w2) -> a_val r < 0 ->
    says (line "runtest: fork error") [] w2 w3 ->
    session stop ((f, name) :: ts) w None [] w3
| S_passed f name ts w w1 r w2 w3 st r' w4 w5 res sts w' :
    says (chars "test %s: ") [str name] w w1 -> os SYS_fork w1 = (r, w2) -> 0 < a_val r ->
    run_family (test_child (f, name)) w2 [] = FExited st w3 -> s32 st = 0 ->
    os SYS_wait w3 = (r', w4) -> says (line "OK") [] w4 w5 ->
    session stop ts w5 res sts w' ->
    session stop ((f, name) :: ts) w res (0 :: sts) w'
| S_failed f name ts w w1 r w2 w3 st r' w4 w5 w' :
    says (chars "test %s: ") [str name] w w1 -> os SYS_fork w1 = (r, w2) -> 0 < a_val r ->
    run_family (test_child (f, name)) w2 [] = FExited st w3 -> s32 st <> 0 ->
    os SYS_wait w3 = (r', w4) -> says (line "FAILED") [] w4 w5 ->
    stop = true -> says (line "SOME TESTS FAILED") [] w5 w' ->
    session stop ((f, name) :: ts) w (Some 1) [s32 st] w'
| S_ignored f name ts w w1 r w2 w3 st r' w4 w5 res sts w' :
    says (chars "test %s: ") [str name] w w1 -> os SYS_fork w1 = (r, w2) -> 0 < a_val r ->
    run_family (test_child (f, name)) w2 [] = FExited st w3 -> s32 st <> 0 ->
    os SYS_wait w3 = (r', w4) -> says (line "FAILED") [] w4 w5 ->
    stop = false -> session stop ts w5 res sts w' ->
    session stop ((f, name) :: ts) w res (s32 st :: sts) w'.

Lemma session_verdict stop ts w res sts w' : session stop ts w res sts w' ->
  if stop then res = Some 1 <-> Exists (fun st => st <> 0) sts else res <> Some 1.
Proof.
  intros H. induction H; destruct stop; rewrite ?Exists_nil, ?Exists_cons in *; try done; naive_solver.
Qed.

(** The status wait() stores. *)
Lemma stored_status st : s32 (get_le 4 (le_bytes 4 st) 0) = s32 st.
Proof.
  unfold get_le. rewrite drop_0, take_ge, le_value_bytes by (by rewrite length_le_bytes).
  unfold s32. change (256 ^ Z.of_nat 4) with (2 ^ 32). by rewrite Zplus_mod_idemp_l.
Qed.

Lemma family_printf {B} fmt ap (f : unit -> prog B) w kids :
  exists w', says fmt ap w w' /\ run_family (pbind (printf fmt ap) f) w kids = run_family (f tt) w' kids.
Proof.
  destruct (family_writes (printf fmt ap) f (writes_printf fmt ap) w kids) as ([] & w' & E & H). by exists w'.
Qed.

(** run() up to the fork. *)
Definition after_fork (t : test) (pid : Z) : prog bool :=
  die_if (pid <? 0) (line "runtest: fork error") [];;
  (when pid =? 0 do (t.1 t.2;; Exit 0));;
  xstatus <- wait_status 0;;
  (if negb (xstatus =? 0) then printf (line "FAILED") [] else printf (line "OK") []);;
  Ret (xstatus =? 0).

Lemma run_test_start {B} (t : test) (k : bool -> prog B) w :
  exists w1, says (chars "test %s: ") [str t.2] w w1 /\
    run_family (pbind (run_test t) k) w [] = run_family (Sys SYS_fork (fun r => pbind (after_fork t (a_val r)) k)) w1 [].
Proof.
  unfold run_test. rewrite family_assoc.
  destruct (family_printf (chars "test %s: ") [str t.2] (fun _ => pbind (pid <- call SYS_fork;; after_fork t pid) k) w []) as (w1 & Hs & E).
  exists w1. split; [exact Hs|exact E].
Qed.

(** The child of run(). *)
Lemma after_fork_child {B} (t : test) (k : bool -> prog B) w :
  run_family (pbind (after_fork t 0) k) w [] =
    match run_family (test_child t) w [] with FExited st w => FExited st w | _ => FStuck end.
Proof.
  unfold after_fork. change (0 <? 0) with false. change (0 =? 0) with true. unfold die_if. cbn [pbind].
  rewrite family_assoc. apply family_exit.
Qed.

(** The parent of a child that ended with status [st]. *)
Lemma after_fork_parent {B} (t : test) (k : bool -> prog B) pid st w : 0 < pid ->
  exists r w1 w2, os SYS_wait w = (r, w1) /\ says (if s32 st =? 0 then line "OK" else line "FAILED") [] w1 w2 /\
    run_family (pbind (after_fork t pid) k) w [st] = run_family (k (s32 st =? 0)) w2 [].
Proof.
  intros Hp. unfold after_fork, die_if, wait_status. rewrite (proj2 (Z.ltb_ge pid 0)), (proj2 (Z.eqb_neq pid 0)) by lia.
  cbn [pbind ecall run_family]. destruct (os SYS_wait w) as [r w1]. exists r, w1.
  change (a_out (mkAnswer (a_val r) (le_bytes 4 st))) with (le_bytes 4 st). cbn [pbind].
  replace (match le_bytes 4 st with [] => 0 | _ => _ end) with (s32 st) by (symmetry; apply stored_status).
  rewrite family_assoc. destruct (s32 st =? 0); cbn [negb].
  - destruct (family_printf (line "OK") [] (fun _ => pbind (Ret true) k) w1 []) as (w2 & Hs & E). by exists w2.
  - destruct (family_printf (line "FAILED") [] (fun _ => pbind (Ret false) k) w1 []) as (w2 & Hs & E). by exists w2.
Qed.

Lemma runtests_session tests justone continuous :
  (forall w, a_val (os SYS_fork w).1 <> 0) ->
  (forall t, t ∈ tests -> selected justone t = true -> forall w, exists st w', run_family (test_child t) w [] = FExited st w') ->
  forall w, exists res sts w', session (negb (continuous =? 2)) (filter (selected justone) tests) w res sts w' /\
    run_family (runtests tests justone continuous) w [] = match res with Some r => FReturned r w' [] | None => FExited 1 w' end.
Proof.
  intros Hf Hend. induction tests as [|[f name] tests IH]; intros w; [eexists _, _, _; split; [constructor|done]|].
  assert (IH' := IH (fun t Ht => Hend t (list_elem_of_further _ _ _ Ht))). clear IH.
  rewrite filter_cons. cbn [runtests]. destruct (selected justone (f, name)) eqn:Es; [|apply IH'].
  rewrite decide_True by done. specialize (Hend (f, name) (list_elem_of_here _ _) Es).
  match goal with |- context [pbind (run_test _) ?k] => set (K := k) end.
  destruct (run_test_start (f, name) K w) as (w1 & Hs & ->). cbn [run_family]. specialize (Hf w1).
  destruct (os SYS_fork w1) as [r w2] eqn:Ef. cbn in Hf. destruct (Z.ltb_spec (a_val r) 0) as [Hr|Hr].
  - unfold after_fork, die_if. rewrite (proj2 (Z.ltb_lt _ _)) by done. rewrite !family_assoc.
    match goal with |- context [pbind (printf ?fm ?ap) ?g] => destruct (family_printf fm ap g w2 []) as (w3 & Hs3 & E3) end.
    exists None, [], w3. split; [exact (S_nofork _ _ _ _ _ _ _ _ _ Hs Ef Hr Hs3)|exact E3].
  - rewrite after_fork_child. destruct (Hend w2) as (st & w3 & E3). rewrite E3. cbn [app].
    destruct (after_fork_parent (f, name) K (a_val r) st w3) as (r' & w4 & w5 & Ew & Hs5 & ->); [lia|].
    destruct (Z.eqb_spec (s32 st) 0) as [E0|E0]; unfold K; cbn [negb andb].
    + destruct (IH' w5) as (res & sts & w' & Hses & E). exists res, (0 :: sts), w'. split; [|exact E].
      eapply S_passed; [exact Hs|exact Ef|lia|exact E3|exact E0|exact Ew|exact Hs5|exact Hses].
    + destruct (negb (continuous =? 2)) eqn:Ec.
      * destruct (family_printf (line "SOME TESTS FAILED") [] (fun _ => Ret 1) w5 []) as (w6 & Hs6 & E6).
        exists (Some 1), [s32 st], w6. split; [|exact E6].
        eapply S_failed; [exact Hs|exact Ef|lia|exact E3|exact E0|exact Ew|exact Hs5|reflexivity|exact Hs6].
      * destruct (IH' w5) as (res & sts & w' & Hses & E). exists res, (s32 st :: sts), w'. split; [|exact E].
        eapply S_ignored; [exact Hs|exact Ef|lia|exact E3|exact E0|exact Ew|exact Hs5|reflexivity|exact Hses].
Qed.

End Family.

(** C38: runtests() of usertests. On any kernel under which fork() gives the parent
    a pid or fails and each selected test comes to an end, runtests() goes through
    exactly the selected tests, in the order of the list: it prints the name,
    forks, the child runs the test and exits with 0 if the test returns, and OK or
    FAILED is printed as the child's status is 0 or not ([session]). Unless
    [continuous] is 2 it stops at the first failure, and it returns 1 exactly when
    one of the tests it ran had a status other than 0; when [continuous] is 2 it
    runs all of them and does not return 1. If fork() fails it exits with 1. *)
Theorem runtests_reports W (os : sysc -> W -> answer * W) tests justone continuous w :
  (forall w, a_val (os SYS_fork w).1 <> 0) ->
  (forall t, t ∈ tests -> selected justone t = true -> forall w, exists st w', run_family os (test_child t) w [] = FExited st w') ->
  exists res sts w', session os (negb (continuous =? 2)) (filter (selected justone) tests) w res sts w' /\
    run_family os (runtests tests justone continuous) w [] = match res with Some r => FReturned r w' [] | None => FExited 1 w' end /\
    if continuous =? 2 then res <> Some 1 else res = Some 1 <-> Exists (fun st => st <> 0) sts.
Proof.
  intros Hf Hend. destruct (runtests_session os tests justone continuous Hf Hend w) as (res & sts & w' & Hs & E).
  exists res, sts, w'. split; [done|]. split; [done|]. apply session_verdict in Hs. by destruct (continuous =? 2).
Qed.

(** A kernel in which every call succeeds but sbrk(), and names can be unlinked
    and linked at will. *)
Definition agreeable (c : sysc) (w : unit) : answer * unit :=
  let v := match c with
           | SYS_fork | SYS_wait => 7
           | SYS_open _ _ => 3
           | SYS_write _ bs => Z.of_nat (length bs)
           | SYS_sbrk _ => SBRK_ERR
           | _ => 0
           end in
  (mkAnswer v [], tt).

Lemma runtests_reports_witness : exists res sts w',
  session agreeable true (slowtests 9 (replicate 1024 0)) tt res sts w' /\
  (res = Some 1 <-> Exists (fun st => st <> 0) sts).
Proof.
  destruct (runtests_reports unit agreeable (slowtests 9 (replicate 1024 0)) None 0 tt) as (res & sts & w' & Hs & _ & H).
  - intros w. discriminate.
  - intros t Ht _ []. unfold slowtests in Ht.
    rewrite !elem_of_cons, elem_of_nil in Ht. destruct Ht as [->|[->|[->|[->|[->|[->|[]]]]]]].
    all: eexists _, tt; vm_compute; reflexivity.
  - exists res, sts, w'. split; [exact Hs|exact H].
Defined.
