(* ===== verification/Start.v ===== *)
(** kernel/start.c and kernel/entry.S: the machine-mode start of a hart.

    [mhart] is what the code touches of a hart in machine mode: the control
    registers it writes, the stack pointer, tp, the privilege mode and the
    program counter. [mret] is the instruction of the privileged
    architecture. The theorem says in which state main() is entered on each
    hart. *)

From S2P Require Import Prelude Riscv.

(** ** Registers *)

Record mhart := mkMh {
  mh_hartid : Z; mh_mstatus : Z; mh_mepc : Z; mh_satp : Z; mh_medeleg : Z; mh_mideleg : Z;
  mh_sie : Z; mh_pmpaddr0 : Z; mh_pmpcfg0 : Z; mh_mie : Z; mh_menvcfg : Z; mh_mcounteren : Z;
  mh_time : Z; mh_stimecmp : Z; mh_tp : Z; mh_sp : Z; mh_mode : Z; mh_pc : Z;
}.

Definition MSTATUS_MPP_MASK : Z := Z.shiftl 3 11.
Definition MSTATUS_MPP_S : Z := Z.shiftl 1 11.
Definition SIE_SEIE : Z := Z.shiftl 1 9.
Definition SIE_STIE : Z := Z.shiftl 1 5.
Definition SIE_SSIE : Z := Z.shiftl 1 1.
Definition MIE_STIE : Z := Z.shiftl 1 5.

Definition r_mhartid (h : mhart) : Z := mh_hartid h.
Definition r_mstatus (h : mhart) : Z := mh_mstatus h.
Definition r_sie (h : mhart) : Z := mh_sie h.
Definition r_mie (h : mhart) : Z := mh_mie h.
Definition r_menvcfg (h : mhart) : Z := mh_menvcfg h.
Definition r_mcounteren (h : mhart) : Z := mh_mcounteren h.
Definition r_time (h : mhart) : Z := mh_time h.

Definition w_mstatus (x : Z) (h : mhart) : mhart :=
  let '(mkMh a b c d e f g i j k l m n o p q r s) := h in mkMh a (u64 x) c d e f g i j k l m n o p q r s.
Definition w_mepc (x : Z) (h : mhart) : mhart :=
  let '(mkMh a b c d e f g i j k l m n o p q r s) := h in mkMh a b (u64 x) d e f g i j k l m n o p q r s.
Definition w_satp (x : Z) (h : mhart) : mhart :=
  let '(mkMh a b c d e f g i j k l m n o p q r s) := h in mkMh a b c (u64 x) e f g i j k l m n o p q r s.
Definition w_medeleg (x : Z) (h : mhart) : mhart :=
  let '(mkMh a b c d e f g i j k l m n o p q r s) := h in mkMh a b c d (u64 x) f g i j k l m n o p q r s.
Definition w_mideleg (x : Z) (h : mhart) : mhart :=
  let '(mkMh a b c d e f g i j k l m n o p q r s) := h in mkMh a b c d e (u64 x) g i j k l m n o p q r s.
Definition w_sie (x : Z) (h : mhart) : mhart :=
  let '(mkMh a b c d e f g i j k l m n o p q r s) := h in mkMh a b c d e f (u64 x) i j k l m n o p q r s.
Definition w_pmpaddr0 (x : Z) (h : mhart) : mhart :=
  let '(mkMh a b c d e f g i j k l m n o p q r s) := h in mkMh a b c d e f g (u64 x) j k l m n o p q r s.
Definition w_pmpcfg0 (x : Z) (h : mhart) : mhart :=
  let '(mkMh a b c d e f g i j k l m n o p q r s) := h in mkMh a b c d e f g i (u64 x) k l m n o p q r s.
Definition w_mie (x : Z) (h : mhart) : mhart :=
  let '(mkMh a b c d e f g i j k l m n o p q r s) := h in mkMh a b c d e f g i j (u64 x) l m n o p q r s.
Definition w_menvcfg (x : Z) (h : mhart) : mhart :=
  let '(mkMh a b c d e f g i j k l m n o p q r s) := h in mkMh a b c d e f g i j k (u64 x) m n o p q r s.
Definition w_mcounteren (x : Z) (h : mhart) : mhart :=
  let '(mkMh a b c d e f g i j k l m n o p q r s) := h in mkMh a b c d e f g i j k l (u64 x) n o p q r s.
Definition w_stimecmp (x : Z) (h : mhart) : mhart :=
  let '(mkMh a b c d e f g i j k l m n o p q r s) := h in mkMh a b c d e f g i j k l m n (u64 x) p q r s.
Definition w_tp (x : Z) (h : mhart) : mhart :=
  let '(mkMh a b c d e f g i j k l m n o p q r s) := h in mkMh a b c d e f g i j k l m n o (u64 x) q r s.
Definition w_sp (x : Z) (h : mhart) : mhart :=
  let '(mkMh a b c d e f g i j k l m n o p q r s) := h in mkMh a b c d e f g i j k l m n o p (u64 x) r s.

(** The privilege mode becomes MPP and the program counter mepc; MPP itself
    becomes U and the interrupt enable of the mode returns from MPIE. *)
Definition mret (h : mhart) : mhart :=
  let mpp := Z.shiftr (Z.land (mh_mstatus h) MSTATUS_MPP_MASK) 11 in
  let mpie := Z.land (Z.shiftr (mh_mstatus h) 7) 1 in
  let st := Z.land (mh_mstatus h) (Z.lnot (Z.lor MSTATUS_MPP_MASK (Z.lor (Z.shiftl 1 3) (Z.shiftl 1 7)))) in
  let st := Z.lor st (Z.lor (Z.shiftl mpie 3) (Z.shiftl 1 7)) in
  let '(mkMh a b c d e f g i j k l m n o p q r s) := h in mkMh a st c d e f g i j k l m n o p q mpp (mh_mepc h).

(** ** entry.S, timerinit() and start()

    [stack0] and [main] are the addresses the linker gives. *)
Definition entry (stack0 : Z) (h : mhart) : mhart := w_sp (stack0 + u64 (4096 * (r_mhartid h + 1))) h.

Definition timerinit (h : mhart) : mhart :=
  let h := w_mie (Z.lor (r_mie h) MIE_STIE) h in
  let h := w_menvcfg (Z.lor (r_menvcfg h) (Z.shiftl 1 63)) h in
  let h := w_mcounteren (Z.lor (r_mcounteren h) 2) h in
  w_stimecmp (r_time h + 1000000) h.

Definition start (main : Z) (h : mhart) : mhart :=
  let x := r_mstatus h in
  let x := Z.land x (Z.lnot MSTATUS_MPP_MASK) in
  let x := Z.lor x MSTATUS_MPP_S in
  let h := w_mstatus x h in
  let h := w_mepc main h in
  let h := w_satp 0 h in
  let h := w_medeleg 0xffff h in
  let h := w_mideleg 0xffff h in
  let h := w_sie (Z.lor (Z.lor (Z.lor (r_sie h) SIE_SEIE) SIE_STIE) SIE_SSIE) h in
  let h := w_pmpaddr0 0x3fffffffffffff h in
  let h := w_pmpcfg0 0xf h in
  let h := timerinit h in
  let id := s32 (r_mhartid h) in
  let h := w_tp id h in
  mret h.

(** ** The state in which main() starts *)

Lemma mpp_set x : 0 <= x < 2 ^ 64 ->
  Z.shiftr (Z.land (u64 (Z.lor (Z.land x (Z.lnot MSTATUS_MPP_MASK)) MSTATUS_MPP_S)) MSTATUS_MPP_MASK) 11 = 1.
Proof.
  intros Hx. unfold MSTATUS_MPP_MASK, MSTATUS_MPP_S, u64. apply Z.bits_inj'. intros n Hn.
  rewrite Z.shiftr_spec, Z.land_spec, Z.shiftl_spec by lia.
  destruct (decide (n = 0)) as [->|H0]; [|destruct (decide (n = 1)) as [->|H1]].
  - rewrite Z.mod_pow2_bits_low, Z.lor_spec, Z.shiftl_spec, Z.land_spec by lia. cbn. by rewrite orb_true_r.
  - rewrite Z.mod_pow2_bits_low, Z.lor_spec, !Z.shiftl_spec, Z.land_spec, Z.lnot_spec, Z.shiftl_spec by lia.
    cbn. by rewrite andb_false_r.
  - replace (n + 11 - 11) with n by lia.
    assert (Z.testbit 3 n = false) as -> by (apply (Z.bits_above_log2 3); cbn; lia).
    assert (Z.testbit 1 n = false) as -> by (apply (Z.bits_above_log2 1); cbn; lia). apply andb_false_r.
Qed.

Definition ncpu : Z := Z.of_nat NCPU.

Lemma entry_sp stack0 main h : 0 <= mh_hartid h < ncpu -> 0 <= stack0 < 2 ^ 63 ->
  mh_sp (start main (entry stack0 h)) = stack0 + 4096 * (mh_hartid h + 1).
Proof.
  intros Hid Hs. unfold ncpu, NCPU in Hid. destruct h. cbn in Hid |- *. unfold r_mhartid. cbn.
  rewrite (u64_small (4096 * _)) by lia. apply u64_small. lia.
Qed.

Lemma sie_bit x n : 0 <= n < 64 -> Z.testbit (u64 (Z.lor x (Z.shiftl 1 n))) n = true.
Proof.
  intros Hn. unfold u64. rewrite Z.mod_pow2_bits_low, Z.lor_spec, Z.shiftl_spec, Z.sub_diag by lia. apply orb_true_r.
Qed.

(** C40: After entry.S and start() every hart is in supervisor mode at main()
    with paging off, every trap delegated, the supervisor's device, timer and
    software interrupts enabled, a timer interrupt asked for and its number in
    tp. Its stack pointer is the end of part hartid of stack0, one part of 4096
    bytes further than the comment in entry.S has it, so that each hart has a
    stack of 4096 bytes of its own inside stack0. *)
Theorem start_enters_main stack0 main h :
  0 <= mh_hartid h < ncpu -> 0 <= mh_mstatus h < 2 ^ 64 -> 0 <= main < 2 ^ 64 -> 0 <= stack0 < 2 ^ 63 ->
  let h' := start main (entry stack0 h) in
  mh_mode h' = 1 /\ mh_pc h' = main /\ mh_satp h' = 0 /\ mh_medeleg h' = 0xffff /\ mh_mideleg h' = 0xffff /\
  mh_tp h' = mh_hartid h /\
  Z.testbit (mh_sie h') 9 = true /\ Z.testbit (mh_sie h') 5 = true /\ Z.testbit (mh_sie h') 1 = true /\
  Z.testbit (mh_mie h') 5 = true /\ mh_stimecmp h' = u64 (mh_time h + 1000000) /\
  mh_sp h' = stack0 + 4096 * (mh_hartid h + 1) /\ stack0 + 4096 <= mh_sp h' <= stack0 + 4096 * ncpu /\
  forall h2, 0 <= mh_hartid h2 < ncpu -> mh_hartid h2 <> mh_hartid h ->
    mh_sp (start main (entry stack0 h2)) <= mh_sp h' - 4096 \/
    mh_sp h' <= mh_sp (start main (entry stack0 h2)) - 4096.
Proof.
  intros Hid Hst Hm Hs h'.
  assert (mh_sp h' = stack0 + 4096 * (mh_hartid h + 1)) as Hsp by by apply entry_sp.
  assert (forall h2, 0 <= mh_hartid h2 < ncpu ->
    mh_sp (start main (entry stack0 h2)) = stack0 + 4096 * (mh_hartid h2 + 1)) as Hsp2 by (intros; by apply entry_sp).
  rewrite Hsp. unfold h'. clear h' Hsp. unfold ncpu, NCPU in *. destruct h as [a b c d e f g i j k l m n o p q r s].
  cbn [mh_hartid mh_mstatus] in *. cbn -[u64 s32 Z.land Z.lor Z.shiftl Z.shiftr Z.testbit Z.lnot Z.add Z.mul Z.of_nat].
  unfold r_mstatus, r_mie, r_sie, r_time, r_mhartid.
  cbn -[u64 s32 Z.land Z.lor Z.shiftl Z.shiftr Z.testbit Z.lnot Z.add Z.mul Z.of_nat]. split_and!.
  - by apply mpp_set.
  - by apply u64_small.
  - done.
  - done.
  - done.
  - rewrite s32_small by lia. apply u64_small. lia.
  - rewrite <- Z.lor_assoc, (Z.lor_comm _ SIE_SEIE), <- Z.lor_assoc, (Z.lor_comm SIE_SEIE), Z.lor_assoc.
    by apply (sie_bit _ 9).
  - rewrite <- Z.lor_assoc, (Z.lor_comm SIE_STIE), Z.lor_assoc. by apply (sie_bit _ 5).
  - by apply (sie_bit _ 1).
  - by apply (sie_bit _ 5).
  - done.
  - done.
  - lia.
  - lia.
  - intros h2 Hid2 Hne. rewrite (Hsp2 h2 Hid2). lia.
Qed.

Lemma start_enters_main_witness :
  let h' := start 0x80000ea0 (entry 0x80008000 (mkMh 3 0xa00001800 0 0 0 0 0 0 0 0 0 0 500 0 0 0 3 0x80000000)) in
  mh_mode h' = 1 /\ mh_pc h' = 0x80000ea0 /\ mh_tp h' = 3 /\ mh_sp h' = 0x8000c000.
Proof.
  destruct (start_enters_main 0x80008000 0x80000ea0
    (mkMh 3 0xa00001800 0 0 0 0 0 0 0 0 0 0 500 0 0 0 3 0x80000000)) as (H1 & H2 & _ & _ & _ & H3 & _);
    [done|done|done|done|].
  split_and!; [exact H1|exact H2|exact H3|vm_compute; reflexivity].
Defined.
